(* ===== verification/_CoqProject ===== *)
-Q . S2P
Prelude.v
Bytes.v
Text.v
Tlv.v
RtpPacket.v
RtpTiming.v
RtpControl.v
PacketBuffer.v
SequenceTracker.v
AesCtr.v
Aead.v
Ap2Audio.v
RtpCodec.v
EncryptedChannel.v
Srp.v
KeyCrypto.v
PairSetup.v
PairingServer.v
Rtsp.v
Ap2Session.v
Unicode.v
Plist.v
RtspParser.v
Ap2Body.v
Ap2Request.v
Ap2Setup.v
PlaybackQueue.v
BTreeMap.v
JitterBuffer.v
Ap2Jitter.v
Ptp.v
PtpClock.v
MultiRoom.v
PtpNode.v
PtpHandler.v
EncryptedRtsp.v
PairVerify.v
Hap.v
RtspClient.v
Sdp.v
Dmap.v
RaopSession.v
Features.v
Float.v
RecvTiming.v
Controls.v
Discovery.v
Groups.v
Advertise.v
Ap2Control.v
RaopServer.v
RingBuffer.v
AudioFormat.v
PcmStream.v
PasswordAuth.v
RaopClient.v
ClientSession.v
UrlStream.v
Client.v
ConnLink.v
ConnManager.v
RaopStream.v
RaopConnect.v
