(* ===== verification/Prelude.v ===== *)
(** * airplay2-rs: a verification development

    airplay2-rs is an AirPlay 1 (RAOP) and AirPlay 2 client and receiver.  A
    sender discovers a receiver, pairs with it (TLV8 messages carrying SRP-6a,
    Ed25519 and X25519 exchanges), talks RTSP to it over a channel encrypted
    with the keys of the pairing, and streams audio as encrypted RTP packets
    beside timing and control packets; the receiver routes the requests, checks
    them against the state of its session, tracks the packets, buffers them
    against jitter and plays them.  The crate holds both ends, so that most
    correctness statements relate an encoder to the decoder of the other end or
    a protocol's client to its server.

    ** Files

    Shared:
    - [Prelude] (this file): outcomes of Rust functions, machine integers,
      weakest preconditions, automation;
    - [Bytes]: byte strings, big- and little-endian integers, slices;
    - [Text]: strings as byte lists; [Unicode]: scalar values, UTF-8, UTF-16,
      trimming, splitting and case mapping of text;
    - [BTreeMap]: ordered maps, with the finite map they represent;
    - [Float]: [f32] and [f64] by their bits, over the Standard Library's
      executable floating-point arithmetic.

    Components (with their sources under src/src/):
    - [Tlv] (protocol/pairing/tlv.rs): the TLV8 encoder and decoder;
    - [RtpPacket] (protocol/rtp/packet.rs): RTP headers and packets;
    - [RtpTiming] (protocol/rtp/timing.rs, raop_timing.rs): NTP timestamps, the
      timing exchanges and the smoothed clock offset;
    - [RtpControl] (protocol/rtp/control.rs, raop.rs,
      receiver/control_receiver.rs): control, sync and retransmit packets;
    - [PacketBuffer] (protocol/rtp/packet_buffer.rs): the sender's retransmit
      buffer and the loss detector;
    - [SequenceTracker] (receiver/sequence_tracker.rs): gap statistics;
    - [AesCtr] (protocol/crypto/aes.rs): the buffered AES-128 counter mode;
    - [Aead] (protocol/crypto/chacha.rs): the ChaCha20-Poly1305 wrapper;
    - [RtpCodec] (protocol/rtp/codec.rs): packetisation, encryption and
      decryption of audio;
    - [EncryptedChannel] (receiver/ap2/encrypted_channel.rs): framing of the
      encrypted control connection;
    - [Srp] (protocol/crypto/srp.rs): SRP-6a, both ends;
    - [KeyCrypto] (protocol/crypto/hkdf.rs, ed25519.rs, x25519.rs): the
      wrappers of the key primitives;
    - [PairSetup] (protocol/pairing/setup.rs): the client of pair-setup;
    - [PairingServer] (receiver/ap2/pairing_server.rs): pair-setup and
      pair-verify on the receiver;
    - [Rtsp] (protocol/rtsp/headers.rs, request.rs, response.rs,
      server_codec.rs, receiver/ap2/response_builder.rs): messages and response
      construction;
    - [Ap2Session] (receiver/ap2/session_state.rs): the session's states;
    - [Ap2Request] (receiver/ap2/request_router.rs, request_handler.rs,
      pairing_handlers.rs): routing, guards, dispatch, and the pairing handlers
      with their lock;
    - [PlaybackQueue] (control/queue.rs): the client's queue;
    - [JitterBuffer] (audio/jitter.rs) and [Ap2Jitter]
      (receiver/ap2/jitter_buffer.rs): the two jitter buffers;
    - [Ptp] (protocol/ptp/timestamp.rs, message.rs), [PtpClock] (clock.rs),
      [PtpNode] (node.rs) and [PtpHandler] (handler.rs): PTP messages in both
      formats, the clock filter, the symmetric node and the master and slave
      handlers;
    - [Plist] (protocol/plist/mod.rs, encode.rs, decode.rs): binary property
      lists;
    - [RtspParser] (protocol/rtsp/request.rs, server_codec.rs): requests, from the
      client's builder to the server's codec;
    - [EncryptedRtsp] (receiver/ap2/encrypted_rtsp.rs): the receiver's encrypted
      control connection;
    - [PairVerify] (protocol/pairing/verify.rs, transient.rs, auth_setup.rs,
      mod.rs, storage.rs): the client of pair-verify and its relatives;
    - [Hap] (net/secure.rs) and [RtspClient] (protocol/rtsp/codec.rs, the request
      loop of connection/manager.rs): the client's secure session and its
      exchange of a request for a response;
    - [ClientSession] (protocol/rtsp/session.rs): the AirPlay 2 client's requests
      and states;
    - [Controls] (control/volume.rs, control/playback.rs, types/state.rs,
      types/track.rs) and [Groups] (group/manager.rs): what the client sends to
      play, seek and change the volume, and its groups of devices;
    - [AudioFormat] (audio/format.rs): sample formats and their sizes;
    - [PcmStream] (streaming/source.rs, pcm.rs, audio/aac_encoder.rs): the loop
      that turns a source of samples into packets, with its commands and
      retransmissions;
    - [UrlStream] (streaming/url.rs): playing a URL on the device;
    - [Client] (connection/state.rs, state/container.rs, state/events.rs,
      client/mod.rs, AirPlay2SessionImpl of client/session.rs, player/mod.rs): the
      client, its state and subscribers, its background tasks, and the player's
      reconnection;
    - [ConnLink] and [ConnManager] (connection/manager.rs): the connection manager,
      first its requests and pairing, then the set-up of a session, connecting and
      disconnecting, audio and time announcements.

    The AirPlay 2 receiver beyond the control connection:
    - [Ap2Body] (receiver/ap2/stream.rs, body_handler.rs): typed request bodies;
    - [Ap2Setup] (setup_handler.rs): both phases of SETUP and its ports;
    - [Ap2Control] (command_handler.rs, metadata_handler.rs, volume_handler.rs);
    - [Ap2Audio] (rtp_decryptor.rs, rtp_receiver.rs): from a datagram to a frame;
    - [PasswordAuth] (password_auth.rs, password_integration.rs);
    - [MultiRoom] (multi_room.rs): the rate control of a group of receivers.

    Discovery:
    - [Features] (receiver/ap2/features.rs, config.rs, discovery/parser.rs, parts
      of types/device.rs and types/raop.rs): flags, their texts, configuration;
    - [Discovery] (discovery/browser.rs, raop.rs, mod.rs, types/device.rs,
      types/raop.rs, client/protocol.rs): TXT records, the browser, the scan and
      the choice of a protocol;
    - [Advertise] (discovery/advertiser.rs, receiver/ap2/advertisement.rs): the
      records a receiver publishes.

    RAOP:
    - [Sdp] (protocol/sdp/, receiver/announce_handler.rs,
      protocol/raop/key_exchange.rs): session descriptions and the keys in them;
    - [Dmap] (protocol/daap/, the receiver's metadata and artwork handlers);
    - [RaopSession] (receiver/session.rs, rtsp_handler.rs and its helpers) and
      [RaopServer] (receiver/session_manager.rs, server.rs): the receiver's
      sessions, its handlers, its manager and its connections;
    - [RaopClient] (protocol/raop/session.rs, auth.rs, encryption.rs),
      [RaopConnect] (client/session.rs) and [RaopStream]
      (streaming/raop_streamer.rs, receiver/rtp_receiver.rs): the client's
      session, its connection and the audio stream;
    - [RecvTiming] (receiver/timing.rs, playback_timing.rs): the receiver's clock
      and playback times;
    - [RingBuffer] (audio/buffer.rs): the lock-free ring between two threads.

    Each file has one module of its name.  A struct is a record with the
    source's fields, an enumeration an inductive type with its variants, a
    method a function from the old value to the result and the new value, and a
    function that can fail or panic a function into [outcome].

    ** How the components interact

    [PairingServer] and [PairSetup] exchange [Tlv] messages and run [Srp]
    against each other; the keys they derive are those [EncryptedChannel] frames
    the control connection with, through [Aead].  [Ap2Request] calls
    [PairingServer] behind a mutex, answers through [Rtsp] and decides by
    [Ap2Session].  [RtpCodec] builds [RtpPacket]s and encrypts them with [AesCtr]
    or [Aead]; [PacketBuffer] keeps them for the retransmissions [RtpControl]
    asks for; [SequenceTracker] and the jitter buffers receive them.

    The primitives of external crates are interfaces with the laws the code
    relies on, and the theorems are proved against the interface: [AeadCipher]
    with [AeadLaws] (what is sealed opens again, a sealed message is longer by
    the tag), [BlockCipher] (blocks of sixteen bytes), [Sha512] (its output
    length), and [PairCrypto] with [PairCryptoLaws] (key agreement commutes, a
    key's signatures verify, output lengths).  Witnesses instantiate each with a
    concrete function.
    Random numbers, clocks and generated identifiers are arguments; the order of
    a [HashMap]'s iteration is an interface too ([HashOrder], [Sdp.AttrOrder],
    [Ap2Body.ParamOrder], [Discovery.DeviceOrder]).  Further interfaces are
    [Sdp.Base64], [Sdp.Rsa] and [RaopClient.AppleRsa] (decoding undoes encoding),
    [RaopStream.BlockDecipher], [Ap2Body.AddrSyntax], [Advertise.Mdns] with
    [MdnsLaws] (what is registered is published until it is withdrawn),
    [Advertise.Lowercase], [Controls.CommandLink] (the connection that carries a
    command, or fails), [PcmStream.Encoders] and [PcmStream.AudioSource],
    [Client.AirPlaySession] (either kind of session), [Client.Connection] (what the
    client asks of the manager; [ConnManager.manager_connection] provides it),
    [ConnLink.Net] (what the network, the clocks and the random generator answer, by
    the number of the question), and the printing, reading and logarithm of floats.

    On the client, [RtspClient] sends what [RtspParser] encodes through [Hap] and
    decodes what [Rtsp] answers; on the receiver, [EncryptedRtsp] feeds what
    [EncryptedChannel] decrypts to [RtspParser].  [PairVerify] talks to
    [PairingServer], and [PtpNode] and [PtpHandler] feed [PtpClock] with what
    [Ptp] decodes; [MultiRoom] reads that clock.  [RaopConnect] drives
    [RaopClient] and builds the [RaopStream] streamer; [RaopServer] decodes with
    [RtspParser], dispatches to [RaopSession] and, for ANNOUNCE, to [Sdp].
    [Advertise] publishes what [Features] prints, and [Discovery] reads it.
    [Controls] sends [Plist] and [Dmap] bodies; [Ap2Control] reads them.
    [ConnManager] numbers its requests with [ClientSession], exchanges them through
    [RtspClient], pairs with [PairSetup] and [PairVerify] and starts the clock of
    [PtpHandler]; [Client] drives it with [Controls], [PlaybackQueue], [PcmStream] and
    [UrlStream].

    ** What is proved

    - Round trips and exactness of the codecs: [Tlv], [RtpPacket],
      [RtpControl] and [RtpCodec] decode what they encode, and their decoders
      are total and safe on any bytes.
    - Protocol correctness: SRP agreement for any parameters; transient
      pair-setup between the crate's own client and server completes with
      matching keys; the server never panics in any reachable state and
      completes pair-setup only through the proof check; but pair-verify
      completes for clients that were never paired.
    - The encrypted channel refines a reliable message stream, for every way of
      cutting the bytes into reads; decryption consumes exactly one frame.
    - The optimised counter mode is the textbook keystream; packetisation loses
      no samples; nonces are fresh within a run, and not across [reset].
    - Access control: an unauthenticated request reaches discovery and pairing
      only; an authenticated state is reached only through all pairing steps.
    - Data structures: the retransmit buffer is a sliding window and its range
      query a filter; the loss detector and the tracker are exact on in-order
      runs; the queue keeps its invariant under every operation and a shuffled
      pass visits every track once; the jitter buffers put in order what arrives in time, never replay,
      and return exactly the samples asked for.
    - Timing: the measured offset is within half a round trip of the truth and
      the smoothed estimate contracts towards the measurements.  For PTP: messages
      round-trip, decoded fields are those on the wire, no packet or timer makes
      a node panic, two nodes agree on the master, a first exchange on the wire within
      100 ms calibrates the slave, the median filter withstands a minority of bad
      measurements, and the fallback to one-way estimates is permanent.
    - Property lists: every value within the object limit is encoded and decodes
      to itself; the decoder terminates on every input, and panics on some.
    - The control connection end to end: any requests, cut in any way, are
      delivered in order and once each by the encrypted connection; the client
      finds the response to its request whatever precedes it; the client's
      secure session is a reliable byte stream.
    - Pair-verify on the client: it completes only with a holder of the stored
      key, and always with an honest one.
    - RAOP: descriptions and DMAP data round-trip; connecting runs the four
      requests and ends with both sides knowing each other's ports; the receiver
      answers requests one after the other however they are cut, its sessions are
      neither lost nor doubled under any interleaving of connections; streamed
      packets are numbered and encrypted at their place and can be resent.
    - The ring buffer is a bounded queue under every interleaving of its threads.
    - The AirPlay 2 receiver: SETUP hands out fresh ports and tells both sides the
      same ones; sealed audio reaches the jitter buffer unchanged; the client's
      metadata is read as it was sent; a drift is corrected towards the group.
    - The client: its session's requests are understood by the receiver; the
      device has the volume the controller reports; playing anchors the stream to
      the master's clock; groups have one leader and disjoint members; streaming
      PCM delivers every byte of a source in order ([PcmStream.stream_delivers]); the client reports
      what its controller knows ([Client.client_reports_playing]); reconnecting makes
      a bounded number of attempts ([Client.reconnect_bounded]).
    - The connection manager: in whatever way the network fails, it is connected with
      all it needs, disconnected with nothing left open, or failed, and its events
      tell which ([ConnManager.connection_settles]); pairing replies are read exactly
      ([ConnLink.pairing_reply_read]); it reads from the receiver's answers the ports
      the receiver handed out ([ConnManager.setup_answers_agree]).
    - Discovery: a scan reports exactly the devices the browser knows; the two
      services of a device become one device in either order; a receiver is
      discovered with what it advertises, and what it advertises is up to date.
    - Composition of the crate's two ends where they do not fit: the receiver
      rejects the client's blocks ([Hap.own_receiver_rejects]) and the client the
      server's pair-verify answer ([PairVerify.own_server_rejected]); the
      receiver the client's key and audio ([Sdp.own_announce_rejected],
      [RaopStream.own_stream_garbled]) and its first SETUP
      ([ConnManager.own_setup_rejected]); and the client's discovery the AirPlay 2
      receiver ([Advertise.own_receiver_refused]).
    - Where the code deviates from its documentation or intent, a theorem
      states the behaviour as it is (for instance
      [Ap2Request.pair_verify_completion_blocks],
      [Ap2Jitter.overflow_drops_everything]).

    ** Integers, bounds and fuel

    A [w]-bit integer is a [Z] with its wrap-around or its overflow check
    written out at every operation; statistics counters of 64 bits that only
    count packets are unbounded.  A loop that is not structural carries
    fuel, and the theorems prove that the fuel given by its caller is enough:
    [Tlv.decode_loop], [Bytes.chunks] and the two loops of [AesCtr] by the length
    of the input, [EncryptedChannel.decrypt_all] by the length of the buffer,
    [PacketBuffer.skip_requests] by the number of requests,
    [Ap2Jitter.pull_loop] by twice the samples requested and the frames
    buffered, [Ap2Jitter.overflow_loop] by the frames buffered,
    [Plist.decode_object] by the number of objects and one, [PtpNode.scan_tlvs],
    [Hap.take_blocks], [EncryptedRtsp.drain] and [RtspClient.next_response] by the
    bytes they read and one, and so the containers and loops of [Dmap] and
    [RaopServer.serve_fuel]; [Ap2Setup.allocate_fuel] by the size of the port
    range, [Features.hex_fuel] by the sixteen digits of 64 bits,
    [Discovery.scan_fuel] by twice the turns of the event loop and one,
    [PcmStream]'s filling of its ring by the high watermark and the reconnection of
    [Client] by its ten attempts.  [ConnLink] recurses over the reads of a stream; a
    call that waits for a silent device is the result [Blocked].  Floats are their bit
    patterns.

    ** What is not modelled

    Sockets, files, audio devices and the asynchronous runtime, with the wrappers in
    net/, streaming from files and resampling; statistics, logging and the draining of
    the event channel in connection/manager.rs; the methods of player/mod.rs that only
    forward to the client.  Encoders, decoders and resamplers that
    call external libraries; the mDNS daemon, the RSA, AES, SHA and curve
    primitives and the printing and reading of decimal floats, which are
    interfaces; the capacity of vectors; the file key store; floating-point
    statistics that decide nothing, such as the drift of [PtpClock]; DACP, an HTTP
    listener; test support, examples and benchmarks. *)

From Stdlib Require Export ZArith Lia.
From stdpp Require Export base tactics numbers list.

Declare Scope rust_scope.
Delimit Scope rust_scope with rust.
Open Scope Z_scope.
Open Scope rust_scope.

(** ** Outcomes

    A Rust function that can fail is modelled as a function into [outcome]:
    [Ok] and [Err] are the two constructors of [Result], and [Panic] is an
    unwinding panic (index out of bounds, [unwrap] of [None], arithmetic
    overflow with the overflow checks of the default development profile).
    A function that returns [Option<T>] and can panic has type
    [outcome E (option T)]. *)
Inductive outcome (E A : Type) : Type :=
| Ok (a : A)
| Err (e : E)
| Panic.

Arguments Ok {E A} a.
Arguments Err {E A} e.
Arguments Panic {E A}.

#[export] Instance outcome_ret {E} : MRet (outcome E) := fun A a => Ok a.
#[export] Instance outcome_bind {E} : MBind (outcome E) := fun A B f m =>
  match m with
  | Ok a => f a
  | Err e => Err e
  | Panic => Panic
  end.
#[export] Instance outcome_fmap {E} : FMap (outcome E) := fun A B f m =>
  match m with
  | Ok a => Ok (f a)
  | Err e => Err e
  | Panic => Panic
  end.

(** [ok_or]: Rust's [Option::ok_or]. *)
Definition ok_or {E A} (o : option A) (e : E) : outcome E A :=
  match o with
  | Some a => Ok a
  | None => Err e
  end.

(** [map_err]: Rust's [Result::map_err]; a panic is not an error value. *)
Definition map_err {E F A} (f : E -> F) (m : outcome E A) : outcome F A :=
  match m with
  | Ok a => Ok a
  | Err e => Err (f e)
  | Panic => Panic
  end.

(** [unwrap] of an [Option]: panics on [None]. *)
Definition unwrap {E A} (o : option A) : outcome E A :=
  match o with
  | Some a => Ok a
  | None => Panic
  end.

(** A computation that cannot panic. *)
Definition safe {E A} (m : outcome E A) : Prop := m <> Panic.

(** ** Machine integers

    An integer of type [u<w>] or [i<w>] is a [Z]; every operation writes out
    its width.  [wrap w] is truncation to [w] bits ([as u<w>] and the
    [wrapping_*] operations), [sext w] reinterprets the low [w] bits as two's
    complement ([as i<w>]), [chk_u w] and [chk_i w] are the overflow checks
    of [+], [-] and [*]. *)
Definition wrap (w z : Z) : Z := z mod 2 ^ w.
Definition sext (w z : Z) : Z := (z + 2 ^ (w - 1)) mod 2 ^ w - 2 ^ (w - 1).
Definition wrapping_add (w a b : Z) : Z := wrap w (a + b).
Definition wrapping_sub (w a b : Z) : Z := wrap w (a - b).
Definition saturating_sub (a b : Z) : Z := Z.max 0 (a - b).
Definition uint (w z : Z) : Prop := 0 <= z < 2 ^ w.
Definition sint (w z : Z) : Prop := - 2 ^ (w - 1) <= z < 2 ^ (w - 1).
Definition chk_u {E} (w z : Z) : outcome E Z :=
  if (0 <=? z) && (z <? 2 ^ w) then Ok z else Panic.
Definition chk_i {E} (w z : Z) : outcome E Z :=
  if (- 2 ^ (w - 1) <=? z) && (z <? 2 ^ (w - 1)) then Ok z else Panic.

Notation "a +%u16 b" := (wrapping_add 16 a b) (at level 50, left associativity) : rust_scope.
Notation "a -%u16 b" := (wrapping_sub 16 a b) (at level 50, left associativity) : rust_scope.
Notation "a +%u32 b" := (wrapping_add 32 a b) (at level 50, left associativity) : rust_scope.
Notation "a -%u32 b" := (wrapping_sub 32 a b) (at level 50, left associativity) : rust_scope.
Notation "a +%u64 b" := (wrapping_add 64 a b) (at level 50, left associativity) : rust_scope.

(** [u8::from(bool)]. *)
Definition b2z (b : bool) : Z := if b then 1 else 0.

(** ** Automation *)
Create HintDb rust discriminated.

(** Case analysis on the scrutinee of the first [match] or [if]. *)
Ltac case_m :=
  match goal with
  | |- context [match ?x with _ => _ end] =>
      first [is_var x; destruct x | let H := fresh "Hm" in destruct x eqn:H]
  | H : context [match ?x with _ => _ end] |- _ =>
      first [is_var x; destruct x | let Hm := fresh "Hm" in destruct x eqn:Hm]
  end.

(** Unfold the integer operations and close a linear goal with [div]/[mod]. *)
Ltac zmod := Z.div_mod_to_equations; nia.

(** Turn the boolean comparisons of the code into propositions. *)
Ltac bool_to_prop :=
  repeat match goal with
    | H : (_ && _)%bool = true |- _ => apply andb_prop in H as [? ?]
    | H : (_ || _)%bool = false |- _ => apply orb_false_elim in H as [? ?]
    | H : (_ <=? _) = true |- _ => apply Z.leb_le in H
    | H : (_ <=? _) = false |- _ => apply Z.leb_gt in H
    | H : (_ <? _) = true |- _ => apply Z.ltb_lt in H
    | H : (_ <? _) = false |- _ => apply Z.ltb_ge in H
    | H : (_ =? _) = true |- _ => apply Z.eqb_eq in H
    | H : (_ =? _) = false |- _ => apply Z.eqb_neq in H
    | H : (_ <=? _)%nat = true |- _ => apply Nat.leb_le in H
    | H : (_ <=? _)%nat = false |- _ => apply Nat.leb_gt in H
    | H : (_ <? _)%nat = true |- _ => apply Nat.ltb_lt in H
    | H : (_ <? _)%nat = false |- _ => apply Nat.ltb_ge in H
    | H : (_ =? _)%nat = true |- _ => apply Nat.eqb_eq in H
    | H : (_ =? _)%nat = false |- _ => apply Nat.eqb_neq in H
    end.

(** ** Lemmas on machine integers *)
Lemma wrap_range w z : 0 <= w -> uint w (wrap w z).
Proof. intros. unfold uint, wrap. apply Z.mod_pos_bound, Z.pow_pos_nonneg; lia. Qed.

Lemma wrap_small w z : uint w z -> wrap w z = z.
Proof. apply Z.mod_small. Qed.

Lemma wrap_wrap w z : wrap w (wrap w z) = wrap w z.
Proof. unfold wrap. destruct (Z.eq_dec (2 ^ w) 0) as [->|]; [by rewrite !Z.mod_0_r | by apply Z.mod_mod]. Qed.

Lemma wrapping_add_range w a b : 0 <= w -> uint w (wrapping_add w a b).
Proof. apply wrap_range. Qed.

Lemma wrapping_sub_range w a b : 0 <= w -> uint w (wrapping_sub w a b).
Proof. apply wrap_range. Qed.

(** Wrapping addition and subtraction are inverse on [w]-bit values. *)
Lemma wrapping_sub_add w a b : 0 <= w -> uint w a ->
  wrapping_sub w (wrapping_add w a b) b = a.
Proof.
  intros Hw Ha. unfold wrapping_sub, wrapping_add, wrap.
  rewrite Zminus_mod_idemp_l. replace (a + b - b) with a by lia. by apply Z.mod_small.
Qed.

Lemma wrapping_add_sub w a b : 0 <= w -> uint w a ->
  wrapping_add w (wrapping_sub w a b) b = a.
Proof.
  intros Hw Ha. unfold wrapping_sub, wrapping_add, wrap.
  rewrite Zplus_mod_idemp_l. replace (a - b + b) with a by lia. by apply Z.mod_small.
Qed.

Lemma wrapping_add_assoc w a b c :
  wrapping_add w (wrapping_add w a b) c = wrapping_add w a (b + c).
Proof. unfold wrapping_add, wrap. rewrite Zplus_mod_idemp_l. f_equal; lia. Qed.

Lemma wrapping_add_inj w a i j : 0 <= w -> uint w i -> uint w j ->
  wrapping_add w a i = wrapping_add w a j -> i = j.
Proof.
  unfold uint, wrapping_add, wrap. intros Hw Hi Hj H.
  rewrite <- (Z.mod_small i (2 ^ w)), <- (Z.mod_small j (2 ^ w)) by done.
  replace i with (a + i - a) by lia. replace j with (a + j - a) by lia.
  by rewrite <- (Zminus_mod_idemp_l (a + i)), H, Zminus_mod_idemp_l.
Qed.

(** Two's complement reinterpretation is the identity modulo [2 ^ w]. *)
Lemma sext_mod w z : 0 < w -> (sext w z) mod 2 ^ w = z mod 2 ^ w.
Proof.
  intros. unfold sext. rewrite Zminus_mod_idemp_l. f_equal; lia.
Qed.

Lemma sext_range w z : 0 < w -> sint w (sext w z).
Proof.
  intros Hw. unfold sint, sext.
  assert (2 ^ w = 2 * 2 ^ (w - 1)) as Hp.
  { rewrite <- Z.pow_succ_r by lia. f_equal; lia. }
  pose proof (Z.mod_pos_bound (z + 2 ^ (w - 1)) (2 ^ w)).
  assert (0 < 2 ^ (w - 1)) by (apply Z.pow_pos_nonneg; lia). lia.
Qed.

Lemma sext_wrap w z : 0 < w -> sint w z -> sext w (wrap w z) = z.
Proof.
  intros Hw [Hlo Hhi]. unfold sext, wrap.
  assert (2 ^ w = 2 * 2 ^ (w - 1)) as Hp.
  { rewrite <- Z.pow_succ_r by lia. f_equal; lia. }
  rewrite Zplus_mod_idemp_l, Z.mod_small; lia.
Qed.

Lemma chk_u_ok {E} w z : uint w z -> chk_u (E := E) w z = Ok z.
Proof.
  intros [? ?]. unfold chk_u.
  by rewrite (proj2 (Z.leb_le 0 z)), (proj2 (Z.ltb_lt z _)).
Qed.

Lemma chk_i_ok {E} w z : sint w z -> chk_i (E := E) w z = Ok z.
Proof.
  intros [? ?]. unfold chk_i.
  by rewrite (proj2 (Z.leb_le _ z)), (proj2 (Z.ltb_lt z _)).
Qed.

Lemma wrap_sext w z : 0 < w -> uint w z -> wrap w (sext w z) = z.
Proof. intros Hw Hz. unfold wrap. rewrite sext_mod by done. by apply Z.mod_small. Qed.

(** Disjoint bit fields: or is addition. *)
Lemma lor_shiftl k a b : 0 <= k -> uint k b -> Z.lor (Z.shiftl a k) b = a * 2 ^ k + b.
Proof.
  intros Hk Hb. assert (Z.land (Z.shiftl a k) b = 0) as Hz.
  { apply Z.bits_inj'. intros i Hi. rewrite Z.land_spec, Z.bits_0, Z.shiftl_spec by done.
    destruct (Z_lt_ge_dec i k); [by rewrite (Z.testbit_neg_r a) by lia|].
    rewrite <- (Z.mod_small b (2 ^ k)) by done. rewrite (Z.mod_pow2_bits_high b k i) by lia. apply andb_false_r. }
  pose proof (Z.add_lor_land (Z.shiftl a k) b). rewrite Z.shiftl_mul_pow2 in * by done. lia.
Qed.

(** ** Weakest preconditions

    [wp m Q]: [m] does not panic, and a value it returns satisfies [Q]. *)
Definition wp {E A} (m : outcome E A) (Q : A -> Prop) : Prop :=
  match m with
  | Ok a => Q a
  | Err _ => True
  | Panic => False
  end.

Lemma wp_bind {E A B} (m : outcome E A) (k : A -> outcome E B) Q :
  wp m (fun a => wp (k a) Q) -> wp (m ≫= k) Q.
Proof. by destruct m. Qed.

Lemma wp_map_err {E F A} (f : E -> F) (m : outcome E A) Q : wp m Q -> wp (map_err f m) Q.
Proof. by destruct m. Qed.

Lemma wp_ok_or {E A} (o : option A) (e : E) (Q : A -> Prop) :
  (forall a, o = Some a -> Q a) -> wp (ok_or o e) Q.
Proof. destruct o; cbn; auto. Qed.

Lemma wp_mono {E A} (m : outcome E A) (P Q : A -> Prop) : wp m P -> (forall a, P a -> Q a) -> wp m Q.
Proof. destruct m; cbn; auto. Qed.

Lemma safe_wp {E A} (m : outcome E A) : safe m -> wp m (fun a => m = Ok a).
Proof. by destruct m. Qed.

Lemma wp_safe {E A} (m : outcome E A) Q : wp m Q -> safe m.
Proof. by destruct m. Qed.

(** ** Lemmas on outcomes *)
Lemma bind_ok {E A B} (m : outcome E A) (f : A -> outcome E B) b :
  (m ≫= f) = Ok b -> exists a, m = Ok a /\ f a = Ok b.
Proof. destruct m; naive_solver. Qed.

Lemma safe_bind {E A B} (m : outcome E A) (f : A -> outcome E B) :
  safe m -> (forall a, m = Ok a -> safe (f a)) -> safe (m ≫= f).
Proof. unfold safe. destruct m; naive_solver. Qed.

Lemma safe_ok {E A} (a : A) : safe (Ok (E := E) a).
Proof. done. Qed.

Lemma safe_err {E A} (e : E) : safe (Err (A := A) e).
Proof. done. Qed.

#[export] Hint Resolve safe_ok safe_err wrap_range wrapping_add_range wrapping_sub_range : rust.

(** ** Lemmas on lists *)
Lemma filter_all {A} (P : A -> Prop) `{!forall x, Decision (P x)} (l : list A) :
  Forall P l -> filter P l = l.
Proof. induction 1; [done|]. rewrite filter_cons_True by done. by f_equal. Qed.

Lemma filter_none {A} (P : A -> Prop) `{!forall x, Decision (P x)} (l : list A) :
  Forall (fun x => ~ P x) l -> filter P l = [].
Proof. induction 1; [done|]. by rewrite filter_cons_False. Qed.
