(* ===== verification/Bytes.v ===== *)
(** * Byte strings

    The [to_be_bytes]/[from_be_bytes]/[to_le_bytes]/[from_le_bytes] family of
    the Rust integer types, slicing and indexing of byte slices with their
    out-of-range panics, and the lemmas every wire format of the library uses:
    reading a field back from a concatenation of encoded fields. *)

From S2P Require Export Prelude.

(** A byte is a [Z] in [0, 256). *)
Definition byte_ok (b : Z) : Prop := 0 <= b < 256.
Definition bytes_ok (l : list Z) : Prop := Forall byte_ok l.

(** [to_be n z]: the low [8 * n] bits of [z], most significant byte first. *)
Fixpoint to_be (n : nat) (z : Z) : list Z :=
  match n with
  | O => []
  | S m => (z / 256 ^ Z.of_nat m) mod 256 :: to_be m z
  end.

Definition from_be (l : list Z) : Z := foldl (fun acc b => acc * 256 + b) 0 l.

Definition to_le (n : nat) (z : Z) : list Z := reverse (to_be n z).
Definition from_le (l : list Z) : Z := from_be (reverse l).

(** Indexing [data[i]] and slicing [data[i..j]]: out of range panics. *)
Definition byte_at {E} (data : list Z) (i : nat) : outcome E Z := unwrap (data !! i).
Definition slice {E A} (data : list A) (i j : nat) : outcome E (list A) :=
  if (i <=? j)%nat && (j <=? length data)%nat
  then Ok (take (j - i) (drop i data)) else Panic.
(** [u<8n>::from_be_bytes] of the [n] bytes from index [i]. *)
Definition be_at {E} (data : list Z) (i n : nat) : outcome E Z :=
  s ← slice data i (i + n); Ok (from_be s).

(** [slice::chunks(n)] for [n > 0]: consecutive runs of [n] elements, the last
    one shorter when the length is not a multiple.  The first argument bounds
    the number of chunks; [length l] is always enough. *)
Fixpoint chunks_fuel {A} (fuel n : nat) (l : list A) : list (list A) :=
  match fuel, l with
  | S f, _ :: _ => take n l :: chunks_fuel f n (drop n l)
  | _, _ => []
  end.
Definition chunks {A} (n : nat) (l : list A) : list (list A) := chunks_fuel (length l) n l.

(** ** Big-endian integers *)
Lemma length_to_be n z : length (to_be n z) = n.
Proof. induction n; simpl; auto. Qed.

Lemma to_be_ok n z : bytes_ok (to_be n z).
Proof.
  induction n; constructor; auto. apply Z.mod_pos_bound; lia.
Qed.

Lemma foldl_from_be l : forall acc,
  foldl (fun acc b => acc * 256 + b) acc l = acc * 256 ^ Z.of_nat (length l) + from_be l.
Proof.
  unfold from_be. induction l as [|b l IH]; intros acc; cbn [foldl length]; [simpl; lia|].
  rewrite (IH (acc * 256 + b)), (IH (0 * 256 + b)), Nat2Z.inj_succ, Z.pow_succ_r; lia.
Qed.

Lemma from_be_cons b l : from_be (b :: l) = b * 256 ^ Z.of_nat (length l) + from_be l.
Proof. unfold from_be at 1. cbn [foldl]. by rewrite foldl_from_be. Qed.

Lemma from_be_zeros k l : from_be (replicate k 0 ++ l) = from_be l.
Proof. induction k as [|k IH]; [done|]. cbn [replicate app]. rewrite from_be_cons, IH. lia. Qed.

Lemma from_be_to_be n z : from_be (to_be n z) = z mod 256 ^ Z.of_nat n.
Proof.
  induction n as [|n IH]; simpl.
  - by rewrite Z.mod_1_r.
  - rewrite from_be_cons, length_to_be, IH, Nat2Z.inj_succ, Z.pow_succ_r by lia.
    rewrite (Z.mul_comm 256), Z.rem_mul_r by (try apply Z.pow_nonzero; lia). lia.
Qed.

Lemma from_be_range l : bytes_ok l -> 0 <= from_be l < 256 ^ Z.of_nat (length l).
Proof.
  induction 1 as [|b l [Hb Hb'] _ IH]; [done|].
  rewrite from_be_cons. cbn [length]. rewrite Nat2Z.inj_succ, Z.pow_succ_r by lia. nia.
Qed.

Lemma to_be_add_high n k x y : (n <= k)%nat ->
  to_be n (x * 256 ^ Z.of_nat k + y) = to_be n y.
Proof.
  induction n as [|n IHn]; intros; [done|]. simpl. rewrite IHn by lia. f_equal.
  replace (Z.of_nat k) with (Z.of_nat (k - S n) + 1 + Z.of_nat n) by lia.
  rewrite !Z.pow_add_r, Z.mul_assoc, Z.div_add_l by (try apply Z.pow_nonzero; lia).
  rewrite Z.pow_1_r, Z.mul_assoc, Z.add_comm, Z.mod_add; lia.
Qed.

Lemma to_be_from_be l : bytes_ok l -> to_be (length l) (from_be l) = l.
Proof.
  induction 1 as [|b l Hb Hl IH]; [done|].
  pose proof (from_be_range l Hl) as Hr. rewrite from_be_cons. cbn [length to_be].
  set (p := 256 ^ Z.of_nat (length l)) in *.
  assert (0 < p) by (apply Z.pow_pos_nonneg; lia).
  f_equal.
  - rewrite Z.div_add_l, (Z.div_small (from_be l) p), Z.add_0_r by lia. by apply Z.mod_small.
  - subst p. by rewrite to_be_add_high.
Qed.

Lemma to_be_inj n y z : 0 <= y < 256 ^ Z.of_nat n -> 0 <= z < 256 ^ Z.of_nat n ->
  to_be n y = to_be n z -> y = z.
Proof.
  intros Hy Hz Heq. apply (f_equal from_be) in Heq.
  by rewrite !from_be_to_be, !Z.mod_small in Heq.
Qed.

Lemma length_to_le n z : length (to_le n z) = n.
Proof. unfold to_le. by rewrite length_reverse, length_to_be. Qed.

Lemma to_le_ok n z : bytes_ok (to_le n z).
Proof. unfold to_le, bytes_ok. apply Forall_reverse, to_be_ok. Qed.

Lemma from_le_to_le n z : from_le (to_le n z) = z mod 256 ^ Z.of_nat n.
Proof. unfold from_le, to_le. by rewrite reverse_involutive, from_be_to_be. Qed.

Lemma to_le_inj n y z : 0 <= y < 256 ^ Z.of_nat n -> 0 <= z < 256 ^ Z.of_nat n ->
  to_le n y = to_le n z -> y = z.
Proof. intros ? ? Heq. apply (to_be_inj n); try done. by apply (inj reverse). Qed.

(** ** Reading fields back *)
Lemma byte_at_in {E} data i : (i < length data)%nat ->
  exists b, byte_at (E := E) data i = Ok b /\ data !! i = Some b.
Proof. intros [b Hb]%lookup_lt_is_Some_2. exists b. unfold byte_at. by rewrite Hb. Qed.

Lemma slice_in {E A} (data : list A) i j : (i <= j <= length data)%nat ->
  slice (E := E) data i j = Ok (take (j - i) (drop i data)).
Proof.
  intros [? ?]. unfold slice.
  by rewrite (proj2 (Nat.leb_le i j)), (proj2 (Nat.leb_le j _)).
Qed.

Lemma be_at_in {E} data i n : (i + n <= length data)%nat ->
  be_at (E := E) data i n = Ok (from_be (take n (drop i data))).
Proof.
  intros. unfold be_at. rewrite slice_in by lia. simpl.
  by replace (i + n - i)%nat with n by lia.
Qed.

Lemma slice_skip {E A} (l r : list A) i j : (length l <= i <= j)%nat ->
  slice (E := E) (l ++ r) i j = slice r (i - length l) (j - length l).
Proof.
  intros. unfold slice. rewrite length_app, drop_app_ge by lia.
  replace (j - length l - (i - length l))%nat with (j - i)%nat by lia.
  destruct (Nat.leb_spec i j), (Nat.leb_spec (i - length l) (j - length l)),
    (Nat.leb_spec j (length l + length r)), (Nat.leb_spec (j - length l) (length r));
    simpl; try done; lia.
Qed.

Lemma slice_here {E A} (l r : list A) n : n = length l ->
  slice (E := E) (l ++ r) 0 n = Ok l.
Proof.
  intros ->. rewrite slice_in by (rewrite length_app; lia).
  by rewrite Nat.sub_0_r, drop_0, take_app_length.
Qed.

Lemma slice_all {E A} (l : list A) n : n = length l -> slice (E := E) l 0 n = Ok l.
Proof. intros ->. rewrite <- (app_nil_r l) at 1. by apply slice_here. Qed.

Lemma slice_safe {E A} (data : list A) i j : (i <= j <= length data)%nat ->
  safe (slice (E := E) data i j).
Proof. intros. by rewrite slice_in. Qed.

Lemma be_at_skip {E} l r i n : (length l <= i)%nat ->
  be_at (E := E) (l ++ r) i n = be_at r (i - length l) n.
Proof.
  intros. unfold be_at. rewrite slice_skip by lia.
  by replace (i + n - length l)%nat with (i - length l + n)%nat by lia.
Qed.

Lemma be_at_here {E} n z r : be_at (E := E) (to_be n z ++ r) 0 n = Ok (z mod 256 ^ Z.of_nat n).
Proof.
  unfold be_at. rewrite slice_here by (by rewrite length_to_be). simpl.
  by rewrite from_be_to_be.
Qed.

Lemma be_at_end {E} n z : be_at (E := E) (to_be n z) 0 n = Ok (z mod 256 ^ Z.of_nat n).
Proof. rewrite <- (app_nil_r (to_be n z)) at 1. apply be_at_here. Qed.

Lemma byte_at_skip {E} l r i : (length l <= i)%nat ->
  byte_at (E := E) (l ++ r) i = byte_at r (i - length l).
Proof. intros. unfold byte_at. by rewrite lookup_app_r. Qed.

Lemma be_at_cons {E} b l i n : be_at (E := E) (b :: l) (S i) n = be_at l i n.
Proof. done. Qed.

Lemma slice_cons {E A} (b : A) l i j : slice (E := E) (b :: l) (S i) (S j) = slice l i j.
Proof. done. Qed.

Lemma be_at_safe {E} data i n : (i + n <= length data)%nat -> safe (be_at (E := E) data i n).
Proof. intros. by rewrite be_at_in. Qed.

Lemma byte_at_safe {E} data i : (i < length data)%nat -> safe (byte_at (E := E) data i).
Proof. intros H. destruct (byte_at_in (E := E) data i H) as (b & -> & _). done. Qed.

#[export] Hint Resolve be_at_safe byte_at_safe slice_safe to_be_ok to_le_ok : rust.
Create Rewrite HintDb bytes.
#[export] Hint Rewrite length_to_be length_to_le @length_app @length_replicate : bytes.

(** [read_bytes] evaluates the readers of a decoder on a list of encoded
    fields: it skips whole fields and reads the one at hand. *)
Ltac read_step :=
  first
    [ rewrite be_at_here | rewrite be_at_end
    | rewrite be_at_cons | rewrite slice_cons
    | rewrite be_at_skip by (autorewrite with bytes; simpl; lia);
      autorewrite with bytes; cbn [Nat.sub length]
    | rewrite byte_at_skip by (autorewrite with bytes; simpl; lia);
      autorewrite with bytes; cbn [Nat.sub length]
    | rewrite slice_skip by (autorewrite with bytes; simpl; lia);
      autorewrite with bytes; cbn [Nat.sub length]
    | rewrite slice_here by (autorewrite with bytes; simpl; lia)
    | rewrite slice_all by (autorewrite with bytes; simpl; lia) ].
Ltac read_bytes := repeat (read_step; cbn [mbind outcome_bind byte_at unwrap lookup list_lookup]).

(** ** Chunks *)
Lemma chunks_fuel_concat {A} fuel n (l : list A) : (0 < n)%nat -> (length l <= fuel)%nat ->
  concat (chunks_fuel fuel n l) = l.
Proof.
  intros Hn. revert l. induction fuel as [|f IH]; intros [|x l] Hf; simpl in *; try done; [lia|].
  rewrite IH; [|rewrite length_drop; simpl; lia].
  destruct n; [lia|]. simpl. by rewrite take_drop.
Qed.

Lemma chunks_concat {A} n (l : list A) : (0 < n)%nat -> concat (chunks n l) = l.
Proof. intros. by apply chunks_fuel_concat. Qed.

Lemma chunks_fuel_bound {A} fuel n (l : list A) :
  (0 < n)%nat -> Forall (fun c => (0 < length c <= n)%nat) (chunks_fuel fuel n l).
Proof.
  intros Hn. revert l. induction fuel as [|f IH]; intros [|x l]; try constructor; [|done].
  rewrite length_take. simpl. lia.
Qed.

Lemma chunks_bound {A} n (l : list A) : (0 < n)%nat ->
  Forall (fun c => (0 < length c <= n)%nat) (chunks n l).
Proof. apply chunks_fuel_bound. Qed.

Lemma chunks_fuel_enough {A} n fuel fuel' : (0 < n)%nat -> forall l : list A, (length l <= fuel)%nat -> (length l <= fuel')%nat ->
  chunks_fuel fuel n l = chunks_fuel fuel' n l.
Proof.
  intros Hn. revert fuel'. induction fuel as [|f IH]; intros [|f'] [|x l] H H'; try done; cbn [length] in *; try lia.
  cbn [chunks_fuel]. f_equal. apply IH; rewrite length_drop; cbn [length]; lia.
Qed.

Lemma chunks_cons {A} n (l : list A) : (0 < n)%nat -> l <> [] -> chunks n l = take n l :: chunks n (drop n l).
Proof.
  intros Hn Hl. destruct l as [|x l]; [done|]. unfold chunks. cbn [length chunks_fuel]. f_equal.
  apply chunks_fuel_enough; [done| |done]. rewrite length_drop. cbn [length]. lia.
Qed.

(** [slice::chunks_exact(n)]: the chunks of full length only. *)
Definition chunks_exact {A} (n : nat) (l : list A) : list (list A) :=
  filter (fun c => length c = n) (chunks n l).

Lemma chunks_fuel_exact {A} fuel n (ls : list (list A)) : (0 < n)%nat -> Forall (fun c => length c = n) ls ->
  (length (concat ls) <= fuel)%nat -> chunks_fuel fuel n (concat ls) = ls.
Proof.
  intros Hn Hls. revert fuel. induction Hls as [|c ls Hc Hls IH]; intros fuel Hf; [by destruct fuel|].
  cbn [concat] in *. rewrite length_app in Hf. destruct c as [|x c]; [cbn in Hc; lia|].
  destruct fuel as [|fuel]; [cbn in Hf; lia|]. cbn [chunks_fuel app]. rewrite app_comm_cons, <- Hc.
  rewrite take_app_length, drop_app_length. f_equal. rewrite Hc. apply IH. cbn in Hf. lia.
Qed.

Lemma chunks_exact_concat {A} n (ls : list (list A)) : (0 < n)%nat -> Forall (fun c => length c = n) ls ->
  chunks_exact n (concat ls) = ls.
Proof. intros Hn Hls. unfold chunks_exact, chunks. rewrite chunks_fuel_exact by done. by apply filter_all. Qed.

(** [i16::from_le_bytes]. *)
Definition i16_from_le (l : list Z) : Z := sext 16 (from_le l).

(** ** Exhaustive checking of a byte *)
Definition byte_forallb (P : Z -> bool) : bool := forallb P (seqZ 0 256).

Lemma byte_forallb_spec P : byte_forallb P = true -> forall b, byte_ok b -> P b = true.
Proof.
  unfold byte_forallb. rewrite forallb_forall. intros H b [? ?]. apply H.
  apply list_elem_of_In, elem_of_seqZ. lia.
Qed.

(** Decide a boolean statement about a byte by evaluating it on all 256. *)
Ltac by_bytes b H :=
  match goal with
  | |- ?g = true =>
      let g' := eval pattern b in g in
      match g' with
      | ?P b => refine (byte_forallb_spec P _ b H); vm_compute; reflexivity
      end
  end.

(** ** Reading a decoded field: equations for a byte string that is long enough *)
Lemma take_drop_split {A} (l : list A) i n : take n (drop i l) ++ drop (i + n) l = drop i l.
Proof. by rewrite <- drop_drop, take_drop. Qed.

Lemma to_be_take data i n : bytes_ok data -> (i + n <= length data)%nat ->
  to_be n (from_be (take n (drop i data))) = take n (drop i data).
Proof.
  intros Hb Hl. rewrite <- (to_be_from_be (take n (drop i data))) at 2.
  - f_equal. rewrite length_take, length_drop. lia.
  - by apply Forall_take, Forall_drop.
Qed.

Lemma drop_byte (data : list Z) i b : data !! i = Some b -> drop i data = b :: drop (S i) data.
Proof. intros. by apply drop_S. Qed.

Lemma bytes_ok_lookup data i b : bytes_ok data -> data !! i = Some b -> byte_ok b.
Proof. intros H Hi. by eapply Forall_lookup_1. Qed.

Lemma from_be_take_range data i n : bytes_ok data -> (i + n <= length data)%nat ->
  0 <= from_be (take n (drop i data)) < 256 ^ Z.of_nat n.
Proof.
  intros Hb Hl. pose proof (from_be_range (take n (drop i data))) as H.
  rewrite length_take, length_drop, Nat.min_l in H by lia.
  apply H. by apply Forall_take, Forall_drop.
Qed.

(** Reading in range from bytes: the value fits its width. *)
Lemma byte_at_wp {E} data i : bytes_ok data -> (i < length data)%nat -> wp (byte_at (E := E) data i) byte_ok.
Proof. intros Hd Hi. unfold byte_at. destruct (lookup_lt_is_Some_2 _ _ Hi) as [b Hb]. rewrite Hb. cbn. by eapply bytes_ok_lookup. Qed.

Lemma be_at_wp {E} data i n : bytes_ok data -> (i + n <= length data)%nat ->
  wp (be_at (E := E) data i n) (fun v => 0 <= v < 256 ^ Z.of_nat n).
Proof. intros Hd Hi. rewrite be_at_in by done. cbn. by apply from_be_take_range. Qed.

(** The bytes a field was read from. *)
Lemma take_split {X} (l : list X) i j : take (i + j) l = take i l ++ take j (drop i l).
Proof. by rewrite <- (take_drop i (take (i + j) l)), take_take, Nat.min_l, skipn_firstn_comm, Nat.add_sub_swap, Nat.sub_diag by lia. Qed.

Lemma fields_split {X} (l : list X) k i j : take (i + j) (drop k l) = take i (drop k l) ++ take j (drop (k + i) l).
Proof. by rewrite take_split, drop_drop. Qed.

Lemma byte_at_lookup_wp {E} data i : (i < length data)%nat -> wp (byte_at (E := E) data i) (fun b => data !! i = Some b).
Proof. intros Hi. unfold byte_at. destruct (lookup_lt_is_Some_2 _ _ Hi) as [b Hb]. by rewrite Hb. Qed.

Lemma be_at_take_wp {E} data i n : bytes_ok data -> (i + n <= length data)%nat ->
  wp (be_at (E := E) data i n) (fun v => to_be n v = take n (drop i data) /\ v = from_be (take n (drop i data))).
Proof. intros Hd Hi. rewrite be_at_in by done. cbn. split; [by apply to_be_take|done]. Qed.

Lemma take_1_drop (data : list Z) i b : data !! i = Some b -> take 1 (drop i data) = [b].
Proof. intros H. by rewrite (drop_byte _ _ _ H). Qed.

Lemma from_be_app a b : from_be (a ++ b) = from_be a * 256 ^ Z.of_nat (length b) + from_be b.
Proof. unfold from_be. rewrite foldl_app. apply foldl_from_be. Qed.

Lemma bytes_ok_take n l : bytes_ok l -> bytes_ok (take n l).
Proof. apply Forall_take. Qed.
Lemma bytes_ok_drop n l : bytes_ok l -> bytes_ok (drop n l).
Proof. apply Forall_drop. Qed.
#[export] Hint Resolve bytes_ok_take bytes_ok_drop : rust.
