(* ===== verification/Text.v ===== *)
(** * Byte-string literals

    Rust's [b"..."] literals and [str::as_bytes], on ASCII text. *)

From S2P Require Export Bytes.
From stdpp Require Export strings.

Open Scope Z_scope.
Open Scope rust_scope.

(** The bytes of a literal. *)
Fixpoint bs (s : string) : list Z :=
  match s with
  | EmptyString => []
  | String a s => Z.of_N (Ascii.N_of_ascii a) :: bs s
  end.

Lemma bs_ok s : bytes_ok (bs s).
Proof.
  induction s as [|a s IH]; cbn; [constructor|]. constructor; [|done].
  unfold byte_ok. pose proof (Ascii.N_ascii_bounded a). lia.
Qed.

Lemma length_bs s : length (bs s) = String.length s.
Proof. induction s; cbn; auto. Qed.

(** The string of given bytes. *)
Fixpoint sb (l : list Z) : string :=
  match l with
  | [] => EmptyString
  | b :: l => String (Ascii.ascii_of_N (Z.to_N b)) (sb l)
  end.

Lemma sb_bs s : sb (bs s) = s.
Proof. induction s as [|a s IH]; [done|]. cbn. by rewrite N2Z.id, Ascii.ascii_N_embedding, IH. Qed.

Lemma bs_sb l : bytes_ok l -> bs (sb l) = l.
Proof.
  induction 1 as [|b l Hb Hl IH]; [done|]. unfold byte_ok in Hb. cbn.
  by rewrite Ascii.N_ascii_embedding, Z2N.id, IH by lia.
Qed.

#[export] Hint Resolve bs_ok : rust.
