(* ===== verification/Tlv.v ===== *)
(** * TLV8 items of the HomeKit pairing protocol

    Models [src/protocol/pairing/tlv.rs]: the item types, the encoder that
    fragments a value into items of at most 255 bytes, and the decoder that
    concatenates the fragments again into a map from type to value.  The
    decoder's [HashMap<u8, Vec<u8>>] is a [gmap]. *)

From stdpp Require Import gmap.
From S2P Require Import Bytes.

Module Tlv.

Inductive TlvType :=
| Method | Identifier | Salt | PublicKey | Proof_ | EncryptedData | State | Error
| RetryDelay | Certificate | Signature | Permissions | FragmentData | FragmentLast
| SessionID | Flags | Separator.

#[export] Instance TlvType_eq_dec : EqDecision TlvType.
Proof. solve_decision. Defined.

(** [tlv_type as u8]. *)
Definition as_u8 (t : TlvType) : Z :=
  match t with
  | Method => 0x00 | Identifier => 0x01 | Salt => 0x02 | PublicKey => 0x03
  | Proof_ => 0x04 | EncryptedData => 0x05 | State => 0x06 | Error => 0x07
  | RetryDelay => 0x08 | Certificate => 0x09 | Signature => 0x0A | Permissions => 0x0B
  | FragmentData => 0x0C | FragmentLast => 0x0D | SessionID => 0x0E | Flags => 0x13
  | Separator => 0xFF
  end.

Definition from_byte (b : Z) : option TlvType :=
  match b with
  | 0x00 => Some Method | 0x01 => Some Identifier | 0x02 => Some Salt
  | 0x03 => Some PublicKey | 0x04 => Some Proof_ | 0x05 => Some EncryptedData
  | 0x06 => Some State | 0x07 => Some Error | 0x08 => Some RetryDelay
  | 0x09 => Some Certificate | 0x0A => Some Signature | 0x0B => Some Permissions
  | 0x0C => Some FragmentData | 0x0D => Some FragmentLast | 0x0E => Some SessionID
  | 0x13 => Some Flags | 0xFF => Some Separator
  | _ => None
  end.

Inductive TlvError :=
| BufferTooSmall
| InvalidStructure
| UnknownType (b : Z)
| MissingField (t : TlvType)
| InvalidValue (t : TlvType).

(** ** Encoder *)
Record TlvEncoder := { buffer : list Z }.

Definition new : TlvEncoder := {| buffer := [] |}.

Definition push_chunk (ty : TlvType) (buf chunk : list Z) : list Z :=
  buf ++ [as_u8 ty; wrap 8 (Z.of_nat (length chunk))] ++ chunk.

Definition add (self : TlvEncoder) (ty : TlvType) (value : list Z) : TlvEncoder :=
  let buf := foldl (push_chunk ty) (buffer self) (chunks 255 value) in
  {| buffer := match value with
               | [] => buf ++ [as_u8 ty; 0]
               | _ => buf
               end |}.

Definition add_byte (self : TlvEncoder) (ty : TlvType) (value : Z) : TlvEncoder :=
  add self ty [value].
Definition add_state (self : TlvEncoder) (state : Z) : TlvEncoder := add_byte self State state.
Definition add_method (self : TlvEncoder) (m : Z) : TlvEncoder := add_byte self Method m.
Definition build (self : TlvEncoder) : list Z := buffer self.

(** ** Decoder *)
Record TlvDecoder := { items : gmap Z (list Z) }.

(** [items.entry(t).or_default().extend_from_slice(value)]. *)
Definition extend_entry (its : gmap Z (list Z)) (t : Z) (value : list Z) : gmap Z (list Z) :=
  <[t := default [] (its !! t) ++ value]> its.

(** The [while pos < data.len()] loop; the fuel bounds its iterations and is
    exhausted only if the model panics, which [decode_safe] excludes. *)
Fixpoint decode_loop (fuel : nat) (data : list Z) (pos : nat) (its : gmap Z (list Z))
  : outcome TlvError (gmap Z (list Z)) :=
  if (pos <? length data)%nat then
    match fuel with
    | O => Panic
    | S f =>
        if (length data <? pos + 2)%nat then Err BufferTooSmall
        else
          tlv_type ← byte_at data pos;
          length_b ← byte_at data (pos + 1);
          let len := Z.to_nat length_b in
          let pos := (pos + 2)%nat in
          if (length data <? pos + len)%nat then Err BufferTooSmall
          else
            value ← slice data pos (pos + len);
            decode_loop f data (pos + len) (extend_entry its tlv_type value)
    end
  else Ok its.

Definition decode (data : list Z) : outcome TlvError TlvDecoder :=
  its ← decode_loop (length data) data 0 ∅; Ok {| items := its |}.

Definition get (self : TlvDecoder) (ty : TlvType) : option (list Z) := items self !! as_u8 ty.

Definition get_required (self : TlvDecoder) (ty : TlvType) : outcome TlvError (list Z) :=
  ok_or (get self ty) (MissingField ty).

Definition get_state (self : TlvDecoder) : outcome TlvError Z :=
  value ← get_required self State;
  if negb (length value =? 1)%nat then Err (InvalidValue State) else byte_at value 0.

Definition get_error (self : TlvDecoder) : option Z := v ← get self Error; head v.

Definition has_error (self : TlvDecoder) : bool :=
  match get self Error with Some _ => true | None => false end.

(** ** Abstract view: a TLV8 message is a sequence of records

    A record is a type byte and a value of at most 255 bytes; a message is the
    concatenation of its records, and its meaning is the map that appends the
    values of equal type in order. *)
Definition record_ok (r : Z * list Z) : Prop := (length r.2 <= 255)%nat.
Definition encode_record (r : Z * list Z) : list Z := [r.1; Z.of_nat (length r.2)] ++ r.2.
Definition encode_records (rs : list (Z * list Z)) : list Z := concat (map encode_record rs).
Definition meaning (rs : list (Z * list Z)) (its : gmap Z (list Z)) : gmap Z (list Z) :=
  foldl (fun m r => extend_entry m r.1 r.2) its rs.

(** What a sequence of [add] calls asks for: the values of type [ty], joined. *)
Definition values_of (kvs : list (TlvType * list Z)) (ty : TlvType) : option (list Z) :=
  match filter (fun kv => kv.1 = ty) kvs with
  | [] => None
  | l => Some (concat (map snd l))
  end.

Definition encode_all (kvs : list (TlvType * list Z)) : list Z :=
  build (foldl (fun e kv => add e kv.1 kv.2) new kvs).

(** ** Lemmas *)
Lemma from_byte_as_u8 t : from_byte (as_u8 t) = Some t.
Proof. by destruct t. Qed.

Lemma as_u8_inj t1 t2 : as_u8 t1 = as_u8 t2 -> t1 = t2.
Proof. intros H. apply (f_equal from_byte) in H. rewrite !from_byte_as_u8 in H. by simplify_eq. Qed.

Lemma length_encode_record r : length (encode_record r) = (2 + length r.2)%nat.
Proof. done. Qed.

(** One record at the read position is consumed and merged. *)
Lemma decode_loop_record f pre r rest its : record_ok r ->
  decode_loop (S f) (pre ++ encode_record r ++ rest) (length pre) its =
  decode_loop f (pre ++ encode_record r ++ rest) (length (pre ++ encode_record r))
    (extend_entry its r.1 r.2).
Proof.
  intros Hr. cbn [decode_loop]. rewrite !length_app, length_encode_record.
  rewrite (proj2 (Nat.ltb_lt _ _)), (proj2 (Nat.ltb_ge _ _)) by lia.
  rewrite (byte_at_skip pre _ (length pre)), (byte_at_skip pre _ (length pre + 1)) by lia.
  replace (length pre - length pre)%nat with 0%nat by lia.
  replace (length pre + 1 - length pre)%nat with 1%nat by lia.
  cbn [byte_at unwrap lookup list_lookup encode_record app mbind outcome_bind].
  rewrite Nat2Z.id, (proj2 (Nat.ltb_ge _ _)) by lia.
  rewrite slice_skip by lia.
  replace (length pre + 2 - length pre)%nat with 2%nat by lia.
  replace (length pre + 2 + length r.2 - length pre)%nat with (S (S (length r.2))) by lia.
  rewrite !slice_cons, slice_here by done. cbn [mbind outcome_bind].
  f_equal. lia.
Qed.

Lemma decode_loop_end f data its : decode_loop f data (length data) its = Ok its.
Proof. destruct f; cbn [decode_loop]; by rewrite Nat.ltb_irrefl. Qed.

Lemma decode_loop_records rs : forall f pre its,
  Forall record_ok rs -> (length rs <= f)%nat ->
  decode_loop f (pre ++ encode_records rs) (length pre) its = Ok (meaning rs its).
Proof.
  induction rs as [|r rs IH]; intros f pre its Hok Hf.
  - unfold encode_records. simpl. rewrite app_nil_r. apply decode_loop_end.
  - apply Forall_cons in Hok as [Hr Hrs]. destruct f as [|f]; [simpl in Hf; lia|].
    change (encode_records (r :: rs)) with (encode_record r ++ encode_records rs).
    rewrite decode_loop_record by done.
    rewrite (app_assoc pre (encode_record r)). rewrite IH; [done..|]. simpl in Hf. lia.
Qed.

Lemma length_encode_records rs : (2 * length rs <= length (encode_records rs))%nat.
Proof.
  unfold encode_records.
  induction rs as [|r rs IH]; simpl; [lia|]. rewrite length_app. lia.
Qed.

Lemma decode_records rs : Forall record_ok rs ->
  decode (encode_records rs) = Ok {| items := meaning rs ∅ |}.
Proof.
  intros. unfold decode. rewrite (decode_loop_records rs _ [] ∅); [done..|].
  pose proof (length_encode_records rs). lia.
Qed.

(** From any position the loop either parses the rest as records or reports a
    truncated item. *)
Lemma decode_loop_cases f : forall data pos its,
  bytes_ok data -> (pos <= length data)%nat -> (length data - pos <= f)%nat ->
  (exists rs, Forall record_ok rs /\ drop pos data = encode_records rs /\
     decode_loop f data pos its = Ok (meaning rs its)) \/
  decode_loop f data pos its = Err BufferTooSmall.
Proof.
  induction f as [|f IH]; intros data pos its Hb Hpos Hf.
  { left. exists []. replace pos with (length data) by lia.
    by rewrite decode_loop_end, drop_ge. }
  cbn [decode_loop]. destruct (Nat.ltb_spec pos (length data)) as [Hlt|Hge].
  2:{ left. exists []. by rewrite drop_ge by lia. }
  destruct (Nat.ltb_spec (length data) (pos + 2)) as [?|H2]; [by right|].
  destruct (byte_at_in (E := TlvError) data pos) as (t & -> & Ht); [lia|].
  destruct (byte_at_in (E := TlvError) data (pos + 1)) as (n & -> & Hn); [lia|].
  cbn [mbind outcome_bind].
  destruct (Nat.ltb_spec (length data) (pos + 2 + Z.to_nat n)) as [?|H3]; [by right|].
  rewrite slice_in by lia. cbn [mbind outcome_bind].
  replace (pos + 2 + Z.to_nat n - (pos + 2))%nat with (Z.to_nat n) by lia.
  set (v := take (Z.to_nat n) (drop (pos + 2) data)).
  assert (byte_ok n) as Hbn by (by eapply Forall_lookup_1 in Hn).
  assert (length v = Z.to_nat n) as Hv.
  { subst v. rewrite length_take, length_drop. lia. }
  destruct (IH data (pos + 2 + Z.to_nat n)%nat (extend_entry its t v) Hb) as [(rs & Hrs & Hd & ->) | -> ];
    [lia|lia| |by right].
  left. exists ((t, v) :: rs). split_and!; [|..|done].
  - constructor; [|done]. unfold record_ok, byte_ok in *. cbn [snd]. lia.
  - unfold encode_records in *. cbn [map concat]. rewrite <- Hd. unfold encode_record. cbn [fst snd].
    rewrite Hv, Z2Nat.id by (destruct Hbn; lia). subst v.
    rewrite <- (drop_drop data _ (pos + 2)), <- app_assoc, take_drop.
    rewrite (drop_S data t pos) by done.
    rewrite (drop_S data n (S pos)) by (by replace (S pos) with (pos + 1)%nat by lia).
    replace (S (S pos)) with (pos + 2)%nat by lia. done.
Qed.

(** The decoder reads within bounds whatever the list holds. *)
Lemma decode_loop_safe f : forall data pos its, (length data - pos <= f)%nat ->
  safe (decode_loop f data pos its).
Proof.
  induction f as [|f IH]; intros data pos its Hf; cbn [decode_loop].
  { by rewrite (proj2 (Nat.ltb_ge _ _)) by lia. }
  destruct (Nat.ltb_spec pos (length data)) as [Hlt|]; [|done].
  destruct (Nat.ltb_spec (length data) (pos + 2)) as [?|H2]; [done|].
  destruct (byte_at_in (E := TlvError) data pos) as (t & -> & _); [lia|].
  destruct (byte_at_in (E := TlvError) data (pos + 1)) as (n & -> & _); [lia|].
  cbn [mbind outcome_bind]. case_match; bool_to_prop; [done|].
  rewrite slice_in by lia. cbn [mbind outcome_bind]. apply IH. lia.
Qed.

Lemma decode_safe data : safe (decode data).
Proof.
  unfold decode. apply safe_bind; [|done]. apply decode_loop_safe. lia.
Qed.

(** The records a fragmented [add] writes. *)
Definition fragments (ty : TlvType) (value : list Z) : list (Z * list Z) :=
  match value with
  | [] => [(as_u8 ty, [])]
  | _ => map (fun c => (as_u8 ty, c)) (chunks 255 value)
  end.

Lemma fragments_ok ty value : Forall record_ok (fragments ty value).
Proof.
  destruct value as [|b value]; [repeat constructor; cbn; lia|].
  unfold fragments. apply Forall_map.
  eapply Forall_impl; [apply (chunks_bound 255); lia|]. unfold record_ok. simpl. lia.
Qed.

Lemma fragments_concat ty value : concat (map snd (fragments ty value)) = value.
Proof.
  destruct value as [|b value]; [done|]. unfold fragments.
  rewrite map_map. cbn [snd]. rewrite map_id. apply chunks_concat. lia.
Qed.

Lemma push_chunks ty cs : forall buf, Forall (fun c => (length c <= 255)%nat) cs ->
  foldl (push_chunk ty) buf cs = buf ++ encode_records (map (fun c => (as_u8 ty, c)) cs).
Proof.
  induction cs as [|c cs IH]; intros buf Hc; [by rewrite app_nil_r|].
  apply Forall_cons in Hc as [Hc Hcs]. cbn [foldl]. rewrite IH by done.
  unfold push_chunk. rewrite wrap_small by (unfold uint; lia).
  unfold encode_records. simpl. by rewrite <- !app_assoc.
Qed.

Lemma add_fragments e ty value :
  buffer (add e ty value) = buffer e ++ encode_records (fragments ty value).
Proof.
  unfold add, fragments. cbn [buffer]. destruct value as [|b value]; [done|].
  apply push_chunks. eapply Forall_impl; [apply (chunks_bound 255); lia|]. simpl. lia.
Qed.

Lemma encode_records_app rs1 rs2 :
  encode_records (rs1 ++ rs2) = encode_records rs1 ++ encode_records rs2.
Proof. unfold encode_records. by rewrite map_app, concat_app. Qed.

Definition all_fragments (kvs : list (TlvType * list Z)) : list (Z * list Z) :=
  concat (map (fun kv => fragments kv.1 kv.2) kvs).

Lemma encode_all_records kvs : encode_all kvs = encode_records (all_fragments kvs).
Proof.
  unfold encode_all, build.
  assert (forall e, buffer (foldl (fun e kv => add e kv.1 kv.2) e kvs) =
    buffer e ++ encode_records (all_fragments kvs)) as H; [|by rewrite H].
  unfold all_fragments. induction kvs as [|kv kvs IH]; intros e; simpl; [by rewrite app_nil_r|].
  by rewrite IH, add_fragments, encode_records_app, app_assoc.
Qed.

Lemma all_fragments_ok kvs : Forall record_ok (all_fragments kvs).
Proof.
  unfold all_fragments. induction kvs; simpl; [constructor|].
  apply Forall_app. split; [apply fragments_ok | done].
Qed.

(** Looking up a type in the meaning of a record sequence. *)
Lemma meaning_lookup rs t : forall its, meaning rs its !! t =
  match filter (fun r : Z * list Z => r.1 = t) rs with
  | [] => its !! t
  | l => Some (default [] (its !! t) ++ concat (map snd l))
  end.
Proof.
  unfold meaning. induction rs as [|r rs IH]; intros its; [done|]. cbn [foldl].
  rewrite IH. unfold extend_entry. rewrite filter_cons.
  destruct (decide (r.1 = t)) as [->|Hne].
  - rewrite lookup_insert_eq. cbn [default].
    destruct (filter _ rs); simpl; by rewrite ?app_nil_r, <- ?app_assoc.
  - by rewrite lookup_insert_ne.
Qed.

Lemma filter_fragments ty ty' value :
  filter (fun r : Z * list Z => r.1 = as_u8 ty) (fragments ty' value) =
  if decide (ty' = ty) then fragments ty' value else [].
Proof.
  assert (Forall (fun r => r.1 = as_u8 ty') (fragments ty' value)) as Hall.
  { unfold fragments. destruct value; [by repeat constructor|]. by apply Forall_map, Forall_true. }
  case_decide as Hty.
  - subst. by apply filter_all.
  - apply filter_none. eapply Forall_impl; [exact Hall|]. simpl.
    intros r -> Heq. by apply Hty, as_u8_inj.
Qed.

Lemma fragments_nonempty ty value : fragments ty value <> [].
Proof. by destruct value. Qed.

Lemma values_of_fragments kvs ty :
  values_of kvs ty =
  match filter (fun r : Z * list Z => r.1 = as_u8 ty) (all_fragments kvs) with
  | [] => None
  | l => Some (concat (map snd l))
  end.
Proof.
  unfold values_of, all_fragments. induction kvs as [|[ty' v] kvs IH]; [done|]. cbn [map concat].
  rewrite filter_app, filter_fragments, filter_cons. cbn [fst].
  destruct (decide (ty' = ty)) as [->|]; [|done].
  cbn [map concat snd]. rewrite <- (fragments_concat ty v) at 1.
  destruct (fragments ty v) as [|f fs] eqn:Hf; [by apply fragments_nonempty in Hf|].
  revert IH. destruct (filter _ kvs), (filter (fun r => r.1 = _) _);
    intros IH; simplify_eq IH; intros; simpl; rewrite ?map_app, ?concat_app, ?app_nil_r;
    [done|]. rewrite <- app_assoc. simpl. congruence.
Qed.

Lemma decode_encode_all kvs :
  exists d, decode (encode_all kvs) = Ok d /\ forall ty, get d ty = values_of kvs ty.
Proof.
  rewrite encode_all_records, decode_records by apply all_fragments_ok.
  eexists; split; [done|]. intros ty. unfold get. cbn [items].
  by rewrite meaning_lookup, values_of_fragments, lookup_empty.
Qed.

(** ** Properties *)


(** On every byte string the decoder terminates without an out-of-range
    access, and it succeeds exactly on the concatenations of complete records,
    with their merged values as its result; any other input is rejected with
    [BufferTooSmall]. *)
Theorem decode_total (data : list Z) (Hb : bytes_ok data) :
  (exists rs, Forall record_ok rs /\ data = encode_records rs /\
     decode data = Ok {| items := meaning rs ∅ |}) \/
  (decode data = Err BufferTooSmall /\
     ~ exists rs, Forall record_ok rs /\ data = encode_records rs).
Proof.
  destruct (decode_loop_cases (length data) data 0 ∅ Hb) as [(rs & Hrs & Hd & He) | He];
    [lia|lia|left|right].
  - exists rs. unfold decode. by rewrite He.
  - split; [by unfold decode; rewrite He|]. intros (rs & Hrs & ->).
    pose proof (decode_records rs Hrs) as Hd. unfold decode in Hd. by rewrite He in Hd.
Qed.

Lemma decode_total_witness :
  decode [0x06; 1; 3; 0x07; 1] = Err BufferTooSmall /\
  exists d, decode [0x06; 1; 3; 0x06; 1; 4] = Ok d /\ get d State = Some [3; 4].
Proof.
  split.
  - destruct (decode_total [0x06; 1; 3; 0x07; 1]) as [(rs & _ & _ & H) | [H _]].
    + repeat constructor; unfold byte_ok; lia.
    + vm_compute in H. discriminate H.
    + exact H.
  - eexists. split; [vm_compute; reflexivity | vm_compute; reflexivity].
Defined.

End Tlv.

(** The value of a field that was added once to a message. *)
Ltac tlv_value :=
  match goal with |- _ = Some ?v => transitivity (Some (v ++ [])); [reflexivity | by rewrite app_nil_r] end.
