(* ===== verification/RtpPacket.v ===== *)
(** * RTP packets

    Models [src/protocol/rtp/packet.rs]: the 12-byte RTP header with its bit
    fields, its decoder with every error, and whole packets. *)

From S2P Require Import Bytes.

Module RtpPacket.

Inductive PayloadType :=
| TimingRequest | TimingResponse | AudioRealtime | AudioBuffered | AudioPcm
| RetransmitRequest | RetransmitResponse.

#[export] Instance PayloadType_eq_dec : EqDecision PayloadType.
Proof. solve_decision. Defined.

(** [payload_type as u8]. *)
Definition PayloadType_as_u8 (t : PayloadType) : Z :=
  match t with
  | TimingRequest => 0x52 | TimingResponse => 0x53 | AudioRealtime => 0x60
  | AudioBuffered => 0x61 | AudioPcm => 0x64 | RetransmitRequest => 0x55
  | RetransmitResponse => 0x56
  end.

Definition PayloadType_from_byte (b : Z) : option PayloadType :=
  match Z.land b 0x7F with
  | 0x52 => Some TimingRequest
  | 0x53 => Some TimingResponse
  | 0x60 => Some AudioRealtime
  | 0x61 => Some AudioBuffered
  | 0x64 => Some AudioPcm
  | 0x55 => Some RetransmitRequest
  | 0x56 => Some RetransmitResponse
  | _ => None
  end.

Record RtpHeader := {
  version : Z;
  padding : bool;
  extension : bool;
  csrc_count : Z;
  marker : bool;
  payload_type : PayloadType;
  sequence : Z;
  timestamp : Z;
  ssrc : Z
}.

Inductive RtpDecodeError :=
| BufferTooSmall (needed have : Z)
| InvalidVersion (v : Z)
| UnknownPayloadType (b : Z)
| DecryptionFailed.

Definition HEADER_SIZE : nat := 12.

Definition RtpHeader_new_audio (seq ts ss : Z) (buffered : bool) : RtpHeader := {|
  version := 2;
  padding := false;
  extension := false;
  csrc_count := 0;
  marker := true;
  payload_type := if buffered then AudioBuffered else AudioRealtime;
  sequence := seq;
  timestamp := ts;
  ssrc := ss
|}.

(** Byte 0 is V(2) P(1) X(1) CC(4), byte 1 is M(1) PT(7). *)
Definition RtpHeader_encode (h : RtpHeader) : list Z :=
  [ Z.lor (Z.lor (Z.lor (wrap 8 (Z.shiftl (version h) 6)) (Z.shiftl (b2z (padding h)) 5))
             (Z.shiftl (b2z (extension h)) 4))
      (Z.land (csrc_count h) 0x0F);
    Z.lor (Z.shiftl (b2z (marker h)) 7) (Z.land (PayloadType_as_u8 (payload_type h)) 0x7F) ]
  ++ to_be 2 (sequence h) ++ to_be 4 (timestamp h) ++ to_be 4 (ssrc h).

Definition RtpHeader_decode (buf : list Z) : outcome RtpDecodeError RtpHeader :=
  if (length buf <? HEADER_SIZE)%nat
  then Err (BufferTooSmall (Z.of_nat HEADER_SIZE) (Z.of_nat (length buf)))
  else
    b0 ← byte_at buf 0;
    let v := Z.land (Z.shiftr b0 6) 0x03 in
    if negb (v =? 2) then Err (InvalidVersion v)
    else
      b1 ← byte_at buf 1;
      let pt_byte := Z.land b1 0x7F in
      pt ← ok_or (PayloadType_from_byte pt_byte) (UnknownPayloadType pt_byte);
      seq ← be_at buf 2 2;
      ts ← be_at buf 4 4;
      ss ← be_at buf 8 4;
      Ok {| version := v;
            padding := negb (Z.land (Z.shiftr b0 5) 0x01 =? 0);
            extension := negb (Z.land (Z.shiftr b0 4) 0x01 =? 0);
            csrc_count := Z.land b0 0x0F;
            marker := negb (Z.land (Z.shiftr b1 7) 0x01 =? 0);
            payload_type := pt;
            sequence := seq;
            timestamp := ts;
            ssrc := ss |}.

Record RtpPacket := { header : RtpHeader; payload : list Z }.

Definition RtpPacket_new (h : RtpHeader) (p : list Z) : RtpPacket := {| header := h; payload := p |}.

Definition RtpPacket_audio (seq ts ss : Z) (audio_data : list Z) (buffered : bool) : RtpPacket :=
  {| header := RtpHeader_new_audio seq ts ss buffered; payload := audio_data |}.

Definition RtpPacket_encode (p : RtpPacket) : list Z := RtpHeader_encode (header p) ++ payload p.

Definition RtpPacket_decode (buf : list Z) : outcome RtpDecodeError RtpPacket :=
  h ← RtpHeader_decode buf;
  p ← slice buf HEADER_SIZE (length buf);
  Ok {| header := h; payload := p |}.

(** [audio_samples]: the payload as 16-bit little-endian stereo frames. *)
Definition RtpPacket_audio_samples (p : RtpPacket) : list (Z * Z) :=
  map (fun chunk => (i16_from_le (take 2 chunk), i16_from_le (take 2 (drop 2 chunk))))
    (chunks_exact 4 (payload p)).

(** ** Well-formedness: the value ranges of the fields' types, with the version
    every encoder of the library writes. *)
Definition header_ok (h : RtpHeader) : Prop :=
  version h = 2 /\ uint 4 (csrc_count h) /\ uint 16 (sequence h) /\
  uint 32 (timestamp h) /\ uint 32 (ssrc h).

(** ** Lemmas *)
Lemma PayloadType_roundtrip t : PayloadType_from_byte (Z.land (PayloadType_as_u8 t) 0x7F) = Some t.
Proof. by destruct t. Qed.

Lemma length_RtpHeader_encode h : length (RtpHeader_encode h) = HEADER_SIZE.
Proof. done. Qed.

Lemma RtpHeader_new_audio_ok seq ts ss b : uint 16 seq -> uint 32 ts -> uint 32 ss ->
  header_ok (RtpHeader_new_audio seq ts ss b).
Proof. unfold header_ok, uint. simpl. lia. Qed.

(** Every header byte 0 with version 2 is recovered from its bit fields. *)
Lemma byte0_fields (p x : bool) c : uint 4 c ->
  let b := Z.lor (Z.lor (Z.lor (wrap 8 (Z.shiftl 2 6)) (Z.shiftl (b2z p) 5)) (Z.shiftl (b2z x) 4))
             (Z.land c 0x0F) in
  Z.land (Z.shiftr b 6) 0x03 = 2 /\ negb (Z.land (Z.shiftr b 5) 0x01 =? 0) = p /\
  negb (Z.land (Z.shiftr b 4) 0x01 =? 0) = x /\ Z.land b 0x0F = c.
Proof.
  intros Hc. unfold uint in Hc.
  assert (In c (seqZ 0 16)) as Hin by (apply list_elem_of_In, elem_of_seqZ; lia).
  simpl in Hin. destruct p, x; repeat (destruct Hin as [<-|Hin]; [done|]); done.
Qed.

Lemma byte1_fields (m : bool) t :
  let b := Z.lor (Z.shiftl (b2z m) 7) (Z.land (PayloadType_as_u8 t) 0x7F) in
  negb (Z.land (Z.shiftr b 7) 0x01 =? 0) = m /\ PayloadType_from_byte (Z.land b 0x7F) = Some t.
Proof. by destruct m, t. Qed.

Lemma byte0_rebuild b : byte_ok b -> Z.land (Z.shiftr b 6) 0x03 = 2 ->
  Z.lor (Z.lor (Z.lor (wrap 8 (Z.shiftl 2 6))
    (Z.shiftl (b2z (negb (Z.land (Z.shiftr b 5) 0x01 =? 0))) 5))
    (Z.shiftl (b2z (negb (Z.land (Z.shiftr b 4) 0x01 =? 0))) 4))
    (Z.land (Z.land b 0x0F) 0x0F) = b.
Proof.
  intros Hb Hv. apply Z.eqb_eq in Hv. apply Z.eqb_eq.
  revert Hv. apply implb_true_iff. by_bytes b Hb.
Qed.

Lemma byte1_rebuild b t : byte_ok b -> PayloadType_from_byte (Z.land b 0x7F) = Some t ->
  Z.lor (Z.shiftl (b2z (negb (Z.land (Z.shiftr b 7) 0x01 =? 0))) 7)
    (Z.land (PayloadType_as_u8 t) 0x7F) = b.
Proof.
  intros Hb Ht. apply Z.eqb_eq.
  cut (match PayloadType_from_byte (Z.land b 0x7F) with
       | Some t => Z.lor (Z.shiftl (b2z (negb (Z.land (Z.shiftr b 7) 0x01 =? 0))) 7)
                     (Z.land (PayloadType_as_u8 t) 0x7F) =? b
       | None => true
       end = true); [by rewrite Ht|]. clear Ht t. by_bytes b Hb.
Qed.

Lemma RtpHeader_decode_encode h rest : header_ok h ->
  RtpHeader_decode (RtpHeader_encode h ++ rest) = Ok h.
Proof.
  destruct h as [v p x c m t s ts ss]. intros (Hv & Hc & Hs & Hts & Hss).
  cbn in Hv, Hc, Hs, Hts, Hss. subst v.
  destruct (byte0_fields p x c Hc) as (H1 & H2 & H3 & H4).
  destruct (byte1_fields m t) as (H5 & H6).
  unfold RtpHeader_encode, RtpHeader_decode. rewrite <- !app_assoc.
  cbn [version padding extension csrc_count marker payload_type sequence timestamp ssrc].
  set (b0 := Z.lor (Z.lor (Z.lor _ _) _) _) in *. set (b1 := Z.lor _ _) in *.
  rewrite (proj2 (Nat.ltb_ge _ _)) by (autorewrite with bytes; unfold HEADER_SIZE; simpl; lia).
  cbn [app byte_at unwrap lookup list_lookup mbind outcome_bind].
  rewrite H1, H6. read_bytes.
  cbn [negb Z.eqb Pos.eqb ok_or]. rewrite H2, H3, H4, H5.
  unfold uint in *. rewrite !Z.mod_small by (simpl; lia). done.
Qed.

(** The decoder never reads out of range. *)
Lemma RtpHeader_decode_safe buf : safe (RtpHeader_decode buf).
Proof.
  unfold RtpHeader_decode, HEADER_SIZE.
  destruct (Nat.ltb_spec (length buf) 12); [done|].
  apply safe_bind; [auto with rust lia|]. intros b0 _. case_m; [done|].
  apply safe_bind; [auto with rust lia|]. intros b1 _.
  apply safe_bind; [by destruct (PayloadType_from_byte _)|]. intros pt _.
  repeat (apply safe_bind; [apply be_at_safe; lia|]; intros ? _). done.
Qed.

Lemma RtpPacket_decode_ok_inv buf p : RtpPacket_decode buf = Ok p ->
  RtpHeader_decode buf = Ok (header p) /\ payload p = drop HEADER_SIZE buf /\
  (HEADER_SIZE <= length buf)%nat.
Proof.
  unfold RtpPacket_decode. intros (h & Hh & H)%bind_ok.
  assert (HEADER_SIZE <= length buf)%nat as Hl.
  { unfold RtpHeader_decode in Hh. destruct (Nat.ltb_spec (length buf) HEADER_SIZE); [done|lia]. }
  rewrite slice_in in H by lia. cbn [mbind outcome_bind] in H. simplify_eq. simpl.
  split_and!; [done| |done]. apply take_ge. rewrite length_drop. lia.
Qed.

Lemma RtpHeader_encode_decode buf h : bytes_ok buf -> RtpHeader_decode buf = Ok h ->
  buf = RtpHeader_encode h ++ drop HEADER_SIZE buf /\ header_ok h.
Proof.
  intros Hb. unfold RtpHeader_decode, HEADER_SIZE.
  destruct (Nat.ltb_spec (length buf) 12) as [|Hl]; [done|].
  destruct (byte_at_in (E := RtpDecodeError) buf 0) as (b0 & -> & E0); [lia|].
  destruct (byte_at_in (E := RtpDecodeError) buf 1) as (b1 & -> & E1); [lia|].
  cbn [mbind outcome_bind].
  destruct (Z.eqb_spec (Z.land (Z.shiftr b0 6) 0x03) 2) as [Hv|]; [|done]. cbn [negb].
  destruct (PayloadType_from_byte _) as [t|] eqn:Ht; [|done]. cbn [ok_or mbind outcome_bind].
  rewrite !be_at_in by lia. cbn [mbind outcome_bind]. intros [= <-].
  pose proof (bytes_ok_lookup _ _ _ Hb E0) as Hb0. pose proof (bytes_ok_lookup _ _ _ Hb E1) as Hb1.
  split.
  - unfold RtpHeader_encode. cbn [version padding extension csrc_count marker payload_type sequence timestamp ssrc].
    rewrite Hv, byte0_rebuild, byte1_rebuild by done.
    rewrite !to_be_take by (done || lia). rewrite <- !app_assoc.
    rewrite <- (drop_0 buf) at 1. rewrite (drop_byte buf 0 b0), (drop_byte buf 1 b1) by done.
    rewrite <- (take_drop_split buf 2 2) at 1. rewrite <- (take_drop_split buf (2 + 2) 4) at 1.
    rewrite <- (take_drop_split buf (2 + 2 + 4) 4) at 1. done.
  - unfold header_ok, uint. cbn [version csrc_count sequence timestamp ssrc].
    pose proof (from_be_take_range buf 2 2 Hb). pose proof (from_be_take_range buf 4 4 Hb).
    pose proof (from_be_take_range buf 8 4 Hb).
    change (2 ^ 16) with (256 ^ Z.of_nat 2). change (2 ^ 32) with (256 ^ Z.of_nat 4).
    change (Z.land b0 0x0F) with (Z.land b0 (Z.ones 4)). rewrite Z.land_ones by lia.
    pose proof (Z.mod_pos_bound b0 (2 ^ 4)). split_and!; try done; lia.
Qed.

(** ** Properties *)

(** Encoding a well-formed packet and decoding the bytes returns the same
    header, every bit field included, and the same payload. *)
Theorem packet_roundtrip (p : RtpPacket) (H : header_ok (header p)) :
  RtpPacket_decode (RtpPacket_encode p) = Ok p.
Proof.
  unfold RtpPacket_decode, RtpPacket_encode. rewrite RtpHeader_decode_encode by done.
  cbn [mbind outcome_bind].
  rewrite slice_in by (rewrite length_app, length_RtpHeader_encode; lia).
  rewrite length_app, length_RtpHeader_encode, drop_app_length' by done.
  cbn [mbind outcome_bind]. rewrite take_ge by lia. by destruct p.
Qed.

Lemma packet_roundtrip_witness :
  RtpPacket_decode (RtpPacket_encode (RtpPacket_audio 65535 4294967295 7 [1; 2; 3] true)) =
  Ok (RtpPacket_audio 65535 4294967295 7 [1; 2; 3] true).
Proof.
  apply packet_roundtrip. apply RtpHeader_new_audio_ok; unfold uint; lia.
Defined.

(** The decoder is exact. On every byte string it returns without an
    out-of-range access; a packet it accepts is well formed and re-encodes to
    the very bytes that were read, so no accepted bit is dropped or invented;
    a buffer shorter than the header is reported with both sizes. *)
Theorem packet_decode_exact (buf : list Z) (Hb : bytes_ok buf) :
  safe (RtpPacket_decode buf) /\
  (forall p, RtpPacket_decode buf = Ok p -> header_ok (header p) /\ RtpPacket_encode p = buf) /\
  ((length buf < 12)%nat -> RtpPacket_decode buf = Err (BufferTooSmall 12 (Z.of_nat (length buf)))).
Proof.
  split_and!.
  - apply safe_bind; [apply RtpHeader_decode_safe|]. intros h Hh.
    unfold RtpHeader_decode in Hh. destruct (Nat.ltb_spec (length buf) HEADER_SIZE); [done|].
    by rewrite slice_in.
  - intros p (Hh & Hp & Hl)%RtpPacket_decode_ok_inv.
    destruct (RtpHeader_encode_decode _ _ Hb Hh) as [He Hok]. split; [done|].
    unfold RtpPacket_encode. by rewrite Hp.
  - intros Hl. unfold RtpPacket_decode, RtpHeader_decode, HEADER_SIZE.
    by rewrite (proj2 (Nat.ltb_lt _ _)).
Qed.

Lemma packet_decode_exact_witness :
  exists p, RtpPacket_decode [0x80; 0xE0; 0; 1; 0; 0; 1; 96; 0; 0; 0; 9; 5] = Ok p /\
    RtpPacket_encode p = [0x80; 0xE0; 0; 1; 0; 0; 1; 96; 0; 0; 0; 9; 5].
Proof.
  eexists. split; [vm_compute; reflexivity|].
  apply (packet_decode_exact [0x80; 0xE0; 0; 1; 0; 0; 1; 96; 0; 0; 0; 9; 5]).
  - repeat constructor; unfold byte_ok; lia.
  - vm_compute; reflexivity.
Defined.

End RtpPacket.
