(* ===== verification/RtpTiming.v ===== *)
(** * NTP-style timing exchange of the RTP timing channel

    Models [src/protocol/rtp/timing.rs] (NTP timestamps, the 40-byte timing
    request, the timing response with its offset and round-trip estimates)
    and [src/protocol/rtp/raop_timing.rs] (the RAOP variants and the
    [TimingSync] estimator).  The wall clock is an argument: a reading is the
    pair of seconds and nanoseconds since the Unix epoch that [SystemTime]
    returns. *)

From S2P Require Import Bytes RtpPacket.
Import RtpPacket(RtpDecodeError, BufferTooSmall).

Module RtpTiming.

Record NtpTimestamp := { seconds : Z; fraction : Z }.

Definition NtpTimestamp_default : NtpTimestamp := {| seconds := 0; fraction := 0 |}.

Definition NTP_UNIX_OFFSET : Z := 2208988800.

(** [NtpTimestamp::now] at the clock reading [(secs, nanos)]. *)
Definition NtpTimestamp_now (secs nanos : Z) : NtpTimestamp :=
  let ntp_secs := secs + NTP_UNIX_OFFSET in
  let fraction := Z.shiftl nanos 32 / 1000000000 in
  {| seconds := wrap 32 ntp_secs; fraction := wrap 32 fraction |}.

Definition NtpTimestamp_encode (t : NtpTimestamp) : list Z :=
  to_be 4 (seconds t) ++ to_be 4 (fraction t).

Definition NtpTimestamp_decode {E} (buf : list Z) : outcome E NtpTimestamp :=
  s ← be_at buf 0 4;
  f ← be_at buf 4 4;
  Ok {| seconds := s; fraction := f |}.

Definition to_micros (t : NtpTimestamp) : Z :=
  let frac_micros := Z.shiftr (fraction t * 1000000) 32 in
  seconds t * 1000000 + frac_micros.

(** ** AirPlay 2 timing request and response *)
Record TimingRequest := {
  req_reference_time : NtpTimestamp;
  req_receive_time : NtpTimestamp;
  req_send_time : NtpTimestamp
}.

Definition TimingRequest_new (now : NtpTimestamp) : TimingRequest := {|
  req_reference_time := now;
  req_receive_time := NtpTimestamp_default;
  req_send_time := now
|}.

Definition TimingRequest_SIZE : nat := 40.

Definition TimingRequest_encode (r : TimingRequest) (sequence ssrc : Z) : list Z :=
  [0x80; 0xD2] ++ to_be 2 sequence ++ replicate 4 0 ++ to_be 4 ssrc ++ replicate 4 0 ++
  NtpTimestamp_encode (req_reference_time r) ++ NtpTimestamp_encode (req_receive_time r) ++
  NtpTimestamp_encode (req_send_time r).

Record TimingResponse := {
  reference_time : NtpTimestamp;
  receive_time : NtpTimestamp;
  send_time : NtpTimestamp
}.

Definition TimingResponse_decode (buf : list Z) : outcome RtpDecodeError TimingResponse :=
  if (length buf <? 24)%nat then Err (BufferTooSmall 24 (Z.of_nat (length buf)))
  else
    b1 ← slice buf 0 8; r ← NtpTimestamp_decode b1;
    b2 ← slice buf 8 16; v ← NtpTimestamp_decode b2;
    b3 ← slice buf 16 24; s ← NtpTimestamp_decode b3;
    Ok {| reference_time := r; receive_time := v; send_time := s |}.

(** [((t2 - t1) + (t3 - t4)) / 2] in [i64], division truncating. *)
Definition calculate_offset {E} (r : TimingResponse) (client_receive_time : NtpTimestamp)
  : outcome E Z :=
  let t1 := sext 64 (to_micros (reference_time r)) in
  let t2 := sext 64 (to_micros (receive_time r)) in
  let t3 := sext 64 (to_micros (send_time r)) in
  let t4 := sext 64 (to_micros client_receive_time) in
  a ← chk_i 64 (t2 - t1);
  b ← chk_i 64 (t3 - t4);
  s ← chk_i 64 (a + b);
  Ok (Z.quot s 2).

(** [(t4 - t1).saturating_sub(t3 - t2)] in [u64]: both inner differences are
    plain subtractions. *)
Definition calculate_rtt {E} (r : TimingResponse) (client_receive_time : NtpTimestamp)
  : outcome E Z :=
  let t1 := to_micros (reference_time r) in
  let t2 := to_micros (receive_time r) in
  let t3 := to_micros (send_time r) in
  let t4 := to_micros client_receive_time in
  a ← chk_u 64 (t4 - t1);
  b ← chk_u 64 (t3 - t2);
  Ok (saturating_sub a b).

(** ** RAOP timing packets *)
Record RaopTimingRequest := { raop_reference_time : NtpTimestamp }.

Definition RaopTimingRequest_new (now : NtpTimestamp) : RaopTimingRequest :=
  {| raop_reference_time := now |}.

Definition RaopTimingRequest_encode (r : RaopTimingRequest) (sequence : Z) : list Z :=
  [0x80; 0xD2] ++ to_be 2 sequence ++ to_be 4 0 ++
  NtpTimestamp_encode (raop_reference_time r) ++ replicate 8 0 ++
  NtpTimestamp_encode (raop_reference_time r).

(** The response has the fields of [TimingResponse]; its decoder skips the
    8-byte header. *)
Definition RaopTimingResponse_decode (buf : list Z) : outcome RtpDecodeError TimingResponse :=
  if (length buf <? 32)%nat then Err (BufferTooSmall 32 (Z.of_nat (length buf)))
  else
    b1 ← slice buf 8 16; r ← NtpTimestamp_decode b1;
    b2 ← slice buf 16 24; v ← NtpTimestamp_decode b2;
    b3 ← slice buf 24 32; s ← NtpTimestamp_decode b3;
    Ok {| reference_time := r; receive_time := v; send_time := s |}.

Definition RaopTimingResponse_calculate_offset {E} (r : TimingResponse) (client_receive : NtpTimestamp)
  : outcome E Z :=
  let t1 := sext 64 (to_micros (reference_time r)) in
  let t2 := sext 64 (to_micros (receive_time r)) in
  let t3 := sext 64 (to_micros (send_time r)) in
  let t4 := sext 64 (to_micros client_receive) in
  a ← chk_i 64 (t2 - t1);
  b ← chk_i 64 (t3 - t4);
  s ← chk_i 64 (a + b);
  Ok (Z.quot s 2).

Definition RaopTimingResponse_calculate_rtt {E} (r : TimingResponse) (client_receive : NtpTimestamp)
  : outcome E Z :=
  let t1 := to_micros (reference_time r) in
  let t2 := to_micros (receive_time r) in
  let t3 := to_micros (send_time r) in
  let t4 := to_micros client_receive in
  a ← chk_u 64 (t4 - t1);
  b ← chk_u 64 (t3 - t2);
  Ok (saturating_sub a b).

(** ** The estimator *)
Record TimingSync := {
  ts_sequence : Z;
  ts_offset : Z;
  ts_rtt : Z;
  ts_sample_count : Z;
  ts_last_request : option RaopTimingRequest
}.

Definition TimingSync_new : TimingSync := {|
  ts_sequence := 0; ts_offset := 0; ts_rtt := 0; ts_sample_count := 0; ts_last_request := None
|}.

Definition TimingSync_create_request (self : TimingSync) (now : NtpTimestamp)
  : list Z * TimingSync :=
  let request := RaopTimingRequest_new now in
  let data := RaopTimingRequest_encode request (ts_sequence self) in
  (data, {| ts_sequence := ts_sequence self +%u16 1;
            ts_offset := ts_offset self; ts_rtt := ts_rtt self;
            ts_sample_count := ts_sample_count self;
            ts_last_request := Some request |}).

(** One step of the moving averages (the [else] branch). *)
Definition ema_offset {E} (cur new : Z) : outcome E Z :=
  d ← chk_i 64 (new - cur); chk_i 64 (cur + Z.quot d 8).
Definition ema_rtt {E} (cur new : Z) : outcome E Z :=
  chk_u 64 (cur + saturating_sub new cur / 8).

Definition TimingSync_process_response (self : TimingSync) (data : list Z) (now : NtpTimestamp)
  : outcome RtpDecodeError TimingSync :=
  response ← RaopTimingResponse_decode data;
  offset ← RaopTimingResponse_calculate_offset response now;
  rtt ← RaopTimingResponse_calculate_rtt response now;
  '(o, r) ← (if ts_sample_count self =? 0 then Ok (offset, rtt)
             else
               o ← ema_offset (ts_offset self) offset;
               r ← ema_rtt (ts_rtt self) rtt;
               Ok (o, r));
  count ← chk_u 32 (ts_sample_count self + 1);
  Ok {| ts_sequence := ts_sequence self; ts_offset := o; ts_rtt := r;
        ts_sample_count := count; ts_last_request := ts_last_request self |}.

(** [(self.offset * 44100 / 1_000_000) as i32]. *)
Definition offset_samples {E} (self : TimingSync) : outcome E Z :=
  p ← chk_i 64 (ts_offset self * 44100); Ok (sext 32 (Z.quot p 1000000)).

Definition TimingSync_local_to_remote {E} (self : TimingSync) (local_ts : Z) : outcome E Z :=
  s ← offset_samples self; Ok (local_ts +%u32 wrap 32 s).

Definition TimingSync_remote_to_local {E} (self : TimingSync) (remote_ts : Z) : outcome E Z :=
  s ← offset_samples self; Ok (remote_ts -%u32 wrap 32 s).

(** ** Well-formedness *)
Definition ntp_ok (t : NtpTimestamp) : Prop := uint 32 (seconds t) /\ uint 32 (fraction t).
Definition response_ok (r : TimingResponse) : Prop :=
  ntp_ok (reference_time r) /\ ntp_ok (receive_time r) /\ ntp_ok (send_time r).

(** A microsecond instant as an NTP timestamp, for stating what an exchange
    between two clocks measures. *)
Definition micros_eq (t : NtpTimestamp) (us : Z) : Prop := ntp_ok t /\ to_micros t = us.

(** ** Lemmas *)
Lemma NtpTimestamp_now_ok secs nanos : ntp_ok (NtpTimestamp_now secs nanos).
Proof. split; apply wrap_range; lia. Qed.

Lemma length_NtpTimestamp_encode t : length (NtpTimestamp_encode t) = 8%nat.
Proof. done. Qed.

#[local] Hint Rewrite length_NtpTimestamp_encode : bytes.

Lemma NtpTimestamp_roundtrip {E} t rest : ntp_ok t ->
  NtpTimestamp_decode (E := E) (NtpTimestamp_encode t ++ rest) = Ok t.
Proof.
  intros [Hs Hf]. unfold NtpTimestamp_decode, NtpTimestamp_encode. rewrite <- app_assoc.
  read_bytes. unfold uint in *. rewrite !Z.mod_small by (simpl; lia). by destruct t.
Qed.

Lemma NtpTimestamp_roundtrip' {E} t : ntp_ok t ->
  NtpTimestamp_decode (E := E) (NtpTimestamp_encode t) = Ok t.
Proof. rewrite <- (app_nil_r (NtpTimestamp_encode t)). apply NtpTimestamp_roundtrip. Qed.

Lemma to_micros_bound t : ntp_ok t -> 0 <= to_micros t < 4294967296000000.
Proof.
  intros [Hs Hf]. unfold to_micros, uint in *. rewrite Z.shiftr_div_pow2 by lia.
  assert (0 <= fraction t * 1000000 / 2 ^ 32 < 1000000) by (split; [apply Z.div_pos | apply Z.div_lt_upper_bound]; lia).
  lia.
Qed.

Lemma sext_micros t : ntp_ok t -> sext 64 (to_micros t) = to_micros t.
Proof.
  intros H%to_micros_bound. rewrite <- (wrap_small 64 (to_micros t)) at 1 by (unfold uint; lia).
  apply sext_wrap; [lia|]. unfold sint. lia.
Qed.

(** With 32-bit fields the offset formula never overflows. *)
Lemma calculate_offset_value {E} r c : response_ok r -> ntp_ok c ->
  calculate_offset (E := E) r c =
  Ok (Z.quot ((to_micros (receive_time r) - to_micros (reference_time r)) +
              (to_micros (send_time r) - to_micros c)) 2).
Proof.
  intros (H1 & H2 & H3) H4. unfold calculate_offset. rewrite !sext_micros by done.
  apply to_micros_bound in H1, H2, H3, H4.
  rewrite chk_i_ok by (unfold sint; lia). cbn [mbind outcome_bind].
  rewrite chk_i_ok by (unfold sint; lia). cbn [mbind outcome_bind].
  rewrite chk_i_ok by (unfold sint; lia). done.
Qed.

Lemma calculate_rtt_value {E} r c : response_ok r -> ntp_ok c ->
  to_micros (reference_time r) <= to_micros c -> to_micros (receive_time r) <= to_micros (send_time r) ->
  calculate_rtt (E := E) r c =
  Ok (saturating_sub (to_micros c - to_micros (reference_time r))
        (to_micros (send_time r) - to_micros (receive_time r))).
Proof.
  intros (H1 & H2 & H3) H4 Ha Hb. unfold calculate_rtt.
  apply to_micros_bound in H1, H2, H3, H4.
  rewrite chk_u_ok by (unfold uint; lia). cbn [mbind outcome_bind].
  by rewrite chk_u_ok by (unfold uint; lia).
Qed.

(** The RAOP response repeats the two formulas. *)
Lemma raop_calculate_offset_eq {E} : @RaopTimingResponse_calculate_offset E = @calculate_offset E.
Proof. done. Qed.
Lemma raop_calculate_rtt_eq {E} : @RaopTimingResponse_calculate_rtt E = @calculate_rtt E.
Proof. done. Qed.

Lemma ema_offset_step {E} cur new : Z.abs cur <= 2 ^ 61 -> Z.abs new <= 2 ^ 61 ->
  ema_offset (E := E) cur new = Ok (cur + Z.quot (new - cur) 8).
Proof.
  intros. unfold ema_offset. rewrite chk_i_ok by (unfold sint; lia). cbn [mbind outcome_bind].
  assert (Z.abs (Z.quot (new - cur) 8) <= Z.abs (new - cur)) by (Z.to_euclidean_division_equations; lia).
  by rewrite chk_i_ok by (unfold sint; lia).
Qed.

Lemma NtpTimestamp_decode_ok {E} (buf : list Z) t :
  bytes_ok buf -> length buf = 8%nat -> NtpTimestamp_decode (E := E) buf = Ok t -> ntp_ok t.
Proof.
  intros Hb Hl. unfold NtpTimestamp_decode. rewrite !be_at_in by lia. cbn [mbind outcome_bind].
  intros [= <-]. unfold ntp_ok, uint. cbn [seconds fraction].
  pose proof (from_be_take_range buf 0 4 Hb). pose proof (from_be_take_range buf 4 4 Hb).
  change (2 ^ 32) with (256 ^ Z.of_nat 4). split; lia.
Qed.

(** ** Properties *)

(** Accuracy of the exchange. Let the server clock be [theta] microseconds
    ahead of the client clock, and let a request sent at client time [a] travel
    for [d1], be processed for [p] and its answer travel for [d2]. Then neither
    computation overflows, the round-trip time is exactly [d1 + d2], the offset
    is off by at most half the round trip (rounded up), and with symmetric
    delays it is exactly [theta]. *)
Theorem timing_exchange_accuracy (r : TimingResponse) (c : NtpTimestamp) (a theta d1 p d2 : Z)
  (Hd : 0 <= d1 /\ 0 <= d2 /\ 0 <= p)
  (H1 : micros_eq (reference_time r) a) (H2 : micros_eq (receive_time r) (a + d1 + theta))
  (H3 : micros_eq (send_time r) (a + d1 + theta + p)) (H4 : micros_eq c (a + d1 + p + d2)) :
  exists o, calculate_offset (E := RtpDecodeError) r c = Ok o /\
    calculate_rtt (E := RtpDecodeError) r c = Ok (d1 + d2) /\
    2 * Z.abs (o - theta) <= d1 + d2 + 1 /\ (d1 = d2 -> o = theta).
Proof.
  destruct H1 as [K1 E1], H2 as [K2 E2], H3 as [K3 E3], H4 as [K4 E4].
  eexists. split; [by apply calculate_offset_value|].
  rewrite calculate_rtt_value by (try done; lia).
  rewrite E1, E2, E3, E4. unfold saturating_sub.
  split; [f_equal; lia|]. split; [Z.to_euclidean_division_equations; lia|].
  intros ->. replace (_ + _) with (theta * 2) by lia. by apply Z.quot_mul.
Qed.

Lemma timing_exchange_accuracy_witness :
  let at_us s := {| seconds := s; fraction := 0 |} in
  let r := {| reference_time := at_us 100; receive_time := at_us 107; send_time := at_us 108 |} in
  exists o, calculate_offset (E := RtpDecodeError) r (at_us 105) = Ok o /\
    calculate_rtt (E := RtpDecodeError) r (at_us 105) = Ok 4000000 /\ o = 5000000.
Proof.
  intros at_us r.
  destruct (timing_exchange_accuracy r (at_us 105) 100000000 5000000 2000000 1000000 2000000)
    as (o & Ho & Hr & _ & Hs); try (repeat split; vm_compute; congruence); try lia.
  exists o. split; [exact Ho|]. split; [exact Hr | exact (Hs eq_refl)].
Defined.

(** After its first sample the estimator's round-trip time never decreases,
    whatever the measured samples are: a sample below the current estimate
    leaves it unchanged, because the difference saturates at zero before it is
    averaged. *)
Theorem rtt_estimate_never_decreases (self self' : TimingSync) (data : list Z) (now : NtpTimestamp)
  (H0 : ts_sample_count self <> 0)
  (H : TimingSync_process_response self data now = Ok self') :
  ts_rtt self <= ts_rtt self' /\
  (forall resp rtt, RaopTimingResponse_decode data = Ok resp ->
     RaopTimingResponse_calculate_rtt (E := RtpDecodeError) resp now = Ok rtt -> rtt <= ts_rtt self ->
     ts_rtt self' = ts_rtt self).
Proof.
  unfold TimingSync_process_response in H.
  apply bind_ok in H as (resp & Hresp & H). apply bind_ok in H as (o & _ & H).
  apply bind_ok in H as (rtt & Hrtt & H). apply bind_ok in H as ([o' r'] & Hema & H).
  apply bind_ok in H as (n & _ & H). simplify_eq. cbn [ts_rtt].
  rewrite (proj2 (Z.eqb_neq _ _)) in Hema by done.
  apply bind_ok in Hema as (o2 & _ & Hema). apply bind_ok in Hema as (r2 & Hr & Hema). simplify_eq.
  unfold ema_rtt, chk_u, saturating_sub in Hr.
  assert (0 <= Z.max 0 (rtt - ts_rtt self) / 8) by (apply Z.div_pos; lia).
  case_m; simplify_eq. split; [lia|]. intros resp' rtt' Hresp' Hrtt' Hle.
  rewrite Hresp in Hresp'. injection Hresp' as <-. rewrite Hrtt in Hrtt'. injection Hrtt' as <-.
  rewrite Z.max_l, Z.div_0_l by lia. lia.
Qed.

Lemma rtt_estimate_never_decreases_witness :
  let at_s s := {| seconds := s; fraction := 0 |} in
  let slow := {| ts_sequence := 1; ts_offset := 0; ts_rtt := 9000000; ts_sample_count := 1;
                 ts_last_request := None |} in
  let data := RaopTimingRequest_encode {| raop_reference_time := at_s 100 |} 0 in
  exists self', TimingSync_process_response slow
    (take 16 data ++ NtpTimestamp_encode (at_s 100) ++ drop 24 data) (at_s 101) = Ok self' /\
    ts_rtt slow <= ts_rtt self'.
Proof.
  intros at_s slow data. eexists. split; [vm_compute; reflexivity|].
  refine (proj1 (rtt_estimate_never_decreases slow _
    (take 16 data ++ NtpTimestamp_encode (at_s 100) ++ drop 24 data) (at_s 101) _ _)).
  - vm_compute. discriminate.
  - vm_compute. reflexivity.
Defined.

(** The offset estimate converges. A further sample moves it to the
    measured offset by at least one eighth of the distance, up to truncation,
    and never past it. *)
Theorem offset_estimate_contracts (self self' : TimingSync) (data : list Z) (now : NtpTimestamp)
  (resp : TimingResponse) (m : Z) (H0 : ts_sample_count self <> 0)
  (Hresp : RaopTimingResponse_decode data = Ok resp)
  (Hm : RaopTimingResponse_calculate_offset (E := RtpDecodeError) resp now = Ok m)
  (H : TimingSync_process_response self data now = Ok self') :
  8 * Z.abs (ts_offset self' - m) <= 7 * Z.abs (ts_offset self - m) + 7 /\
  0 <= (m - ts_offset self) * (m - ts_offset self').
Proof.
  unfold TimingSync_process_response in H. rewrite Hresp in H. cbn [mbind outcome_bind] in H.
  rewrite Hm in H. cbn [mbind outcome_bind] in H.
  apply bind_ok in H as (rtt & _ & H). apply bind_ok in H as ([o' r'] & Hema & H).
  apply bind_ok in H as (n & _ & H). simplify_eq. cbn [ts_offset].
  rewrite (proj2 (Z.eqb_neq _ _)) in Hema by done.
  apply bind_ok in Hema as (o2 & Ho & Hema). apply bind_ok in Hema as (r2 & _ & Hema). simplify_eq.
  unfold ema_offset, chk_i in Ho. case_m; [|done]. cbn [mbind outcome_bind] in Ho.
  case_m; simplify_eq.
  set (q := Z.quot (m - ts_offset self) 8).
  assert (8 * q + Z.rem (m - ts_offset self) 8 = m - ts_offset self) by (subst q; pose proof (Z.quot_rem' (m - ts_offset self) 8); lia).
  assert (Z.abs (Z.rem (m - ts_offset self) 8) < 8) by (apply Z.rem_bound_abs; lia).
  assert (0 <= Z.rem (m - ts_offset self) 8 * (m - ts_offset self)) by (apply Z.rem_sign_mul; lia).
  split; nia.
Qed.

Lemma offset_estimate_contracts_witness :
  let at_s s := {| seconds := s; fraction := 0 |} in
  let self := {| ts_sequence := 1; ts_offset := 0; ts_rtt := 0; ts_sample_count := 1;
                 ts_last_request := None |} in
  let data := replicate 8 0 ++ NtpTimestamp_encode (at_s 100) ++ NtpTimestamp_encode (at_s 108) ++
              NtpTimestamp_encode (at_s 108) in
  exists self' m, TimingSync_process_response self data (at_s 100) = Ok self' /\
    8 * Z.abs (ts_offset self' - m) <= 7 * Z.abs (ts_offset self - m) + 7 /\ m = 8000000.
Proof.
  intros at_s self data. eexists _, 8000000. split; [vm_compute; reflexivity|].
  split; [|reflexivity].
  refine (proj1 (offset_estimate_contracts self _ data (at_s 100)
    {| reference_time := at_s 100; receive_time := at_s 108; send_time := at_s 108 |} 8000000 _ _ _ _)).
  - vm_compute. discriminate.
  - vm_compute. reflexivity.
  - vm_compute. reflexivity.
  - vm_compute. reflexivity.
Defined.

(** Converting an RTP timestamp to the remote clock and back is the
    identity, for every offset whose product with the sample rate fits in
    [i64], including offsets that wrap the 32-bit timestamp. *)
Theorem local_remote_roundtrip (self : TimingSync) (ts : Z) (Hts : uint 32 ts)
  (Ho : Z.abs (ts_offset self) < 2 ^ 47) :
  exists r, TimingSync_local_to_remote (E := RtpDecodeError) self ts = Ok r /\ uint 32 r /\
    TimingSync_remote_to_local (E := RtpDecodeError) self r = Ok ts.
Proof.
  unfold TimingSync_local_to_remote, TimingSync_remote_to_local, offset_samples.
  rewrite chk_i_ok by (unfold sint; lia). cbn [mbind outcome_bind].
  eexists. split; [done|]. split; [apply wrapping_add_range; lia|].
  by rewrite wrapping_sub_add by (done || lia).
Qed.

End RtpTiming.
