(* ===== verification/RtpControl.v ===== *)
(** * Control-channel packets, sender and receiver side

    Models [src/protocol/rtp/control.rs] (retransmit requests and the control
    packets of AirPlay 2), [src/protocol/rtp/raop.rs] (RAOP sync, retransmit
    and audio packets) and the parser of [src/receiver/control_receiver.rs],
    and relates what one side writes to what the other reads. *)

From S2P Require Import Bytes RtpPacket RtpTiming.
Import RtpPacket(RtpDecodeError, BufferTooSmall, UnknownPayloadType).
Import RtpTiming(NtpTimestamp, seconds, fraction, NtpTimestamp_encode, NtpTimestamp_decode, ntp_ok).

Module RtpControl.

(** ** [control.rs] *)
Record RetransmitRequest := { sequence_start : Z; count : Z }.

Definition RetransmitRequest_new (start cnt : Z) : RetransmitRequest :=
  {| sequence_start := start; count := cnt |}.

Definition RetransmitRequest_encode (r : RetransmitRequest) (ssrc : Z) : list Z :=
  [0x80; 0xD5] ++ to_be 2 (sequence_start r) ++ replicate 4 0 ++ to_be 4 ssrc ++
  to_be 2 (sequence_start r) ++ to_be 2 (count r).

Definition RetransmitRequest_decode (buf : list Z) : outcome RtpDecodeError RetransmitRequest :=
  if (length buf <? 4)%nat then Err (BufferTooSmall 4 (Z.of_nat (length buf)))
  else
    s ← be_at buf 0 2;
    c ← be_at buf 2 2;
    Ok {| sequence_start := s; count := c |}.

Inductive ControlPacket :=
| CpRetransmitRequest (req : RetransmitRequest)
| CpSync (rtp_timestamp : Z) (ntp_timestamp : NtpTimestamp) (next_timestamp : Z)
| CpTimeAnnouncePtp (rtp_timestamp ptp_timestamp rtp_timestamp_next clock_identity : Z)
| CpTimeAnnounceNtp (rtp_timestamp ntp_timestamp rtp_timestamp_next : Z).

Definition ControlPacket_encode (p : ControlPacket) : list Z :=
  match p with
  | CpRetransmitRequest req => RetransmitRequest_encode req 0
  | CpSync _ _ _ => []
  | CpTimeAnnouncePtp rtp ptp next clock =>
      [0x80; 0xD7] ++ to_be 2 6 ++ to_be 4 rtp ++ to_be 8 ptp ++ to_be 4 next ++ to_be 8 clock
  | CpTimeAnnounceNtp rtp ntp next =>
      [0x80; 0xD4] ++ to_be 2 7 ++ to_be 4 rtp ++ to_be 8 ntp ++ to_be 4 next ++ replicate 12 0
  end.

Definition ControlPacket_decode (buf : list Z) : outcome RtpDecodeError ControlPacket :=
  let len := Z.of_nat (length buf) in
  if (length buf <? 4)%nat then Err (BufferTooSmall 4 len)
  else
    payload_type_full ← byte_at buf 1;
    let payload_type_masked := Z.land payload_type_full 0x7F in
    if payload_type_full =? 0xD7 then
      if (length buf <? 28)%nat then Err (BufferTooSmall 28 len)
      else
        rtp ← be_at buf 4 4;
        ptp ← be_at buf 8 8;
        next ← be_at buf 16 4;
        clock ← be_at buf 20 8;
        Ok (CpTimeAnnouncePtp rtp ptp next clock)
    else if payload_type_full =? 0xD4 then
      if (length buf <? 20)%nat then Err (BufferTooSmall 20 len)
      else
        plen ← be_at buf 2 2;
        let expected_len := (plen + 1) * 4 in
        if len <? expected_len then Err (BufferTooSmall expected_len len)
        else
          rtp ← be_at buf 4 4;
          ntp ← be_at buf 8 8;
          next ← be_at buf 16 4;
          Ok (CpTimeAnnounceNtp rtp ntp next)
    else if payload_type_masked =? 0x55 then
      if (length buf <? 12)%nat then Err (BufferTooSmall 12 len)
      else
        body ← slice buf 12 (length buf);
        request ← RetransmitRequest_decode body;
        Ok (CpRetransmitRequest request)
    else if payload_type_masked =? 0x54 then
      if (length buf <? 20)%nat then Err (BufferTooSmall 20 len)
      else
        rtp ← be_at buf 4 4;
        nb ← slice buf 8 16;
        ntp ← NtpTimestamp_decode nb;
        next ← be_at buf 16 4;
        Ok (CpSync rtp ntp next)
    else Err (UnknownPayloadType payload_type_masked).

(** ** [raop.rs] *)
Inductive RaopPayloadType :=
| RTimingRequest | RTimingResponse | RSync | RRetransmitRequest | RRetransmitResponse
| RAudioRealtime | RAudioBuffered.

Definition RaopPayloadType_from_byte (b : Z) : option RaopPayloadType :=
  match Z.land b 0x7F with
  | 0x52 => Some RTimingRequest
  | 0x53 => Some RTimingResponse
  | 0x54 => Some RSync
  | 0x55 => Some RRetransmitRequest
  | 0x56 => Some RRetransmitResponse
  | 0x60 => Some RAudioRealtime
  | 0x61 => Some RAudioBuffered
  | _ => None
  end.

Definition RaopPayloadType_is_audio (t : RaopPayloadType) : bool :=
  match t with
  | RAudioRealtime | RAudioBuffered | RRetransmitResponse => true
  | _ => false
  end.

Record SyncPacket := {
  sync_extension : bool;
  sync_rtp_timestamp : Z;
  sync_ntp_time : NtpTimestamp;
  sync_next_timestamp : Z
}.

Definition SyncPacket_new (rtp : Z) (ntp : NtpTimestamp) (next : Z) (is_first : bool) : SyncPacket :=
  {| sync_extension := is_first; sync_rtp_timestamp := rtp; sync_ntp_time := ntp;
     sync_next_timestamp := next |}.

Definition SyncPacket_SIZE : nat := 20.

Definition SyncPacket_encode (p : SyncPacket) : list Z :=
  let flags := Z.lor 0x80 (if sync_extension p then 0x10 else 0x00) in
  [flags; 0xD4] ++ to_be 2 0x0007 ++ to_be 4 (sync_rtp_timestamp p) ++
  NtpTimestamp_encode (sync_ntp_time p) ++ to_be 4 (sync_next_timestamp p).

Definition SyncPacket_decode (buf : list Z) : outcome RtpDecodeError SyncPacket :=
  if (length buf <? SyncPacket_SIZE)%nat
  then Err (BufferTooSmall (Z.of_nat SyncPacket_SIZE) (Z.of_nat (length buf)))
  else
    b0 ← byte_at buf 0;
    rtp ← be_at buf 4 4;
    nb ← slice buf 8 16;
    ntp ← NtpTimestamp_decode nb;
    next ← be_at buf 16 4;
    Ok {| sync_extension := negb (Z.land b0 0x10 =? 0); sync_rtp_timestamp := rtp;
          sync_ntp_time := ntp; sync_next_timestamp := next |}.

(** RAOP's own retransmit request, with the body decoder of the same shape. *)
Record RaopRetransmitRequest := { seq_start : Z; raop_count : Z }.

Definition RaopRetransmitRequest_decode (buf : list Z) : outcome RtpDecodeError RaopRetransmitRequest :=
  if (length buf <? 4)%nat then Err (BufferTooSmall 4 (Z.of_nat (length buf)))
  else
    s ← be_at buf 0 2;
    c ← be_at buf 2 2;
    Ok {| seq_start := s; raop_count := c |}.

Record RaopAudioPacket := {
  audio_marker : bool;
  audio_sequence : Z;
  audio_timestamp : Z;
  audio_ssrc : Z;
  audio_payload : list Z
}.

Definition RaopAudioPacket_HEADER_SIZE : nat := 12.

Definition RaopAudioPacket_new (seq ts ssrc : Z) (pl : list Z) : RaopAudioPacket :=
  {| audio_marker := false; audio_sequence := seq; audio_timestamp := ts; audio_ssrc := ssrc;
     audio_payload := pl |}.

Definition RaopAudioPacket_with_marker (p : RaopAudioPacket) : RaopAudioPacket :=
  {| audio_marker := true; audio_sequence := audio_sequence p; audio_timestamp := audio_timestamp p;
     audio_ssrc := audio_ssrc p; audio_payload := audio_payload p |}.

(** [write_header] appends to the buffer. *)
Definition RaopAudioPacket_write_header (buf : list Z) (marker : bool) (seq ts ssrc : Z) : list Z :=
  buf ++ [0x80; Z.lor 0x60 (if marker then 0x80 else 0x00)] ++ to_be 2 seq ++ to_be 4 ts ++ to_be 4 ssrc.

Definition RaopAudioPacket_encode (p : RaopAudioPacket) : list Z :=
  RaopAudioPacket_write_header [] (audio_marker p) (audio_sequence p) (audio_timestamp p) (audio_ssrc p)
  ++ audio_payload p.

Definition RaopAudioPacket_decode (buf : list Z) : outcome RtpDecodeError RaopAudioPacket :=
  if (length buf <? RaopAudioPacket_HEADER_SIZE)%nat
  then Err (BufferTooSmall (Z.of_nat RaopAudioPacket_HEADER_SIZE) (Z.of_nat (length buf)))
  else
    b1 ← byte_at buf 1;
    seq ← be_at buf 2 2;
    ts ← be_at buf 4 4;
    ssrc ← be_at buf 8 4;
    pl ← slice buf RaopAudioPacket_HEADER_SIZE (length buf);
    Ok {| audio_marker := negb (Z.land b1 0x80 =? 0); audio_sequence := seq; audio_timestamp := ts;
          audio_ssrc := ssrc; audio_payload := pl |}.

(** ** [control_receiver.rs] *)
Record RecvSyncPacket := {
  rs_extension : bool;
  rs_rtp_timestamp : Z;
  rs_ntp_timestamp : Z;
  rs_rtp_timestamp_at_ntp : Z
}.

Record RecvRetransmitRequest := { first_seq : Z; recv_count : Z }.

Inductive ControlEvent :=
| EvSync (s : RecvSyncPacket)
| EvRetransmitRequest (r : RecvRetransmitRequest).

Definition PACKET_TYPE_SYNC : Z := 0x54.
Definition PACKET_TYPE_RETRANSMIT_REQUEST : Z := 0x55.

Definition parse_sync {E} (data : list Z) : outcome E (option ControlEvent) :=
  if (length data <? 20)%nat then Ok None
  else
    b0 ← byte_at data 0;
    rtp ← be_at data 4 4;
    ntp ← be_at data 8 8;
    at_ntp ← be_at data 16 4;
    Ok (Some (EvSync {| rs_extension := negb (Z.land b0 0x10 =? 0); rs_rtp_timestamp := rtp;
                        rs_ntp_timestamp := ntp; rs_rtp_timestamp_at_ntp := at_ntp |})).

Definition parse_retransmit {E} (data : list Z) : outcome E (option ControlEvent) :=
  if (length data <? 8)%nat then Ok None
  else
    f ← be_at data 4 2;
    c ← be_at data 6 2;
    Ok (Some (EvRetransmitRequest {| first_seq := f; recv_count := c |})).

Definition parse_packet {E} (data : list Z) : outcome E (option ControlEvent) :=
  if (length data <? 8)%nat then Ok None
  else
    b1 ← byte_at data 1;
    let packet_type := Z.land b1 0x7F in
    if packet_type =? PACKET_TYPE_SYNC then parse_sync data
    else if packet_type =? PACKET_TYPE_RETRANSMIT_REQUEST then parse_retransmit data
    else Ok None.

(** ** Well-formedness: field ranges of the types *)
Definition control_ok (p : ControlPacket) : Prop :=
  match p with
  | CpRetransmitRequest r => uint 16 (sequence_start r) /\ uint 16 (count r)
  | CpSync rtp ntp next => uint 32 rtp /\ ntp_ok ntp /\ uint 32 next
  | CpTimeAnnouncePtp rtp ptp next clock => uint 32 rtp /\ uint 64 ptp /\ uint 32 next /\ uint 64 clock
  | CpTimeAnnounceNtp rtp ntp next => uint 32 rtp /\ uint 64 ntp /\ uint 32 next
  end.
Definition encodable (p : ControlPacket) : bool :=
  match p with CpSync _ _ _ => false | _ => true end.
Definition sync_ok (p : SyncPacket) : Prop :=
  uint 32 (sync_rtp_timestamp p) /\ ntp_ok (sync_ntp_time p) /\ uint 32 (sync_next_timestamp p).
Definition audio_ok (p : RaopAudioPacket) : Prop :=
  uint 16 (audio_sequence p) /\ uint 32 (audio_timestamp p) /\ uint 32 (audio_ssrc p).

(** ** Lemmas *)
Ltac fields := unfold uint in *; rewrite !Z.mod_small by (simpl; lia); try done.

Lemma RetransmitRequest_decode_fields r rest : uint 16 (sequence_start r) -> uint 16 (count r) ->
  RetransmitRequest_decode (to_be 2 (sequence_start r) ++ to_be 2 (count r) ++ rest) = Ok r.
Proof.
  intros. unfold RetransmitRequest_decode. rewrite (proj2 (Nat.ltb_ge _ _)) by (autorewrite with bytes; lia).
  read_bytes. fields. by destruct r.
Qed.

Lemma RetransmitRequest_decode_safe buf : safe (RetransmitRequest_decode buf).
Proof.
  unfold RetransmitRequest_decode. destruct (Nat.ltb_spec (length buf) 4); [done|].
  by rewrite !be_at_in by lia.
Qed.

Lemma NtpTimestamp_decode_safe {E} buf : length buf = 8%nat -> safe (NtpTimestamp_decode (E := E) buf).
Proof. intros. unfold NtpTimestamp_decode. by rewrite !be_at_in by lia. Qed.

(** The two halves of an encoded NTP timestamp read as one 64-bit number. *)
Lemma be_at_ntp {E} t rest : ntp_ok t ->
  be_at (E := E) (NtpTimestamp_encode t ++ rest) 0 8 = Ok (seconds t * 2 ^ 32 + fraction t).
Proof.
  intros [Hs Hf]. unfold be_at.
  rewrite slice_here by done. cbn [mbind outcome_bind]. f_equal.
  unfold NtpTimestamp_encode. change (2 ^ 32) with (256 ^ Z.of_nat 4).
  rewrite <- (Z.mod_small (seconds t) (256 ^ Z.of_nat 4)) at 2 by (unfold uint in Hs; simpl; lia).
  rewrite <- (Z.mod_small (fraction t) (256 ^ Z.of_nat 4)) at 2 by (unfold uint in Hf; simpl; lia).
  rewrite <- !from_be_to_be.
  assert (forall l1 l2, from_be (l1 ++ l2) = from_be l1 * 256 ^ Z.of_nat (length l2) + from_be l2) as Happ.
  { intros l1 l2. unfold from_be at 1. by rewrite foldl_app, foldl_from_be. }
  by rewrite Happ, length_to_be.
Qed.

Lemma length_ntp t : length (NtpTimestamp_encode t) = 8%nat.
Proof. done. Qed.

#[local] Hint Rewrite length_ntp : bytes.

Lemma length_SyncPacket_encode p : length (SyncPacket_encode p) = SyncPacket_SIZE.
Proof. done. Qed.

Lemma sync_flags (x : bool) : negb (Z.land (Z.lor 0x80 (if x then 0x10 else 0x00)) 0x10 =? 0) = x.
Proof. by destruct x. Qed.

Lemma audio_flags (m : bool) : negb (Z.land (Z.lor 0x60 (if m then 0x80 else 0x00)) 0x80 =? 0) = m.
Proof. by destruct m. Qed.

Lemma ControlPacket_decode_safe buf : safe (ControlPacket_decode buf).
Proof.
  unfold ControlPacket_decode. destruct (Nat.ltb_spec (length buf) 4); [done|].
  apply safe_bind; [apply byte_at_safe; lia|]. intros b _.
  case_m; [case_m; [done|]; bool_to_prop; by rewrite !be_at_in by lia|].
  case_m; [case_m; [done|]; bool_to_prop; rewrite !be_at_in by lia; cbn [mbind outcome_bind]; by case_m|].
  case_m; [case_m; [done|]; bool_to_prop|].
  { rewrite slice_in by lia. cbn [mbind outcome_bind].
    apply safe_bind; [apply RetransmitRequest_decode_safe|]. done. }
  case_m; [case_m; [done|]; bool_to_prop|done].
  rewrite !be_at_in by lia. cbn [mbind outcome_bind]. rewrite slice_in by lia. cbn [mbind outcome_bind].
  apply safe_bind; [|done]. apply NtpTimestamp_decode_safe. rewrite length_take, length_drop. lia.
Qed.

Lemma parse_packet_safe {E} data : safe (parse_packet (E := E) data).
Proof.
  unfold parse_packet. destruct (Nat.ltb_spec (length data) 8); [done|].
  apply safe_bind; [apply byte_at_safe; lia|]. intros b _. unfold parse_sync, parse_retransmit.
  repeat case_m; try done; bool_to_prop.
  - destruct (byte_at_in (E := E) data 0) as (b0 & -> & _); [lia|]. by rewrite !be_at_in by lia.
  - by rewrite !be_at_in by lia.
Qed.

(** ** Properties *)

(** The control-packet decoder never reads out of range on any input, and
    every packet the encoder writes (retransmit requests and both time
    announcements; sync packets are not encoded) is decoded back to itself. *)
Theorem control_roundtrip (p : ControlPacket) (Hp : control_ok p) (He : encodable p = true) :
  (forall buf, safe (ControlPacket_decode buf)) /\
  ControlPacket_decode (ControlPacket_encode p) = Ok p.
Proof.
  split; [apply ControlPacket_decode_safe|].
  destruct p as [r|rtp ntp next|rtp ptp next clock|rtp ntp next]; [|done|..].
  - destruct Hp as [Hs Hc]. unfold ControlPacket_encode, RetransmitRequest_encode, ControlPacket_decode.
    rewrite !(proj2 (Nat.ltb_ge _ _)) by (autorewrite with bytes; simpl; lia).
    cbn [app byte_at unwrap lookup list_lookup mbind outcome_bind].
    change (Z.land 0xD5 0x7F) with 0x55. cbn [Z.eqb Pos.eqb].
    rewrite slice_in by (autorewrite with bytes; simpl; lia).
    cbn [mbind outcome_bind].
    rewrite take_ge by (rewrite length_drop; done).
    change (drop 12 _) with (to_be 2 (sequence_start r) ++ to_be 2 (count r)).
    rewrite <- (app_nil_r (to_be 2 (count r))), RetransmitRequest_decode_fields by done. done.
  - destruct Hp as (H1 & H2 & H3 & H4). unfold ControlPacket_encode, ControlPacket_decode.
    rewrite !(proj2 (Nat.ltb_ge _ _)) by (autorewrite with bytes; simpl; lia).
    cbn [app byte_at unwrap lookup list_lookup mbind outcome_bind Z.eqb Pos.eqb].
    read_bytes. fields.
  - destruct Hp as (H1 & H2 & H3). unfold ControlPacket_encode, ControlPacket_decode.
    rewrite !(proj2 (Nat.ltb_ge _ _)) by (autorewrite with bytes; simpl; lia).
    cbn [app byte_at unwrap lookup list_lookup mbind outcome_bind Z.eqb Pos.eqb].
    read_bytes. change (7 mod 256 ^ Z.of_nat 2) with 7.
    rewrite (proj2 (Z.ltb_ge _ _)) by (cbn [length]; autorewrite with bytes; lia). fields.
Qed.

Lemma control_roundtrip_witness :
  ControlPacket_decode (ControlPacket_encode (CpTimeAnnouncePtp 1 (2 ^ 63) 353 7)) =
    Ok (CpTimeAnnouncePtp 1 (2 ^ 63) 353 7) /\
  ControlPacket_decode (ControlPacket_encode (CpRetransmitRequest (RetransmitRequest_new 65535 3))) =
    Ok (CpRetransmitRequest (RetransmitRequest_new 65535 3)).
Proof.
  split; apply control_roundtrip; try reflexivity; repeat split; vm_compute; congruence.
Defined.

(** A RAOP sync packet read by the receiver's control port. The RAOP
    decoder and the receiver's parser both recover the sender's fields; the
    field the receiver calls [rtp_timestamp_at_ntp] is the sender's
    [next_timestamp], and its [rtp_timestamp] is the timestamp being played.
    The AirPlay 2 control decoder, in contrast, refuses every RAOP sync packet:
    it takes the byte 0xD4 for a time announcement and the unused sequence
    number 7 for its length, and asks for 32 bytes. *)
Theorem sync_sender_receiver (p : SyncPacket) (Hp : sync_ok p) :
  SyncPacket_decode (SyncPacket_encode p) = Ok p /\
  parse_packet (E := RtpDecodeError) (SyncPacket_encode p) =
    Ok (Some (EvSync {|
      rs_extension := sync_extension p;
      rs_rtp_timestamp := sync_rtp_timestamp p;
      rs_ntp_timestamp := seconds (sync_ntp_time p) * 2 ^ 32 + fraction (sync_ntp_time p);
      rs_rtp_timestamp_at_ntp := sync_next_timestamp p |})) /\
  ControlPacket_decode (SyncPacket_encode p) = Err (BufferTooSmall 32 20).
Proof.
  destruct Hp as (H1 & H2 & H3). split_and!.
  - unfold SyncPacket_decode. rewrite length_SyncPacket_encode, Nat.ltb_irrefl.
    unfold SyncPacket_encode.
    cbn [app byte_at unwrap lookup list_lookup mbind outcome_bind].
    read_bytes. rewrite RtpTiming.NtpTimestamp_roundtrip' by done. cbn [mbind outcome_bind].
    read_bytes. rewrite sync_flags. fields. by destruct p.
  - unfold parse_packet, parse_sync. rewrite length_SyncPacket_encode. cbn [Nat.ltb Nat.leb SyncPacket_SIZE].
    unfold SyncPacket_encode.
    cbn [app byte_at unwrap lookup list_lookup mbind outcome_bind].
    change (Z.land 0xD4 0x7F =? PACKET_TYPE_SYNC) with true. cbv iota.
    read_bytes. rewrite be_at_ntp by done. cbn [mbind outcome_bind].
    read_bytes. rewrite sync_flags. fields.
  - unfold ControlPacket_decode. rewrite length_SyncPacket_encode. cbn [Nat.ltb Nat.leb SyncPacket_SIZE].
    unfold SyncPacket_encode.
    cbn [app byte_at unwrap lookup list_lookup mbind outcome_bind Z.eqb Pos.eqb].
    read_bytes. reflexivity.
Qed.

Lemma sync_sender_receiver_witness :
  let p := SyncPacket_new 44100 {| seconds := 10; fraction := 1 |} 44452 true in
  ControlPacket_decode (SyncPacket_encode p) = Err (BufferTooSmall 32 20) /\
  SyncPacket_decode (SyncPacket_encode p) = Ok p.
Proof.
  intros p. destruct (sync_sender_receiver p) as (H1 & _ & H3).
  - repeat split; vm_compute; congruence.
  - split; [exact H3 | exact H1].
Defined.

(** The receiver's control port does not understand the retransmit
    requests [control.rs] encodes: it reads bytes 4 to 7, which are the zero
    timestamp of the 12-byte header the encoder writes, so every request is
    taken for sequence 0 and count 0. *)
Theorem retransmit_layouts_differ (r : RetransmitRequest) (ssrc : Z) :
  parse_packet (E := RtpDecodeError) (RetransmitRequest_encode r ssrc) =
  Ok (Some (EvRetransmitRequest {| first_seq := 0; recv_count := 0 |})).
Proof.
  unfold parse_packet, parse_retransmit, RetransmitRequest_encode.
  rewrite !(proj2 (Nat.ltb_ge _ _)) by (autorewrite with bytes; simpl; lia).
  cbn [app byte_at unwrap lookup list_lookup mbind outcome_bind].
  change (Z.land 0xD5 0x7F =? PACKET_TYPE_SYNC) with false.
  change (Z.land 0xD5 0x7F =? PACKET_TYPE_RETRANSMIT_REQUEST) with true. cbv iota.
  read_bytes. reflexivity.
Qed.

(** A RAOP audio packet round-trips through its own codec, and the generic
    RTP decoder the receiver uses accepts the same bytes as a realtime audio
    packet with the same marker, sequence, timestamp, SSRC and payload. *)
Theorem raop_audio_roundtrip (p : RaopAudioPacket) (Hp : audio_ok p) :
  RaopAudioPacket_decode (RaopAudioPacket_encode p) = Ok p /\
  exists h, RtpPacket.RtpPacket_decode (RaopAudioPacket_encode p) =
      Ok (RtpPacket.RtpPacket_new h (audio_payload p)) /\
    RtpPacket.payload_type h = RtpPacket.AudioRealtime /\
    RtpPacket.marker h = audio_marker p /\ RtpPacket.sequence h = audio_sequence p /\
    RtpPacket.timestamp h = audio_timestamp p /\ RtpPacket.ssrc h = audio_ssrc p.
Proof.
  destruct p as [m s t ss pl], Hp as (H1 & H2 & H3). cbn in H1, H2, H3. split.
  - unfold RaopAudioPacket_decode, RaopAudioPacket_encode, RaopAudioPacket_write_header.
    cbn [audio_marker audio_sequence audio_timestamp audio_ssrc audio_payload]. rewrite <- !app_assoc.
    rewrite (proj2 (Nat.ltb_ge _ _)) by (autorewrite with bytes; simpl; unfold RaopAudioPacket_HEADER_SIZE; lia).
    cbn [app byte_at unwrap lookup list_lookup mbind outcome_bind]. read_bytes.
    rewrite slice_in by (unfold RaopAudioPacket_HEADER_SIZE; simpl; lia). cbn [mbind outcome_bind].
    rewrite take_ge by (rewrite length_drop; done). rewrite audio_flags. fields.
  - set (h := {| RtpPacket.version := 2; RtpPacket.padding := false; RtpPacket.extension := false;
      RtpPacket.csrc_count := 0; RtpPacket.marker := m;
      RtpPacket.payload_type := RtpPacket.AudioRealtime; RtpPacket.sequence := s;
      RtpPacket.timestamp := t; RtpPacket.ssrc := ss |}).
    assert (RaopAudioPacket_encode {| audio_marker := m; audio_sequence := s; audio_timestamp := t;
      audio_ssrc := ss; audio_payload := pl |} = RtpPacket.RtpHeader_encode h ++ pl) as ->
      by (by destruct m).
    exists h. split; [|done].
    unfold RtpPacket.RtpPacket_decode. rewrite RtpPacket.RtpHeader_decode_encode.
    + cbn [mbind outcome_bind]. rewrite slice_in by (unfold RtpPacket.HEADER_SIZE; simpl; lia). cbn [mbind outcome_bind].
      by rewrite take_ge by (rewrite length_drop; done).
    + unfold RtpPacket.header_ok, uint in *. simpl. lia.
Qed.

End RtpControl.
