(* ===== verification/PacketBuffer.v ===== *)
(** * Retransmission buffer and loss detection

    Models [src/protocol/rtp/packet_buffer.rs]: the sender's circular buffer of
    recent packets with its single-pass range query, and the loss detector. *)

From S2P Require Import Bytes.

Module PacketBuffer.

Record BufferedPacket := { bp_sequence : Z; bp_timestamp : Z; bp_data : list Z }.

(** The [VecDeque] is a list, front first. *)
Record PacketBuffer := { max_size : nat; packets : list BufferedPacket }.

Definition DEFAULT_SIZE : nat := 128.

Definition PacketBuffer_new (m : nat) : PacketBuffer := {| max_size := m; packets := [] |}.

Definition push (self : PacketBuffer) (p : BufferedPacket) : PacketBuffer :=
  let ps := if (max_size self <=? length (packets self))%nat
            then drop 1 (packets self) else packets self in
  {| max_size := max_size self; packets := ps ++ [p] |}.

Definition get (self : PacketBuffer) (sequence : Z) : option BufferedPacket :=
  find (fun p => bp_sequence p =? sequence) (packets self).

(** The [while let Some(&seq) = requested_seqs.peek()] loop of [get_range]:
    [i] is the number of requested sequence numbers already consumed. *)
Fixpoint skip_requests (fuel : nat) (start count i pseq : Z) : Z :=
  match fuel with
  | O => i
  | S f =>
      if i <? count then
        let diff := pseq -%u16 (start +%u16 i) in
        if (0 <? diff) && (diff <? 0x8000) then skip_requests f start count (i + 1) pseq else i
      else i
  end.

(** The [filter] over the packets, threading the iterator position. *)
Fixpoint get_range_from (start count i : Z) (ps : list BufferedPacket) : list BufferedPacket :=
  match ps with
  | [] => []
  | p :: ps =>
      let i := skip_requests (Z.to_nat (count - i)) start count i (bp_sequence p) in
      if (i <? count) && (bp_sequence p =? start +%u16 i)
      then p :: get_range_from start count (i + 1) ps
      else get_range_from start count i ps
  end.

Definition get_range (self : PacketBuffer) (start count : Z) : list BufferedPacket :=
  get_range_from start count 0 (packets self).

Definition clear (self : PacketBuffer) : PacketBuffer :=
  {| max_size := max_size self; packets := [] |}.
Definition len (self : PacketBuffer) : nat := length (packets self).
Definition is_empty (self : PacketBuffer) : bool :=
  match packets self with [] => true | _ => false end.

Definition sequence_range (self : PacketBuffer) : option (Z * Z) :=
  if is_empty self then None
  else f ← head (packets self); b ← last (packets self); Some (bp_sequence f, bp_sequence b).

(** ** Loss detector *)
Record PacketLossDetector := { expected_seq : Z; first_received : bool }.

Definition PacketLossDetector_new : PacketLossDetector :=
  {| expected_seq := 0; first_received := false |}.

(** [for i in 0..diff { missing.push(expected.wrapping_add(i)) }]. *)
Definition missing_from (expected diff : Z) : list Z :=
  map (fun i => expected +%u16 i) (seqZ 0 diff).

Definition process (self : PacketLossDetector) (sequence : Z) : list Z * PacketLossDetector :=
  if negb (first_received self) then
    ([], {| expected_seq := sequence +%u16 1; first_received := true |})
  else
    let diff := sequence -%u16 expected_seq self in
    if 0x8000 <=? diff then ([], self)
    else
      let missing := if (0 <? diff) && (diff <? 100) then missing_from (expected_seq self) diff else [] in
      (missing, {| expected_seq := sequence +%u16 1; first_received := first_received self |}).

Definition reset (self : PacketLossDetector) : PacketLossDetector :=
  {| expected_seq := 0; first_received := false |}.

(** A run of the detector: the missing numbers reported for each packet, joined. *)
Fixpoint process_all (self : PacketLossDetector) (seqs : list Z) : list Z * PacketLossDetector :=
  match seqs with
  | [] => ([], self)
  | s :: seqs =>
      let '(m, self) := process self s in
      let '(ms, self) := process_all self seqs in
      (m ++ ms, self)
  end.

(** ** Specifications

    Sequence numbers are the low 16 bits of an unbounded packet index. *)
Definition seq_of (u : Z) : Z := wrap 16 u.

(** The packets of [ps] have indices [start + d] for the offsets [ds]. *)
Definition offsets_of (start : Z) (ds : list Z) (ps : list BufferedPacket) : Prop :=
  Forall2 (fun d p => bp_sequence p = seq_of (start + d)) ds ps.

Inductive increasing : list Z -> Prop :=
| increasing_nil : increasing []
| increasing_cons x l : Forall (fun y => x < y) l -> increasing l -> increasing (x :: l).

(** The reference query: the packets whose offset from [start] is in range. *)
Definition in_request (start count : Z) (p : BufferedPacket) : Prop :=
  bp_sequence p -%u16 start < count.
#[export] Instance in_request_dec start count p : Decision (in_request start count p).
Proof. unfold in_request. apply _. Defined.

(** The indices strictly between two received packets. *)
Fixpoint gaps (u : Z) (us : list Z) : list Z :=
  match us with
  | [] => []
  | v :: us => seqZ (u + 1) (v - u - 1) ++ gaps v us
  end.

(** Consecutive received indices are at most 100 apart. *)
Fixpoint close_run (u : Z) (us : list Z) : Prop :=
  match us with
  | [] => True
  | v :: us => u < v <= u + 100 /\ close_run v us
  end.

(** ** Lemmas *)
Lemma seq_of_range u : uint 16 (seq_of u).
Proof. apply wrap_range. lia. Qed.

(** The wrapping difference of two sequence numbers is the difference of their
    indices modulo [2 ^ 16]. *)
Lemma seq_diff u v : seq_of u -%u16 seq_of v = (u - v) mod 65536.
Proof. unfold seq_of, wrapping_sub, wrap. by rewrite <- Zminus_mod. Qed.

Lemma seq_add u i : seq_of u +%u16 i = seq_of (u + i).
Proof. unfold seq_of, wrapping_add, wrap. by rewrite Zplus_mod_idemp_l. Qed.

Lemma seq_diff_small u v : 0 <= u - v < 65536 -> seq_of u -%u16 seq_of v = u - v.
Proof. intros. by rewrite seq_diff, Z.mod_small. Qed.

Lemma seq_diff_neg u v : -65536 <= u - v < 0 -> seq_of u -%u16 seq_of v = u - v + 65536.
Proof.
  intros. rewrite seq_diff. rewrite <- (Z.mod_add _ 1) by lia. apply Z.mod_small. lia.
Qed.

Lemma skip_requests_stop f start count i d : 0 <= i -> -32768 <= d - i <= 0 ->
  skip_requests f (seq_of start) count i (seq_of (start + d)) = i.
Proof.
  intros Hi Hd. destruct f as [|f]; [done|]. cbn [skip_requests]. rewrite seq_add.
  destruct (i <? count); [|done].
  destruct (Z.eq_dec d i) as [->|].
  - rewrite seq_diff_small by lia. by replace (start + i - (start + i)) with 0 by lia.
  - rewrite seq_diff_neg by lia.
    by rewrite (proj2 (Z.ltb_ge _ 0x8000)), andb_false_r by lia.
Qed.

Lemma skip_requests_advance f : forall start count i d,
  0 <= i <= d -> d < 32768 -> count - i <= Z.of_nat f ->
  skip_requests f (seq_of start) count i (seq_of (start + d)) =
  if i <=? count then Z.min d count else i.
Proof.
  induction f as [|f IH]; intros start count i d Hi Hd Hf; cbn [skip_requests].
  { destruct (Z.leb_spec i count); lia. }
  destruct (Z.ltb_spec i count); [|destruct (Z.leb_spec i count); lia].
  rewrite seq_add, seq_diff_small by lia.
  rewrite (proj2 (Z.leb_le i count)) by lia.
  destruct (Z.ltb_spec 0 (start + d - (start + i))); simpl; [|lia].
  rewrite (proj2 (Z.ltb_lt _ _)) by lia. rewrite IH by lia.
  rewrite (proj2 (Z.leb_le _ _)) by lia. done.
Qed.

Lemma seq_of_eq start d i : -32768 <= d - i < 32768 ->
  seq_of (start + d) = seq_of start +%u16 i -> d = i.
Proof.
  rewrite seq_add. unfold seq_of, wrap. intros H He. zmod.
Qed.

(** The request test on offsets. *)
Lemma in_request_offset start count d p :
  bp_sequence p = seq_of (start + d) -> -32768 + count <= d < 32768 -> 0 <= count < 32768 ->
  in_request (seq_of start) count p <-> 0 <= d < count.
Proof.
  intros Hp Hd Hc. unfold in_request. rewrite Hp.
  destruct (Z.le_gt_cases 0 d).
  - rewrite seq_diff_small by lia. lia.
  - rewrite seq_diff_neg by lia. lia.
Qed.

Lemma get_range_from_spec start count : forall ds ps i,
  offsets_of start ds ps -> increasing ds ->
  Forall (fun d => -32768 + count <= d < 32768) ds -> 0 <= count < 32768 ->
  0 <= i <= count -> Forall (fun d => d < i -> d < 0) ds ->
  get_range_from (seq_of start) count i ps = filter (in_request (seq_of start) count) ps.
Proof.
  intros ds ps i Hps. revert i. induction Hps as [|d p ds ps Hp _ IH];
    intros i Hinc Hr Hc Hi Hlow; [done|].
  inversion Hinc as [|? ? Hlt Hinc']; subst.
  apply Forall_cons in Hr as [Hd Hr]. apply Forall_cons in Hlow as [Hl Hlow].
  pose proof (in_request_offset _ _ _ _ Hp Hd Hc) as Hreq.
  cbn [get_range_from]. rewrite Hp.
  destruct (Z.le_gt_cases i d) as [Hge|Hneg].
  - rewrite skip_requests_advance by lia. rewrite (proj2 (Z.leb_le _ _)) by lia.
    destruct (Z.ltb_spec (Z.min d count) count) as [Hm|Hm].
    + rewrite Z.min_l in * by lia. rewrite seq_add, Z.eqb_refl. simpl.
      rewrite filter_cons_True by (apply Hreq; lia). f_equal.
      apply IH; [done..|lia|]. eapply Forall_impl; [exact Hlt|]. simpl. lia.
    + simpl. rewrite filter_cons_False by (rewrite Hreq; lia).
      apply IH; [done..|lia|]. eapply Forall_impl; [exact Hlt|]. simpl. lia.
  - rewrite skip_requests_stop by lia.
    rewrite filter_cons_False by (rewrite Hreq; lia).
    destruct (Z.eqb_spec (seq_of (start + d)) (seq_of start +%u16 i)) as [He|].
    + apply seq_of_eq in He; lia.
    + rewrite andb_false_r. by apply IH.
Qed.

Lemma length_push self p : (0 < max_size self)%nat -> (len self <= max_size self)%nat ->
  (len (push self p) <= max_size (push self p))%nat.
Proof.
  unfold len, push. cbn [packets max_size]. intros.
  rewrite length_app. destruct (Nat.leb_spec (max_size self) (length (packets self)));
    rewrite ?length_drop; simpl; lia.
Qed.

Lemma push_window m (ps : list BufferedPacket) : (0 < m)%nat ->
  foldl push (PacketBuffer_new m) ps = {| max_size := m; packets := drop (length ps - m) ps |}.
Proof.
  intros Hm. induction ps as [|p ps IH] using rev_ind; [done|].
  rewrite foldl_app. cbn [foldl]. rewrite IH. unfold push. cbn [max_size packets].
  f_equal. rewrite length_app, length_drop. cbn [length].
  destruct (Nat.leb_spec m (length ps - (length ps - m))).
  - rewrite drop_drop, drop_app_le by lia. do 2 f_equal. lia.
  - replace (length ps - m)%nat with 0%nat by lia.
    replace (length ps + 1 - m)%nat with 0%nat by lia. done.
Qed.

Lemma missing_from_seqZ u n : missing_from (seq_of u) n = map seq_of (seqZ u n).
Proof.
  unfold missing_from. replace (seqZ u n) with (seqZ (u + 0) n) by (f_equal; lia).
  rewrite <- fmap_add_seqZ.
  change (fmap (Z.add u)) with (map (Z.add u)). rewrite map_map. apply map_ext.
  intros i. apply seq_add.
Qed.

Lemma process_all_gaps us : forall u, close_run u us ->
  process_all {| expected_seq := seq_of (u + 1); first_received := true |} (map seq_of us) =
  (map seq_of (gaps u us),
   {| expected_seq := seq_of (default u (last us) + 1); first_received := true |}).
Proof.
  induction us as [|v us IH]; intros u Hrun; [done|]. destruct Hrun as [Hv Hrun].
  cbn [map process_all]. unfold process. cbn [first_received negb expected_seq].
  rewrite seq_diff_small, (proj2 (Z.leb_gt _ _)), seq_add by lia.
  rewrite IH by done. cbn [gaps]. rewrite map_app, <- missing_from_seqZ.
  f_equal; [f_equal|].
  - replace (v - (u + 1)) with (v - u - 1) by lia.
    destruct (Z.ltb_spec 0 (v - u - 1)); cbn [andb].
    + by rewrite (proj2 (Z.ltb_lt _ _)) by lia.
    + unfold missing_from. by rewrite seqZ_nil by lia.
  - destruct us as [|w us]; [done|]. rewrite last_cons_cons.
    destruct (last (w :: us)) eqn:El; [done|]. by apply last_None in El.
Qed.

(** ** Properties *)

(** Pushing any sequence of packets into a buffer of positive capacity
    leaves exactly the most recent ones, at most [m] of them, in order: the
    circular buffer is a sliding window. *)
Theorem push_keeps_window (m : nat) (ps : list BufferedPacket) (Hm : (0 < m)%nat) :
  packets (foldl push (PacketBuffer_new m) ps) = drop (length ps - m) ps /\
  len (foldl push (PacketBuffer_new m) ps) = Nat.min m (length ps).
Proof.
  unfold len. rewrite push_window by done. cbn [packets]. split; [done|].
  rewrite length_drop. lia.
Qed.

Lemma push_keeps_window_witness :
  let p s := {| bp_sequence := s; bp_timestamp := 0; bp_data := [] |} in
  packets (foldl push (PacketBuffer_new 2) [p 65534; p 65535; p 0]) = [p 65535; p 0].
Proof.
  intros p. rewrite (proj1 (push_keeps_window 2 [p 65534; p 65535; p 0] ltac:(lia))). reflexivity.
Defined.

(** The single-pass range query is the reference query. For packets whose
    indices increase, with gaps allowed, and a request that lies with them in
    half of the sequence space, [get_range] returns exactly the buffered
    packets whose sequence number is one of the requested ones, across the
    16-bit wrap-around. *)
Theorem get_range_is_filter (self : PacketBuffer) (start count : Z) (ds : list Z)
  (Hps : offsets_of start ds (packets self)) (Hinc : increasing ds)
  (Hr : Forall (fun d => -32768 + count <= d < 32768) ds) (Hc : 0 <= count < 32768) :
  get_range self (seq_of start) count = filter (in_request (seq_of start) count) (packets self).
Proof.
  unfold get_range. eapply get_range_from_spec; [done..|lia|].
  apply Forall_true. lia.
Qed.

Lemma get_range_is_filter_witness :
  let p s := {| bp_sequence := s; bp_timestamp := 0; bp_data := [] |} in
  let self := {| max_size := 8; packets := [p 65533; p 65535; p 0; p 2; p 3] |} in
  get_range self 65534 4 = filter (in_request 65534 4) (packets self) /\
  get_range self 65534 4 = [p 65535; p 0].
Proof.
  intros p self. split; [|vm_compute; reflexivity].
  refine (get_range_is_filter self 65534 4 [-1; 1; 2; 4; 5] _ _ _ _).
  - repeat constructor.
  - repeat constructor; lia.
  - repeat constructor; lia.
  - lia.
Defined.

(** On a run of packets whose indices increase by at most 100, the loss
    detector reports exactly the indices that were skipped, each once and in
    order, whatever the position of the 16-bit wrap-around. *)
Theorem loss_detector_exact (u : Z) (us : list Z) (H : close_run u us) :
  fst (process_all PacketLossDetector_new (map seq_of (u :: us))) = map seq_of (gaps u us).
Proof.
  cbn [map process_all]. unfold process at 1. cbn [PacketLossDetector_new first_received negb].
  rewrite seq_add, process_all_gaps by done. done.
Qed.

Lemma loss_detector_exact_witness :
  fst (process_all PacketLossDetector_new [65533; 65535; 2]) = [65534; 0; 1].
Proof.
  change [65533; 65535; 2] with (map seq_of [65533; 65535; 65538]).
  rewrite (loss_detector_exact 65533 [65535; 65538]).
  - reflexivity.
  - simpl. lia.
Defined.

End PacketBuffer.
