(* ===== verification/SequenceTracker.v ===== *)
(** * Receiver-side sequence tracking

    Models [src/receiver/sequence_tracker.rs]: gap detection with its bounded
    history and statistics.  [Instant::now()] is an argument; the [u64]
    counters are unbounded (2^64 packets are not received), and the [f64] loss
    ratio is left out: its operands are the two counters modelled here. *)

From S2P Require Import Bytes PacketBuffer.
Import PacketBuffer(seq_of, seq_diff_small, seq_diff_neg, seq_diff, seq_add, gaps).

Module SequenceTracker.

Record GapInfo := { gap_start : Z; gap_count : Z; detected_at : Z }.

Record SequenceTracker := {
  last_seq : option Z;
  expected_seq : option Z;
  recent_gaps : list GapInfo;
  max_history : nat;
  packets_received : Z;
  total_gaps : Z;
  total_lost : Z
}.

Definition SequenceTracker_new : SequenceTracker := {|
  last_seq := None; expected_seq := None; recent_gaps := []; max_history := 100;
  packets_received := 0; total_gaps := 0; total_lost := 0
|}.

Definition sequence_gap (expected actual : Z) : Z := actual -%u16 expected.

Definition push_gap (self : SequenceTracker) (g : GapInfo) : list GapInfo :=
  (if (max_history self <=? length (recent_gaps self))%nat
   then drop 1 (recent_gaps self) else recent_gaps self) ++ [g].

Definition record (self : SequenceTracker) (seq now : Z) : option GapInfo * SequenceTracker :=
  let received := packets_received self + 1 in
  let finish gap gaps tg tl :=
    (gap, {| last_seq := Some seq; expected_seq := Some (seq +%u16 1); recent_gaps := gaps;
             max_history := max_history self; packets_received := received;
             total_gaps := tg; total_lost := tl |}) in
  match expected_seq self with
  | Some expected =>
      let gap_size := sequence_gap expected seq in
      if (0 <? gap_size) && (gap_size <? 1000) then
        let info := {| gap_start := expected; gap_count := gap_size; detected_at := now |} in
        finish (Some info) (push_gap self info) (total_gaps self + 1) (total_lost self + gap_size)
      else finish None (recent_gaps self) (total_gaps self) (total_lost self)
  | None => finish None (recent_gaps self) (total_gaps self) (total_lost self)
  end.

Definition is_expected (self : SequenceTracker) (seq : Z) : bool :=
  match expected_seq self with
  | Some expected =>
      let diff := seq -%u16 expected in
      negb ((1000 <=? diff) && (diff <=? 65000))
  | None => true
  end.

Definition reset (self : SequenceTracker) : SequenceTracker := {|
  last_seq := None; expected_seq := None; recent_gaps := []; max_history := max_history self;
  packets_received := 0; total_gaps := 0; total_lost := 0
|}.

Definition record_all (self : SequenceTracker) (seqs : list Z) (now : Z) : SequenceTracker :=
  foldl (fun t s => snd (record t s now)) self seqs.

(** ** Specification: runs of packet indices *)

(** Consecutive received indices are at most 1000 apart. *)
Fixpoint near_run (u : Z) (us : list Z) : Prop :=
  match us with
  | [] => True
  | v :: us => u < v <= u + 1000 /\ near_run v us
  end.

(** The invariant: bounded history, counters that agree with it. *)
Definition tracker_ok (t : SequenceTracker) : Prop :=
  (length (recent_gaps t) <= max_history t)%nat /\
  Forall (fun g => 0 < gap_count g < 1000 /\ uint 16 (gap_start g)) (recent_gaps t) /\
  0 <= total_gaps t <= total_lost t /\ Z.of_nat (length (recent_gaps t)) <= total_gaps t /\
  total_gaps t <= packets_received t /\ (0 < max_history t)%nat /\
  (forall e, expected_seq t = Some e -> uint 16 e).

(** ** Lemmas *)
Lemma length_push_gap t g : (0 < max_history t)%nat ->
  (length (recent_gaps t) <= max_history t)%nat ->
  (length (push_gap t g) <= max_history t)%nat /\
  (length (push_gap t g) <= S (length (recent_gaps t)))%nat.
Proof.
  intros. unfold push_gap. rewrite length_app.
  destruct (Nat.leb_spec (max_history t) (length (recent_gaps t)));
    rewrite ?length_drop; simpl; lia.
Qed.

Lemma push_gap_Forall (P : GapInfo -> Prop) t g :
  Forall P (recent_gaps t) -> P g -> Forall P (push_gap t g).
Proof.
  intros. unfold push_gap. apply Forall_app. split; [|by repeat constructor].
  case_match; [by apply Forall_drop | done].
Qed.

(** Recording the packet with index [v] when [e] is the next expected index. *)
Lemma record_ahead t e v now : expected_seq t = Some (seq_of e) -> 0 <= v - e < 1000 ->
  let t' := snd (record t (seq_of v) now) in
  expected_seq t' = Some (seq_of (v + 1)) /\ total_lost t' = total_lost t + (v - e) /\
  packets_received t' = packets_received t + 1 /\
  fst (record t (seq_of v) now) =
    (if v =? e then None
     else Some {| gap_start := seq_of e; gap_count := v - e; detected_at := now |}).
Proof.
  intros He Hv. unfold record. rewrite He. unfold sequence_gap.
  rewrite seq_diff_small, seq_add by lia.
  destruct (Z.ltb_spec 0 (v - e)); cbn [andb].
  - rewrite (proj2 (Z.ltb_lt _ 1000)) by lia. simpl. rewrite (proj2 (Z.eqb_neq _ _)) by lia. done.
  - simpl. rewrite (proj2 (Z.eqb_eq _ _)) by lia. split_and!; try done. lia.
Qed.

(** A late packet moves the expectation back to its own successor. *)
Lemma record_late t e v now : expected_seq t = Some (seq_of e) -> -32768 <= v - e < 0 ->
  let t' := snd (record t (seq_of v) now) in
  expected_seq t' = Some (seq_of (v + 1)) /\ total_lost t' = total_lost t /\
  fst (record t (seq_of v) now) = None.
Proof.
  intros He Hv. unfold record. rewrite He. unfold sequence_gap.
  rewrite seq_diff_neg, seq_add by lia.
  rewrite (proj2 (Z.ltb_ge _ 1000)), andb_false_r by lia. done.
Qed.

Lemma record_all_near us : forall t u now, expected_seq t = Some (seq_of (u + 1)) -> near_run u us ->
  total_lost (record_all t (map seq_of us) now) =
    total_lost t + (default u (last us) - u) - Z.of_nat (length us).
Proof.
  induction us as [|v us IH]; intros t u now He Hrun; [simpl; lia|]. destruct Hrun as [Hv Hrun].
  destruct (record_ahead t (u + 1) v now He) as (He' & Hl & _); [lia|].
  unfold record_all in *. cbn [map foldl]. rewrite (IH _ v now He' Hrun), Hl.
  destruct us as [|w us]; [simpl; lia|]. rewrite last_cons_cons.
  destruct (last (w :: us)) eqn:El; [|by apply last_None in El].
  cbn [length default]. cbn [from_option]. lia.
Qed.

Lemma record_ok t seq now : tracker_ok t -> uint 16 seq -> tracker_ok (snd (record t seq now)).
Proof.
  intros (Hlen & Hall & Hg & Hh & Hp & Hm & He) Hs. unfold record.
  assert (forall e, Some (seq +%u16 1) = Some e -> uint 16 e) as Hnext.
  { intros e [= <-]. apply wrapping_add_range. lia. }
  destruct (expected_seq t) as [e|] eqn:Ee; [|unfold tracker_ok; cbn; split_and!; try done; lia].
  destruct ((0 <? sequence_gap e seq) && (sequence_gap e seq <? 1000)) eqn:Hgap.
  2:{ unfold tracker_ok; cbn; split_and!; try done; lia. }
  bool_to_prop. set (g := {| gap_start := e; gap_count := _; detected_at := now |}).
  destruct (length_push_gap t g Hm Hlen).
  unfold tracker_ok. cbn [snd recent_gaps max_history total_gaps total_lost packets_received expected_seq].
  split_and!; try done; try lia.
  apply push_gap_Forall; [done|]. simpl. split; [lia|]. by apply He.
Qed.

Lemma record_all_ok seqs : forall t now, tracker_ok t -> Forall (uint 16) seqs ->
  tracker_ok (record_all t seqs now).
Proof.
  induction seqs as [|s seqs IH]; intros t now Ht Hs; [done|]. apply Forall_cons in Hs as [? ?].
  unfold record_all in *. simpl. apply IH; [|done]. by apply record_ok.
Qed.

(** ** Properties *)

(** The tracker's invariant. After any sequence of received numbers the
    gap history is within its bound, every recorded gap has between 1 and 999
    packets, and the counters are consistent: no more gaps than packets, no
    fewer losses than gaps. *)
Theorem tracker_invariant (seqs : list Z) (now : Z) (H : Forall (uint 16) seqs) :
  tracker_ok (record_all SequenceTracker_new seqs now).
Proof.
  apply record_all_ok; [|done]. unfold tracker_ok; cbn; split_and!; try done; lia.
Qed.

(** On an in-order run whose indices increase by at most 1000, the lost
    counter is exactly the number of indices that were skipped. *)
Theorem in_order_loss_exact (u : Z) (us : list Z) (now : Z) (H : near_run u us) :
  total_lost (record_all SequenceTracker_new (map seq_of (u :: us)) now) =
  (default u (last us) - u) - Z.of_nat (length us).
Proof.
  unfold record_all. cbn [map foldl].
  set (t := snd (record SequenceTracker_new (seq_of u) now)).
  assert (expected_seq t = Some (seq_of (u + 1))) as He by (simpl; by rewrite seq_add).
  pose proof (record_all_near us t u now He H) as Hl. unfold record_all in Hl. rewrite Hl.
  subst t. simpl. lia.
Qed.

Lemma in_order_loss_exact_witness :
  total_lost (record_all SequenceTracker_new [65534; 65535; 3; 4] 0) = 3.
Proof.
  change [65534; 65535; 3; 4] with (map seq_of [65534; 65535; 65539; 65540]).
  rewrite (in_order_loss_exact 65534 [65535; 65539; 65540]); [reflexivity | simpl; lia].
Defined.

(** A reordered packet makes the tracker count losses that did not happen.
    When the packet [k] places behind the expected index [e] arrives late
    ([2 <= k <= 1000]), and then the expected packet itself, a gap of [k - 1]
    packets is reported and added to the lost counter although every packet up
    to [e] has been received. *)
Theorem late_packet_counts_false_loss (t : SequenceTracker) (e k now : Z)
  (He : expected_seq t = Some (seq_of e)) (Hk : 2 <= k <= 1000) :
  let t1 := snd (record t (seq_of (e - k)) now) in
  fst (record t1 (seq_of e) now) =
    Some {| gap_start := seq_of (e - k + 1); gap_count := k - 1; detected_at := now |} /\
  total_lost (snd (record t1 (seq_of e) now)) = total_lost t + (k - 1).
Proof.
  intros t1. destruct (record_late t e (e - k) now He) as (He1 & Hl1 & _); [lia|].
  fold t1 in He1, Hl1. destruct (record_ahead t1 (e - k + 1) e now He1) as (_ & Hl & _ & Hf); [lia|].
  rewrite Hf, Hl, Hl1, (proj2 (Z.eqb_neq _ _)) by lia.
  replace (e - (e - k + 1)) with (k - 1) by lia. done.
Qed.

Lemma late_packet_counts_false_loss_witness :
  let t := record_all SequenceTracker_new [10; 12; 13] 0 in
  total_lost (record_all t [11; 14] 0) = total_lost t + 2.
Proof.
  intros t. refine (proj2 (late_packet_counts_false_loss t 14 3 0 _ _)).
  - vm_compute. reflexivity.
  - lia.
Defined.

End SequenceTracker.
