(* ===== verification/AesCtr.v ===== *)
(** * AES-128-CTR with buffered keystream, parallel blocks and seeking

    Models [Aes128Ctr] of [src/protocol/crypto/aes.rs]: the counter block, the
    keystream buffer carried between calls, the eight-block fast path, the tail
    loop and [seek].  The AES block function of the [aes] crate is a parameter;
    the only fact used about it is that it maps a 16-byte block to a 16-byte
    block.  The specification is the textbook keystream: byte [p] of it is byte
    [p mod 16] of the encryption of the counter block number [p / 16]. *)

From S2P Require Import Text.

(** The block cipher of the [aes] crate: a function of the key and the block. *)
Class BlockCipher := aes_block : list Z -> list Z -> list Z.
Class BlockCipherLaws (C : BlockCipher) :=
  aes_block_length : forall key b, length b = 16%nat -> length (aes_block key b) = 16%nat.

Module AesCtr.

(** [CryptoError]; the text of the failures reported by the external crates is
    not modelled, the texts written in this crate are. *)
Inductive CryptoError :=
| InvalidKeyLength (expected actual : Z)
| InvalidSignature
| VerificationFailed
| DecryptionFailed
| EncryptionFailed
| KeyDerivationFailed
| SrpError (msg : string)
| InvalidPublicKey
| RngError.

Section WithCipher.
Context {C : BlockCipher}.

Record Aes128Ctr := {
  key : list Z;
  base_counter_block : list Z;
  counter_block : list Z;
  keystream_buffer : list Z;
  keystream_pos : nat
}.

(** [data[i] ^= ks[i]] for the common prefix. *)
Definition xor_bytes (data ks : list Z) : list Z := zip_with Z.lxor data ks.

Definition Aes128Ctr_new_internal (k iv : list Z) : Aes128Ctr := {|
  key := k; base_counter_block := iv; counter_block := iv;
  keystream_buffer := replicate 16 0; keystream_pos := 16
|}.

Definition Aes128Ctr_new (k iv : list Z) : outcome CryptoError Aes128Ctr :=
  if negb (length k =? 16)%nat then Err (InvalidKeyLength 16 (Z.of_nat (length k)))
  else if negb (length iv =? 16)%nat then Err (InvalidKeyLength 16 (Z.of_nat (length iv)))
  else Ok (Aes128Ctr_new_internal k iv).

(** The last eight bytes are a big-endian counter that wraps. *)
Definition increment_block (cb : list Z) : list Z :=
  take 8 cb ++ to_be 8 (from_be (drop 8 cb) +%u64 1).

(** [for block in &mut blocks { block = counter_block; increment_counter() }]. *)
Fixpoint fill_blocks (n : nat) (cb : list Z) : list (list Z) * list Z :=
  match n with
  | O => ([], cb)
  | S n => let '(bs, cb') := fill_blocks n (increment_block cb) in (cb :: bs, cb')
  end.

(** [for (i, block) in blocks.iter().enumerate()]: XOR block [i] into the
    [i]-th 16 bytes. *)
Fixpoint xor_blocks (data : list Z) (blocks : list (list Z)) : list Z :=
  match blocks with
  | [] => data
  | b :: bs => xor_bytes (take 16 data) b ++ xor_blocks (drop 16 data) bs
  end.

Definition PAR_BLOCKS : nat := 8.
Definition CHUNK_SIZE : nat := 128.

(** Step 2: [while data.len() >= CHUNK_SIZE].  The fuel bounds the number of
    128-byte chunks; it returns the processed bytes, the rest and the counter. *)
Fixpoint par_loop (fuel : nat) (k cb data : list Z) : list Z * list Z * list Z :=
  match fuel with
  | O => ([], data, cb)
  | S f =>
      if (CHUNK_SIZE <=? length data)%nat then
        let '(blocks, cb') := fill_blocks PAR_BLOCKS cb in
        let out := xor_blocks (take CHUNK_SIZE data) (map (aes_block k) blocks) in
        let '(done, rest, cb'') := par_loop f k cb' (drop CHUNK_SIZE data) in
        (out ++ done, rest, cb'')
      else ([], data, cb)
  end.

(** Step 3: [while !data.is_empty()], one block at a time; the last block stays
    in the buffer. *)
Fixpoint tail_loop (fuel : nat) (st : Aes128Ctr) (data : list Z) : list Z * Aes128Ctr :=
  match fuel, data with
  | S f, _ :: _ =>
      let buf := aes_block (key st) (counter_block st) in
      let count := Nat.min (length data) 16 in
      let st' := {| key := key st; base_counter_block := base_counter_block st;
                    counter_block := increment_block (counter_block st);
                    keystream_buffer := buf; keystream_pos := count |} in
      let '(rest, st'') := tail_loop f st' (drop count data) in
      (xor_bytes (take count data) buf ++ rest, st'')
  | _, _ => ([], st)
  end.

Definition apply_keystream (st : Aes128Ctr) (data : list Z) : list Z * Aes128Ctr :=
  (* 1. what is left in the buffer *)
  let count := if (keystream_pos st <? 16)%nat
               then Nat.min (length data) (16 - keystream_pos st) else 0%nat in
  let out1 := xor_bytes (take count data) (drop (keystream_pos st) (keystream_buffer st)) in
  let data1 := drop count data in
  (* 2. eight blocks at a time *)
  let '(out2, data2, cb) := par_loop (length data1) (key st) (counter_block st) data1 in
  (* 3. the tail *)
  let '(out3, st') := tail_loop (length data2)
    {| key := key st; base_counter_block := base_counter_block st; counter_block := cb;
       keystream_buffer := keystream_buffer st; keystream_pos := keystream_pos st + count |} data2 in
  (out1 ++ out2 ++ out3, st').

Definition process (st : Aes128Ctr) (data : list Z) : list Z * Aes128Ctr := apply_keystream st data.

Definition seek (st : Aes128Ctr) (position : Z) : Aes128Ctr :=
  let block_offset := position / 16 in
  let byte_offset := position mod 16 in
  let ctr := from_be (drop 8 (base_counter_block st)) +%u64 block_offset in
  let cb := take 8 (base_counter_block st) ++ to_be 8 ctr in
  if 0 <? byte_offset then
    {| key := key st; base_counter_block := base_counter_block st;
       counter_block := increment_block cb; keystream_buffer := aes_block (key st) cb;
       keystream_pos := Z.to_nat byte_offset |}
  else
    {| key := key st; base_counter_block := base_counter_block st;
       counter_block := cb; keystream_buffer := keystream_buffer st; keystream_pos := 16 |}.

(** ** Reference keystream *)
Definition ctr_block (iv : list Z) (j : Z) : list Z :=
  take 8 iv ++ to_be 8 (from_be (drop 8 iv) + j).
Definition ks_byte (k iv : list Z) (p : nat) : Z :=
  nth (p mod 16) (aes_block k (ctr_block iv (Z.of_nat (p / 16)))) 0.
Definition keystream (k iv : list Z) (p n : nat) : list Z := map (ks_byte k iv) (seq p n).

(** The state [st] stands at byte [p] of the keystream. *)
Definition at_pos (st : Aes128Ctr) (p : nat) : Prop :=
  exists q : nat, counter_block st = ctr_block (base_counter_block st) (Z.of_nat q) /\
    ((keystream_pos st = 16%nat /\ p = (16 * q)%nat) \/
     (exists r, q = S r /\ (keystream_pos st < 16)%nat /\ p = (16 * r + keystream_pos st)%nat /\
        keystream_buffer st = aes_block (key st) (ctr_block (base_counter_block st) (Z.of_nat r)))).

Definition state_ok (st : Aes128Ctr) : Prop := length (base_counter_block st) = 16%nat.

(** ** Lemmas *)
Context {CL : BlockCipherLaws C}.

Lemma to_be8_wrap z : to_be 8 (wrap 64 z) = to_be 8 z.
Proof.
  unfold wrap. change (2 ^ 64) with (256 ^ Z.of_nat 8).
  rewrite <- (to_be_add_high 8 8 (z / 256 ^ Z.of_nat 8)) by lia.
  f_equal. rewrite (Z.mul_comm (z / _)). symmetry. apply Z.div_mod. simpl. lia.
Qed.

Lemma length_ctr_block iv j : length iv = 16%nat -> length (ctr_block iv j) = 16%nat.
Proof. intros. unfold ctr_block. rewrite length_app, length_take, length_to_be. lia. Qed.

Lemma increment_ctr_block iv j : length iv = 16%nat ->
  increment_block (ctr_block iv j) = ctr_block iv (j + 1).
Proof.
  intros Hl. unfold increment_block, ctr_block.
  assert (length (take 8 iv) = 8%nat) as H8 by (rewrite length_take; lia).
  rewrite take_app_length' by done. rewrite drop_app_length' by done.
  f_equal. unfold wrapping_add. rewrite to_be8_wrap, from_be_to_be.
  rewrite <- (to_be8_wrap (_ mod _ + 1)). unfold wrap. change (2 ^ 64) with (256 ^ Z.of_nat 8).
  rewrite Zplus_mod_idemp_l. change (256 ^ Z.of_nat 8) with (2 ^ 64).
  change (_ mod 2 ^ 64) with (wrap 64 (from_be (drop 8 iv) + j + 1)). rewrite to_be8_wrap.
  f_equal. lia.
Qed.

Lemma length_keystream k iv p n : length (keystream k iv p n) = n.
Proof. unfold keystream. by rewrite length_map, length_seq. Qed.

Lemma keystream_app k iv p n m :
  keystream k iv p (n + m) = keystream k iv p n ++ keystream k iv (p + n) m.
Proof. unfold keystream. by rewrite seq_app, map_app. Qed.

(** One encrypted counter block is sixteen bytes of keystream. *)
Lemma block_keystream k iv q : length iv = 16%nat ->
  aes_block k (ctr_block iv (Z.of_nat q)) = keystream k iv (16 * q) 16.
Proof.
  intros Hl. set (b := aes_block k _).
  assert (length b = 16%nat) as Hb by (by apply aes_block_length, length_ctr_block).
  apply list_eq. intros i. destruct (decide (i < 16)%nat) as [Hi|Hi].
  - unfold keystream. rewrite list_lookup_fmap, lookup_seq_lt by done. cbn [fmap option_fmap option_map].
    unfold ks_byte. replace (16 * q + i)%nat with (i + q * 16)%nat by lia.
    rewrite Nat.Div0.mod_add, Nat.div_add, (Nat.mod_small i), (Nat.div_small i) by lia.
    cbn [Nat.add]. fold b. destruct (nth_lookup_or_length b i 0); [done | lia].
  - rewrite !lookup_ge_None_2; [done| |]; rewrite ?length_keystream; lia.
Qed.

Lemma xor_app d1 d2 k1 k2 : length d1 = length k1 ->
  xor_bytes (d1 ++ d2) (k1 ++ k2) = xor_bytes d1 k1 ++ xor_bytes d2 k2.
Proof. apply zip_with_app. Qed.

(** A longer keystream does not matter. *)
Lemma xor_prefix d k iv p n : (length d <= n)%nat ->
  xor_bytes d (keystream k iv p n) = xor_bytes d (keystream k iv p (length d)).
Proof.
  intros. replace n with (length d + (n - length d))%nat by lia. rewrite keystream_app.
  rewrite <- (app_nil_r d) at 1. rewrite xor_app by (by rewrite length_keystream).
  unfold xor_bytes. cbn [zip_with]. by rewrite app_nil_r.
Qed.

Lemma xor_split k iv data p n : (n <= length data)%nat ->
  xor_bytes data (keystream k iv p (length data)) =
  xor_bytes (take n data) (keystream k iv p n) ++
  xor_bytes (drop n data) (keystream k iv (p + n) (length (drop n data))).
Proof.
  intros. replace (length data) with (n + length (drop n data))%nat by (rewrite length_drop; lia).
  rewrite keystream_app, <- xor_app by (rewrite length_keystream, length_take; lia).
  by rewrite take_drop.
Qed.

Lemma fill_blocks_ctr iv n : length iv = 16%nat -> forall q,
  fill_blocks n (ctr_block iv (Z.of_nat q)) =
  (map (fun i => ctr_block iv (Z.of_nat i)) (seq q n), ctr_block iv (Z.of_nat (q + n))).
Proof.
  intros Hl. induction n as [|n IH]; intros q; cbn [fill_blocks].
  - by rewrite Nat.add_0_r.
  - rewrite increment_ctr_block by done.
    replace (Z.of_nat q + 1) with (Z.of_nat (S q)) by lia. rewrite IH.
    cbn [seq map]. by rewrite Nat.add_succ_r.
Qed.

Lemma xor_blocks_keystream k iv n : length iv = 16%nat -> forall q data,
  length data = (16 * n)%nat ->
  xor_blocks data (map (aes_block k) (map (fun i => ctr_block iv (Z.of_nat i)) (seq q n))) =
  xor_bytes data (keystream k iv (16 * q) (length data)).
Proof.
  intros Hl. induction n as [|n IH]; intros q data Hd.
  - by apply nil_length_inv in Hd as ->.
  - cbn [seq map xor_blocks]. rewrite block_keystream by done.
    rewrite IH by (rewrite length_drop; lia).
    rewrite (xor_split k iv data (16 * q) 16) by lia.
    by replace (16 * q + 16)%nat with (16 * S q)%nat by lia.
Qed.

Lemma par_loop_spec k iv f : length iv = 16%nat -> forall q data,
  exists n, (128 * n <= length data)%nat /\
    par_loop f k (ctr_block iv (Z.of_nat q)) data =
    (xor_bytes (take (128 * n) data) (keystream k iv (16 * q) (128 * n)),
     drop (128 * n) data, ctr_block iv (Z.of_nat (q + 8 * n))).
Proof.
  intros Hl. induction f as [|f IH]; intros q data.
  { exists 0%nat. rewrite !Nat.mul_0_r, Nat.add_0_r. split; [lia|]. done. }
  cbn [par_loop]. unfold CHUNK_SIZE, PAR_BLOCKS.
  destruct (Nat.leb_spec 128 (length data)) as [Hlen|Hlen].
  2:{ exists 0%nat. rewrite !Nat.mul_0_r, Nat.add_0_r. split; [lia|]. done. }
  rewrite fill_blocks_ctr by done.
  assert (length (take 128 data) = (16 * 8)%nat) as H128 by (rewrite length_take; lia).
  rewrite xor_blocks_keystream, H128 by done.
  destruct (IH (q + 8)%nat (drop 128 data)) as (n & Hn & ->).
  rewrite length_drop in Hn. exists (S n). split; [lia|].
  f_equal; [f_equal|].
  - rewrite <- xor_app by (by rewrite length_keystream, H128).
    replace (16 * (q + 8))%nat with (16 * q + 128)%nat by lia.
    rewrite <- keystream_app. f_equal; [|f_equal; lia].
    replace (128 * S n)%nat with (128 + 128 * n)%nat by lia.
    rewrite <- (take_drop 128 data) at 3. rewrite take_app_add' by (by rewrite H128). done.
  - rewrite drop_drop. f_equal. lia.
  - do 2 f_equal. lia.
Qed.

Lemma tail_loop_spec f : forall st q data,
  state_ok st -> counter_block st = ctr_block (base_counter_block st) (Z.of_nat q) ->
  (length data <= f)%nat ->
  let '(out, st') := tail_loop f st data in
  out = xor_bytes data (keystream (key st) (base_counter_block st) (16 * q) (length data)) /\
  key st' = key st /\ base_counter_block st' = base_counter_block st /\
  (data = [] -> st' = st) /\ (data <> [] -> at_pos st' (16 * q + length data)).
Proof.
  induction f as [|f IH]; intros st q [|b data] Hok Hc Hf; cbn [tail_loop];
    try (by split_and!); [simpl in Hf; lia|].
  set (d := b :: data) in *. set (n := Nat.min (length d) 16).
  assert (1 <= n <= 16)%nat by (subst n d; simpl; lia).
  set (st1 := {| key := key st; base_counter_block := _; counter_block := _; keystream_buffer := _; keystream_pos := n |}).
  assert (counter_block st1 = ctr_block (base_counter_block st1) (Z.of_nat (S q))) as Hc1.
  { subst st1. simpl. rewrite Hc, increment_ctr_block by done. f_equal. lia. }
  specialize (IH st1 (S q) (drop n d) Hok Hc1). rewrite length_drop in IH.
  destruct (tail_loop f st1 (drop n d)) as [rest st'].
  destruct IH as (Hrest & Hk & Hb & Hnil & Hcons); [subst n d; simpl in *; lia|].
  rewrite Hc, block_keystream by done. split_and!; [|done|done|done|].
  - rewrite (xor_split _ _ d (16 * q) n) by lia. f_equal.
    + rewrite xor_prefix; rewrite length_take, Nat.min_l; lia || done.
    + rewrite Hrest. subst st1. cbn [key base_counter_block]. rewrite length_drop.
      destruct (Nat.le_gt_cases (length d) 16).
      * rewrite drop_ge by lia. done.
      * f_equal. f_equal. lia.
  - intros _. destruct (Nat.le_gt_cases (length d) 16) as [Hs|Hs].
    + rewrite drop_ge in Hnil by lia. rewrite Hnil by done.
      exists (S q). split; [done|]. subst st1. cbn [keystream_pos key base_counter_block keystream_buffer].
      destruct (decide (n = 16%nat)); [left; lia|]. right. exists q.
      split_and!; [done|lia|subst n; lia|]. by rewrite Hc.
    + replace (16 * q + length d)%nat with (16 * S q + (length d - n))%nat by lia.
      apply Hcons. intros Hd%(f_equal length). rewrite length_drop in Hd. change (length (@nil Z)) with 0%nat in Hd. lia.
Qed.

Lemma keystream_drop k iv p n m : (m <= n)%nat ->
  drop m (keystream k iv p n) = keystream k iv (p + m) (n - m).
Proof.
  intros. replace n with (m + (n - m))%nat at 1 by lia. rewrite keystream_app.
  by rewrite drop_app_length' by (by rewrite length_keystream).
Qed.

(** Steps 2 and 3 from a block boundary. *)
Lemma loops_spec st q data : state_ok st ->
  counter_block st = ctr_block (base_counter_block st) (Z.of_nat q) ->
  (data = [] \/ keystream_pos st = 16%nat) ->
  let '(out2, data2, cb) := par_loop (length data) (key st) (counter_block st) data in
  let '(out3, st') := tail_loop (length data2)
    {| key := key st; base_counter_block := base_counter_block st; counter_block := cb;
       keystream_buffer := keystream_buffer st; keystream_pos := keystream_pos st |} data2 in
  out2 ++ out3 = xor_bytes data (keystream (key st) (base_counter_block st) (16 * q) (length data)) /\
  key st' = key st /\ base_counter_block st' = base_counter_block st /\
  (data = [] -> st' = st) /\ (data <> [] -> at_pos st' (16 * q + length data)).
Proof.
  intros Hok Hc Hpos. rewrite Hc.
  destruct (par_loop_spec (key st) (base_counter_block st) (length data) Hok q data) as (n & Hn & ->).
  set (st1 := {| key := key st; base_counter_block := _; counter_block := ctr_block _ _;
    keystream_buffer := _; keystream_pos := _ |}).
  pose proof (tail_loop_spec (length (drop (128 * n) data)) st1 (q + 8 * n) (drop (128 * n) data)
    Hok eq_refl) as Ht.
  destruct (tail_loop _ st1 (drop (128 * n) data)) as [out3 st'].
  destruct Ht as (Hout & Hk & Hb & Hnil & Hcons); [done|]. split_and!; [|done|done| |].
  - rewrite Hout, (xor_split _ _ data (16 * q) (128 * n)) by lia. subst st1. cbn [key base_counter_block].
    by replace (16 * (q + 8 * n))%nat with (16 * q + 128 * n)%nat by lia.
  - intros ->. destruct n; [|simpl in Hn; lia]. rewrite Hnil by done.
    subst st1. rewrite Nat.add_0_r, <- Hc. by destruct st.
  - intros Hne. destruct Hpos as [|Hpos]; [done|].
    destruct (decide (drop (128 * n) data = [])) as [He|He].
    + rewrite Hnil by done. apply (f_equal length) in He. rewrite length_drop in He. simpl in He.
      exists (q + 8 * n)%nat. split; [done|]. left. subst st1. cbn [keystream_pos]. lia.
    + specialize (Hcons He). rewrite length_drop in Hcons.
      replace (16 * q + length data)%nat with (16 * (q + 8 * n) + (length data - 128 * n))%nat by lia. done.
Qed.

Lemma apply_keystream_spec st p data : state_ok st -> at_pos st p ->
  let '(out, st') := apply_keystream st data in
  out = xor_bytes data (keystream (key st) (base_counter_block st) p (length data)) /\
  key st' = key st /\ base_counter_block st' = base_counter_block st /\ at_pos st' (p + length data).
Proof.
  intros Hok (q & Hc & Hcase). unfold apply_keystream.
  set (n := if (keystream_pos st <? 16)%nat then _ else _).
  set (st1 := {| key := key st; base_counter_block := base_counter_block st;
    counter_block := counter_block st; keystream_buffer := keystream_buffer st;
    keystream_pos := keystream_pos st + n |}).
  assert (n <= length data /\ (drop n data = [] \/ keystream_pos st1 = 16%nat) /\
    xor_bytes (take n data) (drop (keystream_pos st) (keystream_buffer st)) =
      xor_bytes (take n data) (keystream (key st) (base_counter_block st) p n) /\
    (drop n data <> [] -> p + n = 16 * q) /\
    (drop n data = [] -> at_pos st1 (p + n)))%nat as (Hn & Hd & Hx & Hp & Hat).
  { destruct Hcase as [[Hpos ->] | (r & -> & Hpos & -> & Hbuf)]; subst n st1.
    - rewrite Hpos. cbn [Nat.ltb Nat.leb take keystream_pos]. split_and!; try done; try lia.
      intros _. exists q. split; [done|]. left. cbn. lia.
    - rewrite (proj2 (Nat.ltb_lt _ _)) by lia. cbn [keystream_pos].
      set (n := Nat.min (length data) (16 - keystream_pos st)).
      assert (drop n data = [] \/ n = 16 - keystream_pos st)%nat as Hn'.
      { destruct (Nat.le_gt_cases (length data) (16 - keystream_pos st)); [left; apply drop_ge|right]; lia. }
      split_and!; [lia|destruct Hn'; [by left | right; lia]| | |].
      + rewrite Hbuf, block_keystream, keystream_drop by (done || lia).
        rewrite xor_prefix; rewrite length_take, Nat.min_l; lia || done.
      + intros Hne. destruct Hn' as [|Hn']; [done|]. lia.
      + intros _. exists (S r). split; [done|]. cbn [keystream_pos key base_counter_block keystream_buffer].
        destruct (decide (keystream_pos st + n = 16)%nat); [left; lia|].
        right. exists r. split_and!; [done|lia|lia|done]. }
  clearbody n. pose proof (loops_spec st1 q (drop n data) Hok Hc Hd) as Hloops.
  change (key st1) with (key st) in Hloops. change (counter_block st1) with (counter_block st) in Hloops.
  change (base_counter_block st1) with (base_counter_block st) in Hloops.
  change (keystream_buffer st1) with (keystream_buffer st) in Hloops.
  change (keystream_pos st1) with (keystream_pos st + n)%nat in Hloops.
  destruct (par_loop _ _ _ (drop n data)) as [[out2 data2] cb].
  destruct (tail_loop _ _ data2) as [out3 st']. destruct Hloops as (Ho & Hk & Hb & Hnil & Hcons).
  split_and!; [|done|done|].
  - rewrite Hx, Ho, (xor_split _ _ data p n) by done. f_equal.
    destruct (decide (drop n data = [])) as [->|Hne]; [done|]. by rewrite Hp.
  - destruct (decide (drop n data = [])) as [He|Hne].
    + rewrite Hnil by done. replace (length data) with n; [by apply Hat|].
      apply (f_equal length) in He. rewrite length_drop in He. simpl in He. lia.
    + specialize (Hcons Hne). rewrite <- Hp in Hcons by done. rewrite length_drop in Hcons.
      by replace (p + n + (length data - n))%nat with (p + length data)%nat in Hcons by lia.
Qed.

Lemma seek_spec st (p : nat) : state_ok st ->
  at_pos (seek st (Z.of_nat p)) p /\ key (seek st (Z.of_nat p)) = key st /\
  base_counter_block (seek st (Z.of_nat p)) = base_counter_block st.
Proof.
  intros Hok. unfold seek.
  assert (Z.of_nat p / 16 = Z.of_nat (p / 16)) as Hdiv by (by rewrite Nat2Z.inj_div).
  assert (Z.of_nat p mod 16 = Z.of_nat (p mod 16)) as Hmod by (by rewrite Nat2Z.inj_mod).
  pose proof (Nat.div_mod_eq p 16). pose proof (Nat.mod_upper_bound p 16).
  rewrite Hdiv, Hmod. unfold wrapping_add. rewrite to_be8_wrap. fold (ctr_block (base_counter_block st) (Z.of_nat (p / 16))).
  destruct (Z.ltb_spec 0 (Z.of_nat (p mod 16))); (split; [|done]).
  - exists (S (p / 16)). cbn [counter_block base_counter_block keystream_pos keystream_buffer key].
    rewrite increment_ctr_block by done. split; [f_equal; lia|]. right.
    exists (p / 16)%nat. rewrite Nat2Z.id. split_and!; [done|lia|lia|done].
  - exists (p / 16)%nat. cbn [counter_block base_counter_block keystream_pos]. split; [done|]. left. lia.
Qed.

Lemma new_at_pos k iv : length iv = 16%nat -> bytes_ok iv ->
  state_ok (Aes128Ctr_new_internal k iv) /\ at_pos (Aes128Ctr_new_internal k iv) 0.
Proof.
  intros Hl Hb. split; [done|]. exists 0%nat. split; [|by left].
  unfold ctr_block. cbn. rewrite Z.add_0_r.
  rewrite <- (take_drop 8 iv) at 1. f_equal.
  pose proof (to_be_from_be (drop 8 iv)) as H. rewrite length_drop, Hl in H. symmetry. apply H.
  by apply Forall_drop.
Qed.

Lemma xor_involutive data ks : (length data <= length ks)%nat ->
  xor_bytes (xor_bytes data ks) ks = data.
Proof.
  revert ks. induction data as [|b data IH]; intros [|k ks] Hl; simpl in *; try done; [lia|].
  f_equal; [|apply IH; lia]. by rewrite Z.lxor_assoc, Z.lxor_nilpotent, Z.lxor_0_r.
Qed.

Lemma length_xor data ks : (length data <= length ks)%nat -> length (xor_bytes data ks) = length data.
Proof. intros. unfold xor_bytes. rewrite length_zip_with. lia. Qed.

(** Applying the keystream twice from the same position is the identity. *)
Lemma seek_apply_involutive st pos data : state_ok st -> 0 <= pos ->
  fst (apply_keystream (seek st pos) (fst (apply_keystream (seek st pos) data))) = data.
Proof.
  intros Hok Hpos. rewrite <- (Z2Nat.id pos) by done. set (p := Z.to_nat pos).
  destruct (seek_spec st p Hok) as (Hp & Hk & Hb).
  assert (state_ok (seek st (Z.of_nat p))) as Hok0 by (unfold state_ok; by rewrite Hb).
  pose proof (apply_keystream_spec _ p data Hok0 Hp) as H1.
  destruct (apply_keystream (seek st _) data) as [out ?]. destruct H1 as (-> & _). cbn [fst].
  set (ks := keystream _ _ _ _).
  assert (length ks = length data) as Hl by apply length_keystream.
  pose proof (apply_keystream_spec _ p (xor_bytes data ks) Hok0 Hp) as H2.
  destruct (apply_keystream _ (xor_bytes data ks)) as [out ?]. destruct H2 as (-> & _). cbn [fst].
  rewrite length_xor by lia. fold ks. apply xor_involutive. lia.
Qed.

(** ** Properties *)

(** C8: the buffered, eight-blocks-at-a-time implementation is the textbook
    CTR mode. From any seek position, two consecutive calls XOR the data with
    consecutive stretches of the reference keystream, however the data is cut
    between the calls and whatever the alignment to blocks; a fresh cipher
    stands at position 0; and decrypting from the same position restores the
    data. *)
Theorem apply_is_keystream (k iv : list Z) (st : Aes128Ctr) (p : nat) (d1 d2 : list Z)
  (Hiv : bytes_ok iv) (Hnew : Aes128Ctr_new k iv = Ok st) :
  let st0 := seek st (Z.of_nat p) in
  let '(out1, st1) := apply_keystream st0 d1 in
  let '(out2, _) := apply_keystream st1 d2 in
  out1 = xor_bytes d1 (keystream k iv p (length d1)) /\
  out2 = xor_bytes d2 (keystream k iv (p + length d1) (length d2)) /\
  fst (apply_keystream st d1) = xor_bytes d1 (keystream k iv 0 (length d1)) /\
  fst (apply_keystream st0 out1) = d1.
Proof.
  unfold Aes128Ctr_new in Hnew.
  destruct (Nat.eqb_spec (length k) 16) as [Hk|]; [|done].
  destruct (Nat.eqb_spec (length iv) 16) as [Hl|]; [|done]. injection Hnew as <-.
  destruct (new_at_pos k iv Hl Hiv) as [Hok Hat]. set (st := Aes128Ctr_new_internal k iv) in *.
  destruct (seek_spec st p Hok) as (Hp & Hk0 & Hb0). intros st0. fold st0 in Hp, Hk0, Hb0.
  assert (state_ok st0) as Hok0 by (unfold state_ok; by rewrite Hb0).
  pose proof (apply_keystream_spec st0 p d1 Hok0 Hp) as H1.
  destruct (apply_keystream st0 d1) as [out1 st1] eqn:E1. destruct H1 as (-> & Hk1 & Hb1 & Hp1).
  assert (state_ok st1) as Hok1 by (unfold state_ok; by rewrite Hb1).
  pose proof (apply_keystream_spec st1 _ d2 Hok1 Hp1) as H2.
  destruct (apply_keystream st1 d2) as [out2 st2]. destruct H2 as (-> & _).
  pose proof (apply_keystream_spec st 0 d1 Hok Hat) as H0.
  destruct (apply_keystream st d1) as [out0 st0']. destruct H0 as (-> & _).
  pose proof (apply_keystream_spec st0 p (xor_bytes d1 (keystream (key st0) (base_counter_block st0) p (length d1))) Hok0 Hp) as H3.
  destruct (apply_keystream st0 (xor_bytes _ _)) as [out3 st3]. destruct H3 as (H3 & _).
  rewrite length_xor in H3 by (by rewrite length_keystream).
  rewrite xor_involutive in H3 by (by rewrite length_keystream).
  rewrite Hk1, Hb1, Hk0, Hb0. cbn [fst]. by rewrite H3.
Qed.

End WithCipher.

(** A concrete block function, for the witnesses. *)
#[local] Instance toy_block : BlockCipher := fun k b => zip_with Z.lxor b (k ++ replicate 16 0).
#[local] Instance toy_block_laws : BlockCipherLaws toy_block.
Proof.
  intros k b Hb. unfold aes_block, toy_block. rewrite length_zip_with, length_app, length_replicate. lia.
Qed.

Lemma apply_is_keystream_witness :
  let iv := seqZ 0 16 in
  exists st, Aes128Ctr_new iv iv = Ok st /\
    fst (apply_keystream st [1; 2; 3]) = xor_bytes [1; 2; 3] (keystream iv iv 0 3).
Proof.
  intros iv. eexists. split; [reflexivity|].
  refine (proj1 (proj2 (proj2 (apply_is_keystream iv iv _ 5 [1; 2; 3] [] _ _)))).
  - repeat constructor; vm_compute; congruence.
  - reflexivity.
Defined.

End AesCtr.
