(* ===== verification/Aead.v ===== *)
(** * ChaCha20-Poly1305 wrapper

    Models [src/protocol/crypto/chacha.rs].  The AEAD itself (the
    [chacha20poly1305] crate) is a parameter with the three documented facts
    the callers rely on: what [encrypt] seals, [decrypt] opens under the same
    key, nonce and associated data; the ciphertext is 16 bytes longer than the
    plaintext; and sealing succeeds for plaintexts below the crate's limit. *)

From S2P Require Import Bytes AesCtr.
Import AesCtr(CryptoError, InvalidKeyLength, EncryptionFailed, DecryptionFailed).

Class AeadCipher := {
  aead_seal : list Z -> list Z -> list Z -> list Z -> option (list Z);
  aead_open : list Z -> list Z -> list Z -> list Z -> option (list Z)
}.

Class AeadLaws (A : AeadCipher) := {
  aead_seal_open : forall k n aad m c, aead_seal k n aad m = Some c -> aead_open k n aad c = Some m;
  aead_seal_length : forall k n aad m c, aead_seal k n aad m = Some c -> length c = (length m + 16)%nat;
  aead_seal_total : forall k n aad m, Z.of_nat (length m) < 2 ^ 32 -> exists c, aead_seal k n aad m = Some c
}.

Module Aead.

Definition CHACHA_NONCE : nat := 12.
Definition CHACHA_KEY : nat := 32.

Definition Nonce_from_bytes (bytes : list Z) : outcome CryptoError (list Z) :=
  if negb (length bytes =? CHACHA_NONCE)%nat
  then Err (InvalidKeyLength (Z.of_nat CHACHA_NONCE) (Z.of_nat (length bytes)))
  else Ok bytes.

Definition Nonce_from_counter (counter : Z) : list Z := replicate 4 0 ++ to_le 8 counter.

Section WithAead.
Context {A : AeadCipher}.

(** The cipher object holds the key. *)
Definition Cipher_new (key : list Z) : outcome CryptoError (list Z) :=
  if negb (length key =? CHACHA_KEY)%nat
  then Err (InvalidKeyLength (Z.of_nat CHACHA_KEY) (Z.of_nat (length key)))
  else Ok key.

Definition Cipher_encrypt_with_aad (key nonce aad plaintext : list Z) : outcome CryptoError (list Z) :=
  ok_or (aead_seal key nonce aad plaintext) EncryptionFailed.

(** [encrypt] passes a bare message, which is a payload with empty associated data. *)
Definition Cipher_encrypt (key nonce plaintext : list Z) : outcome CryptoError (list Z) :=
  ok_or (aead_seal key nonce [] plaintext) EncryptionFailed.

Definition Cipher_decrypt_with_aad (key nonce aad ciphertext : list Z) : outcome CryptoError (list Z) :=
  ok_or (aead_open key nonce aad ciphertext) DecryptionFailed.

Definition Cipher_decrypt (key nonce ciphertext : list Z) : outcome CryptoError (list Z) :=
  ok_or (aead_open key nonce [] ciphertext) DecryptionFailed.

End WithAead.

Lemma Cipher_new_ok key : length key = 32%nat -> Cipher_new key = Ok key.
Proof. intros H. unfold Cipher_new. by rewrite H. Qed.

Lemma length_Nonce_from_counter n : length (Nonce_from_counter n) = 12%nat.
Proof. unfold Nonce_from_counter. by rewrite length_app, length_to_le, length_replicate. Qed.

Lemma Nonce_from_counter_inj m n : uint 64 m -> uint 64 n ->
  Nonce_from_counter m = Nonce_from_counter n -> m = n.
Proof.
  unfold Nonce_from_counter, uint. intros Hm Hn H. apply app_inj_1 in H as [_ H]; [|done].
  change (2 ^ 64) with (256 ^ Z.of_nat 8) in *. by apply to_le_inj in H.
Qed.

Lemma Nonce_from_bytes_ok b : length b = 12%nat -> Nonce_from_bytes b = Ok b.
Proof. intros H. unfold Nonce_from_bytes. by rewrite H. Qed.

End Aead.

(** A concrete AEAD, for the witnesses: the plaintext followed by a tag that
    depends on key, nonce and associated data; its last byte tells whether there
    is any associated data. *)
Module ToyAead.

Definition toy_tag (k n aad : list Z) : list Z :=
  take 15 (n ++ aad ++ k ++ replicate 15 0) ++ [if bool_decide (aad = []) then 0 else 1].

#[export] Instance toy_aead : AeadCipher := {|
  aead_seal k n aad m :=
    if Z.of_nat (length m) <? 2 ^ 32 then Some (m ++ toy_tag k n aad) else None;
  aead_open k n aad c :=
    if (16 <=? length c)%nat && bool_decide (drop (length c - 16) c = toy_tag k n aad)
    then Some (take (length c - 16) c) else None
|}.

Lemma length_toy_tag k n aad : length (toy_tag k n aad) = 16%nat.
Proof. unfold toy_tag. rewrite length_app, length_take, !length_app, length_replicate. cbn [length]. lia. Qed.

#[export] Instance toy_aead_laws : AeadLaws toy_aead.
Proof.
  split.
  - intros k n aad m c. cbn [aead_seal aead_open toy_aead]. case_match; [|done]. intros [= <-].
    rewrite length_app, length_toy_tag, (proj2 (Nat.leb_le 16 (length m + 16))) by lia.
    replace (length m + 16 - 16)%nat with (length m) by lia.
    rewrite drop_app_length, take_app_length, bool_decide_eq_true_2 by done. done.
  - intros k n aad m c. cbn [aead_seal toy_aead]. case_match; [|done]. intros [= <-].
    by rewrite length_app, length_toy_tag.
  - intros k n aad m Hm. cbn [aead_seal toy_aead]. rewrite (proj2 (Z.ltb_lt _ _)) by done. eauto.
Qed.

End ToyAead.
