(* ===== verification/Ap2Audio.v ===== *)
(** * The AirPlay 2 receiver's audio packets

    Models [src/receiver/ap2/rtp_decryptor.rs] and [src/receiver/ap2/rtp_receiver.rs]:
    decryption of the payload, the PCM decoder and the receiver with its statistics.
    The datagrams that the task reads are arguments, and so is whether the channel to
    the jitter buffer has room. *)

From stdpp Require Import base list.
From S2P Require Import Bytes Text RtpPacket AesCtr Aead.

Module Ap2Audio.
Import RtpPacket Aead.

(** ** rtp_decryptor.rs *)
Inductive DecryptionError := PayloadTooShort | AuthenticationFailed.
Record Ap2RtpDecryptor := mkDecryptor { key : list Z; aad_prefix : option (list Z) }.
Definition Decryptor_new (k : list Z) : Ap2RtpDecryptor := mkDecryptor k None.
Definition set_aad_prefix (d : Ap2RtpDecryptor) (p : list Z) : Ap2RtpDecryptor := mkDecryptor (key d) (Some p).

Definition build_nonce (p : RtpPacket) : list Z :=
  replicate 4 0 ++ to_be 4 (ssrc (header p)) ++ to_be 2 (sequence (header p)) ++ [0; 0].
Definition build_aad (d : Ap2RtpDecryptor) (p : RtpPacket) : option (list Z) :=
  (fun prefix => prefix ++ RtpHeader_encode (header p)) <$> aad_prefix d.

Section WithAead.
Context {A : AeadCipher}.

Definition decrypt (d : Ap2RtpDecryptor) (p : RtpPacket) : outcome DecryptionError (list Z) :=
  if (length (payload p) <? 16)%nat then Err PayloadTooShort
  else
    cipher ← map_err (fun _ => AuthenticationFailed) (Cipher_new (key d));
    nonce ← map_err (fun _ => AuthenticationFailed) (Nonce_from_bytes (build_nonce p));
    map_err (fun _ => AuthenticationFailed)
      (match build_aad d p with
       | Some aad => Cipher_decrypt_with_aad cipher nonce aad (payload p)
       | None => Cipher_decrypt cipher nonce (payload p)
       end).

(** *** The decoders: the implementations of the trait *)
Inductive AudioDecodeError := InvalidData | UnsupportedFormat | DecoderError (m : string).
Inductive AudioDecoder :=
| PcmDecoder (sample_rate channels bits_per_sample : Z)
| AlacDecoder (sample_rate channels : Z).

(** A 24-bit sample, its top 16 bits. *)
Definition top16 (chunk : list Z) : Z := sext 16 (Z.shiftr (sext 32 (from_le (0 :: chunk))) 16).
Definition decode (d : AudioDecoder) (data : list Z) : outcome AudioDecodeError (list Z) :=
  match d with
  | PcmDecoder _ _ 16 => Ok (map i16_from_le (chunks_exact 2 data))
  | PcmDecoder _ _ 24 => Ok (map top16 (chunks_exact 3 data))
  | PcmDecoder _ _ _ => Err UnsupportedFormat
  | AlacDecoder _ _ => Err (DecoderError "ALAC decoder not implemented")
  end.

(** ** rtp_receiver.rs *)
Record AudioFrame := mkFrame { f_sequence : Z; f_timestamp : Z; samples : list Z; receive_time : Z }.
Record RtpReceiverConfig := mkConfig { c_port : Z; c_key : list Z; c_sample_rate : Z; c_channels : Z; c_bits_per_sample : Z; codec_type : Z }.

(** The 64-bit counters are not taken to their limit. *)
Record ReceiverStats := mkStats {
  packets_received : Z; packets_decrypted : Z; packets_failed : Z; bytes_received : Z; samples_decoded : Z; last_sequence : Z; sequence_gaps : Z
}.
Definition Stats_default : ReceiverStats := mkStats 0 0 0 0 0 0 0.

Inductive ReceiverError :=
| ParseError (e : RtpDecodeError) | DecryptError (e : DecryptionError) | DecodeError (e : AudioDecodeError) | UnsupportedCodec (t : Z) | ChannelFull.
Record RtpReceiver := mkReceiver { config : RtpReceiverConfig; decryptor : Ap2RtpDecryptor; decoder : AudioDecoder; stats : ReceiverStats }.

Definition Receiver_new (c : RtpReceiverConfig) : outcome ReceiverError RtpReceiver :=
  match codec_type c with
  | 100 => Ok (mkReceiver c (Decryptor_new (c_key c)) (PcmDecoder (c_sample_rate c) (c_channels c) (c_bits_per_sample c)) Stats_default)
  | _ => Err (UnsupportedCodec (codec_type c))
  end.

Definition count_received (s : ReceiverStats) (n : Z) : ReceiverStats :=
  let '(mkStats r d f b m l g) := s in mkStats (r + 1) d f (b + n) m l g.
(** The comparison with the expected number, in [i16]. *)
Definition track_sequence (s : ReceiverStats) (seq : Z) : ReceiverStats :=
  let '(mkStats r d f b m l g) := s in
  if 0 <? r then
    let diff := sext 16 (wrapping_sub 16 seq (wrapping_add 16 l 1)) in
    match diff ?= 0 with
    | Gt => mkStats r d f b m seq (g + 1)
    | Lt => s
    | Eq => mkStats r d f b m seq g
    end
  else mkStats r d f b m seq g.
Definition count_failed (s : ReceiverStats) : ReceiverStats := let '(mkStats r d f b m l g) := s in mkStats r d (f + 1) b m l g.
Definition count_decrypted (s : ReceiverStats) : ReceiverStats := let '(mkStats r d f b m l g) := s in mkStats r (d + 1) f b m l g.
Definition count_samples (s : ReceiverStats) (n : Z) : ReceiverStats := let '(mkStats r d f b m l g) := s in mkStats r d f b (m + n) l g.

Definition with_stats (r : RtpReceiver) (s : ReceiverStats) : RtpReceiver := mkReceiver (config r) (decryptor r) (decoder r) s.
Definition reset_stats (r : RtpReceiver) : RtpReceiver := with_stats r Stats_default.

(** The frame that is sent, when there is one, and the receiver. *)
Definition process_packet (r : RtpReceiver) (data : list Z) (room : bool) (now : Z) : outcome ReceiverError AudioFrame * RtpReceiver :=
  let s := count_received (stats r) (Z.of_nat (length data)) in
  match RtpPacket_decode data with
  | Ok packet =>
      let s := track_sequence s (sequence (header packet)) in
      match decrypt (decryptor r) packet with
      | Ok plain =>
          let s := count_decrypted s in
          match decode (decoder r) plain with
          | Ok smp =>
              let s := count_samples s (Z.of_nat (length smp)) in
              (if room then Ok (mkFrame (sequence (header packet)) (timestamp (header packet)) smp now) else Err ChannelFull, with_stats r s)
          | Err e => (Err (DecodeError e), with_stats r s)
          | Panic => (Panic, with_stats r s)
          end
      | Err e => (Err (DecryptError e), with_stats r (count_failed s))
      | Panic => (Panic, with_stats r s)
      end
  | Err e => (Err (ParseError e), with_stats r s)
  | Panic => (Panic, with_stats r s)
  end.

(** The loop of the task: errors are logged; a datagram is cut to the buffer. *)
Fixpoint run_receiver (r : RtpReceiver) (reads : list (list Z * bool * Z)) : list AudioFrame * RtpReceiver :=
  match reads with
  | [] => ([], r)
  | (data, room, now) :: reads =>
      let '(x, r) := process_packet r (take 2048 data) room now in
      let '(fs, r) := run_receiver r reads in
      (match x with Ok f => f :: fs | _ => fs end, r)
  end.
End WithAead.

(** ** PCM *)
Definition pcm16 (smp : list Z) : list Z := concat (map (fun s => to_le 2 (wrap 16 s)) smp).

Lemma decode_pcm16 rate ch smp : Forall (sint 16) smp -> decode (PcmDecoder rate ch 16) (pcm16 smp) = Ok smp.
Proof.
  intros Hs. cbn [decode]. unfold pcm16. rewrite chunks_exact_concat; [|lia|].
  - f_equal. rewrite map_map. induction Hs as [|x smp Hx Hs IH]; [done|]. cbn [map]. rewrite IH. f_equal.
    unfold i16_from_le. rewrite from_le_to_le. rewrite Z.mod_small; [by apply sext_wrap|]. apply (wrap_range 16). lia.
  - apply Forall_forall. intros c (x & -> & _)%list_elem_of_fmap. apply length_to_le.
Qed.

Lemma length_pcm16 smp : length (pcm16 smp) = (2 * length smp)%nat.
Proof. induction smp as [|x smp IH]; [done|]. unfold pcm16 in *. cbn [map concat]. rewrite length_app, length_to_le, IH. cbn. lia. Qed.

(** A 24-bit sample loses its low byte. *)
Lemma top16_spec v : sint 24 v -> top16 (to_le 3 (wrap 24 v)) = Z.shiftr v 8.
Proof.
  intros Hv. unfold top16. assert (from_le (0 :: to_le 3 (wrap 24 v)) = wrap 24 v * 256) as ->.
  { unfold from_le, to_le. cbn [reverse]. rewrite reverse_cons, reverse_involutive. unfold from_be. rewrite foldl_app. cbn [foldl].
    fold (from_be (to_be 3 (wrap 24 v))). rewrite from_be_to_be. rewrite Z.mod_small; [lia|]. apply (wrap_range 24). lia. }
  assert (sext 32 (wrap 24 v * 256) = v * 256) as ->.
  { replace (wrap 24 v * 256) with (wrap 32 (v * 256)); [apply sext_wrap; unfold sint in *; lia|].
    unfold wrap. change (2 ^ 32) with (2 ^ 24 * 256). by rewrite Z.mul_mod_distr_r by lia. }
  rewrite !Z.shiftr_div_pow2 by lia. change (2 ^ 16) with (256 * 256). change (2 ^ 8) with 256. rewrite <- Z.div_div, Z.div_mul by lia.
  unfold sext, sint in *. change (2 ^ (24 - 1)) with 8388608 in Hv. assert (- 32768 <= v / 256 < 32768) by (split; [apply Z.div_le_lower_bound|apply Z.div_lt_upper_bound]; lia). change (2 ^ (16 - 1)) with 32768. change (2 ^ 16) with 65536. rewrite Z.mod_small; lia.
Qed.

(** ** What a sender's packets become *)
Section Delivery.
Context {A : AeadCipher} {AL : AeadLaws A}.

(** A packet of 16-bit samples, sealed as the receiver opens it. *)
Record Sent := mkSent { hdr : RtpHeader; pcm : list Z; cipher : list Z; at_ : Z }.
Definition sent_ok (d : Ap2RtpDecryptor) (x : Sent) : Prop :=
  header_ok (hdr x) /\ Forall (sint 16) (pcm x) /\ (2 * length (pcm x) <= 2020)%nat /\
  aead_seal (key d) (build_nonce (RtpPacket_new (hdr x) (cipher x))) (default [] (build_aad d (RtpPacket_new (hdr x) (cipher x)))) (pcm16 (pcm x)) = Some (cipher x).
Definition datagram (x : Sent) : list Z * bool * Z := (RtpPacket_encode (RtpPacket_new (hdr x) (cipher x)), true, at_ x).
Definition frame_of (x : Sent) : AudioFrame := mkFrame (sequence (hdr x)) (timestamp (hdr x)) (pcm x) (at_ x).

Lemma sent_length d x : sent_ok d x -> length (cipher x) = (2 * length (pcm x) + 16)%nat.
Proof. intros (_ & _ & _ & Hc). by rewrite (aead_seal_length _ _ _ _ _ Hc), length_pcm16. Qed.

Lemma decrypt_sent d x : length (key d) = 32%nat -> sent_ok d x ->
  decrypt d (RtpPacket_new (hdr x) (cipher x)) = Ok (pcm16 (pcm x)).
Proof.
  intros Hk Hx. unfold decrypt. cbn [payload RtpPacket_new]. pose proof (sent_length d x Hx) as Hl.
  rewrite (proj2 (Nat.ltb_ge _ _)) by lia. rewrite Cipher_new_ok by done. cbn [map_err mbind outcome_bind].
  rewrite Nonce_from_bytes_ok by (unfold build_nonce; rewrite !length_app, !length_to_be; done). cbn [map_err mbind outcome_bind].
  destruct Hx as (_ & _ & _ & Hc). apply aead_seal_open in Hc. unfold Cipher_decrypt_with_aad, Cipher_decrypt.
  destruct (build_aad d _); unfold default, from_option, id in Hc; rewrite Hc; done.
Qed.

Lemma process_sent r x rate ch : length (key (decryptor r)) = 32%nat -> decoder r = PcmDecoder rate ch 16 -> sent_ok (decryptor r) x ->
  process_packet r (take 2048 (RtpPacket_encode (RtpPacket_new (hdr x) (cipher x)))) true (at_ x) =
  (Ok (frame_of x),
   with_stats r (count_samples (count_decrypted (track_sequence (count_received (stats r) (Z.of_nat (12 + length (cipher x)))) (sequence (hdr x))))
     (Z.of_nat (length (pcm x))))).
Proof.
  intros Hk Hd Hx. pose proof (sent_length _ x Hx) as Hl. pose proof (decrypt_sent _ x Hk Hx) as Hdec. destruct Hx as (Hh & Hs & Hn & _).
  assert (length (RtpPacket_encode (RtpPacket_new (hdr x) (cipher x))) = (12 + length (cipher x))%nat) as Hlen
    by (unfold RtpPacket_encode; rewrite length_app, length_RtpHeader_encode; done).
  rewrite take_ge by lia. unfold process_packet. rewrite packet_roundtrip by done. cbn [header RtpPacket_new] in *.
  rewrite Hdec, Hd, decode_pcm16, Hlen by done. done.
Qed.

Definition total_samples (l : list Sent) : Z := fold_right (fun x n => Z.of_nat (length (pcm x)) + n) 0 l.

Lemma counters s n q k : let s' := count_samples (count_decrypted (track_sequence (count_received s n) q)) k in
  packets_received s' = packets_received s + 1 /\ packets_decrypted s' = packets_decrypted s + 1 /\ packets_failed s' = packets_failed s /\
  samples_decoded s' = samples_decoded s + k.
Proof. destruct s. unfold count_received, track_sequence. cbn -[Z.ltb Z.compare]. destruct (0 <? _); [|done]. by destruct (_ ?= 0). Qed.

(** C19: sealed audio reaches the jitter buffer unchanged. Whatever packets of 16-bit
    samples, sealed for the receiver's key, nonce and associated data, arrive in
    whatever order, and while the channel has room, each becomes one frame with its
    number, its timestamp and exactly its samples, in the order of arrival; all of them
    are counted as decrypted, none as failed, and the samples add up. *)
Theorem audio_delivered (l : list Sent) : forall (r : RtpReceiver) (rate ch : Z), length (key (decryptor r)) = 32%nat ->
  decoder r = PcmDecoder rate ch 16 -> Forall (sent_ok (decryptor r)) l ->
  let '(frames, r') := run_receiver r (map datagram l) in
  frames = map frame_of l /\ packets_received (stats r') = packets_received (stats r) + Z.of_nat (length l) /\
  packets_decrypted (stats r') = packets_decrypted (stats r) + Z.of_nat (length l) /\
  packets_failed (stats r') = packets_failed (stats r) /\ samples_decoded (stats r') = samples_decoded (stats r) + total_samples l.
Proof.
  induction l as [|x l IH]; intros r rate ch Hk Hd Hl; cbn [map run_receiver]; [cbn; split_and!; [done|lia..]|].
  apply Forall_cons in Hl as [Hx Hl]. unfold datagram at 1. rewrite (process_sent r x rate ch) by done.
  set (s := count_samples _ _). destruct (counters (stats r) (Z.of_nat (12 + length (cipher x))) (sequence (hdr x)) (Z.of_nat (length (pcm x)))) as (H1 & H2 & H3 & H4).
  fold s in H1, H2, H3, H4. specialize (IH (with_stats r s) rate ch Hk Hd Hl). destruct (run_receiver _ _) as [fs r']. cbn [stats with_stats] in IH.
  destruct IH as (-> & I1 & I2 & I3 & I4). cbn [length total_samples fold_right map]. fold (total_samples l). split_and!; [done|lia..].
Qed.
End Delivery.

(** ** Sequence numbers *)

(** The first packet is compared with number 1, since it has been counted before: most
    first packets count as a gap. *)
Lemma first_packet_gap : sequence_gaps (track_sequence (count_received Stats_default 100) 500) = 1.
Proof. reflexivity. Qed.

(** One with a number above 32768 counts as late, and so do all that follow up to the
    wrap: the losses among them go unnoticed. *)
Lemma late_start_blind : let s := foldl (fun s q => track_sequence (count_received s 100) q) Stats_default [40000; 40005; 40010; 50000] in
  sequence_gaps s = 0 /\ last_sequence s = 0.
Proof. split; reflexivity. Qed.

(** The nonce is the stream and the 16-bit number: it comes back after 65536 packets. *)
Lemma nonce_repeats p q : ssrc (header p) = ssrc (header q) -> sequence (header p) = sequence (header q) -> build_nonce p = build_nonce q.
Proof. unfold build_nonce. by intros -> ->. Qed.

(** ** Witness *)
Import ToyAead.
Definition demo_receiver : RtpReceiver :=
  mkReceiver (mkConfig 6000 (replicate 32 7) 44100 2 16 100) (set_aad_prefix (Decryptor_new (replicate 32 7)) [1; 2]) (PcmDecoder 44100 2 16) Stats_default.
Definition demo_sent (seq : Z) (smp : list Z) : Sent :=
  let h := RtpHeader_new_audio seq 352 9 false in
  mkSent h smp (default [] (aead_seal (replicate 32 7) (build_nonce (RtpPacket_new h [])) ([1; 2] ++ RtpHeader_encode h) (pcm16 smp))) 5.

Lemma audio_delivered_witness :
  let '(frames, r') := run_receiver demo_receiver (map datagram [demo_sent 2 [-1; 300]; demo_sent 1 [-32768; 32767]]) in
  frames = [mkFrame 2 352 [-1; 300] 5; mkFrame 1 352 [-32768; 32767] 5] /\ packets_received (stats r') = 2 /\ packets_decrypted (stats r') = 2 /\
  packets_failed (stats r') = 0 /\ samples_decoded (stats r') = 4.
Proof.
  apply (audio_delivered [demo_sent 2 [-1; 300]; demo_sent 1 [-32768; 32767]] demo_receiver 44100 2); [reflexivity|reflexivity|].
  repeat constructor; try (unfold sint; cbn; lia); try (vm_compute; reflexivity).
Defined.

End Ap2Audio.
