(* ===== verification/RtpCodec.v ===== *)
(** * RTP audio codec

    Models [src/protocol/rtp/codec.rs]: [RtpCodec] with its three encryption
    modes, packetisation of a PCM stream, decoding, and [AudioPacketBuilder].
    The codec is used through the two cipher interfaces [BlockCipher] and
    [AeadCipher]; its theorems are proved against their laws.  A method taking
    [&mut self] returns its result next to the codec it leaves behind, so that
    what happens to the state on an error return is visible. *)

From S2P Require Import Bytes RtpPacket AesCtr Aead.
Import RtpPacket Aead.

Module RtpCodec.

(** The [String] of the two failure variants is the rendering of the crypto
    error; [DecryptionFailed None] is the literal message for a short packet. *)
Inductive RtpCodecError :=
| Decode (e : RtpDecodeError)
| EncryptionNotInitialized
| InvalidAudioSize (n : Z)
| EncryptionFailed (why : AesCtr.CryptoError)
| DecryptionFailed (why : option AesCtr.CryptoError).

Inductive RtpEncryptionMode := ModeNone | ModeAes128Ctr | ModeChaCha20Poly1305.

Record RtpCodec := mkCodec {
  c_ssrc : Z;
  c_sequence : Z;
  c_timestamp : Z;
  aes_key : option (list Z);
  aes_iv : option (list Z);
  chacha_key : option (list Z);
  encryption_mode : RtpEncryptionMode;
  buffered_mode : bool;
  nonce_counter : Z;
  frames_per_packet : Z
}.

Definition FRAMES_PER_PACKET : Z := 352.
Definition TAG_SIZE : nat := 16.
Definition NONCE_SIZE : nat := 8.

Definition RtpCodec_new (ss : Z) : RtpCodec :=
  mkCodec ss 0 0 None None None ModeNone false 0 FRAMES_PER_PACKET.

Definition set_frames_per_packet (c : RtpCodec) (frames : Z) : RtpCodec :=
  mkCodec (c_ssrc c) (c_sequence c) (c_timestamp c) (aes_key c) (aes_iv c) (chacha_key c)
    (encryption_mode c) (buffered_mode c) (nonce_counter c) frames.

Definition set_encryption (c : RtpCodec) (key iv : list Z) : RtpCodec :=
  mkCodec (c_ssrc c) (c_sequence c) (c_timestamp c) (Some key) (Some iv) (chacha_key c)
    ModeAes128Ctr (buffered_mode c) (nonce_counter c) (frames_per_packet c).

Definition set_chacha_encryption (c : RtpCodec) (key : list Z) : RtpCodec :=
  mkCodec (c_ssrc c) (c_sequence c) (c_timestamp c) (aes_key c) (aes_iv c) (Some key)
    ModeChaCha20Poly1305 (buffered_mode c) (nonce_counter c) (frames_per_packet c).

Definition set_buffered_mode (c : RtpCodec) (enabled : bool) : RtpCodec :=
  mkCodec (c_ssrc c) (c_sequence c) (c_timestamp c) (aes_key c) (aes_iv c) (chacha_key c)
    (encryption_mode c) enabled (nonce_counter c) (frames_per_packet c).

Definition reset (c : RtpCodec) : RtpCodec :=
  mkCodec (c_ssrc c) 0 0 (aes_key c) (aes_iv c) (chacha_key c)
    (encryption_mode c) (buffered_mode c) 0 (frames_per_packet c).

(** [self.nonce_counter = self.nonce_counter.wrapping_add(1)]. *)
Definition bump_nonce (c : RtpCodec) : RtpCodec :=
  mkCodec (c_ssrc c) (c_sequence c) (c_timestamp c) (aes_key c) (aes_iv c) (chacha_key c)
    (encryption_mode c) (buffered_mode c) (nonce_counter c +%u64 1) (frames_per_packet c).

(** The update for the next packet at the end of [encode_arbitrary_payload]. *)
Definition next_packet (c : RtpCodec) : RtpCodec :=
  mkCodec (c_ssrc c) (c_sequence c +%u16 1) (c_timestamp c +%u32 frames_per_packet c)
    (aes_key c) (aes_iv c) (chacha_key c)
    (encryption_mode c) (buffered_mode c) (nonce_counter c) (frames_per_packet c).

(** [self.frames_per_packet as usize * 4]. *)
Definition frame_size (c : RtpCodec) : Z := frames_per_packet c * 4.

Section WithCiphers.
Context {B : BlockCipher} {A : AeadCipher}.

(** The AES-CTR payload transformation, shared by both directions: seek to the
    packet's position and XOR; without keys the payload passes through. *)
Definition aes_payload (c : RtpCodec) (seqno : Z) (data : list Z) : outcome RtpCodecError (list Z) :=
  match aes_key c, aes_iv c with
  | Some key, Some iv =>
      cipher ← map_err (fun _ => EncryptionNotInitialized) (AesCtr.Aes128Ctr_new key iv);
      Ok (fst (AesCtr.apply_keystream (AesCtr.seek cipher (seqno * frame_size c)) data))
  | _, _ => Ok data
  end.

(** The ChaCha branch after the nonce counter was advanced: the bytes appended
    to the output. *)
Definition chacha_packet (key : list Z) (nonce : Z) (header_bytes data : list Z)
  : outcome RtpCodecError (list Z) :=
  let nonce_bytes := to_le 8 nonce in
  full_nonce ← map_err EncryptionFailed (Nonce_from_bytes (replicate 4 0 ++ nonce_bytes));
  aad ← slice header_bytes 4 12;
  encrypted ← map_err EncryptionFailed (Cipher_encrypt_with_aad key full_nonce aad data);
  if (length encrypted <? TAG_SIZE)%nat then Panic
  else
    let ciphertext := take (length encrypted - TAG_SIZE) encrypted in
    let tag := drop (length encrypted - TAG_SIZE) encrypted in
    Ok (header_bytes ++ ciphertext ++ tag ++ nonce_bytes).

Definition encode_arbitrary_payload (c : RtpCodec) (data output : list Z)
  : outcome RtpCodecError unit * RtpCodec * list Z :=
  let h := RtpHeader_new_audio (c_sequence c) (c_timestamp c) (c_ssrc c) (buffered_mode c) in
  let header_bytes := RtpHeader_encode h in
  match encryption_mode c with
  | ModeNone =>
      (Ok tt, next_packet c, output ++ RtpPacket_encode (RtpPacket_new h data))
  | ModeAes128Ctr =>
      match aes_payload c (c_sequence c) data with
      | Ok payload => (Ok tt, next_packet c, output ++ RtpPacket_encode (RtpPacket_new h payload))
      | Err e => (Err e, c, output)
      | Panic => (Panic, c, output)
      end
  | ModeChaCha20Poly1305 =>
      match chacha_key c with
      | None => (Err EncryptionNotInitialized, c, output)
      | Some k =>
          match Cipher_new k with
          | Ok key =>
              match chacha_packet key (nonce_counter c) header_bytes data with
              | Ok bytes => (Ok tt, next_packet (bump_nonce c), output ++ bytes)
              | Err e => (Err e, bump_nonce c, output)
              | Panic => (Panic, bump_nonce c, output)
              end
          | Err e => (Err (EncryptionFailed e), c, output)
          | Panic => (Panic, c, output)
          end
      end
  end.

Definition encode_audio (c : RtpCodec) (pcm_data output : list Z)
  : outcome RtpCodecError unit * RtpCodec * list Z :=
  if negb (Z.of_nat (length pcm_data) =? frame_size c)
  then (Err (InvalidAudioSize (Z.of_nat (length pcm_data))), c, output)
  else encode_arbitrary_payload c pcm_data output.

(** The [for chunk in pcm_data.chunks(frame_size)] loop; an error returns at
    once, with the packets built so far dropped. *)
Fixpoint encode_chunks (fsize : nat) (c : RtpCodec) (cs : list (list Z))
  : outcome RtpCodecError (list (list Z)) * RtpCodec :=
  match cs with
  | [] => (Ok [], c)
  | chunk :: cs =>
      let push r :=
        match r with
        | (Ok _, c', packet) =>
            let '(rest, c'') := encode_chunks fsize c' cs in (cons packet <$> rest, c'')
        | (Err e, c', _) => (Err e, c')
        | (Panic, c', _) => (Panic, c')
        end in
      if (length chunk =? fsize)%nat then push (encode_audio c chunk [])
      else if negb (length chunk =? 0)%nat
      then push (encode_audio c (chunk ++ replicate (fsize - length chunk) 0) [])
      else encode_chunks fsize c cs
  end.

(** [chunks(0)] panics. *)
Definition encode_audio_frames (c : RtpCodec) (pcm_data : list Z)
  : outcome RtpCodecError (list (list Z)) * RtpCodec :=
  let fsize := Z.to_nat (frame_size c) in
  if (fsize =? 0)%nat then (Panic, c) else encode_chunks fsize c (chunks fsize pcm_data).

Definition decode_audio (c : RtpCodec) (data : list Z) : outcome RtpCodecError RtpPacket :=
  match encryption_mode c with
  | ModeNone => map_err Decode (RtpPacket_decode data)
  | ModeAes128Ctr =>
      packet ← map_err Decode (RtpPacket_decode data);
      p ← aes_payload c (sequence (header packet)) (payload packet);
      Ok (RtpPacket_new (header packet) p)
  | ModeChaCha20Poly1305 =>
      let len := length data in
      if (len <? HEADER_SIZE + TAG_SIZE + NONCE_SIZE)%nat then Err (DecryptionFailed None)
      else
        h ← map_err Decode (RtpHeader_decode data);
        nonce_bytes ← slice data (len - NONCE_SIZE) len;
        nonce ← map_err (fun e => DecryptionFailed (Some e))
                  (Nonce_from_bytes (replicate 4 0 ++ nonce_bytes));
        let tag_start := (len - NONCE_SIZE - TAG_SIZE)%nat in
        tag ← slice data tag_start (len - NONCE_SIZE);
        ciphertext ← slice data HEADER_SIZE tag_start;
        aad ← slice data 4 12;
        k ← ok_or (chacha_key c) EncryptionNotInitialized;
        key ← map_err (fun e => DecryptionFailed (Some e)) (Cipher_new k);
        p ← map_err (fun e => DecryptionFailed (Some e))
              (Cipher_decrypt_with_aad key nonce aad (ciphertext ++ tag));
        Ok (RtpPacket_new h p)
  end.

(** ** AudioPacketBuilder *)
Record AudioPacketBuilder := { b_codec : RtpCodec; b_packets : list (list Z) }.

Definition Builder_new (ss : Z) : AudioPacketBuilder := {| b_codec := RtpCodec_new ss; b_packets := [] |}.
Definition Builder_with_encryption (b : AudioPacketBuilder) (key iv : list Z) : AudioPacketBuilder :=
  {| b_codec := set_encryption (b_codec b) key iv; b_packets := b_packets b |}.
Definition Builder_with_chacha_encryption (b : AudioPacketBuilder) (key : list Z) : AudioPacketBuilder :=
  {| b_codec := set_chacha_encryption (b_codec b) key; b_packets := b_packets b |}.

(** The builder is consumed: an error drops it. *)
Definition Builder_add_audio (b : AudioPacketBuilder) (pcm : list Z) : outcome RtpCodecError AudioPacketBuilder :=
  let '(r, c') := encode_audio_frames (b_codec b) pcm in
  new_packets ← r;
  Ok {| b_codec := c'; b_packets := b_packets b ++ new_packets |}.
Definition Builder_build (b : AudioPacketBuilder) : list (list Z) := b_packets b.

(** ** Well-formedness *)
Definition opt_len (o : option (list Z)) (n : nat) : Prop := forall k, o = Some k -> length k = n.

(** The types' ranges, and in ChaCha mode a key: what every codec reached from
    [RtpCodec_new] by the setters satisfies. *)
Definition codec_ok (c : RtpCodec) : Prop :=
  uint 32 (c_ssrc c) /\ uint 16 (c_sequence c) /\ uint 32 (c_timestamp c) /\
  uint 64 (nonce_counter c) /\ uint 32 (frames_per_packet c) /\
  opt_len (aes_key c) 16 /\ opt_len (aes_iv c) 16 /\ opt_len (chacha_key c) 32 /\
  (encryption_mode c = ModeChaCha20Poly1305 -> chacha_key c <> None).

(** The receiving codec agrees on keys, mode and packet size. *)
Definition same_keys (c r : RtpCodec) : Prop :=
  encryption_mode r = encryption_mode c /\ aes_key r = aes_key c /\ aes_iv r = aes_iv c /\
  chacha_key r = chacha_key c /\ frames_per_packet r = frames_per_packet c.

(** The packet a codec state stands for. *)
Definition packet_of (c : RtpCodec) (data : list Z) : RtpPacket :=
  RtpPacket_audio (c_sequence c) (c_timestamp c) (c_ssrc c) data (buffered_mode c).

Definition is_chacha (c : RtpCodec) : bool :=
  match encryption_mode c with ModeChaCha20Poly1305 => true | _ => false end.

(** The codec after one successful packet. *)
Definition after_packet (c : RtpCodec) : RtpCodec :=
  if is_chacha c then next_packet (bump_nonce c) else next_packet c.

(** The nonce carried by an encoded packet: its last eight bytes. *)
Definition wire_nonce (packet : list Z) : list Z := drop (length packet - 8) packet.

(** ** One packet *)
Context {BL : BlockCipherLaws B} {AL : AeadLaws A}.

Lemma aes_payload_inverse c seqno data : codec_ok c -> 0 <= seqno ->
  exists d, aes_payload c seqno data = Ok d /\
    forall r, same_keys c r -> aes_payload r seqno d = Ok data.
Proof.
  intros (_ & _ & _ & _ & Hf & Hk & Hi & _) Hs.
  cut (exists d, aes_payload c seqno data = Ok d /\ aes_payload c seqno d = Ok data).
  { intros (d & Hd & Hd'). exists d. split; [done|]. intros r (_ & Ek & Ei & _ & Ef).
    unfold aes_payload, frame_size in *. by rewrite Ek, Ei, Ef. }
  unfold aes_payload, frame_size.
  destruct (aes_key c) as [k|]; [|by eauto]. destruct (aes_iv c) as [iv|]; [|by eauto].
  unfold AesCtr.Aes128Ctr_new. rewrite (Hk k), (Hi iv) by done. cbn.
  eexists. split; [done|]. rewrite AesCtr.seek_apply_involutive; [done| |].
  - unfold AesCtr.state_ok. by apply Hi.
  - destruct Hf. nia.
Qed.

Lemma header_of_ok c : codec_ok c ->
  header_ok (RtpHeader_new_audio (c_sequence c) (c_timestamp c) (c_ssrc c) (buffered_mode c)).
Proof. intros (? & ? & ? & _). by apply RtpHeader_new_audio_ok. Qed.

(** What the wire carries for [data] in state [c]: every codec with the same
    keys decodes it to the packet, and in ChaCha mode it ends with the nonce. *)
Definition carries (c : RtpCodec) (data pkt : list Z) : Prop :=
  (forall r, same_keys c r -> decode_audio r pkt = Ok (packet_of c data)) /\
  (is_chacha c = true -> wire_nonce pkt = to_le 8 (nonce_counter c)).

Lemma packet_carried (h : RtpHeader) d : header_ok h ->
  RtpPacket_decode (RtpPacket_encode (RtpPacket_new h d)) = Ok (RtpPacket_new h d).
Proof.
  intros Hh. unfold RtpPacket_decode, RtpPacket_encode, RtpPacket_new. cbn [header payload].
  rewrite RtpHeader_decode_encode by done. cbn [mbind outcome_bind].
  rewrite slice_in by (rewrite length_app, length_RtpHeader_encode; lia).
  rewrite length_app, length_RtpHeader_encode, drop_app_length' by (by rewrite length_RtpHeader_encode).
  cbn [mbind outcome_bind]. by rewrite take_ge by lia.
Qed.

Lemma chacha_carried c key data : codec_ok c -> encryption_mode c = ModeChaCha20Poly1305 ->
  chacha_key c = Some key -> Z.of_nat (length data) < 2 ^ 32 ->
  let h := RtpHeader_new_audio (c_sequence c) (c_timestamp c) (c_ssrc c) (buffered_mode c) in
  exists pkt, chacha_packet key (nonce_counter c) (RtpHeader_encode h) data = Ok pkt /\ carries c data pkt.
Proof.
  intros Hok Hm Hk Hd h. assert (header_ok h) as Hh by by apply header_of_ok.
  assert (length key = 32%nat) as Hlk by (destruct Hok as (_ & _ & _ & _ & _ & _ & _ & H & _); by apply H).
  set (n := to_le 8 (nonce_counter c)). assert (length n = 8%nat) as Hn by apply length_to_le.
  pose proof (length_RtpHeader_encode h) as Hlh. unfold HEADER_SIZE in Hlh.
  set (hb := RtpHeader_encode h) in *.
  assert (length (replicate 4 0 ++ n) = 12%nat) as Hfn by (by rewrite length_app, Hn).
  destruct (aead_seal_total key (replicate 4 0 ++ n) (take 8 (drop 4 hb)) data Hd) as [enc Henc].
  pose proof (aead_seal_length _ _ _ _ _ Henc) as Hl. apply aead_seal_open in Henc as Hopen.
  exists (hb ++ enc ++ n). split; [|split].
  - unfold chacha_packet. fold n. rewrite Nonce_from_bytes_ok by done. cbn [map_err mbind outcome_bind].
    rewrite slice_in by lia. cbn [mbind outcome_bind Nat.sub].
    unfold Cipher_encrypt_with_aad. rewrite Henc. cbn [ok_or map_err mbind outcome_bind].
    unfold TAG_SIZE. rewrite (proj2 (Nat.ltb_ge _ _)) by lia.
    by rewrite (app_assoc (take _ enc)), take_drop.
  - intros r (Em & _ & _ & Ek & _). unfold decode_audio. rewrite Em, Hm, Ek, Hk.
    unfold HEADER_SIZE, TAG_SIZE, NONCE_SIZE. rewrite !length_app, Hlh, Hn.
    rewrite (proj2 (Nat.ltb_ge _ _)) by lia.
    subst hb. rewrite RtpHeader_decode_encode by done. set (hb := RtpHeader_encode h) in *.
    cbn [map_err mbind outcome_bind].
    rewrite (slice_in _ (12 + (length enc + 8) - 8)) by (rewrite !length_app; lia).
    replace (12 + (length enc + 8) - 8)%nat with (12 + length enc)%nat by lia.
    replace (12 + length enc - 16)%nat with (length hb + length data)%nat by lia.
    cbn [mbind outcome_bind].
    rewrite app_assoc, drop_app_length' by (rewrite length_app; lia).
    rewrite take_ge by lia. rewrite Nonce_from_bytes_ok by done. cbn [map_err mbind outcome_bind].
    rewrite <- !app_assoc.
    rewrite !slice_in by (rewrite ?length_app; lia). cbn [mbind outcome_bind ok_or].
    rewrite Cipher_new_ok by done. cbn [map_err mbind outcome_bind Nat.sub].
    rewrite (drop_app_le _ _ 4), take_app_le by (rewrite ?length_drop; lia).
    rewrite (drop_app_length' _ _ 12) by lia.
    rewrite drop_app_add.
    rewrite !take_app_le by (rewrite ?length_drop; lia).
    rewrite drop_app_le, take_app_le by (rewrite ?length_drop; lia).
    replace (length hb + length data - 12)%nat with (length data) by lia.
    replace (12 + length enc - (length hb + length data))%nat with 16%nat by lia.
    rewrite (take_ge (drop _ enc)) by (rewrite length_drop; lia). rewrite take_drop.
    unfold Cipher_decrypt_with_aad. by rewrite Hopen.
  - intros _. unfold wire_nonce. rewrite !length_app, Hn, app_assoc.
    apply drop_app_length'. rewrite length_app. lia.
Qed.

Lemma encode_one c data output : codec_ok c -> Z.of_nat (length data) < 2 ^ 32 ->
  exists pkt, encode_arbitrary_payload c data output = (Ok tt, after_packet c, output ++ pkt) /\
    carries c data pkt.
Proof.
  intros Hok Hd. pose proof (header_of_ok c Hok) as Hh.
  unfold encode_arbitrary_payload, after_packet, is_chacha.
  destruct (encryption_mode c) eqn:Hm.
  - eexists. split; [done|]. split; [|by unfold is_chacha; rewrite Hm].
    intros r (Em & _). unfold decode_audio. rewrite Em, Hm, packet_carried by done. done.
  - destruct (aes_payload_inverse c (c_sequence c) data) as (d & -> & Hinv);
      [done|by destruct Hok as (_ & [? _] & _)|].
    eexists. split; [done|]. split; [|by unfold is_chacha; rewrite Hm].
    intros r Hr. unfold decode_audio. rewrite (proj1 Hr), Hm, packet_carried by done.
    cbn. by rewrite Hinv.
  - destruct (chacha_key c) as [key|] eqn:Hk; [|by destruct Hok as (_ & _ & _ & _ & _ & _ & _ & _ & []) ].
    rewrite Cipher_new_ok by (destruct Hok as (_ & _ & _ & _ & _ & _ & _ & H & _); by apply H).
    destruct (chacha_carried c key data Hok Hm Hk Hd) as (pkt & -> & Hc). by exists pkt.
Qed.

Lemma after_packet_ok c : codec_ok c -> codec_ok (after_packet c).
Proof.
  intros (H1 & H2 & H3 & H4 & H5 & H6). unfold after_packet, codec_ok.
  destruct (is_chacha c) eqn:?; cbn; split_and!; try apply wrapping_add_range; try done; apply H6.
Qed.

(** The codec [k] packets later. *)
Definition codec_at (c : RtpCodec) (k : nat) : RtpCodec :=
  mkCodec (c_ssrc c) (c_sequence c +%u16 Z.of_nat k)
    (c_timestamp c +%u32 (Z.of_nat k * frames_per_packet c))
    (aes_key c) (aes_iv c) (chacha_key c) (encryption_mode c) (buffered_mode c)
    (if is_chacha c then nonce_counter c +%u64 Z.of_nat k else nonce_counter c) (frames_per_packet c).

Lemma codec_at_0 c : codec_ok c -> codec_at c 0 = c.
Proof.
  intros (H1 & H2 & H3 & H4 & _). unfold codec_at, wrapping_add. destruct c; cbn in *.
  rewrite !Z.add_0_r, !wrap_small by done. by destruct (is_chacha _).
Qed.

Lemma codec_at_S c k : codec_at (after_packet c) k = codec_at c (S k).
Proof.
  unfold after_packet, codec_at. destruct (is_chacha c) eqn:Hc; unfold is_chacha in *; cbn;
    rewrite ?Hc, !wrapping_add_assoc; f_equal; f_equal; lia.
Qed.

(** ** A run of packets *)
Definition pad_to (n : nat) (chunk : list Z) : list Z := chunk ++ replicate (n - length chunk) 0.

Lemma encode_chunks_spec n cs : (0 < n)%nat -> Z.of_nat n < 2 ^ 32 -> forall c, codec_ok c ->
  frame_size c = Z.of_nat n -> Forall (fun ch => (0 < length ch <= n)%nat) cs ->
  exists pkts, encode_chunks n c cs = (Ok pkts, codec_at c (length cs)) /\
    length pkts = length cs /\
    (forall k ch pkt, cs !! k = Some ch -> pkts !! k = Some pkt -> carries (codec_at c k) (pad_to n ch) pkt).
Proof.
  intros Hn Hn32. induction cs as [|ch cs IH]; intros c Hok Hf Hcs.
  { exists []. cbn. by rewrite codec_at_0. }
  inversion Hcs as [|? ? [Hl1 Hl2] Hcs']; subst.
  assert (length (pad_to n ch) = n) as Hp by (unfold pad_to; rewrite length_app, length_replicate; lia).
  destruct (encode_one c (pad_to n ch) [] Hok) as (pkt & He & Hcar); [by rewrite Hp|].
  destruct (IH (after_packet c)) as (pkts & Hr & Hlen & Hall);
    [by apply after_packet_ok | unfold after_packet; by case_match | done |].
  exists (pkt :: pkts). split_and!.
  - cbn [encode_chunks]. rewrite (proj2 (Nat.eqb_neq (length ch) 0)) by lia. cbn [negb].
    assert (encode_audio c (pad_to n ch) [] = (Ok tt, after_packet c, pkt)) as Hea.
    { unfold encode_audio. by rewrite Hp, Hf, Z.eqb_refl, He. }
    unfold pad_to in Hea. destruct (Nat.eqb_spec (length ch) n) as [Heq|Hne].
    + rewrite Heq, Nat.sub_diag, app_nil_r in Hea. rewrite Hea, Hr. cbn. by rewrite codec_at_S.
    + rewrite Hea, Hr. cbn. by rewrite codec_at_S.
  - cbn. by rewrite Hlen.
  - intros [|k] ch' pkt'; cbn; intros; simplify_eq.
    + by rewrite codec_at_0.
    + rewrite <- codec_at_S. by apply (Hall k).
Qed.

Lemma chunks_padded n l : (0 < n)%nat ->
  exists pad, (pad < n)%nat /\ concat (map (pad_to n) (chunks n l)) = l ++ replicate pad 0.
Proof.
  intros Hn. unfold chunks. cut (forall f l, (length l <= f)%nat -> exists pad, (pad < n)%nat /\
    concat (map (pad_to n) (chunks_fuel f n l)) = l ++ replicate pad 0); [intros H; by apply H|].
  clear l. induction f as [|f IH]; intros [|x l'] Hf; cbn [length] in Hf; try lia;
    cbn [chunks_fuel map concat]; try (exists 0%nat; split; [lia|done]).
  set (l := x :: l') in *. assert (length l <= S f)%nat as Hl by done. assert (0 < length l)%nat by (cbn; lia).
  destruct (Nat.le_gt_cases (length l) n) as [Hle|Hgt].
  - rewrite take_ge, drop_ge by lia. exists (n - length l)%nat. split; [lia|].
    replace (chunks_fuel f n []) with (@nil (list Z)) by by destruct f. cbn. by rewrite app_nil_r.
  - destruct (IH (drop n l)) as (pad & Hpad & ->); [rewrite length_drop; lia|].
    exists pad. split; [done|]. unfold pad_to. rewrite length_take, Nat.min_l, Nat.sub_diag by lia.
    cbn [replicate]. by rewrite app_nil_r, app_assoc, take_drop.
Qed.

Lemma length_concat_padded n (cs : list (list Z)) : Forall (fun ch => (0 < length ch <= n)%nat) cs ->
  length (concat (map (pad_to n) cs)) = (length cs * n)%nat.
Proof.
  induction 1 as [|ch cs [_ Hle] _ IH]; [done|]. cbn. rewrite length_app, IH. unfold pad_to.
  rewrite length_app, length_replicate. lia.
Qed.

Lemma frames_spec c pcm : codec_ok c -> 0 < frames_per_packet c < 2 ^ 30 ->
  let n := Z.to_nat (frame_size c) in
  let cs := chunks n pcm in
  (0 < n)%nat /\ Forall (fun ch => (0 < length ch <= n)%nat) cs /\
  exists pkts, encode_audio_frames c pcm = (Ok pkts, codec_at c (length cs)) /\
    length pkts = length cs /\
    (forall k ch pkt, cs !! k = Some ch -> pkts !! k = Some pkt -> carries (codec_at c k) (pad_to n ch) pkt).
Proof.
  intros Hok Hfpp n cs. assert (frame_size c = Z.of_nat n) as Hf by (unfold n, frame_size; lia).
  assert (0 < n)%nat as Hn by (unfold frame_size in Hf; lia).
  pose proof (chunks_bound n pcm Hn) as Hb. split_and!; [done|done|].
  unfold encode_audio_frames. fold n. rewrite (proj2 (Nat.eqb_neq n 0) (Nat.neq_sym _ _ (Nat.lt_neq _ _ Hn))).
  apply encode_chunks_spec; try done. unfold frame_size in Hf; lia.
Qed.

(** ** Properties *)

(** C7: encoding a payload always succeeds on a well-formed codec, in each of
    the three encryption modes, appends one packet to the output, and any codec
    configured with the same keys, mode and packet size decodes that packet to
    the header of the sender's state and the original payload, whatever its own
    sequence, timestamp or nonce state; the sender moves on by one sequence
    number and [frames_per_packet] timestamp ticks, wrapping. *)
Theorem codec_roundtrip (c r : RtpCodec) (data output : list Z)
  (Hok : codec_ok c) (Hlen : Z.of_nat (length data) < 2 ^ 32) (Hr : same_keys c r) :
  exists c' pkt, encode_arbitrary_payload c data output = (Ok tt, c', output ++ pkt) /\
    decode_audio r pkt = Ok (RtpPacket_audio (c_sequence c) (c_timestamp c) (c_ssrc c) data (buffered_mode c)) /\
    c_sequence c' = c_sequence c +%u16 1 /\ c_timestamp c' = c_timestamp c +%u32 frames_per_packet c /\
    codec_ok c'.
Proof.
  destruct (encode_one c data output Hok Hlen) as (pkt & -> & Hdec & _).
  exists (after_packet c), pkt. split_and!; [done|by apply Hdec| | |by apply after_packet_ok];
    unfold after_packet; by case_match.
Qed.

(** Packetising a PCM buffer loses nothing. [encode_audio_frames] returns
    packets that decode to consecutive sequence numbers and timestamps [k]
    packets apart, wrapping; their payloads all have the frame size and
    concatenate to the PCM data followed by less than one frame of zeros; the
    codec is left where the last packet ended. With a zero packet size it
    panics ([chunks(0)]). *)
Theorem frames_segmentation (c r : RtpCodec) (pcm : list Z)
  (Hok : codec_ok c) (Hfpp : 0 < frames_per_packet c < 2 ^ 30) (Hr : same_keys c r) :
  let n := Z.to_nat (frame_size c) in
  (exists pkts payloads pad,
    encode_audio_frames c pcm = (Ok pkts, codec_at c (length payloads)) /\
    map (decode_audio r) pkts =
      imap (fun k d => Ok (RtpPacket_audio (c_sequence c +%u16 Z.of_nat k)
        (c_timestamp c +%u32 (Z.of_nat k * frames_per_packet c)) (c_ssrc c) d (buffered_mode c))) payloads /\
    concat payloads = pcm ++ replicate pad 0 /\ (pad < n)%nat /\
    (length payloads * n = length pcm + pad)%nat) /\
  encode_audio_frames (set_frames_per_packet c 0) pcm = (Panic, set_frames_per_packet c 0).
Proof.
  intros n. split; [|done].
  destruct (frames_spec c pcm Hok Hfpp) as (Hn & Hb & pkts & He & Hlen & Hall). fold n in Hn, Hb, He, Hlen, Hall.
  destruct (chunks_padded n pcm Hn) as (pad & Hpad & Hcat).
  exists pkts, (map (pad_to n) (chunks n pcm)), pad. rewrite length_map. split_and!; [done| |done|done|].
  - apply list_eq. intros k. rewrite list_lookup_fmap, list_lookup_imap, list_lookup_fmap.
    destruct (pkts !! k) as [pkt|] eqn:Hk.
    + destruct (lookup_lt_is_Some_2 (chunks n pcm) k) as [ch Hch];
        [rewrite <- Hlen; by eapply lookup_lt_Some|].
      rewrite Hch. cbn. f_equal. by apply (Hall k ch pkt).
    + rewrite lookup_ge_None_2; [done|]. rewrite <- Hlen. by apply lookup_ge_None.
  - rewrite <- (length_concat_padded n) by done. by rewrite Hcat, length_app, length_replicate.
Qed.

(** Nonce use. In ChaCha mode the packets of one run carry pairwise
    distinct nonces as long as fewer than [2 ^ 64] are sent; but [reset] goes
    back to nonce 0 under the same key, so the first packet after a reset
    carries the same nonce as the first packet of a fresh run: two different
    payloads sealed under one key and nonce. *)
Theorem nonce_use (c : RtpCodec) (pcm data : list Z) (Hok : codec_ok c)
  (Hfpp : 0 < frames_per_packet c < 2 ^ 30) (Hmode : encryption_mode c = ModeChaCha20Poly1305)
  (Hpcm : Z.of_nat (length pcm) < 2 ^ 64) (Hdata : Z.of_nat (length data) < 2 ^ 32) :
  (exists pkts c', encode_audio_frames c pcm = (Ok pkts, c') /\ NoDup (map wire_nonce pkts)) /\
  chacha_key (reset c) = chacha_key c /\
  exists pkt, encode_arbitrary_payload (reset c) data [] = (Ok tt, after_packet (reset c), pkt) /\
    wire_nonce pkt = to_le 8 0.
Proof.
  assert (is_chacha c = true) as Hc by (unfold is_chacha; by rewrite Hmode). split_and!; [|done|].
  - destruct (frames_spec c pcm Hok Hfpp) as (Hn & Hb & pkts & He & Hlen & Hall).
    set (n := Z.to_nat (frame_size c)) in *.
    exists pkts, (codec_at c (length (chunks n pcm))). split; [done|].
    assert (length pkts <= length pcm)%nat as Hcount.
    { rewrite Hlen. pose proof (chunks_concat n pcm Hn) as Hcat.
      apply (f_equal length) in Hcat. rewrite <- Hcat. clear -Hb.
      induction Hb; cbn; rewrite ?length_app; lia. }
    apply NoDup_alt. intros i j x Hi Hj.
    assert (forall k, map wire_nonce pkts !! k = Some x ->
      (k < length pkts)%nat /\ x = to_le 8 (nonce_counter c +%u64 Z.of_nat k)) as Hx.
    { intros k Hk. rewrite list_lookup_fmap in Hk. destruct (pkts !! k) as [pkt|] eqn:Hp; [|done].
      apply lookup_lt_Some in Hp as Hlt. split; [done|].
      destruct (lookup_lt_is_Some_2 (chunks n pcm) k) as [ch Hch]; [by rewrite <- Hlen|].
      destruct (Hall k ch pkt Hch Hp) as [_ Hw]. cbn in Hk. injection Hk as <-.
      rewrite Hw; [|done]. cbn. by rewrite Hc. }
    apply Hx in Hi as [Hi ->]. apply Hx in Hj as [Hj He']. clear -Hcount Hi Hj He' Hpcm.
    apply to_le_inj in He'; try (by apply (wrapping_add_range 64)).
    apply wrapping_add_inj in He'; unfold uint; lia.
  - destruct (encode_one (reset c) data []) as (pkt & He & _ & Hw).
    + unfold codec_ok, uint in *; cbn. destruct_and! Hok. split_and!; done || lia.
    + done.
    + exists pkt. split; [done|]. apply Hw. unfold is_chacha. cbn. by rewrite Hmode.
Qed.

End WithCiphers.

(** ** Witnesses *)
Import ToyAead.
#[local] Existing Instance AesCtr.toy_block.
#[local] Existing Instance AesCtr.toy_block_laws.

(** A ChaCha codec two packets before both counters wrap. *)
Definition demo_codec : RtpCodec :=
  mkCodec 7 65534 4294967294 None None (Some (replicate 32 9)) ModeChaCha20Poly1305 true 41 2.

Lemma demo_codec_ok : codec_ok demo_codec.
Proof.
  unfold codec_ok, uint, demo_codec, opt_len; cbn. split_and!; try lia; try done.
  by intros k [= <-].
Qed.

Lemma codec_roundtrip_witness :
  exists c' pkt, encode_arbitrary_payload demo_codec [1; 2; 3] [] = (Ok tt, c', [] ++ pkt) /\
    decode_audio demo_codec pkt = Ok (RtpPacket_audio 65534 4294967294 7 [1; 2; 3] true).
Proof.
  destruct (codec_roundtrip demo_codec demo_codec [1; 2; 3] []) as (c' & pkt & He & Hd & _).
  - apply demo_codec_ok.
  - vm_compute; reflexivity.
  - by split_and!.
  - exists c', pkt. split; [exact He | exact Hd].
Defined.

Lemma frames_segmentation_witness :
  exists pkts payloads pad,
    encode_audio_frames demo_codec (seqZ 0 20) = (Ok pkts, codec_at demo_codec (length payloads)) /\
    length payloads = 3%nat /\ concat payloads = seqZ 0 20 ++ replicate pad 0.
Proof.
  destruct (frames_segmentation demo_codec demo_codec (seqZ 0 20)) as [(pkts & ps & pad & He & _ & Hc & Hp & Hl) _].
  - apply demo_codec_ok.
  - cbn; lia.
  - by split_and!.
  - exists pkts, ps, pad. split_and!; [exact He| |exact Hc].
    change (Z.to_nat (frame_size demo_codec)) with 8%nat in *.
    change (length (seqZ 0 20)) with 20%nat in Hl. lia.
Defined.

Lemma nonce_use_witness :
  exists pkts c', encode_audio_frames demo_codec (seqZ 0 20) = (Ok pkts, c') /\ NoDup (map wire_nonce pkts).
Proof.
  refine (proj1 (nonce_use demo_codec (seqZ 0 20) [1] demo_codec_ok _ _ _ _)).
  - cbn; lia.
  - reflexivity.
  - vm_compute; reflexivity.
  - vm_compute; reflexivity.
Defined.

End RtpCodec.
