(* ===== verification/EncryptedChannel.v ===== *)
(** * Encrypted control channel

    Models [src/receiver/ap2/encrypted_channel.rs]: HAP framing of the RTSP
    control connection after pairing, [encrypt], [feed], [decrypt],
    [decrypt_all], [enable] and [disable].  The specification is a reliable
    message stream: however the bytes written by one end are cut into reads at
    the other end, the messages come out complete, in order and once. *)

From S2P Require Import Bytes Aead.
Import Aead.

Module EncryptedChannel.

Definition MAX_FRAME_SIZE : nat := Z.to_nat 65535.
Definition TAG_SIZE : nat := 16.
Definition LENGTH_SIZE : nat := 2.

Inductive EncryptionError :=
| MessageTooLarge (size max : Z)
| InvalidFrameLength (n : Z)
| EncryptionFailed
| DecryptionFailed.

Record EncryptedChannel := mkChannel {
  encrypt_key : list Z;
  decrypt_key : list Z;
  encrypt_nonce : Z;
  decrypt_nonce : Z;
  input_buffer : list Z;
  enabled : bool
}.

Definition Channel_new (ek dk : list Z) : EncryptedChannel := mkChannel ek dk 0 0 [] true.
Definition Channel_disabled : EncryptedChannel :=
  mkChannel (replicate 32 0) (replicate 32 0) 0 0 [] false.
Definition Channel_enable (c : EncryptedChannel) (ek dk : list Z) : EncryptedChannel :=
  mkChannel ek dk 0 0 [] true.
Definition Channel_disable (c : EncryptedChannel) : EncryptedChannel :=
  mkChannel (encrypt_key c) (decrypt_key c) (encrypt_nonce c) (decrypt_nonce c) [] false.
Definition Channel_clear (c : EncryptedChannel) : EncryptedChannel :=
  mkChannel (encrypt_key c) (decrypt_key c) (encrypt_nonce c) (decrypt_nonce c) [] (enabled c).
Definition feed (c : EncryptedChannel) (data : list Z) : EncryptedChannel :=
  mkChannel (encrypt_key c) (decrypt_key c) (encrypt_nonce c) (decrypt_nonce c)
    (input_buffer c ++ data) (enabled c).

Definition set_encrypt_nonce (c : EncryptedChannel) (n : Z) : EncryptedChannel :=
  mkChannel (encrypt_key c) (decrypt_key c) n (decrypt_nonce c) (input_buffer c) (enabled c).
Definition set_decrypt_nonce (c : EncryptedChannel) (n : Z) : EncryptedChannel :=
  mkChannel (encrypt_key c) (decrypt_key c) (encrypt_nonce c) n (input_buffer c) (enabled c).
Definition set_input_buffer (c : EncryptedChannel) (b : list Z) : EncryptedChannel :=
  mkChannel (encrypt_key c) (decrypt_key c) (encrypt_nonce c) (decrypt_nonce c) b (enabled c).

Section WithAead.
Context {A : AeadCipher}.

(** The nonce is advanced before the cipher can fail; [+= 1] is checked. *)
Definition encrypt (c : EncryptedChannel) (plaintext : list Z)
  : outcome EncryptionError (list Z) * EncryptedChannel :=
  if negb (enabled c) then (Ok plaintext, c)
  else if (MAX_FRAME_SIZE <? length plaintext)%nat
  then (Err (MessageTooLarge (Z.of_nat (length plaintext)) (Z.of_nat MAX_FRAME_SIZE)), c)
  else
    let nonce := Nonce_from_counter (encrypt_nonce c) in
    match chk_u (E := EncryptionError) 64 (encrypt_nonce c + 1) with
    | Ok n =>
        (cipher ← map_err (fun _ => EncryptionFailed) (Cipher_new (encrypt_key c));
         ciphertext ← map_err (fun _ => EncryptionFailed) (Cipher_encrypt cipher nonce plaintext);
         Ok (to_le 2 (Z.of_nat (length plaintext)) ++ ciphertext),
         set_encrypt_nonce c n)
    | _ => (Panic, c)
    end.

Definition decrypt (c : EncryptedChannel)
  : outcome EncryptionError (option (list Z)) * EncryptedChannel :=
  let buf := input_buffer c in
  if negb (enabled c) then
    if (length buf =? 0)%nat then (Ok None, c) else (Ok (Some buf), set_input_buffer c [])
  else if (length buf <? LENGTH_SIZE)%nat then (Ok None, c)
  else
    let plaintext_len := Z.to_nat (from_le (take 2 buf)) in
    if (MAX_FRAME_SIZE <? plaintext_len)%nat
    then (Err (InvalidFrameLength (Z.of_nat plaintext_len)), c)
    else if (length buf <? LENGTH_SIZE + plaintext_len + TAG_SIZE)%nat then (Ok None, c)
    else
      let ciphertext := take (plaintext_len + TAG_SIZE) (drop 2 buf) in
      let c1 := set_input_buffer c (drop (plaintext_len + TAG_SIZE) (drop 2 buf)) in
      let nonce := Nonce_from_counter (decrypt_nonce c) in
      match chk_u (E := EncryptionError) 64 (decrypt_nonce c + 1) with
      | Ok n =>
          (cipher ← map_err (fun _ => DecryptionFailed) (Cipher_new (decrypt_key c));
           plaintext ← map_err (fun _ => DecryptionFailed) (Cipher_decrypt cipher nonce ciphertext);
           Ok (Some plaintext),
           set_decrypt_nonce c1 n)
      | _ => (Panic, c1)
      end.

(** [while let Some(frame) = self.decrypt()?]; [None] is "out of fuel". *)
Fixpoint decrypt_all_fuel (fuel : nat) (c : EncryptedChannel)
  : option (outcome EncryptionError (list (list Z)) * EncryptedChannel) :=
  match fuel with
  | O => None
  | S fuel =>
      match decrypt c with
      | (Ok (Some frame), c') =>
          match decrypt_all_fuel fuel c' with
          | Some (rest, c'') => Some (cons frame <$> rest, c'')
          | None => None
          end
      | (Ok None, c') => Some (Ok [], c')
      | (Err e, c') => Some (Err e, c')
      | (Panic, c') => Some (Panic, c')
      end
  end.

(** Every iteration consumes at least one buffered byte, so one unit of fuel
    more than there are bytes is enough ([decrypt_all_total]). *)
Definition decrypt_all (c : EncryptedChannel) : outcome EncryptionError (list (list Z)) * EncryptedChannel :=
  default (Panic, c) (decrypt_all_fuel (S (length (input_buffer c))) c).

(** ** The two ends of a connection *)

(** The sender encrypts the messages in order and writes the frames. *)
Fixpoint send_all (c : EncryptedChannel) (msgs : list (list Z))
  : outcome EncryptionError (list Z) * EncryptedChannel :=
  match msgs with
  | [] => (Ok [], c)
  | m :: msgs =>
      match encrypt c m with
      | (Ok f, c') => let '(rest, c'') := send_all c' msgs in (app f <$> rest, c'')
      | (Err e, c') => (Err e, c')
      | (Panic, c') => (Panic, c')
      end
  end.

(** The receiver handles each read with [feed] and [decrypt_all]. *)
Fixpoint receive_all (c : EncryptedChannel) (reads : list (list Z))
  : outcome EncryptionError (list (list Z)) * EncryptedChannel :=
  match reads with
  | [] => (Ok [], c)
  | r :: reads =>
      match decrypt_all (feed c r) with
      | (Ok ms, c') => let '(rest, c'') := receive_all c' reads in (app ms <$> rest, c'')
      | (Err e, c') => (Err e, c')
      | (Panic, c') => (Panic, c')
      end
  end.

(** ** Lemmas *)
Lemma decrypt_consumes c m c' : decrypt c = (Ok (Some m), c') ->
  (length (input_buffer c') < length (input_buffer c))%nat.
Proof.
  unfold decrypt. intros H. repeat case_match; simplify_eq; bool_to_prop; cbn [input_buffer set_input_buffer set_decrypt_nonce length];
    rewrite ?length_drop; unfold LENGTH_SIZE, TAG_SIZE in *; lia.
Qed.

Lemma decrypt_all_fuel_total f : forall c, (length (input_buffer c) < f)%nat ->
  exists r, forall g, (f <= g)%nat -> decrypt_all_fuel g c = Some r.
Proof.
  induction f as [|f IH]; intros c Hf; [lia|].
  destruct (decrypt c) as [[[m|]|e|] c'] eqn:Hd.
  - apply decrypt_consumes in Hd as Hlt. destruct (IH c') as [[r c''] Hr]; [lia|].
    exists (cons m <$> r, c''). intros [|g] Hg; [lia|]. cbn. rewrite Hd, Hr by lia. done.
  - exists (Ok [], c'). intros [|g] Hg; [lia|]. cbn. by rewrite Hd.
  - exists (Err e, c'). intros [|g] Hg; [lia|]. cbn. by rewrite Hd.
  - exists (Panic, c'). intros [|g] Hg; [lia|]. cbn. by rewrite Hd.
Qed.

(** The fuel is immaterial: [decrypt_all] satisfies the loop's equation. *)
Lemma decrypt_all_eq c : decrypt_all c =
  match decrypt c with
  | (Ok (Some frame), c') => let '(rest, c'') := decrypt_all c' in (cons frame <$> rest, c'')
  | (Ok None, c') => (Ok [], c')
  | (Err e, c') => (Err e, c')
  | (Panic, c') => (Panic, c')
  end.
Proof.
  unfold decrypt_all at 1. cbn [decrypt_all_fuel].
  destruct (decrypt c) as [[[m|]|e|] c'] eqn:Hd; try done.
  apply decrypt_consumes in Hd as Hlt. unfold decrypt_all.
  destruct (decrypt_all_fuel_total (S (length (input_buffer c'))) c') as [[r c''] Hr]; [lia|].
  by rewrite !Hr by lia.
Qed.

Context {AL : AeadLaws A}.

(** The frame of one message. *)
Definition frame_of (key : list Z) (n : Z) (m f : list Z) : Prop :=
  exists c, aead_seal key (Nonce_from_counter n) [] m = Some c /\
    f = to_le 2 (Z.of_nat (length m)) ++ c.

(** The byte stream of a list of messages starting at nonce [n]. *)
Fixpoint wire (key : list Z) (n : Z) (msgs : list (list Z)) (w : list Z) : Prop :=
  match msgs with
  | [] => w = []
  | m :: msgs => exists f w', frame_of key n m f /\ wire key (n + 1) msgs w' /\ w = f ++ w'
  end.

Lemma length_frame key n m f : frame_of key n m f -> length f = (length m + 18)%nat.
Proof.
  intros (c & Hc & ->). apply aead_seal_length in Hc. rewrite length_app, length_to_le. lia.
Qed.

Lemma frame_exists key n m : (length m <= MAX_FRAME_SIZE)%nat -> exists f, frame_of key n m f.
Proof.
  intros Hm. destruct (aead_seal_total key (Nonce_from_counter n) [] m) as [c Hc];
    [unfold MAX_FRAME_SIZE in Hm; lia|]. eexists. by exists c.
Qed.

Lemma encrypt_frame c m : enabled c = true -> length (encrypt_key c) = 32%nat ->
  (length m <= MAX_FRAME_SIZE)%nat -> uint 64 (encrypt_nonce c + 1) ->
  exists f, encrypt c m = (Ok f, set_encrypt_nonce c (encrypt_nonce c + 1)) /\
    frame_of (encrypt_key c) (encrypt_nonce c) m f.
Proof.
  intros He Hk Hm Hn. destruct (frame_exists (encrypt_key c) (encrypt_nonce c) m Hm) as (f & Hf).
  exists f. split; [|done]. destruct Hf as (ct & Hct & ->). unfold encrypt.
  rewrite He, (proj2 (Nat.ltb_ge _ _)) by done. cbn [negb].
  rewrite chk_u_ok, Cipher_new_ok by done. cbn [map_err mbind outcome_bind]. unfold Cipher_encrypt. by rewrite Hct.
Qed.

Lemma send_all_wire msgs : forall c, enabled c = true -> length (encrypt_key c) = 32%nat ->
  Forall (fun m => (length m <= MAX_FRAME_SIZE)%nat) msgs ->
  0 <= encrypt_nonce c -> encrypt_nonce c + Z.of_nat (length msgs) < 2 ^ 64 ->
  exists w, send_all c msgs = (Ok w, set_encrypt_nonce c (encrypt_nonce c + Z.of_nat (length msgs))) /\
    wire (encrypt_key c) (encrypt_nonce c) msgs w.
Proof.
  induction msgs as [|m msgs IH]; intros c He Hk Hm Hn1 Hn2.
  { exists []. cbn. rewrite Z.add_0_r. by destruct c. }
  inversion Hm; subst. cbn [length] in Hn2.
  destruct (encrypt_frame c m) as (f & Hf & Hfr); [done|done|done|unfold uint; lia|].
  destruct (IH (set_encrypt_nonce c (encrypt_nonce c + 1))) as (w & Hw & Hwire); try done; cbn [set_encrypt_nonce encrypt_nonce]; try lia.
  exists (f ++ w). cbn [send_all]. rewrite Hf, Hw. split.
  - cbn. unfold set_encrypt_nonce. cbn. do 2 f_equal. lia.
  - exists f, w. by split_and!.
Qed.

Lemma from_le_length_prefix (m rest : list Z) : (length m <= MAX_FRAME_SIZE)%nat ->
  Z.to_nat (from_le (take 2 (to_le 2 (Z.of_nat (length m)) ++ rest))) = length m.
Proof.
  intros Hm. rewrite take_app_length' by (by rewrite length_to_le).
  rewrite from_le_to_le, Z.mod_small; unfold MAX_FRAME_SIZE in *; lia.
Qed.

(** One step of the receiver on a buffer that is a prefix of the stream. *)
Lemma decrypt_wire_step c (m : list Z) msgs w0 w :
  enabled c = true -> length (decrypt_key c) = 32%nat -> (length m <= MAX_FRAME_SIZE)%nat ->
  uint 64 (decrypt_nonce c + 1) ->
  wire (decrypt_key c) (decrypt_nonce c) (m :: msgs) w0 -> input_buffer c ++ w = w0 ->
  if (length (input_buffer c) <? length m + 18)%nat then decrypt c = (Ok None, c)
  else exists b', decrypt c = (Ok (Some m), set_decrypt_nonce (set_input_buffer c b') (decrypt_nonce c + 1)) /\
    wire (decrypt_key c) (decrypt_nonce c + 1) msgs (b' ++ w) /\
    length (input_buffer c) = (length b' + (length m + 18))%nat.
Proof.
  intros He Hk Hm Hn (f & w' & Hf & Hw' & ->) Hb. apply length_frame in Hf as Hlf.
  destruct Hf as (ct & Hct & ->). apply aead_seal_length in Hct as Hlc. apply aead_seal_open in Hct.
  unfold decrypt. cbv zeta. rewrite He. cbn [negb]. unfold LENGTH_SIZE, TAG_SIZE.
  set (buf := input_buffer c) in *. clearbody buf.
  destruct (Nat.ltb_spec (length buf) (length m + 18)) as [Hs|Hs].
  - destruct (Nat.ltb_spec (length buf) 2) as [|H2]; [done|].
    assert (take 2 buf = take 2 (to_le 2 (Z.of_nat (length m)) ++ (ct ++ w'))) as ->.
    { rewrite app_assoc, <- Hb, take_app_le by done. done. }
    rewrite from_le_length_prefix by done.
    rewrite (proj2 (Nat.ltb_ge _ _)), (proj2 (Nat.ltb_lt _ _)) by lia. done.
  - rewrite (proj2 (Nat.ltb_ge _ 2)) by lia.
    assert (take (length m + 18) buf = to_le 2 (Z.of_nat (length m)) ++ ct) as Hfr.
    { rewrite <- (take_app_le buf w) by done. by rewrite Hb, take_app_length' by lia. }
    set (b' := drop (length m + 18) buf).
    assert (buf = (to_le 2 (Z.of_nat (length m)) ++ ct) ++ b') as Hbuf by (unfold b'; by rewrite <- Hfr, take_drop). clearbody b'.
    assert (Z.to_nat (from_le (take 2 buf)) = length m) as -> by (by rewrite Hbuf, <- app_assoc, from_le_length_prefix).
    rewrite !(proj2 (Nat.ltb_ge _ _)) by lia.
    rewrite chk_u_ok, Cipher_new_ok by done. cbn [map_err mbind outcome_bind].
    assert (drop 2 buf = ct ++ b') as ->.
    { by rewrite Hbuf, <- app_assoc, drop_app_length' by (by rewrite length_to_le). }
    rewrite take_app_length', drop_app_length' by lia.
    unfold Cipher_decrypt. rewrite Hct. exists b'. split_and!; [done| |].
    + rewrite Hbuf, <- !app_assoc in Hb. rewrite !(app_assoc (to_le 2 _)) in Hb.
      apply app_inv_head in Hb. by rewrite Hb.
    + rewrite Hbuf, !length_app, length_to_le. lia.
Qed.

(** The position of the receiver in the stream: [msgs] are still to come. *)
Definition expects (c : EncryptedChannel) (msgs : list (list Z)) (w : list Z) : Prop :=
  enabled c = true /\ length (decrypt_key c) = 32%nat /\
  Forall (fun m => (length m <= MAX_FRAME_SIZE)%nat) msgs /\
  0 <= decrypt_nonce c /\ decrypt_nonce c + Z.of_nat (length msgs) < 2 ^ 64 /\
  wire (decrypt_key c) (decrypt_nonce c) msgs (input_buffer c ++ w).

(** No complete frame is left in the buffer. *)
Definition drained (c : EncryptedChannel) (msgs : list (list Z)) : Prop :=
  match msgs with
  | [] => input_buffer c = []
  | m :: _ => (length (input_buffer c) < length m + 18)%nat
  end.

Lemma decrypt_all_expects msgs : forall c w, expects c msgs w ->
  exists k c', decrypt_all c = (Ok (take k msgs), c') /\ (k <= length msgs)%nat /\
    expects c' (drop k msgs) w /\ drained c' (drop k msgs) /\
    decrypt_nonce c' = decrypt_nonce c + Z.of_nat k.
Proof.
  induction msgs as [|m msgs IH]; intros c w Hex;
    pose proof Hex as (He & Hk & Hm & Hn1 & Hn2 & Hw).
  - cbn in Hw. apply app_eq_nil in Hw as [Hb ->]. exists 0%nat, c. rewrite decrypt_all_eq.
    unfold decrypt. rewrite He, Hb. split_and!; done || lia.
  - inversion Hm as [|? ? Hm1 Hm2]; subst. cbn [length] in Hn2.
    pose proof (decrypt_wire_step c m msgs _ w He Hk Hm1 ltac:(unfold uint; lia) Hw eq_refl) as Hstep.
    rewrite decrypt_all_eq.
    destruct (Nat.ltb_spec (length (input_buffer c)) (length m + 18)) as [Hs|Hs].
    + rewrite Hstep. exists 0%nat, c. split_and!; done || lia.
    + destruct Hstep as (b' & -> & Hw' & _).
      destruct (IH (set_decrypt_nonce (set_input_buffer c b') (decrypt_nonce c + 1)) w) as (k & c' & -> & Hle & Hex' & Hdr & Hnk).
      { split_and!; cbn; try done; lia. }
      exists (S k), c'. cbn in Hnk. split_and!; [done|cbn; lia|done|done|lia].
Qed.

Lemma feed_expects c msgs r w : expects c msgs (r ++ w) -> expects (feed c r) msgs w.
Proof.
  intros (He & Hk & Hm & Hn1 & Hn2 & Hw). split_and!; try done. cbn. by rewrite <- app_assoc.
Qed.

Lemma receive_all_expects reads : forall c msgs w, expects c msgs (concat reads ++ w) -> drained c msgs ->
  exists k c', receive_all c reads = (Ok (take k msgs), c') /\ (k <= length msgs)%nat /\
    expects c' (drop k msgs) w /\ drained c' (drop k msgs) /\
    decrypt_nonce c' = decrypt_nonce c + Z.of_nat k.
Proof.
  induction reads as [|r reads IH]; intros c msgs w Hex Hdr.
  { exists 0%nat, c. split_and!; done || lia. }
  cbn [concat] in Hex. rewrite <- app_assoc in Hex. apply feed_expects in Hex.
  destruct (decrypt_all_expects msgs _ _ Hex) as (k & c1 & H1 & Hk & Hex1 & Hdr1 & Hn1).
  destruct (IH c1 _ w Hex1 Hdr1) as (j & c2 & H2 & Hj & Hex2 & Hdr2 & Hn2).
  exists (k + j)%nat, c2. rewrite drop_drop in Hex2, Hdr2. rewrite length_drop in Hj.
  cbn in Hn1. split_and!; [|lia|done|done|lia]. cbn [receive_all]. rewrite H1, H2. cbn [fmap outcome_fmap].
  by rewrite take_take_drop.
Qed.

(** Bytes on the wire of a list of messages. *)
Definition wire_size (msgs : list (list Z)) : nat := sum_list (map (fun m => (length m + 18)%nat) msgs).

Lemma wire_size_app m1 m2 : wire_size (m1 ++ m2) = (wire_size m1 + wire_size m2)%nat.
Proof. unfold wire_size. rewrite map_app. induction m1; cbn in *; lia. Qed.

Lemma length_wire key msgs : forall n w, wire key n msgs w -> length w = wire_size msgs.
Proof.
  induction msgs as [|m msgs IH]; intros n w; cbn; [by intros ->|].
  intros (f & w' & Hf & Hw & ->). apply length_frame in Hf. apply IH in Hw. rewrite length_app.
  unfold wire_size in Hw. lia.
Qed.

Lemma wire_size_take_mono j k msgs : (j <= k)%nat -> (wire_size (take j msgs) <= wire_size (take k msgs))%nat.
Proof.
  intros H. replace k with (j + (k - j))%nat by lia. rewrite <- take_take_drop, wire_size_app. lia.
Qed.

(** A receiver that has read all but [later] of the stream and delivered [k]
    messages could not have delivered more. *)
Lemma drained_maximal c k msgs later n : expects c (drop k msgs) later -> drained c (drop k msgs) ->
  (wire_size msgs = n + length later)%nat -> (k <= length msgs)%nat ->
  (forall j, (j <= length msgs)%nat -> (wire_size (take j msgs) <= n)%nat -> (j <= k)%nat) /\
  (later = [] -> k = length msgs /\ input_buffer c = []).
Proof.
  intros (_ & _ & _ & _ & _ & Hw) Hdr Hn Hk. apply length_wire in Hw. rewrite length_app in Hw.
  rewrite <- (take_drop k msgs), wire_size_app in Hn.
  destruct (drop k msgs) as [|m rest] eqn:Hd.
  - assert (length (drop k msgs) = 0%nat) as Hl by by rewrite Hd. rewrite length_drop in Hl.
    split; [intros; lia|]. intros _. split; [lia|done].
  - assert (take (S k) msgs = take k msgs ++ [m]) as HS.
    { replace (S k) with (k + 1)%nat by lia. by rewrite <- take_take_drop, Hd. }
    cbn in Hdr, Hw, Hn. fold (wire_size rest) in Hw, Hn. split.
    + intros j Hj Hs. destruct (Nat.le_gt_cases j k) as [|Hgt]; [done|]. exfalso.
      pose proof (wire_size_take_mono (S k) j msgs ltac:(lia)) as Hmono.
      rewrite HS, wire_size_app in Hmono. cbn in Hmono. lia.
    + intros ->. cbn in *. lia.
Qed.

(** ** Properties *)

(** C3: the channel is a reliable message stream. Two ends with matching keys
    and nonce counters agree for any list of messages that fit a frame: sending
    succeeds, and however the bytes written are cut into reads, and wherever
    the reads stop, the receiver has delivered exactly a prefix of the
    messages, complete and in order, with its nonce in step; the prefix holds
    every message whose frame has arrived in full; and when all bytes have
    arrived all messages are delivered and nothing is left in the buffer. *)
Theorem channel_delivery (s r : EncryptedChannel) (msgs : list (list Z))
  (Hs : enabled s = true) (Hr : enabled r = true) (Hkey : encrypt_key s = decrypt_key r)
  (Hlen : length (encrypt_key s) = 32%nat) (Hnonce : encrypt_nonce s = decrypt_nonce r)
  (Hbuf : input_buffer r = []) (Hm : Forall (fun m => (length m <= MAX_FRAME_SIZE)%nat) msgs)
  (Hn : 0 <= encrypt_nonce s) (Hover : encrypt_nonce s + Z.of_nat (length msgs) < 2 ^ 64) :
  exists w s', send_all s msgs = (Ok w, s') /\
  forall reads later, concat reads ++ later = w ->
  exists k r', receive_all r reads = (Ok (take k msgs), r') /\
    (k <= length msgs)%nat /\ decrypt_nonce r' = decrypt_nonce r + Z.of_nat k /\
    (forall j, (j <= length msgs)%nat -> (wire_size (take j msgs) <= length (concat reads))%nat -> (j <= k)%nat) /\
    (later = [] -> k = length msgs /\ input_buffer r' = [] /\ decrypt_nonce r' = encrypt_nonce s').
Proof.
  destruct (send_all_wire msgs s) as (w & Hsend & Hw); try done.
  exists w. eexists. split; [done|]. intros reads later Hcat.
  destruct (receive_all_expects reads r msgs later) as (k & r' & Hrec & Hk & Hex & Hdr & Hnk).
  - split_and!; try done; try lia; [by rewrite <- Hkey|]. by rewrite Hbuf, Hcat, <- Hkey, <- Hnonce.
  - unfold drained. rewrite Hbuf. destruct msgs; [done|cbn; lia].
  - apply length_wire in Hw. rewrite <- Hcat, length_app in Hw.
    destruct (drained_maximal r' k msgs later (length (concat reads))) as [Hmax Hall]; try done.
    exists k, r'. split_and!; try done. intros [-> Hb]%Hall. split_and!; [done..|].
    cbn. by rewrite Hnk, Hnonce.
Qed.

(** [decrypt] is exact and cannot be made to panic by the peer. On any
    buffered bytes it either waits, leaving the channel untouched, when the
    frame announced by the length prefix is incomplete, or it removes exactly
    that frame, advances the nonce by one and returns the opened message or
    [DecryptionFailed]; the [InvalidFrameLength] branch is dead; and
    [decrypt_all] terminates, its result independent of the fuel. *)
Theorem decrypt_exact (c : EncryptedChannel) (Hb : bytes_ok (input_buffer c))
  (He : enabled c = true) (Hk : length (decrypt_key c) = 32%nat)
  (Hn : 0 <= decrypt_nonce c < 2 ^ 64 - 1) :
  let buf := input_buffer c in
  let n := Z.to_nat (from_le (take 2 buf)) in
  decrypt c =
    (if (length buf <? 2)%nat || (length buf <? 2 + n + 16)%nat then (Ok None, c)
     else (match aead_open (decrypt_key c) (Nonce_from_counter (decrypt_nonce c)) [] (take (n + 16) (drop 2 buf)) with
           | Some m => Ok (Some m)
           | None => Err DecryptionFailed
           end,
           set_decrypt_nonce (set_input_buffer c (drop (2 + n + 16) buf)) (decrypt_nonce c + 1))) /\
  (forall fuel, (length buf < fuel)%nat -> decrypt_all_fuel fuel c = Some (decrypt_all c)).
Proof.
  intros buf n. split.
  - unfold decrypt. fold buf. rewrite He. cbn [negb]. unfold LENGTH_SIZE, TAG_SIZE.
    destruct (Nat.ltb_spec (length buf) 2) as [|H2]; [done|]. fold n. cbn [orb].
    assert (from_le (take 2 buf) < 256 ^ 2) as Hlt.
    { unfold from_le. pose proof (from_be_range (reverse (take 2 buf))) as Hr.
      rewrite length_reverse, length_take, Nat.min_l in Hr by done. apply Hr.
      apply Forall_reverse, Forall_take, Hb. }
    rewrite (proj2 (Nat.ltb_ge MAX_FRAME_SIZE n)) by (unfold MAX_FRAME_SIZE, n; lia).
    destruct (length buf <? 2 + n + 16)%nat; [done|].
    rewrite chk_u_ok, Cipher_new_ok by (done || unfold uint; lia). cbn [map_err mbind outcome_bind].
    rewrite drop_drop, Nat.add_assoc. unfold Cipher_decrypt. by destruct (aead_open _ _ _ _).
  - intros fuel Hf. unfold decrypt_all. fold buf.
    destruct (decrypt_all_fuel_total (S (length buf)) c) as [res Hres]; [fold buf; lia|].
    by rewrite !Hres by lia.
Qed.

End WithAead.

(** ** Witnesses *)
Import ToyAead.

Definition demo_key : list Z := seqZ 0 32.
Definition demo_msgs : list (list Z) := [[1; 2; 3]; []; [4]].

Lemma channel_delivery_witness :
  exists w s', send_all (Channel_new demo_key []) demo_msgs = (Ok w, s') /\
  exists k r', receive_all (Channel_new [] demo_key) [take 1 w; take 30 (drop 1 w); drop 31 w] = (Ok (take k demo_msgs), r') /\
    k = 3%nat.
Proof.
  destruct (channel_delivery (Channel_new demo_key []) (Channel_new [] demo_key) demo_msgs)
    as (w & s' & Hsend & Hrec); try reflexivity.
  - unfold demo_msgs, MAX_FRAME_SIZE. repeat apply Forall_cons_2; [cbn [length]; lia..|]. apply Forall_nil_2.
  - exists w, s'. split; [exact Hsend|].
    destruct (Hrec [take 1 w; take 30 (drop 1 w); drop 31 w] []) as (k & r' & Hr & _ & _ & _ & Hall).
    { cbn [concat]. rewrite !app_nil_r. change 31%nat with (1 + 30)%nat. by rewrite take_drop_split, take_drop. }
    exists k, r'. split; [exact Hr | exact (proj1 (Hall eq_refl))].
Defined.

Lemma decrypt_exact_witness :
  let c := feed (Channel_new [] demo_key) ([1; 0; 7] ++ replicate 16 1 ++ [9]) in
  decrypt c = (Err DecryptionFailed, set_decrypt_nonce (set_input_buffer c [9]) 1).
Proof.
  intros c. rewrite (proj1 (decrypt_exact c ltac:(repeat constructor; lia) eq_refl eq_refl ltac:(cbn; lia))).
  vm_compute. reflexivity.
Defined.

End EncryptedChannel.
