(* ===== verification/Srp.v ===== *)
(** * SRP-6a

    Models [src/protocol/crypto/srp.rs]: both ends of the key exchange behind
    pair-setup.  A [BigUint] is a non-negative [Z]; [modpow] is fast modular
    exponentiation; the random exponent of each side is an argument.  SHA-512
    (the [sha2] crate) is a parameter of which only the output format is
    assumed.  The main theorem is the functional correctness of the exchange:
    a client and a server that share the password accept each other's proofs
    and hold the same session key. *)

From Stdlib Require Import Zpow_facts.
From S2P Require Import Text AesCtr.
Import AesCtr(CryptoError, SrpError).

(** SHA-512: 64 bytes of output. *)
Class Sha512 := sha512 : list Z -> list Z.
Class Sha512Laws (S : Sha512) := {
  sha512_length : forall m, length (sha512 m) = 64%nat;
  sha512_bytes : forall m, bytes_ok (sha512 m)
}.

Module Srp.

(** ** Big integers *)
Definition num_bytes (z : Z) : nat := Z.to_nat (Z.log2 z / 8 + 1).

(** [BigUint::to_bytes_be]: minimal big-endian bytes, one zero byte for 0. *)
Definition to_bytes_be (z : Z) : list Z := if z =? 0 then [0] else to_be (num_bytes z) z.

(** [BigUint::modpow] for a modulus above 1. *)
Definition modpow (b e m : Z) : Z := Zpow_mod b e m.

Record SrpParams := { p_n : Z; p_g : Z; p_size : nat }.

Definition RFC5054_3072 : SrpParams := {|
  p_n := 0xFFFFFFFFFFFFFFFFC90FDAA22168C234C4C6628B80DC1CD129024E088A67CC74020BBEA63B139B22514A08798E3404DDEF9519B3CD3A431B302B0A6DF25F14374FE1356D6D51C245E485B576625E7EC6F44C42E9A637ED6B0BFF5CB6F406B7EDEE386BFB5A899FA5AE9F24117C4B1FE649286651ECE45B3DC2007CB8A163BF0598DA48361C55D39A69163FA8FD24CF5F83655D23DCA3AD961C62F356208552BB9ED529077096966D670C354E4ABC9804F1746C08CA18217C32905E462E36CE3BE39E772C180E86039B2783A2EC07A28FB5C55DF06F4C52C9DE2BCBF6955817183995497CEA956AE515D2261898FA051015728E5A8AAAC42DAD33170D04507A33A85521ABDF1CBA64ECFB850458DBEF0A8AEA71575D060C7DB3970F85A6E1E4C7ABF5AE8CDB0933D71E8C94E04A25619DCEE3D2261AD2EE6BF12FFA06D98A0864D87602733EC86A64521F2B18177B200CBBE117577A615D6C770988C0BAD946E208E24FA074E5AB3143DB5BFCE0FD108E4B82D120A93AD2CAFFFFFFFFFFFFFFFF;
  p_g := 5;
  p_size := 384
|}.

Definition pad_to_size (bytes : list Z) (size : nat) : list Z :=
  if (size <=? length bytes)%nat then bytes else replicate (size - length bytes) 0 ++ bytes.

Section WithSha.
Context {SH : Sha512}.

Definition compute_k (p : SrpParams) : Z :=
  from_be (sha512 (to_bytes_be (p_n p) ++ pad_to_size (to_bytes_be (p_g p)) (p_size p))).

Definition compute_x (salt username password : list Z) : Z :=
  from_be (sha512 (salt ++ sha512 (username ++ bs ":" ++ password))).

Definition compute_u (a_pub b_pub : list Z) (size : nat) : Z :=
  from_be (sha512 (pad_to_size a_pub size ++ pad_to_size b_pub size)).

(** [hn_xor_hg[i] = hn[i] ^ hg[i]] for [i] in [0..64]; a digest has 64 bytes. *)
Definition compute_m1 (p : SrpParams) (username salt : list Z) (a_pub b_pub : Z) (k_session : list Z) : list Z :=
  let hn := sha512 (to_bytes_be (p_n p)) in
  let hg := sha512 (to_bytes_be (p_g p)) in
  sha512 (zip_with Z.lxor hn hg ++ sha512 username ++ salt ++
          to_bytes_be a_pub ++ to_bytes_be b_pub ++ k_session).

(** M2 = H(A, M1, K), computed on both sides. *)
Definition compute_m2 (a_pub : Z) (m1 k_session : list Z) : list Z :=
  sha512 (to_bytes_be a_pub ++ m1 ++ k_session).

(** ** Client *)
Record SrpClient := { cl_params : SrpParams; cl_k : Z; cl_a : Z; cl_public_key : list Z }.

(** [rand] is the 256-bit sample. *)
Definition SrpClient_with_params (p : SrpParams) (rand : Z) : SrpClient :=
  let a := rand mod p_n p in
  {| cl_params := p; cl_k := compute_k p; cl_a := a;
     cl_public_key := pad_to_size (to_bytes_be (modpow (p_g p) a (p_n p))) (p_size p) |}.

Record SrpVerifier := { ver_a_pub : Z; ver_m1 : list Z; ver_k_session : list Z }.

Definition process_challenge (c : SrpClient) (username password salt server_public : list Z)
  : outcome CryptoError SrpVerifier :=
  let n := p_n (cl_params c) in
  let b_pub := from_be server_public in
  if b_pub mod n =? 0 then Err (SrpError "Invalid server public key")
  else
    let a_pub := from_be (cl_public_key c) in
    let u := compute_u (cl_public_key c) server_public (p_size (cl_params c)) in
    let x := compute_x salt username password in
    let g_x := modpow (p_g (cl_params c)) x n in
    let k_g_x := (cl_k c * g_x) mod n in
    let base := if k_g_x <=? b_pub then (b_pub - k_g_x) mod n
                else (n - (k_g_x - b_pub) mod n) mod n in
    let exp := cl_a c + u * x in
    let s_shared := modpow base exp n in
    let k_session := sha512 (to_bytes_be s_shared) in
    Ok {| ver_a_pub := a_pub;
          ver_m1 := compute_m1 (cl_params c) username salt a_pub b_pub k_session;
          ver_k_session := k_session |}.

Definition verify_server (v : SrpVerifier) (server_proof : list Z) : outcome CryptoError (list Z) :=
  let expected_m2 := compute_m2 (ver_a_pub v) (ver_m1 v) (ver_k_session v) in
  if negb (bool_decide (expected_m2 = server_proof))
  then Err (SrpError "Server proof verification failed")
  else Ok (ver_k_session v).

(** ** Server *)
Record SrpServer := { sv_params : SrpParams; sv_k : Z; sv_v : Z; sv_b : Z; sv_public_key : list Z }.

Definition SrpServer_new (verifier : list Z) (p : SrpParams) (rand : Z) : SrpServer :=
  let k := compute_k p in
  let v := from_be verifier in
  let b := rand mod p_n p in
  let g_b := modpow (p_g p) b (p_n p) in
  let k_v := (k * v) mod p_n p in
  let b_pub := (k_v + g_b) mod p_n p in
  {| sv_params := p; sv_k := k; sv_v := v; sv_b := b;
     sv_public_key := pad_to_size (to_bytes_be b_pub) (p_size p) |}.

Definition compute_verifier (username password salt : list Z) (p : SrpParams) : list Z :=
  let x := compute_x salt username password in
  to_bytes_be (modpow (p_g p) x (p_n p)).

(** The session key and the server's proof. *)
Definition verify_client (s : SrpServer) (username salt client_public client_proof : list Z)
  : outcome CryptoError (list Z * list Z) :=
  let n := p_n (sv_params s) in
  let a_pub := from_be client_public in
  if a_pub mod n =? 0 then Err (SrpError "Invalid client public key")
  else
    let u := compute_u client_public (sv_public_key s) (p_size (sv_params s)) in
    let v_u := modpow (sv_v s) u n in
    let base := (a_pub * v_u) mod n in
    let s_shared := modpow base (sv_b s) n in
    let k_session := sha512 (to_bytes_be s_shared) in
    let b_pub := from_be (sv_public_key s) in
    let expected_m1 := compute_m1 (sv_params s) username salt a_pub b_pub k_session in
    if negb (bool_decide (expected_m1 = client_proof))
    then Err (SrpError "Client proof verification failed")
    else Ok (k_session, compute_m2 a_pub expected_m1 k_session).

(** ** Lemmas *)
Context {SL : Sha512Laws SH}.

Lemma modpow_spec b e m : 1 < m -> 0 <= e -> modpow b e m = b ^ e mod m.
Proof. intros. apply Zpow_mod_correct; lia. Qed.

Lemma modpow_range b e m : 1 < m -> 0 <= e -> 0 <= modpow b e m < m.
Proof. intros. rewrite modpow_spec by done. apply Z.mod_pos_bound. lia. Qed.

Lemma num_bytes_bound z : 0 < z -> z < 256 ^ Z.of_nat (num_bytes z).
Proof.
  intros Hz. unfold num_bytes. pose proof (Z.log2_nonneg z).
  assert (0 <= Z.log2 z / 8) by (apply Z.div_pos; lia).
  rewrite Z2Nat.id by lia. change 256 with (2 ^ 8). rewrite <- Z.pow_mul_r by lia.
  apply Z.log2_lt_pow2; [done|]. pose proof (Z.mod_pos_bound (Z.log2 z) 8).
  pose proof (Z.div_mod (Z.log2 z) 8). lia.
Qed.

Lemma from_to_bytes_be z : 0 <= z -> from_be (to_bytes_be z) = z.
Proof.
  intros Hz. unfold to_bytes_be. destruct (Z.eqb_spec z 0) as [->|Hne]; [done|].
  rewrite from_be_to_be. apply Z.mod_small. split; [done|]. apply num_bytes_bound. lia.
Qed.

Lemma from_be_pad l size : from_be (pad_to_size l size) = from_be l.
Proof. unfold pad_to_size. case_match; [done|]. apply from_be_zeros. Qed.

Lemma hash_nonneg m : 0 <= from_be (sha512 m).
Proof. apply (from_be_range (sha512 m)), sha512_bytes. Qed.

(** A power of a unit is not divisible by the modulus. *)
Lemma unit_pow_mod g e n : 1 < n -> Z.gcd g n = 1 -> 0 <= e -> (g ^ e) mod n <> 0.
Proof.
  intros Hn Hg He H0. apply Z.mod_divide in H0; [|lia].
  assert (Z.gcd n (g ^ e) = 1) as Hrel.
  { apply Z.coprime_pow_r; [done|]. unfold Z.coprime. by rewrite Z.gcd_comm. }
  pose proof (Z.gcd_greatest n (g ^ e) n (Z.divide_refl n) H0) as Hd. rewrite Hrel in Hd.
  apply Z.divide_1_r_nonneg in Hd; lia.
Qed.

(** The core of SRP: the two ways of computing the premaster secret agree. *)
Lemma client_base n k g x b : 1 < n -> 0 <= x ->
  let v := modpow g x n in
  let B := ((k * v) mod n + b) mod n in
  let kgx := (k * v) mod n in
  (if kgx <=? B then (B - kgx) mod n else (n - (kgx - B) mod n) mod n) = b mod n.
Proof.
  intros Hn Hx v B kgx.
  assert (((B - kgx) mod n) = b mod n) as Hb.
  { unfold B, kgx. rewrite Zminus_mod_idemp_l. f_equal. lia. }
  destruct (Z.leb_spec kgx B); [done|]. rewrite <- Hb.
  rewrite <- (Z.mod_add (n - _) (-1)) by lia.
  replace (n - (kgx - B) mod n + -1 * n) with (- ((kgx - B) mod n)) by lia.
  rewrite <- (Z.sub_0_l (_ mod n)), Zminus_mod_idemp_r. f_equal. lia.
Qed.

Lemma pow_mod_mod b e n : n <> 0 -> 0 <= e -> (b mod n) ^ e mod n = b ^ e mod n.
Proof.
  intros Hn He. pattern e. apply natlike_ind; [by rewrite !Z.pow_0_r| |done].
  intros i Hi IH. rewrite !Z.pow_succ_r by done.
  rewrite Z.mul_mod_idemp_l by done.
  rewrite <- (Z.mul_mod_idemp_r b ((b mod n) ^ i)), IH, Z.mul_mod_idemp_r by done. done.
Qed.

Lemma premaster_agree n g a b u x : 1 < n -> 0 <= a -> 0 <= b -> 0 <= u -> 0 <= x ->
  modpow (modpow g b n mod n) (a + u * x) n =
  modpow ((modpow g a n * modpow (modpow g x n) u n) mod n) b n.
Proof.
  intros Hn Ha Hb Hu Hx. assert (0 <= u * x) by nia.
  rewrite (modpow_spec (modpow g b n mod n)), (modpow_spec (_ mod n) b) by lia.
  rewrite (modpow_spec g b), (modpow_spec g a), (modpow_spec _ u), (modpow_spec g x) by lia.
  rewrite Z.mod_mod, (pow_mod_mod (g ^ x)), <- Z.mul_mod, !pow_mod_mod by lia. f_equal.
  rewrite <- !Z.pow_mul_r, <- Z.pow_add_r, <- Z.pow_mul_r by lia. f_equal. lia.
Qed.

(** The exchange, end to end. *)
Lemma srp_exchange (p : SrpParams) (username password salt : list Z) (ra rb : Z)
  (Hn : 1 < p_n p) (Hg : Z.gcd (p_g p) (p_n p) = 1)
  (HB : from_be (sv_public_key (SrpServer_new (compute_verifier username password salt p) p rb)) mod p_n p <> 0) :
  let client := SrpClient_with_params p ra in
  let server := SrpServer_new (compute_verifier username password salt p) p rb in
  exists ver m2,
    process_challenge client username password salt (sv_public_key server) = Ok ver /\
    verify_client server username salt (cl_public_key client) (ver_m1 ver) = Ok (ver_k_session ver, m2) /\
    verify_server ver m2 = Ok (ver_k_session ver) /\ length (ver_k_session ver) = 64%nat.
Proof.
  intros client server. set (n := p_n p) in *. set (g := p_g p) in *.
  set (x := compute_x salt username password).
  assert (0 <= x) as Hx by apply hash_nonneg.
  set (a := ra mod n). set (b := rb mod n).
  assert (0 <= a) as Ha by (apply Z.mod_pos_bound; lia).
  assert (0 <= b) as Hb by (apply Z.mod_pos_bound; lia).
  set (v := modpow g x n). pose proof (modpow_range g x n Hn Hx) as Hv. fold v in Hv.
  set (B := ((compute_k p * v) mod n + modpow g b n) mod n).
  assert (0 <= B < n) as HBr by (apply Z.mod_pos_bound; lia).
  assert (from_be (sv_public_key server) = B) as HfB.
  { cbn. rewrite from_be_pad, from_to_bytes_be; unfold compute_verifier;
      fold n g x v b; rewrite from_to_bytes_be by lia; [done|apply HBr]. }
  assert (from_be (cl_public_key client) = modpow g a n) as HfA.
  { cbn. rewrite from_be_pad, from_to_bytes_be; [done|]. by apply modpow_range. }
  assert (sv_v server = v) as Hsv by (cbn; unfold compute_verifier; rewrite from_to_bytes_be; [done|apply Hv]).
  set (u := compute_u (cl_public_key client) (sv_public_key server) (p_size p)).
  assert (0 <= u) as Hu by apply hash_nonneg.
  pose proof (premaster_agree n g a b u x Hn Ha Hb Hu Hx) as Hagree.
  unfold process_challenge, verify_client, verify_server. rewrite HfA, HfB, Hsv.
  fold server in HB. rewrite HfB in HB. change (p_n (cl_params client)) with n.
  change (p_n (sv_params server)) with n. change (p_g (cl_params client)) with g.
  change (cl_a client) with a. change (sv_b server) with b. change (cl_k client) with (compute_k p).
  change (p_size (cl_params client)) with (p_size p). change (p_size (sv_params server)) with (p_size p).
  fold x u v. rewrite (proj2 (Z.eqb_neq _ _) HB).
  pose proof (client_base n (compute_k p) g x (modpow g b n) Hn Hx) as Hbase. cbv zeta in Hbase |- *.
  fold v in Hbase, Hagree. fold B in Hbase. rewrite Hbase, Hagree. eexists _, _. split_and!; [done| |..].
  - cbn [ver_m1 ver_k_session]. rewrite (proj2 (Z.eqb_neq _ _)).
    + cbn. by rewrite bool_decide_eq_true_2.
    + rewrite modpow_spec, Z.mod_mod by lia. by apply unit_pow_mod.
  - cbn. by rewrite bool_decide_eq_true_2.
  - cbn. apply sha512_length.
Qed.


(** ** Properties *)

(** C2: SRP is correct. For any modulus above one with a generator coprime to
    it, any password, salt, user name and any random choices of the two sides
    for which the server's public key is not divisible by the modulus, the
    client accepts the server's key, the server accepts the client's proof, the
    client accepts the server's proof, and both hold the same 64-byte session
    key. *)
Theorem srp_agreement (p : SrpParams) (username password salt : list Z) (ra rb : Z)
  (Hn : 1 < p_n p) (Hg : Z.gcd (p_g p) (p_n p) = 1)
  (HB : from_be (sv_public_key (SrpServer_new (compute_verifier username password salt p) p rb)) mod p_n p <> 0) :
  let client := SrpClient_with_params p ra in
  let server := SrpServer_new (compute_verifier username password salt p) p rb in
  exists ver m2,
    process_challenge client username password salt (sv_public_key server) = Ok ver /\
    verify_client server username salt (cl_public_key client) (ver_m1 ver) = Ok (ver_k_session ver, m2) /\
    verify_server ver m2 = Ok (ver_k_session ver) /\ length (ver_k_session ver) = 64%nat.
Proof. by apply srp_exchange. Qed.

End WithSha.

(** ** A concrete hash, for the witnesses *)
#[local] Instance toy_sha : Sha512 := fun m => replicate 64 (foldr Z.add 7 m mod 256).
#[local] Instance toy_sha_laws : Sha512Laws toy_sha.
Proof.
  split; intros m; unfold sha512, toy_sha.
  - apply length_replicate.
  - apply Forall_replicate. apply Z.mod_pos_bound. lia.
Qed.

Definition toy_params : SrpParams := {| p_n := 1019; p_g := 2; p_size := 2 |}.

Lemma srp_agreement_witness :
  let p := toy_params in
  let client := SrpClient_with_params p 77 in
  let server := SrpServer_new (compute_verifier (bs "Pair-Setup") (bs "3939") [1; 2] p) p 54 in
  exists ver m2,
    process_challenge client (bs "Pair-Setup") (bs "3939") [1; 2] (sv_public_key server) = Ok ver /\
    verify_client server (bs "Pair-Setup") [1; 2] (cl_public_key client) (ver_m1 ver) = Ok (ver_k_session ver, m2).
Proof.
  intros p client server.
  destruct (srp_agreement p (bs "Pair-Setup") (bs "3939") [1; 2] 77 54) as (ver & m2 & H1 & H2 & _).
  - reflexivity.
  - vm_compute; reflexivity.
  - vm_compute; congruence.
  - exists ver, m2. split; [exact H1 | exact H2].
Defined.

End Srp.
