(* ===== verification/KeyCrypto.v ===== *)
(** * Key agreement, signatures and key derivation

    Models the wrappers [src/protocol/crypto/hkdf.rs], [ed25519.rs] and
    [x25519.rs] over the external crates, whose primitives are the operations
    of the class [PairCrypto]; [PairCryptoLaws] lists the documented facts the
    pairing protocols rely on. A key pair is its secret key. *)

From S2P Require Import Text AesCtr.
Import AesCtr.

Class PairCrypto := {
  hkdf_expand : option (list Z) -> list Z -> list Z -> nat -> option (list Z);
  ed_public : list Z -> list Z;
  ed_sign : list Z -> list Z -> list Z;
  ed_key_valid : list Z -> bool;
  ed_verify : list Z -> list Z -> list Z -> bool;
  x_public : list Z -> list Z;
  x_dh : list Z -> list Z -> list Z
}.

Class PairCryptoLaws (P : PairCrypto) := {
  hkdf_total : forall salt ikm info n, (n <= 255 * 64)%nat -> exists k, hkdf_expand salt ikm info n = Some k;
  hkdf_length : forall salt ikm info n k, hkdf_expand salt ikm info n = Some k -> length k = n;
  ed_public_length : forall sk, length (ed_public sk) = 32%nat;
  ed_public_valid : forall sk, ed_key_valid (ed_public sk) = true;
  ed_sign_length : forall sk m, length (ed_sign sk m) = 64%nat;
  ed_sign_verify : forall sk m, ed_verify (ed_public sk) m (ed_sign sk m) = true;
  x_public_length : forall sk, length (x_public sk) = 32%nat;
  x_dh_length : forall sk pk, length (x_dh sk pk) = 32%nat;
  x_dh_comm : forall s1 s2, x_dh s1 (x_public s2) = x_dh s2 (x_public s1)
}.

Module KeyCrypto.

Section WithCrypto.
Context {P : PairCrypto}.

Definition HkdfSha512_expand (salt : option (list Z)) (ikm info : list Z) (n : nat)
  : outcome CryptoError (list Z) := ok_or (hkdf_expand salt ikm info n) KeyDerivationFailed.

Definition derive_key (salt : option (list Z)) (ikm info : list Z) (n : nat)
  : outcome CryptoError (list Z) := HkdfSha512_expand salt ikm info n.

(** [expand_fixed::<32>]. *)
Definition expand_fixed32 (salt ikm info : list Z) : outcome CryptoError (list Z) :=
  HkdfSha512_expand (Some salt) ikm info 32.

Definition Ed25519KeyPair_from_bytes (b : list Z) : outcome CryptoError (list Z) :=
  if negb (length b =? 32)%nat then Err (InvalidKeyLength 32 (Z.of_nat (length b))) else Ok b.

Definition Ed25519PublicKey_from_bytes (b : list Z) : outcome CryptoError (list Z) :=
  if negb (length b =? 32)%nat then Err (InvalidKeyLength 32 (Z.of_nat (length b)))
  else if ed_key_valid b then Ok b else Err InvalidPublicKey.

Definition Ed25519PublicKey_verify (key message signature : list Z) : outcome CryptoError unit :=
  if ed_verify key message signature then Ok tt else Err InvalidSignature.

(** [Signature::from_slice] accepts every 64-byte string. *)
Definition Ed25519Signature_from_bytes (b : list Z) : outcome CryptoError (list Z) :=
  if negb (length b =? 64)%nat then Err (InvalidKeyLength 64 (Z.of_nat (length b))) else Ok b.

Definition X25519PublicKey_from_bytes (b : list Z) : outcome CryptoError (list Z) :=
  if negb (length b =? 32)%nat then Err (InvalidKeyLength 32 (Z.of_nat (length b))) else Ok b.

Definition diffie_hellman (secret their_public : list Z) : list Z := x_dh secret their_public.

Context {PL : PairCryptoLaws P}.

Lemma expand_fixed32_ok salt ikm info :
  exists k, hkdf_expand (Some salt) ikm info 32 = Some k /\ length k = 32%nat.
Proof.
  destruct (hkdf_total (Some salt) ikm info 32) as [k Hk]; [lia|].
  exists k. split; [done|]. by eapply hkdf_length.
Qed.

Lemma Ed25519PublicKey_from_bytes_ok sk : Ed25519PublicKey_from_bytes (ed_public sk) = Ok (ed_public sk).
Proof. unfold Ed25519PublicKey_from_bytes. by rewrite ed_public_length, ed_public_valid. Qed.

Lemma Ed25519Signature_from_bytes_ok sk m :
  Ed25519Signature_from_bytes (ed_sign sk m) = Ok (ed_sign sk m).
Proof. unfold Ed25519Signature_from_bytes. by rewrite ed_sign_length. Qed.

Lemma X25519PublicKey_from_bytes_ok sk : X25519PublicKey_from_bytes (x_public sk) = Ok (x_public sk).
Proof. unfold X25519PublicKey_from_bytes. by rewrite x_public_length. Qed.

End WithCrypto.

(** ** A concrete instance, for the witnesses: an additive group for the key
    agreement, signatures that append the secret. *)
Definition fit (n : nat) (l : list Z) : list Z := take n (l ++ replicate n 0).

Lemma length_fit n l : length (fit n l) = n.
Proof. unfold fit. rewrite length_take, length_app, length_replicate. lia. Qed.

Definition list_sum (l : list Z) : Z := foldr Z.add 0 l.

Definition toy_pair_crypto : PairCrypto := {|
  hkdf_expand salt ikm info n :=
    if (n <=? 255 * 64)%nat then Some (fit n (list_sum ikm :: list_sum info :: default [] salt)) else None;
  ed_public sk := fit 32 [list_sum sk];
  ed_sign sk m := fit 64 [list_sum sk; list_sum m];
  ed_key_valid _ := true;
  ed_verify pk m sig := bool_decide (sig = fit 64 [nth 0 pk 0; list_sum m]);
  x_public sk := fit 32 [list_sum sk];
  x_dh sk pk := fit 32 [list_sum sk + nth 0 pk 0]
|}.

Lemma toy_pair_crypto_laws : PairCryptoLaws toy_pair_crypto.
Proof.
  split; cbn [hkdf_expand ed_public ed_sign ed_key_valid ed_verify x_public x_dh toy_pair_crypto]; intros.
  - rewrite (proj2 (Nat.leb_le n _)) by done. eauto.
  - case_match; [|done]. simplify_eq. apply length_fit.
  - apply length_fit.
  - done.
  - apply length_fit.
  - by apply bool_decide_eq_true_2.
  - apply length_fit.
  - apply length_fit.
  - cbn. by rewrite Z.add_comm.
Qed.

End KeyCrypto.
