(* ===== verification/PairSetup.v ===== *)
(** * Pair-Setup, client side

    Models [src/protocol/pairing/setup.rs] with the session types of
    [src/protocol/pairing/mod.rs]: the client's state machine through the
    messages M1 to M6 of HomeKit pairing, in its transient and its persistent
    form.  A step returns its result next to the session it leaves behind; the
    randomness drawn inside a step is an argument. *)

From stdpp Require Import pretty.
From S2P Require Import Text Tlv AesCtr Aead Srp KeyCrypto.
Import Aead Srp KeyCrypto.

Module PairSetup.

Inductive PairingState :=
| Init | WaitingResponse | SrpExchange | KeyExchange | Verifying | Complete | Failed.

#[export] Instance PairingState_eq_dec : EqDecision PairingState.
Proof. solve_decision. Defined.

(** [format!("{:?}", self.state)]. *)
Definition PairingState_debug (s : PairingState) : string :=
  match s with
  | Init => "Init" | WaitingResponse => "WaitingResponse" | SrpExchange => "SrpExchange"
  | KeyExchange => "KeyExchange" | Verifying => "Verifying" | Complete => "Complete" | Failed => "Failed"
  end.

Record SessionKeys := {
  encrypt_key : list Z;
  decrypt_key : list Z;
  encrypt_nonce : Z;
  decrypt_nonce : Z;
  raw_shared_secret : list Z
}.

Inductive PairingError :=
| InvalidState (expected actual : string)
| InvalidTlv (msg : string)
| AuthenticationFailed (msg : string)
| SrpVerificationFailed
| SignatureVerificationFailed
| ECrypto (e : AesCtr.CryptoError)
| DeviceError (code : Z)
| NotSupported
| PairingRequired
| InvalidStoredKeys
| ETlv (e : Tlv.TlvError).

(** [Failed] of the source's result type is never constructed. *)
Inductive PairingStepResult :=
| SendData (data : list Z)
| NeedData
| StepComplete (keys : SessionKeys).

Record PairSetup := mkSetup {
  state : PairingState;
  pin : option (list Z);
  srp_client : option SrpClient;
  srp_verifier : option SrpVerifier;
  signing_keypair : list Z;
  session_key : option (list Z);
  device_ltpk : option (list Z);
  transient : bool;
  username : list Z
}.

Definition PairSetup_new (keypair : list Z) : PairSetup :=
  mkSetup Init None None None keypair None None false (bs "Pair-Setup").
Definition set_pin (s : PairSetup) (p : list Z) : PairSetup :=
  mkSetup (state s) (Some p) (srp_client s) (srp_verifier s) (signing_keypair s) (session_key s)
    (device_ltpk s) (transient s) (username s).
Definition set_transient (s : PairSetup) (t : bool) : PairSetup :=
  mkSetup (state s) (pin s) (srp_client s) (srp_verifier s) (signing_keypair s) (session_key s)
    (device_ltpk s) t (username s).
Definition set_username (s : PairSetup) (u : list Z) : PairSetup :=
  mkSetup (state s) (pin s) (srp_client s) (srp_verifier s) (signing_keypair s) (session_key s)
    (device_ltpk s) (transient s) u.
Definition with_state (s : PairSetup) (st : PairingState) : PairSetup :=
  mkSetup st (pin s) (srp_client s) (srp_verifier s) (signing_keypair s) (session_key s)
    (device_ltpk s) (transient s) (username s).

(** A computation whose state changes are committed only when it succeeds:
    the [?] operator returns before the assignments at the end of a method. *)
Definition commit {A} (s : PairSetup) (r : outcome PairingError (A * PairSetup))
  : outcome PairingError A * PairSetup :=
  match r with
  | Ok (a, s') => (Ok a, s')
  | Err e => (Err e, s)
  | Panic => (Panic, s)
  end.

Definition start (s : PairSetup) : outcome PairingError (list Z) * PairSetup :=
  if negb (bool_decide (state s = Init))
  then (Err (InvalidState "Init" (PairingState_debug (state s))), s)
  else
    let encoder := Tlv.add_method (Tlv.add_state Tlv.new 1) 0 in
    let encoder := if transient s then Tlv.add_byte encoder Tlv.Flags 0x10 else encoder in
    (Ok (Tlv.build encoder), with_state s WaitingResponse).

(** The checks every response goes through: an error item fails the session,
    then the state item must have the expected number. *)
Definition check_state (tlv : Tlv.TlvDecoder) (expected : Z) : outcome PairingError unit :=
  st ← map_err ETlv (Tlv.get_state tlv);
  if negb (st =? expected) then Err (InvalidState (pretty expected) (pretty st)) else Ok tt.

(** The first 32 bytes of the session key, zero-filled. *)
Definition raw_secret (key : list Z) : list Z :=
  let copy_len := Nat.min (length key) 32 in
  take copy_len key ++ replicate (32 - copy_len) 0.

(** A 12-byte nonce with the label in its last eight bytes. *)
Definition label_nonce (label : list Z) : list Z := replicate 4 0 ++ label.

Section WithCrypto.
Context {A : AeadCipher} {SH : Sha512} {P : PairCrypto}.

Definition control_keys (secret raw : list Z) : outcome PairingError SessionKeys :=
  ek ← map_err ECrypto (expand_fixed32 (bs "Control-Salt") secret (bs "Control-Write-Encryption-Key"));
  dk ← map_err ECrypto (expand_fixed32 (bs "Control-Salt") secret (bs "Control-Read-Encryption-Key"));
  Ok {| encrypt_key := ek; decrypt_key := dk; encrypt_nonce := 0; decrypt_nonce := 0;
        raw_shared_secret := raw |}.

Definition process_m2 (s : PairSetup) (data : list Z) (rand : Z)
  : outcome PairingError PairingStepResult * PairSetup :=
  match Tlv.decode data with
  | Ok tlv =>
      match Tlv.get_error tlv with
      | Some code => (Err (DeviceError code), with_state s Failed)
      | None =>
          commit s (
            _ ← check_state tlv 2;
            salt ← map_err ETlv (Tlv.get_required tlv Tlv.Salt);
            server_public ← map_err ETlv (Tlv.get_required tlv Tlv.PublicKey);
            p ← ok_or (pin s) (AuthenticationFailed "PIN not set");
            let client := SrpClient_with_params RFC5054_3072 rand in
            let client_public := cl_public_key client in
            verifier ← map_err ECrypto (process_challenge client (username s) p salt server_public);
            let m3 := Tlv.build (Tlv.add (Tlv.add (Tlv.add_state Tlv.new 3)
                        Tlv.PublicKey client_public) Tlv.Proof_ (ver_m1 verifier)) in
            Ok (SendData m3,
                mkSetup SrpExchange (pin s) (Some client) (Some verifier) (signing_keypair s)
                  (session_key s) (device_ltpk s) (transient s) (username s)))
      end
  | Err e => (Err (ETlv e), s)
  | Panic => (Panic, s)
  end.

(** The message M5 of the persistent form. *)
Definition build_m5 (s : PairSetup) (key : list Z) : outcome PairingError (list Z) :=
  ek ← map_err ECrypto (expand_fixed32 (bs "Pair-Setup-Encrypt-Salt") key (bs "Pair-Setup-Encrypt-Info"));
  sign_prefix ← map_err ECrypto (HkdfSha512_expand (Some (bs "Pair-Setup-Controller-Sign-Salt")) key
                  (bs "Pair-Setup-Controller-Sign-Info") 32);
  let public := ed_public (signing_keypair s) in
  let signature := ed_sign (signing_keypair s) (sign_prefix ++ bs "airplay2-rs" ++ public) in
  let signed_tlv := Tlv.build (Tlv.add (Tlv.add (Tlv.add Tlv.new
        Tlv.Identifier (bs "airplay2-rs")) Tlv.PublicKey public) Tlv.Signature signature) in
  cipher ← map_err ECrypto (Cipher_new ek);
  nonce ← map_err ECrypto (Nonce_from_bytes (label_nonce (bs "PS-Msg05")));
  encrypted ← map_err ECrypto (Cipher_encrypt cipher nonce signed_tlv);
  Ok (Tlv.build (Tlv.add (Tlv.add_state Tlv.new 5) Tlv.EncryptedData encrypted)).

Definition process_m4 (s : PairSetup) (data : list Z)
  : outcome PairingError PairingStepResult * PairSetup :=
  match Tlv.decode data with
  | Ok tlv =>
      match Tlv.get_error tlv with
      | Some code =>
          (Err (if code =? 2 then SrpVerificationFailed else DeviceError code), with_state s Failed)
      | None =>
          commit s (
            _ ← check_state tlv 4;
            server_proof ← map_err ETlv (Tlv.get_required tlv Tlv.Proof_);
            verifier ← ok_or (srp_verifier s) (InvalidState "srp_verifier" "none");
            key ← map_err (fun _ => SrpVerificationFailed) (verify_server verifier server_proof);
            if transient s then
              keys ← control_keys key (raw_secret key);
              Ok (StepComplete keys,
                  mkSetup Complete (pin s) (srp_client s) (srp_verifier s) (signing_keypair s)
                    (Some key) (device_ltpk s) (transient s) (username s))
            else
              m5 ← build_m5 s key;
              Ok (SendData m5,
                  mkSetup KeyExchange (pin s) (srp_client s) (srp_verifier s) (signing_keypair s)
                    (Some key) (device_ltpk s) (transient s) (username s)))
      end
  | Err e => (Err (ETlv e), s)
  | Panic => (Panic, s)
  end.

(** The device's key and identity are checked; the session is moved to
    [Complete] before the last two key derivations. *)
Definition open_m6 (s : PairSetup) (tlv : Tlv.TlvDecoder) : outcome PairingError (list Z * list Z) :=
  _ ← check_state tlv 6;
  encrypted ← map_err ETlv (Tlv.get_required tlv Tlv.EncryptedData);
  key ← ok_or (session_key s) (InvalidState "session_key" "none");
  dk ← map_err ECrypto (expand_fixed32 (bs "Pair-Setup-Encrypt-Salt") key (bs "Pair-Setup-Encrypt-Info"));
  cipher ← map_err ECrypto (Cipher_new dk);
  nonce ← map_err ECrypto (Nonce_from_bytes (label_nonce (bs "PS-Msg06")));
  decrypted ← map_err ECrypto (Cipher_decrypt cipher nonce encrypted);
  device_tlv ← map_err ETlv (Tlv.decode decrypted);
  ltpk ← map_err ETlv (Tlv.get_required device_tlv Tlv.PublicKey);
  ident ← map_err ETlv (Tlv.get_required device_tlv Tlv.Identifier);
  sig_bytes ← map_err ETlv (Tlv.get_required device_tlv Tlv.Signature);
  accessory_key ← map_err ECrypto (expand_fixed32 (bs "Pair-Setup-Accessory-Sign-Salt") key
                    (bs "Pair-Setup-Accessory-Sign-Info"));
  public_key ← map_err (fun _ => InvalidTlv "Invalid public key") (Ed25519PublicKey_from_bytes ltpk);
  signature ← map_err (fun _ => InvalidTlv "Invalid signature") (Ed25519Signature_from_bytes sig_bytes);
  _ ← map_err (fun _ => SignatureVerificationFailed)
        (Ed25519PublicKey_verify public_key (accessory_key ++ ident ++ ltpk) signature);
  Ok (ltpk, key).

Definition process_m6 (s : PairSetup) (data : list Z)
  : outcome PairingError PairingStepResult * PairSetup :=
  match Tlv.decode data with
  | Ok tlv =>
      match Tlv.get_error tlv with
      | Some code => (Err (DeviceError code), with_state s Failed)
      | None =>
          match open_m6 s tlv with
          | Ok (ltpk, key) =>
              (keys ← control_keys key (raw_secret key); Ok (StepComplete keys),
               mkSetup Complete (pin s) (srp_client s) (srp_verifier s) (signing_keypair s)
                 (session_key s) (Some ltpk) (transient s) (username s))
          | Err e => (Err e, s)
          | Panic => (Panic, s)
          end
      end
  | Err e => (Err (ETlv e), s)
  | Panic => (Panic, s)
  end.

Definition no_data : PairingError := InvalidState "data" "none".

(** [step]: the driver of the state machine. *)
Definition step (s : PairSetup) (data : option (list Z)) (rand : Z)
  : outcome PairingError PairingStepResult * PairSetup :=
  match state s with
  | Init => let '(r, s') := start s in (m1 ← r; Ok (SendData m1), s')
  | WaitingResponse =>
      match data with Some d => process_m2 s d rand | None => (Err no_data, s) end
  | SrpExchange =>
      match data with Some d => process_m4 s d | None => (Err no_data, s) end
  | KeyExchange =>
      match data with Some d => process_m6 s d | None => (Err no_data, s) end
  | Complete => (Err (InvalidState "not complete" "Complete"), s)
  | Failed => (Err (InvalidState "not failed" "Failed"), s)
  | Verifying => (Ok NeedData, s)
  end.

End WithCrypto.

End PairSetup.
