(* ===== verification/PairingServer.v ===== *)
(** * HomeKit pairing, receiver side

    Models [src/receiver/ap2/pairing_server.rs]: [PairingServer] with its
    pair-setup and pair-verify handlers, every early return through
    [error_result] included.  A handler returns its [PairingResult] next to the
    server it leaves behind; an [expect] that fails is a panic.  The main
    theorems run this server against the crate's own client and against a
    client that was never paired. *)

From stdpp Require Import relations pretty.
From S2P Require Import Text Tlv AesCtr Aead Srp KeyCrypto PairSetup.
Import Aead Srp KeyCrypto.

Module PairingServer.

Inductive PairingServerState :=
| Idle | WaitingForM3 | PairSetupComplete | VerifyWaitingForM3 | Complete | Error.

#[export] Instance PairingServerState_eq_dec : EqDecision PairingServerState.
Proof. solve_decision. Defined.

Inductive PairingError :=
| TlvDecode (msg : string)
| UnexpectedState (s : Z)
| InvalidState
| UnsupportedMethod (m : Z)
| NoPassword
| MissingField (name : string)
| AuthenticationFailed
| DecryptionFailed
| SignatureVerificationFailed.

(** ** Texts of the errors ([Display] and [Debug]) *)
Definition hex_digit (n : Z) : string :=
  String.substring (Z.to_nat n) 1 "0123456789abcdef".

Definition TlvType_debug (t : Tlv.TlvType) : string :=
  match t with
  | Tlv.Method => "Method" | Tlv.Identifier => "Identifier" | Tlv.Salt => "Salt"
  | Tlv.PublicKey => "PublicKey" | Tlv.Proof_ => "Proof" | Tlv.EncryptedData => "EncryptedData"
  | Tlv.State => "State" | Tlv.Error => "Error" | Tlv.RetryDelay => "RetryDelay"
  | Tlv.Certificate => "Certificate" | Tlv.Signature => "Signature" | Tlv.Permissions => "Permissions"
  | Tlv.FragmentData => "FragmentData" | Tlv.FragmentLast => "FragmentLast"
  | Tlv.SessionID => "SessionID" | Tlv.Flags => "Flags" | Tlv.Separator => "Separator"
  end.

Definition TlvError_to_string (e : Tlv.TlvError) : string :=
  match e with
  | Tlv.BufferTooSmall => "buffer too small"
  | Tlv.InvalidStructure => "invalid TLV structure"
  | Tlv.UnknownType b => "unknown type: 0x" +:+ hex_digit (b / 16) +:+ hex_digit (b mod 16)
  | Tlv.MissingField t => "missing required field: " +:+ TlvType_debug t
  | Tlv.InvalidValue t => "invalid value for " +:+ TlvType_debug t
  end.

Definition PairingError_to_string (e : PairingError) : string :=
  match e with
  | TlvDecode msg => "TLV decode error: " +:+ msg
  | UnexpectedState s => "Unexpected pairing state: " +:+ pretty s
  | InvalidState => "Invalid state machine state"
  | UnsupportedMethod m => "Unsupported pairing method: " +:+ pretty m
  | NoPassword => "No password/PIN configured"
  | MissingField name => "Missing required field: " +:+ name
  | AuthenticationFailed => "Authentication failed - wrong PIN/password"
  | DecryptionFailed => "Decryption failed"
  | SignatureVerificationFailed => "Signature verification failed"
  end.

Record EncryptionKeys := {
  encrypt_key : list Z; decrypt_key : list Z; encrypt_nonce : Z; decrypt_nonce : Z
}.

Record PairingServer := mkServer {
  identity : list Z;
  srp_verifier : option (list Z);
  srp_salt : list Z;
  state : PairingServerState;
  srp_server : option SrpServer;
  srp_session_key : option (list Z);
  verify_keypair : option (list Z);
  shared_secret : option (list Z);
  encryption_keys : option EncryptionKeys;
  client_public_key : option (list Z);
  client_curve_public : option (list Z)
}.

Record PairingResult := {
  response : list Z;
  new_state : PairingServerState;
  error : option PairingError;
  complete : bool
}.

Definition PairingServer_new (ident salt : list Z) : PairingServer :=
  mkServer ident None salt Idle None None None None None None None.

(** [reset] keeps the identity, the salt and the verifier. *)
Definition reset (s : PairingServer) : PairingServer :=
  mkServer (identity s) (srp_verifier s) (srp_salt s) Idle None None None None None None None.

Definition set_state (s : PairingServer) (st : PairingServerState) : PairingServer :=
  mkServer (identity s) (srp_verifier s) (srp_salt s) st (srp_server s) (srp_session_key s)
    (verify_keypair s) (shared_secret s) (encryption_keys s) (client_public_key s) (client_curve_public s).

Definition error_code (e : PairingError) : Z :=
  match e with AuthenticationFailed => 2 | InvalidState => 6 | _ => 1 end.

Definition error_result (s : PairingServer) (e : PairingError) : PairingResult * PairingServer :=
  ({| response := Tlv.build (Tlv.add_byte (Tlv.add_state Tlv.new 0) Tlv.Error (error_code e));
      new_state := Error; error := Some e; complete := false |},
   set_state s Error).

(** [let ... else { return self.error_result(e) }] in a handler whose server is
    [s] at that point; a panic is not an error result. *)
Definition finish (s : PairingServer) (r : outcome PairingError (PairingResult * PairingServer))
  : outcome Empty_set (PairingResult * PairingServer) :=
  match r with
  | Ok x => Ok x
  | Err e => Ok (error_result s e)
  | Panic => Panic
  end.

(** [Result::expect]. *)
Definition expect {E F A} (r : outcome E A) : outcome F A :=
  match r with Ok a => Ok a | _ => Panic end.

(** The nonce of the server's pairing messages: the label, zero-filled at the end. *)
Definition nonce_of_prefix (prefix : list Z) : list Z :=
  let len := Nat.min (length prefix) 12 in take len prefix ++ replicate (12 - len) 0.

Section WithCrypto.
Context {A : AeadCipher} {SH : Sha512} {P : PairCrypto}.

Definition set_password (s : PairingServer) (password : list Z) : PairingServer :=
  mkServer (identity s) (Some (compute_verifier (bs "Pair-Setup") password (srp_salt s) RFC5054_3072))
    (srp_salt s) (state s) (srp_server s) (srp_session_key s) (verify_keypair s) (shared_secret s)
    (encryption_keys s) (client_public_key s) (client_curve_public s).

Definition encrypt_with_key (data key prefix : list Z) : outcome PairingError (list Z) :=
  nonce ← expect (Nonce_from_bytes (nonce_of_prefix prefix));
  cipher ← expect (Cipher_new key);
  expect (Cipher_encrypt cipher nonce data).

Definition decrypt_with_key (data key prefix : list Z) : outcome PairingError (list Z) :=
  nonce ← expect (Nonce_from_bytes (nonce_of_prefix prefix));
  cipher ← map_err (fun _ => DecryptionFailed) (Cipher_new key);
  map_err (fun _ => DecryptionFailed) (Cipher_decrypt cipher nonce data).

Definition build_accessory_info (s : PairingServer) (key : list Z) : list Z :=
  sha512 key ++ ed_public (identity s).

Definition encrypt_accessory_data (ident info key : list Z) : outcome PairingError (list Z) :=
  let signature := ed_sign ident info in
  let sub_tlv := Tlv.build (Tlv.add (Tlv.add Tlv.new Tlv.Identifier (ed_public ident)) Tlv.Signature signature) in
  encrypt_with_key sub_tlv key (bs "PS-Msg04").

Definition derive_session_keys_from_srp (secret : list Z) : outcome PairingError EncryptionKeys :=
  ek ← expect (derive_key (Some (bs "Control-Salt")) secret (bs "Control-Write-Encryption-Key") 32);
  dk ← expect (derive_key (Some (bs "Control-Salt")) secret (bs "Control-Read-Encryption-Key") 32);
  Ok {| encrypt_key := ek; decrypt_key := dk; encrypt_nonce := 0; decrypt_nonce := 0 |}.

Definition derive_session_keys (secret : list Z) : outcome PairingError EncryptionKeys :=
  derive_session_keys_from_srp secret.

Definition handle_pair_setup_m1 (s : PairingServer) (tlv : Tlv.TlvDecoder) (rand : Z)
  : outcome Empty_set (PairingResult * PairingServer) :=
  let s := if negb (bool_decide (state s = Idle)) then reset s else s in
  finish s (
    method_bytes ← ok_or (Tlv.get tlv Tlv.Method) (UnsupportedMethod 0);
    let method := default 0 (head method_bytes) in
    if negb (method =? 0) then Err (UnsupportedMethod method)
    else
      verifier ← ok_or (srp_verifier s) NoPassword;
      let server := SrpServer_new verifier RFC5054_3072 rand in
      let resp := Tlv.build (Tlv.add (Tlv.add (Tlv.add_state Tlv.new 2) Tlv.Salt (srp_salt s))
                    Tlv.PublicKey (sv_public_key server)) in
      Ok ({| response := resp; new_state := WaitingForM3; error := None; complete := false |},
          mkServer (identity s) (srp_verifier s) (srp_salt s) WaitingForM3 (Some server)
            (srp_session_key s) (verify_keypair s) (shared_secret s) (encryption_keys s)
            (client_public_key s) (client_curve_public s))).

(** [self.srp_server.take()]. *)
Definition take_srp (s : PairingServer) : PairingServer :=
  mkServer (identity s) (srp_verifier s) (srp_salt s) (state s) None (srp_session_key s)
    (verify_keypair s) (shared_secret s) (encryption_keys s) (client_public_key s) (client_curve_public s).

Definition handle_pair_setup_m3 (s : PairingServer) (tlv : Tlv.TlvDecoder)
  : outcome Empty_set (PairingResult * PairingServer) :=
  if negb (bool_decide (state s = WaitingForM3)) then Ok (error_result s InvalidState)
  else
    let s' := take_srp s in
    finish s' (
      server ← ok_or (srp_server s) InvalidState;
      client_public ← ok_or (Tlv.get tlv Tlv.PublicKey) (MissingField "PublicKey");
      client_proof ← ok_or (Tlv.get tlv Tlv.Proof_) (MissingField "Proof");
      '(key, server_proof) ← map_err (fun _ => AuthenticationFailed)
          (verify_client server (bs "Pair-Setup") (srp_salt s') client_public client_proof);
      enc_key ← map_err (fun _ => DecryptionFailed)
          (derive_key (Some (bs "Pair-Setup-Encrypt-Salt")) key (bs "Pair-Setup-Encrypt-Info") 32);
      encrypted ← encrypt_accessory_data (identity s') (build_accessory_info s' key) enc_key;
      let resp := Tlv.build (Tlv.add (Tlv.add (Tlv.add_state Tlv.new 4) Tlv.Proof_ server_proof)
                    Tlv.EncryptedData encrypted) in
      if negb (length key =? 64)%nat then Panic
      else
        keys ← derive_session_keys_from_srp key;
        Ok ({| response := resp; new_state := PairSetupComplete; error := None; complete := true |},
            mkServer (identity s) (srp_verifier s) (srp_salt s) PairSetupComplete None (Some key)
              (verify_keypair s) (shared_secret s) (Some keys) (client_public_key s) (client_curve_public s))).

(** [secret] is the freshly generated X25519 key pair. *)
Definition handle_pair_verify_m1 (s : PairingServer) (tlv : Tlv.TlvDecoder) (secret : list Z)
  : outcome Empty_set (PairingResult * PairingServer) :=
  let s := if negb (bool_decide (state s = PairSetupComplete)) && negb (bool_decide (state s = Idle))
           then reset s else s in
  match Tlv.get tlv Tlv.PublicKey with
  | None => Ok (error_result s (MissingField "PublicKey"))
  | Some arr =>
      if negb (length arr =? 32)%nat then Ok (error_result s (MissingField "PublicKey"))
      else
        match X25519PublicKey_from_bytes arr with
        | Ok client_public =>
            let s := mkServer (identity s) (srp_verifier s) (srp_salt s) (state s) (srp_server s)
                       (srp_session_key s) (verify_keypair s) (shared_secret s) (encryption_keys s)
                       (client_public_key s) (Some arr) in
            finish s (
              let shared := diffie_hellman secret client_public in
              session_key ← map_err (fun _ => DecryptionFailed)
                (derive_key (Some (bs "Pair-Verify-Encrypt-Salt")) shared (bs "Pair-Verify-Encrypt-Info") 32);
              let info := x_public secret ++ ed_public (identity s) ++ client_public in
              let signature := ed_sign (identity s) info in
              let sub_tlv := Tlv.build (Tlv.add (Tlv.add Tlv.new Tlv.Identifier (ed_public (identity s)))
                               Tlv.Signature signature) in
              encrypted ← encrypt_with_key sub_tlv session_key (bs "PV-Msg02");
              let resp := Tlv.build (Tlv.add (Tlv.add (Tlv.add_state Tlv.new 2)
                            Tlv.PublicKey (x_public secret)) Tlv.EncryptedData encrypted) in
              Ok ({| response := resp; new_state := VerifyWaitingForM3; error := None; complete := false |},
                  mkServer (identity s) (srp_verifier s) (srp_salt s) VerifyWaitingForM3 (srp_server s)
                    (srp_session_key s) (Some secret) (Some shared) (encryption_keys s)
                    (client_public_key s) (client_curve_public s)))
        | Err _ => Ok (error_result s InvalidState)
        | Panic => Panic
        end
  end.

Definition handle_pair_verify_m3 (s : PairingServer) (tlv : Tlv.TlvDecoder)
  : outcome Empty_set (PairingResult * PairingServer) :=
  if negb (bool_decide (state s = VerifyWaitingForM3)) then Ok (error_result s InvalidState)
  else finish s (
    shared ← ok_or (shared_secret s) InvalidState;
    encrypted_data ← ok_or (Tlv.get tlv Tlv.EncryptedData) (MissingField "EncryptedData");
    session_key ← map_err (fun _ => DecryptionFailed)
      (derive_key (Some (bs "Pair-Verify-Encrypt-Salt")) shared (bs "Pair-Verify-Encrypt-Info") 32);
    decrypted ← map_err (fun _ => DecryptionFailed) (decrypt_with_key encrypted_data session_key (bs "PV-Msg03"));
    sub_tlv ← map_err (fun _ => TlvDecode "Failed to decode sub-TLV") (Tlv.decode decrypted);
    client_id ← ok_or (Tlv.get sub_tlv Tlv.Identifier) (MissingField "Identifier");
    if negb (length client_id =? 32)%nat then Err (MissingField "Identifier")
    else
      client_signature ← ok_or (Tlv.get sub_tlv Tlv.Signature) (MissingField "Signature");
      curve ← ok_or (client_curve_public s) InvalidState;
      keypair ← ok_or (verify_keypair s) InvalidState;
      let verify_info := curve ++ client_id ++ x_public keypair in
      client_identity ← map_err (fun _ => AuthenticationFailed) (Ed25519PublicKey_from_bytes client_id);
      signature ← map_err (fun _ => SignatureVerificationFailed) (Ed25519Signature_from_bytes client_signature);
      _ ← map_err (fun _ => SignatureVerificationFailed)
            (Ed25519PublicKey_verify client_identity verify_info signature);
      keys ← derive_session_keys shared;
      Ok ({| response := Tlv.build (Tlv.add_state Tlv.new 4); new_state := Complete;
             error := None; complete := true |},
          mkServer (identity s) (srp_verifier s) (srp_salt s) Complete (srp_server s)
            (srp_session_key s) (verify_keypair s) (shared_secret s) (Some keys)
            (Some client_id) (client_curve_public s))).

(** [tlv.get_state().unwrap_or(0)]. *)
Definition state_or_0 (tlv : Tlv.TlvDecoder) : Z :=
  match Tlv.get_state tlv with Ok st => st | _ => 0 end.

Definition process_pair_setup (s : PairingServer) (data : list Z) (rand : Z)
  : outcome Empty_set (PairingResult * PairingServer) :=
  match Tlv.decode data with
  | Ok tlv =>
      match state_or_0 tlv with
      | 1 => handle_pair_setup_m1 s tlv rand
      | 3 => handle_pair_setup_m3 s tlv
      | st => Ok (error_result s (UnexpectedState st))
      end
  | Err e => Ok (error_result s (TlvDecode (TlvError_to_string e)))
  | Panic => Panic
  end.

Definition process_pair_verify (s : PairingServer) (data : list Z) (secret : list Z)
  : outcome Empty_set (PairingResult * PairingServer) :=
  match Tlv.decode data with
  | Ok tlv =>
      match state_or_0 tlv with
      | 1 => handle_pair_verify_m1 s tlv secret
      | 3 => handle_pair_verify_m3 s tlv
      | st => Ok (error_result s (UnexpectedState st))
      end
  | Err e => Ok (error_result s (TlvDecode (TlvError_to_string e)))
  | Panic => Panic
  end.

(** ** Lemmas *)
Context {AL : AeadLaws A} {SL : Sha512Laws SH} {PL : PairCryptoLaws P}.

(** A message built by the encoder, as the peer's decoder sees it. *)
Lemma message_fields kvs st : Tlv.values_of kvs Tlv.State = Some [st] ->
  exists d, Tlv.decode (Tlv.encode_all kvs) = Ok d /\ Tlv.get_state d = Ok st /\
    state_or_0 d = st /\ forall ty, Tlv.get d ty = Tlv.values_of kvs ty.
Proof.
  intros Hst. destruct (Tlv.decode_encode_all kvs) as (d & Hd & Hget). exists d.
  assert (Tlv.get_state d = Ok st) as H.
  { unfold Tlv.get_state, Tlv.get_required. rewrite Hget, Hst. done. }
  split_and!; [done|done| |done]. unfold state_or_0. by rewrite H.
Qed.

Lemma nonce_of_prefix_ok l : (length l <= 12)%nat ->
  Nonce_from_bytes (nonce_of_prefix l) = Ok (nonce_of_prefix l).
Proof.
  intros H. apply Nonce_from_bytes_ok. unfold nonce_of_prefix.
  rewrite length_app, length_take, length_replicate. lia.
Qed.

Lemma encrypt_with_key_ok data key prefix :
  length key = 32%nat -> (length prefix <= 12)%nat -> Z.of_nat (length data) < 2 ^ 32 ->
  exists c, encrypt_with_key data key prefix = Ok c /\
    aead_seal key (nonce_of_prefix prefix) [] data = Some c.
Proof.
  intros Hk Hp Hd. destruct (aead_seal_total key (nonce_of_prefix prefix) [] data Hd) as [c Hc].
  exists c. split; [|done]. unfold encrypt_with_key.
  rewrite nonce_of_prefix_ok, Cipher_new_ok by done.
  cbn [expect mbind outcome_bind]. unfold Cipher_encrypt. by rewrite Hc.
Qed.

Lemma length_chunked ty v e : (length v <= 255)%nat ->
  (length (Tlv.buffer (Tlv.add e ty v)) <= length (Tlv.buffer e) + 2 + length v)%nat.
Proof.
  intros Hv. rewrite Tlv.add_fragments, length_app. unfold Tlv.fragments.
  destruct v as [|b v]; [cbn; lia|].
  unfold chunks. cbn [chunks_fuel length]. rewrite take_ge, drop_ge by (cbn [length] in *; lia).
  assert (chunks_fuel (length v) 255 (@nil Z) = []) as -> by (by destruct (length v)).
  unfold Tlv.encode_records. cbn. rewrite app_nil_r. lia.
Qed.

(** The two-item sub-message of the server is short. *)
Lemma length_sub_tlv sk info :
  Z.of_nat (length (Tlv.build (Tlv.add (Tlv.add Tlv.new Tlv.Identifier (ed_public sk)) Tlv.Signature (ed_sign sk info)))) < 2 ^ 32.
Proof.
  unfold Tlv.build. pose proof (length_chunked Tlv.Signature (ed_sign sk info) (Tlv.add Tlv.new Tlv.Identifier (ed_public sk))) as H1.
  pose proof (length_chunked Tlv.Identifier (ed_public sk) Tlv.new) as H2.
  rewrite ed_sign_length in H1. rewrite ed_public_length in H2. change (length (Tlv.buffer Tlv.new)) with 0%nat in H2. lia.
Qed.

Lemma derive_session_keys_ok secret :
  exists keys, derive_session_keys_from_srp secret = Ok keys /\
    hkdf_expand (Some (bs "Control-Salt")) secret (bs "Control-Write-Encryption-Key") 32 = Some (encrypt_key keys) /\
    hkdf_expand (Some (bs "Control-Salt")) secret (bs "Control-Read-Encryption-Key") 32 = Some (decrypt_key keys) /\
    encrypt_nonce keys = 0 /\ decrypt_nonce keys = 0.
Proof.
  destruct (expand_fixed32_ok (bs "Control-Salt") secret (bs "Control-Write-Encryption-Key")) as (ek & He & _).
  destruct (expand_fixed32_ok (bs "Control-Salt") secret (bs "Control-Read-Encryption-Key")) as (dk & Hd & _).
  unfold derive_session_keys_from_srp, derive_key, HkdfSha512_expand. rewrite He, Hd. cbn. by eexists.
Qed.

Lemma derive_key_ok salt ikm info :
  exists k, derive_key (Some salt) ikm info 32 = Ok k /\ length k = 32%nat.
Proof.
  destruct (expand_fixed32_ok salt ikm info) as (k & Hk & Hl). exists k.
  unfold derive_key, HkdfSha512_expand. by rewrite Hk.
Qed.

(** ** The four steps of transient pair-setup *)
Definition m1_items : list (Tlv.TlvType * list Z) := [(Tlv.State, [1]); (Tlv.Method, [0]); (Tlv.Flags, [0x10])].
Definition m2_items (salt pub : list Z) := [(Tlv.State, [2]); (Tlv.Salt, salt); (Tlv.PublicKey, pub)].
Definition m3_items (pub proof : list Z) := [(Tlv.State, [3]); (Tlv.PublicKey, pub); (Tlv.Proof_, proof)].
Definition m4_items (proof enc : list Z) := [(Tlv.State, [4]); (Tlv.Proof_, proof); (Tlv.EncryptedData, enc)].

Lemma server_m1 s v rand : srp_verifier s = Some v ->
  exists r s', process_pair_setup s (Tlv.encode_all m1_items) rand = Ok (r, s') /\
    response r = Tlv.encode_all (m2_items (srp_salt s) (sv_public_key (SrpServer_new v RFC5054_3072 rand))) /\
    state s' = WaitingForM3 /\ srp_server s' = Some (SrpServer_new v RFC5054_3072 rand) /\
    srp_salt s' = srp_salt s /\ identity s' = identity s.
Proof.
  intros Hv. destruct (message_fields m1_items 1) as (d & Hd & _ & Hst & Hget); [done|].
  unfold process_pair_setup. rewrite Hd, Hst. unfold handle_pair_setup_m1.
  set (s1 := if negb _ then _ else _).
  assert (srp_verifier s1 = Some v /\ srp_salt s1 = srp_salt s /\ identity s1 = identity s) as (H1 & H2 & H3)
    by (unfold s1; by case_match).
  rewrite Hget. change (Tlv.values_of m1_items Tlv.Method) with (Some [0]).
  cbn [ok_or mbind outcome_bind head default]. rewrite H1. cbn [ok_or mbind outcome_bind Z.eqb negb finish].
  eexists _, _. split; [done|]. cbn [response state srp_server srp_salt identity]. by rewrite H2, H3.
Qed.

Lemma client_m2 cl pw salt pub ra ver : PairSetup.state cl = PairSetup.WaitingResponse ->
  PairSetup.pin cl = Some pw ->
  process_challenge (SrpClient_with_params RFC5054_3072 ra) (PairSetup.username cl) pw salt pub = Ok ver ->
  exists cl', PairSetup.step cl (Some (Tlv.encode_all (m2_items salt pub))) ra =
      (Ok (PairSetup.SendData (Tlv.encode_all (m3_items (cl_public_key (SrpClient_with_params RFC5054_3072 ra)) (ver_m1 ver)))), cl') /\
    PairSetup.state cl' = PairSetup.SrpExchange /\ PairSetup.srp_verifier cl' = Some ver /\
    PairSetup.transient cl' = PairSetup.transient cl.
Proof.
  intros Hs Hp Hc. destruct (message_fields (m2_items salt pub) 2) as (d & Hd & Hst & _ & Hget); [done|].
  unfold PairSetup.step. rewrite Hs. unfold PairSetup.process_m2. rewrite Hd.
  unfold Tlv.get_error. rewrite Hget. change (Tlv.values_of (m2_items salt pub) Tlv.Error) with (@None (list Z)).
  cbn [mbind option_bind]. unfold PairSetup.check_state. rewrite Hst.
  cbn [map_err mbind outcome_bind Z.eqb Pos.eqb negb].
  unfold Tlv.get_required. rewrite !Hget.
  assert (Tlv.values_of (m2_items salt pub) Tlv.Salt = Some salt) as -> by tlv_value.
  assert (Tlv.values_of (m2_items salt pub) Tlv.PublicKey = Some pub) as -> by tlv_value.
  rewrite Hp. cbn [ok_or map_err mbind outcome_bind]. rewrite Hc. cbn [map_err mbind outcome_bind PairSetup.commit].
  eexists. by split.
Qed.

Lemma server_m3 s srv pub proof key m2 rand : state s = WaitingForM3 -> srp_server s = Some srv ->
  verify_client srv (bs "Pair-Setup") (srp_salt s) pub proof = Ok (key, m2) -> length key = 64%nat ->
  exists r s' enc keys, process_pair_setup s (Tlv.encode_all (m3_items pub proof)) rand = Ok (r, s') /\
    response r = Tlv.encode_all (m4_items m2 enc) /\ state s' = PairSetupComplete /\
    encryption_keys s' = Some keys /\ derive_session_keys_from_srp key = Ok keys.
Proof.
  intros Hs Hsrv Hv Hk.
  destruct (message_fields (m3_items pub proof) 3) as (d & Hd & _ & Hst & Hget); [done|].
  unfold process_pair_setup. rewrite Hd, Hst. unfold handle_pair_setup_m3.
  rewrite bool_decide_eq_true_2 by done. cbn [negb]. rewrite Hsrv, !Hget.
  assert (Tlv.values_of (m3_items pub proof) Tlv.PublicKey = Some pub) as -> by tlv_value.
  assert (Tlv.values_of (m3_items pub proof) Tlv.Proof_ = Some proof) as -> by tlv_value.
  cbn [ok_or mbind outcome_bind]. change (srp_salt (take_srp s)) with (srp_salt s). rewrite Hv.
  cbn [map_err mbind outcome_bind].
  destruct (derive_key_ok (bs "Pair-Setup-Encrypt-Salt") key (bs "Pair-Setup-Encrypt-Info")) as (ek & -> & Hek).
  cbn [map_err mbind outcome_bind]. unfold encrypt_accessory_data.
  edestruct encrypt_with_key_ok as (enc & -> & _); [done|by cbn; lia|apply length_sub_tlv|].
  cbn [mbind outcome_bind]. rewrite Hk. cbn [Nat.eqb negb].
  destruct (derive_session_keys_ok key) as (keys & Hkeys & _). rewrite Hkeys.
  cbn [mbind outcome_bind finish]. eexists _, _, enc, keys. by split_and!.
Qed.

Lemma client_m4 cl ver m2 enc key ra keys : PairSetup.state cl = PairSetup.SrpExchange ->
  PairSetup.srp_verifier cl = Some ver -> PairSetup.transient cl = true ->
  verify_server ver m2 = Ok key -> derive_session_keys_from_srp key = Ok keys ->
  exists cl' ck, PairSetup.step cl (Some (Tlv.encode_all (m4_items m2 enc))) ra = (Ok (PairSetup.StepComplete ck), cl') /\
    PairSetup.state cl' = PairSetup.Complete /\
    PairSetup.encrypt_key ck = encrypt_key keys /\ PairSetup.decrypt_key ck = decrypt_key keys.
Proof.
  intros Hs Hver Ht Hv Hkeys.
  destruct (message_fields (m4_items m2 enc) 4) as (d & Hd & Hst & _ & Hget); [done|].
  destruct (derive_session_keys_ok key) as (keys' & Hkeys' & He & Hde & _). simplify_eq. rewrite Hkeys in Hkeys'.
  injection Hkeys' as <-.
  unfold PairSetup.step. rewrite Hs. unfold PairSetup.process_m4. rewrite Hd.
  unfold Tlv.get_error. rewrite Hget. change (Tlv.values_of (m4_items m2 enc) Tlv.Error) with (@None (list Z)).
  cbn [mbind option_bind]. unfold PairSetup.check_state. rewrite Hst.
  cbn [map_err mbind outcome_bind Z.eqb Pos.eqb negb].
  unfold Tlv.get_required. rewrite !Hget.
  assert (Tlv.values_of (m4_items m2 enc) Tlv.Proof_ = Some m2) as -> by tlv_value.
  rewrite Hver. cbn [ok_or map_err mbind outcome_bind]. rewrite Hv, Ht. cbn [map_err mbind outcome_bind].
  unfold PairSetup.control_keys, expand_fixed32, HkdfSha512_expand. rewrite He, Hde.
  cbn [ok_or map_err mbind outcome_bind PairSetup.commit]. eexists _, _. by split_and!.
Qed.

(** ** Pair-verify by a client that was never paired *)
Definition verify_m1_items (e : list Z) := [(Tlv.State, [1]); (Tlv.PublicKey, x_public e)].
Definition verify_sub_items (e sk server_public : list Z) :=
  [(Tlv.Identifier, ed_public sk);
   (Tlv.Signature, ed_sign sk (x_public e ++ ed_public sk ++ server_public))].
Definition verify_m3_items (enc : list Z) := [(Tlv.State, [3]); (Tlv.EncryptedData, enc)].

Lemma verify_m1_ok s e secret :
  exists r s', process_pair_verify s (Tlv.encode_all (verify_m1_items e)) secret = Ok (r, s') /\
    error r = None /\ state s' = VerifyWaitingForM3 /\ shared_secret s' = Some (x_dh secret (x_public e)) /\
    verify_keypair s' = Some secret /\ client_curve_public s' = Some (x_public e).
Proof.
  destruct (message_fields (verify_m1_items e) 1) as (d & Hd & _ & Hst & Hget); [done|].
  unfold process_pair_verify. rewrite Hd, Hst. unfold handle_pair_verify_m1.
  set (s1 := if negb _ && negb _ then _ else _). clearbody s1. rewrite Hget.
  assert (Tlv.values_of (verify_m1_items e) Tlv.PublicKey = Some (x_public e)) as -> by tlv_value.
  rewrite x_public_length, X25519PublicKey_from_bytes_ok. cbn [Nat.eqb negb]. unfold diffie_hellman.
  destruct (derive_key_ok (bs "Pair-Verify-Encrypt-Salt") (x_dh secret (x_public e)) (bs "Pair-Verify-Encrypt-Info"))
    as (ek & -> & Hek). cbn [map_err mbind outcome_bind identity].
  edestruct encrypt_with_key_ok as (enc & -> & _); [done|by cbn; lia|apply length_sub_tlv|].
  cbn [mbind outcome_bind finish]. eexists _, _. by split_and!.
Qed.

Lemma verify_m3_ok s e sk secret k enc ignored :
  state s = VerifyWaitingForM3 -> shared_secret s = Some (x_dh secret (x_public e)) ->
  verify_keypair s = Some secret -> client_curve_public s = Some (x_public e) ->
  hkdf_expand (Some (bs "Pair-Verify-Encrypt-Salt")) (x_dh secret (x_public e)) (bs "Pair-Verify-Encrypt-Info") 32 = Some k ->
  aead_seal k (nonce_of_prefix (bs "PV-Msg03")) [] (Tlv.encode_all (verify_sub_items e sk (x_public secret))) = Some enc ->
  exists r s' keys, process_pair_verify s (Tlv.encode_all (verify_m3_items enc)) ignored = Ok (r, s') /\
    state s' = Complete /\ complete r = true /\ encryption_keys s' = Some keys /\
    client_public_key s' = Some (ed_public sk) /\
    derive_session_keys (x_dh secret (x_public e)) = Ok keys.
Proof.
  intros Hst Hsh Hkp Hcc Hk Henc. apply aead_seal_open in Henc.
  destruct (message_fields (verify_m3_items enc) 3) as (d & Hd & _ & Hs3 & Hget); [done|].
  unfold process_pair_verify. rewrite Hd, Hs3. unfold handle_pair_verify_m3.
  rewrite bool_decide_eq_true_2 by done. cbn [negb]. rewrite Hsh, Hget.
  assert (Tlv.values_of (verify_m3_items enc) Tlv.EncryptedData = Some enc) as -> by tlv_value.
  cbn [ok_or mbind outcome_bind]. unfold derive_key, HkdfSha512_expand. rewrite Hk.
  cbn [ok_or map_err mbind outcome_bind]. unfold decrypt_with_key.
  rewrite nonce_of_prefix_ok by (cbn; lia). rewrite Cipher_new_ok by (by eapply hkdf_length).
  cbn [expect map_err mbind outcome_bind]. unfold Cipher_decrypt. rewrite Henc. cbn [ok_or map_err mbind outcome_bind].
  destruct (Tlv.decode_encode_all (verify_sub_items e sk (x_public secret))) as (sub & -> & Hsub).
  cbn [map_err mbind outcome_bind]. rewrite !Hsub.
  assert (Tlv.values_of (verify_sub_items e sk (x_public secret)) Tlv.Identifier = Some (ed_public sk)) as -> by tlv_value.
  assert (Tlv.values_of (verify_sub_items e sk (x_public secret)) Tlv.Signature =
    Some (ed_sign sk (x_public e ++ ed_public sk ++ x_public secret))) as -> by tlv_value.
  cbn [ok_or mbind outcome_bind]. rewrite ed_public_length, Hcc, Hkp. cbn [Nat.eqb negb ok_or mbind outcome_bind].
  rewrite Ed25519PublicKey_from_bytes_ok, Ed25519Signature_from_bytes_ok. cbn [map_err mbind outcome_bind].
  unfold Ed25519PublicKey_verify. rewrite ed_sign_verify. cbn [map_err mbind outcome_bind].
  destruct (derive_session_keys_ok (x_dh secret (x_public e))) as (keys & Hkeys & _).
  unfold derive_session_keys. rewrite Hkeys. cbn [mbind outcome_bind finish].
  eexists _, _, keys. by split_and!.
Qed.

(** ** Invariant of the server *)

(** What each state promises about the fields; the [InvalidState] exits of the
    handlers that look at them are dead. *)
Definition server_inv (s : PairingServer) : Prop :=
  match state s with
  | WaitingForM3 => srp_server s <> None
  | PairSetupComplete => srp_session_key s <> None /\ encryption_keys s <> None
  | VerifyWaitingForM3 => shared_secret s <> None /\ verify_keypair s <> None /\ client_curve_public s <> None
  | Complete => encryption_keys s <> None /\ client_public_key s <> None
  | Idle | Error => True
  end.

Lemma finish_wp s r (Q : PairingServer -> Prop) : Q (set_state s Error) -> wp r (fun x => Q x.2) ->
  safe (finish s r) /\ forall res s', finish s r = Ok (res, s') -> Q s'.
Proof.
  intros He Hr. destruct r as [[res0 s0]|e|]; cbn in *; (split; [done|]); intros; by simplify_eq.
Qed.

Lemma decrypt_with_key_safe data key prefix : length key = 32%nat -> (length prefix <= 12)%nat ->
  safe (decrypt_with_key data key prefix).
Proof.
  intros Hk Hp. unfold decrypt_with_key. rewrite nonce_of_prefix_ok, Cipher_new_ok by done.
  cbn [expect map_err mbind outcome_bind]. unfold Cipher_decrypt. by destruct (aead_open _ _ _ _).
Qed.

(** One handler at a time: no panic, and a success that leads to a completed
    pair-setup went through the proof check. *)
(** The SRP premaster secret (A v^u)^b and the session key of a client's public key
    [pub], as the server computes them. *)
Definition srp_key (srv : SrpServer) (pub : list Z) : list Z :=
  let n := p_n (sv_params srv) in
  let u := compute_u pub (sv_public_key srv) (p_size (sv_params srv)) in
  sha512 (to_bytes_be (modpow ((from_be pub * modpow (sv_v srv) u n) mod n) (sv_b srv) n)).

(** The message [tlv] proves knowledge of the session key to the server [s]: it comes
    after M1, its public key is not a multiple of the modulus, and its proof is
    H(H(N) xor H(g), H(I), salt, A, B, K) for the key K of that public key. *)
Definition proves_key (s : PairingServer) (tlv : Tlv.TlvDecoder) (key : list Z) : Prop :=
  state s = WaitingForM3 /\ exists srv pub, srp_server s = Some srv /\ Tlv.get tlv Tlv.PublicKey = Some pub /\
    from_be pub mod p_n (sv_params srv) <> 0 /\ key = srp_key srv pub /\
    Tlv.get tlv Tlv.Proof_ =
      Some (compute_m1 (sv_params srv) (bs "Pair-Setup") (srp_salt s) (from_be pub) (from_be (sv_public_key srv)) key).

Lemma verify_client_proof srv salt pub proof key m2 : verify_client srv (bs "Pair-Setup") salt pub proof = Ok (key, m2) ->
  from_be pub mod p_n (sv_params srv) <> 0 /\ key = srp_key srv pub /\
  proof = compute_m1 (sv_params srv) (bs "Pair-Setup") salt (from_be pub) (from_be (sv_public_key srv)) key.
Proof.
  unfold verify_client, srp_key. destruct (Z.eqb_spec (from_be pub mod p_n (sv_params srv)) 0); [done|].
  case_bool_decide as Hp; [|done]. cbn [negb]. intros [= <- _]. done.
Qed.

Lemma setup_m3_spec s tlv : safe (handle_pair_setup_m3 s tlv) /\
  forall r s', handle_pair_setup_m3 s tlv = Ok (r, s') -> state s' = Error \/
    (state s' = PairSetupComplete /\ server_inv s' /\ exists key, proves_key s tlv key /\ srp_session_key s' = Some key).
Proof.
  unfold handle_pair_setup_m3, proves_key. case_bool_decide as Hst; cbn [negb]; [|split; [done|]; intros; simplify_eq; by left].
  destruct (srp_server s) as [srv|]; [|split; [done|]; cbn; intros; simplify_eq; by left].
  destruct (Tlv.get tlv Tlv.PublicKey) as [pub|]; [|split; [done|]; cbn; intros; simplify_eq; by left].
  destruct (Tlv.get tlv Tlv.Proof_) as [proof|]; [|split; [done|]; cbn; intros; simplify_eq; by left].
  cbn [ok_or mbind outcome_bind]. change (srp_salt (take_srp s)) with (srp_salt s).
  destruct (verify_client srv (bs "Pair-Setup") (srp_salt s) pub proof) as [[key m2]|e|] eqn:Hv.
  2:{ split; [done|]; cbn; intros; simplify_eq; by left. }
  2:{ unfold verify_client in Hv. by repeat case_match. }
  assert (length key = 64%nat) as Hlen.
  { unfold verify_client in Hv. repeat case_match; simplify_eq. apply sha512_length. }
  cbn [map_err mbind outcome_bind].
  destruct (derive_key_ok (bs "Pair-Setup-Encrypt-Salt") key (bs "Pair-Setup-Encrypt-Info")) as (ek & -> & Hek).
  cbn [map_err mbind outcome_bind]. unfold encrypt_accessory_data.
  edestruct encrypt_with_key_ok as (enc & -> & _); [done|by cbn; lia|apply length_sub_tlv|].
  cbn [mbind outcome_bind]. rewrite Hlen. cbn [Nat.eqb negb].
  destruct (derive_session_keys_ok key) as (keys & -> & _). cbn [mbind outcome_bind finish].
  apply verify_client_proof in Hv as (H1 & H2 & ->).
  split; [done|]. intros r s' [= <- <-]. right. split_and!; [done|by split|]. eauto 15.
Qed.

Lemma setup_m1_spec s tlv rand : safe (handle_pair_setup_m1 s tlv rand) /\
  forall r s', handle_pair_setup_m1 s tlv rand = Ok (r, s') -> state s' <> PairSetupComplete /\ server_inv s'.
Proof.
  unfold handle_pair_setup_m1. set (s1 := if negb _ then _ else _). clearbody s1.
  destruct (Tlv.get tlv Tlv.Method) as [mb|]; cbn [ok_or mbind outcome_bind]; [|by split; [|cbn; intros; simplify_eq]].
  destruct (negb _); [by split; [|cbn; intros; simplify_eq]|].
  destruct (srp_verifier s1); cbn [ok_or mbind outcome_bind]; [|by split; [|cbn; intros; simplify_eq]].
  split; [done|]. cbn. intros; simplify_eq. by split.
Qed.

Lemma verify_m1_spec s tlv secret : safe (handle_pair_verify_m1 s tlv secret) /\
  forall r s', handle_pair_verify_m1 s tlv secret = Ok (r, s') -> server_inv s' /\ state s' <> PairSetupComplete.
Proof.
  unfold handle_pair_verify_m1. set (s1 := if negb _ && _ then _ else _). clearbody s1.
  destruct (Tlv.get tlv Tlv.PublicKey) as [arr|]; [|by split; [|intros; simplify_eq]].
  destruct (length arr =? 32)%nat eqn:Hl; cbn [negb]; [|by split; [|intros; simplify_eq]].
  unfold X25519PublicKey_from_bytes. rewrite Hl. cbn [negb].
  edestruct derive_key_ok as (ek & -> & Hek). cbn [map_err mbind outcome_bind identity].
  edestruct encrypt_with_key_ok as (enc & -> & _); [done|by cbn; lia|apply length_sub_tlv|].
  cbn [mbind outcome_bind finish]. split; [done|]. intros; simplify_eq. split; [by split_and!|done].
Qed.

Lemma verify_m3_spec s tlv : safe (handle_pair_verify_m3 s tlv) /\
  forall r s', handle_pair_verify_m3 s tlv = Ok (r, s') -> server_inv s' /\ state s' <> PairSetupComplete.
Proof.
  unfold handle_pair_verify_m3. destruct (negb _); [by split; [|intros; simplify_eq]|].
  apply (finish_wp _ _ (fun s' => server_inv s' /\ state s' <> PairSetupComplete)); [done|].
  apply wp_bind, wp_ok_or. intros shared _. apply wp_bind, wp_ok_or. intros enc _.
  apply wp_bind, wp_map_err. edestruct derive_key_ok as (ek & -> & Hek). cbn [wp].
  apply wp_bind, wp_map_err. eapply wp_mono; [apply safe_wp, decrypt_with_key_safe; [done|cbn; lia]|].
  intros dec _. apply wp_bind, wp_map_err. eapply wp_mono; [apply safe_wp, Tlv.decode_safe|]. intros sub _.
  apply wp_bind, wp_ok_or. intros id _. destruct (negb _); [done|].
  apply wp_bind, wp_ok_or. intros sg _. apply wp_bind, wp_ok_or. intros curve _.
  apply wp_bind, wp_ok_or. intros kp _.
  apply wp_bind, wp_map_err. unfold Ed25519PublicKey_from_bytes. destruct (negb _); [done|].
  destruct (ed_key_valid id); [|done]. cbn [wp].
  apply wp_bind, wp_map_err. unfold Ed25519Signature_from_bytes. destruct (negb _); [done|]. cbn [wp].
  apply wp_bind, wp_map_err. unfold Ed25519PublicKey_verify. destruct (ed_verify _ _ _); [|done]. cbn [wp].
  unfold derive_session_keys. destruct (derive_session_keys_ok shared) as (keys & -> & _). by repeat split.
Qed.

(** Everything that changes a server. *)
Inductive server_step : PairingServer -> PairingServer -> Prop :=
| step_setup s data rand r s' : process_pair_setup s data rand = Ok (r, s') -> server_step s s'
| step_verify s data secret r s' : process_pair_verify s data secret = Ok (r, s') -> server_step s s'
| step_password s pw : server_step s (set_password s pw)
| step_reset s : server_step s (reset s).

(** After a pair-setup message: the invariant, and completion only by the proof in
    that message. *)
Definition setup_post (s : PairingServer) (data : list Z) (s' : PairingServer) : Prop :=
  server_inv s' /\
  (state s' = PairSetupComplete -> exists tlv key, Tlv.decode data = Ok tlv /\ proves_key s tlv key /\ srp_session_key s' = Some key).

Lemma process_setup_spec s data rand : safe (process_pair_setup s data rand) /\
  forall r s', process_pair_setup s data rand = Ok (r, s') -> setup_post s data s'.
Proof.
  unfold process_pair_setup. pose proof (Tlv.decode_safe data) as Hsafe.
  destruct (Tlv.decode data) as [tlv|e|] eqn:Ed; [|split; [done|]; intros ? ? [= _ <-]; by split|done].
  assert (forall e, safe (Ok (E := Empty_set) (error_result s e)) /\
    forall r s', Ok (E := Empty_set) (error_result s e) = Ok (r, s') -> setup_post s data s') as Hother
    by (split; [done|]; intros ? ? [= _ <-]; by split).
  assert (safe (handle_pair_setup_m1 s tlv rand) /\
    forall r s', handle_pair_setup_m1 s tlv rand = Ok (r, s') -> setup_post s data s') as Hm1.
  { destruct (setup_m1_spec s tlv rand) as [H1 H2]. split; [done|]. intros r s' [? ?]%H2. by split. }
  assert (safe (handle_pair_setup_m3 s tlv) /\
    forall r s', handle_pair_setup_m3 s tlv = Ok (r, s') -> setup_post s data s') as Hm3.
  { destruct (setup_m3_spec s tlv) as [H1 H2]. split; [done|].
    intros r s' [He|(Hc & Hi & key & Hk & Hs)]%H2.
    - unfold setup_post, server_inv. rewrite He. by split.
    - split; [done|]. intros _. by exists tlv, key. }
  destruct (state_or_0 tlv) as [|[[q|q|]|q|]|q]; auto.
Qed.

Lemma process_verify_spec s data secret : safe (process_pair_verify s data secret) /\
  forall r s', process_pair_verify s data secret = Ok (r, s') -> server_inv s' /\ state s' <> PairSetupComplete.
Proof.
  unfold process_pair_verify. pose proof (Tlv.decode_safe data) as Hsafe.
  destruct (Tlv.decode data) as [tlv|e|]; [|split; [done|]; intros; by simplify_eq|done].
  assert (forall st, safe (Ok (E := Empty_set) (error_result s (UnexpectedState st))) /\
    forall r s', Ok (E := Empty_set) (error_result s (UnexpectedState st)) = Ok (r, s') -> server_inv s' /\ state s' <> PairSetupComplete) as Hother
    by (split; [done|]; intros; by simplify_eq).
  destruct (state_or_0 tlv) as [|[[q|q|]|q|]|q]; auto using verify_m1_spec, verify_m3_spec.
Qed.

(** The result reports the state the server is left in, and only a completed
    pair-verify is reported as complete there. *)
Definition reported (x : PairingResult * PairingServer) : Prop :=
  new_state x.1 = state x.2 /\ (new_state x.1 = Complete -> complete x.1 = true).

Lemma finish_reported s r x : (forall y, r = Ok y -> reported y) -> finish s r = Ok x -> reported x.
Proof. destruct r as [y|e|]; cbn; intros H [= <-]; [by apply H|by split]. Qed.

Ltac run_handler H :=
  repeat (apply bind_ok in H as (? & _ & H) || (case_match; [try done|try done])); simplify_eq; by split.

Lemma error_reported s e r s' : Ok (E := Empty_set) (error_result s e) = Ok (r, s') -> reported (r, s').
Proof. unfold error_result. intros [= <- <-]. by split. Qed.

Lemma process_verify_reported s data secret r s' :
  process_pair_verify s data secret = Ok (r, s') -> reported (r, s') /\ (new_state r = Complete -> data <> []).
Proof.
  intros H. split.
  2:{ intros Hc ->. change (process_pair_verify s [] secret) with (Ok (E := Empty_set) (error_result s (UnexpectedState 0))) in H.
      unfold error_result in H. injection H as <- <-. discriminate Hc. }
  revert H. unfold process_pair_verify.
  destruct (Tlv.decode data) as [tlv|e|]; [|apply error_reported|done].
  destruct (state_or_0 tlv) as [|[[q|q|]|q|]|q]; try apply error_reported.
  - unfold handle_pair_verify_m3. destruct (negb _); [apply error_reported|]. apply finish_reported.
    intros y Hy. run_handler Hy.
  - unfold handle_pair_verify_m1. set (s1 := if _ && _ then _ else _). clearbody s1.
    destruct (Tlv.get tlv Tlv.PublicKey) as [arr|]; [|apply error_reported].
    destruct (negb _); [apply error_reported|].
    destruct (X25519PublicKey_from_bytes arr); [|apply error_reported|done]. apply finish_reported.
    intros y Hy. run_handler Hy.
Qed.

Lemma reachable_inv ident salt s : rtc server_step (PairingServer_new ident salt) s -> server_inv s.
Proof.
  intros H. assert (server_inv (PairingServer_new ident salt)) as Hi by done. revert Hi.
  induction H as [|x y z Hxy _ IH]; [done|]. intros Hx. apply IH. clear IH.
  destruct Hxy as [x data rand r y H|x data secret r y H|x pw|x]; try done.
  - by apply process_setup_spec in H as [? _].
  - by apply process_verify_spec in H as [? _].
Qed.

(** ** Properties *)

(** C1: transient pair-setup completes. A client with the right PIN and a
    server in any state whose password is that PIN run the four messages
    through, each end fed only with the bytes the other produced: the client
    ends in [Complete], the server in [PairSetupComplete], and both hold keys
    derived from the same SRP session key (for random exponents with a public key of
    the server that is not 0 modulo the prime, which a client has to reject). Both ends, however, name the
    ["Control-Write"] key their encryption key and the ["Control-Read"] key
    their decryption key, so the two directions are not crossed: what the
    client encrypts the server would have to open with its own encryption
    key. *)
Theorem transient_pairing_completes (keypair pw : list Z) (srv : PairingServer) (ra rb r0 r1 r2 : Z)
  (Hpw : srp_verifier srv = Some (compute_verifier (bs "Pair-Setup") pw (srp_salt srv) RFC5054_3072))
  (HB : from_be (sv_public_key (SrpServer_new (compute_verifier (bs "Pair-Setup") pw (srp_salt srv) RFC5054_3072)
          RFC5054_3072 rb)) mod p_n RFC5054_3072 <> 0) :
  let cl0 := PairSetup.set_transient (PairSetup.set_pin (PairSetup.PairSetup_new keypair) pw) true in
  exists m1 cl1 res2 srv1 m3 cl2 res4 srv2 ck cl3 sk,
    PairSetup.step cl0 None r0 = (Ok (PairSetup.SendData m1), cl1) /\
    process_pair_setup srv m1 rb = Ok (res2, srv1) /\
    PairSetup.step cl1 (Some (response res2)) ra = (Ok (PairSetup.SendData m3), cl2) /\
    process_pair_setup srv1 m3 r1 = Ok (res4, srv2) /\
    PairSetup.step cl2 (Some (response res4)) r2 = (Ok (PairSetup.StepComplete ck), cl3) /\
    PairSetup.state cl3 = PairSetup.Complete /\ state srv2 = PairSetupComplete /\
    encryption_keys srv2 = Some sk /\
    PairSetup.encrypt_key ck = encrypt_key sk /\ PairSetup.decrypt_key ck = decrypt_key sk.
Proof.
  intros cl0. set (cl1 := PairSetup.with_state cl0 PairSetup.WaitingResponse).
  destruct (srp_exchange RFC5054_3072 (bs "Pair-Setup") pw (srp_salt srv) ra rb) as (ver & m2 & Hc & Hs & Hvs & Hlen);
    [done|vm_compute; reflexivity|done|].
  destruct (server_m1 srv _ rb Hpw) as (res2 & srv1 & H1 & Hr2 & Hst1 & Hsrv1 & Hsalt & _).
  destruct (client_m2 cl1 pw (srp_salt srv) _ ra ver eq_refl eq_refl Hc) as (cl2 & H2 & Hst2 & Hv2 & Ht2).
  rewrite <- Hsalt in Hs at 2.
  destruct (server_m3 srv1 _ _ _ _ m2 r1 Hst1 Hsrv1 Hs Hlen) as (res4 & srv2 & enc & keys & H3 & Hr4 & Hst3 & Hk & Hdk).
  destruct (client_m4 cl2 ver m2 enc _ r2 keys Hst2 Hv2 Ht2 Hvs Hdk) as (cl3 & ck & H4 & Hst4 & He & Hd).
  exists (Tlv.encode_all m1_items), cl1, res2, srv1. eexists. exists cl2, res4, srv2, ck, cl3, keys.
  rewrite Hr2, Hr4. split_and!; [done|done|exact H2|exact H3|done..].
Qed.

(** Pair-verify does not authenticate. A client that was never paired,
    with signing and exchange keys of its own making, completes pair-verify
    with any server in any state, a server without a password included: the
    server checks the signature against the key sent in the same message, ends
    in [Complete] and derives the session keys, which the client can derive
    too. *)
Theorem pair_verify_accepts_unpaired (s : PairingServer) (e sk secret ignored : list Z) :
  exists r1 s1 k enc r2 s2 keys,
    process_pair_verify s (Tlv.encode_all (verify_m1_items e)) secret = Ok (r1, s1) /\
    hkdf_expand (Some (bs "Pair-Verify-Encrypt-Salt")) (x_dh e (x_public secret)) (bs "Pair-Verify-Encrypt-Info") 32 = Some k /\
    aead_seal k (nonce_of_prefix (bs "PV-Msg03")) [] (Tlv.encode_all (verify_sub_items e sk (x_public secret))) = Some enc /\
    process_pair_verify s1 (Tlv.encode_all (verify_m3_items enc)) ignored = Ok (r2, s2) /\
    state s2 = Complete /\ complete r2 = true /\ encryption_keys s2 = Some keys /\
    client_public_key s2 = Some (ed_public sk) /\
    derive_session_keys (x_dh e (x_public secret)) = Ok keys.
Proof.
  destruct (verify_m1_ok s e secret) as (r1 & s1 & H1 & _ & Hst & Hsh & Hkp & Hcc).
  destruct (expand_fixed32_ok (bs "Pair-Verify-Encrypt-Salt") (x_dh secret (x_public e)) (bs "Pair-Verify-Encrypt-Info"))
    as (k & Hk & Hlk).
  destruct (aead_seal_total k (nonce_of_prefix (bs "PV-Msg03")) [] (Tlv.encode_all (verify_sub_items e sk (x_public secret))))
    as [enc Henc]; [apply length_sub_tlv|].
  destruct (verify_m3_ok s1 e sk secret k enc ignored Hst Hsh Hkp Hcc Hk Henc)
    as (r2 & s2 & keys & H2 & Hc & Hcomp & Hke & Hpk & Hdk).
  rewrite (x_dh_comm e secret). exists r1, s1, k, enc, r2, s2, keys. by split_and!.
Qed.

(** C6: the pairing server is robust. In every state it can reach from a
    fresh server by any sequence of messages, password changes and resets, and
    on any bytes, no handler panics; the state always has the fields it
    promises; and pair-setup only completes by a message that answers M1 and
    whose proof is the SRP proof of the session key belonging to its public
    key, which is then the session key held. No pair-verify message completes
    pair-setup. *)
Theorem server_robust (ident salt : list Z) (s : PairingServer)
  (Hreach : rtc server_step (PairingServer_new ident salt) s) (data secret : list Z) (rand : Z) :
  server_inv s /\ safe (process_pair_setup s data rand) /\ safe (process_pair_verify s data secret) /\
  (forall r s', process_pair_setup s data rand = Ok (r, s') -> state s' = PairSetupComplete ->
     exists tlv key, Tlv.decode data = Ok tlv /\ proves_key s tlv key /\ srp_session_key s' = Some key) /\
  (forall r s', process_pair_verify s data secret = Ok (r, s') -> state s' <> PairSetupComplete).
Proof.
  split_and!; [by eapply reachable_inv|apply process_setup_spec|apply process_verify_spec|..].
  - intros r s' H. by apply process_setup_spec in H as [_ ?].
  - intros r s' H. by apply process_verify_spec in H as [_ ?].
Qed.

End WithCrypto.

(** ** Witnesses *)
Import ToyAead.
#[local] Existing Instance toy_pair_crypto.
#[local] Existing Instance toy_pair_crypto_laws.
#[local] Instance small_sha : Sha512 := fun _ => replicate 63 0 ++ [3].
#[local] Instance small_sha_laws : Sha512Laws small_sha.
Proof.
  split; intros m; unfold sha512, small_sha.
  - by rewrite length_app, length_replicate.
  - apply Forall_app. split; [apply Forall_replicate; unfold byte_ok; lia|].
    repeat constructor; unfold byte_ok; lia.
Qed.

Definition demo_server : PairingServer := set_password (PairingServer_new [3] [1; 2; 3]) (bs "3939").

Lemma transient_pairing_completes_witness :
  exists m1 cl1 res2 srv1,
    PairSetup.step (PairSetup.set_transient (PairSetup.set_pin (PairSetup.PairSetup_new [9]) (bs "3939")) true) None 0 =
      (Ok (PairSetup.SendData m1), cl1) /\
    process_pair_setup demo_server m1 6 = Ok (res2, srv1).
Proof.
  destruct (transient_pairing_completes [9] (bs "3939") demo_server 5 6 0 0 0)
    as (m1 & cl1 & res2 & srv1 & m3 & cl2 & res4 & srv2 & ck & cl3 & sk & H1 & H2 & _).
  - reflexivity.
  - lazy; congruence.
  - exists m1, cl1, res2, srv1. split; [exact H1 | exact H2].
Defined.

Lemma pair_verify_accepts_unpaired_witness :
  exists r1 s1, process_pair_verify (PairingServer_new [3] []) (Tlv.encode_all (verify_m1_items [5])) [8] = Ok (r1, s1) /\
  exists enc r2 s2, process_pair_verify s1 (Tlv.encode_all (verify_m3_items enc)) [] = Ok (r2, s2) /\ state s2 = Complete.
Proof.
  destruct (pair_verify_accepts_unpaired (PairingServer_new [3] []) [5] [6] [8] [])
    as (r1 & s1 & k & enc & r2 & s2 & keys & H1 & _ & _ & H2 & H3 & _).
  exists r1, s1. split; [exact H1|]. exists enc, r2, s2. split; [exact H2 | exact H3].
Defined.

Lemma server_robust_witness :
  server_inv demo_server /\ safe (process_pair_setup demo_server [6; 1; 9] 0).
Proof.
  destruct (server_robust [3] [1; 2; 3] demo_server
    (rtc_once _ _ (step_password (PairingServer_new [3] [1; 2; 3]) (bs "3939"))) [6; 1; 9] [] 0) as (H1 & H2 & _).
  split; [exact H1 | exact H2].
Defined.

End PairingServer.
