(* ===== verification/Rtsp.v ===== *)
(** * RTSP messages

    Models the message types of [src/protocol/rtsp/]: [Method] ([mod.rs]),
    [Headers] ([headers.rs]), [RtspRequest] ([request.rs]), [StatusCode]
    ([response.rs]) and the response builder and encoder of
    [server_codec.rs], with the AirPlay 2 wrapper
    [src/receiver/ap2/response_builder.rs].  A Rust string is the [string] of
    its bytes.  [Headers] is a hash map: here an association list, and the order
    in which its iterator yields the entries is the parameter [hash_order]. *)

From stdpp Require Import pretty.
From S2P Require Import Text.

(** The iteration order of a [HashMap]: some permutation of the entries. *)
Class HashOrder := hash_order : list (string * string) -> list (string * string).
Class HashOrderLaws (O : HashOrder) := hash_order_perm : forall l, hash_order l ≡ₚ l.

Module Rtsp.

Inductive Method :=
| Options | Announce | Setup | Record_ | Play | Pause | Flush | Teardown
| SetParameter | GetParameter | Post | Get | SetRateAnchorTime | SetPeers.

Definition Method_as_str (m : Method) : string :=
  match m with
  | Options => "OPTIONS" | Announce => "ANNOUNCE" | Setup => "SETUP" | Record_ => "RECORD"
  | Play => "PLAY" | Pause => "PAUSE" | Flush => "FLUSH" | Teardown => "TEARDOWN"
  | SetParameter => "SET_PARAMETER" | GetParameter => "GET_PARAMETER" | Post => "POST"
  | Get => "GET" | SetRateAnchorTime => "SETRATEANCHORTIME" | SetPeers => "SETPEERS"
  end.

(** ** Headers *)
Definition to_lower (a : Ascii.ascii) : Ascii.ascii :=
  let n := Ascii.N_of_ascii a in
  if (65 <=? n)%N && (n <=? 90)%N then Ascii.ascii_of_N (n + 32) else a.

Fixpoint string_lower (s : string) : string :=
  match s with EmptyString => EmptyString | String a s => String (to_lower a) (string_lower s) end.

(** [str::eq_ignore_ascii_case]. *)
Definition eq_ignore_case (a b : string) : bool := bool_decide (string_lower a = string_lower b).

Abbreviation Headers := (list (string * string)).

Definition Headers_insert (h : Headers) (name value : string) : Headers :=
  filter (fun kv => eq_ignore_case kv.1 name = false) h ++ [(name, value)].

Definition Headers_get (h : Headers) (name : string) : option string :=
  snd <$> List.find (fun kv => eq_ignore_case kv.1 name) h.

Definition Headers_contains (h : Headers) (name : string) : bool :=
  match Headers_get h name with Some _ => true | None => false end.

(** [str::parse] for an unsigned integer of [w] bits: an optional [+], then at
    least one decimal digit, and no overflow. *)
Definition digit (a : Ascii.ascii) : option Z :=
  let n := Z.of_N (Ascii.N_of_ascii a) in
  if (48 <=? n) && (n <=? 57) then Some (n - 48) else None.

Fixpoint parse_digits (w acc : Z) (s : string) : option Z :=
  match s with
  | EmptyString => Some acc
  | String a s =>
      match digit a with
      | Some d => let acc' := acc * 10 + d in if acc' <? 2 ^ w then parse_digits w acc' s else None
      | None => None
      end
  end.

Definition parse_uint (w : Z) (s : string) : option Z :=
  match s with
  | EmptyString => None
  | String a rest =>
      if (Ascii.N_of_ascii a =? 43)%N then
        match rest with EmptyString => None | _ => parse_digits w 0 rest end
      else parse_digits w 0 s
  end.

Definition Headers_cseq (h : Headers) : option Z := Headers_get h "CSeq" ≫= parse_uint 32.
Definition Headers_content_length (h : Headers) : option Z := Headers_get h "Content-Length" ≫= parse_uint 64.
Definition Headers_content_type (h : Headers) : option string := Headers_get h "Content-Type".
Definition Headers_session (h : Headers) : option string := Headers_get h "Session".

(** ** Requests *)
Record RtspRequest := { method : Method; uri : string; headers : Headers; body : list Z }.

(** ** Responses *)
Definition OK : Z := 200.
Definition BAD_REQUEST : Z := 400.
Definition NOT_FOUND : Z := 404.
Definition METHOD_NOT_VALID : Z := 455.
Definition INTERNAL_ERROR : Z := 500.
Definition NOT_IMPLEMENTED : Z := 501.

Definition status_reason (status : Z) : string :=
  match status with
  | 200 => "OK" | 400 => "Bad Request" | 401 => "Unauthorized" | 403 => "Forbidden"
  | 404 => "Not Found" | 405 => "Method Not Allowed" | 406 => "Not Acceptable"
  | 451 => "Parameter Not Understood" | 453 => "Not Enough Bandwidth" | 454 => "Session Not Found"
  | 455 => "Method Not Valid in This State" | 457 => "Invalid Range"
  | 459 => "Aggregate Operation Not Allowed" | 460 => "Only Aggregate Operation Allowed"
  | 461 => "Unsupported Transport" | 500 => "Internal Server Error" | 501 => "Not Implemented"
  | 503 => "Service Unavailable" | _ => "Unknown"
  end.

Record ResponseBuilder := { rb_status : Z; rb_headers : Headers; rb_body : option (list Z) }.

Definition Builder_new (status : Z) : ResponseBuilder :=
  {| rb_status := status; rb_headers := []; rb_body := None |}.
Definition Builder_ok : ResponseBuilder := Builder_new OK.
Definition Builder_error (status : Z) : ResponseBuilder := Builder_new status.
Definition Builder_header (b : ResponseBuilder) (name value : string) : ResponseBuilder :=
  {| rb_status := rb_status b; rb_headers := Headers_insert (rb_headers b) name value; rb_body := rb_body b |}.
Definition Builder_cseq (b : ResponseBuilder) (cseq : Z) : ResponseBuilder :=
  Builder_header b "CSeq" (pretty cseq).
Definition Builder_session (b : ResponseBuilder) (id : string) : ResponseBuilder :=
  Builder_header b "Session" id.
Definition Builder_audio_latency (b : ResponseBuilder) (samples : Z) : ResponseBuilder :=
  Builder_header b "Audio-Latency" (pretty samples).
Definition Builder_body (b : ResponseBuilder) (data : list Z) (content_type : string) : ResponseBuilder :=
  Builder_header {| rb_status := rb_status b; rb_headers := rb_headers b; rb_body := Some data |}
    "Content-Type" content_type.
Definition Builder_binary_body (b : ResponseBuilder) (data : list Z) (content_type : string) : ResponseBuilder :=
  Builder_body b data content_type.
Definition Builder_text_body (b : ResponseBuilder) (text : string) : ResponseBuilder :=
  Builder_body b (bs text) "text/parameters".
Definition Builder_sdp_body (b : ResponseBuilder) (sdp : string) : ResponseBuilder :=
  Builder_body b (bs sdp) "application/sdp".

(** The AirPlay 2 builder: its [binary_body] always says octet-stream. *)
Definition Ap2_binary_body (b : ResponseBuilder) (data : list Z) : ResponseBuilder :=
  Builder_binary_body b data "application/octet-stream".
Definition Ap2_server (b : ResponseBuilder) (version : string) : ResponseBuilder :=
  Builder_header b "Server" ("AirTunes/" +:+ version).
Definition Ap2_auth_required (cseq : Z) : ResponseBuilder := Builder_cseq (Builder_error 470) cseq.
Definition Ap2_pairing_response (cseq : Z) (data : list Z) : ResponseBuilder :=
  Ap2_binary_body (Builder_cseq Builder_ok cseq) data.

Record RtspResponse := {
  version : string; status : Z; reason : string; resp_headers : Headers; resp_body : list Z
}.

Definition Builder_build (b : ResponseBuilder) : RtspResponse :=
  let h := match rb_body b with
           | Some data => Headers_insert (rb_headers b) "Content-Length" (pretty (Z.of_nat (length data)))
           | None => rb_headers b
           end in
  {| version := "RTSP/1.0"; status := rb_status b; reason := status_reason (rb_status b);
     resp_headers := h; resp_body := default [] (rb_body b) |}.

Section Encode.
Context {O : HashOrder}.

Definition crlf : list Z := [13; 10].

Definition encode_header (kv : string * string) : list Z := bs kv.1 ++ bs ": " ++ bs kv.2 ++ crlf.

Definition encode_response (r : RtspResponse) : list Z :=
  bs (version r) ++ bs " " ++ bs (pretty (status r)) ++ bs " " ++ bs (reason r) ++ crlf ++
  concat (map encode_header (hash_order (resp_headers r))) ++ crlf ++ resp_body r.

Definition Builder_encode (b : ResponseBuilder) : list Z := encode_response (Builder_build b).

End Encode.

(** ** Lemmas *)
Lemma eq_ignore_case_refl a : eq_ignore_case a a = true.
Proof. by apply bool_decide_eq_true_2. Qed.

(** At most one entry per name, up to case. *)
Definition headers_ok (h : Headers) : Prop := NoDup (map (fun kv => string_lower kv.1) h).

Lemma headers_insert_ok h name value : headers_ok h -> headers_ok (Headers_insert h name value).
Proof.
  unfold headers_ok, Headers_insert. intros H. rewrite map_app. apply NoDup_app. split_and!.
  - induction h as [|kv h IH]; [constructor|]. inversion H as [|? ? Hnin Hnd]; subst.
    rewrite filter_cons. case_decide; [|by apply IH]. cbn. constructor; [|by apply IH].
    intros (kv' & Heq & Hin)%list_elem_of_fmap. apply list_elem_of_filter in Hin as [_ Hin].
    apply Hnin. rewrite Heq. by apply (list_elem_of_fmap_2 (fun kv => string_lower kv.1)).
  - intros x (kv & -> & Hin)%list_elem_of_fmap. apply list_elem_of_filter in Hin as [Hne _].
    unfold eq_ignore_case in Hne. apply bool_decide_eq_false in Hne. cbn. rewrite list_elem_of_singleton. done.
  - constructor; [apply not_elem_of_nil | constructor].
Qed.

Lemma headers_get_insert h name value name' :
  Headers_get (Headers_insert h name value) name' =
  if eq_ignore_case name name' then Some value else Headers_get h name'.
Proof.
  unfold Headers_get, Headers_insert.
  induction h as [|[k v] h IH]; [cbn; by destruct (eq_ignore_case _ _)|].
  rewrite filter_cons. cbn [fst].
  destruct (decide (eq_ignore_case k name = false)) as [Hd|Hd].
  - cbn [app List.find fst].
    destruct (eq_ignore_case k name') eqn:Hk; [|exact IH].
    unfold eq_ignore_case in *. apply bool_decide_eq_false in Hd. apply bool_decide_eq_true in Hk.
    rewrite bool_decide_eq_false_2 by congruence. done.
  - rewrite IH. cbn [List.find fst]. apply not_false_iff_true in Hd. unfold eq_ignore_case in *.
    apply bool_decide_eq_true in Hd. case_bool_decide as Hn; [done|].
    rewrite bool_decide_eq_false_2 by congruence. done.
Qed.

End Rtsp.
