(* ===== verification/Ap2Session.v ===== *)
(** * Session state machine of the AirPlay 2 receiver

    Models [src/receiver/ap2/session_state.rs]: the states, the methods each
    state allows, the authentication and encryption predicates, and the
    validated transition [transition_to].  The theorems are about the traces
    of the machine: which way an authenticated state can be reached. *)

From stdpp Require Import relations.
From S2P Require Import Text.

Module Ap2Session.

Inductive Ap2SessionState :=
| Connected
| InfoExchanged
| PairingSetup (step : Z)
| PairingVerify (step : Z)
| Paired
| SetupPhase1
| SetupPhase2
| Streaming
| Paused
| Teardown
| ErrorState (code : Z) (message : string).

#[export] Instance Ap2SessionState_eq_dec : EqDecision Ap2SessionState.
Proof. solve_decision. Defined.

(** [matches!(method, "A" | "B" | ...)]. *)
Definition one_of (m : string) (l : list string) : bool := bool_decide (m ∈ l).

Definition allows_method (s : Ap2SessionState) (m : string) : bool :=
  match s with
  | Connected => one_of m ["OPTIONS"; "GET"; "POST"]
  | InfoExchanged => one_of m ["OPTIONS"; "GET"; "POST"]
  | PairingSetup _ => one_of m ["OPTIONS"; "POST"]
  | PairingVerify _ => one_of m ["OPTIONS"; "POST"]
  | Paired => one_of m ["OPTIONS"; "GET"; "POST"; "SETUP"; "GET_PARAMETER"; "SET_PARAMETER"]
  | SetupPhase1 => one_of m ["OPTIONS"; "SETUP"; "GET_PARAMETER"; "SET_PARAMETER"; "TEARDOWN"]
  | SetupPhase2 => one_of m ["OPTIONS"; "RECORD"; "GET_PARAMETER"; "SET_PARAMETER"; "TEARDOWN"]
  | Streaming => one_of m ["OPTIONS"; "GET_PARAMETER"; "SET_PARAMETER"; "FLUSH"; "TEARDOWN"; "POST"]
  | Paused => one_of m ["OPTIONS"; "RECORD"; "GET_PARAMETER"; "SET_PARAMETER"; "TEARDOWN"]
  | Teardown => one_of m ["OPTIONS"]
  | ErrorState _ _ => false
  end.

Definition is_authenticated (s : Ap2SessionState) : bool :=
  match s with
  | Paired | SetupPhase1 | SetupPhase2 | Streaming | Paused => true
  | _ => false
  end.

Definition is_streaming (s : Ap2SessionState) : bool :=
  match s with Streaming => true | _ => false end.

Definition requires_encryption (s : Ap2SessionState) : bool := is_authenticated s.

(** The two states whose debug renderings the error carries. *)
Inductive StateError := InvalidTransition (from to : Ap2SessionState).

Definition is_error (s : Ap2SessionState) : bool :=
  match s with ErrorState _ _ => true | _ => false end.

(** The transition table. *)
Definition valid_transition (s new_state : Ap2SessionState) : bool :=
  match s, new_state with
  | Connected, InfoExchanged => true
  | Connected, PairingSetup 1 => true
  | InfoExchanged, PairingSetup 1 => true
  | PairingSetup 1, PairingSetup 2 => true
  | PairingSetup 2, PairingSetup 3 => true
  | PairingSetup 3, PairingSetup 4 => true
  | PairingSetup 4, PairingVerify 1 => true
  | PairingVerify 1, PairingVerify 2 => true
  | PairingVerify 2, PairingVerify 3 => true
  | PairingVerify 3, PairingVerify 4 => true
  | PairingVerify 4, Paired => true
  | Paired, SetupPhase1 => true
  | SetupPhase1, SetupPhase2 => true
  | SetupPhase2, Streaming => true
  | Streaming, Paused => true
  | Paused, Streaming => true
  | _, _ => false
  end.

Definition transition_to (s new_state : Ap2SessionState) : outcome StateError Ap2SessionState :=
  if is_error new_state then Ok new_state
  else if bool_decide (new_state = Teardown) && negb (bool_decide (s = Connected) || is_error s)
  then Ok new_state
  else if valid_transition s new_state then Ok new_state
  else Err (InvalidTransition s new_state).

(** ** Traces *)

(** [trace s l s']: from [s] the targets [l] were accepted one after the other,
    ending in [s']. *)
Inductive trace : Ap2SessionState -> list Ap2SessionState -> Ap2SessionState -> Prop :=
| trace_nil s : trace s [] s
| trace_snoc s l s' t t' : trace s l s' -> transition_to s' t = Ok t' -> trace s (l ++ [t]) t'.

(** The pairing steps in order. *)
Definition pairing_steps : list Ap2SessionState :=
  [PairingSetup 1; PairingSetup 2; PairingSetup 3; PairingSetup 4;
   PairingVerify 1; PairingVerify 2; PairingVerify 3; PairingVerify 4; Paired].

(** The states a trace must have been through to be in [s]. *)
Definition required (s : Ap2SessionState) : list Ap2SessionState :=
  match s with
  | PairingSetup n => take (Z.to_nat n) pairing_steps
  | PairingVerify n => take (4 + Z.to_nat n) pairing_steps
  | Paired => pairing_steps
  | SetupPhase1 => pairing_steps ++ [SetupPhase1]
  | SetupPhase2 => pairing_steps ++ [SetupPhase1; SetupPhase2]
  | Streaming => pairing_steps ++ [SetupPhase1; SetupPhase2; Streaming]
  | Paused => pairing_steps ++ [SetupPhase1; SetupPhase2; Streaming; Paused]
  | _ => []
  end.

(** ** Lemmas *)
Lemma transition_target s t t' : transition_to s t = Ok t' -> t' = t.
Proof. unfold transition_to. intros H. repeat case_match; by simplify_eq. Qed.

Lemma transition_cases s t t' : transition_to s t = Ok t' ->
  t' = t /\ (is_error t = true \/ t = Teardown \/ valid_transition s t = true).
Proof.
  intros H. split; [by eapply transition_target|]. unfold transition_to in H.
  destruct (is_error t); [by left|right].
  destruct (decide (t = Teardown)) as [->|Hne]; [by left|right].
  rewrite bool_decide_eq_false_2 in H by done. cbn [andb] in H. by case_match.
Qed.

(** Accepting a target extends what has been required so far by that target. *)
Lemma required_step s t : valid_transition s t = true -> required t `sublist_of` required s ++ [t].
Proof.
  destruct s as [| |n|n| | | | | | |]; try done; destruct t as [| |m|m| | | | | | |]; try done;
    try (intros _; cbn; solve [repeat constructor]);
    cbn; intros H; repeat (case_match; try done); cbn; solve [repeat constructor].
Qed.

Lemma trace_required s l s' : trace s l s' -> s = Connected -> required s' `sublist_of` l.
Proof.
  induction 1 as [s|s l s' t t' _ IH Ht]; intros ->; [apply sublist_nil_l|].
  apply transition_cases in Ht as [-> [He|[-> |Hv]]].
  - destruct t; try done. apply sublist_nil_l.
  - apply sublist_nil_l.
  - etransitivity; [by apply required_step|]. apply sublist_app; [by apply IH|done].
Qed.

(** ** Properties *)

(** No authenticated state without complete pairing. On every trace of
    accepted transitions from a fresh connection that ends in an authenticated
    state (the states in which the control channel must be encrypted), all four
    pair-setup and all four pair-verify steps and [Paired] were accepted in
    this order. In particular, a driver that only submits the states the
    request handlers produce, among which [PairingSetup 1] never is, does not
    reach an authenticated state. *)
Theorem authenticated_after_pairing (l : list Ap2SessionState) (s : Ap2SessionState)
  (Htr : trace Connected l s) (Hauth : is_authenticated s = true) :
  requires_encryption s = true /\ pairing_steps `sublist_of` l /\
  ~ Forall (fun t => t ∈ [InfoExchanged; PairingSetup 2; PairingSetup 4; PairingVerify 2;
                          Paired; SetupPhase1; SetupPhase2; Streaming; Paused; Teardown] \/
                     is_error t = true) l.
Proof.
  assert (pairing_steps `sublist_of` l) as Hsub.
  { apply trace_required in Htr; [|done]. etransitivity; [|exact Htr].
    destruct s; try done; cbn; repeat constructor. }
  split_and!; [done|done|]. intros Hall.
  assert (PairingSetup 1 ∈ l) as Hin.
  { eapply elem_of_submseteq; [|by apply sublist_submseteq]. left. }
  rewrite Forall_forall in Hall. destruct (Hall _ Hin) as [H|H]; [|done].
  pose proof (bool_decide_eq_true_2 _ H) as H'. vm_compute in H'. discriminate H'.
Qed.

Lemma authenticated_after_pairing_witness :
  exists l, trace Connected l SetupPhase1 /\ pairing_steps `sublist_of` l.
Proof.
  exists ([InfoExchanged] ++ pairing_steps ++ [SetupPhase1]).
  assert (trace Connected ([InfoExchanged] ++ pairing_steps ++ [SetupPhase1]) SetupPhase1) as Htr.
  { assert (forall l s t, trace Connected l s -> transition_to s t = Ok t -> trace Connected (l ++ [t]) t) as Hs
      by (intros; by eapply trace_snoc).
    change ([InfoExchanged] ++ pairing_steps ++ [SetupPhase1]) with
      ((((((((((([] ++ [InfoExchanged]) ++ [PairingSetup 1]) ++ [PairingSetup 2]) ++ [PairingSetup 3])
        ++ [PairingSetup 4]) ++ [PairingVerify 1]) ++ [PairingVerify 2]) ++ [PairingVerify 3])
        ++ [PairingVerify 4]) ++ [Paired]) ++ [SetupPhase1]).
    repeat match goal with |- trace _ (_ ++ [_]) _ => eapply Hs end; [apply trace_nil | reflexivity ..]. }
  split; [exact Htr|].
  apply (authenticated_after_pairing ([InfoExchanged] ++ pairing_steps ++ [SetupPhase1]) SetupPhase1 Htr).
  reflexivity.
Defined.

End Ap2Session.
