(* ===== verification/Unicode.v ===== *)
(** * Unicode encodings

    The part of the standard library's string functions the property-list codec
    and the RTSP parsers use.  A string as text is its list of Unicode scalar
    values ([chars]); as bytes it is the UTF-8 of that list ([as_bytes]).
    [encode_utf16], [String::from_utf16] and [str::from_utf8] convert to and from
    code units; [lines], [split_whitespace] and [trim] work on scalars. *)

From stdpp Require Import sets gmap.
From S2P Require Import Bytes.

Module Unicode.

Definition scalar (c : Z) : Prop := 0 <= c < 0xD800 \/ 0xE000 <= c <= 0x10FFFF.
Definition string_ok (s : list Z) : Prop := Forall scalar s.

Definition is_ascii (s : list Z) : bool := forallb (fun c => c <? 128) s.

(** A scalar above the basic plane takes a surrogate pair. *)
Definition utf16_units (c : Z) : list Z :=
  if c <? 0x10000 then [c]
  else let v := c - 0x10000 in [0xD800 + Z.shiftr v 10; 0xDC00 + Z.land v 0x3FF].

Definition encode_utf16 (s : list Z) : list Z := concat (map utf16_units s).

Definition is_high (u : Z) : bool := (0xD800 <=? u) && (u <? 0xDC00).
Definition is_low (u : Z) : bool := (0xDC00 <=? u) && (u <? 0xE000).

(** An unpaired surrogate is an error. *)
Fixpoint from_utf16 (us : list Z) : option (list Z) :=
  match us with
  | [] => Some []
  | u :: rest =>
      if is_high u then
        match rest with
        | l :: rest' =>
            if is_low l
            then cons (0x10000 + Z.shiftl (u - 0xD800) 10 + (l - 0xDC00)) <$> from_utf16 rest'
            else None
        | [] => None
        end
      else if is_low u then None
      else cons u <$> from_utf16 rest
  end.

Definition cont (lo hi b : Z) : bool := (lo <=? b) && (b <=? hi).

(** The well-formed byte sequences of the Unicode standard (no overlong forms, no
    surrogates, nothing above [U+10FFFF]). *)
Fixpoint from_utf8 (bs : list Z) : option (list Z) :=
  match bs with
  | [] => Some []
  | b0 :: r0 =>
      if b0 <? 0x80 then cons b0 <$> from_utf8 r0
      else match r0 with
      | [] => None
      | b1 :: r1 =>
          if cont 0xC2 0xDF b0 then
            if cont 0x80 0xBF b1 then cons ((b0 - 0xC0) * 64 + (b1 - 0x80)) <$> from_utf8 r1 else None
          else match r1 with
          | [] => None
          | b2 :: r2 =>
              if cont 0xE0 0xEF b0 then
                if cont (if b0 =? 0xE0 then 0xA0 else 0x80) (if b0 =? 0xED then 0x9F else 0xBF) b1 && cont 0x80 0xBF b2
                then cons ((b0 - 0xE0) * 4096 + (b1 - 0x80) * 64 + (b2 - 0x80)) <$> from_utf8 r2 else None
              else match r2 with
              | [] => None
              | b3 :: r3 =>
                  if cont 0xF0 0xF4 b0 then
                    if cont (if b0 =? 0xF0 then 0x90 else 0x80) (if b0 =? 0xF4 then 0x8F else 0xBF) b1
                       && cont 0x80 0xBF b2 && cont 0x80 0xBF b3
                    then cons ((b0 - 0xF0) * 262144 + (b1 - 0x80) * 4096 + (b2 - 0x80) * 64 + (b3 - 0x80)) <$> from_utf8 r3
                    else None
                  else None
              end
          end
      end
  end.

(** The replacement character. *)
Definition REPLACEMENT : Z := 0xFFFD.

(** [String::from_utf8_lossy]: each maximal prefix of a well-formed sequence, and
    each other byte that starts none, becomes one replacement character. *)
Fixpoint from_utf8_lossy (bs : list Z) : list Z :=
  match bs with
  | [] => []
  | b0 :: r0 =>
      if b0 <? 0x80 then b0 :: from_utf8_lossy r0
      else match r0 with
      | [] => [REPLACEMENT]
      | b1 :: r1 =>
          if cont 0xC2 0xDF b0 then
            if cont 0x80 0xBF b1 then ((b0 - 0xC0) * 64 + (b1 - 0x80)) :: from_utf8_lossy r1 else REPLACEMENT :: from_utf8_lossy r0
          else if cont 0xE0 0xEF b0 then
            if cont (if b0 =? 0xE0 then 0xA0 else 0x80) (if b0 =? 0xED then 0x9F else 0xBF) b1 then
              match r1 with
              | [] => [REPLACEMENT]
              | b2 :: r2 =>
                  if cont 0x80 0xBF b2 then ((b0 - 0xE0) * 4096 + (b1 - 0x80) * 64 + (b2 - 0x80)) :: from_utf8_lossy r2
                  else REPLACEMENT :: from_utf8_lossy r1
              end
            else REPLACEMENT :: from_utf8_lossy r0
          else if cont 0xF0 0xF4 b0 then
            if cont (if b0 =? 0xF0 then 0x90 else 0x80) (if b0 =? 0xF4 then 0x8F else 0xBF) b1 then
              match r1 with
              | [] => [REPLACEMENT]
              | b2 :: r2 =>
                  if cont 0x80 0xBF b2 then
                    match r2 with
                    | [] => [REPLACEMENT]
                    | b3 :: r3 =>
                        if cont 0x80 0xBF b3
                        then ((b0 - 0xF0) * 262144 + (b1 - 0x80) * 4096 + (b2 - 0x80) * 64 + (b3 - 0x80)) :: from_utf8_lossy r3
                        else REPLACEMENT :: from_utf8_lossy r2
                    end
                  else REPLACEMENT :: from_utf8_lossy r1
              end
            else REPLACEMENT :: from_utf8_lossy r0
          else REPLACEMENT :: from_utf8_lossy r0
      end
  end.

(** [String::as_bytes]. *)
Definition utf8_char (c : Z) : list Z :=
  if c <? 0x80 then [c]
  else if c <? 0x800 then [0xC0 + c / 64; 0x80 + c mod 64]
  else if c <? 0x10000 then [0xE0 + c / 4096; 0x80 + (c / 64) mod 64; 0x80 + c mod 64]
  else [0xF0 + c / 262144; 0x80 + (c / 4096) mod 64; 0x80 + (c / 64) mod 64; 0x80 + c mod 64].

Definition utf8_encode (s : list Z) : list Z := concat (map utf8_char s).

(** [char::is_whitespace]: the [White_Space] property. *)
Definition is_whitespace (c : Z) : bool :=
  (0x9 <=? c) && (c <=? 0xD) || (c =? 0x20) || (c =? 0x85) || (c =? 0xA0) || (c =? 0x1680) ||
  (0x2000 <=? c) && (c <=? 0x200A) || (c =? 0x2028) || (c =? 0x2029) || (c =? 0x202F) || (c =? 0x205F) || (c =? 0x3000).

(** The pieces ended by a newline, without it, and what follows the last one. *)
Fixpoint split_nl (s : list Z) : list (list Z) * list Z :=
  match s with
  | [] => ([], [])
  | c :: r =>
      let '(ls, last) := split_nl r in
      if c =? 10 then ([] :: ls, last)
      else match ls with
           | [] => ([], c :: last)
           | l :: ls => ((c :: l) :: ls, last)
           end
  end.

(** [strip_suffix('\r')], or the line itself. *)
Definition strip_cr (l : list Z) : list Z :=
  match reverse l with 13 :: r => reverse r | _ => l end.

(** [str::lines]: a carriage return is dropped only in front of a newline. *)
Definition lines (s : list Z) : list (list Z) :=
  let '(ls, last) := split_nl s in map strip_cr ls ++ match last with [] => [] | _ => [last] end.

(** [str::split] with a predicate, and [split_whitespace]. *)
Fixpoint split_on (f : Z -> bool) (s : list Z) : list (list Z) :=
  match s with
  | [] => [[]]
  | c :: r =>
      if f c then [] :: split_on f r
      else match split_on f r with
           | [] => [[c]]
           | w :: ws => (c :: w) :: ws
           end
  end.
Definition split_whitespace (s : list Z) : list (list Z) :=
  List.filter (fun w => negb (bool_decide (w = []))) (split_on is_whitespace s).

(** [split("\r\n")]. *)
Fixpoint split_crlf (s : list Z) : list (list Z) :=
  match s with
  | [] => [[]]
  | c :: r =>
      let keep := match split_crlf r with [] => [[c]] | w :: ws => (c :: w) :: ws end in
      match r with
      | d :: r' => if (c =? 13) && (d =? 10) then [] :: split_crlf r' else keep
      | [] => keep
      end
  end.

(** [join(" ")]. *)
Fixpoint join_words (ws : list (list Z)) : list Z :=
  match ws with
  | [] => []
  | [w] => w
  | w :: ws => w ++ 32 :: join_words ws
  end.

Fixpoint trim_start (s : list Z) : list Z :=
  match s with
  | [] => []
  | c :: r => if is_whitespace c then trim_start r else s
  end.
Definition trim (s : list Z) : list Z := reverse (trim_start (reverse (trim_start s))).

(** The text before and after the first occurrence of a character ([str::find]). *)
Fixpoint split_at (x : Z) (s : list Z) : option (list Z * list Z) :=
  match s with
  | [] => None
  | c :: r => if c =? x then Some ([], r) else prod_map (cons c) id <$> split_at x r
  end.

(** ** Lemmas *)
Lemma utf16_unit_range c : scalar c -> Forall (uint 16) (utf16_units c).
Proof.
  unfold scalar, utf16_units. intros Hc. destruct (Z.ltb_spec c 0x10000); cbv zeta.
  - apply Forall_singleton. unfold uint. lia.
  - change 0x3FF with (Z.ones 10). rewrite Z.land_ones, Z.shiftr_div_pow2 by lia.
    assert (0 <= (c - 0x10000) / 2 ^ 10 < 2 ^ 10) by (split; [apply Z.div_pos|apply Z.div_lt_upper_bound]; lia).
    pose proof (Z.mod_pos_bound (c - 0x10000) (2 ^ 10)).
    apply Forall_cons_2; [|apply Forall_singleton]; unfold uint; lia.
Qed.

Lemma encode_utf16_range s : string_ok s -> Forall (uint 16) (encode_utf16 s).
Proof. intros Hs. apply Forall_concat, Forall_map. eapply Forall_impl; [exact Hs|]. intros. by apply utf16_unit_range. Qed.

Lemma from_utf16_unit c us : scalar c -> from_utf16 (utf16_units c ++ us) = cons c <$> from_utf16 us.
Proof.
  intros Hc. unfold scalar in Hc. unfold utf16_units. destruct (Z.ltb_spec c 0x10000); cbv zeta; cbn [app].
  - cbn [from_utf16]. unfold is_high, is_low.
    assert ((0xD800 <=? c) && (c <? 0xDC00) = false) as -> by (destruct (Z.leb_spec 0xD800 c), (Z.ltb_spec c 0xDC00); cbn; lia).
    assert ((0xDC00 <=? c) && (c <? 0xE000) = false) as -> by (destruct (Z.leb_spec 0xDC00 c), (Z.ltb_spec c 0xE000); cbn; lia).
    done.
  - change 0x3FF with (Z.ones 10). rewrite Z.land_ones, Z.shiftr_div_pow2 by lia.
    assert (0 <= (c - 0x10000) / 2 ^ 10 < 2 ^ 10) by (split; [apply Z.div_pos|apply Z.div_lt_upper_bound]; lia).
    pose proof (Z.mod_pos_bound (c - 0x10000) (2 ^ 10)). pose proof (Z.div_mod (c - 0x10000) (2 ^ 10)).
    cbn [from_utf16]. unfold is_high, is_low. rewrite !(proj2 (Z.leb_le _ _)), !(proj2 (Z.ltb_lt _ _)) by lia. cbn [andb].
    rewrite Z.shiftl_mul_pow2 by lia. repeat f_equal. lia.
Qed.

Lemma utf16_roundtrip s : string_ok s -> from_utf16 (encode_utf16 s) = Some s.
Proof.
  induction 1 as [|c s Hc Hs IH]; [done|]. unfold encode_utf16 in *. cbn [map concat].
  by rewrite from_utf16_unit, IH.
Qed.

(** ASCII text is made of scalar values. *)
Lemma ascii_string_ok s : bytes_ok s -> is_ascii s = true -> string_ok s.
Proof.
  unfold is_ascii, string_ok, bytes_ok. rewrite forallb_forall, !Forall_forall. intros Hb Ha x Hx.
  specialize (Hb x Hx). apply list_elem_of_In, Ha in Hx. unfold scalar, byte_ok in *. lia.
Qed.
Lemma ascii_utf8 s : is_ascii s = true -> from_utf8 s = Some s.
Proof.
  induction s as [|c s IH]; [done|]. cbn [is_ascii forallb]. intros [Hc Hs]%andb_prop.
  cbn [from_utf8]. rewrite Hc. fold (is_ascii s) in Hs. by rewrite IH.
Qed.

Lemma ascii_bytes s : string_ok s -> is_ascii s = true -> bytes_ok s.
Proof.
  intros Hs Ha. apply Forall_forall. intros c Hc. eapply Forall_forall in Hs; [|exact Hc].
  unfold is_ascii in Ha. rewrite forallb_forall in Ha. apply list_elem_of_In, Ha in Hc. bool_to_prop.
  unfold scalar, byte_ok in *. lia.
Qed.

(** *** UTF-8 *)
Lemma from_utf8_char c rest : scalar c -> from_utf8 (utf8_char c ++ rest) = cons c <$> from_utf8 rest.
Proof.
  unfold scalar, utf8_char. intros Hc.
  destruct (Z.ltb_spec c 0x80); [cbn [app from_utf8]; by rewrite (proj2 (Z.ltb_lt c 0x80))|].
  assert (forall lo hi b, lo <= b <= hi -> cont lo hi b = true) as Hin
    by (intros; unfold cont; rewrite !(proj2 (Z.leb_le _ _)) by lia; done).
  assert (forall lo hi b, b < lo \/ hi < b -> cont lo hi b = false) as Hout.
  { intros lo hi b H'. unfold cont. destruct (Z.leb_spec lo b), (Z.leb_spec b hi); cbn; lia. }
  pose proof (Z.div_mod c 64). pose proof (Z.mod_pos_bound c 64).
  pose proof (Z.div_mod (c / 64) 64). pose proof (Z.mod_pos_bound (c / 64) 64).
  pose proof (Z.div_mod (c / 4096) 64). pose proof (Z.mod_pos_bound (c / 4096) 64).
  assert (c / 4096 = c / 64 / 64) as E1 by (by rewrite Z.div_div).
  assert (c / 262144 = c / 4096 / 64) as E2 by (by rewrite Z.div_div).
  destruct (Z.ltb_spec c 0x800); [|destruct (Z.ltb_spec c 0x10000)]; cbn [app from_utf8].
  - rewrite (proj2 (Z.ltb_ge _ _)) by lia. rewrite !Hin by lia. do 2 f_equal. lia.
  - rewrite (proj2 (Z.ltb_ge _ _)) by lia. rewrite (Hout 0xC2 0xDF) by lia. rewrite (Hin 0xE0 0xEF) by lia.
    rewrite (Hin 0x80 0xBF) by lia. rewrite Hin; [cbn [andb]; do 2 f_equal; lia|].
    destruct (Z.eqb_spec (0xE0 + c / 4096) 0xE0), (Z.eqb_spec (0xE0 + c / 4096) 0xED); lia.
  - rewrite (proj2 (Z.ltb_ge _ _)) by lia. rewrite (Hout 0xC2 0xDF), (Hout 0xE0 0xEF) by lia. rewrite (Hin 0xF0 0xF4) by lia.
    rewrite !(Hin 0x80 0xBF) by lia. rewrite Hin; [cbn [andb]; do 2 f_equal; lia|].
    destruct (Z.eqb_spec (0xF0 + c / 262144) 0xF0), (Z.eqb_spec (0xF0 + c / 262144) 0xF4); lia.
Qed.

Lemma utf8_roundtrip s rest : string_ok s -> from_utf8 (utf8_encode s ++ rest) = app s <$> from_utf8 rest.
Proof.
  induction 1 as [|c s Hc Hs IH]; [cbn; by destruct (from_utf8 rest)|]. unfold utf8_encode in *. cbn [map concat].
  rewrite <- app_assoc, from_utf8_char, IH by done. by destruct (from_utf8 rest).
Qed.

Lemma utf8_encode_app s t : utf8_encode (s ++ t) = utf8_encode s ++ utf8_encode t.
Proof. unfold utf8_encode. by rewrite map_app, concat_app. Qed.

Lemma ascii_encode s : is_ascii s = true -> utf8_encode s = s.
Proof.
  induction s as [|c s IH]; [done|]. cbn [is_ascii forallb]. intros [Hc Hs]%andb_prop.
  unfold utf8_encode in *. cbn [map concat]. unfold utf8_char at 1. rewrite Hc. cbn [app]. f_equal. by apply IH.
Qed.

(** On well-formed input nothing is replaced. *)
Lemma lossy_exact bs s : from_utf8 bs = Some s -> from_utf8_lossy bs = s.
Proof.
  remember (length bs) as n eqn:Hn. revert bs s Hn. induction (lt_wf n) as [n _ IH]. intros bs s -> H.
  assert (forall r t, (length r < length bs)%nat -> from_utf8 r = Some t -> from_utf8_lossy r = t) as IH'
    by (intros r t Hr; by apply (IH _ Hr)). clear IH.
  destruct bs as [|b0 r0]; cbn [from_utf8 from_utf8_lossy] in *; [by simplify_eq|].
  destruct (b0 <? 128). { apply fmap_Some in H as (t & Ht & ->). by rewrite (IH' r0 t) by (cbn; lia || done). }
  destruct r0 as [|b1 r1]; [done|]. destruct (cont 0xC2 0xDF b0).
  { destruct (cont 0x80 0xBF b1); [|done]. apply fmap_Some in H as (t & Ht & ->). by rewrite (IH' r1 t) by (cbn; lia || done). }
  destruct r1 as [|b2 r2]; [done|]. destruct (cont 0xE0 0xEF b0).
  { destruct (cont _ _ b1); [|done]. destruct (cont 0x80 0xBF b2); [|done]. cbn [andb] in H.
    apply fmap_Some in H as (t & Ht & ->). by rewrite (IH' r2 t) by (cbn; lia || done). }
  destruct r2 as [|b3 r3]; [done|]. destruct (cont 0xF0 0xF4 b0); [|done].
  destruct (cont _ _ b1); [|done]. destruct (cont 0x80 0xBF b2); [|done]. destruct (cont 0x80 0xBF b3); [|done]. cbn [andb] in H.
  apply fmap_Some in H as (t & Ht & ->). by rewrite (IH' r3 t) by (cbn; lia || done).
Qed.

Lemma lossy_encode s : string_ok s -> from_utf8_lossy (utf8_encode s) = s.
Proof.
  intros Hs. apply lossy_exact. pose proof (utf8_roundtrip s [] Hs) as H. rewrite app_nil_r in H.
  rewrite H. cbn. by rewrite app_nil_r.
Qed.

(** *** Lines, words and trimming *)
Lemma split_crlf_word w : 13 ∉ w -> split_crlf w = [w].
Proof.
  induction w as [|c w IH]; [done|]. intros [Hc Hw]%not_elem_of_cons. cbn [split_crlf]. rewrite IH by done.
  rewrite (proj2 (Z.eqb_neq c 13)) by congruence. by destruct w.
Qed.

Lemma split_crlf_sep w r : 13 ∉ w -> split_crlf (w ++ 13 :: 10 :: r) = w :: split_crlf r.
Proof.
  induction w as [|c w IH]; [done|]. intros [Hc Hw]%not_elem_of_cons. cbn [app]. cbn [split_crlf]. rewrite IH by done.
  rewrite (proj2 (Z.eqb_neq c 13)) by congruence. by destruct w.
Qed.

Lemma split_nl_line l r : 10 ∉ l -> split_nl (l ++ 10 :: r) = (l :: fst (split_nl r), snd (split_nl r)).
Proof.
  induction l as [|c l IH]; intros Hl.
  - cbn [app split_nl]. by destruct (split_nl r).
  - apply not_elem_of_cons in Hl as [Hc Hl]. cbn [app split_nl]. rewrite IH by done.
    rewrite (proj2 (Z.eqb_neq c 10)) by congruence. done.
Qed.

Lemma split_nl_last l : 10 ∉ l -> split_nl l = ([], l).
Proof.
  induction l as [|c l IH]; [done|]. intros [Hc Hl]%not_elem_of_cons. cbn [split_nl]. rewrite IH by done.
  by rewrite (proj2 (Z.eqb_neq c 10)) by congruence.
Qed.

Lemma strip_cr_snoc l : strip_cr (l ++ [13]) = l.
Proof. unfold strip_cr. rewrite reverse_app. change (reverse [13] ++ reverse l) with (13 :: reverse l). apply reverse_involutive. Qed.

Lemma lines_crlf l r : 10 ∉ l -> lines (l ++ 13 :: 10 :: r) = l :: lines r.
Proof.
  intros Hl. unfold lines. replace (l ++ 13 :: 10 :: r) with ((l ++ [13]) ++ 10 :: r) by (by rewrite <- app_assoc).
  rewrite split_nl_line by (rewrite not_elem_of_app; set_solver). destruct (split_nl r) as [ls last].
  cbn [fst snd map]. by rewrite strip_cr_snoc.
Qed.

Lemma lines_last l : 10 ∉ l -> l <> [] -> lines l = [l].
Proof. intros Hl Hne. unfold lines. rewrite split_nl_last by done. by destruct l. Qed.

Definition no_ws (w : list Z) : Prop := Forall (fun c => is_whitespace c = false) w.

Lemma split_on_word f w : Forall (fun c => f c = false) w -> split_on f w = [w].
Proof. induction 1 as [|c w Hc Hw IH]; [done|]. cbn [split_on]. by rewrite Hc, IH. Qed.

Lemma split_on_sep f w x r : Forall (fun c => f c = false) w -> f x = true -> split_on f (w ++ x :: r) = w :: split_on f r.
Proof.
  intros Hw Hx. induction Hw as [|c w Hc Hw IH]; cbn [app split_on]; [by rewrite Hx|]. by rewrite Hc, IH.
Qed.

Lemma words_sep w x r : no_ws w -> w <> [] -> is_whitespace x = true ->
  split_whitespace (w ++ x :: r) = w :: split_whitespace r.
Proof.
  intros Hw Hne Hx. unfold split_whitespace. rewrite split_on_sep by done. cbn [List.filter].
  by rewrite bool_decide_false by done.
Qed.

Lemma words_last w : no_ws w -> w <> [] -> split_whitespace w = [w].
Proof.
  intros Hw Hne. unfold split_whitespace. rewrite split_on_word by done. cbn [List.filter]. by rewrite bool_decide_false.
Qed.

Lemma trim_cons x s : is_whitespace x = true -> trim (x :: s) = trim s.
Proof. intros Hx. unfold trim. cbn [trim_start]. by rewrite Hx. Qed.

Lemma trim_no_ws w : no_ws w -> trim w = w.
Proof.
  assert (forall v, no_ws v -> trim_start v = v) as H by (intros v [|c v' E _]; cbn; [done|by rewrite E]).
  intros Hw. unfold trim. rewrite (H w), H by (done || by apply Forall_reverse). apply reverse_involutive.
Qed.

Lemma split_at_first x a r : x ∉ a -> split_at x (a ++ x :: r) = Some (a, r).
Proof.
  induction a as [|c a IH]; cbn [app split_at]; [by rewrite Z.eqb_refl|]. intros [Hc Ha]%not_elem_of_cons.
  rewrite (proj2 (Z.eqb_neq c x)) by congruence. by rewrite IH.
Qed.

(** ** Tables with string keys *)
Definition insert_all {V} (l : list (list Z * V)) (m : gmap (list Z) V) : gmap (list Z) V :=
  foldl (fun m kv => <[fst kv := snd kv]> m) m l.

Lemma insert_all_union {V} (l : list (list Z * V)) m : NoDup (map fst l) -> insert_all l m = list_to_map l ∪ m.
Proof.
  revert m. induction l as [|[k v] l IH]; intros m Hnd; [cbn; by rewrite (left_id_L ∅ (∪))|].
  cbn [map fst] in Hnd. apply NoDup_cons in Hnd as [Hk Hnd]. unfold insert_all in *. cbn [foldl fst snd list_to_map].
  rewrite IH by done. change (list_to_map ((k, v) :: l)) with (<[k := v]> (list_to_map (M := gmap (list Z) V) l)).
  rewrite <- insert_union_l. symmetry. apply insert_union_r. by apply not_elem_of_list_to_map_1.
Qed.

(** The entries of a table, in any order, make the table again. *)
Lemma insert_all_perm {V} (l : list (list Z * V)) m : l ≡ₚ map_to_list m -> insert_all l ∅ = m.
Proof.
  intros Hp. assert (NoDup (map fst l)) as Hnd by (rewrite Hp; apply NoDup_fst_map_to_list).
  rewrite insert_all_union, (right_id_L ∅ (∪)) by done. rewrite (list_to_map_proper _ _ Hnd Hp). apply list_to_map_to_list.
Qed.

End Unicode.
