(* ===== verification/Plist.v ===== *)
(** * Binary property lists

    Models [src/protocol/plist]: the value type and its accessors ([mod.rs]), the
    encoder with its object table and cache ([encode.rs]) and the decoder with its
    cycle check ([decode.rs]).

    A [HashMap<String, _>] is the list of its bindings in increasing order of the
    keys: the encoder visits them in that order and nothing else observes the
    order.  An [f64] is its bit pattern.  Positions and lengths are [usize] of 64
    bits with overflow checks.  [Vec::with_capacity] succeeds. *)

From stdpp Require Import gmap sorting.
From S2P Require Import Bytes Text Unicode.

Module Plist.
Import Unicode.

(** ** Values *)
Inductive PlistValue :=
| Boolean (b : bool)
| Integer (i : Z)
| UnsignedInteger (u : Z)
| Real (bits : Z)
| PString (s : list Z)
| Data (d : list Z)
| Date (bits : Z)
| Array (a : list PlistValue)
| Dictionary (d : list (list Z * PlistValue))
| Uid (u : Z).

Definition as_bool (v : PlistValue) : option bool := match v with Boolean b => Some b | _ => None end.
(** [u.try_into().ok()]. *)
Definition as_i64 (v : PlistValue) : option Z :=
  match v with
  | Integer i => Some i
  | UnsignedInteger u => if u <? 2 ^ 63 then Some u else None
  | _ => None
  end.
Definition as_u64 (v : PlistValue) : option Z :=
  match v with
  | Integer i => if 0 <=? i then Some i else None
  | UnsignedInteger u => Some u
  | _ => None
  end.
Definition as_date (v : PlistValue) : option Z := match v with Date d => Some d | _ => None end.
Definition as_str (v : PlistValue) : option (list Z) := match v with PString s => Some s | _ => None end.
Definition as_bytes (v : PlistValue) : option (list Z) := match v with Data d => Some d | _ => None end.
Definition as_array (v : PlistValue) : option (list PlistValue) := match v with Array a => Some a | _ => None end.
Definition as_dict (v : PlistValue) : option (list (list Z * PlistValue)) :=
  match v with Dictionary d => Some d | _ => None end.
Definition is_null (v : PlistValue) : bool := match v with Data [] => true | _ => false end.

(** The order of [String]: lexicographic, by scalar values. *)
Fixpoint str_compare (s t : list Z) : comparison :=
  match s, t with
  | [], [] => Eq
  | [], _ => Lt
  | _, [] => Gt
  | a :: s, b :: t => match a ?= b with Eq => str_compare s t | c => c end
  end.

(** [HashMap::insert]. *)
Fixpoint dict_insert {V} (k : list Z) (v : V) (d : list (list Z * V)) : list (list Z * V) :=
  match d with
  | [] => [(k, v)]
  | (k', v') :: d' =>
      match str_compare k k' with
      | Lt => (k, v) :: d
      | Eq => (k, v) :: d'
      | Gt => (k', v') :: dict_insert k v d'
      end
  end.

Fixpoint dict_get {V} (k : list Z) (d : list (list Z * V)) : option V :=
  match d with
  | [] => None
  | (k', v') :: d' => match str_compare k k' with Eq => Some v' | _ => dict_get k d' end
  end.

(** [DictBuilder]. *)
Definition DictBuilder : Type := list (list Z * PlistValue).
Definition builder_new : DictBuilder := [].
Definition builder_insert (b : DictBuilder) (k : list Z) (v : PlistValue) : DictBuilder := dict_insert k v b.
Definition builder_insert_opt (b : DictBuilder) (k : list Z) (v : option PlistValue) : DictBuilder :=
  match v with Some v => dict_insert k v b | None => b end.
Definition builder_build (b : DictBuilder) : PlistValue := Dictionary b.

(** ** Encoder *)
Inductive PlistEncodeError := ValueTooLarge | TooManyObjects (n : Z) | StringEncodingError.

Inductive ObjectKey :=
| KString (s : list Z) | KData (d : list Z) | KInteger (i : Z) | KReal (bits : Z) | KUid (u : Z) | KDate (bits : Z).

#[export] Instance ObjectKey_eq_dec : EqDecision ObjectKey.
Proof. solve_decision. Defined.

Record Encoder := mkEncoder {
  objects : list Z;
  offsets : list Z;
  object_cache : list (ObjectKey * nat)
}.

Definition REF_SIZE : Z := 2.
Definition Encoder_new : Encoder := mkEncoder [] [] [].

Fixpoint cache_get (k : ObjectKey) (c : list (ObjectKey * nat)) : option nat :=
  match c with
  | [] => None
  | (k', i) :: c' => if decide (k = k') then Some i else cache_get k c'
  end.

Definition get_object_key (v : PlistValue) : option ObjectKey :=
  match v with
  | PString s => Some (KString s)
  | Data d => Some (KData d)
  | Integer i => Some (KInteger i)
  | Real f => Some (KReal f)
  | Date d => Some (KDate d)
  | Uid u => Some (KUid u)
  | _ => None
  end.

Definition write_int_to (value : Z) : list Z :=
  if value <=? 0xFF then [0x10; value]
  else if value <=? 0xFFFF then 0x11 :: to_be 2 value
  else if value <=? 0xFFFFFFFF then 0x12 :: to_be 4 value
  else 0x13 :: to_be 8 value.

Definition write_header_to (kind len : Z) : list Z :=
  if len <? 15 then [Z.lor (Z.shiftl kind 4) len] else Z.lor (Z.shiftl kind 4) 0xF :: write_int_to len.

Definition encode_boolean (b : bool) : list Z := [if b then 0x09 else 0x08].

(** [value.to_be_bytes()] of an [i64] is its two's complement. *)
Definition encode_integer (i : Z) : list Z :=
  if 0 <=? i then
    if i <=? 127 then [0x10; i]
    else if i <=? 32767 then 0x11 :: to_be 2 i
    else if i <=? 2147483647 then 0x12 :: to_be 4 i
    else 0x13 :: to_be 8 i
  else 0x13 :: to_be 8 i.

Definition encode_unsigned (u : Z) : list Z :=
  if u <=? 2 ^ 63 - 1 then encode_integer u else 0x14 :: replicate 8 0 ++ to_be 8 u.

Definition encode_real (bits : Z) : list Z := 0x23 :: to_be 8 bits.
Definition encode_date (bits : Z) : list Z := 0x33 :: to_be 8 bits.

Definition encode_string (s : list Z) : list Z :=
  if is_ascii s then write_header_to 0x5 (Z.of_nat (length s)) ++ s
  else
    let u16s := encode_utf16 s in
    write_header_to 0x6 (Z.of_nat (length u16s)) ++ concat (map (to_be 2) u16s).

Definition encode_data (d : list Z) : list Z := write_header_to 0x4 (Z.of_nat (length d)) ++ d.

Definition encode_uid (u : Z) : list Z :=
  let bytes := if u <=? 0xFF then 1 else if u <=? 0xFFFF then 2 else if u <=? 0xFFFFFFFF then 4 else 8 in
  Z.lor 0x80 (bytes - 1) :: to_be (Z.to_nat bytes) u.

(** With [ref_size] 2: an index of more than 16 bits is refused. *)
Definition write_ref (index : nat) : outcome PlistEncodeError (list Z) :=
  if Z.of_nat index <? 65536 then Ok (to_be 2 (Z.of_nat index)) else Err ValueTooLarge.

Fixpoint write_refs (refs : list nat) : outcome PlistEncodeError (list Z) :=
  match refs with
  | [] => Ok []
  | r :: rest => b ← write_ref r; bs ← write_refs rest; Ok (b ++ bs)
  end.

Definition create_array_body (refs : list nat) : outcome PlistEncodeError (list Z) :=
  rs ← write_refs refs; Ok (write_header_to 0xA (Z.of_nat (length refs)) ++ rs).

Definition create_dict_body (key_refs val_refs : list nat) : outcome PlistEncodeError (list Z) :=
  ks ← write_refs key_refs; vs ← write_refs val_refs;
  Ok (write_header_to 0xD (Z.of_nat (length key_refs)) ++ ks ++ vs).

(** The bytes of a value that is not a container. *)
Definition encode_primitive (v : PlistValue) : list Z :=
  match v with
  | Boolean b => encode_boolean b
  | Integer i => encode_integer i
  | UnsignedInteger u => encode_unsigned u
  | Real f => encode_real f
  | PString s => encode_string s
  | Data d => encode_data d
  | Date d => encode_date d
  | Uid u => encode_uid u
  | Array _ | Dictionary _ => []
  end.

(** Append an object: its offset, its bytes and, for a primitive, its cache entry. *)
Definition push_object (e : Encoder) (b : list Z) (key : option ObjectKey) : Encoder * nat :=
  let index := length (offsets e) in
  (mkEncoder (objects e ++ b) (offsets e ++ [Z.of_nat (length (objects e))])
     (match key with Some k => (k, index) :: object_cache e | None => object_cache e end), index).

Definition encode_leaf (e : Encoder) (v : PlistValue) : Encoder * nat :=
  match get_object_key v with
  | Some k =>
      match cache_get k (object_cache e) with
      | Some index => (e, index)
      | None => push_object e (encode_primitive v) (Some k)
      end
  | None => push_object e (encode_primitive v) None
  end.

(** The loops over the children of a container. *)
Section Children.
Variable enc : PlistValue -> Encoder -> outcome PlistEncodeError (Encoder * nat).

Fixpoint encode_items (l : list PlistValue) (e : Encoder) : outcome PlistEncodeError (Encoder * list nat) :=
  match l with
  | [] => Ok (e, [])
  | x :: l => '(e, i) ← enc x e; '(e, rs) ← encode_items l e; Ok (e, i :: rs)
  end.

Fixpoint encode_entries (l : list (list Z * PlistValue)) (e : Encoder)
    : outcome PlistEncodeError (Encoder * list (nat * nat)) :=
  match l with
  | [] => Ok (e, [])
  | (k, x) :: l =>
      let '(e, ki) := encode_leaf e (PString k) in
      '(e, i) ← enc x e; '(e, rs) ← encode_entries l e; Ok (e, (ki, i) :: rs)
  end.
End Children.

Fixpoint encode_value (v : PlistValue) (e : Encoder) : outcome PlistEncodeError (Encoder * nat) :=
  match v with
  | Array arr =>
      '(e, refs) ← encode_items encode_value arr e;
      body ← create_array_body refs;
      Ok (push_object e body None)
  | Dictionary dict =>
      '(e, refs) ← encode_entries encode_value dict e;
      body ← create_dict_body (map fst refs) (map snd refs);
      Ok (push_object e body None)
  | v => Ok (encode_leaf e v)
  end.

Definition calculate_offset_size (max_offset : Z) : Z :=
  if max_offset <=? 0xFF then 1 else if max_offset <=? 0xFFFF then 2 else if max_offset <=? 0xFFFFFFFF then 4 else 8.

(** [u16::try_from(value).unwrap()] and the like panic when the value does not fit. *)
Definition write_sized_int {E} (value size : Z) : outcome E (list Z) :=
  v ← chk_u (8 * size) value; Ok (to_be (Z.to_nat size) v).

Fixpoint write_offsets {E} (offs : list Z) (size : Z) : outcome E (list Z) :=
  match offs with
  | [] => Ok []
  | o :: rest => b ← write_sized_int o size; bs ← write_offsets rest size; Ok (b ++ bs)
  end.

Definition write_trailer (offset_size num_objects root offset_table_offset : Z) : list Z :=
  replicate 5 0 ++ [0; offset_size; REF_SIZE] ++ to_be 8 num_objects ++ to_be 8 root ++ to_be 8 offset_table_offset.

Definition MAGIC : list Z := bs "bplist00".

Definition encode (v : PlistValue) : outcome PlistEncodeError (list Z) :=
  '(e, root_index) ← encode_value v Encoder_new;
  if 65535 <? Z.of_nat (length (offsets e)) then Err (TooManyObjects (Z.of_nat (length (offsets e))))
  else
    let objects_start := Z.of_nat (length MAGIC) in
    let output := MAGIC ++ objects e in
    let offset_table_offset := Z.of_nat (length output) in
    let offset_size := calculate_offset_size (objects_start + Z.of_nat (length (objects e))) in
    table ← write_offsets (map (Z.add objects_start) (offsets e)) offset_size;
    Ok (output ++ table ++
        write_trailer offset_size (Z.of_nat (length (offsets e))) (Z.of_nat root_index) offset_table_offset).

(** ** Decoder *)
Inductive PlistDecodeError :=
| InvalidMagic (m : list Z)
| BufferTooSmall (needed have : Z)
| InvalidTrailer
| InvalidObjectMarker (m : Z)
| InvalidOffset (o : Z)
| InvalidUtf8
| UnsupportedType (s : list Z)
| CircularReference
| IntegerOverflow.

(** The recursion of the decoder takes fuel: [None] is running out of it. *)
Notation dres A := (outcome (option PlistDecodeError) A).
Definition derr {A} (e : PlistDecodeError) : dres A := Err (Some e).

Record Trailer := mkTrailer {
  offset_size : Z; object_ref_size : Z; num_objects : Z; root_object_index : Z; offset_table_offset : Z
}.

Definition Trailer_parse (data : list Z) : dres Trailer :=
  if (length data <? 32)%nat then derr (BufferTooSmall 32 (Z.of_nat (length data)))
  else
    trailer ← slice data (length data - 32) (length data);
    os ← byte_at trailer 6; rs ← byte_at trailer 7;
    n ← be_at trailer 8 8; root ← be_at trailer 16 8; off ← be_at trailer 24 8;
    Ok (mkTrailer os rs n root off).

Definition read_sized_int (bytes : list Z) (size : Z) : dres Z :=
  if (size =? 1) || (size =? 2) || (size =? 4) || (size =? 8) then Ok (from_be bytes) else derr InvalidTrailer.

Definition zslice (data : list Z) (a b : Z) : dres (list Z) := slice data (Z.to_nat a) (Z.to_nat b).

(** [if pos + n > data.len() { return Err(BufferTooSmall) }], then the [n] bytes. *)
Definition check_room (data : list Z) (pos n : Z) : dres Z :=
  e ← chk_u 64 (pos + n);
  if Z.of_nat (length data) <? e then derr (BufferTooSmall e (Z.of_nat (length data))) else Ok e.

Definition take_bytes (data : list Z) (pos n : Z) : dres (list Z) :=
  e ← check_room data pos n; zslice data pos e.

(** Read [count] consecutive integers of [size] bytes, the first being number [i]. *)
Fixpoint read_table (data : list Z) (start size : Z) (count : nat) (i : Z) : dres (list Z) :=
  match count with
  | O => Ok []
  | S count =>
      b ← zslice data (start + i * size) (start + i * size + size);
      o ← read_sized_int b size;
      rest ← read_table data start size count (i + 1);
      Ok (o :: rest)
  end.

Definition parse_offset_table (data : list Z) (t : Trailer) : dres (list Z) :=
  let start := offset_table_offset t in
  let entry_size := offset_size t in
  let count := num_objects t in
  p ← chk_u 64 (count * entry_size);
  _ ← check_room data start p;
  read_table data start entry_size (Z.to_nat count) 0.

(** *** Primitives *)
Definition decode_singleton (nibble : Z) : dres PlistValue :=
  if (nibble =? 0x0) || (nibble =? 0xF) then Ok (Data [])
  else if nibble =? 0x8 then Ok (Boolean false)
  else if nibble =? 0x9 then Ok (Boolean true)
  else derr (InvalidObjectMarker nibble).

Definition decode_integer (data : list Z) (pos size_exp : Z) : dres PlistValue :=
  let bytes_len := Z.shiftl 1 size_exp in
  b ← take_bytes data pos bytes_len;
  if bytes_len =? 1 then Ok (Integer (sext 8 (from_be b)))
  else if bytes_len =? 2 then Ok (Integer (sext 16 (from_be b)))
  else if bytes_len =? 4 then Ok (Integer (sext 32 (from_be b)))
  else if bytes_len =? 8 then Ok (Integer (sext 64 (from_be b)))
  else if bytes_len =? 16 then
    if from_be b <=? 2 ^ 64 - 1 then Ok (UnsignedInteger (from_be b)) else derr IntegerOverflow
  else derr IntegerOverflow.

(** [f64::from] of an [f32], on bit patterns: a subnormal is normalised, a NaN is quieted. *)
Definition f64_of_f32 (b : Z) : Z :=
  let sign := Z.shiftr b 31 in
  let e := Z.land (Z.shiftr b 23) 0xFF in
  let m := Z.land b 0x7FFFFF in
  let bits e m := Z.shiftl sign 63 + Z.shiftl e 52 + m in
  if e =? 0xFF then bits 0x7FF (if m =? 0 then 0 else Z.lor (Z.shiftl m 29) (2 ^ 51))
  else if e =? 0 then
    if m =? 0 then bits 0 0
    else let k := Z.log2 m in bits (k - 149 + 1023) (Z.shiftl m (52 - k) - 2 ^ 52)
  else bits (e - 127 + 1023) (Z.shiftl m 29).

Definition decode_real (data : list Z) (pos size_exp : Z) : dres PlistValue :=
  let bytes_len := Z.shiftl 1 size_exp in
  b ← take_bytes data pos bytes_len;
  if bytes_len =? 4 then Ok (Real (f64_of_f32 (from_be b)))
  else if bytes_len =? 8 then Ok (Real (from_be b))
  else derr (UnsupportedType (bs "Real size not 4 or 8")).

Definition decode_date (data : list Z) (pos : Z) : dres PlistValue :=
  b ← take_bytes data pos 8; Ok (Date (from_be b)).

(** The length of an object and where its contents start. *)
Definition decode_size (data : list Z) (pos nibble : Z) : dres (Z * Z) :=
  if nibble =? 0xF then
    if Z.of_nat (length data) <=? pos then derr (BufferTooSmall (pos + 1) (Z.of_nat (length data)))
    else
      marker ← byte_at data (Z.to_nat pos);
      let next_nibble := Z.land marker 0x0F in
      if negb (Z.shiftr marker 4 =? 0x1) then derr (InvalidObjectMarker marker)
      else
        let bytes_len := Z.shiftl 1 next_nibble in
        b ← take_bytes data (pos + 1) bytes_len;
        if (bytes_len =? 1) || (bytes_len =? 2) || (bytes_len =? 4) || (bytes_len =? 8)
        then Ok (from_be b, pos + 1 + bytes_len) else derr IntegerOverflow
  else Ok (nibble, pos).

Definition decode_data (data : list Z) (pos nibble : Z) : dres PlistValue :=
  '(len, start) ← decode_size data pos nibble;
  b ← take_bytes data start len; Ok (Data b).

Definition decode_ascii_string (data : list Z) (pos nibble : Z) : dres PlistValue :=
  '(len, start) ← decode_size data pos nibble;
  b ← take_bytes data start len;
  s ← ok_or (from_utf8 b) (Some InvalidUtf8); Ok (PString s).

Definition decode_utf16_string (data : list Z) (pos nibble : Z) : dres PlistValue :=
  '(len, start) ← decode_size data pos nibble;
  byte_len ← chk_u 64 (len * 2);
  b ← take_bytes data start byte_len;
  s ← ok_or (from_utf16 (map from_be (chunks_exact 2 b))) (Some InvalidUtf8); Ok (PString s).

(** [val = (val << 8) | byte] on a [u64]. *)
Definition decode_uid (data : list Z) (pos nibble : Z) : dres PlistValue :=
  b ← take_bytes data pos (nibble + 1);
  Ok (Uid (foldl (fun v x => Z.lor (wrap 64 (Z.shiftl v 8)) x) 0 b)).

(** *** Containers: [dec] decodes an object given the set of open ones *)
Section Containers.
Variable dec : Z -> gset Z -> dres (PlistValue * gset Z).

Definition read_ref (data : list Z) (start size i : Z) : dres Z :=
  b ← zslice data (start + i * size) (start + i * size + size); read_sized_int b size.

Fixpoint decode_items (data : list Z) (start size : Z) (n : nat) (i : Z) (seen : gset Z) : dres (list PlistValue * gset Z) :=
  match n with
  | O => Ok ([], seen)
  | S n =>
      index ← read_ref data start size i;
      '(v, seen) ← dec index seen;
      '(vs, seen) ← decode_items data start size n (i + 1) seen;
      Ok (v :: vs, seen)
  end.

Definition decode_array (data : list Z) (size pos nibble : Z) (seen : gset Z) : dres (PlistValue * gset Z) :=
  '(count, start) ← decode_size data pos nibble;
  p ← chk_u 64 (count * size);
  _ ← check_room data start p;
  '(items, seen) ← decode_items data start size (Z.to_nat count) 0 seen;
  Ok (Array items, seen).

Fixpoint decode_entries (data : list Z) (start size count : Z) (n : nat) (i : Z)
    (dict : list (list Z * PlistValue)) (seen : gset Z) : dres (list (list Z * PlistValue) * gset Z) :=
  match n with
  | O => Ok (dict, seen)
  | S n =>
      key_index ← read_ref data start size i;
      val_index ← read_ref data start size (count + i);
      '(key, seen) ← dec key_index seen;
      match key with
      | PString k =>
          '(v, seen) ← dec val_index seen;
          decode_entries data start size count n (i + 1) (dict_insert k v dict) seen
      | _ => derr (UnsupportedType (bs "Dictionary key must be a string"))
      end
  end.

Definition decode_dictionary (data : list Z) (size pos nibble : Z) (seen : gset Z) : dres (PlistValue * gset Z) :=
  '(count, start) ← decode_size data pos nibble;
  c2 ← chk_u 64 (count * 2);
  p ← chk_u 64 (c2 * size);
  _ ← check_room data start p;
  '(dict, seen) ← decode_entries data start size count (Z.to_nat count) 0 [] seen;
  Ok (Dictionary dict, seen).

Definition decode_value (data : list Z) (size marker pos : Z) (seen : gset Z) : dres (PlistValue * gset Z) :=
  let high_nibble := Z.shiftr marker 4 in
  let low_nibble := Z.land marker 0x0F in
  let leaf (m : dres PlistValue) : dres (PlistValue * gset Z) := v ← m; Ok (v, seen) in
  match high_nibble with
  | 0x0 => leaf (decode_singleton low_nibble)
  | 0x1 => leaf (decode_integer data pos low_nibble)
  | 0x2 => leaf (decode_real data pos low_nibble)
  | 0x3 => leaf (decode_date data pos)
  | 0x4 => leaf (decode_data data pos low_nibble)
  | 0x5 => leaf (decode_ascii_string data pos low_nibble)
  | 0x6 => leaf (decode_utf16_string data pos low_nibble)
  | 0x8 => leaf (decode_uid data pos low_nibble)
  | 0xA => decode_array data size pos low_nibble seen
  | 0xD => decode_dictionary data size pos low_nibble seen
  | _ => derr (InvalidObjectMarker marker)
  end.
End Containers.

Fixpoint decode_object (fuel : nat) (data table : list Z) (size index : Z) (seen : gset Z) : dres (PlistValue * gset Z) :=
  match fuel with
  | O => Err None
  | S fuel =>
      if bool_decide (index ∈ seen) then derr CircularReference
      else
        let seen := {[index]} ∪ seen in
        offset ← ok_or (table !! Z.to_nat index) (Some (InvalidOffset index));
        if Z.of_nat (length data) <=? offset then derr (InvalidOffset offset)
        else
          marker ← byte_at data (Z.to_nat offset);
          '(value, seen) ← decode_value (decode_object fuel data table size) data size marker (offset + 1) seen;
          Ok (value, seen ∖ {[index]})
  end.

(** One more level than there are objects is enough. *)
Definition decode (data : list Z) : dres PlistValue :=
  if (length data <? 8)%nat then derr (BufferTooSmall 8 (Z.of_nat (length data)))
  else
    magic ← slice data 0 8;
    if negb (bool_decide (magic = MAGIC)) then derr (InvalidMagic magic)
    else
      trailer ← Trailer_parse data;
      table ← parse_offset_table data trailer;
      '(v, _) ← decode_object (S (length table)) data table (object_ref_size trailer) (root_object_index trailer) ∅;
      Ok v.

(** ** Reading at a position *)

(** The bytes [b] are in [data] at [pos]. *)
Definition at_pos (data : list Z) (pos : Z) (b : list Z) : Prop :=
  0 <= pos <= Z.of_nat (length data) /\ exists rest, drop (Z.to_nat pos) data = b ++ rest.

Lemma at_length data pos b : at_pos data pos b -> pos + Z.of_nat (length b) <= Z.of_nat (length data).
Proof.
  intros [Hp [rest E]]. apply (f_equal length) in E. rewrite length_drop, length_app in E. lia.
Qed.

Lemma at_app data pos b1 b2 : at_pos data pos (b1 ++ b2) ->
  at_pos data pos b1 /\ at_pos data (pos + Z.of_nat (length b1)) b2.
Proof.
  intros H. pose proof (at_length _ _ _ H) as Hl. rewrite length_app in Hl. destruct H as [Hp [rest E]].
  split; split; [done| |lia|].
  - exists (b2 ++ rest). by rewrite E, app_assoc.
  - exists rest. rewrite Z2Nat.inj_add, Nat2Z.id, <- drop_drop, E, <- app_assoc by lia. by rewrite drop_app_length.
Qed.

Lemma at_byte {E} data pos x b : at_pos data pos (x :: b) ->
  byte_at (E := E) data (Z.to_nat pos) = Ok x /\ pos < Z.of_nat (length data) /\ at_pos data (pos + 1) b.
Proof.
  intros H. pose proof (at_length _ _ _ H) as Hl. cbn [length] in Hl. pose proof (at_app _ _ [x] b H) as [_ H2].
  destruct H as [Hp [rest E']]. split_and!; [|lia|done].
  unfold byte_at. assert (data !! Z.to_nat pos = Some x) as ->; [|done].
  rewrite <- (Nat.add_0_r (Z.to_nat pos)), <- lookup_drop, E'. done.
Qed.

Lemma at_take data pos b : at_pos data pos b -> Z.of_nat (length data) < 2 ^ 63 ->
  take_bytes data pos (Z.of_nat (length b)) = Ok b.
Proof.
  intros H Hd. pose proof (at_length _ _ _ H) as Hl. destruct H as [Hp [rest E]]. unfold take_bytes, check_room, zslice.
  rewrite chk_u_ok by (unfold uint; lia). cbn [mbind outcome_bind]. rewrite (proj2 (Z.ltb_ge _ _)) by lia.
  cbn [mbind outcome_bind]. rewrite slice_in by lia. rewrite E, Z2Nat.inj_add, Nat2Z.id by lia.
  replace (Z.to_nat pos + length b - Z.to_nat pos)%nat with (length b) by lia. by rewrite take_app_length.
Qed.

Lemma at_take' data pos b n : at_pos data pos b -> Z.of_nat (length data) < 2 ^ 63 -> n = Z.of_nat (length b) ->
  take_bytes data pos n = Ok b.
Proof. intros H Hd ->. by apply at_take. Qed.

Lemma at_room data pos b n : at_pos data pos b -> Z.of_nat (length data) < 2 ^ 63 -> n = Z.of_nat (length b) ->
  check_room data pos n = Ok (pos + n).
Proof.
  intros H Hd ->. pose proof (at_length _ _ _ H). destruct H as [Hp _]. unfold check_room.
  rewrite chk_u_ok by (unfold uint; lia). cbn [mbind outcome_bind]. by rewrite (proj2 (Z.ltb_ge _ _)) by lia.
Qed.

(** *** Object headers *)
Lemma to_be_1 n : byte_ok n -> to_be 1 n = [n].
Proof. intros Hn. pose proof (to_be_from_be [n] ltac:(by apply Forall_singleton)) as H. by rewrite from_be_cons in H; cbn in H; rewrite Z.mul_1_r, Z.add_0_r in H. Qed.

Lemma nibbles k l : 0 <= l < 16 ->
  Z.shiftr (Z.lor (Z.shiftl k 4) l) 4 = k /\ Z.land (Z.lor (Z.shiftl k 4) l) 0x0F = l.
Proof.
  intros Hl. rewrite lor_shiftl by (unfold uint; lia). rewrite Z.shiftr_div_pow2 by lia.
  change 0x0F with (Z.ones 4). rewrite Z.land_ones by lia. change (2 ^ 4) with 16.
  split; [rewrite Z.div_add_l, Z.div_small; lia|rewrite Z.add_comm, Z.mod_add, Z.mod_small; lia].
Qed.

(** The count after a header of 15 or more. *)
Lemma write_int_at data pos n rest : 0 <= n < 2 ^ 64 -> at_pos data pos (write_int_to n ++ rest) ->
  Z.of_nat (length data) < 2 ^ 63 -> exists start, decode_size data pos 0xF = Ok (n, start) /\ at_pos data start rest.
Proof.
  intros Hn Hat Hd. unfold write_int_to in Hat.
  assert (forall k (x : Z) m, (k = 1 \/ k = 2 \/ k = 4 \/ k = 8)%nat -> x = 0x10 + Z.of_nat m -> Z.of_nat k = 2 ^ Z.of_nat m -> (m < 4)%nat ->
    n < 256 ^ Z.of_nat k -> at_pos data pos ((x :: to_be k n) ++ rest) ->
    exists start, decode_size data pos 0xF = Ok (n, start) /\ at_pos data start rest) as Hk.
  { intros k x m Hk Hx Hm Hm4 Hlt Ha. apply (at_byte (E := option PlistDecodeError)) in Ha as (Hb & Hlen & Ha).
    apply at_app in Ha as [Ha Hr]. rewrite length_to_be in Hr.
    unfold decode_size. cbn [Z.eqb Pos.eqb]. rewrite (proj2 (Z.leb_gt _ _)) by lia. rewrite Hb. cbn [mbind outcome_bind].
    assert (Z.shiftr x 4 = 1 /\ Z.land x 0x0F = Z.of_nat m) as [-> ->].
    { rewrite Hx. destruct m as [|[|[|[|?]]]]; [done..|lia]. }
    cbn [Z.eqb Pos.eqb negb]. rewrite Z.shiftl_mul_pow2, Z.mul_1_l, <- Hm by lia.
    rewrite (at_take' _ _ _ _ Ha Hd) by (by rewrite length_to_be). cbn [mbind outcome_bind].
    rewrite from_be_to_be, Z.mod_small by lia. exists (pos + 1 + Z.of_nat k). split; [|done].
    destruct Hk as [->|[->|[->| ->]]]; reflexivity. }
  repeat case_match; bool_to_prop.
  - assert ([0x10; n] = 0x10 :: to_be 1 n) as E.
    { by rewrite to_be_1 by (unfold byte_ok; lia). }
    rewrite E in Hat. apply (Hk 1%nat 0x10 0%nat) in Hat; auto with lia.
  - apply (Hk 2%nat 0x11 1%nat) in Hat; auto with lia.
  - apply (Hk 4%nat 0x12 2%nat) in Hat; auto with lia.
  - apply (Hk 8%nat 0x13 3%nat) in Hat; auto with lia.
Qed.

Lemma header_at data pos kind n rest : 0 <= n < 2 ^ 64 -> Z.of_nat (length data) < 2 ^ 63 ->
  at_pos data pos (write_header_to kind n ++ rest) -> exists m start,
  byte_at (E := option PlistDecodeError) data (Z.to_nat pos) = Ok m /\ pos < Z.of_nat (length data) /\
  Z.shiftr m 4 = kind /\ decode_size data (pos + 1) (Z.land m 0x0F) = Ok (n, start) /\ at_pos data start rest.
Proof.
  intros Hn Hd Hat. unfold write_header_to in Hat. destruct (Z.ltb_spec n 15).
  - apply (at_byte (E := option PlistDecodeError)) in Hat as (Hb & Hlen & Hat).
    destruct (nibbles kind n) as [Hk Hl]; [lia|]. eexists _, _. split_and!; [exact Hb|done|done| |exact Hat].
    rewrite Hl. unfold decode_size. by rewrite (proj2 (Z.eqb_neq _ _)) by lia.
  - cbn [app] in Hat. apply (at_byte (E := option PlistDecodeError)) in Hat as (Hb & Hlen & Hat).
    destruct (nibbles kind 0xF) as [Hk Hl]; [lia|].
    destruct (write_int_at _ _ _ _ Hn Hat Hd) as (start & Hs & Hr).
    eexists _, start. split_and!; [exact Hb|done|done|by rewrite Hl|exact Hr].
Qed.

(** ** Well-formed values *)
Definition is_leaf (v : PlistValue) : bool := match v with Array _ | Dictionary _ => false | _ => true end.

Definition str_lt (s t : list Z) : Prop := str_compare s t = Lt.

(** Every field fits its type; dictionary keys are distinct, in order. *)
Fixpoint value_ok (v : PlistValue) : Prop :=
  match v with
  | Boolean _ => True
  | Integer i => sint 64 i
  | UnsignedInteger u | Real u | Date u | Uid u => uint 64 u
  | PString s => string_ok s
  | Data d => bytes_ok d
  | Array a => fold_right (fun x P => value_ok x /\ P) True a
  | Dictionary d =>
      fold_right (fun kx P => (string_ok (fst kx) /\ value_ok (snd kx)) /\ P) True d /\ StronglySorted str_lt (map fst d)
  end.

(** An unsigned integer that fits an [i64] is written as one. *)
Fixpoint norm (v : PlistValue) : PlistValue :=
  match v with
  | UnsignedInteger u => if u <=? 2 ^ 63 - 1 then Integer u else v
  | Array a => Array (map norm a)
  | Dictionary d => Dictionary (map (fun kx => (fst kx, norm (snd kx))) d)
  | v => v
  end.

(** *** Primitives decode to themselves *)
Definition decodes_leaf (data : list Z) (o : Z) (v : PlistValue) : Prop :=
  exists m, byte_at (E := option PlistDecodeError) data (Z.to_nat o) = Ok m /\ o < Z.of_nat (length data) /\
    forall dec size seen, decode_value dec data size m (o + 1) seen = Ok (v, seen).

(** Go to the branch of [decode_value] for the marker with nibbles [k] and [l]. *)
Ltac dispatch k l :=
  unfold decode_value; cbv zeta;
  match goal with |- context [Z.shiftr ?m 4] =>
    replace (Z.shiftr m 4) with k by (symmetry; done); replace (Z.land m 0x0F) with l by (symmetry; done) end;
  cbv iota beta.

Lemma be_mod k z : z mod 256 ^ Z.of_nat k = wrap (8 * Z.of_nat k) z.
Proof. unfold wrap. by rewrite Z.pow_mul_r by lia. Qed.

Lemma int_leaf data o m z : (m < 4)%nat -> sint (8 * 2 ^ Z.of_nat m) z -> Z.of_nat (length data) < 2 ^ 63 ->
  at_pos data o ((0x10 + Z.of_nat m) :: to_be (2 ^ m) z) -> decodes_leaf data o (Integer z).
Proof.
  intros Hm Hz Hd Hat. apply (at_byte (E := option PlistDecodeError)) in Hat as (Hb & Hlen & Hat).
  eexists. split_and!; [exact Hb|done|]. intros dec size seen.
  destruct m as [|[|[|[|?]]]]; [..|lia]; cbn -[to_be] in Hat; unfold decode_value;
    cbn [Z.of_nat Z.add Pos.add Pos.of_succ_nat Pos.succ]; cbv zeta; cbn [Z.shiftr Z.shiftl Z.opp Pos.iter Z.div2 Pos.div2 Z.land Pos.land Pos.Ndouble Pos.Nsucc_double Z.of_N];
    unfold decode_integer; cbv zeta;
    rewrite (at_take' _ _ _ _ Hat Hd) by reflexivity; cbn [mbind outcome_bind Z.shiftl Pos.iter Z.mul Z.eqb Pos.eqb];
    rewrite from_be_to_be, be_mod, sext_wrap by (try exact Hz; lia); reflexivity.
Qed.

Lemma encode_integer_leaf data o i : sint 64 i -> Z.of_nat (length data) < 2 ^ 63 ->
  at_pos data o (encode_integer i) -> decodes_leaf data o (Integer i).
Proof.
  intros Hi Hd Hat. unfold encode_integer in Hat. unfold sint in Hi. cbn in Hi.
  repeat case_match; bool_to_prop.
  - apply (int_leaf _ _ 0); [lia|unfold sint; cbn; lia|done|]. cbn [Nat.pow]. by rewrite to_be_1 by (unfold byte_ok; lia).
  - by apply (int_leaf _ _ 1); [lia|unfold sint; cbn; lia|..].
  - by apply (int_leaf _ _ 2); [lia|unfold sint; cbn; lia|..].
  - by apply (int_leaf _ _ 3); [lia|unfold sint; cbn; lia|..].
  - by apply (int_leaf _ _ 3); [lia|unfold sint; cbn; lia|..].
Qed.

Lemma double_leaf data o (x bits : Z) v : uint 64 bits -> Z.of_nat (length data) < 2 ^ 63 ->
  x = 0x23 /\ v = Real bits \/ x = 0x33 /\ v = Date bits -> at_pos data o (x :: to_be 8 bits) -> decodes_leaf data o v.
Proof.
  intros Hb Hd Hx Hat. apply (at_byte (E := option PlistDecodeError)) in Hat as (Hb' & Hlen & Hat).
  eexists. split_and!; [exact Hb'|done|]. intros dec size seen. pose proof (at_take' _ _ _ 8 Hat Hd eq_refl) as Ht.
  destruct Hx as [[-> ->]|[-> ->]]; [dispatch 2 3|dispatch 3 3]; unfold decode_real, decode_date;
    change (Z.shiftl 1 3) with 8; rewrite Ht; cbn -[from_be to_be]; rewrite from_be_to_be, Z.mod_small by exact Hb; reflexivity.
Qed.

Lemma unsigned_leaf data o u : uint 64 u -> Z.of_nat (length data) < 2 ^ 63 ->
  at_pos data o (encode_unsigned u) -> decodes_leaf data o (norm (UnsignedInteger u)).
Proof.
  intros Hu Hd Hat. cbn [norm]. unfold encode_unsigned in Hat. destruct (Z.leb_spec u (2 ^ 63 - 1)).
  - apply encode_integer_leaf; [|done..]. unfold uint, sint in *. cbn in *. lia.
  - apply (at_byte (E := option PlistDecodeError)) in Hat as (Hb' & Hlen & Hat).
    eexists. split_and!; [exact Hb'|done|]. intros dec size seen. pose proof (at_take' _ _ _ 16 Hat Hd eq_refl) as Ht.
    dispatch 1 4. unfold decode_integer. change (Z.shiftl 1 4) with 16. rewrite Ht.
    cbn [mbind outcome_bind Z.eqb Pos.eqb].
    rewrite from_be_zeros, from_be_to_be, Z.mod_small by exact Hu.
    rewrite (proj2 (Z.leb_le _ _)) by (unfold uint in Hu; lia). reflexivity.
Qed.

Lemma header_leaf data o kind n rest v : 0 <= n -> Z.of_nat (length data) < 2 ^ 63 -> n <= Z.of_nat (length rest) ->
  at_pos data o (write_header_to kind n ++ rest) ->
  (forall m start, Z.shiftr m 4 = kind -> decode_size data (o + 1) (Z.land m 0x0F) = Ok (n, start) -> at_pos data start rest ->
     forall dec size seen, decode_value dec data size m (o + 1) seen = Ok (v, seen)) -> decodes_leaf data o v.
Proof.
  intros Hn Hd Hle Hat Hv. pose proof (at_length _ _ _ Hat) as Hl. rewrite length_app in Hl. destruct Hat as [Hp Hat].
  destruct (header_at data o kind n rest) as (m & start & Hb & Hlen & Hk & Hs & Hr); [lia|done|done|].
  exists m. split_and!; [done|done|]. by eapply Hv.
Qed.

Lemma data_leaf data o d : Z.of_nat (length data) < 2 ^ 63 -> at_pos data o (encode_data d) -> decodes_leaf data o (Data d).
Proof.
  intros Hd Hat. eapply header_leaf; [| |reflexivity|exact Hat|]; [lia|done|]. intros m start Hk Hs Hr dec size seen.
  unfold decode_value. rewrite Hk. cbv zeta iota beta. unfold decode_data. rewrite Hs. cbn [mbind outcome_bind].
  rewrite (at_take' _ _ _ _ Hr Hd) by done. done.
Qed.

Lemma length_utf16_bytes us : length (concat (map (to_be 2) us)) = (2 * length us)%nat.
Proof. induction us as [|u us IH]; [done|]. cbn [map concat length]. rewrite length_app, IH, length_to_be. lia. Qed.

Lemma map_from_be us : Forall (uint 16) us -> map from_be (map (to_be 2) us) = us.
Proof.
  induction 1 as [|u us Hu Hus IH]; [done|]. cbn [map]. rewrite from_be_to_be, Z.mod_small by exact Hu. by f_equal.
Qed.

Lemma string_leaf data o s : string_ok s -> Z.of_nat (length data) < 2 ^ 63 ->
  at_pos data o (encode_string s) -> decodes_leaf data o (PString s).
Proof.
  intros Hs Hd Hat. unfold encode_string in Hat. destruct (is_ascii s) eqn:Ha; cbv zeta in Hat.
  - eapply header_leaf; [| |reflexivity|exact Hat|]; [lia|done|]. intros m start Hk Hsz Hr dec size seen.
    unfold decode_value. rewrite Hk. cbv zeta iota beta. unfold decode_ascii_string. rewrite Hsz. cbn [mbind outcome_bind].
    rewrite (at_take' _ _ _ _ Hr Hd) by done. cbn [mbind outcome_bind]. by rewrite ascii_utf8.
  - pose proof (at_length _ _ _ Hat) as Hl. rewrite length_app, length_utf16_bytes in Hl. destruct Hat as [Hp Hat].
    eapply header_leaf; [| |rewrite length_utf16_bytes|by split|]; [lia|done|lia|].
    intros m start Hk Hsz Hr dec size seen.
    unfold decode_value. rewrite Hk. cbv zeta iota beta. unfold decode_utf16_string. rewrite Hsz. cbn [mbind outcome_bind].
    rewrite chk_u_ok by (unfold uint; lia). cbn [mbind outcome_bind].
    rewrite (at_take' _ _ _ _ Hr Hd) by (rewrite length_utf16_bytes; lia). cbn [mbind outcome_bind].
    rewrite chunks_exact_concat; [|lia|apply Forall_map, Forall_true; intros; apply length_to_be].
    rewrite map_from_be, utf16_roundtrip by auto using encode_utf16_range. done.
Qed.

Lemma uid_fold l : forall acc, bytes_ok l -> 0 <= acc -> (acc + 1) * 256 ^ Z.of_nat (length l) <= 2 ^ 64 ->
  foldl (fun v x => Z.lor (wrap 64 (Z.shiftl v 8)) x) acc l = acc * 256 ^ Z.of_nat (length l) + from_be l.
Proof.
  induction l as [|x l IH]; intros acc Hl Ha Hb; [by rewrite Z.mul_1_r, Z.add_0_r|].
  apply Forall_cons in Hl as [Hx Hl]. unfold byte_ok in Hx. cbn [foldl length] in *.
  rewrite Nat2Z.inj_succ, Z.pow_succ_r in Hb by lia.
  assert (0 < 256 ^ Z.of_nat (length l)) by (apply Z.pow_pos_nonneg; lia).
  assert ((acc * 256 + x + 1) * 256 ^ Z.of_nat (length l) <= 2 ^ 64) by nia.
  rewrite wrap_small by (unfold uint; rewrite Z.shiftl_mul_pow2 by lia; change (2 ^ 8) with 256; nia).
  rewrite lor_shiftl by (unfold uint; lia). change (2 ^ 8) with 256. rewrite IH by (done || lia).
  rewrite from_be_cons, Nat2Z.inj_succ, Z.pow_succ_r by lia. lia.
Qed.

Lemma uid_leaf data o u : uint 64 u -> Z.of_nat (length data) < 2 ^ 63 ->
  at_pos data o (encode_uid u) -> decodes_leaf data o (Uid u).
Proof.
  intros Hu Hd Hat. unfold encode_uid in Hat. cbv zeta in Hat.
  set (k := if u <=? 0xFF then 1 else _) in Hat.
  assert ((k = 1 \/ k = 2 \/ k = 4 \/ k = 8) /\ u < 256 ^ k) as [Hk Hlt].
  { unfold k, uint in *. repeat case_match; bool_to_prop; split; auto; lia. }
  apply (at_byte (E := option PlistDecodeError)) in Hat as (Hb & Hlen & Hat).
  eexists. split_and!; [exact Hb|done|]. intros dec size seen.
  assert (Z.shiftr (Z.lor 0x80 (k - 1)) 4 = 8 /\ Z.land (Z.lor 0x80 (k - 1)) 0x0F = k - 1) as [E1 E2]
    by (destruct Hk as [->|[->|[->| ->]]]; done).
  unfold decode_value. rewrite E1, E2. cbv zeta iota beta. unfold decode_uid.
  rewrite (at_take' _ _ _ _ Hat Hd) by (rewrite length_to_be; lia). cbn [mbind outcome_bind].
  rewrite uid_fold; [|apply to_be_ok|done|rewrite length_to_be, Z2Nat.id by lia; destruct Hk as [->|[->|[->| ->]]]; cbn; lia].
  rewrite from_be_to_be, Z2Nat.id, Z.mod_small by (unfold uint in *; lia). done.
Qed.

Lemma leaf_decode data o v : is_leaf v = true -> value_ok v -> Z.of_nat (length data) < 2 ^ 63 ->
  at_pos data o (encode_primitive v) -> decodes_leaf data o (norm v).
Proof.
  destruct v; intros Hl Hv Hd Hat; try done; cbn [encode_primitive value_ok] in *.
  - apply (at_byte (E := option PlistDecodeError)) in Hat as (Hb & Hlen & _). eexists. split_and!; [exact Hb|done|].
    intros. destruct b; [dispatch 0 9|dispatch 0 8]; reflexivity.
  - by apply encode_integer_leaf.
  - by apply unsigned_leaf.
  - by eapply double_leaf; [..|exact Hat]; auto.
  - by apply string_leaf.
  - by apply data_leaf.
  - by eapply double_leaf; [..|exact Hat]; auto.
  - by apply uid_leaf.
Qed.

(** ** The object table

    [repr objs offs i v]: object number [i] of the table is (the encoding of) the
    value [v]; the objects it refers to have smaller numbers. *)
Inductive repr (objs offs : list Z) : nat -> PlistValue -> Prop :=
| repr_leaf i o v : offs !! i = Some o -> at_pos objs o (encode_primitive v) -> is_leaf v = true -> value_ok v ->
    repr objs offs i (norm v)
| repr_array i o refs rb vs : offs !! i = Some o -> write_refs refs = Ok rb ->
    at_pos objs o (write_header_to 0xA (Z.of_nat (length refs)) ++ rb) ->
    Forall (fun r => (r < i)%nat) refs -> Forall2 (repr objs offs) refs vs -> repr objs offs i (Array vs)
| repr_dict i o krefs vrefs kb vb kvs : offs !! i = Some o -> write_refs krefs = Ok kb -> write_refs vrefs = Ok vb ->
    at_pos objs o (write_header_to 0xD (Z.of_nat (length krefs)) ++ kb ++ vb) ->
    Forall (fun r => (r < i)%nat) (krefs ++ vrefs) ->
    Forall2 (repr objs offs) krefs (map (fun kv => PString (fst kv)) kvs) ->
    Forall2 (repr objs offs) vrefs (map snd kvs) ->
    StronglySorted str_lt (map fst kvs) -> repr objs offs i (Dictionary kvs).

(** A table whose objects are found in another one, at other offsets. *)
Lemma repr_move objs offs objs' offs' :
  (forall i o, offs !! i = Some o -> exists o', offs' !! i = Some o' /\ forall b, at_pos objs o b -> at_pos objs' o' b) ->
  forall i v, repr objs offs i v -> repr objs' offs' i v.
Proof.
  intros Hm i. induction i as [i IH] using lt_wf_ind. intros v Hv.
  assert (forall refs vs, Forall (fun r => (r < i)%nat) refs -> Forall2 (repr objs offs) refs vs ->
    Forall2 (repr objs' offs') refs vs) as Hall.
  { intros refs vs Hr H2. induction H2; [done|]. apply Forall_cons in Hr as [? ?]. constructor; auto. }
  destruct Hv as [i o v Ho Hat Hl Hok|i o refs rb vs Ho Hw Hat Hr H2|i o kr vr kb vb kvs Ho Hk Hv Hat Hr H1 H2 Hs];
    destruct (Hm _ _ Ho) as (o' & Ho' & Hat').
  - eapply repr_leaf; eauto.
  - eapply repr_array; eauto.
  - pose proof Hr as [Hr1 Hr2]%Forall_app.
    exact (repr_dict objs' offs' i o' kr vr kb vb kvs Ho' Hk Hv (Hat' _ Hat) Hr (Hall _ _ Hr1 H1) (Hall _ _ Hr2 H2) Hs).
Qed.

(** *** References *)
Lemma write_ref_ok r b : write_ref r = Ok b -> b = to_be 2 (Z.of_nat r) /\ Z.of_nat r < 65536.
Proof. unfold write_ref. destruct (Z.ltb_spec (Z.of_nat r) 65536); intros H'; split; congruence || lia. Qed.

Lemma write_refs_bytes refs rb : write_refs refs = Ok rb -> length rb = (2 * length refs)%nat.
Proof.
  revert rb. induction refs as [|r refs IH]; intros rb; cbn [write_refs]; [by intros [= <-]|].
  intros (b & Hb & (bs & Hbs & [= <-])%bind_ok)%bind_ok. apply write_ref_ok in Hb as [-> _].
  rewrite length_app, length_to_be, (IH _ Hbs). cbn. lia.
Qed.

Lemma write_refs_nth refs rb data start i r : write_refs refs = Ok rb -> at_pos data start rb ->
  Z.of_nat (length data) < 2 ^ 63 -> refs !! i = Some r -> read_ref data start REF_SIZE (Z.of_nat i) = Ok (Z.of_nat r).
Proof.
  revert rb start i. induction refs as [|r' refs IH]; intros rb start i; [by rewrite lookup_nil|]. cbn [write_refs].
  intros (b & Hb & (bs & Hbs & [= <-])%bind_ok)%bind_ok Hat Hd Hi. apply write_ref_ok in Hb as [-> Hr].
  apply at_app in Hat as [Hat Hat']. rewrite length_to_be in Hat'.
  destruct i as [|i]; cbn in Hi.
  - injection Hi as ->. unfold read_ref. rewrite Z.mul_0_l, Z.add_0_r.
    pose proof (at_take' _ _ _ 2 Hat Hd eq_refl) as Ht. unfold take_bytes in Ht.
    rewrite (at_room _ _ _ _ Hat Hd) in Ht by (by rewrite length_to_be). cbn [mbind outcome_bind] in Ht.
    unfold REF_SIZE. rewrite Ht. cbn [mbind outcome_bind]. unfold read_sized_int. cbn [Z.eqb Pos.eqb orb].
    rewrite from_be_to_be, Z.mod_small by (cbn; lia). done.
  - specialize (IH _ _ _ Hbs Hat' Hd Hi). unfold read_ref, REF_SIZE in *.
    replace (start + Z.of_nat (S i) * 2) with (start + Z.of_nat 2 + Z.of_nat i * 2) by lia. exact IH.
Qed.

Lemma write_refs_app r1 r2 b1 b2 : write_refs r1 = Ok b1 -> write_refs r2 = Ok b2 -> write_refs (r1 ++ r2) = Ok (b1 ++ b2).
Proof.
  intros H1 H2. revert b1 H1. induction r1 as [|r r1 IH]; intros b1; cbn [write_refs app]; [by intros [= <-]|].
  intros (b & -> & (bs & Hbs & [= <-])%bind_ok)%bind_ok. cbn [mbind outcome_bind]. rewrite (IH _ Hbs).
  cbn [mbind outcome_bind]. by rewrite app_assoc.
Qed.

(** *** Dictionaries in order *)
Lemma str_compare_antisym s t : str_compare t s = CompOpp (str_compare s t).
Proof.
  revert t. induction s as [|a s IH]; intros [|b t]; try done. cbn. rewrite (Z.compare_antisym a b), IH.
  by destruct (a ?= b).
Qed.

Lemma dict_insert_last {V} k (v : V) d : Forall (fun k' => str_lt k' k) (map fst d) -> dict_insert k v d = d ++ [(k, v)].
Proof.
  induction d as [|[k' v'] d IH]; [done|]. cbn [map fst]. intros [Hk Hd]%Forall_cons. cbn [dict_insert app].
  rewrite str_compare_antisym, Hk. cbn [CompOpp]. by rewrite IH.
Qed.

Lemma sorted_before l k x : StronglySorted str_lt l -> l !! k = Some x -> Forall (fun y => str_lt y x) (take k l).
Proof.
  intros Hs. revert k. induction Hs as [|y l Hs IH Hy]; intros k; [by rewrite lookup_nil|].
  destruct k as [|k]; [by intros _|]. cbn. intros Hk. constructor; [|by apply IH]. by eapply Forall_lookup_1 in Hy.
Qed.

(** *** The decoder on a table *)
Section Decode.
Context (data table : list Z) (Hd : Z.of_nat (length data) < 2 ^ 63).

(** What [dec] must do on object [i]. *)
Definition decodes (dec : Z -> gset Z -> dres (PlistValue * gset Z)) (i : nat) (v : PlistValue) (seen : gset Z) : Prop :=
  dec (Z.of_nat i) seen = Ok (v, seen).

Lemma decode_items_ok dec start refs rb vs seen : write_refs refs = Ok rb -> at_pos data start rb ->
  Forall2 (fun r v => decodes dec r v seen) refs vs -> forall k, (k <= length refs)%nat ->
  decode_items dec data start REF_SIZE (length refs - k) (Z.of_nat k) seen = Ok (drop k vs, seen).
Proof.
  intros Hw Hat H2 k. remember (length refs - k)%nat as n eqn:Hn. revert k Hn. induction n as [|n IH]; intros k Hn Hk.
  - cbn [decode_items]. rewrite drop_ge; [done|]. rewrite <- (Forall2_length _ _ _ H2). lia.
  - cbn [decode_items]. destruct (lookup_lt_is_Some_2 refs k) as [r Hr]; [lia|].
    rewrite (write_refs_nth _ _ _ _ _ _ Hw Hat Hd Hr). cbn [mbind outcome_bind].
    destruct (Forall2_lookup_l _ _ _ _ _ H2 Hr) as (v & Hv & Hdec). rewrite Hdec. cbn [mbind outcome_bind].
    replace (Z.of_nat k + 1) with (Z.of_nat (S k)) by lia. rewrite IH by lia. cbn [mbind outcome_bind].
    by rewrite (drop_S _ _ _ Hv).
Qed.

Lemma decode_entries_ok dec start krefs vrefs kb vb kvs seen :
  write_refs (krefs ++ vrefs) = Ok (kb ++ vb) -> at_pos data start (kb ++ vb) ->
  Forall2 (fun r v => decodes dec r v seen) krefs (map (fun kv => PString (fst kv)) kvs) ->
  Forall2 (fun r v => decodes dec r v seen) vrefs (map snd kvs) -> StronglySorted str_lt (map fst kvs) ->
  forall k, (k <= length krefs)%nat ->
  decode_entries dec data start REF_SIZE (Z.of_nat (length krefs)) (length krefs - k) (Z.of_nat k) (take k kvs) seen =
    Ok (kvs, seen).
Proof.
  intros Hw Hat H1 H2 Hs k. pose proof (Forall2_length _ _ _ H1) as L1. pose proof (Forall2_length _ _ _ H2) as L2.
  rewrite length_map in L1, L2.
  remember (length krefs - k)%nat as n eqn:Hn. revert k Hn. induction n as [|n IH]; intros k Hn Hk; cbn [decode_entries].
  - rewrite take_ge by lia. done.
  - destruct (lookup_lt_is_Some_2 kvs k) as [[key v] Hkv]; [lia|].
    destruct (lookup_lt_is_Some_2 krefs k) as [rk Hrk]; [lia|].
    destruct (lookup_lt_is_Some_2 vrefs k) as [rv Hrv]; [lia|].
    rewrite (write_refs_nth _ _ _ _ k rk Hw Hat Hd) by (by rewrite lookup_app_l by lia). cbn [mbind outcome_bind].
    rewrite <- Nat2Z.inj_add, (write_refs_nth _ _ _ _ (length krefs + k) rv Hw Hat Hd)
      by (rewrite lookup_app_r by lia; by replace (length krefs + k - length krefs)%nat with k by lia).
    cbn [mbind outcome_bind].
    destruct (Forall2_lookup_l _ _ _ _ _ H1 Hrk) as (x & Hx & Hdk). rewrite list_lookup_fmap, Hkv in Hx. injection Hx as <-.
    destruct (Forall2_lookup_l _ _ _ _ _ H2 Hrv) as (x & Hx & Hdv). rewrite list_lookup_fmap, Hkv in Hx. injection Hx as <-.
    rewrite Hdk. cbn [mbind outcome_bind fst]. rewrite Hdv. cbn [mbind outcome_bind snd].
    rewrite dict_insert_last.
    + rewrite <- (take_S_r _ _ _ Hkv). replace (Z.of_nat k + 1) with (Z.of_nat (S k)) by lia. apply IH; lia.
    + rewrite fmap_take. eapply sorted_before; [exact Hs|]. by rewrite list_lookup_fmap, Hkv.
Qed.

(** Decoding object [i] of a represented table, with any set of open objects of
    larger numbers. *)
Lemma decode_object_ok fuel i v seen : repr data table i v -> (i < fuel)%nat ->
  (forall j, j ∈ seen -> Z.of_nat i < j) -> decode_object fuel data table REF_SIZE (Z.of_nat i) seen = Ok (v, seen).
Proof.
  revert fuel v seen. induction i as [i IH] using lt_wf_ind. intros fuel v seen Hv Hf Hseen.
  destruct fuel as [|fuel]; [lia|]. cbn [decode_object].
  rewrite bool_decide_false by (intros H; apply Hseen in H; lia). rewrite Nat2Z.id.
  assert (({[Z.of_nat i]} ∪ seen) ∖ {[Z.of_nat i]} = seen) as Hback.
  { apply set_eq. intros j. specialize (Hseen j). set_unfold. destruct (decide (j = Z.of_nat i)); naive_solver lia. }
  assert (forall refs vs, Forall (fun r => (r < i)%nat) refs -> Forall2 (repr data table) refs vs ->
    Forall2 (fun r v => decodes (decode_object fuel data table REF_SIZE) r v ({[Z.of_nat i]} ∪ seen)) refs vs) as Hall.
  { intros refs vs Hr H2. induction H2 as [|r x refs vs Hx H2 IH2]; [done|]. apply Forall_cons in Hr as [Hr Hrs].
    constructor; [|by apply IH2]. apply IH; [done|done|lia|]. intros j [->%elem_of_singleton|Hj%Hseen]%elem_of_union; lia. }
  destruct Hv as [i o v Ho Hat Hl Hok|i o refs rb vs Ho Hw Hat Hr H2|i o kr vr kb vb kvs Ho Hk Hv Hat Hr H1 H2 Hs];
    rewrite Ho; cbn [ok_or mbind outcome_bind].
  - destruct (leaf_decode data o v Hl Hok Hd Hat) as (m & Hb & Hlen & Hdec).
    rewrite (proj2 (Z.leb_gt _ _)) by lia. rewrite Hb. cbn [mbind outcome_bind]. rewrite Hdec. cbn [mbind outcome_bind].
    by rewrite Hback.
  - pose proof (at_length _ _ _ Hat) as Hlen. rewrite length_app, (write_refs_bytes _ _ Hw) in Hlen. pose proof Hat as [Hp _].
    destruct (header_at data o 0xA (Z.of_nat (length refs)) rb) as (m & start & Hb & Hlt & Hkind & Hsz & Hrb); [lia|done..|].
    rewrite (proj2 (Z.leb_gt _ _)) by lia. rewrite Hb. cbn [mbind outcome_bind]. unfold decode_value. rewrite Hkind.
    cbv zeta iota beta. unfold decode_array. rewrite Hsz. cbn [mbind outcome_bind].
    rewrite chk_u_ok by (unfold uint, REF_SIZE; lia). cbn [mbind outcome_bind].
    rewrite (at_room _ _ _ _ Hrb Hd) by (rewrite (write_refs_bytes _ _ Hw); unfold REF_SIZE; lia). cbn [mbind outcome_bind].
    rewrite Nat2Z.id. pose proof (decode_items_ok _ _ _ _ _ _ Hw Hrb (Hall _ _ Hr H2) 0 ltac:(lia)) as Hi.
    rewrite Nat.sub_0_r in Hi. change (Z.of_nat 0) with 0 in Hi. rewrite Hi. cbn [mbind outcome_bind]. by rewrite Hback, drop_0.
  - pose proof Hr as [Hr1 Hr2]%Forall_app.
    pose proof (at_length _ _ _ Hat) as Hlen. rewrite !length_app, (write_refs_bytes _ _ Hk), (write_refs_bytes _ _ Hv) in Hlen.
    pose proof Hat as [Hp _]. pose proof (Forall2_length _ _ _ H1) as L1. pose proof (Forall2_length _ _ _ H2) as L2.
    rewrite length_map in L1, L2.
    destruct (header_at data o 0xD (Z.of_nat (length kr)) (kb ++ vb)) as (m & start & Hb & Hlt & Hkind & Hsz & Hrb); [lia|done..|].
    rewrite (proj2 (Z.leb_gt _ _)) by lia. rewrite Hb. cbn [mbind outcome_bind]. unfold decode_value. rewrite Hkind.
    cbv zeta iota beta. unfold decode_dictionary. rewrite Hsz. cbn [mbind outcome_bind].
    rewrite !chk_u_ok by (unfold uint, REF_SIZE; lia). cbn [mbind outcome_bind].
    rewrite chk_u_ok by (unfold uint, REF_SIZE; lia). cbn [mbind outcome_bind].
    rewrite (at_room _ _ _ _ Hrb Hd)
      by (rewrite length_app, (write_refs_bytes _ _ Hk), (write_refs_bytes _ _ Hv); unfold REF_SIZE; lia).
    cbn [mbind outcome_bind]. rewrite Nat2Z.id.
    pose proof (decode_entries_ok _ _ _ _ _ _ _ _ (write_refs_app _ _ _ _ Hk Hv) Hrb (Hall _ _ Hr1 H1) (Hall _ _ Hr2 H2) Hs 0 ltac:(lia)) as Hi.
    rewrite Nat.sub_0_r in Hi. change (Z.of_nat 0) with 0 in Hi. change (take 0 kvs) with (@nil (list Z * PlistValue)) in Hi. rewrite Hi.
    cbn [mbind outcome_bind]. by rewrite Hback.
Qed.

End Decode.

(** ** The encoder builds a table *)
Section Induction.
Variable P : PlistValue -> Prop.
Hypothesis Hleaf : forall v, is_leaf v = true -> P v.
Hypothesis Harray : forall a, Forall P a -> P (Array a).
Hypothesis Hdict : forall d, Forall (fun kv => P (snd kv)) d -> P (Dictionary d).

Fixpoint plist_ind (v : PlistValue) : P v :=
  match v with
  | Array a => Harray a ((fix go l : Forall P l := match l with [] => Forall_nil_2 _ | x :: l => Forall_cons_2 _ _ _ (plist_ind x) (go l) end) a)
  | Dictionary d =>
      Hdict d ((fix go l : Forall (fun kv => P (snd kv)) l :=
                  match l with [] => Forall_nil_2 _ | x :: l => Forall_cons_2 _ x _ (plist_ind (snd x)) (go l) end) d)
  | v => Hleaf v eq_refl
  end.
End Induction.

Definition key_value (k : ObjectKey) : PlistValue :=
  match k with
  | KString s => PString s | KData d => Data d | KInteger i => Integer i
  | KReal f => Real f | KUid u => Uid u | KDate d => Date d
  end.

Notation erepr e := (repr (objects e) (offsets e)).

Definition enc_inv (e : Encoder) : Prop :=
  (forall k i, cache_get k (object_cache e) = Some i -> (i < length (offsets e))%nat /\ erepr e i (key_value k)) /\
  Forall (fun o => 0 <= o <= Z.of_nat (length (objects e))) (offsets e).

Definition ext (e e' : Encoder) : Prop :=
  objects e `prefix_of` objects e' /\ offsets e `prefix_of` offsets e'.

#[export] Instance ext_preorder : PreOrder ext.
Proof. split; [done|]. intros e1 e2 e3 [H1 H2] [H3 H4]. split; by etrans. Qed.

Lemma at_pos_app data rest o b : at_pos data o b -> at_pos (data ++ rest) o b.
Proof.
  intros [Hp [r E]]. split; [rewrite length_app; lia|]. exists (r ++ rest).
  rewrite drop_app_le by lia. by rewrite E, app_assoc.
Qed.

Lemma repr_ext e e' i v : ext e e' -> erepr e i v -> erepr e' i v.
Proof.
  intros [[ob Eo] Hoff]. apply repr_move. intros j o Ho. exists o. split; [by eapply prefix_lookup_Some|].
  intros b Hb. rewrite Eo. by apply at_pos_app.
Qed.

(** What encoding a value does. *)
Definition encoded (e e' : Encoder) (i : nat) (v : PlistValue) : Prop :=
  ext e e' /\ enc_inv e' /\ (i < length (offsets e'))%nat /\ erepr e' i v.

Lemma push_ext e b key : ext e (fst (push_object e b key)).
Proof. split; cbn; by eexists. Qed.

Lemma at_end data b : at_pos (data ++ b) (Z.of_nat (length data)) b.
Proof. split; [rewrite length_app; lia|]. exists []. by rewrite Nat2Z.id, drop_app_length, app_nil_r. Qed.

(** A new object with its bytes at the end. *)
Lemma push_encoded e b key v : enc_inv e -> (forall k, key = Some k -> key_value k = v) ->
  (let e' := fst (push_object e b key) in
   offsets e' !! length (offsets e) = Some (Z.of_nat (length (objects e))) ->
   at_pos (objects e') (Z.of_nat (length (objects e))) b -> erepr e' (length (offsets e)) v) ->
  encoded e (fst (push_object e b key)) (snd (push_object e b key)) v.
Proof.
  intros [Hc Ho] Hkey Hr. pose proof (push_ext e b key) as Hext. set (e' := fst (push_object e b key)) in *.
  assert (erepr e' (length (offsets e)) v) as Hv.
  { apply Hr; [|apply at_end]. cbn. by rewrite lookup_app_r, Nat.sub_diag by done. }
  assert (length (offsets e') = S (length (offsets e))) as Hlen by (cbn; rewrite length_app; cbn; lia).
  split_and!; [done| |cbn [push_object snd]; lia|done]. split.
  - intros k i Hk. cbn [e' push_object fst object_cache] in Hk.
    assert (cache_get k (object_cache e) = Some i \/ i = length (offsets e) /\ key = Some k) as [Hold|[-> Hk']].
    { destruct key as [k'|]; [|auto]. cbn in Hk. case_decide; [|auto]. injection Hk as <-. subst. auto. }
    + apply Hc in Hold as [? ?]. split; [lia|by eapply repr_ext].
    + rewrite (Hkey _ Hk'). split; [lia|done].
  - cbn. rewrite length_app. apply Forall_app. split; [|apply Forall_singleton; lia].
    eapply Forall_impl; [exact Ho|]. cbn. lia.
Qed.

Lemma get_object_key_value v k : get_object_key v = Some k -> key_value k = norm v.
Proof. destruct v; cbn; intros [= <-]; done. Qed.

Lemma encode_leaf_ok e v : is_leaf v = true -> value_ok v -> enc_inv e ->
  encoded e (fst (encode_leaf e v)) (snd (encode_leaf e v)) (norm v).
Proof.
  intros Hl Hok He. unfold encode_leaf.
  assert (forall key, (forall k, key = Some k -> key_value k = norm v) ->
    encoded e (fst (push_object e (encode_primitive v) key)) (snd (push_object e (encode_primitive v) key)) (norm v)) as Hpush.
  { intros key Hkey. apply push_encoded; [done|done|]. intros e' Ho Hat. by eapply repr_leaf. }
  destruct (get_object_key v) as [k|] eqn:Hk; [|by apply Hpush].
  pose proof (get_object_key_value v k Hk) as Hkv. destruct (cache_get k (object_cache e)) as [i|] eqn:Hc.
  - destruct He as [Hcache Ho]. destruct (Hcache _ _ Hc) as [Hi Hr]. rewrite Hkv in Hr. by split_and!.
  - apply Hpush. by intros k' [= <-].
Qed.

Definition encodes_ok (v : PlistValue) : Prop := forall e e' i, value_ok v -> enc_inv e ->
  encode_value v e = Ok (e', i) -> encoded e e' i (norm v).

Lemma reprs_ext e e' refs vs : ext e e' -> Forall2 (erepr e) refs vs -> Forall2 (erepr e') refs vs.
Proof. intros He H2. eapply Forall2_impl; [exact H2|]. intros. by eapply repr_ext. Qed.

Lemma ext_length e e' : ext e e' -> (length (offsets e) <= length (offsets e'))%nat.
Proof. intros [_ H]. by apply prefix_length. Qed.

Lemma encode_items_ok l e e' refs : Forall encodes_ok l -> fold_right (fun x P => value_ok x /\ P) True l -> enc_inv e ->
  encode_items encode_value l e = Ok (e', refs) ->
  ext e e' /\ enc_inv e' /\ Forall (fun r => (r < length (offsets e'))%nat) refs /\ Forall2 (erepr e') refs (map norm l).
Proof.
  intros Hl. revert e refs. induction Hl as [|x l Hx Hl IH]; intros e refs Hok He; cbn [encode_items map].
  - intros [= <- <-]. by split_and!.
  - destruct Hok as [Hokx Hok]. intros ([e1 i] & H1 & ([e2 rs] & H2 & [= <- <-])%bind_ok)%bind_ok.
    apply Hx in H1 as (E1 & I1 & L1 & R1); [|done..]. apply IH in H2 as (E2 & I2 & L2 & R2); [|done..].
    pose proof (ext_length _ _ E2). split_and!; [by etrans|done| |].
    + constructor; [lia|done].
    + constructor; [by eapply repr_ext|done].
Qed.

Lemma encode_entries_ok l e e' refs : Forall (fun kv => encodes_ok (snd kv)) l ->
  fold_right (fun kx P => (string_ok (fst kx) /\ value_ok (snd kx)) /\ P) True l -> enc_inv e ->
  encode_entries encode_value l e = Ok (e', refs) ->
  ext e e' /\ enc_inv e' /\ Forall (fun r => (r < length (offsets e'))%nat) (map fst refs ++ map snd refs) /\
  Forall2 (erepr e') (map fst refs) (map (fun kv => PString (fst kv)) l) /\
  Forall2 (erepr e') (map snd refs) (map (fun kv => norm (snd kv)) l).
Proof.
  intros Hl. revert e refs. induction Hl as [|[k x] l Hx Hl IH]; intros e refs Hok He; cbn [encode_entries map fst snd].
  - intros [= <- <-]. by split_and!.
  - destruct Hok as [[Hokk Hokx] Hok]. cbn [fst snd] in *.
    destruct (encode_leaf e (PString k)) as [e0 ki] eqn:Ek.
    pose proof (encode_leaf_ok e (PString k) eq_refl Hokk He) as (E0 & I0 & L0 & R0). rewrite Ek in E0, I0, L0, R0. cbn [fst snd] in *.
    intros ([e1 i] & H1 & ([e2 rs] & H2 & [= <- <-])%bind_ok)%bind_ok.
    apply Hx in H1 as (E1 & I1 & L1 & R1); [|done..]. apply IH in H2 as (E2 & I2 & L2 & R2 & R3); [|done..].
    pose proof (ext_length _ _ E1). pose proof (ext_length _ _ E2). apply Forall_app in L2 as [L2 L3].
    cbn [map fst snd]. split_and!; [by do 2 (etrans; [eassumption|])|done| | |].
    + apply Forall_app. split; (constructor; [lia|done]).
    + constructor; [|done]. do 2 (eapply repr_ext; [eassumption|]). exact R0.
    + constructor; [by eapply repr_ext|done].
Qed.

Lemma encode_value_ok v : encodes_ok v.
Proof.
  induction v as [v Hl|a Ha|d Hd] using plist_ind; intros e e' i Hok He H.
  - assert (encode_value v e = Ok (encode_leaf e v)) as E by (by destruct v). rewrite E in H.
    pose proof (encode_leaf_ok e v Hl Hok He) as Hleaf. destruct (encode_leaf e v) as [e1 i1]. by injection H as <- <-.
  - cbn [encode_value] in H. apply bind_ok in H as ([e1 refs] & H1 & H). apply bind_ok in H as (b & Hb & H).
    apply encode_items_ok in H1 as (E1 & I1 & L1 & R1); [|done..].
    unfold create_array_body in Hb. apply bind_ok in Hb as (rb & Hrb & Hb).
    assert (b = write_header_to 0xA (Z.of_nat (length refs)) ++ rb) as -> by congruence.
    destruct (push_encoded e1 (write_header_to 0xA (Z.of_nat (length refs)) ++ rb) None (norm (Array a))) as (E2 & I2 & L2 & R2); [done|done| |].
    + intros e2 Ho Hat. cbn [norm]. eapply repr_array; [exact Ho|exact Hrb|exact Hat|exact L1|].
      eapply reprs_ext; [apply push_ext|exact R1].
    + injection H as <- <-. split_and!; [by etrans|done..].
  - cbn [encode_value] in H. apply bind_ok in H as ([e1 refs] & H1 & H). apply bind_ok in H as (b & Hb & H).
    destruct Hok as [Hok Hsorted]. apply encode_entries_ok in H1 as (E1 & I1 & L1 & R1 & R2); [|done..].
    unfold create_dict_body in Hb. apply bind_ok in Hb as (kb & Hkb & Hb). apply bind_ok in Hb as (vb & Hvb & Hb).
    assert (b = write_header_to 0xD (Z.of_nat (length (map fst refs))) ++ kb ++ vb) as -> by congruence.
    destruct (push_encoded e1 (write_header_to 0xD (Z.of_nat (length (map fst refs))) ++ kb ++ vb) None (norm (Dictionary d))) as (E2 & I2 & L2 & R3); [done|done| |].
    + intros e2 Ho Hat. cbn [norm]. eapply repr_dict; [exact Ho|exact Hkb|exact Hvb|exact Hat|exact L1| | |].
      * rewrite map_map. cbn [fst]. eapply reprs_ext; [apply push_ext|exact R1].
      * rewrite map_map. cbn [snd]. eapply reprs_ext; [apply push_ext|exact R2].
      * rewrite map_map. cbn [fst]. exact Hsorted.
    + injection H as <- <-. split_and!; [by etrans|done..].
Qed.

Lemma encoder_new_inv : enc_inv Encoder_new.
Proof. by split. Qed.

(** ** The file around the table *)
Lemma write_offsets_read offs size tb data start : write_offsets (E := PlistEncodeError) offs size = Ok tb ->
  (size = 1 \/ size = 2 \/ size = 4 \/ size = 8) -> Z.of_nat (length data) < 2 ^ 63 -> forall i,
  at_pos data (start + i * size) tb -> read_table data start size (length offs) i = Ok offs.
Proof.
  intros Hw Hs Hd. revert tb Hw. induction offs as [|o offs IH]; intros tb; cbn [write_offsets]; [done|].
  intros (b & Hb & (bs & Hbs & [= <-])%bind_ok)%bind_ok i Hat. unfold write_sized_int in Hb.
  apply bind_ok in Hb as (o' & Ho & Hb). unfold chk_u in Ho. revert Ho. case_match eqn:Hr; [|done]. intros [= <-].
  assert (b = to_be (Z.to_nat size) o) as -> by congruence. bool_to_prop.
  apply at_app in Hat as [Ha Hat]. rewrite length_to_be, Z2Nat.id in Hat by lia. cbn [length read_table].
  pose proof (at_take' _ _ _ size Ha Hd ltac:(rewrite length_to_be; lia)) as Ht. unfold take_bytes in Ht.
  rewrite (at_room _ _ _ _ Ha Hd) in Ht by (rewrite length_to_be; lia). cbn [mbind outcome_bind] in Ht. rewrite Ht.
  cbn [mbind outcome_bind]. unfold read_sized_int.
  assert ((size =? 1) || (size =? 2) || (size =? 4) || (size =? 8) = true) as -> by (by destruct Hs as [->|[->|[->| ->]]]).
  cbn [mbind outcome_bind]. rewrite (IH _ Hbs) by (by replace (start + (i + 1) * size) with (start + i * size + size) by lia).
  cbn [mbind outcome_bind]. rewrite from_be_to_be, be_mod, Z2Nat.id, wrap_small by (unfold uint; lia). done.
Qed.

Lemma write_offsets_length offs size tb : 0 <= size -> write_offsets (E := PlistEncodeError) offs size = Ok tb ->
  Z.of_nat (length tb) = Z.of_nat (length offs) * size.
Proof.
  intros Hs. revert tb. induction offs as [|o offs IH]; intros tb; cbn [write_offsets]; [by intros [= <-]|].
  intros (b & Hb & (bs & Hbs & [= <-])%bind_ok)%bind_ok. unfold write_sized_int in Hb.
  apply bind_ok in Hb as (o' & Ho & Hb). assert (b = to_be (Z.to_nat size) o') as -> by congruence.
  rewrite length_app, length_to_be. cbn [length]. rewrite Nat2Z.inj_add, (IH _ Hbs). lia.
Qed.

(** *** The encoder succeeds within the object limit *)

(** The objects of a value, its dictionary keys included. *)
Fixpoint nodes (v : PlistValue) : nat :=
  match v with
  | Array a => S (fold_right (fun x n => nodes x + n)%nat 0%nat a)
  | Dictionary d => S (fold_right (fun kx n => S (nodes (snd kx)) + n)%nat 0%nat d)
  | _ => 1%nat
  end.

Definition encodes_total (v : PlistValue) : Prop := forall e, value_ok v -> enc_inv e ->
  Z.of_nat (length (offsets e) + nodes v) <= 65535 ->
  exists e' i, encode_value v e = Ok (e', i) /\ (length (offsets e') <= length (offsets e) + nodes v)%nat.

Lemma encode_leaf_length e v : (length (offsets (fst (encode_leaf e v))) <= S (length (offsets e)))%nat.
Proof. unfold encode_leaf, push_object. repeat case_match; cbn; rewrite ?length_app; cbn; lia. Qed.

Lemma write_refs_total refs n : Forall (fun r => (r < n)%nat) refs -> Z.of_nat n <= 65536 -> exists b, write_refs refs = Ok b.
Proof.
  intros Hr Hn. induction Hr as [|r refs Hlt Hr [b IH]]; cbn [write_refs]; [by eexists|].
  unfold write_ref. rewrite (proj2 (Z.ltb_lt _ _)) by lia. rewrite IH. by eexists.
Qed.

Lemma encode_items_total l : Forall encodes_total l -> forall e, fold_right (fun x P => value_ok x /\ P) True l -> enc_inv e ->
  Z.of_nat (length (offsets e) + fold_right (fun x n => nodes x + n)%nat 0%nat l) <= 65535 ->
  exists e' refs, encode_items encode_value l e = Ok (e', refs) /\
    (length (offsets e') <= length (offsets e) + fold_right (fun x n => nodes x + n) 0 l)%nat.
Proof.
  intros Hl. induction Hl as [|x l Hx Hl IH]; intros e Hok He Hn; cbn [encode_items fold_right] in *; [do 2 eexists; split; [done|lia]|].
  destruct Hok as [Hokx Hok]. destruct (Hx e Hokx He) as (e1 & i & E1 & L1); [lia|].
  destruct (encode_value_ok x e e1 i Hokx He E1) as (_ & I1 & _).
  destruct (IH e1 Hok I1) as (e2 & rs & E2 & L2); [lia|]. rewrite E1. cbn [mbind outcome_bind]. rewrite E2.
  do 2 eexists. split; [reflexivity|lia].
Qed.

Lemma encode_entries_total l : Forall (fun kv => encodes_total (snd kv)) l -> forall e,
  fold_right (fun kx P => (string_ok (fst kx) /\ value_ok (snd kx)) /\ P) True l -> enc_inv e ->
  Z.of_nat (length (offsets e) + fold_right (fun kx n => S (nodes (snd kx)) + n)%nat 0%nat l) <= 65535 ->
  exists e' refs, encode_entries encode_value l e = Ok (e', refs) /\
    (length (offsets e') <= length (offsets e) + fold_right (fun kx n => S (nodes (snd kx)) + n) 0 l)%nat.
Proof.
  intros Hl. induction Hl as [|[k x] l Hx Hl IH]; intros e Hok He Hn; cbn [encode_entries fold_right fst snd] in *;
    [do 2 eexists; split; [done|lia]|].
  destruct Hok as [[Hokk Hokx] Hok]. pose proof (encode_leaf_length e (PString k)) as Lk.
  pose proof (encode_leaf_ok e (PString k) eq_refl Hokk He) as (_ & I0 & _).
  destruct (encode_leaf e (PString k)) as [e0 ki]. cbn [fst] in *.
  destruct (Hx e0 Hokx I0) as (e1 & i & E1 & L1); [lia|].
  destruct (encode_value_ok x e0 e1 i Hokx I0 E1) as (_ & I1 & _).
  destruct (IH e1 Hok I1) as (e2 & rs & E2 & L2); [lia|]. rewrite E1. cbn [mbind outcome_bind]. rewrite E2.
  do 2 eexists. split; [reflexivity|lia].
Qed.

Lemma encode_value_total v : encodes_total v.
Proof.
  induction v as [v Hl|a Ha|d Hd] using plist_ind; intros e Hok He Hn.
  - assert (encode_value v e = Ok (encode_leaf e v)) as -> by (by destruct v).
    pose proof (encode_leaf_length e v). destruct (encode_leaf e v) as [e1 i]. do 2 eexists. split; [reflexivity|].
    destruct v; try done; cbn [nodes fst] in *; lia.
  - cbn [nodes encode_value] in *. destruct (encode_items_total a Ha e Hok He) as (e1 & refs & E1 & L1); [lia|].
    rewrite E1. cbn [mbind outcome_bind]. apply encode_items_ok in E1 as (_ & _ & R1 & _); [|by apply Forall_true; intros; apply encode_value_ok|done..].
    destruct (write_refs_total refs _ R1) as [b Eb]; [lia|]. unfold create_array_body. rewrite Eb. cbn [mbind outcome_bind].
    do 2 eexists. split; [reflexivity|]. cbn [push_object offsets]. rewrite length_app. cbn [length]. lia.
  - cbn [nodes encode_value] in *. destruct Hok as [Hok Hs].
    destruct (encode_entries_total d Hd e Hok He) as (e1 & refs & E1 & L1); [lia|].
    rewrite E1. cbn [mbind outcome_bind]. apply encode_entries_ok in E1 as (_ & _ & R1 & _); [|by apply Forall_true; intros; apply encode_value_ok|done..].
    apply Forall_app in R1 as [R1 R2].
    destruct (write_refs_total _ _ R1) as [kb Ek]; [lia|]. destruct (write_refs_total _ _ R2) as [vb Ev]; [lia|].
    unfold create_dict_body. rewrite Ek. cbn [mbind outcome_bind]. rewrite Ev. cbn [mbind outcome_bind].
    do 2 eexists. split; [reflexivity|]. cbn [push_object offsets]. rewrite length_app. cbn [length]. lia.
Qed.

Lemma offset_size_fits m : 0 <= m < 2 ^ 64 -> m < 2 ^ (8 * calculate_offset_size m).
Proof. intros Hm. unfold calculate_offset_size. repeat case_match; bool_to_prop; cbn; lia. Qed.

Lemma write_offsets_total offs size : Forall (fun o => 0 <= o < 2 ^ (8 * size)) offs ->
  exists tb, write_offsets (E := PlistEncodeError) offs size = Ok tb.
Proof.
  intros Ho. induction Ho as [|o offs Hb Ho [tb IH]]; cbn [write_offsets]; [by eexists|].
  unfold write_sized_int, chk_u. rewrite (proj2 (Z.leb_le _ _)), (proj2 (Z.ltb_lt _ _)) by lia. cbn [andb mbind outcome_bind].
  rewrite IH. by eexists.
Qed.

Lemma length_trailer a b c d : length (write_trailer a b c d) = 32%nat.
Proof. unfold write_trailer. rewrite !length_app, !length_to_be. reflexivity. Qed.

Lemma trailer_parse pre os n root off : uint 64 n -> uint 64 root -> uint 64 off ->
  Trailer_parse (pre ++ write_trailer os n root off) = Ok (mkTrailer os REF_SIZE n root off).
Proof.
  intros Hn Hr Ho. unfold Trailer_parse. rewrite length_app, length_trailer.
  rewrite (proj2 (Nat.ltb_ge _ _)) by lia. replace (length pre + 32 - 32)%nat with (length pre) by lia.
  rewrite slice_in by (rewrite length_app, length_trailer; lia).
  rewrite drop_app_length, take_ge by (rewrite length_trailer; lia). cbn [mbind outcome_bind].
  unfold write_trailer. cbn [replicate app byte_at unwrap lookup list_lookup mbind outcome_bind].
  assert (forall x, uint 64 x -> x mod 256 ^ Z.of_nat 8 = x) as Hmod by (intros; by apply Z.mod_small).
  read_bytes. by rewrite !Hmod.
Qed.

Lemma offset_size_cases m : let s := calculate_offset_size m in s = 1 \/ s = 2 \/ s = 4 \/ s = 8.
Proof. unfold calculate_offset_size. repeat case_match; auto. Qed.

Lemma magic_length : length MAGIC = 8%nat.
Proof. reflexivity. Qed.

(** An encoded file decodes to what its table represents. *)
Lemma file_decode e root tb v : let os := calculate_offset_size (8 + Z.of_nat (length (objects e))) in
  let data := (MAGIC ++ objects e) ++ tb ++
     write_trailer os (Z.of_nat (length (offsets e))) (Z.of_nat root) (Z.of_nat (length (MAGIC ++ objects e))) in
  write_offsets (E := PlistEncodeError) (map (Z.add 8) (offsets e)) os = Ok tb ->
  erepr e root v -> (root < length (offsets e))%nat -> Z.of_nat (length data) < 2 ^ 63 -> decode data = Ok v.
Proof.
  intros os data Hw Hr Hroot Hd. pose proof (offset_size_cases (8 + Z.of_nat (length (objects e)))) as Hos. cbv zeta in Hos. fold os in Hos.
  assert (0 <= os) as Hos0 by lia. pose proof (write_offsets_length _ _ _ Hos0 Hw) as Hl. rewrite length_map in Hl.
  assert (length data = length (MAGIC ++ objects e) + (length tb + 32))%nat as Hlen
    by (unfold data; rewrite !length_app, length_trailer; lia).
  rewrite length_app, magic_length in Hlen.
  assert (Z.of_nat (length (offsets e)) <= Z.of_nat (length tb)) as Hn by nia.
  unfold decode. rewrite (proj2 (Nat.ltb_ge _ _)) by lia.
  assert (slice (E := option PlistDecodeError) data 0 8 = Ok MAGIC) as ->
    by (unfold data; rewrite <- app_assoc; by apply slice_here).
  cbn [mbind outcome_bind]. rewrite bool_decide_true by done. cbn [negb].
  assert (Trailer_parse data = Ok (mkTrailer os REF_SIZE (Z.of_nat (length (offsets e))) (Z.of_nat root)
            (Z.of_nat (length (MAGIC ++ objects e))))) as ->
    by (unfold data; rewrite app_assoc; apply trailer_parse; unfold uint; rewrite ?length_app, ?magic_length; lia).
  cbn [mbind outcome_bind]. unfold parse_offset_table. cbn [offset_table_offset offset_size num_objects].
  rewrite chk_u_ok by (unfold uint; lia). cbn [mbind outcome_bind].
  assert (at_pos data (Z.of_nat (length (MAGIC ++ objects e))) tb) as Hat.
  { unfold data. rewrite app_assoc. apply at_pos_app. apply at_end. }
  rewrite (at_room _ _ _ _ Hat Hd) by lia. cbn [mbind outcome_bind]. rewrite Nat2Z.id.
  assert (read_table data (Z.of_nat (length (MAGIC ++ objects e))) os (length (offsets e)) 0 = Ok (map (Z.add 8) (offsets e))) as ->.
  { rewrite <- (length_map (Z.add 8) (offsets e)). eapply write_offsets_read; [exact Hw|done|done|].
    by rewrite Z.mul_0_l, Z.add_0_r. }
  cbn [mbind outcome_bind object_ref_size root_object_index]. rewrite length_map.
  rewrite (decode_object_ok data (map (Z.add 8) (offsets e)) Hd _ root v); [done| |lia|set_solver].
  eapply repr_move; [|exact Hr]. intros i o Ho. exists (8 + o). rewrite list_lookup_fmap, Ho. split; [done|].
  intros b [Hp [rest Hb]]. unfold data. apply at_pos_app. split; [rewrite length_app, magic_length; lia|]. exists rest.
  rewrite Z2Nat.inj_add by lia. change (Z.to_nat 8) with (length MAGIC). by rewrite drop_app_add.
Qed.

(** ** Termination *)

(** The result is not that the fuel ran out. *)
Definition ends {A} (m : dres A) : Prop := m <> Err None.
(** It also leaves the set of open objects as it was. *)
Definition restores {A} (seen : gset Z) (m : dres (A * gset Z)) : Prop :=
  ends m /\ forall a s, m = Ok (a, s) -> s = seen.

Lemma ends_bind {A B} (m : dres A) (f : A -> dres B) : ends m -> (forall a, m = Ok a -> ends (f a)) -> ends (m ≫= f).
Proof. unfold ends. destruct m; cbn; naive_solver. Qed.

Lemma restores_bind {A B} seen (m : dres A) (f : A -> dres (B * gset Z)) :
  ends m -> (forall a, m = Ok a -> restores seen (f a)) -> restores seen (m ≫= f).
Proof.
  intros Hm Hf. split; [apply ends_bind; [done|]; intros a Ha; apply (Hf a Ha)|].
  intros b s (a & Ha & H)%bind_ok. by eapply Hf.
Qed.

(** Sequencing two computations that thread the set. *)
Lemma restores_seq {A B} seen (m : dres (A * gset Z)) (f : A -> gset Z -> dres (B * gset Z)) :
  restores seen m -> (forall a, restores seen (f a seen)) -> restores seen ('(a, s) ← m; f a s).
Proof. intros [Hm Hs] Hf. apply restores_bind; [done|]. intros [a s] E. by rewrite (Hs _ _ E). Qed.

Lemma restores_ok {A} seen (a : A) : restores seen (Ok (a, seen)).
Proof. split; [done|]. by intros ? ? [= _ <-]. Qed.

Lemma restores_err {A} seen e : restores (A := A) seen (derr e).
Proof. by split. Qed.

Lemma ends_ok {A} (a : A) : ends (Ok a).
Proof. done. Qed.
Lemma ends_err {A} e : ends (A := A) (derr e).
Proof. done. Qed.
Lemma ends_ok_or {A} (o : option A) e : ends (ok_or o (Some e)).
Proof. by destruct o. Qed.
Lemma ends_chk w z : ends (chk_u w z).
Proof. unfold chk_u. by case_match. Qed.
Lemma ends_byte data i : ends (byte_at data i).
Proof. unfold byte_at. by destruct (data !! i). Qed.
Lemma ends_slice (data : list Z) i j : ends (slice data i j).
Proof. unfold slice. by repeat case_match. Qed.
Lemma ends_be data i n : ends (be_at data i n).
Proof. unfold be_at. apply ends_bind; [apply ends_slice|done]. Qed.
Lemma ends_read b size : ends (read_sized_int b size).
Proof. unfold read_sized_int. by case_match. Qed.

Create HintDb ends discriminated.
#[local] Hint Resolve ends_ok ends_err ends_ok_or ends_chk ends_byte ends_slice ends_be ends_read : ends.
Ltac ends_step :=
  first [ solve [auto with ends] | apply ends_bind; [|intros ? _] | progress cbv zeta | case_match ].

Lemma ends_take data pos n : ends (take_bytes data pos n).
Proof. unfold take_bytes, check_room, zslice. repeat ends_step. Qed.
#[local] Hint Resolve ends_take : ends.

Lemma ends_room data pos n : ends (check_room data pos n).
Proof. unfold check_room. repeat ends_step. Qed.
#[local] Hint Resolve ends_room : ends.

Lemma ends_size data pos n : ends (decode_size data pos n).
Proof. unfold decode_size. repeat ends_step. Qed.
#[local] Hint Resolve ends_size : ends.

Lemma ends_table data start size n : forall i, ends (read_table data start size n i).
Proof. induction n as [|n IH]; intros i; cbn [read_table]; unfold zslice; repeat ends_step. Qed.

Lemma read_ref_nonneg data start size i idx : bytes_ok data -> read_ref data start size i = Ok idx -> 0 <= idx.
Proof.
  intros Hd (b & Hb & H)%bind_ok. unfold read_sized_int in H. revert H. case_match; [|done]. intros [= <-].
  unfold zslice, slice in Hb. revert Hb. repeat case_match; try done. intros [= <-].
  apply from_be_range. by apply Forall_take, Forall_drop.
Qed.

Lemma decode_items_restores dec data start size seen n : bytes_ok data ->
  (forall idx, 0 <= idx -> restores seen (dec idx seen)) -> forall i, restores seen (decode_items dec data start size n i seen).
Proof.
  intros Hd Hdec. induction n as [|n IH]; intros i; cbn [decode_items]; [apply restores_ok|].
  apply restores_bind; [unfold read_ref, zslice; repeat ends_step|]. intros idx Hidx.
  apply restores_seq; [apply Hdec; by eapply read_ref_nonneg|]. intros v.
  apply restores_seq; [apply IH|]. intros vs. apply restores_ok.
Qed.

Lemma decode_entries_restores dec data start size count seen n : bytes_ok data ->
  (forall idx, 0 <= idx -> restores seen (dec idx seen)) ->
  forall i d, restores seen (decode_entries dec data start size count n i d seen).
Proof.
  intros Hd Hdec. induction n as [|n IH]; intros i d; cbn [decode_entries]; [apply restores_ok|].
  apply restores_bind; [unfold read_ref, zslice; repeat ends_step|]. intros ki Hki.
  apply restores_bind; [unfold read_ref, zslice; repeat ends_step|]. intros vi Hvi.
  apply restores_seq; [apply Hdec; by eapply read_ref_nonneg|]. intros k. case_match; try apply restores_err.
  apply restores_seq; [apply Hdec; by eapply read_ref_nonneg|]. intros v. apply IH.
Qed.

Lemma decode_value_restores dec data size marker pos seen : bytes_ok data ->
  (forall idx, 0 <= idx -> restores seen (dec idx seen)) -> restores seen (decode_value dec data size marker pos seen).
Proof.
  intros Hd Hdec. unfold decode_value. cbv zeta.
  assert (forall m : dres PlistValue, ends m -> restores seen (v ← m; Ok (v, seen))) as Hleaf
    by (intros m Hm; apply restores_bind; [done|]; intros; apply restores_ok).
  repeat (case_match; try apply restores_err); try (apply Hleaf); try done;
    unfold decode_singleton, decode_integer, decode_real, decode_date, decode_data, decode_ascii_string,
      decode_utf16_string, decode_uid; try (repeat ends_step; fail).
  all: unfold decode_array, decode_dictionary; repeat (apply restores_bind; [solve [repeat ends_step]|]; intros ? _).
  all: try (case_match; repeat (apply restores_bind; [solve [repeat ends_step]|]; intros ? _)).
  all: apply restores_seq; [first [by apply decode_items_restores|by apply decode_entries_restores]|]; intros; apply restores_ok.
Qed.

(** The indices of a table of [n] objects. *)
Definition indices (n : nat) : gset Z := list_to_set (Z.of_nat <$> seq 0 n).

Lemma size_indices n : size (indices n) = n.
Proof.
  unfold indices. rewrite size_list_to_set; [by rewrite length_fmap, length_seq|].
  apply NoDup_fmap_2; [apply _|]. apply NoDup_seq.
Qed.

(** The open objects are distinct entries of the table, so their number bounds the
    depth of the recursion. *)
Lemma decode_object_restores fuel data table size : bytes_ok data -> forall index seen, 0 <= index ->
  seen ⊆ indices (length table) -> (length table < stdpp.base.size seen + fuel)%nat ->
  restores seen (decode_object fuel data table size index seen).
Proof.
  intros Hd. induction fuel as [|fuel IH]; intros index seen Hi Hsub Hf.
  { exfalso. apply subseteq_size in Hsub. rewrite size_indices in Hsub. lia. }
  cbn [decode_object]. case_bool_decide as Hin; [apply restores_err|].
  destruct (table !! Z.to_nat index) as [o|] eqn:Ho; [|apply restores_err]. cbn [ok_or mbind outcome_bind].
  case_match; [apply restores_err|]. apply restores_bind; [apply ends_byte|]. intros marker _.
  assert (index ∈ indices (length table)) as Hidx.
  { unfold indices. apply elem_of_list_to_set, list_elem_of_fmap. exists (Z.to_nat index).
    split; [lia|]. apply elem_of_seq. apply lookup_lt_Some in Ho. lia. }
  assert (restores ({[index]} ∪ seen) (decode_value (decode_object fuel data table size) data size marker (o + 1) ({[index]} ∪ seen))) as [He Hs].
  { apply decode_value_restores; [done|]. intros idx Hidx'. apply IH; [done|set_solver|].
    rewrite size_union, size_singleton by set_solver. lia. }
  apply restores_bind; [done|]. intros [v s] E. rewrite (Hs _ _ E).
  replace (({[index]} ∪ seen) ∖ {[index]}) with seen; [apply restores_ok|].
  apply set_eq. intros j. set_unfold. destruct (decide (j = index)); naive_solver.
Qed.

Lemma be_at_nonneg {E} data i n v : bytes_ok data -> be_at (E := E) data i n = Ok v -> 0 <= v.
Proof.
  intros Hd (b & Hb & [= <-])%bind_ok. unfold slice in Hb. revert Hb. repeat case_match; try done. intros [= <-].
  apply from_be_range. by apply Forall_take, Forall_drop.
Qed.

Lemma trailer_root data t : bytes_ok data -> Trailer_parse data = Ok t -> 0 <= root_object_index t.
Proof.
  intros Hd. unfold Trailer_parse. case_match; [done|]. intros (tr & Htr & H1)%bind_ok.
  apply bind_ok in H1 as (os & _ & H1). apply bind_ok in H1 as (rs & _ & H1). apply bind_ok in H1 as (n & _ & H1).
  apply bind_ok in H1 as (root & Hroot & H1). apply bind_ok in H1 as (off & _ & [= <-]). cbn.
  eapply be_at_nonneg; [|exact Hroot]. unfold slice in Htr. revert Htr. repeat case_match; try done. intros [= <-].
  by apply Forall_take, Forall_drop.
Qed.

(** *** How many bytes a value takes *)
Definition leaf_weight (v : PlistValue) : nat :=
  match v with PString s => 10 + 4 * length s | Data d => 10 + length d | _ => 17 end.
Fixpoint weight (v : PlistValue) : nat :=
  match v with
  | Array a => 10 + fold_right (fun x n => 2 + weight x + n)%nat 0%nat a
  | Dictionary d => 10 + fold_right (fun kx n => 4 + leaf_weight (PString (fst kx)) + weight (snd kx) + n)%nat 0%nat d
  | v => leaf_weight v
  end.

Lemma header_weight kind n : (length (write_header_to kind n) <= 10)%nat.
Proof. unfold write_header_to, write_int_to. repeat case_match; cbn [length]; rewrite ?length_to_be; lia. Qed.
Lemma utf16_weight s : (length (encode_utf16 s) <= 2 * length s)%nat.
Proof.
  induction s as [|c s IH]; [done|]. unfold encode_utf16 in *. cbn [map concat length]. rewrite length_app.
  assert (length (utf16_units c) <= 2)%nat by (unfold utf16_units; case_match; cbn; lia). lia.
Qed.
Lemma concat_be2 l : length (concat (map (to_be 2) l)) = (2 * length l)%nat.
Proof. induction l as [|x l IH]; [done|]. cbn [map concat length]. rewrite length_app, length_to_be, IH. lia. Qed.

Lemma primitive_weight v : is_leaf v = true -> (length (encode_primitive v) <= leaf_weight v)%nat.
Proof.
  intros Hl. destruct v; try done; cbn [encode_primitive leaf_weight];
    unfold encode_boolean, encode_unsigned, encode_integer, encode_real, encode_date, encode_uid, encode_string, encode_data; cbv zeta;
    repeat case_match; cbn [length]; rewrite ?length_app, ?length_replicate, ?length_to_be, ?concat_be2; try lia;
    try (match goal with |- context [write_header_to ?k ?n] => pose proof (header_weight k n) end; try lia).
  all: try (match goal with |- context [encode_utf16 ?s] => pose proof (utf16_weight s); lia end).
  all: cbn; lia.
Qed.

Lemma encode_leaf_size e v : is_leaf v = true -> (length (objects (fst (encode_leaf e v))) <= length (objects e) + leaf_weight v)%nat.
Proof.
  intros Hl. pose proof (primitive_weight v Hl). unfold encode_leaf, push_object. repeat case_match; cbn [fst objects]; rewrite ?length_app; lia.
Qed.

Lemma write_refs_length refs : forall b, write_refs refs = Ok b -> length b = (2 * length refs)%nat.
Proof.
  induction refs as [|r refs IH]; intros b H; cbn [write_refs] in H; [by simplify_eq|].
  apply bind_ok in H as (x & Hx & H). apply bind_ok in H as (y & Hy & H). simplify_eq. rewrite length_app, (IH _ Hy).
  unfold write_ref in Hx. destruct (_ <? _); [|done]. injection Hx as <-.
  cbn [length]. lia.
Qed.

Definition sized (v : PlistValue) : Prop := forall e e' i, encode_value v e = Ok (e', i) -> (length (objects e') <= length (objects e) + weight v)%nat.

Lemma encode_items_size l : Forall sized l -> forall e e' rs, encode_items encode_value l e = Ok (e', rs) ->
  (length (objects e') + 2 * length rs <= length (objects e) + fold_right (fun x n => 2 + weight x + n) 0 l)%nat.
Proof.
  intros Hl. induction Hl as [|x l Hx Hl IH]; intros e e' rs H; cbn [encode_items fold_right] in *; [simplify_eq; cbn; lia|].
  apply bind_ok in H as ([e1 i] & H1 & H). apply bind_ok in H as ([e2 rs2] & H2 & H). simplify_eq.
  apply Hx in H1. apply IH in H2. cbn [length]. lia.
Qed.

Lemma encode_entries_size l : Forall (fun kv => sized (snd kv)) l -> forall e e' rs, encode_entries encode_value l e = Ok (e', rs) ->
  (length (objects e') + 4 * length rs <= length (objects e) +
    fold_right (fun kx n => 4 + leaf_weight (PString (fst kx)) + weight (snd kx) + n) 0 l)%nat.
Proof.
  intros Hl. induction Hl as [|[k x] l Hx Hl IH]; intros e e' rs H; cbn [encode_entries fold_right fst snd] in *; [simplify_eq; cbn; lia|].
  pose proof (encode_leaf_size e (PString k) eq_refl) as Hk. destruct (encode_leaf e (PString k)) as [e0 ki]. cbn [fst] in Hk.
  apply bind_ok in H as ([e1 i] & H1 & H). apply bind_ok in H as ([e2 rs2] & H2 & H). simplify_eq.
  apply Hx in H1. apply IH in H2. cbn [length]. lia.
Qed.

Lemma encode_value_size v : sized v.
Proof.
  induction v as [v Hl|a Ha|d Hd] using plist_ind; intros e e' i H.
  - assert (encode_value v e = Ok (encode_leaf e v)) as E by (by destruct v). rewrite E in H. injection H as H.
    pose proof (encode_leaf_size e v Hl) as Hs. rewrite H in Hs. cbn [fst] in Hs. by destruct v.
  - cbn [encode_value weight] in *. apply bind_ok in H as ([e1 rs] & H1 & H). apply bind_ok in H as (b & H2 & H). injection H as <- <-.
    apply bind_ok in H2 as (r & Hr & H2). simplify_eq. apply write_refs_length in Hr. apply encode_items_size in H1; [|done].
    cbn [objects]. rewrite !length_app. pose proof (header_weight 0xA (Z.of_nat (length rs))). lia.
  - cbn [encode_value weight] in *. apply bind_ok in H as ([e1 rs] & H1 & H). apply bind_ok in H as (b & H2 & H). injection H as <- <-.
    apply bind_ok in H2 as (ks & Hks & H2). apply bind_ok in H2 as (vs & Hvs & H2). simplify_eq.
    apply write_refs_length in Hks, Hvs. rewrite length_map in *. apply encode_entries_size in H1; [|done].
    cbn [objects]. rewrite !length_app. pose proof (header_weight 0xD (Z.of_nat (length rs))). lia.
Qed.

(** A value whose objects were encoded makes a file that decodes to it. *)
Lemma encoded_decodes v e root : value_ok v -> encode_value v Encoder_new = Ok (e, root) -> (length (offsets e) <= nodes v)%nat ->
  Z.of_nat (nodes v) <= 65535 -> Z.of_nat (length (objects e)) < 2 ^ 62 -> exists data, encode v = Ok data /\ decode data = Ok (norm v).
Proof.
  intros Hv He Hlen Hn Hsize. destruct (encode_value_ok v Encoder_new e root Hv encoder_new_inv He) as (_ & [_ Ho] & Hroot & Hr).
  unfold encode. rewrite He. cbn [mbind outcome_bind].
  rewrite (proj2 (Z.ltb_ge _ _)) by lia. cbv zeta. change (Z.of_nat (length MAGIC)) with 8.
  pose proof (offset_size_fits (8 + Z.of_nat (length (objects e)))) as Hfit.
  destruct (write_offsets_total (map (Z.add 8) (offsets e)) (calculate_offset_size (8 + Z.of_nat (length (objects e)))))
    as [tb Hw].
  { apply Forall_map. eapply Forall_impl; [exact Ho|]. cbn [compose]. lia. }
  rewrite Hw. cbn [mbind outcome_bind]. eexists. split; [reflexivity|]. apply file_decode; [done..|].
  pose proof (offset_size_cases (8 + Z.of_nat (length (objects e)))) as Hs. cbv zeta in Hs.
  apply write_offsets_length in Hw; [|lia]. rewrite length_map in Hw.
  rewrite !length_app, length_trailer, magic_length, !Nat2Z.inj_add, Hw. nia.
Qed.

Lemma encode_decodes v : value_ok v -> Z.of_nat (nodes v) <= 65535 -> Z.of_nat (weight v) < 2 ^ 62 ->
  exists data, encode v = Ok data /\ decode data = Ok (norm v).
Proof.
  intros Hv Hn Hw. destruct (encode_value_total v Encoder_new Hv encoder_new_inv Hn) as (e & root & He & Hlen).
  apply (encoded_decodes v e root); try done. pose proof (encode_value_size v _ _ _ He) as Hs. cbn [Encoder_new objects length] in Hs. lia.
Qed.

(** ** Properties *)

(** C31: property lists round-trip. A well-formed value of at most 65535 objects (its
    dictionary keys counted) is always encoded, unless its objects exceed [2 ^ 62]
    bytes, and the file, with its shared objects, sorted dictionaries and offset
    table, decodes to the same value, an unsigned integer that fits an [i64] coming
    back as an integer. *)
Theorem plist_roundtrip (v : PlistValue) (Hv : value_ok v) (Hn : Z.of_nat (nodes v) <= 65535) :
  exists e root, encode_value v Encoder_new = Ok (e, root) /\
    (Z.of_nat (length (objects e)) < 2 ^ 62 -> exists data, encode v = Ok data /\ decode data = Ok (norm v)).
Proof.
  destruct (encode_value_total v Encoder_new Hv encoder_new_inv Hn) as (e & root & He & Hlen). exists e, root. split; [done|].
  by apply encoded_decodes with root.
Qed.

Lemma plist_roundtrip_witness :
  let v := Dictionary [(bs "a", Integer (-5)); (bs "b", Array [PString [0x1F600]; PString (bs "a"); UnsignedInteger 7; Boolean true])] in
  exists data, encode v = Ok data /\
    decode data = Ok (Dictionary [(bs "a", Integer (-5)); (bs "b", Array [PString [0x1F600]; PString (bs "a"); Integer 7; Boolean true])]).
Proof.
  intros v. assert (value_ok v) as Hv.
  { cbn. unfold string_ok, scalar, sint, uint, str_lt. cbn.
    split_and!; repeat (apply Forall_cons_2 || apply Forall_nil_2); try (cbn; lia); try done.
    repeat constructor. }
  destruct (plist_roundtrip v Hv) as (e & root & E & H); [cbn; lia|]. apply H.
  vm_compute in E. injection E as <- _. reflexivity.
Defined.

(** C32: the decoder terminates on every input. For any bytes, also with circular
    references, the recursion is never deeper than the number of objects, so one
    more level than that is enough fuel: the result is a value, an error of the
    decoder or a panic, never exhaustion. *)
Theorem plist_decode_terminates (data : list Z) (Hd : bytes_ok data) : decode data <> Err None.
Proof.
  change (ends (decode data)). unfold decode. case_match; [done|]. apply ends_bind; [apply ends_slice|]. intros magic _.
  case_match; [done|].
  apply ends_bind; [unfold Trailer_parse; repeat ends_step|]. intros t Ht.
  apply ends_bind; [unfold parse_offset_table; repeat ends_step; apply ends_table|]. intros table _.
  apply ends_bind; [|by intros []]. apply decode_object_restores; [done|by eapply trailer_root|set_solver|].
  rewrite size_empty. lia.
Qed.

Lemma plist_decode_terminates_witness :
  (* an array whose only element is itself *)
  let data := MAGIC ++ [0xA1; 0] ++ [8] ++ replicate 6 0 ++ [1; 1] ++ to_be 8 1 ++ to_be 8 0 ++ to_be 8 10 in
  decode data <> Err None /\ decode data = derr CircularReference.
Proof.
  intros data. assert (bytes_ok data) as Hd by (vm_compute; repeat constructor; congruence).
  split; [exact (plist_decode_terminates data Hd)|]. vm_compute. reflexivity.
Defined.

(** Malformed lengths panic. A data object of length [2 ^ 64 - 1] (its end
    overflows a [usize]) and an offset table of [2 ^ 61] entries of 8 bytes each make
    the decoder panic instead of returning an error: 51 and 40 bytes received from
    the network suffice. *)
Theorem plist_decode_panics :
  (exists data, bytes_ok data /\ length data = 51%nat /\ decode data = Panic) /\
  (exists data, bytes_ok data /\ length data = 40%nat /\ decode data = Panic).
Proof.
  split.
  - exists (MAGIC ++ [0x4F; 0x13] ++ replicate 8 0xFF ++ [8] ++ replicate 6 0 ++ [1; 1] ++ to_be 8 1 ++ to_be 8 0 ++ to_be 8 18).
    split_and!; [vm_compute; repeat constructor; congruence|reflexivity|vm_compute; reflexivity].
  - exists (MAGIC ++ replicate 6 0 ++ [8; 1] ++ to_be 8 (2 ^ 61) ++ to_be 8 0 ++ to_be 8 8).
    split_and!; [vm_compute; repeat constructor; congruence|reflexivity|vm_compute; reflexivity].
Qed.

End Plist.
