(* ===== verification/RtspParser.v ===== *)
(** * RTSP requests on the wire

    Models the client's [RtspRequest::encode] and [RtspRequestBuilder]
    ([src/protocol/rtsp/request.rs]), [Method::from_str] ([mod.rs]) and the
    server's incremental parser [RtspServerCodec] ([server_codec.rs]).  The codec
    is its buffer; text is handled as Unicode scalars, and the fields of a parsed
    request are the UTF-8 strings of [Rtsp]. *)

From stdpp Require Import pretty.
From S2P Require Import Text Unicode Rtsp Plist.

Module RtspParser.
Import Unicode Rtsp.

(** A [String] from its characters. *)
Definition of_chars (cs : list Z) : string := sb (utf8_encode cs).
(** The characters of a [String]. *)
Definition chars (s : string) : option (list Z) := from_utf8 (bs s).

(** [to_uppercase], on the characters whose upper case is ASCII; others keep their
    value, which is not ASCII either. *)
Definition upper (c : Z) : list Z :=
  if (97 <=? c) && (c <=? 122) then [c - 32]
  else match c with
       | 0x131 => bs "I" | 0x17F => bs "S" | 0xDF => bs "SS"
       | 0xFB00 => bs "FF" | 0xFB01 => bs "FI" | 0xFB02 => bs "FL" | 0xFB03 => bs "FFI" | 0xFB04 => bs "FFL"
       | 0xFB05 | 0xFB06 => bs "ST"
       | _ => [c]
       end.

Definition METHODS : list Method :=
  [Options; Announce; Setup; Record_; Play; Pause; Flush; Teardown; SetParameter; GetParameter; Post; Get;
   SetRateAnchorTime; SetPeers].

Definition Method_from_str (s : list Z) : option Method :=
  List.find (fun m => bool_decide (concat (map upper s) = bs (Method_as_str m))) METHODS.

(** ** The client's encoder *)
Section Encode.
Context {O : HashOrder}.

Definition request_encode (r : RtspRequest) : list Z :=
  bs (Method_as_str (method r)) ++ bs " " ++ bs (uri r) ++ bs " RTSP/1.0" ++ crlf ++
  concat (map encode_header (hash_order (headers r))) ++
  (if negb (bool_decide (body r = [])) && negb (Headers_contains (headers r) "Content-Length")
   then encode_header ("Content-Length", pretty (Z.of_nat (length (body r)))) else []) ++
  crlf ++ body r.
End Encode.

(** [RtspRequestBuilder]: the request under construction. *)
Definition Request_new (m : Method) (u : string) : RtspRequest :=
  {| method := m; uri := u; headers := []; body := [] |}.
Definition request_header (r : RtspRequest) (name value : string) : RtspRequest :=
  {| method := method r; uri := uri r; headers := Headers_insert (headers r) name value; body := body r |}.
Definition request_cseq (r : RtspRequest) (seq : Z) : RtspRequest := request_header r "CSeq" (pretty seq).
Definition request_content_type (r : RtspRequest) (t : string) : RtspRequest := request_header r "Content-Type" t.
Definition request_user_agent (r : RtspRequest) (a : string) : RtspRequest := request_header r "User-Agent" a.
Definition request_session (r : RtspRequest) (id : string) : RtspRequest := request_header r "Session" id.
Definition request_body (r : RtspRequest) (b : list Z) : RtspRequest :=
  {| method := method r; uri := uri r;
     headers := Headers_insert (headers r) "Content-Length" (pretty (Z.of_nat (length b))); body := b |}.
(** Panics when the property list cannot be encoded. *)
Definition request_body_plist {E} (r : RtspRequest) (p : Plist.PlistValue) : outcome E RtspRequest :=
  match Plist.encode p with
  | Ok b => Ok (request_header (request_body r b) "Content-Type" "application/x-apple-binary-plist")
  | _ => Panic
  end.

Lemma bs_text s : string_ok (bs s).
Proof. eapply Forall_impl; [apply bs_ok|]. cbn. unfold byte_ok, scalar. lia. Qed.

(** ** The server's parser *)
Inductive ParseError :=
| Incomplete
| InvalidRequestLine (s : list Z)
| InvalidMethod (s : list Z)
| InvalidHeader (s : list Z)
| InvalidContentLength (s : list Z)
| BodyTooLarge (size max : Z)
| InvalidUtf8.

Definition MAX_BODY_SIZE : Z := 16 * 1024 * 1024.
Definition MAX_HEADER_SIZE : Z := 64 * 1024.

(** [RtspServerCodec]: its buffer. *)
Definition RtspServerCodec : Type := list Z.
Definition codec_new : RtspServerCodec := [].
Definition feed (c : RtspServerCodec) (data : list Z) : RtspServerCodec := c ++ data.
Definition clear (c : RtspServerCodec) : RtspServerCodec := [].

(** [windows(n).position(|w| w == needle)]. *)
Fixpoint position (needle buf : list Z) : option nat :=
  if bool_decide (take (length needle) buf = needle) then Some O
  else match buf with
       | [] => None
       | _ :: rest => S <$> position needle rest
       end.

(** [str::contains]. *)
Definition contains (needle s : list Z) : bool := match position needle s with Some _ => true | None => false end.

Definition find_header_end (c : RtspServerCodec) : option nat := position [13; 10; 13; 10] c.

Fixpoint parse_header_lines (ls : list (list Z)) (h : Headers) : outcome ParseError Headers :=
  match ls with
  | [] => Ok h
  | line :: rest =>
      if bool_decide (line = []) then Ok h
      else match split_at 58 line with
           | Some (name, value) => parse_header_lines rest (Headers_insert h (of_chars (trim name)) (of_chars (trim value)))
           | None => Err (InvalidHeader line)
           end
  end.

Definition starts_with (p s : list Z) : bool := bool_decide (take (length p) s = p).

Definition parse_headers (header_str : list Z) : outcome ParseError (Method * string * Headers) :=
  match lines header_str with
  | [] => Err (InvalidRequestLine (bs "Empty request"))
  | request_line :: rest =>
      match split_whitespace request_line with
      | p0 :: p1 :: p2 :: _ =>
          m ← ok_or (Method_from_str p0) (InvalidMethod p0);
          if negb (starts_with (bs "RTSP/") p2)
          then Err (InvalidRequestLine (bs "Invalid protocol: " ++ p2))
          else h ← parse_header_lines rest []; Ok (m, of_chars p1, h)
      | _ => Err (InvalidRequestLine request_line)
      end
  end.

(** [headers.get("Content-Length").or_else(...).map(parse).transpose()]. *)
Definition body_length (h : Headers) : outcome ParseError Z :=
  match Headers_get h "Content-Length" with
  | Some s => ok_or (parse_uint 64 s) (InvalidContentLength (bs "Not a number"))
  | None =>
      match Headers_get h "content-length" with
      | Some s => ok_or (parse_uint 64 s) (InvalidContentLength (bs "Not a number"))
      | None => Ok 0
      end
  end.

(** The buffer afterwards, which an error or a wait leaves as it was, and the result. *)
Definition decode (c : RtspServerCodec) : RtspServerCodec * outcome ParseError (option RtspRequest) :=
  match find_header_end c with
  | None =>
      (c, if MAX_HEADER_SIZE <? Z.of_nat (length c) then Err (InvalidHeader (bs "Headers too large")) else Ok None)
  | Some header_end =>
      match
        header_str ← ok_or (from_utf8 (take header_end c)) InvalidUtf8;
        '(m, u, h) ← parse_headers header_str;
        content_length ← body_length h;
        if MAX_BODY_SIZE <? content_length then Err (BodyTooLarge content_length MAX_BODY_SIZE)
        else Ok (m, u, h, Z.to_nat content_length)
      with
      | Ok (m, u, h, n) =>
          if (length c <? header_end + 4 + n)%nat then (c, Ok None)
          else
            let rest := drop (header_end + 4) c in
            (drop n rest, Ok (Some {| method := m; uri := u; headers := h; body := take n rest |}))
      | Err e => (c, Err e)
      | Panic => (c, Panic)
      end
  end.

(** ** Decimal numbers *)
Definition digits (s : string) : Prop := Forall (fun b => 48 <= b <= 57) (bs s).

Lemma pretty_char_digit d : (d < 10)%N ->
  digit (pretty_N_char d) = Some (Z.of_N d) /\ 48 <= Z.of_N (Ascii.N_of_ascii (pretty_N_char d)) <= 57.
Proof.
  intros Hd. assert (In d [0; 1; 2; 3; 4; 5; 6; 7; 8; 9]%N) as Hin by (cbn; lia). clear Hd. revert d Hin.
  apply List.Forall_forall. repeat constructor; vm_compute; congruence.
Qed.

Lemma pretty_go_digits x s : digits s -> digits (pretty_N_go x s).
Proof.
  revert s. induction (N.lt_wf_0 x) as [x _ IH]. intros s Hs.
  destruct (decide (0 < x)%N) as [Hpos|Hz]; [|by assert (x = 0%N) as -> by lia; rewrite pretty_N_go_0].
  rewrite pretty_N_go_step by done. apply IH; [apply N.div_lt; lia|]. constructor; [|done].
  apply pretty_char_digit, N.mod_lt. lia.
Qed.

Lemma parse_pretty_go w x s : Z.of_N x < 2 ^ w -> parse_digits w 0 (pretty_N_go x s) = parse_digits w (Z.of_N x) s.
Proof.
  revert s. induction (N.lt_wf_0 x) as [x _ IH]. intros s Hx.
  destruct (decide (0 < x)%N) as [Hpos|Hz]; [|by assert (x = 0%N) as -> by lia; rewrite pretty_N_go_0].
  rewrite pretty_N_go_step by done.
  assert (x / 10 < x)%N by (apply N.div_lt; lia). pose proof (N.div_mod x 10 ltac:(lia)).
  pose proof (N.mod_lt x 10 ltac:(lia)).
  rewrite IH by lia. cbn [parse_digits]. destruct (pretty_char_digit (x `mod` 10)) as [-> _]; [done|]. cbv zeta.
  replace (Z.of_N (x / 10) * 10 + Z.of_N (x `mod` 10)%N) with (Z.of_N x) by lia.
  by rewrite (proj2 (Z.ltb_lt _ _)).
Qed.

(** Digits parse without a sign. *)
Lemma parse_uint_digits w s : digits s -> s <> EmptyString -> parse_uint w s = parse_digits w 0 s.
Proof.
  destruct s as [|a s]; [done|]. intros Hd _. apply Forall_cons in Hd as [Ha _]. cbn [parse_uint].
  destruct (N.eqb_spec (Ascii.N_of_ascii a) 43) as [E|]; [|done]. rewrite E in Ha. cbn in Ha. lia.
Qed.

Lemma pretty_spec w z : uint w z -> 0 < w -> digits (pretty z) /\ pretty z <> EmptyString /\ parse_uint w (pretty z) = Some z.
Proof.
  intros Hz Hw. unfold uint in Hz. destruct z as [|p|p]; [..|lia].
  - assert (1 < 2 ^ w) by (apply Z.pow_gt_1; lia).
    split_and!; [|done|change (parse_uint w (pretty 0)) with (if 0 <? 2 ^ w then Some 0 else None); by rewrite (proj2 (Z.ltb_lt _ _)) by lia]. repeat constructor; cbn; lia.
  - assert (pretty (Z.pos p) = pretty_N_go (N.pos p) "") as E by reflexivity. rewrite E.
    assert (digits (pretty_N_go (N.pos p) "")) as Hd by (apply pretty_go_digits, Forall_nil_2).
    assert (pretty_N_go (N.pos p) "" <> EmptyString) as Hne.
    { intros He. pose proof (parse_pretty_go w (N.pos p) "" ltac:(cbn; lia)) as Hp. rewrite He in Hp. by cbn in Hp. }
    split_and!; [done|done|]. rewrite parse_uint_digits by done. rewrite parse_pretty_go by (cbn; lia). done.
Qed.

(** ** Headers *)
Lemma insert_fresh h n v : Forall (fun kv => eq_ignore_case kv.1 n = false) h -> Headers_insert h n v = h ++ [(n, v)].
Proof. intros H. unfold Headers_insert. by rewrite filter_all. Qed.

Lemma headers_ok_fresh h n v : headers_ok (h ++ [(n, v)]) -> Forall (fun kv => eq_ignore_case kv.1 n = false) h.
Proof.
  unfold headers_ok. rewrite map_app. intros (_ & Hd & _)%NoDup_app. apply Forall_forall. intros kv Hkv.
  apply bool_decide_eq_false_2. intros E. apply (Hd (string_lower kv.1)).
  - by apply (list_elem_of_fmap_2 (fun kv => string_lower kv.1)).
  - rewrite E. by left.
Qed.

Lemma headers_get_spec h n v : headers_ok h ->
  Headers_get h n = Some v <-> exists k, (k, v) ∈ h /\ string_lower k = string_lower n.
Proof.
  unfold Headers_get, headers_ok. intros Hok. induction h as [|[k' v'] h IH]; cbn.
  - split; [done|]. intros (k & Hk & _). by apply not_elem_of_nil in Hk.
  - inversion Hok as [|? ? Hnin Hnd]; subst. unfold eq_ignore_case at 1. case_bool_decide as E; cbn.
    + split; [intros [= <-]; exists k'; split; [by left|done]|].
      intros (k & Hk & Ek). apply elem_of_cons in Hk as [[= -> ->]|Hk]; [done|]. exfalso. apply Hnin. cbn.
      rewrite E, <- Ek. by apply (list_elem_of_fmap_2 (fun kv => string_lower kv.1) h (k, v)).
    + rewrite IH by done. split; intros (k & Hk & Ek); exists k; (split; [|done]).
      * by right.
      * apply elem_of_cons in Hk as [[= -> ->]|Hk]; [by rewrite Ek in E|done].
Qed.

Lemma headers_get_perm h h' n : headers_ok h -> h ≡ₚ h' -> Headers_get h' n = Headers_get h n.
Proof.
  intros Hok Hp. assert (headers_ok h') as Hok' by (unfold headers_ok; by rewrite <- Hp).
  destruct (Headers_get h n) as [v|] eqn:E.
  - apply headers_get_spec; [done|]. apply headers_get_spec in E as (k & Hk & Ek); [|done]. exists k. by rewrite <- Hp.
  - destruct (Headers_get h' n) as [v|] eqn:E'; [|done]. apply headers_get_spec in E' as (k & Hk & Ek); [|done].
    assert (Headers_get h n = Some v) as E2 by (apply headers_get_spec; [done|]; exists k; by rewrite Hp). congruence.
Qed.

Lemma headers_get_none h n : Headers_get h n = None -> Forall (fun kv => eq_ignore_case kv.1 n = false) h.
Proof.
  unfold Headers_get. intros E. apply fmap_None in E. apply Forall_forall. intros kv Hkv.
  apply (List.find_none _ _ E). by apply list_elem_of_In.
Qed.

Lemma headers_ok_snoc h n v : headers_ok h -> Headers_get h n = None -> headers_ok (h ++ [(n, v)]).
Proof. intros Hok Hn. rewrite <- insert_fresh by (by apply headers_get_none). by apply headers_insert_ok. Qed.

Lemma headers_get_snoc h n v : Headers_get h n = None -> Headers_get (h ++ [(n, v)]) n = Some v.
Proof.
  unfold Headers_get. intros E%fmap_None. induction h as [|kv h IH]; cbn in *.
  - unfold eq_ignore_case. by rewrite bool_decide_true.
  - destruct (eq_ignore_case kv.1 n); [done|by apply IH].
Qed.

Lemma headers_get_app h h' n : Headers_get (h ++ h') n = match Headers_get h n with Some v => Some v | None => Headers_get h' n end.
Proof.
  unfold Headers_get. induction h as [|kv h IH]; cbn; [done|]. by destruct (eq_ignore_case kv.1 n).
Qed.

Lemma headers_get_one k v n : Headers_get [(k, v)] n = if eq_ignore_case k n then Some v else None.
Proof. unfold Headers_get. cbn [List.find fst]. by destruct (eq_ignore_case k n). Qed.

(** A lookup ignores the case of the name. *)
Lemma headers_get_fold h n k : string_lower k = string_lower n -> Headers_get h k = Headers_get h n.
Proof. intros E. unfold Headers_get. by unfold eq_ignore_case; rewrite E. Qed.

(** *** Finding the blank line *)
Definition blank_line : list Z := [13; 10; 13; 10].

Lemma position_cons c s : position blank_line (c :: s) =
  if bool_decide (take 4 (c :: s) = blank_line) then Some O else S <$> position blank_line s.
Proof. done. Qed.

Lemma position_nil needle : needle <> [] -> position needle [] = None.
Proof. intros H. cbn. by rewrite bool_decide_false by (by rewrite take_nil). Qed.

Lemma position_skip c s : c <> 13 -> position blank_line (c :: s) = S <$> position blank_line s.
Proof. intros Hc. cbn [position]. rewrite bool_decide_false; [done|]. cbn. by intros [=]. Qed.

Lemma position_line l s : 13 ∉ l -> position blank_line (l ++ s) = Nat.add (length l) <$> position blank_line s.
Proof.
  induction l as [|c l IH]; cbn [app length]; [by destruct (position blank_line s)|].
  intros [Hc Hl]%not_elem_of_cons. rewrite position_skip, IH by congruence. by destruct (position blank_line s).
Qed.

(** The first line break. *)
Lemma position_crlf_first l s : 13 ∉ l -> position [13; 10] (l ++ 13 :: 10 :: s) = Some (length l).
Proof.
  induction l as [|c l IH]; [done|]. intros [Hc Hl]%not_elem_of_cons. cbn [app position length].
  rewrite bool_decide_false by (cbn; congruence). by rewrite IH.
Qed.

(** A line break before a line that is not empty. *)
Lemma position_crlf l s : l <> [] -> 13 ∉ l ->
  position blank_line (13 :: 10 :: l ++ s) = Nat.add (2 + length l) <$> position blank_line s.
Proof.
  intros Hne Hl. rewrite position_cons, bool_decide_false.
  2:{ destruct l as [|c l]; [done|]. apply not_elem_of_cons in Hl as [Hc _]. cbn. intros [=]. congruence. }
  rewrite position_skip by done. rewrite position_line by done. by destruct (position blank_line s).
Qed.

Lemma position_bound needle s i : position needle s = Some i ->
  (i + length needle <= length s)%nat /\ take (length needle) (drop i s) = needle.
Proof.
  revert i. induction s as [|c s IH]; intros i; cbn [position]; case_bool_decide as E; try done.
  - intros [= <-]. split; [|done]. apply (f_equal length) in E. rewrite length_take in E. cbn in *. lia.
  - intros [= <-]. split; [|done]. apply (f_equal length) in E. rewrite length_take in E. cbn in *. lia.
  - destruct (position needle s) as [j|] eqn:Ej; [|done]. intros [= <-]. destruct (IH j eq_refl). cbn. split; [lia|done].
Qed.

Lemma position_app needle s t i : position needle s = Some i -> position needle (s ++ t) = Some i.
Proof.
  revert i. induction s as [|c s IH]; intros i H; pose proof (position_bound _ _ _ H) as [Hb Ht].
  - destruct needle as [|d needle]; [|cbn in Hb; lia]. cbn in H. simplify_eq. by destruct t.
  - cbn [position app] in *. case_bool_decide as E.
    + simplify_eq. rewrite bool_decide_true; [done|]. rewrite app_comm_cons, take_app_le by (cbn in *; lia). done.
    + destruct (position needle s) as [j|] eqn:Ej; [|done]. simplify_eq/=. rewrite bool_decide_false; [by rewrite (IH j)|].
      intros E'. apply E. rewrite app_comm_cons, take_app_le in E' by (cbn in *; lia). done.
Qed.

(** The search may begin later, up to the first occurrence. *)
Lemma position_drop needle s : forall k, match position needle s with
  | Some i => (k <= i)%nat -> position needle (drop k s) = Some (i - k)%nat
  | None => position needle (drop k s) = None
  end.
Proof.
  induction s as [|c s IH]; intros [|k].
  - rewrite drop_0. destruct (position needle []) as [i|]; [intros _; by rewrite Nat.sub_0_r|done].
  - rewrite drop_nil. destruct (position _ _) eqn:E; [|done]. pose proof (position_bound _ _ _ E) as [? _]. cbn in *. lia.
  - rewrite drop_0. destruct (position needle (c :: s)) as [i|]; [intros _; by rewrite Nat.sub_0_r|done].
  - cbn [drop]. cbn [position]. case_bool_decide; [lia|]. specialize (IH k). destruct (position needle s) as [j|]; cbn; [|done]. intros. rewrite IH by lia. f_equal.
Qed.

(** What a prefix shows of the first occurrence in the whole. *)
Lemma position_prefix needle s t i : position needle (s ++ t) = Some i ->
  position needle s = if (length s <? i + length needle)%nat then None else Some i.
Proof.
  intros H. destruct (position needle s) as [j|] eqn:Ej.
  - pose proof (position_bound _ _ _ Ej) as [Hb _]. apply (position_app _ _ t) in Ej. simplify_eq.
    by rewrite (proj2 (Nat.ltb_ge _ _)) by lia.
  - destruct (Nat.ltb_spec (length s) (i + length needle)) as [|Hge]; [done|]. exfalso. revert i H Hge.
    induction s as [|c s IH]; intros i H Hge; cbn [app] in *.
    + cbn in Hge. assert (i = 0%nat /\ needle = []) as [-> ->] by (destruct needle; cbn in *; [split; [lia|done]|lia]).
      cbn in Ej. done.
    + cbn [position] in *. destruct (bool_decide_reflect (take (length needle) (c :: s) = needle)) as [E|E]; [done|].
      destruct (position needle s) as [j|] eqn:Ej'; [done|].
      destruct (bool_decide_reflect (take (length needle) (c :: s ++ t) = needle)) as [E'|_].
      { simplify_eq. apply E. rewrite app_comm_cons, take_app_le in E' by (cbn in *; lia). done. }
      destruct (position needle (s ++ t)) as [k|] eqn:Ek; [|done]. simplify_eq/=. eapply (IH eq_refl k eq_refl). lia.
Qed.

(** ** Well-formed requests *)

(** The string [s] is the UTF-8 of the characters [cs]. *)
Definition text (s : string) (cs : list Z) : Prop := bs s = utf8_encode cs /\ string_ok cs.

Lemma of_chars_text s cs : text s cs -> of_chars cs = s.
Proof. intros [E _]. unfold of_chars. by rewrite <- E, sb_bs. Qed.

(** A header whose name and value have no line breaks and no surrounding white
    space, and whose name has no colon. *)
Definition field_ok (kv : string * string) : Prop := exists cn cv,
  text kv.1 cn /\ text kv.2 cv /\ 58 ∉ cn /\ 13 ∉ cn /\ 10 ∉ cn /\ 13 ∉ cv /\ 10 ∉ cv /\ trim cn = cn /\ trim cv = cv.

(** The line of a header: what the encoder writes and the parser reads. *)
Definition line_of (kv : string * string) (l : list Z) : Prop :=
  encode_header kv = utf8_encode l ++ crlf /\ string_ok l /\ l <> [] /\ 10 ∉ l /\ 13 ∉ l /\
  exists cn cv, split_at 58 l = Some (cn, cv) /\ of_chars (trim cn) = kv.1 /\ of_chars (trim cv) = kv.2.

Lemma field_line kv : field_ok kv -> exists l, line_of kv l.
Proof.
  intros (cn & cv & Hn & Hv & H58 & H13 & H10 & H13' & H10' & Tn & Tv). exists (cn ++ 58 :: 32 :: cv).
  pose proof Hn as [Bn On]. pose proof Hv as [Bv Ov]. split_and!.
  - unfold encode_header. rewrite Bn, Bv, utf8_encode_app. change (58 :: 32 :: cv) with ([58; 32] ++ cv).
    rewrite utf8_encode_app, <- !app_assoc. done.
  - apply Forall_app. split; [done|]. repeat (apply Forall_cons_2; [unfold scalar; lia|]). done.
  - by destruct cn.
  - rewrite not_elem_of_app, !not_elem_of_cons. by split_and!.
  - rewrite not_elem_of_app, !not_elem_of_cons. by split_and!.
  - exists cn, (32 :: cv). split_and!.
    + by apply split_at_first.
    + rewrite Tn. by apply of_chars_text.
    + rewrite trim_cons, Tv by done. by apply of_chars_text.
Qed.

Lemma field_lines hs : Forall field_ok hs -> exists ls, Forall2 line_of hs ls.
Proof.
  induction 1 as [|kv hs Hkv Hhs [ls IH]]; [by exists []|]. destruct (field_line kv Hkv) as [l Hl].
  exists (l :: ls). by constructor.
Qed.

(** The characters of the header section. *)
Definition first_line (m : Method) (cu : list Z) : list Z := bs (Method_as_str m) ++ 32 :: cu ++ 32 :: bs "RTSP/1.0".
Definition section (m : Method) (cu : list Z) (ls : list (list Z)) : list Z :=
  first_line m cu ++ concat (map (fun l => 13 :: 10 :: l) ls).

(** Every line, the request line too, ends before a line break. *)
Lemma encode_headers_section hs ls : Forall2 line_of hs ls ->
  crlf ++ concat (map encode_header hs) = utf8_encode (concat (map (fun l => 13 :: 10 :: l) ls)) ++ crlf.
Proof.
  induction 1 as [|kv l hs ls Hl Hls IH]; [done|]. cbn [map concat]. destruct Hl as (-> & _).
  rewrite <- !app_assoc, IH. change (13 :: 10 :: l) with (crlf ++ l). rewrite !utf8_encode_app, <- !app_assoc.
  by rewrite (ascii_encode crlf) by done.
Qed.

Lemma utf8_avoid x cs : string_ok cs -> 0 <= x < 128 -> x ∉ cs -> x ∉ utf8_encode cs.
Proof.
  intros Hs Hx. induction Hs as [|c cs Hc Hs IH]; [done|]. intros [Hne Hcs]%not_elem_of_cons.
  unfold utf8_encode in *. cbn [map concat]. rewrite not_elem_of_app. split; [|by apply IH].
  unfold utf8_char, scalar in *. pose proof (Z.mod_pos_bound c 64). pose proof (Z.mod_pos_bound (c / 64) 64).
  pose proof (Z.mod_pos_bound (c / 4096) 64).
  assert (0 <= c / 64) by (apply Z.div_pos; lia). assert (0 <= c / 4096) by (apply Z.div_pos; lia).
  assert (0 <= c / 262144) by (apply Z.div_pos; lia).
  repeat case_match; rewrite !not_elem_of_cons; (split_and!; [lia..|apply not_elem_of_nil]).
Qed.

(** Printable ASCII, without blanks. *)
Definition printable (c : Z) : Prop := 33 <= c < 127.

Lemma method_printable m : Forall printable (bs (Method_as_str m)).
Proof. destruct m; apply (bool_decide_unpack _); vm_compute; exact I. Qed.

Lemma version_printable : Forall printable (bs "RTSP/1.0").
Proof. apply (bool_decide_unpack _); vm_compute; exact I. Qed.

Lemma printable_ok s : Forall printable s -> string_ok s /\ no_ws s /\ 10 ∉ s /\ 13 ∉ s /\ is_ascii s = true.
Proof.
  unfold printable. intros H. split_and!.
  - eapply Forall_impl; [exact H|]. unfold scalar. lia.
  - eapply Forall_impl; [exact H|]. intros c Hc. cbn in Hc. unfold is_whitespace.
    rewrite !orb_false_iff, !andb_false_iff, !Z.leb_gt, !Z.eqb_neq. lia.
  - intros Hin. eapply Forall_forall in H; [|exact Hin]. lia.
  - intros Hin. eapply Forall_forall in H; [|exact Hin]. lia.
  - apply forallb_forall. intros c Hc. apply list_elem_of_In in Hc. eapply Forall_forall in H; [|exact Hc]. lia.
Qed.

Lemma no_ws_avoid x cu : no_ws cu -> is_whitespace x = true -> x ∉ cu.
Proof. intros Hws Hx H. eapply Forall_forall in Hws; [|exact H]. congruence. Qed.

Lemma first_line_ok m cu : string_ok cu -> no_ws cu ->
  string_ok (first_line m cu) /\ 10 ∉ first_line m cu /\ 13 ∉ first_line m cu.
Proof.
  intros Hu Hws. destruct (printable_ok _ (method_printable m)) as (M1 & _ & M2 & M3 & _).
  destruct (printable_ok _ version_printable) as (V1 & _ & V2 & V3 & _).
  assert (scalar 32) by (unfold scalar; lia). unfold first_line. split_and!.
  - apply Forall_app. split; [done|]. apply Forall_cons_2; [done|]. apply Forall_app. split; [done|]. by apply Forall_cons_2.
  - rewrite not_elem_of_app, not_elem_of_cons, not_elem_of_app, not_elem_of_cons.
    split_and!; [done|lia|by apply no_ws_avoid|lia|done].
  - rewrite not_elem_of_app, not_elem_of_cons, not_elem_of_app, not_elem_of_cons.
    split_and!; [done|lia|by apply no_ws_avoid|lia|done].
Qed.

Definition line_ok (l : list Z) : Prop := string_ok l /\ l <> [] /\ 10 ∉ l /\ 13 ∉ l.

Lemma line_of_ok hs ls : Forall2 line_of hs ls -> Forall line_ok ls.
Proof. induction 1 as [|kv l hs ls (_ & ? & ? & ? & ? & _) _ IH]; constructor; [|done]. by split_and!. Qed.

Lemma lines_position l ls rest : string_ok l -> 13 ∉ l -> Forall line_ok ls ->
  let s := utf8_encode (l ++ concat (map (fun l => 13 :: 10 :: l) ls)) in
  position blank_line (s ++ blank_line ++ rest) = Some (length s).
Proof.
  intros Hok H13 Hls. cbv zeta. rewrite utf8_encode_app, <- app_assoc, length_app.
  rewrite position_line by (by apply utf8_avoid).
  assert (position blank_line (utf8_encode (concat (map (fun l => 13 :: 10 :: l) ls)) ++ blank_line ++ rest) =
    Some (length (utf8_encode (concat (map (fun l => 13 :: 10 :: l) ls))))) as ->; [|done].
  clear Hok H13. induction Hls as [|l' ls (Hl & Hne & _ & H13) Hls IH]; [done|]. cbn [map concat].
  rewrite !utf8_encode_app. change (13 :: 10 :: l') with (crlf ++ l'). rewrite utf8_encode_app, (ascii_encode crlf) by done.
  rewrite <- !app_assoc. change (crlf ++ ?x) with (13 :: 10 :: x). rewrite position_crlf, IH.
  - cbn [fmap option_fmap option_map]. f_equal. cbn [length]. rewrite ?length_app. cbn. lia.
  - destruct l' as [|c l']; [done|]. unfold utf8_encode. cbn [map concat]. unfold utf8_char. by repeat case_match.
  - apply utf8_avoid; [done|lia|done].
Qed.

Lemma section_position m cu ls rest : string_ok cu -> no_ws cu -> Forall line_ok ls ->
  position blank_line (utf8_encode (section m cu ls) ++ blank_line ++ rest) = Some (length (utf8_encode (section m cu ls))).
Proof.
  intros Hu Hws Hls. destruct (first_line_ok m cu) as (Hok & _ & H13); [done..|]. by apply lines_position.
Qed.

Lemma section_ok m cu ls : string_ok cu -> no_ws cu -> Forall line_ok ls -> string_ok (section m cu ls).
Proof.
  intros Hu Hws Hls. apply Forall_app. split; [by apply first_line_ok|].
  induction Hls as [|l ls (Hl & _) Hls IH]; [apply Forall_nil_2|]. cbn [map concat].
  repeat (apply Forall_cons_2; [unfold scalar; lia|]). by apply Forall_app.
Qed.

(** *** Parsing the header section *)
Lemma section_lines l ls : 10 ∉ l -> l <> [] -> Forall line_ok ls ->
  lines (l ++ concat (map (fun l => 13 :: 10 :: l) ls)) = l :: ls.
Proof.
  intros Hl Hne Hls. revert l Hl Hne. induction Hls as [|l' ls (_ & Hne' & H10 & _) Hls IH]; intros l Hl Hne; cbn [map concat].
  - rewrite app_nil_r. by apply lines_last.
  - cbn [app]. rewrite lines_crlf by done. by rewrite IH.
Qed.

Lemma parse_lines_ok hs ls h : Forall2 line_of hs ls -> headers_ok (h ++ hs) -> parse_header_lines ls h = Ok (h ++ hs).
Proof.
  intros Hl. revert h. induction Hl as [|kv l hs ls (_ & _ & Hne & _ & _ & cn & cv & Hs & Hn & Hv) Hls IH]; intros h Hok.
  - by rewrite app_nil_r.
  - cbn [parse_header_lines]. rewrite bool_decide_false, Hs, Hn, Hv by done.
    rewrite (cons_middle kv h hs), app_assoc in Hok |- *. destruct kv as [k v]. rewrite insert_fresh.
    + by apply IH.
    + apply (headers_ok_fresh h k v). unfold headers_ok in *. rewrite map_app in Hok. by apply NoDup_app in Hok as [? _].
Qed.

Lemma Method_from_as_str m : Method_from_str (bs (Method_as_str m)) = Some m.
Proof. by destruct m. Qed.

Lemma parse_section m cu u hs ls : text u cu -> no_ws cu -> cu <> [] -> Forall2 line_of hs ls -> headers_ok hs ->
  parse_headers (section m cu ls) = Ok (m, u, hs).
Proof.
  intros Hu Hws Hne Hls Hok. destruct (first_line_ok m cu (proj2 Hu) Hws) as (_ & H10 & _).
  unfold parse_headers, section. rewrite section_lines; [|done|by destruct m|by eapply line_of_ok].
  destruct (printable_ok _ (method_printable m)) as (_ & M & _).
  unfold first_line. rewrite words_sep by (done || by destruct m). rewrite words_sep by done.
  rewrite words_last; [|by apply printable_ok, version_printable|done].
  rewrite Method_from_as_str. cbn [ok_or mbind outcome_bind]. change (starts_with (bs "RTSP/") (bs "RTSP/1.0")) with true.
  cbn [negb]. rewrite (parse_lines_ok hs) by done. cbn. by rewrite (of_chars_text u).
Qed.

(** What the parser does on a well-formed header section, the blank line and [tail]. *)
Lemma decode_section m cu u hs ls n tail : text u cu -> no_ws cu -> cu <> [] -> Forall2 line_of hs ls -> headers_ok hs ->
  body_length hs = Ok (Z.of_nat n) -> Z.of_nat n <= MAX_BODY_SIZE ->
  let c := utf8_encode (section m cu ls) ++ blank_line ++ tail in
  decode c = if (length tail <? n)%nat then (c, Ok None)
             else (drop n tail, Ok (Some {| method := m; uri := u; headers := hs; body := take n tail |})).
Proof.
  intros Hu Hws Hne Hls Hok Hn Hmax c. pose proof (line_of_ok _ _ Hls) as Hlo.
  assert (find_header_end c = Some (length (utf8_encode (section m cu ls)))) as E
    by (apply section_position; [apply Hu|done..]).
  unfold decode. rewrite E. unfold c at 1. rewrite take_app_length.
  pose proof (utf8_roundtrip (section m cu ls) [] (section_ok m cu ls (proj2 Hu) Hws Hlo)) as Hrt.
  rewrite app_nil_r in Hrt. rewrite Hrt. cbn [from_utf8 fmap option_fmap option_map]. rewrite app_nil_r.
  cbn [ok_or mbind outcome_bind]. rewrite (parse_section m cu u hs ls) by done. cbn [mbind outcome_bind].
  rewrite Hn. cbn [mbind outcome_bind]. rewrite (proj2 (Z.ltb_ge _ _)) by done. rewrite Nat2Z.id.
  assert (length c = length (utf8_encode (section m cu ls)) + 4 + length tail)%nat as Hlen
    by (unfold c; rewrite !length_app; cbn; lia).
  assert (drop (length (utf8_encode (section m cu ls)) + 4) c = tail) as ->.
  { unfold c. rewrite <- drop_drop, drop_app_length. by rewrite drop_app_length' by done. }
  rewrite Hlen. destruct (Nat.ltb_spec (length tail) n); [rewrite (proj2 (Nat.ltb_lt _ _)) by lia|rewrite (proj2 (Nat.ltb_ge _ _)) by lia]; done.
Qed.

(** ** Requests sent and received *)
Section Wire.
Context {O : HashOrder} {OL : HashOrderLaws O}.

(** The headers the encoder writes, in the order it writes them. *)
Definition sent_headers (r : RtspRequest) : Headers :=
  hash_order (headers r) ++
  (if negb (bool_decide (body r = [])) && negb (Headers_contains (headers r) "Content-Length")
   then [("Content-Length", pretty (Z.of_nat (length (body r))))] else []).

(** The request as the server reads it. *)
Definition received (r : RtspRequest) : RtspRequest :=
  {| method := method r; uri := uri r; headers := sent_headers r; body := body r |}.

(** A URI of one word, headers that each fit a line, distinct names, a
    [Content-Length] that tells the truth if it is there, a body the server takes. *)
Record request_ok (r : RtspRequest) : Prop := {
  uri_ok : exists cu, text (uri r) cu /\ no_ws cu /\ cu <> [];
  fields_ok : Forall field_ok (headers r);
  names_ok : headers_ok (headers r);
  length_ok : forall v, Headers_get (headers r) "Content-Length" = Some v -> parse_uint 64 v = Some (Z.of_nat (length (body r)));
  body_ok : Z.of_nat (length (body r)) <= MAX_BODY_SIZE }.

Lemma pretty_field n : uint 64 n -> field_ok ("Content-Length", pretty n).
Proof.
  intros Hn. destruct (pretty_spec 64 n Hn ltac:(lia)) as (Hd & _).
  assert (Forall printable (bs (pretty n))) as Hp by (eapply Forall_impl; [exact Hd|]; unfold printable; cbn; lia).
  destruct (printable_ok _ Hp) as (H1 & H2 & H3 & H4 & H5).
  exists (bs "Content-Length"), (bs (pretty n)). split_and!; try done.
  - split; [done|]. apply printable_ok, (bool_decide_unpack _). vm_compute. exact I.
  - split; [by rewrite ascii_encode|done].
  - intros H%list_elem_of_In. cbn in H. lia.
  - intros H%list_elem_of_In. cbn in H. lia.
  - intros H%list_elem_of_In. cbn in H. lia.
  - by apply trim_no_ws.
Qed.

Lemma sent_ok r : request_ok r ->
  Forall field_ok (sent_headers r) /\ headers_ok (sent_headers r) /\ body_length (sent_headers r) = Ok (Z.of_nat (length (body r))).
Proof.
  intros [_ Hf Hn Hl Hb]. unfold sent_headers. pose proof (hash_order_perm (headers r)) as Hp.
  assert (Forall field_ok (hash_order (headers r))) as Hf' by (by rewrite Hp).
  assert (headers_ok (hash_order (headers r))) as Hn' by (unfold headers_ok; by rewrite Hp).
  assert (forall n, Headers_get (hash_order (headers r)) n = Headers_get (headers r) n) as Hg
    by (intros; by apply headers_get_perm).
  assert (uint 64 (Z.of_nat (length (body r)))) as Hu by (unfold uint, MAX_BODY_SIZE in *; lia).
  unfold body_length. unfold Headers_contains. destruct (Headers_get (headers r) "Content-Length") as [v|] eqn:Ev.
  - rewrite andb_false_r, app_nil_r, Hg, Ev, (Hl v eq_refl). done.
  - destruct (bool_decide_reflect (body r = [])) as [E|E]; cbn [negb andb].
    + rewrite app_nil_r, !Hg, Ev, E. split_and!; [done..|].
      change (Headers_get (headers r) "content-length") with (Headers_get (headers r) "Content-Length"). by rewrite Ev.
    + split_and!.
      * apply Forall_app. split; [done|]. constructor; [by apply pretty_field|done].
      * apply headers_ok_snoc; [done|]. by rewrite Hg.
      * rewrite headers_get_snoc by (by rewrite Hg). by rewrite (proj2 (proj2 (pretty_spec 64 _ Hu ltac:(lia)))).
Qed.

Lemma request_bytes r cu : text (uri r) cu -> request_ok r -> exists ls, Forall2 line_of (sent_headers r) ls /\
  request_encode r = utf8_encode (section (method r) cu ls) ++ blank_line ++ body r.
Proof.
  intros [Eu _] Hr. destruct (field_lines (sent_headers r)) as [ls Hls]; [by apply sent_ok|].
  exists ls. split; [done|]. unfold request_encode.
  assert (concat (map encode_header (hash_order (headers r))) ++
    (if negb (bool_decide (body r = [])) && negb (Headers_contains (headers r) "Content-Length")
     then encode_header ("Content-Length", pretty (Z.of_nat (length (body r)))) else [])
    = concat (map encode_header (sent_headers r))) as E.
  { unfold sent_headers. rewrite map_app, concat_app. f_equal. case_match; [|done]. cbn [map concat]. by rewrite app_nil_r. }
  rewrite (app_assoc (concat _)), E.
  replace (crlf ++ concat (map encode_header (sent_headers r)) ++ crlf ++ body r)
    with ((crlf ++ concat (map encode_header (sent_headers r))) ++ crlf ++ body r) by (by rewrite <- !app_assoc).
  rewrite (encode_headers_section _ _ Hls). unfold section, first_line.
  rewrite utf8_encode_app. rewrite (utf8_encode_app (bs _)). rewrite (ascii_encode (bs _)) by (apply printable_ok, method_printable).
  change (32 :: cu ++ 32 :: bs "RTSP/1.0") with (bs " " ++ cu ++ bs " RTSP/1.0").
  rewrite !utf8_encode_app, Eu, (ascii_encode (bs " ")), (ascii_encode (bs " RTSP/1.0")) by done.
  by rewrite <- !app_assoc.
Qed.

(** The size of the header section with the blank line that ends it. *)
Definition header_size (r : RtspRequest) : nat := (length (request_encode r) - length (body r))%nat.

Lemma decode_complete r rest : request_ok r -> decode (request_encode r ++ rest) = (rest, Ok (Some (received r))).
Proof.
  intros Hr. pose proof (uri_ok r Hr) as (cu & Hu & Hws & Hne).
  destruct (request_bytes r cu Hu Hr) as (ls & Hls & ->). destruct (sent_ok r Hr) as (_ & Hok & Hbl).
  rewrite <- !app_assoc, (decode_section _ cu (uri r) (sent_headers r) _ (length (body r))); try done; [|apply Hr].
  rewrite (proj2 (Nat.ltb_ge _ _)) by (rewrite length_app; lia). by rewrite drop_app_length, take_app_length.
Qed.

Lemma decode_partial r p q : request_ok r -> Z.of_nat (header_size r) <= MAX_HEADER_SIZE ->
  request_encode r = p ++ q -> q <> [] -> decode p = (p, Ok None).
Proof.
  intros Hr Hsz Hpq Hq. pose proof (uri_ok r Hr) as (cu & Hu & Hws & Hne).
  destruct (request_bytes r cu Hu Hr) as (ls & Hls & E). destruct (sent_ok r Hr) as (_ & Hok & Hbl).
  unfold header_size in Hsz. set (sec := utf8_encode (section (method r) cu ls)) in *.
  assert (length (p ++ q) = length sec + 4 + length (body r))%nat as Hlen by (rewrite <- Hpq, E, !length_app; cbn; lia).
  rewrite Hpq, Hlen in Hsz. rewrite length_app in Hlen. rewrite E in Hpq.
  assert (0 < length q)%nat by (destruct q; cbn; [done|lia]).
  destruct (Nat.le_gt_cases (length sec + 4) (length p)) as [Hp|Hp].
  - assert (p = sec ++ blank_line ++ take (length p - (length sec + 4)) (body r)) as ->.
    { rewrite <- (take_app_length p q) at 1. rewrite <- Hpq, app_assoc.
      rewrite take_app_ge by (rewrite length_app; cbn; lia). rewrite <- app_assoc, length_app. by cbn. }
    unfold sec. rewrite (decode_section _ cu (uri r) (sent_headers r) _ (length (body r))); try done; [|apply Hr].
    fold sec. rewrite (proj2 (Nat.ltb_lt _ _)); [done|]. rewrite length_take. lia.
  - unfold decode, find_header_end. destruct (position blank_line p) as [i|] eqn:Ei.
    + exfalso. pose proof (position_bound _ _ _ Ei) as [Hi _]. apply (position_app _ p q) in Ei. rewrite <- Hpq in Ei.
      unfold sec in Ei. rewrite section_position in Ei; [|apply Hu|done|by eapply line_of_ok]. simplify_eq. fold sec in Hi. cbn in Hi. lia.
    + change [13; 10; 13; 10] with blank_line. rewrite Ei. by rewrite (proj2 (Z.ltb_ge _ _)) by lia.
Qed.

(** The requests are well formed and their header sections fit. *)
Definition sendable (r : RtspRequest) : Prop := request_ok r /\ Z.of_nat (header_size r) <= MAX_HEADER_SIZE.

(** The codec is in the middle of the stream [rs]: [w] is still to arrive. *)
Definition pending (c : RtspServerCodec) (rs : list RtspRequest) (w : list Z) : Prop :=
  Forall sendable rs /\ c ++ w = concat (map request_encode rs).

(** The first request is decoded exactly when all of it is there. *)
Lemma decode_pending c rs w : pending c rs w ->
  match rs with
  | [] => decode c = (c, Ok None)
  | r :: rs' =>
      if (length c <? length (request_encode r))%nat then decode c = (c, Ok None)
      else exists c', decode c = (c', Ok (Some (received r))) /\ pending c' rs' w /\ (length c' < length c)%nat
  end.
Proof.
  intros [Hrs Hc]. destruct rs as [|r rs].
  - apply app_eq_nil in Hc as [-> ->]. done.
  - apply Forall_cons in Hrs as [[Hr Hsz] Hrs]. cbn [map concat] in Hc.
    destruct (Nat.ltb_spec (length c) (length (request_encode r))) as [Hlt|Hge].
    + apply (decode_partial r c (drop (length c) (request_encode r))); [done..| |].
      * rewrite <- (take_drop (length c) (request_encode r)) at 1. f_equal.
        rewrite <- (take_app_le _ (concat (map request_encode rs))) by lia. by rewrite <- Hc, take_app_length.
      * intros E. apply (f_equal length) in E. rewrite length_drop in E. cbn in E. lia.
    + exists (drop (length (request_encode r)) c).
      assert (c = request_encode r ++ drop (length (request_encode r)) c) as Ec.
      { rewrite <- (take_drop (length (request_encode r)) c) at 1. f_equal.
        rewrite <- (take_app_le _ w) by lia. by rewrite Hc, take_app_length. }
      split_and!.
      * rewrite Ec at 1. by apply decode_complete.
      * split; [done|]. rewrite Ec, <- app_assoc in Hc. by apply app_inv_head in Hc.
      * rewrite length_drop. assert (0 < length (request_encode r))%nat; [|lia].
        unfold request_encode. rewrite length_app. by destruct (method r); cbn; lia.
Qed.

End Wire.

(** Every request the parser returns was at least the blank line long. *)
Lemma decode_consumes c c' r : decode c = (c', Ok (Some r)) -> (length c' < length c)%nat.
Proof.
  unfold decode. destruct (find_header_end c) as [i|] eqn:Ei; [|by case_match].
  apply position_bound in Ei as [Hi _]. cbn [length] in Hi. intros H.
  destruct (_ ≫= _) as [[[[m u] h] n]|e|] in H; [|done..].
  destruct (length c <? i + 4 + n)%nat; [done|]. simplify_eq. rewrite !length_drop. lia.
Qed.

(** ** Requests made with the builder *)

(** A header of printable characters and inner blanks. *)
Definition plain_text (s : string) : bool :=
  forallb (fun c => (32 <=? c) && (c <? 127)) (bs s) && bool_decide (trim (bs s) = bs s).
Definition plain_field (kv : string * string) : bool :=
  plain_text kv.1 && plain_text kv.2 && forallb (fun c => negb (c =? 58)) (bs kv.1).
Definition plain_uri (s : string) : bool :=
  forallb (fun c => (33 <=? c) && (c <? 127)) (bs s) && negb (bool_decide (bs s = [])).

Lemma plain_text_ok s : plain_text s = true -> text s (bs s) /\ 13 ∉ bs s /\ 10 ∉ bs s /\ trim (bs s) = bs s.
Proof.
  unfold plain_text. intros [H Ht]%andb_true_iff. apply bool_decide_eq_true_1 in Ht.
  assert (forall c, c ∈ bs s -> 32 <= c < 127) as Hc.
  { intros c Hc%list_elem_of_In. rewrite forallb_forall in H. specialize (H c Hc). lia. }
  split_and!; [|intros Hin%Hc; lia|intros Hin%Hc; lia|done]. split.
  - symmetry. apply ascii_encode, forallb_forall. intros c Hin%list_elem_of_In%Hc. lia.
  - apply Forall_forall. intros c Hin%Hc. unfold scalar. lia.
Qed.

Lemma plain_field_ok kv : plain_field kv = true -> field_ok kv.
Proof.
  unfold plain_field. intros [[Hn Hv]%andb_true_iff H]%andb_true_iff. rewrite forallb_forall in H.
  apply plain_text_ok in Hn as (? & ? & ? & ?), Hv as (? & ? & ? & ?). exists (bs kv.1), (bs kv.2). split_and!; try done.
  intros Hin%list_elem_of_In%H. lia.
Qed.

Lemma request_new_ok m u : plain_uri u = true -> request_ok (Request_new m u).
Proof.
  unfold plain_uri. intros [H Hne]%andb_true_iff. apply negb_true_iff, bool_decide_eq_false in Hne. split; cbn.
  - assert (Forall printable (bs u)) as (? & ? & _ & _ & ?)%printable_ok.
    { apply Forall_forall. intros c Hc%list_elem_of_In. rewrite forallb_forall in H. specialize (H c Hc). unfold printable. lia. }
    exists (bs u). split_and!; [split|..]; [by rewrite ascii_encode|done..].
  - done.
  - by apply NoDup_nil_2.
  - done.
  - done.
Qed.

Lemma insert_fields h n v : Forall field_ok h -> field_ok (n, v) -> Forall field_ok (Headers_insert h n v).
Proof.
  intros Hh Hn. apply Forall_app. split; [|by constructor].
  apply Forall_forall. intros kv [_ Hkv]%list_elem_of_filter. by eapply Forall_forall in Hh.
Qed.

Lemma request_header_ok r n v : request_ok r -> field_ok (n, v) -> eq_ignore_case n "Content-Length" = false ->
  request_ok (request_header r n v).
Proof.
  intros [Hu Hf Hn Hl Hb] Hnv Hne. split; cbn [uri headers body request_header]; try done.
  - by apply insert_fields.
  - by apply headers_insert_ok.
  - intros w. rewrite headers_get_insert, Hne. apply Hl.
Qed.

Lemma request_body_ok r b : request_ok r -> Z.of_nat (length b) <= MAX_BODY_SIZE -> request_ok (request_body r b).
Proof.
  intros [Hu Hf Hn Hl Hb] Hlen. assert (uint 64 (Z.of_nat (length b))) as Hu64 by (unfold uint, MAX_BODY_SIZE in *; lia).
  split; cbn [uri headers body request_body]; try done.
  - apply insert_fields; [done|by apply pretty_field].
  - by apply headers_insert_ok.
  - intros w. rewrite headers_get_insert. cbn. intros [= <-]. by apply pretty_spec.
Qed.

(** A value of printable characters. *)
Lemma printable_field n v : plain_field (n, "") = true -> Forall printable (bs v) -> field_ok (n, v).
Proof.
  intros Hn Hp. apply plain_field_ok in Hn as (cn & cv & H1 & _ & H3 & H4 & H5 & _ & _ & H8 & _).
  destruct (printable_ok _ Hp) as (P1 & P2 & P3 & P4 & P5). exists cn, (bs v). split_and!; try done.
  - split; [by rewrite ascii_encode|done].
  - by apply trim_no_ws.
Qed.

Lemma pretty_printable n : uint 64 n -> Forall printable (bs (pretty n)).
Proof. intros Hn. destruct (pretty_spec 64 n Hn ltac:(lia)) as (Hd & _). eapply Forall_impl; [exact Hd|]. unfold printable. cbn. lia. Qed.

(** What a lookup finds in the request the server reads. *)
Lemma received_get {O : HashOrder} {OL : HashOrderLaws O} r n : request_ok r -> Headers_get (headers (received r)) n =
  match Headers_get (headers r) n with
  | Some v => Some v
  | None => if eq_ignore_case "Content-Length" n && negb (bool_decide (body r = []))
            then Some (pretty (Z.of_nat (length (body r)))) else None
  end.
Proof.
  intros Hr. destruct (sent_ok r Hr) as (_ & Hok & _). cbn [headers received]. unfold sent_headers in *.
  pose proof (headers_get_perm (headers r) (hash_order (headers r)) n (names_ok r Hr)) as Hp.
  specialize (Hp (symmetry (hash_order_perm _))). rewrite headers_get_app, Hp.
  destruct (Headers_get (headers r) n) as [v|] eqn:Ev; [done|]. unfold Headers_contains.
  destruct (eq_ignore_case "Content-Length" n) eqn:En.
  - pose proof En as En'. apply bool_decide_eq_true in En'. rewrite (headers_get_fold _ n _ En'), Ev, andb_true_r.
    destruct (bool_decide (body r = [])); cbn [negb andb]; [done|]. by rewrite headers_get_one, En.
  - rewrite andb_false_l. destruct (negb _ && negb _); [|done]. by rewrite headers_get_one, En.
Qed.

(** ** Properties *)

(** C21: request round trip and framing. A request the client encodes is decoded
    by the server, whatever bytes follow it, to the same method, URI, body and
    headers, with the [Content-Length] the encoder adds when the caller set none;
    the buffer is left with exactly the bytes that follow. On every proper prefix
    the codec waits, its buffer untouched, as long as the header section fits its
    limit, so the framing does not depend on how the bytes arrive. The order of
    the headers is the encoder's hash order; a lookup does not see it. *)
Theorem request_roundtrip {O : HashOrder} {OL : HashOrderLaws O} (r : RtspRequest) (Hr : request_ok r) :
  (forall rest, exists r', decode (request_encode r ++ rest) = (rest, Ok (Some r')) /\
     method r' = method r /\ uri r' = uri r /\ body r' = body r /\
     (forall n, Headers_get (headers r') n =
        match Headers_get (headers r) n with
        | Some v => Some v
        | None => if eq_ignore_case "Content-Length" n && negb (bool_decide (body r = []))
                  then Some (pretty (Z.of_nat (length (body r)))) else None
        end)) /\
  (Z.of_nat (header_size r) <= MAX_HEADER_SIZE ->
   forall p q, request_encode r = p ++ q -> q <> [] -> decode p = (p, Ok None)).
Proof.
  split; [|by intros Hsz p q; apply decode_partial].
  intros rest. exists (received r). split; [by apply decode_complete|]. split_and!; [done..|]. intros n. by apply received_get.
Qed.

(** A request that does not parse stalls the connection. The codec reports a
    malformed request line, header, length or UTF-8 without consuming anything, so
    every later [decode], whatever arrives, reports the same error again; the
    server's read loop ([while let Ok(Some(..))]) never sees another request. *)
Theorem parse_error_sticks (c c' : RtspServerCodec) (e : ParseError) (data : list Z)
  (Hd : decode c = (c', Err e)) (He : e <> InvalidHeader (bs "Headers too large")) :
  c' = c /\ decode (feed c data) = (feed c data, Err e).
Proof.
  unfold decode in *. destruct (find_header_end c) as [i|] eqn:Ei; [|by case_match; simplify_eq].
  unfold feed, find_header_end in *. change [13; 10; 13; 10] with blank_line in *. rewrite (position_app _ c data i Ei).
  apply position_bound in Ei as [Hi _]. cbn [length] in Hi. rewrite take_app_le by lia.
  destruct (_ ≫= _) as [[[[m u] h] n]|e'|]; [by case_match|by simplify_eq|done].
Qed.

(** ** Witnesses *)
#[local] Instance reverse_order : HashOrder := @reverse (string * string).
#[local] Instance reverse_order_laws : HashOrderLaws reverse_order.
Proof. intros l. apply reverse_Permutation. Qed.

(** The pairing request of a client. *)
Definition demo_request : RtspRequest :=
  request_body (request_content_type (request_user_agent (request_cseq (Request_new Post "/pair-setup") 7)
    "AirPlay/540.31") "application/octet-stream") [0; 1; 255; 13; 10; 13; 10].

Lemma demo_request_ok : request_ok demo_request.
Proof.
  apply request_body_ok; [|cbn; unfold MAX_BODY_SIZE; lia].
  repeat (apply request_header_ok; [|apply plain_field_ok; vm_compute; reflexivity|vm_compute; reflexivity]).
  apply request_new_ok. vm_compute. reflexivity.
Qed.

Lemma request_roundtrip_witness :
  (exists r', decode (request_encode demo_request ++ [79]) = ([79], Ok (Some r')) /\ Headers_get (headers r') "cseq" = Some "7") /\
  decode (take 100 (request_encode demo_request)) = (take 100 (request_encode demo_request), Ok None).
Proof.
  destruct (request_roundtrip demo_request demo_request_ok) as [H1 H2]. split.
  - destruct (H1 [79]) as (r' & Hd & _ & _ & _ & Hh). exists r'. split; [exact Hd|]. rewrite Hh. vm_compute. reflexivity.
  - apply (H2 ltac:(vm_compute; discriminate) _ (drop 100 (request_encode demo_request))); [|vm_compute; discriminate].
    by rewrite take_drop.
Defined.

Lemma parse_error_sticks_witness :
  let c := bs "GET / HTTP/1.1" ++ blank_line in
  decode (feed c (request_encode demo_request)) =
    (feed c (request_encode demo_request), Err (InvalidRequestLine (bs "Invalid protocol: HTTP/1.1"))).
Proof.
  intros c. apply (parse_error_sticks c c); [vm_compute; reflexivity|discriminate].
Defined.

End RtspParser.
