(* ===== verification/Ap2Body.v ===== *)
(** * Bodies and stream types of the AirPlay 2 receiver

    Models [src/receiver/ap2/stream.rs] (the types of SETUP negotiation) and
    [src/receiver/ap2/body_handler.rs] (property-list and text bodies).  A
    dictionary is the sorted association list of [Plist]; the table that
    [parse_text_parameters] returns is a finite map, whose iteration order in
    [encode_text_parameters] is the interface [ParamOrder].  A socket address is its
    text; which texts are addresses is the interface [AddrSyntax]. *)

From stdpp Require Import gmap.
From S2P Require Import Text Unicode Rtsp Plist RtspParser.

Module Ap2Body.
Import Unicode Rtsp Plist.

(** ** Streams ([stream.rs]) *)
Inductive StreamType := Audio | Control | EventStream | TimingStream | BufferedAudio | UnknownStream (t : Z).

Definition StreamType_from (value : Z) : StreamType :=
  match value with
  | 96 => Audio
  | 103 => Control
  | 130 => EventStream
  | 150 => TimingStream
  | _ => UnknownStream value
  end.

Definition StreamType_to_i64 (t : StreamType) : Z :=
  match t with
  | Audio | BufferedAudio => 96
  | Control => 103
  | EventStream => 130
  | TimingStream => 150
  | UnknownStream t => t
  end.

Inductive TimingProtocol := Ntp | PtpTiming | NoTiming.

Definition TimingProtocol_from (s : list Z) : TimingProtocol :=
  let up := concat (map RtspParser.upper s) in
  if bool_decide (up = bs "PTP") then PtpTiming else if bool_decide (up = bs "NONE") then NoTiming else Ntp.

Inductive EncryptionType := NoEncryption | Aes128CtrAudio | ChaCha20Poly1305Audio.

Record TimingPeerInfo := mkPeerInfo { peer_id : Z; addresses : list string }.

Record AudioStreamFormat := mkAudioFormat {
  f_codec : Z; f_sample_rate : Z; f_channels : Z; f_bits_per_sample : Z; f_frames_per_packet : Z;
  f_compression_type : option Z; f_spf : option Z
}.

(** [str::parse::<SocketAddr>]. *)
Class AddrSyntax := parse_socket_addr : list Z -> option string.

(** The commands of [/command], in [command_handler.rs]; a rate is the bits of its
    [f32]. *)
Inductive PlaybackCommand :=
| CPlay | CPause | CStop | SkipNext | SkipPrevious
| Seek (position_ms : Z)
| SetRate (rate : Z)
| UnknownCommand (name : list Z).

(** ** Bodies ([body_handler.rs]) *)
Definition BINARY_PLIST : string := "application/x-apple-binary-plist".

Inductive BodyParseError :=
| BodyInvalidMagic
| DecodeError (e : option PlistDecodeError)
| EncodeError (e : PlistEncodeError)
| BodyInvalidUtf8.

Definition parse_bplist_body (body : list Z) : outcome BodyParseError PlistValue :=
  if bool_decide (body = []) then Ok (Dictionary [])
  else if (length body <? 8)%nat || negb (bool_decide (take 6 body = bs "bplist")) then Err BodyInvalidMagic
  else map_err DecodeError (decode body).

Definition encode_bplist_body (value : PlistValue) : outcome BodyParseError (list Z) := map_err EncodeError (encode value).

Definition text_line (m : gmap (list Z) (list Z)) (line : list Z) : gmap (list Z) (list Z) :=
  match split_at 58 line with
  | Some (k, v) => <[trim k := trim v]> m
  | None => m
  end.

Definition parse_text_parameters (body : list Z) : outcome BodyParseError (gmap (list Z) (list Z)) :=
  text ← ok_or (from_utf8 body) BodyInvalidUtf8;
  Ok (foldl text_line ∅ (lines text)).

(** The iteration order of the table. *)
Class ParamOrder := param_order : gmap (list Z) (list Z) -> list (list Z * list Z).
Class ParamOrderLaws (O : ParamOrder) := param_order_perm : forall m, param_order m ≡ₚ map_to_list m.

Definition text_param (kv : list Z * list Z) : list Z := kv.1 ++ bs ": " ++ kv.2 ++ crlf.
Definition encode_text_parameters {O : ParamOrder} (params : gmap (list Z) (list Z)) : list Z :=
  utf8_encode (concat (map text_param (param_order params))).

(** *** [PlistExt] *)
Definition plist_get (v : PlistValue) (key : list Z) : option PlistValue := d ← as_dict v; dict_get key d.
Definition get_string (v : PlistValue) (key : list Z) : option (list Z) := x ← plist_get v key; as_str x.
Definition get_int (v : PlistValue) (key : list Z) : option Z :=
  x ← plist_get v key; match x with Integer i => Some i | _ => None end.
Definition get_bytes (v : PlistValue) (key : list Z) : option (list Z) := x ← plist_get v key; as_bytes x.
Definition get_bool (v : PlistValue) (key : list Z) : option bool := x ← plist_get v key; as_bool x.
Definition get_dict (v : PlistValue) (key : list Z) : option (list (list Z * PlistValue)) := x ← plist_get v key; as_dict x.
Definition get_array (v : PlistValue) (key : list Z) : option (list PlistValue) := x ← plist_get v key; as_array x.

(** *** [PlistResponseBuilder] *)
Definition PlistResponseBuilder : Type := list (list Z * PlistValue).
Definition add_string (b : PlistResponseBuilder) (k s : list Z) : PlistResponseBuilder := dict_insert k (PString s) b.
Definition add_int (b : PlistResponseBuilder) (k : list Z) (i : Z) : PlistResponseBuilder := dict_insert k (Integer i) b.
Definition add_bool (b : PlistResponseBuilder) (k : list Z) (x : bool) : PlistResponseBuilder := dict_insert k (Boolean x) b.
Definition add_data (b : PlistResponseBuilder) (k d : list Z) : PlistResponseBuilder := dict_insert k (Data d) b.
Definition add_dict (b : PlistResponseBuilder) (k : list Z) (d : list (list Z * PlistValue)) : PlistResponseBuilder := dict_insert k (Dictionary d) b.
Definition response_build (b : PlistResponseBuilder) : PlistValue := Dictionary b.
Definition response_encode (b : PlistResponseBuilder) : outcome BodyParseError (list Z) := encode_bplist_body (response_build b).

(** ** Text parameters round-trip *)

(** A key or value that its line gives back. *)
Definition entry_ok (kv : list Z * list Z) : Prop :=
  string_ok kv.1 /\ string_ok kv.2 /\ trim kv.1 = kv.1 /\ trim kv.2 = kv.2 /\ 58 ∉ kv.1 /\ 10 ∉ kv.1 /\ 10 ∉ kv.2.

Lemma text_param_ok kv : entry_ok kv -> string_ok (text_param kv).
Proof.
  intros (H1 & H2 & _). unfold text_param, string_ok. rewrite !Forall_app. split_and!; try done; apply Forall_forall; intros c Hc; left;
    vm_compute in Hc; set_unfold in Hc; lia.
Qed.

Lemma text_lines l : Forall entry_ok l -> lines (concat (map text_param l)) = map (fun kv => kv.1 ++ bs ": " ++ kv.2) l.
Proof.
  induction 1 as [|kv l (_ & _ & _ & _ & _ & H1 & H2) Hl IH]; [done|]. cbn [map concat]. unfold text_param at 1. rewrite <- !app_assoc.
  replace (kv.1 ++ bs ": " ++ kv.2 ++ crlf ++ concat (map text_param l)) with ((kv.1 ++ bs ": " ++ kv.2) ++ 13 :: 10 :: concat (map text_param l))
    by (by rewrite <- !app_assoc).
  rewrite lines_crlf by (rewrite !not_elem_of_app; split_and!; try done; vm_compute; set_solver). by rewrite IH.
Qed.

Lemma text_entry m kv : entry_ok kv -> text_line m (kv.1 ++ bs ": " ++ kv.2) = <[kv.1 := kv.2]> m.
Proof.
  intros (_ & _ & H1 & H2 & H3 & _). unfold text_line. change (bs ": " ++ kv.2) with (58 :: 32 :: kv.2).
  rewrite split_at_first by done. rewrite H1, trim_cons, H2 by done. done.
Qed.

(** Text parameters round-trip. A table whose keys and values are trimmed, on one
    line each, without a colon in a key, is written, in whatever order the table is
    iterated, to bytes that the parser reads back to the same table. *)
Theorem text_parameters_roundtrip {O : ParamOrder} {OL : ParamOrderLaws O} (m : gmap (list Z) (list Z))
  (Hm : forall k v, m !! k = Some v -> entry_ok (k, v)) : parse_text_parameters (encode_text_parameters m) = Ok m.
Proof.
  assert (Forall entry_ok (param_order m)) as Hl.
  { rewrite (param_order_perm m). apply Forall_forall. intros [k v] Hkv%elem_of_map_to_list. by apply Hm. }
  unfold parse_text_parameters, encode_text_parameters. set (text := concat (map text_param (param_order m))).
  assert (string_ok text) as Ht. { apply Forall_concat, Forall_map. eapply Forall_impl; [exact Hl|]. apply text_param_ok. }
  pose proof (utf8_roundtrip text [] Ht) as Hu. rewrite app_nil_r in Hu. rewrite Hu. cbn. rewrite app_nil_r. f_equal.
  unfold text. rewrite text_lines by done. pose proof (insert_all_perm (param_order m) m (param_order_perm m)) as Hi. revert Hi. unfold insert_all.
  intros Hi. etransitivity; [|exact Hi]. clear -Hl. generalize (∅ : gmap (list Z) (list Z)). induction Hl as [|kv l Hkv Hl IH]; intros a; [done|]. cbn [map foldl]. rewrite text_entry by done. apply IH.
Qed.

(** ** Witnesses *)
#[local] Instance table_params : ParamOrder := map_to_list.
#[local] Instance table_params_laws : ParamOrderLaws table_params.
Proof. intros m. reflexivity. Qed.

Lemma text_parameters_roundtrip_witness :
  parse_text_parameters (encode_text_parameters {[ bs "volume" := bs "-20.0"; bs "progress" := bs "0/10/20" ]}) =
    Ok {[ bs "volume" := bs "-20.0"; bs "progress" := bs "0/10/20" ]}.
Proof.
  apply text_parameters_roundtrip. intros k v H. apply lookup_insert_Some in H as [[<- <-]|[_ H]];
    [|apply lookup_singleton_Some in H as [<- <-]]; (split_and!; [apply RtspParser.bs_text|apply RtspParser.bs_text|reflexivity|reflexivity|vm_compute; set_solver..]).
Defined.

End Ap2Body.
