(* ===== verification/Ap2Request.v ===== *)
(** * Request routing of the AirPlay 2 receiver

    Models [src/receiver/ap2/request_router.rs] (classification of a request by
    method and path, the endpoints that require authentication),
    [src/receiver/ap2/request_handler.rs] (the guards and the dispatch to the
    handler table) and [src/receiver/ap2/pairing_handlers.rs] (the handlers
    that drive the pairing server behind a mutex).  The texts of the
    [error: Option<String>] field, used for logging, are kept structured. *)

From S2P Require Import Text Tlv AesCtr Aead Srp KeyCrypto PairingServer Rtsp Ap2Session Ap2Body.
Import Rtsp.

Module Ap2Request.
Import Ap2Session(Ap2SessionState, allows_method, is_authenticated).

(** ** Classification *)
Inductive RtspMethod :=
| MOptions | MSetup | MRecord | MPause | MFlush | MTeardown | MGetParameter | MSetParameter | MGet.

Inductive Ap2Endpoint :=
| EInfo | EPairSetup | EPairVerify | EFairPlaySetup | ECommand | EFeedback | EAudioMode | EAuthSetup
| EUnknown (path : string).

Inductive Ap2RequestType :=
| TRtsp (m : RtspMethod)
| TEndpoint (e : Ap2Endpoint)
| TUnknown.

(** [str::find] of a byte and of the separator ["://"]. *)
Fixpoint find_slash (s : string) : option string :=
  match s with
  | EmptyString => None
  | String a rest => if (Ascii.N_of_ascii a =? 47)%N then Some s else find_slash rest
  end.

Fixpoint after_scheme (s : string) : option string :=
  match s with
  | EmptyString => None
  | String a rest => if String.prefix "://" s then Some (String.substring 3 (String.length s - 3) s)
                     else after_scheme rest
  end.

Definition extract_path (u : string) : string :=
  match after_scheme u with
  | Some rest => default "/" (find_slash rest)
  | None => u
  end.

Definition classify_get_endpoint (u : string) : Ap2Endpoint :=
  let path := extract_path u in
  if bool_decide (path = "/info") then EInfo else EUnknown path.

Definition classify_post_endpoint (u : string) : Ap2Endpoint :=
  let path := extract_path u in
  if bool_decide (path = "/pair-setup") then EPairSetup
  else if bool_decide (path = "/pair-verify") then EPairVerify
  else if bool_decide (path = "/fp-setup") then EFairPlaySetup
  else if bool_decide (path = "/command") then ECommand
  else if bool_decide (path = "/feedback") then EFeedback
  else if bool_decide (path = "/audioMode") then EAudioMode
  else if bool_decide (path = "/auth-setup") then EAuthSetup
  else EUnknown path.

Definition classify (r : RtspRequest) : Ap2RequestType :=
  match method r with
  | Options => TRtsp MOptions
  | Setup => TRtsp MSetup
  | Record_ => TRtsp MRecord
  | Pause => TRtsp MPause
  | Flush => TRtsp MFlush
  | Teardown => TRtsp MTeardown
  | GetParameter => TRtsp MGetParameter
  | SetParameter => TRtsp MSetParameter
  | Get => TEndpoint (classify_get_endpoint (uri r))
  | Post => TEndpoint (classify_post_endpoint (uri r))
  | _ => TUnknown
  end.

Definition requires_auth (e : Ap2Endpoint) : bool :=
  match e with
  | EInfo | EPairSetup | EPairVerify | EAuthSetup => false
  | EFairPlaySetup | ECommand | EFeedback | EAudioMode | EUnknown _ => true
  end.

Definition expects_bplist (e : Ap2Endpoint) : bool :=
  match e with EInfo | EUnknown _ => false | _ => true end.

(** ** Handling *)

(** A volume is the bits of its [f32]; a command, which the source formats with
    [{:?}], is kept as it is. *)
Inductive Ap2Event :=
| PairingComplete (session_key : list Z)
| SetupPhase1Complete (timing_port event_port : Z) (timing_peer_info : option Ap2Body.TimingPeerInfo) (timing_protocol : Ap2Body.TimingProtocol)
| SetupPhase2Complete (audio_data_port audio_control_port : Z) (audio_format : option Ap2Body.AudioStreamFormat)
    (encryption_type : Ap2Body.EncryptionType) (shared_key : option (list Z))
| StreamingStarted (initial_sequence initial_timestamp : Z)
| StreamingPaused
| FlushRequested (until_sequence until_timestamp : option Z)
| SessionTeardown
| VolumeChanged (volume : Z)
| MetadataUpdated
| CommandReceived (command : Ap2Body.PlaybackCommand).

Inductive RequestError :=
| MethodNotAllowed (m : string) (s : Ap2SessionState)
| AuthenticationRequired
| UnknownRequestType
| FairPlayNotSupported
| UnknownEndpoint (path : string)
| EmptyBody (what : string)
| HandlerNotImplemented
| PairingFailed (e : PairingServer.PairingError)
| BodyFailed (what : string) (e : Ap2Body.BodyParseError)
| ErrorText (text : string).

Record Ap2HandleResult := {
  response : list Z;
  new_state : option Ap2SessionState;
  event : option Ap2Event;
  error : option RequestError
}.

(** [decrypt]: the closure of a context that is encrypted; no handler calls it. *)
Record Ap2RequestContext := {
  ctx_state : Ap2SessionState; session_id : option string; encrypted : bool; decrypt : option (list Z -> list Z + string)
}.

Definition HandlerFn := RtspRequest -> Z -> Ap2RequestContext -> Ap2HandleResult.

Record Ap2Handlers := {
  h_info : HandlerFn;
  h_pair_setup : HandlerFn;
  h_pair_verify : HandlerFn;
  h_auth_setup : HandlerFn;
  h_setup : HandlerFn;
  h_record : HandlerFn;
  h_pause : HandlerFn;
  h_flush : HandlerFn;
  h_teardown : HandlerFn;
  h_get_parameter : HandlerFn;
  h_set_parameter : HandlerFn;
  h_command : HandlerFn;
  h_feedback : HandlerFn;
  h_audio_mode : HandlerFn
}.

Section WithOrder.
Context {O : HashOrder}.

Definition error_reply (status cseq : Z) (e : option RequestError) : Ap2HandleResult :=
  {| response := Builder_encode (Builder_cseq (Builder_error status) cseq);
     new_state := None; event := None; error := e |}.

(** [stub_handler]: the entry of the default table for unimplemented endpoints. *)
Definition stub_handler : HandlerFn := fun _ cseq _ =>
  error_reply NOT_IMPLEMENTED cseq (Some HandlerNotImplemented).

Definition handle_options (cseq : Z) : Ap2HandleResult :=
  let methods := "OPTIONS, GET, POST, SETUP, RECORD, PAUSE, FLUSH, TEARDOWN, GET_PARAMETER, SET_PARAMETER" in
  {| response := Builder_encode (Ap2_server (Builder_header (Builder_cseq Builder_ok cseq) "Public" methods) "366.0");
     new_state := None; event := None; error := None |}.

Definition handle_rtsp_method (m : RtspMethod) (r : RtspRequest) (cseq : Z) (ctx : Ap2RequestContext)
  (hs : Ap2Handlers) : Ap2HandleResult :=
  match m with
  | MOptions => handle_options cseq
  | MSetup => h_setup hs r cseq ctx
  | MRecord => h_record hs r cseq ctx
  | MPause => h_pause hs r cseq ctx
  | MFlush => h_flush hs r cseq ctx
  | MTeardown => h_teardown hs r cseq ctx
  | MGetParameter => h_get_parameter hs r cseq ctx
  | MSetParameter => h_set_parameter hs r cseq ctx
  | MGet => error_reply NOT_FOUND cseq None
  end.

Definition handle_endpoint (e : Ap2Endpoint) (r : RtspRequest) (cseq : Z) (ctx : Ap2RequestContext)
  (hs : Ap2Handlers) : Ap2HandleResult :=
  match e with
  | EInfo => h_info hs r cseq ctx
  | EPairSetup => h_pair_setup hs r cseq ctx
  | EPairVerify => h_pair_verify hs r cseq ctx
  | ECommand => h_command hs r cseq ctx
  | EFeedback => h_feedback hs r cseq ctx
  | EAudioMode => h_audio_mode hs r cseq ctx
  | EAuthSetup => h_auth_setup hs r cseq ctx
  | EFairPlaySetup => error_reply NOT_IMPLEMENTED cseq (Some FairPlayNotSupported)
  | EUnknown path => error_reply NOT_FOUND cseq (Some (UnknownEndpoint path))
  end.

Definition handle_ap2_request (r : RtspRequest) (ctx : Ap2RequestContext) (hs : Ap2Handlers) : Ap2HandleResult :=
  let cseq := default 0 (Headers_cseq (headers r)) in
  let request_type := classify r in
  if negb (allows_method (ctx_state ctx) (Method_as_str (method r))) then
    error_reply METHOD_NOT_VALID cseq (Some (MethodNotAllowed (Method_as_str (method r)) (ctx_state ctx)))
  else
    let needs_auth := match request_type with
                      | TEndpoint e => requires_auth e && negb (is_authenticated (ctx_state ctx))
                      | _ => false
                      end in
    if needs_auth then
      {| response := Builder_encode (Ap2_auth_required cseq);
         new_state := None; event := None; error := Some AuthenticationRequired |}
    else
      match request_type with
      | TRtsp m => handle_rtsp_method m r cseq ctx hs
      | TEndpoint e => handle_endpoint e r cseq ctx hs
      | TUnknown => error_reply NOT_IMPLEMENTED cseq (Some UnknownRequestType)
      end.

(** ** Pairing handlers *)

(** [Mutex::lock] by a thread that already holds the lock never returns. *)
Definition lock (held : bool) : outcome Empty_set unit := if held then Panic else Ok tt.

Definition pairing_state (st : PairingServer.PairingServerState) (e : option PairingServer.PairingError)
  : option Ap2SessionState :=
  match st with
  | PairingServer.WaitingForM3 => Some (Ap2Session.PairingSetup 2)
  | PairingServer.PairSetupComplete => Some (Ap2Session.PairingSetup 4)
  | PairingServer.VerifyWaitingForM3 => Some (Ap2Session.PairingVerify 2)
  | PairingServer.Complete => Some Ap2Session.Paired
  | PairingServer.Error =>
      Some (Ap2Session.ErrorState 470
        (match e with Some e => PairingServer.PairingError_to_string e | None => "Pairing error" end))
  | PairingServer.Idle => None
  end.

(** [held]: the caller's lock guard is still alive. *)
Definition pairing_result_to_handle_result (held : bool) (server : PairingServer.PairingServer)
  (res : PairingServer.PairingResult) (cseq : Z) (emit_complete_event : bool)
  : outcome Empty_set Ap2HandleResult :=
  ev ← (if emit_complete_event && PairingServer.complete res then
          _ ← lock held;
          Ok ((fun keys => PairingComplete (PairingServer.encrypt_key keys)) <$> PairingServer.encryption_keys server)
        else Ok None);
  Ok {| response := Builder_encode (Ap2_binary_body (Builder_cseq Builder_ok cseq) (PairingServer.response res));
        new_state := pairing_state (PairingServer.new_state res) (PairingServer.error res);
        event := ev;
        error := PairingFailed <$> PairingServer.error res |}.

Context {A : AeadCipher} {SH : Sha512} {P : PairCrypto}.

(** The handlers lock the server for their whole body and return the result
    next to the server left in the mutex. *)
Definition handle_pair_setup (server : PairingServer.PairingServer) (r : RtspRequest) (cseq rand : Z)
  : outcome Empty_set (Ap2HandleResult * PairingServer.PairingServer) :=
  _ ← lock false;
  if (length (body r) =? 0)%nat
  then Ok (error_reply BAD_REQUEST cseq (Some (EmptyBody "pair-setup")), server)
  else
    '(res, server') ← PairingServer.process_pair_setup server (body r) rand;
    hr ← pairing_result_to_handle_result true server' res cseq false;
    Ok (hr, server').

Definition handle_pair_verify (server : PairingServer.PairingServer) (r : RtspRequest) (cseq : Z) (secret : list Z)
  : outcome Empty_set (Ap2HandleResult * PairingServer.PairingServer) :=
  _ ← lock false;
  if (length (body r) =? 0)%nat
  then Ok (error_reply BAD_REQUEST cseq (Some (EmptyBody "pair-verify")), server)
  else
    '(res, server') ← PairingServer.process_pair_verify server (body r) secret;
    let is_verify_complete := 
      match PairingServer.new_state res with PairingServer.Complete => true | _ => false end in
    hr ← pairing_result_to_handle_result true server' res cseq is_verify_complete;
    Ok (hr, server').

(** ** Properties *)

(** C9: the authentication gate. As long as the session is not authenticated,
    whatever the request (method, path, headers, body) the reply depends only on
    the four handlers that take part in pairing and discovery: no request of an
    unauthenticated peer reaches the handlers for SETUP, RECORD, PAUSE, FLUSH,
    TEARDOWN, parameters, commands, feedback or audio mode. *)
Theorem auth_gate (r : RtspRequest) (ctx : Ap2RequestContext) (h1 h2 : Ap2Handlers)
  (Hun : is_authenticated (ctx_state ctx) = false)
  (Hinfo : h_info h1 = h_info h2) (Hps : h_pair_setup h1 = h_pair_setup h2)
  (Hpv : h_pair_verify h1 = h_pair_verify h2) (Has : h_auth_setup h1 = h_auth_setup h2) :
  handle_ap2_request r ctx h1 = handle_ap2_request r ctx h2.
Proof.
  unfold handle_ap2_request. destruct (allows_method _ _) eqn:Ha; cbn [negb]; [|done].
  destruct (classify r) as [m|e|] eqn:Hc; [| |done].
  - unfold classify in Hc.
    destruct (ctx_state ctx); try done; destruct (method r); try done; simplify_eq; vm_compute in Ha; done.
  - rewrite Hun. destruct e; cbn [requires_auth negb andb handle_endpoint]; congruence.
Qed.

(** PAUSE is dead. No session state allows the method PAUSE, so a PAUSE
    request is answered with "Method Not Valid in This State" in every state,
    whatever the handler table holds: the pause handler cannot be reached,
    although OPTIONS advertises the method and the state machine has a
    transition from [Streaming] to [Paused]. *)
Theorem pause_never_dispatched (u : string) (hd : list (string * string)) (b : list Z)
  (ctx : Ap2RequestContext) (hs : Ap2Handlers) :
  handle_ap2_request {| method := Pause; uri := u; headers := hd; body := b |} ctx hs =
  error_reply METHOD_NOT_VALID (default 0 (Headers_cseq hd)) (Some (MethodNotAllowed "PAUSE" (ctx_state ctx))).
Proof.
  unfold handle_ap2_request. cbn [method Method_as_str headers].
  assert (allows_method (ctx_state ctx) "PAUSE" = false) as ->; [|done].
  by destruct (ctx_state ctx).
Qed.

(** C40: completing pair-verify blocks the receiver. Whenever the pairing
    server reports a completed pair-verify, the handler does not return: it
    still holds the lock on the server when the conversion of the result takes
    the same lock to read the session keys. *)
Theorem pair_verify_completion_blocks (server server' : PairingServer.PairingServer) (r : RtspRequest)
  (cseq : Z) (secret : list Z) (res : PairingServer.PairingResult)
  (Hp : PairingServer.process_pair_verify server (body r) secret = Ok (res, server'))
  (Hc : PairingServer.new_state res = PairingServer.Complete) :
  handle_pair_verify server r cseq secret = Panic.
Proof.
  destruct (PairingServer.process_verify_reported _ _ _ _ _ Hp) as [[_ Hrep] Hne].
  unfold handle_pair_verify. cbn [lock mbind outcome_bind].
  destruct (body r) as [|x l] eqn:Hb; [by destruct (Hne Hc)|]. cbn [length Nat.eqb].
  rewrite Hp. cbn [mbind outcome_bind]. rewrite Hc.
  unfold pairing_result_to_handle_result. cbn in Hrep. rewrite (Hrep Hc). done.
Qed.

End WithOrder.

(** ** Witnesses *)
Import ToyAead.
#[local] Existing Instance KeyCrypto.toy_pair_crypto.
#[local] Existing Instance KeyCrypto.toy_pair_crypto_laws.
#[local] Instance insertion_order : HashOrder := fun l => l.
#[local] Instance any_sha : Sha512 := fun _ => replicate 64 0.

Lemma auth_gate_witness :
  let r := {| method := Setup; uri := "rtsp://host/1"; headers := []; body := [] |} in
  let ctx := {| ctx_state := Ap2Session.PairingSetup 2; session_id := None; encrypted := false; decrypt := None |} in
  let stubs := Build_Ap2Handlers stub_handler stub_handler stub_handler stub_handler stub_handler stub_handler
    stub_handler stub_handler stub_handler stub_handler stub_handler stub_handler stub_handler stub_handler in
  let other := Build_Ap2Handlers stub_handler stub_handler stub_handler stub_handler (fun _ c _ => handle_options c)
    stub_handler stub_handler stub_handler stub_handler stub_handler stub_handler stub_handler stub_handler stub_handler in
  handle_ap2_request r ctx stubs = handle_ap2_request r ctx other.
Proof. intros r ctx stubs other. apply (auth_gate r ctx stubs other); reflexivity. Defined.

Lemma pair_verify_completion_blocks_witness :
  exists server r, handle_pair_verify server r 7 [] = Panic.
Proof.
  destruct (PairingServer.verify_m1_ok (PairingServer.PairingServer_new [3] []) [5] [8])
    as (r1 & s1 & H1 & _ & Hst & Hsh & Hkp & Hcc).
  destruct (KeyCrypto.expand_fixed32_ok (bs "Pair-Verify-Encrypt-Salt") (x_dh [8] (x_public [5])) (bs "Pair-Verify-Encrypt-Info"))
    as (k & Hk & _).
  destruct (aead_seal_total k (PairingServer.nonce_of_prefix (bs "PV-Msg03")) []
    (Tlv.encode_all (PairingServer.verify_sub_items [5] [6] (x_public [8])))) as [enc Henc];
    [apply PairingServer.length_sub_tlv|].
  destruct (PairingServer.verify_m3_ok s1 [5] [6] [8] k enc [] Hst Hsh Hkp Hcc Hk Henc)
    as (r2 & s2 & keys & H2 & Hc & _).
  set (req := {| method := Post; uri := "/pair-verify"; headers := [];
                 body := Tlv.encode_all (PairingServer.verify_m3_items enc) |}).
  exists s1, req. apply (pair_verify_completion_blocks s1 s2 req 7 [] r2 H2).
  destruct (PairingServer.process_verify_reported _ _ _ _ _ H2) as [[Hn _] _].
  cbn in Hn. rewrite Hn. exact Hc.
Defined.

End Ap2Request.
