(* ===== verification/Ap2Setup.v ===== *)
(** * SETUP on the AirPlay 2 receiver

    Models [src/receiver/ap2/setup_handler.rs]: the reading of a SETUP request, the
    port allocator with its wrap-around loop, and the two phases of the handler.
    The mutexes are held for a whole call, so a call takes the handler's state and
    returns the new one; a panic poisons them, and every later call panics as well. *)

From stdpp Require Import gmap.
From S2P Require Import Text Unicode Rtsp Plist RtspParser Ap2Session Ap2Body Ap2Request.

Module Ap2Setup.
Import Unicode Rtsp Plist Ap2Body Ap2Request.

(** ** The request *)
Record StreamRequest := mkStreamRequest {
  stream_type : StreamType; req_control_port : option Z; req_data_port : option Z; req_audio_format : option AudioStreamFormat;
  sender_address : option string
}.

Record SetupRequest := mkSetupRequest {
  streams : list StreamRequest; timing_protocol : TimingProtocol; timing_peer_info : option TimingPeerInfo;
  group_uuid : option (list Z); encryption_type : EncryptionType; shared_key : option (list Z)
}.

Inductive SetupParseError :=
| SInvalidPlist (e : BodyParseError)
| InvalidStructure (what : string)
| MissingField (name : string).

(** [u16::try_from(i).ok()] and the like, of an [i64] under a key. *)
Definition int_field (w : Z) (d : list (list Z * PlistValue)) (key : string) : option Z :=
  match dict_get (bs key) d with
  | Some (Integer i) => if (0 <=? i) && (i <? 2 ^ w) then Some i else None
  | _ => None
  end.

Definition parse_audio_format (d : list (list Z * PlistValue)) : option AudioStreamFormat :=
  codec ← int_field 32 d "ct";
  Some (mkAudioFormat codec (default 44100 (int_field 32 d "sr")) (default 2 (int_field 8 d "ch"))
          (default 16 (int_field 8 d "ss")) (default 352 (int_field 32 d "fp"))
          (int_field 32 d "compressionType") (int_field 32 d "spf")).

Definition parse_stream (d : list (list Z * PlistValue)) : StreamRequest :=
  mkStreamRequest (default (UnknownStream 0) (StreamType_from <$> int_field 32 d "type"))
    (int_field 16 d "controlPort") (int_field 16 d "dataPort") (parse_audio_format d) None.

Definition parse_streams (d : list (list Z * PlistValue)) : outcome SetupParseError (list StreamRequest) :=
  match dict_get (bs "streams") d with
  | None => Err (MissingField "streams")
  | Some (Array a) => Ok (parse_stream <$> omap as_dict a)
  | Some _ => Err (InvalidStructure "streams must be array")
  end.

Section WithAddr.
Context {AS : AddrSyntax}.

Definition parse_timing_peer_info (d : list (list Z * PlistValue)) : option TimingPeerInfo :=
  match dict_get (bs "timingPeerInfo") d with
  | Some (Dictionary info) =>
      let id := default 0 (int_field 64 info "ID") in
      let addrs := match dict_get (bs "Addresses") info with
                   | Some (Array arr) => omap (fun a => s ← as_str a; parse_socket_addr s) arr
                   | _ => []
                   end in
      Some (mkPeerInfo id addrs)
  | _ => None
  end.

Definition encryption_of (i : Z) : EncryptionType :=
  match i with 1 => Aes128CtrAudio | 4 => ChaCha20Poly1305Audio | _ => NoEncryption end.

Definition from_plist (v : PlistValue) : outcome SetupParseError SetupRequest :=
  match v with
  | Dictionary d =>
      streams ← parse_streams d;
      Ok (mkSetupRequest streams
            (match dict_get (bs "timingProtocol") d with Some (PString s) => TimingProtocol_from s | _ => Ntp end)
            (parse_timing_peer_info d)
            (match dict_get (bs "groupUUID") d with Some (PString s) => Some s | _ => None end)
            (match dict_get (bs "et") d with Some (Integer i) => encryption_of i | _ => NoEncryption end)
            (match dict_get (bs "shk") d with Some (Data k) => Some k | _ => None end))
  | _ => Err (InvalidStructure "Expected dictionary")
  end.

Definition parse (body : list Z) : outcome SetupParseError SetupRequest :=
  v ← map_err SInvalidPlist (parse_bplist_body body); from_plist v.
End WithAddr.

Definition is_phase1 (r : SetupRequest) : bool :=
  existsb (fun s => match stream_type s with EventStream | TimingStream => true | _ => false end) (streams r).
Definition is_audio (s : StreamRequest) : bool := match stream_type s with Audio | BufferedAudio => true | _ => false end.
Definition is_phase2 (r : SetupRequest) : bool := existsb is_audio (streams r).

(** ** The response *)
Record StreamResponse := mkStreamResponse {
  resp_type : StreamType; resp_data : option Z; resp_control : option Z; stream_id : Z
}.
Record SetupResponse := mkSetupResponse {
  event_port : option Z; timing_port : option Z; data_port : option Z; control_port : option Z; audio_latency : Z;
  resp_peer_info : option TimingPeerInfo; resp_streams : list StreamResponse
}.

Definition phase1 (event timing : Z) : SetupResponse :=
  mkSetupResponse (Some event) (Some timing) None None 0 None
    [mkStreamResponse EventStream (Some event) None 1; mkStreamResponse TimingStream (Some timing) None 2].
Definition phase2 (data control latency : Z) : SetupResponse :=
  mkSetupResponse None None (Some data) (Some control) latency None [mkStreamResponse Audio (Some data) (Some control) 3].

Definition insert_port (key : string) (p : option Z) (d : list (list Z * PlistValue)) : list (list Z * PlistValue) :=
  match p with Some p => dict_insert (bs key) (Integer p) d | None => d end.

Definition stream_plist (s : StreamResponse) : PlistValue :=
  let d := dict_insert (bs "type") (Integer (StreamType_to_i64 (resp_type s))) [] in
  let d := dict_insert (bs "streamID") (Integer (stream_id s)) d in
  let d := insert_port "dataPort" (resp_data s) d in
  let d := insert_port "controlPort" (resp_control s) d in
  Dictionary d.

Definition to_plist (r : SetupResponse) : PlistValue :=
  let d := insert_port "eventPort" (event_port r) [] in
  let d := insert_port "timingPort" (timing_port r) d in
  let d := insert_port "dataPort" (data_port r) d in
  let d := insert_port "controlPort" (control_port r) d in
  let d := if 0 <? audio_latency r then dict_insert (bs "audioLatency") (Integer (audio_latency r)) d else d in
  Dictionary (dict_insert (bs "streams") (Array (map stream_plist (resp_streams r))) d).

(** ** Ports *)
Record PortAllocator := mkAllocator { next_port : Z; allocated : list Z; range_start : Z; range_end : Z }.
Definition PortAllocator_new (start stop : Z) : PortAllocator := mkAllocator start [] start stop.
Inductive PortAllocationError := NoPortsAvailable.

(** The port after [port], in the range: [port + 1] is computed in 16 bits. *)
Definition port_after {E} (a : PortAllocator) (port : Z) : outcome E Z :=
  n ← chk_u 16 (port + 1); Ok (if range_end a <? n then range_start a else n).

(** [None] is running out of fuel. *)
Fixpoint allocate_fuel (fuel : nat) (a : PortAllocator) (start port : Z) : option (outcome PortAllocationError (Z * PortAllocator)) :=
  match fuel with
  | O => None
  | S fuel =>
      if negb (bool_decide (port ∈ allocated a)) then
        Some (next ← port_after a port; Ok (port, mkAllocator next (allocated a ++ [port]) (range_start a) (range_end a)))
      else
        match port_after (E := PortAllocationError) a port with
        | Ok port => if port =? start then Some (Err NoPortsAvailable) else allocate_fuel fuel a start port
        | Err e => Some (Err e)
        | Panic => Some Panic
        end
  end.

(** One turn for every port of the range. *)
Definition allocate (a : PortAllocator) : outcome PortAllocationError (Z * PortAllocator) :=
  default Panic (allocate_fuel (S (Z.to_nat (range_end a - range_start a))) a (next_port a) (next_port a)).

Definition release (a : PortAllocator) (port : Z) : PortAllocator :=
  mkAllocator (next_port a) (filter (fun p => p <> port) (allocated a)) (range_start a) (range_end a).
Definition release_all (a : PortAllocator) : PortAllocator := mkAllocator (next_port a) [] (range_start a) (range_end a).

(** ** The handler *)
Inductive SetupPhase := PhaseNone | Phase1Complete | Phase2Complete.
Record SessionPorts := mkSessionPorts {
  s_event : option Z; s_timing : option Z; s_data : option Z; s_control : option Z
}.
Record SetupHandler := mkHandler {
  port_allocator : PortAllocator; current_phase : SetupPhase; audio_latency_samples : Z; session_ports : SessionPorts
}.
Definition SetupHandler_new (start stop latency : Z) : SetupHandler :=
  mkHandler (PortAllocator_new start stop) PhaseNone latency (mkSessionPorts None None None None).

Definition with_allocator (h : SetupHandler) (a : PortAllocator) : SetupHandler :=
  mkHandler a (current_phase h) (audio_latency_samples h) (session_ports h).

Section Handler.
Context {O : HashOrder} {AS : AddrSyntax}.

Definition allocation_error (cseq : Z) (e : PortAllocationError) : Ap2HandleResult :=
  error_reply 453 cseq (Some (ErrorText "No ports available in range")).

Definition encode_failed (cseq : Z) (e : BodyParseError) : Ap2HandleResult :=
  error_reply INTERNAL_ERROR cseq (Some (BodyFailed "Encode error: " e)).

Definition plist_reply (cseq : Z) (body : list Z) (st : Ap2Session.Ap2SessionState) (ev : Ap2Event) : Ap2HandleResult :=
  {| response := Builder_encode (Ap2_binary_body (Builder_header (Builder_cseq Builder_ok cseq) "Content-Type" BINARY_PLIST) body);
     new_state := Some st; event := Some ev; error := None |}.

(** The beginning that both phases share: two ports, or none at all. *)
Definition allocate_two (a : PortAllocator) : outcome Empty_set (outcome PortAllocationError (Z * Z) * PortAllocator) :=
  match allocate a with
  | Ok (p, a) =>
      match allocate a with
      | Ok (q, a) => Ok (Ok (p, q), a)
      | Err e => Ok (Err e, release a p)
      | Panic => Panic
      end
  | Err e => Ok (Err e, a)
  | Panic => Panic
  end.

Definition handle_phase1 (h : SetupHandler) (r : SetupRequest) (cseq : Z) : outcome Empty_set (Ap2HandleResult * SetupHandler) :=
  '(ports, a) ← allocate_two (port_allocator h);
  match ports with
  | Ok (event, timing) =>
      let p := session_ports h in
      let h := mkHandler a Phase1Complete (audio_latency_samples h) (mkSessionPorts (Some event) (Some timing) (s_data p) (s_control p)) in
      match encode_bplist_body (to_plist (phase1 event timing)) with
      | Ok body => Ok (plist_reply cseq body Ap2Session.SetupPhase1 (SetupPhase1Complete timing event (timing_peer_info r) (timing_protocol r)), h)
      | Err e => Ok (encode_failed cseq e, h)
      | Panic => Panic
      end
  | Err e => Ok (allocation_error cseq e, with_allocator h a)
  | Panic => Panic
  end.

Definition handle_phase2 (h : SetupHandler) (r : SetupRequest) (cseq : Z) : outcome Empty_set (Ap2HandleResult * SetupHandler) :=
  '(ports, a) ← allocate_two (port_allocator h);
  match ports with
  | Ok (data, control) =>
      let p := session_ports h in
      let h := mkHandler a Phase2Complete (audio_latency_samples h) (mkSessionPorts (s_event p) (s_timing p) (Some data) (Some control)) in
      match encode_bplist_body (to_plist (phase2 data control (audio_latency_samples h))) with
      | Ok body =>
          let audio_format := s ← List.find is_audio (streams r); req_audio_format s in
          Ok (plist_reply cseq body Ap2Session.SetupPhase2
                (SetupPhase2Complete data control audio_format (encryption_type r) (shared_key r)), h)
      | Err e => Ok (encode_failed cseq e, h)
      | Panic => Panic
      end
  | Err e => Ok (allocation_error cseq e, with_allocator h a)
  | Panic => Panic
  end.

Definition parse_error (e : SetupParseError) : RequestError :=
  match e with
  | SInvalidPlist e => BodyFailed "Parse error: Invalid plist: " e
  | InvalidStructure w => ErrorText ("Parse error: Invalid structure: " +:+ w)
  | MissingField f => ErrorText ("Parse error: Missing required field: " +:+ f)
  end.

Definition handle (h : SetupHandler) (request : RtspRequest) (cseq : Z) : outcome Empty_set (Ap2HandleResult * SetupHandler) :=
  match parse (body request) with
  | Ok r =>
      if is_phase1 r then handle_phase1 h r cseq
      else if is_phase2 r then handle_phase2 h r cseq
      else Ok (error_reply BAD_REQUEST cseq (Some (ErrorText "Unknown stream types in SETUP")), h)
  | Err e => Ok (error_reply BAD_REQUEST cseq (Some (parse_error e)), h)
  | Panic => Panic
  end.
End Handler.

Definition release_opt (p : option Z) (a : PortAllocator) : PortAllocator := match p with Some p => release a p | None => a end.
(** The ports of the session stay recorded. *)
Definition cleanup (h : SetupHandler) : SetupHandler :=
  let p := session_ports h in
  mkHandler (release_opt (s_control p) (release_opt (s_data p) (release_opt (s_timing p) (release_opt (s_event p) (port_allocator h)))))
    PhaseNone (audio_latency_samples h) p.

(** ** The allocator *)
Definition in_range (a : PortAllocator) (p : Z) : Prop := range_start a <= p <= range_end a.

(** The range ends before 65535: the successor of its last port is computed. *)
Record alloc_ok (a : PortAllocator) : Prop := {
  ao_start : 0 <= range_start a; ao_end : range_end a < 65535; ao_next : in_range a (next_port a);
  ao_nodup : NoDup (allocated a); ao_range : Forall (in_range a) (allocated a)
}.

(** The [k]th port from [next_port] on, around the range. *)
Definition size (a : PortAllocator) : Z := range_end a - range_start a + 1.
Definition nth_port (a : PortAllocator) (k : Z) : Z := range_start a + (next_port a - range_start a + k) mod size a.

Lemma nth_port_range a k : alloc_ok a -> in_range a (nth_port a k).
Proof.
  intros [_ _ Hn _ _]. unfold in_range, nth_port, size in *.
  pose proof (Z.mod_pos_bound (next_port a - range_start a + k) (range_end a - range_start a + 1)). lia.
Qed.

Lemma nth_port_0 a : alloc_ok a -> nth_port a 0 = next_port a.
Proof. intros [_ _ Hn _ _]. unfold nth_port, size, in_range in *. rewrite Z.mod_small; lia. Qed.

Lemma nth_port_after {E} a k : alloc_ok a -> port_after (E := E) a (nth_port a k) = Ok (nth_port a (k + 1)).
Proof.
  intros Ha. pose proof (nth_port_range a k Ha) as Hr. destruct Ha as [H0 H1 Hn _ _]. unfold port_after, in_range in *.
  rewrite chk_u_ok by (unfold uint; lia). cbn [mbind outcome_bind]. f_equal. unfold nth_port, size in *.
  set (n := range_end a - range_start a + 1) in *. set (x := next_port a - range_start a + k) in *.
  replace (next_port a - range_start a + (k + 1)) with (x + 1) by lia. assert (0 < n) as Hpos by lia.
  pose proof (Z.div_mod x n ltac:(lia)) as Hd. pose proof (Z.mod_pos_bound x n Hpos) as Hb. destruct (Z.ltb_spec (range_end a) (range_start a + x mod n + 1)).
  - replace (x + 1) with ((x / n + 1) * n) by lia. rewrite Z.mod_mul by lia. lia.
  - rewrite <- (Z.mod_unique_pos (x + 1) n (x / n) (x mod n + 1)) by lia. lia.
Qed.

Lemma nth_port_inj a j k : alloc_ok a -> 0 <= j < size a -> 0 <= k < size a -> nth_port a j = nth_port a k -> j = k.
Proof.
  intros _ Hj Hk H. unfold nth_port in H. set (x := next_port a - range_start a) in *. assert (0 < size a) as Hp by lia.
  assert ((x + j) mod size a = (x + k) mod size a) as E by lia.
  pose proof (Z.div_mod (x + j) (size a) ltac:(lia)) as Dj. pose proof (Z.div_mod (x + k) (size a) ltac:(lia)) as Dk. rewrite E in Dj.
  assert (size a * ((x + j) / size a - (x + k) / size a) = j - k) as F by lia.
  assert ((x + j) / size a - (x + k) / size a = 0) by nia. lia.
Qed.

Lemma nth_port_surj a p : alloc_ok a -> in_range a p -> exists k, 0 <= k < size a /\ nth_port a k = p.
Proof.
  intros [_ _ Hn _ _] Hp. unfold in_range, nth_port, size in *. set (n := range_end a - range_start a + 1) in *.
  exists ((p - next_port a) mod n). split; [apply Z.mod_pos_bound; lia|].
  rewrite Zplus_mod_idemp_r. replace (next_port a - range_start a + (p - next_port a)) with (p - range_start a) by lia.
  rewrite Z.mod_small by lia. lia.
Qed.

(** From the [k]th port on: the first free one is taken, or all are allocated. *)
Lemma allocate_walk a : alloc_ok a -> forall fuel k, 0 <= k -> k + Z.of_nat fuel = size a -> (0 < fuel)%nat ->
  (exists j, k <= j < size a /\ nth_port a j ∉ allocated a /\ (forall i, k <= i < j -> nth_port a i ∈ allocated a) /\
     allocate_fuel fuel a (next_port a) (nth_port a k) =
       Some (Ok (nth_port a j, mkAllocator (nth_port a (j + 1)) (allocated a ++ [nth_port a j]) (range_start a) (range_end a)))) \/
  ((forall i, k <= i < size a -> nth_port a i ∈ allocated a) /\
     allocate_fuel fuel a (next_port a) (nth_port a k) = Some (Err NoPortsAvailable)).
Proof.
  intros Ha. induction fuel as [|fuel IH]; intros k Hk Hf Hpos; [lia|]. cbn [allocate_fuel].
  destruct (decide (nth_port a k ∈ allocated a)) as [Hin|Hout].
  - rewrite bool_decide_true by done. cbn [negb]. rewrite (nth_port_after a k Ha).
    destruct (Z.eqb_spec (nth_port a (k + 1)) (next_port a)) as [E|E].
    + right. split; [|done]. intros i Hi. destruct (decide (k + 1 = size a)) as [Hlast|Hmore]; [by replace i with k by lia|].
      rewrite <- (nth_port_0 a Ha) in E. apply nth_port_inj in E; [lia|done|lia|lia].
    + destruct fuel as [|fuel].
      { exfalso. apply E. replace (k + 1) with (size a) by lia. rewrite <- (nth_port_0 a Ha). unfold nth_port. f_equal.
        rewrite Z.add_0_r. replace (next_port a - range_start a + size a) with (next_port a - range_start a + 1 * size a) by lia.
        apply Z_mod_plus_full. }
      destruct (IH (k + 1)) as [(j & Hj & Hfree & Hb & ->)|[Hall ->]]; [lia..| |].
      * left. exists j. split; [lia|]. split; [done|]. split; [|done]. intros i Hi. destruct (decide (i = k)) as [->|]; [done|]. apply Hb. lia.
      * right. split; [|done]. intros i Hi. destruct (decide (i = k)) as [->|]; [done|]. apply Hall. lia.
  - rewrite bool_decide_false by done. cbn [negb]. left. exists k. split; [lia|]. split; [done|]. split; [lia|].
    rewrite (nth_port_after a k Ha). done.
Qed.

(** What allocating promises. *)
Lemma allocate_spec a : alloc_ok a ->
  match allocate a with
  | Ok (p, a') => in_range a p /\ p ∉ allocated a /\ allocated a' = allocated a ++ [p] /\ range_start a' = range_start a /\
      range_end a' = range_end a /\ alloc_ok a'
  | Err NoPortsAvailable => forall p, in_range a p -> p ∈ allocated a
  | Panic => False
  end.
Proof.
  intros Ha. unfold allocate. set (n := S _). assert (allocate_fuel n a (next_port a) (next_port a) = allocate_fuel n a (next_port a) (nth_port a 0)) as -> by (by rewrite nth_port_0).
  unfold n. clear n. pose proof (ao_next a Ha) as Hn. unfold in_range in Hn.
  destruct (allocate_walk a Ha (S (Z.to_nat (range_end a - range_start a))) 0) as [(j & Hj & Hfree & _ & ->)|[Hall ->]]; [lia|unfold size; lia|lia| |]; cbn [default].
  - assert (in_range a (nth_port a j)) as Hr by (by apply nth_port_range). split_and!; try done.
    destruct Ha as [H0 H1 H2 H3 H4]. split; cbn [range_start range_end next_port allocated]; [done|done| | |].
    + apply (nth_port_range a (j + 1)). by split.
    + apply NoDup_app. split; [done|]. split; [|apply NoDup_singleton]. intros x Hx ->%list_elem_of_singleton. done.
    + apply Forall_app. split; [done|]. by apply Forall_singleton.
  - intros p Hp. destruct (nth_port_surj a p Ha Hp) as (k & Hk & <-). apply Hall. lia.
Qed.

Lemma release_ok a p : alloc_ok a -> alloc_ok (release a p).
Proof.
  intros [H0 H1 H2 H3 H4]. split; cbn [release range_start range_end next_port allocated]; [done..| |].
  - by apply NoDup_filter.
  - apply Forall_forall. intros x [_ Hx]%list_elem_of_filter. rewrite Forall_forall in H4. by apply H4.
Qed.

Lemma allocate_two_spec a : alloc_ok a -> exists res a', allocate_two a = Ok (res, a') /\ alloc_ok a' /\
  range_start a' = range_start a /\ range_end a' = range_end a /\
  match res with
  | Ok (p, q) => in_range a p /\ in_range a q /\ p <> q /\ p ∉ allocated a /\ q ∉ allocated a /\ allocated a' = allocated a ++ [p; q]
  | Err _ => allocated a' = allocated a /\ (forall p q, in_range a p -> in_range a q -> p ∉ allocated a -> q ∉ allocated a -> p = q)
  | Panic => False
  end.
Proof.
  intros Ha. unfold allocate_two. pose proof (allocate_spec a Ha) as H. destruct (allocate a) as [[p a1]|[]|]; [| |done].
  - destruct H as (Hp & Hpf & Hal & Hs & He & Ha1). pose proof (allocate_spec a1 Ha1) as H1. unfold in_range in *. rewrite Hs, He, Hal in H1.
    destruct (allocate a1) as [[q a2]|[]|]; [| |done].
    + destruct H1 as (Hq & Hqf & Hal2 & Hs2 & He2 & Ha2). rewrite not_elem_of_app, list_elem_of_singleton in Hqf. destruct Hqf as [Hqf Hne].
      eexists _, a2. split; [done|]. split; [done|]. split; [congruence|]. split; [congruence|]. split_and!; try done; try lia. by rewrite Hal2, <- app_assoc.
    + eexists _, _. split; [done|]. split; [by apply release_ok|]. cbn [release range_start range_end allocated]. split_and!; [done..| |].
      * rewrite Hal, filter_app, filter_cons_False, filter_nil, app_nil_r by (intros Hx; by apply Hx). 
        apply filter_all, Forall_forall. intros x Hx ->. done.
      * intros x y Hx Hy Hfx Hfy. assert (forall z, range_start a <= z <= range_end a -> z ∉ allocated a -> z = p) as Honly; [|by rewrite (Honly x), (Honly y)].
        intros z Hz Hfz. specialize (H1 z Hz). rewrite elem_of_app, list_elem_of_singleton in H1. by destruct H1.
  - eexists _, a. split; [done|]. split_and!; try done. intros p q Hp _ Hf. destruct Hf. by apply H.
Qed.

(** ** The replies *)
Lemma phase1_file e t : uint 16 e -> uint 16 t -> exists data, encode_bplist_body (to_plist (phase1 e t)) = Ok data /\
  decode data = Ok (to_plist (phase1 e t)).
Proof.
  intros He Ht. destruct (encode_decodes (to_plist (phase1 e t))) as (data & Hd & Hx).
  - cbn. unfold uint, sint, string_ok, scalar in *. split_and!; try (repeat constructor; cbn; lia); repeat constructor.
  - vm_compute. discriminate.
  - vm_compute. reflexivity.
  - exists data. unfold encode_bplist_body. rewrite Hd. by split.
Qed.

Lemma phase2_file d c l : uint 16 d -> uint 16 c -> uint 32 l -> exists data, encode_bplist_body (to_plist (phase2 d c l)) = Ok data /\
  decode data = Ok (to_plist (phase2 d c l)).
Proof.
  intros Hd Hc Hl. destruct (encode_decodes (to_plist (phase2 d c l))) as (data & He & Hx).
  - unfold to_plist. cbn [audio_latency phase2]. destruct (Z.ltb_spec 0 l); cbn; unfold uint, sint, string_ok, scalar in *;
      split_and!; try (repeat constructor; cbn; lia); repeat constructor.
  - unfold to_plist. cbn [audio_latency phase2]. destruct (0 <? l); vm_compute; discriminate.
  - unfold to_plist. cbn [audio_latency phase2]. destruct (0 <? l); vm_compute; reflexivity.
  - exists data. unfold encode_bplist_body. rewrite He. split; [done|]. rewrite Hx. unfold to_plist. cbn [audio_latency phase2]. by destruct (0 <? l).
Qed.

(** ** The handler *)
Definition handler_ok (h : SetupHandler) : Prop := alloc_ok (port_allocator h) /\ uint 32 (audio_latency_samples h).

Lemma new_handler_ok start stop latency : 0 <= start <= stop -> stop < 65535 -> uint 32 latency -> handler_ok (SetupHandler_new start stop latency).
Proof.
  intros H1 H2 H3. split; [|done]. split; cbn [SetupHandler_new port_allocator PortAllocator_new range_start range_end next_port allocated]; try lia;
    [unfold in_range; cbn; lia|apply NoDup_nil_2|apply Forall_nil_2].
Qed.

Definition taken (h : SetupHandler) : list Z := allocated (port_allocator h).
Definition free_port (h : SetupHandler) (p : Z) : Prop := in_range (port_allocator h) p /\ p ∉ taken h.

Section Properties.
Context {O : HashOrder} {AS : AddrSyntax}.

(** A reply that names the ports [p] and [q]. *)
Definition names_ports (phase1 : bool) (r : SetupRequest) (cseq p q : Z) (res : Ap2HandleResult) : Prop :=
  exists body v, decode body = Ok v /\
    get_int v (bs (if phase1 then "eventPort" else "dataPort")) = Some p /\
    get_int v (bs (if phase1 then "timingPort" else "controlPort")) = Some q /\
    res = plist_reply cseq body (if phase1 then Ap2Session.SetupPhase1 else Ap2Session.SetupPhase2)
      (if phase1 then SetupPhase1Complete q p (timing_peer_info r) (timing_protocol r)
       else SetupPhase2Complete p q (s ← List.find is_audio (streams r); req_audio_format s) (encryption_type r) (shared_key r)).

Definition records (phase1 : bool) (p q : Z) (h h' : SetupHandler) : Prop :=
  session_ports h' = (if phase1 then mkSessionPorts (Some p) (Some q) (s_data (session_ports h)) (s_control (session_ports h))
                      else mkSessionPorts (s_event (session_ports h)) (s_timing (session_ports h)) (Some p) (Some q)).

Lemma handle_spec h request r cseq : handler_ok h -> parse (body request) = Ok r -> is_phase1 r || is_phase2 r = true ->
  exists res h', handle h request cseq = Ok (res, h') /\ handler_ok h' /\
    ((exists p q, free_port h p /\ free_port h q /\ p <> q /\ taken h' = taken h ++ [p; q] /\
        names_ports (is_phase1 r) r cseq p q res /\ records (is_phase1 r) p q h h') \/
     (res = allocation_error cseq NoPortsAvailable /\ taken h' = taken h /\ session_ports h' = session_ports h /\
        forall p q, free_port h p -> free_port h q -> p = q)).
Proof.
  intros [Ha Hl] Hp Hph. unfold handle. rewrite Hp. destruct (allocate_two_spec _ Ha) as (ports & a & Htwo & Ha' & Hs & He & H).
  assert (forall p, in_range (port_allocator h) p -> uint 16 p) as Hu.
  { intros p Hr. destruct Ha as [H0 H1 _ _ _]. unfold in_range in Hr. unfold uint. lia. }
  assert (ports = Err NoPortsAvailable -> exists res h', (if is_phase1 r then handle_phase1 h r cseq else handle_phase2 h r cseq) = Ok (res, h') /\
    handler_ok h' /\ res = allocation_error cseq NoPortsAvailable /\ taken h' = taken h /\ session_ports h' = session_ports h) as Herr.
  { intros ->. exists (allocation_error cseq NoPortsAvailable), (with_allocator h a). split; [|destruct H as [H _]; split; [split; done|]; split; [done|]; split; [exact H|done]].
    unfold handle_phase1, handle_phase2. rewrite Htwo. by destruct (is_phase1 r). }
  assert ((if is_phase1 r then handle_phase1 h r cseq else if is_phase2 r then handle_phase2 h r cseq
           else Ok (error_reply BAD_REQUEST cseq (Some (ErrorText "Unknown stream types in SETUP")), h)) =
          (if is_phase1 r then handle_phase1 h r cseq else handle_phase2 h r cseq)) as ->.
  { destruct (is_phase1 r); [done|]. cbn [orb] in Hph. by rewrite Hph. }
  destruct ports as [[p q]|[]|]; [| |done].
  - destruct H as (Rp & Rq & Hne & Fp & Fq & Hal). destruct (phase1_file p q (Hu p Rp) (Hu q Rq)) as (b1 & E1 & D1).
    destruct (phase2_file p q (audio_latency_samples h) (Hu p Rp) (Hu q Rq) Hl) as (b2 & E2 & D2).
    unfold handle_phase1, handle_phase2. rewrite Htwo. cbn [mbind outcome_bind audio_latency_samples]. rewrite E1, E2.
    destruct (is_phase1 r); eexists _, _; (split; [reflexivity|]); (split; [by split|]); left; exists p, q; (split_and!; try done);
      [exists b1, (to_plist (phase1 p q))|exists b2, (to_plist (phase2 p q (audio_latency_samples h)))]; split_and!; try done;
      unfold to_plist; cbn [audio_latency phase2]; by destruct (0 <? audio_latency_samples h).
  - destruct (Herr eq_refl) as (res & h' & E & Hok & Hr & Ht & Hsp). exists res, h'. split; [done|]. split; [done|]. right. split_and!; try done.
    destruct H as [_ H]. intros x y [Rx Fx] [Ry Fy]. by apply H.
Qed.

Lemma handle_other h request cseq r : parse (body request) = Ok r -> is_phase1 r || is_phase2 r = false ->
  exists res, handle h request cseq = Ok (res, h).
Proof. intros Hp [H1 H2]%orb_false_iff. unfold handle. rewrite Hp, H1, H2. by eexists. Qed.

(** The life of a handler. *)
Definition step (h h' : SetupHandler) : Prop :=
  (exists request cseq res, handle h request cseq = Ok (res, h')) \/ h' = cleanup h.

Lemma cleanup_ok h : handler_ok h -> handler_ok (cleanup h).
Proof.
  intros [Ha Hl]. split; [|done]. cbn [cleanup port_allocator]. unfold release_opt. repeat case_match; repeat apply release_ok; done.
Qed.

Definition session_list (h : SetupHandler) : list (option Z) :=
  [s_event (session_ports h); s_timing (session_ports h); s_data (session_ports h); s_control (session_ports h)].

(** A port that is allocated and that the session does not know of. *)
Definition leaked (h : SetupHandler) (p : Z) : Prop := p ∈ taken h /\ Some p ∉ session_list h.

Lemma release_opt_keeps o a p : o <> Some p -> p ∈ allocated a -> p ∈ allocated (release_opt o a).
Proof.
  intros Ho Hp. destruct o as [x|]; [|done]. cbn [release_opt release allocated]. apply list_elem_of_filter. split; [congruence|done].
Qed.

Lemma step_leaked h h' p : handler_ok h -> step h h' -> leaked h p -> handler_ok h' /\ leaked h' p.
Proof.
  intros Hok [(request & cseq & res & H)| ->] [Hin Hno].
  - destruct (parse (body request)) as [r|e|] eqn:Hp; [|unfold handle in H; rewrite Hp in H; by injection H as _ <-|unfold handle in H; by rewrite Hp in H].
    destruct (is_phase1 r || is_phase2 r) eqn:Hph; [|destruct (handle_other h request cseq r Hp Hph) as (res' & E); rewrite H in E; by injection E as _ ->].
    destruct (handle_spec h request r cseq Hok Hp Hph) as (res' & h2 & E & Hok' & Hcase). rewrite H in E. injection E as -> ->. split; [done|].
    destruct Hcase as [(x & y & [_ Fx] & [_ Fy] & _ & Ht & _ & Hrec)|(_ & Ht & Hsp & _)].
    + split; [rewrite Ht; set_solver|]. unfold session_list in *. rewrite Hrec. assert (x <> p) by congruence. assert (y <> p) by congruence.
      destruct (is_phase1 r); cbn [s_event s_timing s_data s_control]; set_solver.
    + split; [by rewrite Ht|]. unfold session_list in *. by rewrite Hsp.
  - split; [by apply cleanup_ok|]. split; [|done]. unfold session_list in Hno. cbn [taken cleanup port_allocator].
    repeat (apply release_opt_keeps; [set_solver|]). done.
Qed.

Lemma leaked_forever h h' p : handler_ok h -> rtc step h h' -> leaked h p -> leaked h' p.
Proof.
  intros Hok H. revert Hok. induction H as [|h1 h2 h3 H12 _ IH]; intros Hok Hl; [done|].
  destruct (step_leaked _ _ _ Hok H12 Hl). by apply IH.
Qed.

Lemma handle_range h h' request cseq res p : handler_ok h -> handle h request cseq = Ok (res, h') -> in_range (port_allocator h) p -> in_range (port_allocator h') p.
Proof.
  intros [Ha _] H Hp. destruct (allocate_two_spec _ Ha) as (ports & a & Htwo & _ & Hs & He & _).
  unfold handle, handle_phase1, handle_phase2 in H. rewrite Htwo in H. cbn [mbind outcome_bind] in H.
  unfold in_range in *. repeat (case_match; simplify_eq; cbn [port_allocator with_allocator] in *; try lia).
Qed.

(** ** Properties *)

(** C17: SETUP hands out fresh ports and tells both sides the same ones. On a handler
    whose ports are in order and whose range ends below 65535, a request with event or timing streams (phase 1) or with
    audio streams (phase 2) is always answered: either two different ports of the range
    that were free are allocated, the property list in the response decodes to these two
    under the names of the phase, and the event for the receiver carries the same two
    next to the peer's parameters; or fewer than two ports of the range are free, the
    answer is 453, and no port is lost to the failed attempt. *)
Theorem setup_hands_out_ports (h : SetupHandler) (request : RtspRequest) (r : SetupRequest) (cseq : Z)
  (Hok : handler_ok h) (Hp : parse (body request) = Ok r) (Hph : is_phase1 r || is_phase2 r = true) :
  exists res h', handle h request cseq = Ok (res, h') /\ handler_ok h' /\
    ((exists p q, free_port h p /\ free_port h q /\ p <> q /\ taken h' = taken h ++ [p; q] /\
        names_ports (is_phase1 r) r cseq p q res /\ records (is_phase1 r) p q h h') \/
     (res = allocation_error cseq NoPortsAvailable /\ taken h' = taken h /\ session_ports h' = session_ports h /\
        forall p q, free_port h p -> free_port h q -> p = q)).
Proof. by apply handle_spec. Qed.

(** A repeated SETUP loses ports for good. When a sender asks for phase 1 twice, the
    two ports of the first answer are no longer recorded for the session: no later
    request and no cleanup ever releases them. *)
Theorem repeated_setup_leaks (start stop latency : Z) (q1 q2 : RtspRequest) (r1 r2 : SetupRequest) (c1 c2 : Z)
  (Hrange : 0 <= start /\ start + 3 <= stop /\ stop < 65535) (Hl : uint 32 latency)
  (H1 : parse (body q1) = Ok r1) (P1 : is_phase1 r1 = true) (H2 : parse (body q2) = Ok r2) (P2 : is_phase1 r2 = true) :
  exists res1 h1 res2 h2 e t, handle (SetupHandler_new start stop latency) q1 c1 = Ok (res1, h1) /\
    event res1 = Some (SetupPhase1Complete t e (timing_peer_info r1) (timing_protocol r1)) /\
    handle h1 q2 c2 = Ok (res2, h2) /\ (forall h', rtc step h2 h' -> e ∈ taken h' /\ t ∈ taken h').
Proof.
  assert (handler_ok (SetupHandler_new start stop latency)) as Hok by (apply new_handler_ok; done || lia). set (h0 := SetupHandler_new start stop latency) in *.
  destruct (handle_spec h0 q1 r1 c1 Hok H1) as (res1 & h1 & E1 & Hok1 & Case1); [by rewrite P1|]. rewrite P1 in Case1.
  assert (forall x, start <= x <= stop -> x ∉ taken h0 -> free_port h0 x) as Hfree by (intros; by split).
  destruct Case1 as [(e & t & Fe & Ft & Hne & Ht1 & (b1 & v1 & _ & _ & _ & ->) & Rec1)|(_ & _ & _ & Hall)].
  2: { exfalso. assert (start = start + 1); [|lia]. apply Hall; apply Hfree; [lia|set_solver|lia|set_solver]. }
  destruct (handle_spec h1 q2 r2 c2 Hok1 H2) as (res2 & h2 & E2 & Hok2 & Case2); [by rewrite P2|]. rewrite P2 in Case2.
  eexists _, h1, res2, h2, e, t. split; [exact E1|]. split; [done|]. split; [exact E2|].
  assert (leaked h2 e /\ leaked h2 t) as [Le Lt].
  2: { intros h' H. split; [by apply (leaked_forever h2 h' e)|by apply (leaked_forever h2 h' t)]. }
  destruct Case2 as [(x & y & [_ Fx] & [_ Fy] & _ & Ht2 & _ & Rec2)|(_ & _ & _ & Hall)].
  - rewrite Ht1 in Fx, Fy. unfold records in Rec1, Rec2. unfold leaked, session_list. rewrite Ht2, Ht1, Rec2, Rec1. cbn. set_solver.
  - exfalso. assert (forall a b, start <= a <= start + 3 -> start <= b <= start + 3 -> a <> b -> a = e \/ a = t \/ b = e \/ b = t) as Hp.
    { intros a b Ra Rb Hab. destruct (decide (a ∈ [e; t])); [set_solver|]. destruct (decide (b ∈ [e; t])); [set_solver|]. destruct Hab.
      destruct Fe as [Re _]. apply Hall; (split; [|by rewrite Ht1]); apply (handle_range h0 h1 q1 c1 _ _ Hok E1); unfold in_range; cbn; lia. }
    pose proof (Hp start (start + 1)). pose proof (Hp start (start + 2)). pose proof (Hp start (start + 3)). pose proof (Hp (start + 1) (start + 2)).
    pose proof (Hp (start + 1) (start + 3)). pose proof (Hp (start + 2) (start + 3)). lia.
Qed.
End Properties.

(** ** Witnesses *)
#[local] Existing Instance RtspParser.reverse_order.
#[local] Instance any_text : AddrSyntax := fun s => Some (RtspParser.of_chars s).

(** A request with the event and the timing stream, as its sender encodes it. *)
Definition demo_body : PlistValue :=
  Dictionary [(bs "streams", Array [Dictionary [(bs "type", Integer 130)]; Dictionary [(bs "type", Integer 150)]]); (bs "timingProtocol", PString (bs "PTP"))].
Definition demo_request : RtspRequest :=
  {| method := Setup; uri := "rtsp://10.0.0.3/1"; headers := []; body := match encode demo_body with Ok b => b | _ => [] end |}.
Definition demo_parsed : SetupRequest :=
  mkSetupRequest [mkStreamRequest EventStream None None None None; mkStreamRequest TimingStream None None None None] PtpTiming None None NoEncryption None.

Lemma demo_parses : parse (body demo_request) = Ok demo_parsed.
Proof. vm_compute. reflexivity. Qed.

Lemma setup_hands_out_ports_witness : exists res h', handle (SetupHandler_new 7100 7101 11025) demo_request 3 = Ok (res, h') /\ taken h' = [7100; 7101].
Proof.
  destruct (setup_hands_out_ports (SetupHandler_new 7100 7101 11025) demo_request demo_parsed 3) as (res & h' & H & _ & _);
    [apply new_handler_ok; [lia|lia|split; cbn; lia]|exact demo_parses|reflexivity|].
  exists res, h'. split; [exact H|]. revert H. vm_compute. intros [= _ <-]. reflexivity.
Defined.

Lemma repeated_setup_leaks_witness : exists res1 h1 res2 h2 e t, handle (SetupHandler_new 7100 7103 11025) demo_request 3 = Ok (res1, h1) /\
  event res1 = Some (SetupPhase1Complete t e None PtpTiming) /\ handle h1 demo_request 4 = Ok (res2, h2) /\ e ∈ taken (cleanup h2).
Proof.
  destruct (repeated_setup_leaks 7100 7103 11025 demo_request demo_request demo_parsed demo_parsed 3 4) as (res1 & h1 & res2 & h2 & e & t & H1 & H2 & H3 & H);
    [lia|split; cbn; lia|exact demo_parses|reflexivity|exact demo_parses|reflexivity|].
  exists res1, h1, res2, h2, e, t. split; [exact H1|]. split; [exact H2|]. split; [exact H3|]. apply H. apply rtc_once. right. reflexivity.
Defined.

(** A range that ends with the last port: its successor does not fit 16 bits. *)
Example last_port_panics : allocate (PortAllocator_new 65535 65535) = Panic.
Proof. vm_compute. reflexivity. Qed.

End Ap2Setup.
