(* ===== verification/PlaybackQueue.v ===== *)
(** * Playback queue

    Models [src/control/queue.rs] with the queue items of
    [src/types/track.rs]: the item list, the current index, the history used by
    [previous] and the shuffle order.  Indices are [nat]; a slice or index out
    of range is a panic.  The identifier of a new item, drawn from a global
    counter, and the permutation drawn by [shuffle] are arguments.  The theorems
    are parametric in the track information. *)

From stdpp Require Import relations sorting.
From S2P Require Import Bytes.

Module PlaybackQueue.

Section Queue.
Context {TrackInfo : Type}.

Record QueueItem := mkItem { id : Z; track : TrackInfo; original_position : nat }.

Record PlaybackQueue := mkQueue {
  items : list QueueItem;
  current_index : option nat;
  history : list Z;
  max_history : nat;
  shuffle_order : option (list nat);
  shuffle_position : nat
}.

Definition PlaybackQueue_new : PlaybackQueue := mkQueue [] None [] 100 None 0.

Definition with_current (q : PlaybackQueue) (c : option nat) : PlaybackQueue :=
  mkQueue (items q) c (history q) (max_history q) (shuffle_order q) (shuffle_position q).

Definition add (q : PlaybackQueue) (t : TrackInfo) (new_id : Z) : PlaybackQueue :=
  let position := length (items q) in
  mkQueue (items q ++ [mkItem new_id t position]) (current_index q) (history q) (max_history q)
    ((fun order => order ++ [position]) <$> shuffle_order q) (shuffle_position q).

(** [Vec::insert] and [Vec::remove], in range. *)
Definition list_insert_at {A} (l : list A) (i : nat) (x : A) : list A := take i l ++ x :: drop i l.
Definition list_remove_at {A} (l : list A) (i : nat) : list A := take i l ++ drop (S i) l.

Definition insert (q : PlaybackQueue) (index : nat) (t : TrackInfo) (new_id : Z) : PlaybackQueue :=
  let position := length (items q) in
  let insert_at := Nat.min index (length (items q)) in
  mkQueue (list_insert_at (items q) insert_at (mkItem new_id t position))
    ((fun c => if (insert_at <=? c)%nat then S c else c) <$> current_index q)
    (history q) (max_history q)
    ((fun order => map (fun i => if (insert_at <=? i)%nat then S i else i) order ++ [insert_at]) <$> shuffle_order q)
    (shuffle_position q).

Definition add_next (q : PlaybackQueue) (t : TrackInfo) (new_id : Z) : PlaybackQueue :=
  insert q (match current_index q with Some i => S i | None => 0%nat end) t new_id.

(** [items.iter().position(|item| item.id == id)]. *)
Definition position_of (q : PlaybackQueue) (i : Z) : option nat :=
  fst <$> list_find (fun it => id it = i) (items q).

Definition remove (q : PlaybackQueue) (i : Z) : option QueueItem * PlaybackQueue :=
  match position_of q i with
  | None => (None, q)
  | Some index =>
      let items' := list_remove_at (items q) index in
      let current' :=
        match current_index q with
        | None => None
        | Some c =>
            if (index <? c)%nat then Some (c - 1)%nat
            else if (index =? c)%nat then
              if (length items' =? 0)%nat then None else Some (Nat.min c (length items' - 1))
            else Some c
        end in
      (items q !! index,
       mkQueue items' current' (history q) (max_history q)
         ((fun order => map (fun j => if (index <? j)%nat then (j - 1)%nat else j)
                          (filter (fun j => j <> index) order)) <$> shuffle_order q)
         (shuffle_position q))
  end.

Definition moved_index (from to i : nat) : nat :=
  if (i =? from)%nat then to
  else if (from <? to)%nat then (if (from <? i)%nat && (i <=? to)%nat then (i - 1)%nat else i)
  else (if (to <=? i)%nat && (i <? from)%nat then S i else i).

Definition moved_current (from to current : nat) : nat :=
  if (current =? from)%nat then to
  else if (from <? current)%nat && (current <=? to)%nat then (current - 1)%nat
  else if (current <? from)%nat && (to <=? current)%nat then S current
  else current.

Definition move_track (q : PlaybackQueue) (from to : nat) : PlaybackQueue :=
  if (length (items q) <=? from)%nat || (length (items q) <=? to)%nat then q
  else
    match items q !! from with
    | None => q
    | Some item =>
        mkQueue (list_insert_at (list_remove_at (items q) from) to item)
          (moved_current from to <$> current_index q) (history q) (max_history q)
          (map (moved_index from to) <$> shuffle_order q) (shuffle_position q)
    end.

(** [clear] keeps the history. *)
Definition clear (q : PlaybackQueue) : PlaybackQueue :=
  mkQueue [] None (history q) (max_history q) None 0.

Definition current (q : PlaybackQueue) : option QueueItem :=
  i ← current_index q; items q !! i.

(** [push_back], then [pop_front] while there are too many. *)
Definition add_to_history (q : PlaybackQueue) (i : Z) : PlaybackQueue :=
  let h := history q ++ [i] in
  mkQueue (items q) (current_index q) (drop (length h - max_history q) h) (max_history q)
    (shuffle_order q) (shuffle_position q).

Definition set_current (q : PlaybackQueue) (index : nat) : bool * PlaybackQueue :=
  if (index <? length (items q))%nat then
    let q' := match current q with Some it => add_to_history q (id it) | None => q end in
    (true, with_current q' (Some index))
  else (false, q).

Definition skip_to (q : PlaybackQueue) (i : Z) : bool * PlaybackQueue :=
  match position_of q i with Some index => set_current q index | None => (false, q) end.

Definition with_shuffle_position (q : PlaybackQueue) (p : nat) : PlaybackQueue :=
  mkQueue (items q) (current_index q) (history q) (max_history q) (shuffle_order q) p.

Definition index_at {E} (l : list nat) (i : nat) : outcome E nat := unwrap (l !! i).

Definition advance (q : PlaybackQueue) : outcome Empty_set (option QueueItem * PlaybackQueue) :=
  match shuffle_order q with
  | Some order =>
      if (shuffle_position q + 1 <? length order)%nat then
        index ← index_at order (shuffle_position q + 1);
        let '(_, q') := set_current (with_shuffle_position q (shuffle_position q + 1)) index in
        Ok (current q', q')
      else Ok (None, q)
  | None =>
      match current_index q with
      | Some i =>
          if (i + 1 <? length (items q))%nat
          then let '(_, q') := set_current q (i + 1) in Ok (current q', q')
          else Ok (None, q)
      | None => Ok (None, q)
      end
  end.

Definition pop_history (q : PlaybackQueue) : option Z * PlaybackQueue :=
  match last (history q) with
  | Some i => (Some i, mkQueue (items q) (current_index q) (take (length (history q) - 1) (history q))
                         (max_history q) (shuffle_order q) (shuffle_position q))
  | None => (None, q)
  end.

Definition previous_in_order (q : PlaybackQueue) : outcome Empty_set (option QueueItem * PlaybackQueue) :=
  match shuffle_order q with
  | Some order =>
      if (0 <? shuffle_position q)%nat then
        let q := with_shuffle_position q (shuffle_position q - 1) in
        index ← index_at order (shuffle_position q);
        let q := with_current q (Some index) in Ok (current q, q)
      else Ok (None, q)
  | None =>
      match current_index q with
      | Some (S i) => let q := with_current q (Some i) in Ok (current q, q)
      | _ => Ok (None, q)
      end
  end.

Definition previous (q : PlaybackQueue) : outcome Empty_set (option QueueItem * PlaybackQueue) :=
  let '(popped, q) := pop_history q in
  match popped with
  | Some i =>
      match position_of q i with
      | Some index => let q := with_current q (Some index) in Ok (current q, q)
      | None => previous_in_order q
      end
  | None => previous_in_order q
  end.

(** [rng]: the permutation drawn by [SliceRandom::shuffle]. *)
Definition shuffle (q : PlaybackQueue) (rng : list nat -> list nat) : PlaybackQueue :=
  let order := seq 0 (length (items q)) in
  match current_index q with
  | Some c =>
      mkQueue (items q) (current_index q) (history q) (max_history q)
        (Some (c :: rng (filter (fun i => i <> c) order))) 0
  | None =>
      mkQueue (items q) (current_index q) (history q) (max_history q)
        (Some (rng order)) (shuffle_position q)
  end.

Definition unshuffle (q : PlaybackQueue) : PlaybackQueue :=
  mkQueue (items q) (current_index q) (history q) (max_history q) None (shuffle_position q).

Definition is_shuffled (q : PlaybackQueue) : bool :=
  match shuffle_order q with Some _ => true | None => false end.
Definition len (q : PlaybackQueue) : nat := length (items q).
Definition is_empty (q : PlaybackQueue) : bool := (length (items q) =? 0)%nat.
Definition get (q : PlaybackQueue) (index : nat) : option QueueItem := items q !! index.
Definition get_by_id (q : PlaybackQueue) (i : Z) : option QueueItem :=
  List.find (fun it => id it =? i) (items q).

Definition upcoming (q : PlaybackQueue) (count : nat) : outcome Empty_set (list QueueItem) :=
  let start := match current_index q with Some i => S i | None => 0%nat end in
  match shuffle_order q with
  | Some order =>
      rest ← slice order (shuffle_position q + 1) (length order);
      Ok (omap (fun i => items q !! i) (take count rest))
  | None =>
      rest ← slice (items q) start (length (items q));
      Ok (take count rest)
  end.

(** ** Lists edited by index *)
Lemma length_insert_at {A} (l : list A) k x : (k <= length l)%nat ->
  length (list_insert_at l k x) = S (length l).
Proof. intros. unfold list_insert_at. rewrite length_app. cbn. rewrite length_take, length_drop. lia. Qed.

Lemma length_remove_at {A} (l : list A) k : (k < length l)%nat ->
  length (list_remove_at l k) = (length l - 1)%nat.
Proof. intros. unfold list_remove_at. rewrite length_app, length_take, length_drop. lia. Qed.

Lemma lookup_insert_at {A} (l : list A) k x i : (k <= length l)%nat ->
  list_insert_at l k x !! i =
  if (i <? k)%nat then l !! i else if (i =? k)%nat then Some x else l !! (i - 1)%nat.
Proof.
  intros Hk. unfold list_insert_at. destruct (Nat.ltb_spec i k).
  - rewrite lookup_app_l by (rewrite length_take; lia). by rewrite lookup_take_lt.
  - rewrite lookup_app_r by (rewrite length_take; lia). rewrite length_take, Nat.min_l by lia.
    destruct (Nat.eqb_spec i k) as [->|]; [by rewrite Nat.sub_diag|].
    rewrite lookup_cons_ne_0, lookup_drop by lia. f_equal. lia.
Qed.

Lemma lookup_remove_at {A} (l : list A) k i : (k < length l)%nat ->
  list_remove_at l k !! i = if (i <? k)%nat then l !! i else l !! S i.
Proof.
  intros Hk. unfold list_remove_at. destruct (Nat.ltb_spec i k).
  - rewrite lookup_app_l by (rewrite length_take; lia). by rewrite lookup_take_lt.
  - rewrite lookup_app_r by (rewrite length_take; lia). rewrite length_take, Nat.min_l by lia.
    rewrite lookup_drop. f_equal. lia.
Qed.

Lemma insert_at_perm {A} (l : list A) k x : list_insert_at l k x ≡ₚ x :: l.
Proof. unfold list_insert_at. rewrite <- Permutation_middle. by rewrite take_drop. Qed.

Lemma remove_at_perm {A} (l : list A) k x : l !! k = Some x -> l ≡ₚ x :: list_remove_at l k.
Proof.
  intros H. unfold list_remove_at. rewrite <- (take_drop_middle l k x) at 1 by done.
  by rewrite Permutation_middle.
Qed.

(** ** Shuffle orders are permutations of the indices *)
Lemma seq_perm (n : nat) (o : list nat) : NoDup o -> Forall (fun i => i < n)%nat o -> length o = n -> o ≡ₚ seq 0 n.
Proof.
  intros Hnd Hlt Hlen. apply submseteq_length_Permutation; [|rewrite length_seq; lia].
  apply NoDup_submseteq; [done|]. intros i Hi. rewrite Forall_forall in Hlt.
  apply elem_of_seq. specialize (Hlt i Hi). lia.
Qed.

Lemma perm_seq (n : nat) (o : list nat) : o ≡ₚ seq 0 n ->
  NoDup o /\ Forall (fun i => i < n)%nat o /\ length o = n.
Proof.
  intros H. split_and!.
  - rewrite H. apply NoDup_seq.
  - apply Forall_forall. intros i Hi. rewrite H in Hi. apply elem_of_seq in Hi. lia.
  - rewrite H. apply length_seq.
Qed.

(** Renaming the indices of an order by an injection. *)
Lemma map_order (f : nat -> nat) (n : nat) (o : list nat) :
  NoDup o -> Forall (fun i => i < n)%nat o ->
  (forall i j, (i < n)%nat -> (j < n)%nat -> i ∈ o -> j ∈ o -> f i = f j -> i = j) -> NoDup (map f o).
Proof.
  intros Hnd Hlt Hinj. apply NoDup_fmap_2_strong; [|done]. rewrite Forall_forall in Hlt.
  intros i j Hi Hj. apply Hinj; auto.
Qed.

(** ** Invariant *)
Definition queue_inv (q : PlaybackQueue) : Prop :=
  NoDup (map id (items q)) /\
  (forall c, current_index q = Some c -> (c < length (items q))%nat) /\
  (length (history q) <= max_history q)%nat /\
  (forall o, shuffle_order q = Some o -> o ≡ₚ seq 0 (length (items q))).

Lemma new_inv : queue_inv PlaybackQueue_new.
Proof. split_and!; cbn; [constructor|done|lia|done]. Qed.

Lemma insert_inv q index t i : queue_inv q -> i ∉ map id (items q) -> queue_inv (insert q index t i).
Proof.
  intros (Hnd & Hc & Hh & Ho) Hi. unfold insert. set (k := Nat.min index (length (items q))).
  assert (k <= length (items q))%nat as Hk by lia. split_and!; cbn; [| |done|].
  - rewrite insert_at_perm. cbn. by constructor.
  - intros c (c0 & H0 & ->)%fmap_Some. apply Hc in H0. rewrite length_insert_at by done. case_match; lia.
  - intros o (o0 & (Hn & Hl & Hlen)%Ho%perm_seq & ->)%fmap_Some. rewrite length_insert_at by done.
    apply seq_perm.
    + apply NoDup_app. split_and!; [|intros x Hx|by apply NoDup_singleton].
      * eapply map_order; [done|done|]. intros a b _ _ _ _. repeat case_match; bool_to_prop; lia.
      * apply list_elem_of_fmap in Hx as (y & -> & _). rewrite list_elem_of_singleton.
        case_match; bool_to_prop; lia.
    + apply Forall_app. split; [|apply Forall_singleton; lia]. apply Forall_map.
      eapply Forall_impl; [exact Hl|]. cbn. intros; case_match; lia.
    + rewrite length_app, length_map, Hlen. cbn. lia.
Qed.

Lemma add_inv q t i : queue_inv q -> i ∉ map id (items q) -> queue_inv (add q t i).
Proof.
  intros (Hnd & Hc & Hh & Ho) Hi. split_and!; cbn; [| |done|].
  - rewrite map_app. cbn [map id]. rewrite <- Permutation_cons_append. by constructor.
  - intros c H%Hc. rewrite length_app. cbn. lia.
  - intros o (o0 & H%Ho & ->)%fmap_Some. rewrite length_app, H. cbn.
    by rewrite Nat.add_1_r, seq_S.
Qed.

Lemma position_of_Some q i k : position_of q i = Some k ->
  exists it, items q !! k = Some it /\ id it = i.
Proof.
  unfold position_of. intros ([k' it] & (Hk & Hid & _)%list_find_Some & Heq)%fmap_Some. cbn in Heq. subst. eauto.
Qed.

Lemma remove_inv q i : queue_inv q -> queue_inv (remove q i).2.
Proof.
  intros Hq. unfold remove. destruct (position_of q i) as [k|] eqn:Hp; [|done].
  destruct Hq as (Hnd & Hc & Hh & Ho).
  destruct (position_of_Some q i k Hp) as (it & Hk & _). apply lookup_lt_Some in Hk as Hlt.
  split_and!; cbn [snd items current_index history max_history shuffle_order]; [| |done|].
  - rewrite (remove_at_perm _ _ _ Hk) in Hnd. by inversion Hnd.
  - intros c Hcur. rewrite length_remove_at in * by done.
    destruct (current_index q) as [c0|] eqn:Hc0; [|done]. specialize (Hc c0 eq_refl).
    repeat case_match; simplify_eq; bool_to_prop; lia.
  - intros o (o0 & Hperm%Ho & ->)%fmap_Some. rewrite length_remove_at by done.
    destruct (perm_seq _ _ Hperm) as (Hn & Hl & Hlen). apply seq_perm.
    + eapply map_order; [by apply NoDup_filter| |].
      { apply Forall_forall. intros j [_ Hj]%list_elem_of_filter. rewrite Forall_forall in Hl. by apply Hl. }
      intros a b _ _ [Ha _]%list_elem_of_filter [Hb _]%list_elem_of_filter. repeat case_match; bool_to_prop; lia.
    + apply Forall_map, Forall_forall. intros j [Hj Hin]%list_elem_of_filter.
      rewrite Forall_forall in Hl. apply Hl in Hin. case_match; bool_to_prop; lia.
    + rewrite length_map. assert (k ∈ o0) as Hin by (rewrite Hperm; apply elem_of_seq; lia).
      apply elem_of_Permutation in Hin as [o1 Ho1]. rewrite Ho1 in *.
      rewrite filter_cons_False by (by intros []). apply NoDup_cons in Hn as [Hnin _].
      rewrite filter_all; [cbn in Hlen; lia|]. apply Forall_forall. by intros j Hj ->.
Qed.

(** Decide every comparison of indices. *)
Ltac nat_cases :=
  repeat match goal with
    | |- context [(?a <? ?b)%nat] => destruct (Nat.ltb_spec a b)
    | |- context [(?a <=? ?b)%nat] => destruct (Nat.leb_spec a b)
    | |- context [(?a =? ?b)%nat] => destruct (Nat.eqb_spec a b)
    end; cbn [andb orb negb].

Lemma moved_index_inj from to n i j : (from < n)%nat -> (to < n)%nat -> (i < n)%nat -> (j < n)%nat ->
  moved_index from to i = moved_index from to j -> i = j.
Proof. unfold moved_index. intros ? ? ? ?. nat_cases; lia. Qed.

Lemma moved_index_lt from to n i : (from < n)%nat -> (to < n)%nat -> (i < n)%nat -> (moved_index from to i < n)%nat.
Proof. unfold moved_index. intros. nat_cases; lia. Qed.

Lemma move_items l from to (x : QueueItem) : l !! from = Some x -> (to < length l)%nat ->
  list_insert_at (list_remove_at l from) to x ≡ₚ l /\
  length (list_insert_at (list_remove_at l from) to x) = length l /\
  forall c, (c < length l)%nat -> list_insert_at (list_remove_at l from) to x !! moved_current from to c = l !! c.
Proof.
  intros Hx Ht. apply lookup_lt_Some in Hx as Hf.
  assert (length (list_remove_at l from) = (length l - 1)%nat) as Hl by (by rewrite length_remove_at).
  split_and!.
  - by rewrite insert_at_perm, <- remove_at_perm.
  - rewrite length_insert_at; lia.
  - intros c Hc. unfold moved_current. destruct (Nat.eqb_spec c from) as [->|Hne].
    { rewrite lookup_insert_at, (proj2 (Nat.ltb_ge to to)), Nat.eqb_refl by lia. done. }
    destruct (Nat.ltb_spec from c), (Nat.leb_spec c to), (Nat.ltb_spec c from), (Nat.leb_spec to c);
      cbn [andb]; try lia; rewrite lookup_insert_at, !lookup_remove_at by lia;
      nat_cases; try lia; f_equal; lia.
Qed.

Lemma move_inv q from to : queue_inv q -> queue_inv (move_track q from to).
Proof.
  intros Hq. unfold move_track. destruct (_ || _) eqn:Hb; [done|]. bool_to_prop.
  destruct (items q !! from) as [x|] eqn:Hx; [|done]. destruct Hq as (Hnd & Hc & Hh & Ho).
  destruct (move_items (items q) from to x Hx) as (Hperm & Hlen & _); [lia|].
  split_and!; cbn [items current_index history max_history shuffle_order]; [by rewrite Hperm| |done|].
  - intros c (c0 & Hc0%Hc & ->)%fmap_Some. rewrite Hlen. unfold moved_current. nat_cases; lia.
  - intros o (o0 & (Hn & Hl & Hl0)%Ho%perm_seq & ->)%fmap_Some. rewrite Hlen. apply seq_perm.
    + eapply map_order; [done|done|]. intros a b Ha Hb' _ _. apply (moved_index_inj _ _ (length (items q))); lia.
    + apply Forall_map. eapply Forall_impl; [exact Hl|]. cbn. intros a Ha. apply moved_index_lt; lia.
    + by rewrite length_map.
Qed.

Lemma with_current_inv q i : queue_inv q -> (i < length (items q))%nat -> queue_inv (with_current q (Some i)).
Proof. intros (Hnd & Hc & Hh & Ho) Hi. split_and!; cbn; try done. by intros c [= <-]. Qed.

Lemma with_position_inv q p : queue_inv q -> queue_inv (with_shuffle_position q p).
Proof. done. Qed.

Lemma history_inv q i : queue_inv q -> queue_inv (add_to_history q i).
Proof.
  intros (Hnd & Hc & Hh & Ho). split_and!; cbn; try done. rewrite length_drop, length_app. cbn. lia.
Qed.

Lemma set_current_inv q i : queue_inv q -> queue_inv (set_current q i).2.
Proof.
  intros Hq. unfold set_current. destruct (Nat.ltb_spec i (length (items q))) as [Hi|]; [|done]. cbn [snd].
  destruct (current q); (apply with_current_inv; [|done]); by try apply history_inv.
Qed.

Lemma order_lookup q o p i : queue_inv q -> shuffle_order q = Some o -> o !! p = Some i -> (i < length (items q))%nat.
Proof.
  intros (_ & _ & _ & Ho) (_ & Hl & _)%Ho%perm_seq Hi. by apply (Forall_lookup_1 _ _ _ _ Hl Hi).
Qed.

Lemma advance_spec q : queue_inv q -> wp (advance q) (fun r => queue_inv r.2).
Proof.
  intros Hq. unfold advance. destruct (shuffle_order q) as [o|] eqn:Ho.
  - destruct (Nat.ltb_spec (shuffle_position q + 1) (length o)) as [Hp|]; [|done].
    destruct (lookup_lt_is_Some_2 o (shuffle_position q + 1)) as [i Hi]; [done|].
    unfold index_at. rewrite Hi. cbn [unwrap mbind outcome_bind].
    pose proof (set_current_inv (with_shuffle_position q (shuffle_position q + 1)) i Hq) as H.
    by destruct (set_current _ i).
  - destruct (current_index q) as [c|] eqn:Hc; [|done].
    destruct (Nat.ltb_spec (c + 1) (length (items q))); [|done].
    pose proof (set_current_inv q (c + 1) Hq) as H'. by destruct (set_current q (c + 1)).
Qed.

Lemma previous_in_order_inv q r : queue_inv q -> previous_in_order q = Ok r -> queue_inv r.2.
Proof.
  intros Hq. unfold previous_in_order. destruct (shuffle_order q) as [o|] eqn:Ho.
  - destruct (Nat.ltb_spec 0 (shuffle_position q)); [|by intros [= <-]]. unfold index_at. cbn [shuffle_position with_shuffle_position].
    destruct (o !! (shuffle_position q - 1)%nat) as [i|] eqn:Hi; [|done]. cbn. intros [= <-].
    apply (with_current_inv (with_shuffle_position q (shuffle_position q - 1))); [done|].
    by eapply (order_lookup q).
  - destruct (current_index q) as [[|c]|] eqn:Hc; try by intros [= <-]. intros [= <-]. cbn [snd].
    apply with_current_inv; [done|]. destruct Hq as (_ & Hq & _). specialize (Hq _ Hc). lia.
Qed.

Lemma pop_history_inv q : queue_inv q -> queue_inv (pop_history q).2.
Proof.
  intros Hq. unfold pop_history. destruct (last (history q)); [|done].
  destruct Hq as (Hnd & Hc & Hh & Ho). split_and!; cbn; try done. rewrite length_take. lia.
Qed.

Lemma previous_inv q r : queue_inv q -> previous q = Ok r -> queue_inv r.2.
Proof.
  intros Hq%pop_history_inv. unfold previous. destruct (pop_history q) as [[i|] q'] eqn:Hp; [|by apply previous_in_order_inv].
  destruct (position_of q' i) as [k|] eqn:Hk; [|by apply previous_in_order_inv].
  intros [= <-]. cbn [snd]. apply position_of_Some in Hk as (it & Hk & _).
  apply with_current_inv; [done|]. by eapply lookup_lt_Some.
Qed.

Lemma shuffle_inv q rng : queue_inv q -> (forall l, rng l ≡ₚ l) -> queue_inv (shuffle q rng).
Proof.
  intros (Hnd & Hc & Hh & Ho) Hr. unfold shuffle. destruct (current_index q) as [c|] eqn:Hcur.
  - split_and!; cbn; try done. intros o [= <-]. rewrite Hr.
    assert (c ∈ seq 0 (length (items q))) as Hin by (apply elem_of_seq; specialize (Hc c eq_refl); lia).
    apply elem_of_Permutation in Hin as [l Hl]. rewrite Hl.
    assert (NoDup (c :: l)) as Hn by (rewrite <- Hl; apply NoDup_seq). apply NoDup_cons in Hn as [Hnin _].
    rewrite filter_cons_False by (by intros []). rewrite filter_all; [done|].
    apply Forall_forall. by intros j Hj ->.
  - split_and!; cbn; try done. by intros o [= <-].
Qed.

(** ** Reachable queues *)
Inductive queue_step : PlaybackQueue -> PlaybackQueue -> Prop :=
| qs_add q t i : i ∉ map id (items q) -> queue_step q (add q t i)
| qs_insert q k t i : i ∉ map id (items q) -> queue_step q (insert q k t i)
| qs_add_next q t i : i ∉ map id (items q) -> queue_step q (add_next q t i)
| qs_remove q i : queue_step q (remove q i).2
| qs_move q from to : queue_step q (move_track q from to)
| qs_clear q : queue_step q (clear q)
| qs_set_current q i : queue_step q (set_current q i).2
| qs_skip_to q i : queue_step q (skip_to q i).2
| qs_advance q r : advance q = Ok r -> queue_step q r.2
| qs_previous q r : previous q = Ok r -> queue_step q r.2
| qs_shuffle q rng : (forall l, rng l ≡ₚ l) -> queue_step q (shuffle q rng)
| qs_unshuffle q : queue_step q (unshuffle q).

Lemma queue_step_inv q q' : queue_step q q' -> queue_inv q -> queue_inv q'.
Proof.
  intros Hs Hq. destruct Hs.
  - by apply add_inv.
  - by apply insert_inv.
  - by apply insert_inv.
  - by apply remove_inv.
  - by apply move_inv.
  - destruct Hq as (_ & _ & Hh & _). split_and!; cbn; try done. constructor.
  - by apply set_current_inv.
  - unfold skip_to. destruct (position_of q i); [by apply set_current_inv|done].
  - apply advance_spec in Hq. by rewrite H in Hq.
  - by eapply previous_inv.
  - by apply shuffle_inv.
  - destruct Hq as (? & ? & ? & _). by split_and!.
Qed.

Lemma queue_reachable_inv q : rtc queue_step PlaybackQueue_new q -> queue_inv q.
Proof.
  intros H. pose proof new_inv as Hi. revert Hi. induction H; [done|]. intros Hx. eauto using queue_step_inv.
Qed.

Lemma current_Some q it : current q = Some it ->
  exists c, current_index q = Some c /\ items q !! c = Some it /\ (c < length (items q))%nat.
Proof.
  unfold current. destruct (current_index q) as [c|]; [|done]. cbn. intros H. exists c.
  split_and!; [done|done|by eapply lookup_lt_Some].
Qed.

Lemma current_insert q k t i it : current q = Some it -> current (insert q k t i) = Some it.
Proof.
  intros (c & Hc & Hi & Hlt)%current_Some. unfold current, insert. cbn [current_index items].
  rewrite Hc. cbn. rewrite lookup_insert_at by lia. nat_cases; try lia; [done|].
  by replace (S c - 1)%nat with c by lia.
Qed.

Lemma current_remove q j it : current q = Some it -> j <> id it -> current (remove q j).2 = Some it.
Proof.
  intros (c & Hc & Hi & Hlt)%current_Some Hj. unfold remove.
  destruct (position_of q j) as [k|] eqn:Hp; [|cbn [snd]; unfold current; by rewrite Hc].
  apply position_of_Some in Hp as (it' & Hk & Hid). apply lookup_lt_Some in Hk as Hkl.
  assert (k <> c) as Hne by (intros ->; rewrite Hk in Hi; congruence).
  unfold current. cbn [snd current_index items]. rewrite Hc.
  destruct (Nat.ltb_spec k c); cbn [mbind option_bind].
  - rewrite lookup_remove_at by done. nat_cases; try lia. by replace (S (c - 1)) with c by lia.
  - rewrite (proj2 (Nat.eqb_neq _ _) Hne). cbn. rewrite lookup_remove_at by done. by nat_cases; try lia.
Qed.

Lemma current_move q from to it : current q = Some it -> current (move_track q from to) = Some it.
Proof.
  intros Hcur. pose proof Hcur as (c & Hc & Hi & Hlt)%current_Some. unfold move_track.
  destruct (_ || _) eqn:Hb; [done|]. bool_to_prop. destruct (items q !! from) as [x|] eqn:Hx; [|done].
  destruct (move_items (items q) from to x Hx) as (_ & _ & Hl); [lia|].
  unfold current. cbn [current_index items]. rewrite Hc. cbn. by rewrite Hl.
Qed.

(** ** Shuffled playback *)
Fixpoint advances (n : nat) (q : PlaybackQueue) : outcome Empty_set (list QueueItem * PlaybackQueue) :=
  match n with
  | O => Ok ([], q)
  | S n =>
      '(it, q') ← advance q;
      '(l, q'') ← advances n q';
      Ok (match it with Some it => it :: l | None => l end, q'')
  end.

Lemma set_current_fields q i : (i < length (items q))%nat ->
  exists q', set_current q i = (true, q') /\ items q' = items q /\ current_index q' = Some i /\
    shuffle_order q' = shuffle_order q /\ shuffle_position q' = shuffle_position q.
Proof.
  intros Hi. unfold set_current. rewrite (proj2 (Nat.ltb_lt _ _) Hi). eexists. split; [done|].
  by destruct (current q).
Qed.

(** From position [p] of the order, the remaining entries are played one by one. *)
Lemma advances_order n : forall q o p, queue_inv q -> shuffle_order q = Some o -> shuffle_position q = p ->
  (p + 1 + n = length o)%nat ->
  exists l q', advances n q = Ok (l, q') /\ map Some l = map (fun i => items q !! i) (drop (p + 1) o) /\
    advance q' = Ok (None, q').
Proof.
  induction n as [|n IH]; intros q o p Hq Ho Hp Hn.
  - exists [], q. rewrite drop_ge by lia. split_and!; [done|done|]. unfold advance. rewrite Ho, Hp.
    by rewrite (proj2 (Nat.ltb_ge _ _)) by lia.
  - destruct (lookup_lt_is_Some_2 o (p + 1)) as [i Hi]; [lia|].
    pose proof (order_lookup q o _ i Hq Ho Hi) as Hlt.
    destruct (lookup_lt_is_Some_2 (items q) i Hlt) as [it Hit].
    pose proof (advance_spec q Hq) as Hinv. cbn [advances]. unfold advance in *. rewrite Ho, Hp in *.
    rewrite (proj2 (Nat.ltb_lt (p + 1) _)) in * by lia. unfold index_at in *. rewrite Hi in *.
    cbn [unwrap mbind outcome_bind] in *.
    destruct (set_current_fields (with_shuffle_position q (p + 1)) i Hlt) as (q' & Hs & Hitems & Hcur & Hord & Hpos).
    rewrite Hs in *. cbn [mbind outcome_bind wp snd] in *.
    assert (current q' = Some it) as Hc by (unfold current; rewrite Hcur, Hitems; exact Hit). rewrite Hc.
    destruct (IH q' o (p + 1)%nat Hinv) as (l & q'' & Hl & Hm & Hend); [by rewrite Hord|by rewrite Hpos|lia|].
    rewrite Hl. cbn [mbind outcome_bind]. exists (it :: l), q''. split_and!; [done| |exact Hend].
    rewrite (drop_S o i) by done. cbn [map]. rewrite Hm, Hit, Hitems. do 3 f_equal. lia.
Qed.

Lemma map_Some_inj {A} (l1 l2 : list A) : map Some l1 ≡ₚ map Some l2 -> l1 ≡ₚ l2.
Proof.
  assert (forall l : list A, omap (fun x => x) (map Some l) = l) as Hid.
  { intros l. induction l as [|x l IH]; [done|]. cbn. f_equal. exact IH. }
  intros H. rewrite <- (Hid l1), <- (Hid l2). by rewrite H.
Qed.

Lemma items_by_index (l : list QueueItem) : map Some l = map (fun i => l !! i) (seq 0 (length l)).
Proof.
  apply list_eq. intros i. rewrite !list_lookup_fmap. destruct (l !! i) as [x|] eqn:Hx.
  - apply lookup_lt_Some in Hx as Hlt. rewrite lookup_seq_lt by done. cbn. by rewrite Hx.
  - apply lookup_ge_None in Hx. rewrite lookup_seq_ge by done. done.
Qed.

(** ** Properties *)

(** C39: the queue invariant. In every queue reachable by any sequence of
    operations with fresh item identifiers, identifiers are unique, the current
    index is in range (so there is a current track exactly when an index is
    set), the history is within its bound and the shuffle order is a
    permutation of the indices; [advance] never panics. *)
Theorem queue_invariant (q : PlaybackQueue) (Hreach : rtc queue_step PlaybackQueue_new q) :
  queue_inv q /\ (current q = None <-> current_index q = None) /\ safe (advance q).
Proof.
  pose proof (queue_reachable_inv q Hreach) as Hq. split_and!; [done| |by eapply wp_safe, advance_spec].
  destruct Hq as (_ & Hc & _). unfold current. destruct (current_index q) as [c|]; [|done]. cbn.
  split; [|done]. rewrite lookup_ge_None. specialize (Hc c eq_refl). lia.
Qed.

(** Editing the queue does not change what is playing. Adding, inserting
    anywhere, adding next, moving any track and removing any other track keep
    the current track; a track added next is the one played by the next
    [advance] when the queue is not shuffled. *)
Theorem edits_keep_current (q : PlaybackQueue) (it : QueueItem) (Hcur : current q = Some it)
  (t : TrackInfo) (i j : Z) (k from to : nat) :
  current (add q t i) = Some it /\ current (insert q k t i) = Some it /\
  current (move_track q from to) = Some it /\
  (j <> id it -> current (remove q j).2 = Some it) /\
  current (add_next q t i) = Some it /\
  (shuffle_order q = None -> exists it' q', advance (add_next q t i) = Ok (Some it', q') /\ id it' = i /\ track it' = t).
Proof.
  split_and!; [|by apply current_insert|by apply current_move|by apply current_remove|by apply current_insert|].
  - pose proof Hcur as (c & Hc & Hi & Hlt)%current_Some. unfold current. cbn. rewrite Hc. cbn.
    by rewrite lookup_app_l.
  - intros Hs. pose proof Hcur as (c & Hc & Hi & Hlt)%current_Some. unfold add_next. rewrite Hc.
    set (q1 := insert q (S c) t i).
    assert (current_index q1 = Some c) as Hc1.
    { unfold q1, insert. cbn [current_index]. rewrite Hc, Nat.min_l by lia.
      cbn [fmap option_fmap option_map]. nat_cases; (done || lia). }
    assert (items q1 !! S c = Some (mkItem i t (length (items q)))) as Hn.
    { unfold q1, insert. cbn [items]. rewrite Nat.min_l, lookup_insert_at, Nat.eqb_refl by lia. nat_cases; (done || lia). }
    apply lookup_lt_Some in Hn as Hlt1.
    unfold advance. assert (shuffle_order q1 = None) as -> by (cbn; by rewrite Hs). rewrite Hc1.
    rewrite (proj2 (Nat.ltb_lt _ _)) by lia.
    destruct (set_current_fields q1 (c + 1)) as (q' & -> & Hitems & Hcur' & _); [lia|].
    exists (mkItem i t (length (items q))), q'. split_and!; [|done|done].
    unfold current. rewrite Hcur', Hitems. cbn [mbind option_bind]. by rewrite Nat.add_1_r, Hn.
Qed.

(** Shuffled playback is a tour. After [shuffle] with a current track, as
    many [advance] calls as there are other tracks play every other track
    exactly once, whatever the permutation drawn, and the next call reports the
    end. *)
Theorem shuffle_visits_all (q : PlaybackQueue) (it : QueueItem) (rng : list nat -> list nat)
  (Hq : queue_inv q) (Hcur : current q = Some it) (Hrng : forall l, rng l ≡ₚ l) :
  exists l q', advances (length (items q) - 1) (shuffle q rng) = Ok (l, q') /\
    it :: l ≡ₚ items q /\ advance q' = Ok (None, q').
Proof.
  pose proof Hcur as (c & Hc & Hi & Hlt)%current_Some.
  pose proof (shuffle_inv q rng Hq Hrng) as Hinv.
  assert (exists o, shuffle_order (shuffle q rng) = Some (c :: o) /\ shuffle_position (shuffle q rng) = 0%nat /\
    items (shuffle q rng) = items q) as (o & Ho & Hp & Hitems).
  { unfold shuffle. rewrite Hc. by eexists. }
  pose proof Hinv as (_ & _ & _ & Hperm). apply Hperm in Ho as Ho'. rewrite Hitems in Ho'.
  pose proof (Permutation_length Ho') as Hlen. rewrite length_seq in Hlen. cbn in Hlen.
  destruct (advances_order (length (items q) - 1) (shuffle q rng) (c :: o) 0 Hinv Ho Hp) as (l & q' & Hl & Hm & Hend);
    [cbn; lia|].
  exists l, q'. split_and!; [done| |done]. apply map_Some_inj. rewrite (items_by_index (items q)), <- Ho'.
  cbn [map]. rewrite Hm, Hi, Hitems. done.
Qed.

End Queue.

(** ** Witnesses, on a queue of three tracks *)
Definition three : PlaybackQueue (TrackInfo := nat) :=
  add (add (add PlaybackQueue_new 10%nat 1) 20%nat 2) 30%nat 3.
Definition playing : PlaybackQueue (TrackInfo := nat) := (set_current three 0).2.

Lemma three_reachable : rtc queue_step PlaybackQueue_new three.
Proof.
  do 3 (eapply rtc_r; [|apply qs_add; cbn; set_solver]). apply rtc_refl.
Qed.

Lemma queue_invariant_witness : queue_inv three /\ safe (advance three).
Proof. destruct (queue_invariant three three_reachable) as (H1 & _ & H2). split; [exact H1 | exact H2]. Defined.

Lemma edits_keep_current_witness :
  current (move_track playing 0 2) = Some (mkItem 1 10%nat 0) /\ current (remove playing 2).2 = Some (mkItem 1 10%nat 0).
Proof.
  destruct (edits_keep_current playing (mkItem 1 10%nat 0) eq_refl 5%nat 9 2 0 0 2) as (_ & _ & H1 & H2 & _).
  split; [exact H1 | apply H2; cbn; lia].
Defined.

Lemma shuffle_visits_all_witness :
  exists l q', advances 2 (shuffle playing reverse) = Ok (l, q') /\ mkItem 1 10%nat 0 :: l ≡ₚ items playing.
Proof.
  destruct (shuffle_visits_all playing (mkItem 1 10%nat 0) reverse) as (l & q' & H1 & H2 & _).
  - refine (queue_step_inv _ _ (qs_set_current three 0) _). exact (queue_reachable_inv three three_reachable).
  - reflexivity.
  - intros l. apply reverse_Permutation.
  - exists l, q'. split; [exact H1 | exact H2].
Defined.

(** Three defects of the shuffle position. It is not adjusted when tracks
    are removed, so after playing to the end of a shuffled queue of three and
    removing the two tracks already played, [previous] indexes the order out of
    range and panics; [upcoming] panics on a shuffled empty queue, where it
    slices from position one; and [previous] through the history does not move
    it back, so advancing again skips a track. *)
Theorem shuffle_position_defects :
  let played := (fun '(_, q) => q) <$> advances 2 (shuffle playing (fun l => l)) in
  (q ← played; previous (remove (remove q 1).2 2).2) = Panic /\
  upcoming (shuffle (TrackInfo := nat) PlaybackQueue_new (fun l => l)) 5 = Panic /\
  ('(_, q1) ← advance (shuffle playing (fun l => l));
   '(_, q2) ← previous q1;
   '(it, _) ← advance q2;
   Ok (current q1, current q2, it)) =
  Ok (Some (mkItem 2 20%nat 1), Some (mkItem 1 10%nat 0), Some (mkItem 3 30%nat 2)).
Proof. vm_compute. done. Qed.

End PlaybackQueue.
