(* ===== verification/BTreeMap.v ===== *)
(** * Ordered maps

    The part of [std::collections::BTreeMap] the jitter buffers use, with
    integer keys: a list of bindings in increasing order of their keys.  The
    operations are executable, and every one is related to the finite map
    [to_map] of the same bindings, so that the clients reason about the map and
    about its smallest and largest keys separately. *)

From stdpp Require Import gmap sorting.
From S2P Require Import Prelude.

Module BTreeMap.

Section Map.
Context {V : Type}.
Implicit Types (m : list (Z * V)) (k : Z) (v : V).

Fixpoint insert k v m : list (Z * V) :=
  match m with
  | [] => [(k, v)]
  | (k', v') :: m' =>
      if k <? k' then (k, v) :: m
      else if k =? k' then (k, v) :: m'
      else (k', v') :: insert k v m'
  end.

Fixpoint get k m : option V :=
  match m with
  | [] => None
  | (k', v') :: m' => if k =? k' then Some v' else get k m'
  end.

Fixpoint delete k m : list (Z * V) :=
  match m with
  | [] => []
  | (k', v') :: m' => if k =? k' then m' else (k', v') :: delete k m'
  end.

(** [remove]: the binding's value and the map without it. *)
Definition remove k m : option V * list (Z * V) := (get k m, delete k m).

Definition keys m : list Z := map fst m.
(** [keys().next()]. *)
Definition first_key m : option Z := fst <$> head m.
Definition retain (f : Z -> V -> bool) m : list (Z * V) := List.filter (fun '(k, v) => f k v) m.

Definition ok m : Prop := StronglySorted Z.lt (keys m).
Definition to_map m : gmap Z V := list_to_map m.

(** ** Order *)
Lemma ok_cons k v m : ok ((k, v) :: m) <-> ok m /\ Forall (Z.lt k) (keys m).
Proof. unfold ok, keys. cbn. rewrite StronglySorted_cons. tauto. Qed.

Lemma ok_NoDup m : ok m -> NoDup (keys m).
Proof.
  induction m as [|[k v] m IH]; [by constructor|]. intros [Hm Hk]%ok_cons. cbn. constructor; [|by apply IH].
  intros Hin. rewrite Forall_forall in Hk. specialize (Hk _ Hin). lia.
Qed.

Lemma get_lookup k m : get k m = to_map m !! k.
Proof.
  induction m as [|[k' v'] m IH]; cbn; [done|]. destruct (Z.eqb_spec k k') as [->|].
  - by rewrite lookup_insert_eq.
  - by rewrite lookup_insert_ne, IH.
Qed.

Lemma to_map_insert k v m : to_map (insert k v m) = <[k := v]> (to_map m).
Proof.
  induction m as [|[k' v'] m IH]; cbn; [done|]. destruct (Z.ltb_spec k k'); [done|].
  destruct (Z.eqb_spec k k') as [->|]; cbn.
  - by rewrite insert_insert_eq.
  - unfold to_map in IH. rewrite IH. by apply insert_insert_ne.
Qed.

Lemma elem_keys_insert k v m x : x ∈ keys (insert k v m) <-> x = k \/ x ∈ keys m.
Proof.
  induction m as [|[k' v'] m IH]; cbn; [by rewrite elem_of_cons|].
  destruct (Z.ltb_spec k k'); cbn; [by rewrite !elem_of_cons|].
  destruct (Z.eqb_spec k k') as [->|]; cbn; rewrite !elem_of_cons, ?IH; tauto.
Qed.

Lemma insert_ok k v m : ok m -> ok (insert k v m).
Proof.
  induction m as [|[k' v'] m IH]; cbn; [intros _; by repeat constructor|].
  intros [Hm Hk]%ok_cons. destruct (Z.ltb_spec k k').
  - apply ok_cons. split; [by apply ok_cons|]. cbn. constructor; [lia|].
    eapply Forall_impl; [exact Hk|]. cbn. lia.
  - destruct (Z.eqb_spec k k') as [->|]; [by apply ok_cons|].
    apply ok_cons. split; [by apply IH|]. apply Forall_forall. intros x [->|Hx]%elem_keys_insert; [lia|].
    rewrite Forall_forall in Hk. by apply Hk.
Qed.

Lemma keys_delete_sublist k m : sublist (keys (delete k m)) (keys m).
Proof.
  induction m as [|[k' v'] m IH]; cbn; [done|]. destruct (k =? k'); [by apply sublist_cons|].
  by apply sublist_skip.
Qed.

Lemma ok_sublist m m' : sublist (keys m') (keys m) -> ok m -> ok m'.
Proof.
  unfold ok. intros Hs Hm. revert Hs. generalize (keys m') as l'.
  induction Hm as [|k l Hl IH Hk]; intros l' Hs.
  - apply sublist_nil_r in Hs as ->. constructor.
  - apply sublist_cons_r in Hs as [Hs|(l'' & -> & Hs)]; [by apply IH|].
    constructor; [by apply IH|]. clear -Hs Hk. induction Hs; [done|inversion Hk; subst; by auto|inversion Hk; subst; by auto].
Qed.

Lemma delete_ok k m : ok m -> ok (delete k m).
Proof. apply ok_sublist, keys_delete_sublist. Qed.

Lemma to_map_delete k m : ok m -> to_map (delete k m) = base.delete k (to_map m).
Proof.
  induction m as [|[k' v'] m IH]; cbn; [by rewrite delete_empty|]. intros [Hm Hk]%ok_cons.
  destruct (Z.eqb_spec k k') as [->|].
  - rewrite delete_insert_eq, delete_id; [done|]. rewrite <- get_lookup.
    assert (k' ∉ keys m) as Hn.
    { intros Hin. rewrite Forall_forall in Hk. specialize (Hk _ Hin). lia. }
    rewrite get_lookup. by apply not_elem_of_list_to_map_1.
  - cbn. rewrite delete_insert_ne by done. f_equal. by apply IH.
Qed.

Lemma retain_ok f m : ok m -> ok (retain f m).
Proof.
  apply ok_sublist. induction m as [|[k v] m IH]; cbn; [done|].
  destruct (f k v); cbn; [by apply sublist_skip | by apply sublist_cons].
Qed.

Lemma retain_length f m : (length (retain f m) <= length m)%nat.
Proof. apply filter_length_le. Qed.

Lemma length_insert k v m : (length (insert k v m) <= S (length m))%nat.
Proof. induction m as [|[k' v'] m IH]; cbn; [done|]. repeat case_match; cbn; lia. Qed.

Lemma length_delete k m : (length (delete k m) <= length m)%nat.
Proof. induction m as [|[k' v'] m IH]; cbn; [done|]. case_match; cbn; lia. Qed.

Lemma length_delete_get k v m : get k m = Some v -> S (length (delete k m)) = length m.
Proof.
  induction m as [|[k' v'] m IH]; cbn; [done|]. destruct (k =? k'); cbn; [done|]. intros H. by rewrite IH.
Qed.

Lemma length_insert_new k v m : get k m = None -> length (insert k v m) = S (length m).
Proof.
  induction m as [|[k' v'] m IH]; cbn; [done|]. destruct (Z.eqb_spec k k') as [->|]; [done|].
  intros H. case_match; cbn; [done|]. by rewrite IH.
Qed.

Lemma get_Some k v m : get k m = Some v -> (k, v) ∈ m.
Proof. intros H. rewrite get_lookup in H. by apply elem_of_list_to_map_2 in H. Qed.

Lemma get_None k m : get k m = None <-> k ∉ keys m.
Proof. rewrite get_lookup. symmetry. apply not_elem_of_list_to_map. Qed.

Lemma get_None_delete k m : get k m = None -> delete k m = m.
Proof. induction m as [|[k' v] m IH]; cbn; [done|]. case_match; [done|]. intros H'. by rewrite IH. Qed.

Lemma first_key_get k m : first_key m = Some k -> exists v, get k m = Some v.
Proof. destruct m as [|[k' v] m]; cbn; [done|]. intros [= <-]. rewrite Z.eqb_refl. by exists v. Qed.

(** A map is determined by its bindings. *)
Lemma ok_ext m m' : ok m -> ok m' -> to_map m = to_map m' -> m = m'.
Proof.
  intros Hm Hm' Heq.
  assert (m ≡ₚ m') as Hp.
  { transitivity (map_to_list (to_map m)); [symmetry; apply map_to_list_to_map; by apply ok_NoDup|].
    rewrite Heq. apply map_to_list_to_map. by apply ok_NoDup. }
  clear Heq. revert m' Hm' Hp. induction m as [|[k v] m IH]; intros m' Hm' Hp.
  { apply Permutation_nil_l in Hp. done. }
  destruct m' as [|[k' v'] m']; [by apply Permutation_nil_r in Hp|].
  apply ok_cons in Hm as [Hm Hk]. apply ok_cons in Hm' as [Hm' Hk'].
  assert (forall x, x ∈ keys ((k, v) :: m) <-> x ∈ keys ((k', v') :: m')) as Hin.
  { intros x. unfold keys. by rewrite Hp. }
  rewrite Forall_forall in Hk, Hk'.
  assert (k = k') as ->.
  { pose proof (proj1 (Hin k) ltac:(left)) as H1. pose proof (proj2 (Hin k') ltac:(left)) as H2.
    cbn in H1, H2. apply elem_of_cons in H1 as [->|H1]; [done|]. apply elem_of_cons in H2 as [->|H2]; [done|].
    specialize (Hk _ H2). specialize (Hk' _ H1). lia. }
  assert ((k', v) ∈ (k', v') :: m') as [?|Hb]%elem_of_cons by (rewrite <- Hp; left).
  - simplify_eq. f_equal. apply IH; [done|done|]. by apply Permutation_cons_inv in Hp.
  - assert (k' ∈ keys m') as Hb' by (unfold keys; apply list_elem_of_fmap; by exists (k', v)).
    specialize (Hk' _ Hb'). lia.
Qed.

(** ** Folding insertions *)
Definition insert_all (l : list (Z * V)) m : list (Z * V) := foldl (fun m '(k, v) => insert k v m) m l.

Lemma insert_all_ok l m : ok m -> ok (insert_all l m).
Proof. revert m. induction l as [|[k v] l IH]; intros m Hm; [done|]. cbn. by apply IH, insert_ok. Qed.

Lemma to_map_insert_all l m : NoDup l.*1 -> to_map (insert_all l m) = list_to_map l ∪ to_map m.
Proof.
  revert m. induction l as [|[k v] l IH]; intros m Hnd; cbn; [by rewrite (left_id_L ∅ (∪))|].
  apply NoDup_cons in Hnd as [Hk Hnd]. cbn in Hk.
  change (foldl _ (insert k v m) l) with (insert_all l (insert k v m)).
  rewrite IH by done. rewrite to_map_insert. rewrite <- insert_union_l, <- insert_union_r; [done|].
  by apply not_elem_of_list_to_map_1.
Qed.

(** The order in which distinct keys are inserted does not matter. *)
Lemma insert_all_sorted (l l' : list (Z * V)) : l ≡ₚ l' -> ok l' -> insert_all l [] = l'.
Proof.
  intros Hp Hok. assert (NoDup l.*1) as Hnd by (rewrite Hp; by apply ok_NoDup).
  apply ok_ext; [apply insert_all_ok; constructor|done|].
  rewrite to_map_insert_all by done. cbn. rewrite (right_id_L ∅ (∪)).
  by apply list_to_map_proper.
Qed.

End Map.

End BTreeMap.
