(* ===== verification/JitterBuffer.v ===== *)
(** * Jitter buffer of the RAOP receiver

    Models [src/audio/jitter.rs]: packets ordered by sequence number, the play
    position, the state machine Buffering / Playing / Underrun and the
    statistics.  [Instant]s are integers in nanoseconds and [Instant::now()] is
    an argument; the [u64] counters are unbounded (2^64 packets are not
    received).  The [f64] figures of the health report (fill ratio, latency and
    loss rate) are left out: their operands are the counters modelled here. *)

From stdpp Require Import gmap sorting relations.
From S2P Require Import Prelude BTreeMap.

Module JitterBuffer.
Import BTreeMap.

Record AudioPacket := mkPacket {
  sequence : Z; timestamp : Z; ssrc : Z; audio_data : list Z; received_at : Z
}.

Record JitterBufferConfig := {
  target_depth : nat; min_depth : nat; max_depth : nat; max_age : Z
}.

Definition JitterBufferConfig_default : JitterBufferConfig :=
  {| target_depth := 50; min_depth := 10; max_depth := 200; max_age := 3000000000 |}.

Inductive BufferState := Buffering | Playing | Underrun.

#[export] Instance BufferState_eq_dec : EqDecision BufferState.
Proof. solve_decision. Defined.

Record JitterStats := mkStats {
  packets_received : Z; packets_played : Z; packets_dropped_late : Z;
  packets_dropped_overflow : Z; packets_concealed : Z; underruns : Z;
  current_depth : nat; max_depth_seen : nat
}.

Definition JitterStats_default : JitterStats := mkStats 0 0 0 0 0 0 0 0.

Record JitterBuffer := mkBuffer {
  config : JitterBufferConfig;
  packets : list (Z * AudioPacket);
  next_play_seq : option Z;
  state : BufferState;
  stats : JitterStats;
  last_receive : option Z
}.

Definition JitterBuffer_new (config : JitterBufferConfig) : JitterBuffer :=
  mkBuffer config [] None Buffering JitterStats_default None.

(** ** Field updates *)
Definition set_packets (b : JitterBuffer) m := mkBuffer (config b) m (next_play_seq b) (state b) (stats b) (last_receive b).
Definition set_next (b : JitterBuffer) n := mkBuffer (config b) (packets b) n (state b) (stats b) (last_receive b).
Definition set_state (b : JitterBuffer) s := mkBuffer (config b) (packets b) (next_play_seq b) s (stats b) (last_receive b).
Definition upd_stats (b : JitterBuffer) (f : JitterStats -> JitterStats) :=
  mkBuffer (config b) (packets b) (next_play_seq b) (state b) (f (stats b)) (last_receive b).

Definition inc_received s := mkStats (packets_received s + 1) (packets_played s) (packets_dropped_late s)
  (packets_dropped_overflow s) (packets_concealed s) (underruns s) (current_depth s) (max_depth_seen s).
Definition inc_played s := mkStats (packets_received s) (packets_played s + 1) (packets_dropped_late s)
  (packets_dropped_overflow s) (packets_concealed s) (underruns s) (current_depth s) (max_depth_seen s).
Definition inc_late s := mkStats (packets_received s) (packets_played s) (packets_dropped_late s + 1)
  (packets_dropped_overflow s) (packets_concealed s) (underruns s) (current_depth s) (max_depth_seen s).
Definition inc_overflow s := mkStats (packets_received s) (packets_played s) (packets_dropped_late s)
  (packets_dropped_overflow s + 1) (packets_concealed s) (underruns s) (current_depth s) (max_depth_seen s).
Definition inc_concealed s := mkStats (packets_received s) (packets_played s) (packets_dropped_late s)
  (packets_dropped_overflow s) (packets_concealed s + 1) (underruns s) (current_depth s) (max_depth_seen s).
Definition inc_underruns s := mkStats (packets_received s) (packets_played s) (packets_dropped_late s)
  (packets_dropped_overflow s) (packets_concealed s) (underruns s + 1) (current_depth s) (max_depth_seen s).
Definition set_depth d s := mkStats (packets_received s) (packets_played s) (packets_dropped_late s)
  (packets_dropped_overflow s) (packets_concealed s) (underruns s) d (max_depth_seen s).
Definition set_max_seen d s := mkStats (packets_received s) (packets_played s) (packets_dropped_late s)
  (packets_dropped_overflow s) (packets_concealed s) (underruns s) (current_depth s) d.

(** ** Operations *)

(** The loop over neighbouring keys, from index [i]. *)
Fixpoint gap_loop (ks : list Z) (i : nat) (max_gap : Z) (max_gap_index : nat) : Z * nat :=
  match ks with
  | a :: ((b :: _) as rest) =>
      let diff := b - a in
      if max_gap <? diff then gap_loop rest (S i) diff i else gap_loop rest (S i) max_gap max_gap_index
  | _ => (max_gap, max_gap_index)
  end.

(** The indexing never fails ([start_is_key]). *)
Definition determine_start_sequence (b : JitterBuffer) : option Z :=
  match keys (packets b) with
  | [] => None
  | [k] => Some k
  | (k0 :: _) as ks =>
      let '(max_gap, max_gap_index) := gap_loop ks 0 0 0 in
      let wrap_gap := k0 + 65536 - List.last ks 0 in
      if wrap_gap <? max_gap then ks !! (max_gap_index + 1)%nat else Some k0
  end.

Definition update_state (b : JitterBuffer) : JitterBuffer :=
  let depth := length (packets b) in
  let b :=
    match state b with
    | Buffering =>
        if (min_depth (config b) <=? depth)%nat then
          let b := set_state b Playing in
          match next_play_seq b with
          | None => set_next b (determine_start_sequence b)
          | Some _ => b
          end
        else b
    | Playing => if (depth =? 0)%nat then upd_stats (set_state b Underrun) inc_underruns else b
    | Underrun => if (min_depth (config b) <=? depth)%nat then set_state b Playing else b
    end in
  upd_stats b (set_depth depth).

(** [seq.wrapping_sub(next_seq) as i16 < 0]. *)
Definition is_late (seq : Z) (next : option Z) : bool :=
  match next with Some n => sext 16 (seq -%u16 n) <? 0 | None => false end.

(** Drop the smallest key when the buffer is full. *)
Definition make_room (b : JitterBuffer) : JitterBuffer :=
  if (max_depth (config b) <=? length (packets b))%nat then
    let b := upd_stats b inc_overflow in
    match first_key (packets b) with
    | Some oldest => set_packets b (delete oldest (packets b))
    | None => b
    end
  else b.

Definition insert (b : JitterBuffer) (packet : AudioPacket) (now : Z) : JitterBuffer :=
  let b := mkBuffer (config b) (packets b) (next_play_seq b) (state b) (inc_received (stats b)) (Some now) in
  let seq := sequence packet in
  if is_late seq (next_play_seq b) then upd_stats b inc_late
  else
    let b := make_room b in
    let b := set_packets b (BTreeMap.insert seq packet (packets b)) in
    let b := if (max_depth_seen (stats b) <? length (packets b))%nat
             then upd_stats b (set_max_seen (length (packets b))) else b in
    update_state b.

Definition handle_missing_packet (b : JitterBuffer) (missing_seq : Z) : option AudioPacket * JitterBuffer :=
  let b := upd_stats b inc_concealed in
  let skip := (None, set_next b (Some (missing_seq +%u16 1))) in
  match first_key (packets b) with
  | Some avail_seq =>
      let gap := avail_seq -%u16 missing_seq in
      if gap <? 10 then
        let b := set_next b (Some (avail_seq +%u16 1)) in
        let '(packet, m) := remove avail_seq (packets b) in
        let b := set_packets b m in
        match packet with
        | Some _ => (packet, update_state (upd_stats b inc_played))
        | None => (packet, b)
        end
      else skip
  | None => skip
  end.

Definition pop (b : JitterBuffer) : option AudioPacket * JitterBuffer :=
  if bool_decide (state b = Buffering) then (None, b)
  else
    match next_play_seq b with
    | None => (None, b)
    | Some next_seq =>
        match remove next_seq (packets b) with
        | (Some packet, m) =>
            (Some packet,
             update_state (upd_stats (set_next (set_packets b m) (Some (next_seq +%u16 1))) inc_played))
        | (None, m) => handle_missing_packet (set_packets b m) next_seq
        end
    end.

Definition is_ready (b : JitterBuffer) : bool := bool_decide (state b = Playing).
Definition depth (b : JitterBuffer) : nat := length (packets b).

Definition flush (b : JitterBuffer) : JitterBuffer := set_next (set_state (set_packets b []) Buffering) None.

Definition flush_from_timestamp (b : JitterBuffer) (rtp_time : Z) : JitterBuffer :=
  let b := set_packets b (retain (fun _ p => timestamp p <? rtp_time) (packets b)) in
  match packets b with
  | [] => set_next (set_state b Buffering) None
  | _ => b
  end.

(** [duration_since] is zero for an instant in the future. *)
Definition prune_old (b : JitterBuffer) (now : Z) : JitterBuffer :=
  set_packets b (retain (fun _ p => saturating_sub now (received_at p) <? max_age (config b)) (packets b)).

Definition is_healthy (b : JitterBuffer) : bool :=
  (min_depth (config b) / 2 <=? length (packets b))%nat && (length (packets b) <=? max_depth (config b))%nat.

(** ** Runs *)
Inductive event := EInsert (p : AudioPacket) (now : Z) | EPop | EPrune (now : Z).

Fixpoint run (b : JitterBuffer) (evs : list event) : list AudioPacket * JitterBuffer :=
  match evs with
  | [] => ([], b)
  | EInsert p now :: evs => run (insert b p now) evs
  | EPrune now :: evs => run (prune_old b now) evs
  | EPop :: evs =>
      let '(o, b) := pop b in
      let '(out, b) := run b evs in
      (option_list o ++ out, b)
  end.

Fixpoint pops (evs : list event) : Z :=
  match evs with
  | [] => 0
  | EPop :: evs => 1 + pops evs
  | _ :: evs => pops evs
  end.

Inductive jb_step (b : JitterBuffer) : JitterBuffer -> Prop :=
| step_insert p now : uint 16 (sequence p) -> jb_step b (insert b p now)
| step_pop : jb_step b (pop b).2
| step_flush : jb_step b (flush b)
| step_flush_from t : jb_step b (flush_from_timestamp b t)
| step_prune now : jb_step b (prune_old b now).

(** ** Invariant *)
Definition keyed (m : list (Z * AudioPacket)) : Prop :=
  Forall (fun '(k, p) => sequence p = k /\ uint 16 k) m.

(** Every packet received is accounted for at most once. *)
Definition total (b : JitterBuffer) : Z :=
  packets_played (stats b) + packets_dropped_late (stats b) + packets_dropped_overflow (stats b)
    + Z.of_nat (length (packets b)).
Definition accounted (b : JitterBuffer) : Prop := total b <= packets_received (stats b).

Record jb_inv (b : JitterBuffer) : Prop := {
  inv_ok : ok (packets b);
  inv_keyed : keyed (packets b);
  inv_depth : (length (packets b) <= max_depth (config b))%nat;
  inv_next : forall n, next_play_seq b = Some n -> uint 16 n;
  inv_started : state b <> Buffering -> next_play_seq b <> None;
  inv_accounted : accounted b
}.

Lemma keyed_delete k m : keyed m -> keyed (delete k m).
Proof. unfold keyed. induction m as [|[k' v] m IH]; cbn; [done|]. intros [? ?]%Forall_cons. case_match; [done|]. by constructor; [|apply IH]. Qed.

Lemma keyed_insert p m : uint 16 (sequence p) -> keyed m -> keyed (BTreeMap.insert (sequence p) p m).
Proof.
  unfold keyed. intros Hp. induction m as [|[k' v] m IH]; cbn; [intros _; by constructor|].
  intros [Hv Hm]%Forall_cons. repeat case_match; repeat apply Forall_cons_2; auto.
Qed.

Lemma keyed_retain f m : keyed m -> keyed (retain f m).
Proof. unfold keyed. induction m as [|[k' v] m IH]; cbn; [done|]. intros [? ?]%Forall_cons. case_match; [|by apply IH]. by constructor; [|apply IH]. Qed.

Lemma keyed_get k m p : keyed m -> get k m = Some p -> sequence p = k /\ uint 16 k.
Proof. intros Hm Hg%get_Some. unfold keyed in Hm. rewrite Forall_forall in Hm. exact (Hm _ Hg). Qed.

(** *** The start sequence *)
Lemma gap_loop_index ks i g x g' x' : gap_loop ks i g x = (g', x') -> 0 <= g ->
  (g' = g /\ x' = x) \/ (0 < g' /\ (i <= x' < i + length ks - 1)%nat).
Proof.
  revert i g x. induction ks as [|a [|c ks] IH]; intros i g x H Hg; cbn in H; [left; by simplify_eq|left; by simplify_eq|].
  destruct (Z.ltb_spec g (c - a)).
  - apply IH in H as [[-> ->]|[? ?]]; [|right|lia]; [right|]; cbn in *; lia.
  - apply IH in H as [[-> ->]|[? ?]]; [by left|right; cbn in *; lia|done].
Qed.

Lemma last_keys_elem (k : Z) ks : List.last (k :: ks) 0 ∈ k :: ks.
Proof.
  revert k. induction ks as [|c ks IH]; intros k; [left|]. cbn [List.last]. right. apply IH.
Qed.

Lemma start_is_key b : packets b <> [] -> keyed (packets b) ->
  exists k, determine_start_sequence b = Some k /\ k ∈ keys (packets b).
Proof.
  intros Hne Hk. unfold determine_start_sequence. destruct (keys (packets b)) as [|k0 [|k1 ks]] eqn:Hks.
  - destruct (packets b); done.
  - exists k0. split; [done|left].
  - destruct (gap_loop (k0 :: k1 :: ks) 0 0 0) as [g x] eqn:Hg.
    assert (forall k, k ∈ k0 :: k1 :: ks -> uint 16 k) as Hu.
    { intros k Hin. rewrite <- Hks in Hin. unfold keys in Hin. apply list_elem_of_fmap in Hin as ([k' v] & -> & Hin).
      unfold keyed in Hk. rewrite Forall_forall in Hk. apply (Hk _ Hin). }
    pose proof (Hu k0 ltac:(left)) as H0. pose proof (Hu _ (last_keys_elem k0 (k1 :: ks))) as Hl.
    unfold uint in H0, Hl. destruct (Z.ltb_spec (k0 + 65536 - List.last (k0 :: k1 :: ks) 0) g) as [Hlt|]; [|by exists k0; split; [|left]].
    apply gap_loop_index in Hg as [[-> ->]|[_ Hx]]; [lia| |lia].
    destruct ((k0 :: k1 :: ks) !! (x + 1)%nat) as [k|] eqn:Hlook.
    + exists k. split; [done|]. by eapply list_elem_of_lookup_2.
    + apply lookup_ge_None in Hlook. cbn in *. lia.
Qed.

Lemma key_uint b k : keyed (packets b) -> k ∈ keys (packets b) -> uint 16 k.
Proof.
  intros Hk Hin. unfold keys in Hin. apply list_elem_of_fmap in Hin as ([k' v] & -> & Hin).
  unfold keyed in Hk. rewrite Forall_forall in Hk. apply (Hk _ Hin).
Qed.

(** *** Preservation *)
Lemma update_state_fields b : packets (update_state b) = packets b /\ config (update_state b) = config b /\
  (next_play_seq b <> None -> next_play_seq (update_state b) = next_play_seq b) /\
  (accounted b -> accounted (update_state b)).
Proof. unfold update_state. repeat case_match; cbn; split_and!; done. Qed.

Lemma update_state_next b :
  (next_play_seq (update_state b) = next_play_seq b /\
   (state (update_state b) <> Buffering -> state b <> Buffering \/ next_play_seq b <> None)) \/
  (next_play_seq (update_state b) = determine_start_sequence b /\ state b = Buffering).
Proof.
  unfold update_state. destruct b as [cfg m nx [] st lr]; cbn; repeat case_match; cbn; auto; left; split; auto.
Qed.

Lemma update_state_inv b : ok (packets b) -> keyed (packets b) -> (length (packets b) <= max_depth (config b))%nat ->
  (forall n, next_play_seq b = Some n -> uint 16 n) -> (state b <> Buffering -> next_play_seq b <> None) ->
  accounted b -> packets b <> [] \/ state b <> Buffering -> jb_inv (update_state b).
Proof.
  intros H1 H2 H3 H4 H5 H6 H7. destruct (update_state_fields b) as (Hp & Hc & _ & Ha).
  split; rewrite ?Hp, ?Hc; auto; destruct (update_state_next b) as [[-> Hs]|[-> Hs]]; auto.
  - destruct H7 as [H7|]; [|done]. destruct (start_is_key b H7 H2) as (k & -> & Hin).
    intros n [= <-]. by apply (key_uint b).
  - intros [?|?]%Hs; auto.
  - destruct H7 as [H7|]; [|done]. by destruct (start_is_key b H7 H2) as (k & -> & _).
Qed.

Lemma make_room_spec b : (1 <= max_depth (config b))%nat -> jb_inv b ->
  jb_inv (make_room b) /\ (length (packets (make_room b)) < max_depth (config b))%nat /\
  config (make_room b) = config b /\ state (make_room b) = state b /\
  next_play_seq (make_room b) = next_play_seq b /\ total (make_room b) = total b /\
  packets_received (stats (make_room b)) = packets_received (stats b).
Proof.
  intros Hm Hb. unfold make_room. destruct (Nat.leb_spec (max_depth (config b)) (length (packets b))); [|done].
  destruct (first_key (packets b)) as [k|] eqn:Hf; cbn [packets upd_stats]; rewrite Hf.
  - apply first_key_get in Hf as (v & Hv). apply length_delete_get in Hv as Hl. destruct Hb as [H1 H2 H3 H4 H5 H6].
    unfold accounted, total in *. cbn. split_and!; try done; [|lia|lia]. split; cbn; auto.
    + by apply delete_ok. + by apply keyed_delete. + lia. + unfold accounted, total in *. cbn. lia.
  - destruct (packets b) as [|[k v] m] eqn:Hp; cbn in *; [lia|done].
Qed.

Lemma insert_nonempty {V} k (v : V) m : BTreeMap.insert k v m <> [].
Proof. destruct m as [|[k' v'] m]; cbn; repeat case_match; done. Qed.

Lemma jb_insert_inv b p now : (1 <= max_depth (config b))%nat -> uint 16 (sequence p) -> jb_inv b -> jb_inv (insert b p now).
Proof.
  intros Hm Hp Hb. unfold insert. cbv zeta. cbn [next_play_seq].
  set (b0 := mkBuffer (config b) (packets b) (next_play_seq b) (state b) (inc_received (stats b)) (Some now)).
  assert (total b0 + 1 <= packets_received (stats b0)) as Ha.
  { destruct Hb as [_ _ _ _ _ H6]. unfold accounted, total in *. cbn. lia. }
  assert (jb_inv b0) as Hb0 by (destruct Hb; split; auto; unfold accounted; lia).
  destruct (is_late _ _).
  { destruct Hb; split; auto. unfold accounted, total in *. cbn in *. lia. }
  destruct (make_room_spec b0 Hm Hb0) as (Hr & Hl & Hc & Hs & Hn & Ht & Hrec). clearbody b0.
  destruct Hr as [H1 H2 H3 H4 H5 H6]. pose proof (length_insert (sequence p) p (packets (make_room b0))) as Hlen.
  apply update_state_inv; case_match; cbn; rewrite ?Hc in *; auto using insert_ok, keyed_insert;
    try lia; unfold accounted, total in *; cbn in *; try lia; left; apply insert_nonempty.
Qed.

Lemma delete_inv b k n p : jb_inv b -> state b <> Buffering -> get k (packets b) = Some p -> uint 16 n ->
  jb_inv (update_state (upd_stats (set_packets (set_next b (Some n)) (delete k (packets b))) inc_played)).
Proof.
  intros Hb Hs Hg Hn. apply length_delete_get in Hg as Hl. destruct Hb as [H1 H2 H3 H4 H5 H6].
  apply update_state_inv; cbn; auto using delete_ok, keyed_delete; try lia; [congruence|].
  unfold accounted, total in *. cbn. lia.
Qed.

Lemma conceal_inv b n : jb_inv b -> uint 16 n -> jb_inv (set_next (upd_stats (set_packets b (packets b)) inc_concealed) (Some n)).
Proof. intros [H1 H2 H3 H4 H5 H6] Hn. split; cbn; auto. congruence. Qed.

(** What [pop] does, by cases: nothing, play the expected packet, conceal a gap
    below ten by the first buffered packet, or conceal one packet. *)
Lemma pop_cases b : jb_inv b ->
  (pop b = (None, b)) \/
  exists n, next_play_seq b = Some n /\ state b <> Buffering /\
   ((exists g p b', 0 <= g < 10 /\ get (n +%u16 g) (packets b) = Some p /\ pop b = (Some p, b') /\
       next_play_seq b' = Some (n +%u16 (g + 1)) /\ jb_inv b' /\
       packets b' = delete (n +%u16 g) (packets b)) \/
    (exists b', pop b = (None, b') /\ next_play_seq b' = Some (n +%u16 1) /\ jb_inv b' /\ packets b' = packets b)).
Proof.
  intros Hb. unfold pop. destruct (bool_decide_reflect (state b = Buffering)) as [|Hs]; [by left|].
  destruct (next_play_seq b) as [n|] eqn:Hn; [|by left]. right. exists n. split_and!; [done|done|].
  pose proof (inv_next _ Hb n Hn) as Hu. assert (n +%u16 0 = n) as Hn0.
  { unfold wrapping_add. rewrite Z.add_0_r. by apply wrap_small. }
  unfold remove. destruct (get n (packets b)) as [p|] eqn:Hg.
  - left. exists 0, p. eexists. split_and!; [lia|lia|by rewrite Hn0|reflexivity| | |].
    + rewrite (proj1 (proj2 (proj2 (update_state_fields _)))); [done|done].
    + apply (delete_inv b n _ p); auto with rust lia.
    + by rewrite (proj1 (update_state_fields _)), Hn0.
  - rewrite (get_None_delete n) by done. unfold handle_missing_packet. cbv zeta. cbn [packets upd_stats set_packets].
    assert (uint 16 (n +%u16 1)) as Hu1 by auto with rust lia.
    destruct (first_key (packets b)) as [k|] eqn:Hf.
    + destruct (Z.ltb_spec (k -%u16 n) 10) as [Hlt|].
      * left. apply first_key_get in Hf as (p & Hp). destruct (keyed_get k _ p (inv_keyed _ Hb) Hp) as [_ Hk].
        pose proof (wrapping_sub_range 16 k n ltac:(lia)) as [Hge _].
        assert (n +%u16 (k -%u16 n) = k) as Hkn by (unfold wrapping_add; rewrite Z.add_comm; by apply wrapping_add_sub).
        exists (k -%u16 n), p. cbn [packets set_next upd_stats set_packets]. unfold remove. rewrite Hp, Hkn. eexists.
        split_and!; [done|done|done|reflexivity| | |].
        -- rewrite (proj1 (proj2 (proj2 (update_state_fields _)))) by done. cbn. by rewrite <- wrapping_add_assoc, Hkn.
        -- apply (delete_inv (upd_stats b inc_concealed) k _ p); auto with rust lia.
           destruct Hb; by split.
        -- by rewrite (proj1 (update_state_fields _)).
      * right. eexists. split_and!; [reflexivity|done|by apply conceal_inv|done].
    + right. eexists. split_and!; [reflexivity|done|by apply conceal_inv|done].
Qed.

Lemma pop_inv b : jb_inv b -> jb_inv (pop b).2.
Proof.
  intros Hb. destruct (pop_cases b Hb) as [->|(n & _ & _ & [(g & p & b' & _ & _ & -> & _ & H & _)|(b' & -> & _ & H & _)])]; done.
Qed.

Lemma retain_inv b f : jb_inv b -> jb_inv (set_packets b (retain f (packets b))).
Proof.
  intros [H1 H2 H3 H4 H5 H6]. pose proof (retain_length f (packets b)). unfold accounted, total in *.
  split; cbn; auto using retain_ok, keyed_retain; [lia|]. unfold accounted, total in *. cbn. lia.
Qed.

Lemma flush_inv b : jb_inv b -> jb_inv (flush b).
Proof.
  intros [H1 H2 H3 H4 H5 H6]. split; cbn; try done; [constructor|constructor|lia|].
  unfold accounted, total in *. cbn. lia.
Qed.

Lemma flush_from_inv b t : jb_inv b -> jb_inv (flush_from_timestamp b t).
Proof.
  intros Hb. apply (retain_inv b (fun _ p => timestamp p <? t)) in Hb. unfold flush_from_timestamp. cbv zeta.
  revert Hb. generalize (set_packets b (retain (fun _ p => timestamp p <? t) (packets b))) as b'.
  intros b' Hb. destruct (packets b') eqn:Hp; [|done]. destruct Hb as [H1 H2 H3 H4 H5 H6]. split; cbn; try done.
Qed.

Lemma insert_config b p now : config (insert b p now) = config b.
Proof.
  unfold insert, make_room. cbv zeta. case_match; [done|]. rewrite (proj1 (proj2 (update_state_fields _))).
  repeat case_match; done.
Qed.

Lemma pop_config b : config (pop b).2 = config b.
Proof.
  unfold pop, handle_missing_packet, remove. cbv zeta. repeat case_match; simplify_eq; try done;
    cbn [snd]; by rewrite (proj1 (proj2 (update_state_fields _))).
Qed.

Lemma jb_step_inv b b' : (1 <= max_depth (config b))%nat -> jb_step b b' -> jb_inv b -> jb_inv b' /\ config b' = config b.
Proof.
  intros Hm [p now Hp| | |t|now] Hb; split;
    auto using jb_insert_inv, pop_inv, flush_inv, flush_from_inv, insert_config, pop_config.
  - unfold flush_from_timestamp. by case_match.
  - by apply retain_inv.
Qed.

Lemma jb_reachable_inv cfg b : (1 <= max_depth cfg)%nat -> rtc jb_step (JitterBuffer_new cfg) b ->
  jb_inv b /\ config b = cfg.
Proof.
  intros Hm H. apply (rtc_ind_r (R := jb_step) (fun b => jb_inv b /\ config b = cfg) (JitterBuffer_new cfg)); [|intros b1 b2 _ Hs [Hb <-]|exact H].
  - split; [|done]. split; cbn; try done; [constructor|constructor|lia].
  - by apply jb_step_inv.
Qed.

(** *** Runs *)
Lemma sequence_distinct n (us : list Z) bound : bound <= 65536 -> StronglySorted Z.lt us ->
  Forall (fun u => 0 <= u < bound) us -> NoDup (map (fun u => n +%u16 u) us).
Proof.
  intros Hb Hs Hr. apply NoDup_fmap_2_strong.
  - rewrite Forall_forall in Hr. intros u v Hu%Hr Hv%Hr. apply wrapping_add_inj; unfold uint; lia.
  - clear Hr. induction Hs as [|u us Hs IH Hu]; constructor; [|done]. intros Hin.
    rewrite Forall_forall in Hu. specialize (Hu _ Hin). lia.
Qed.

Lemma insert_next b p now n : next_play_seq b = Some n -> next_play_seq (insert b p now) = Some n.
Proof.
  intros Hn. unfold insert, make_room. cbv zeta. case_match; [done|].
  rewrite (proj1 (proj2 (proj2 (update_state_fields _)))); repeat case_match; cbn; congruence.
Qed.

Lemma shift_positions n d k (us : list Z) : 0 <= d -> StronglySorted Z.lt us -> Forall (fun u => 0 <= u < k) us ->
  map (fun u => n +%u16 d +%u16 u) us = map (fun u => n +%u16 u) (map (Z.add d) us) /\
  StronglySorted Z.lt (map (Z.add d) us) /\ Forall (fun u => d <= u < d + k) (map (Z.add d) us).
Proof.
  intros Hd Hs Hr. split_and!.
  - rewrite List.map_map. apply map_ext. intros u. apply wrapping_add_assoc.
  - clear Hr. induction Hs as [|u us Hs IH Hu]; cbn; constructor; [done|].
    rewrite Forall_map. eapply Forall_impl; [exact Hu|]. cbn. lia.
  - rewrite Forall_map. eapply Forall_impl; [exact Hr|]. cbn. lia.
Qed.

Definition valid_event (e : event) : Prop :=
  match e with EInsert p _ => uint 16 (sequence p) | _ => True end.

Lemma pops_nonneg evs : 0 <= pops evs.
Proof. induction evs as [|[] evs IH]; cbn; lia. Qed.

Lemma Forall_bound (us : list Z) lo hi hi' : 0 <= lo -> hi <= hi' ->
  Forall (fun u => lo <= u < hi) us -> Forall (fun u => 0 <= u < hi') us.
Proof. intros ? ? H. eapply Forall_impl; [exact H|]. cbn. lia. Qed.

Lemma run_order evs : forall b n out b', jb_inv b -> (1 <= max_depth (config b))%nat -> next_play_seq b = Some n ->
  Forall valid_event evs -> run b evs = (out, b') ->
  exists us, map sequence out = map (fun u => n +%u16 u) us /\ StronglySorted Z.lt us /\
    Forall (fun u => 0 <= u < 10 * pops evs) us.
Proof.
  induction evs as [|e evs IH]; intros b n out b' Hb Hm Hn Hev Hrun.
  { exists []. cbn in Hrun. simplify_eq. split_and!; constructor. }
  apply Forall_cons in Hev as [He Hev]. destruct e as [p now| |now]; cbn [run pops] in *.
  - eapply (IH (insert b p now)); [by apply jb_insert_inv|by rewrite insert_config|by apply insert_next|done|done].
  - pose proof (pop_config b) as Hc. pose proof (pops_nonneg evs).
    destruct (pop_cases b Hb) as [Hp|(n' & Hn' & _ & [(g & p & b1 & Hg & Hget & Hp & Hn1 & Hb1 & _)|(b1 & Hp & Hn1 & Hb1 & _)])];
      rewrite Hp in Hc, Hrun; cbn in Hc, Hrun; try rewrite <- Hc in Hm;
      [|rewrite Hn in Hn'; injection Hn' as <-..];
      match type of Hrun with context [run ?b0 evs] => destruct (run b0 evs) as [out1 b2] eqn:Hr end;
      simplify_eq Hrun; intros <- <-.
    + destruct (IH b n out1 b2) as (us & H1 & H2 & H3); [done..|]. exists us. split_and!; [done|done|].
      eapply Forall_bound, H3; lia.
    + destruct (IH b1 _ out1 b2 Hb1 Hm Hn1 Hev Hr) as (us & H1 & H2 & H3).
      destruct (shift_positions n (g + 1) _ us ltac:(lia) H2 H3) as (E1 & E2 & E3).
      exists (g :: map (Z.add (g + 1)) us). split_and!.
      * cbn. rewrite H1, E1. f_equal. exact (proj1 (keyed_get _ _ _ (inv_keyed _ Hb) Hget)).
      * constructor; [done|]. eapply Forall_impl; [exact E3|]. cbn. lia.
      * constructor; [lia|]. eapply Forall_bound, E3; lia.
    + destruct (IH b1 _ out1 b2 Hb1 Hm Hn1 Hev Hr) as (us & H1 & H2 & H3).
      destruct (shift_positions n 1 _ us ltac:(lia) H2 H3) as (E1 & E2 & E3).
      exists (map (Z.add 1) us). split_and!; [cbn; by rewrite H1, E1|done|]. eapply Forall_bound, E3; lia.
  - eapply (IH (prune_old b now)); [by apply retain_inv|done|done|done|done].
Qed.

(** *** The start of a set of packets *)
Definition start_of (ks : list Z) : option Z :=
  match ks with
  | [] => None
  | [k] => Some k
  | (k0 :: _) as ks =>
      let '(max_gap, max_gap_index) := gap_loop ks 0 0 0 in
      if k0 + 65536 - List.last ks 0 <? max_gap then ks !! (max_gap_index + 1)%nat else Some k0
  end.

Lemma start_of_spec b : determine_start_sequence b = start_of (keys (packets b)).
Proof. unfold determine_start_sequence, start_of. destruct (keys (packets b)) as [|k0 [|k1 ks]]; reflexivity. Qed.

Lemma gap_loop_keeps D a ks : forall i g x, Forall (fun k => a <= k < a + D) ks -> D <= g -> gap_loop ks i g x = (g, x).
Proof.
  induction ks as [|k [|k' ks] IH]; intros i g x Hf Hg; [done|done|]. apply Forall_cons in Hf as [Hk Hf]. pose proof Hf as [Hk' _]%Forall_cons.
  cbn [gap_loop]. rewrite (proj2 (Z.ltb_ge _ _)) by lia. by apply (IH (S i)).
Qed.

Lemma gap_loop_below D a ks : forall i g x, Forall (fun k => a <= k < a + D) ks -> g < D -> fst (gap_loop ks i g x) < D.
Proof.
  induction ks as [|k [|k' ks] IH]; intros i g x Hf Hg; [done|done|]. apply Forall_cons in Hf as [Hk Hf]. pose proof Hf as [Hk' _]%Forall_cons.
  cbn [gap_loop]. case_match; apply (IH (S i)); (done || lia).
Qed.

Lemma gap_loop_jump D a low : forall s high x i g y, Forall (fun k => a <= k < a + D) (low ++ [x]) -> Forall (fun k => s <= k < s + D) (s :: high) ->
  g < D -> D <= s - x -> gap_loop (low ++ x :: s :: high) i g y = (s - x, (i + length low)%nat).
Proof.
  induction low as [|k low IH]; intros s high x i g y Hl Hh Hg Hd.
  - cbn [app gap_loop length]. rewrite (proj2 (Z.ltb_lt _ _)), Nat.add_0_r by lia. by apply (gap_loop_keeps D s (s :: high)).
  - cbn [app] in Hl. apply Forall_cons in Hl as [Hk Hl].
    assert (exists k' rest, low ++ x :: s :: high = k' :: rest /\ a <= k' < a + D) as (k' & rest & E & Hk').
    { destruct low as [|k' low]; cbn in *; [apply Forall_cons in Hl as [? _]; eauto|apply Forall_cons in Hl as [? _]; eauto]. }
    pose proof (fun g y => IH s high x (S i) g y Hl Hh) as IH'. cbn [app gap_loop length]. rewrite E in *.
    replace (i + S (length low))%nat with (S i + length low)%nat by lia. case_match; apply IH'; lia.
Qed.

Lemma last_app_cons (l : list Z) x r d : List.last (l ++ x :: r) d = List.last (x :: r) d.
Proof. induction l as [|a l IH]; [done|]. destruct l; cbn in *; done. Qed.

(** Sorted keys less than half the circle ahead of [s]: those below [s] have wrapped. *)
Lemma around low high s : uint 16 s -> StronglySorted Z.lt (low ++ s :: high) -> Forall (uint 16) (low ++ s :: high) ->
  (forall k, k ∈ low ++ s :: high -> (k - s) mod 65536 < 32768) ->
  Forall (fun k => 0 <= k /\ k < s - 32768) low /\ Forall (fun k => s <= k < s + 32768) (s :: high).
Proof.
  intros Hs Hsort Hu Hd. rewrite Forall_forall in Hu. unfold uint in *. change (2 ^ 16) with 65536 in *. split; apply Forall_forall; intros k Hk.
  - pose proof (StronglySorted_app_1_elem_of _ _ _ k s Hsort Hk ltac:(left)). specialize (Hu k ltac:(set_solver)). specialize (Hd k ltac:(set_solver)).
    rewrite <- (Z_mod_plus_full _ 1), Z.mod_small in Hd by lia. lia.
  - apply StronglySorted_app_1_r in Hsort. apply StronglySorted_inv in Hsort as [_ Hf]. rewrite Forall_forall in Hf.
    apply elem_of_cons in Hk as [->|Hk]; [lia|]. specialize (Hf k Hk). specialize (Hu k ltac:(set_solver)). specialize (Hd k ltac:(set_solver)).
    rewrite Z.mod_small in Hd by lia. lia.
Qed.

Lemma start_of_long k0 k1 ks : start_of (k0 :: k1 :: ks) =
  let '(mg, i) := gap_loop (k0 :: k1 :: ks) 0 0 0 in
  if k0 + 65536 - List.last (k0 :: k1 :: ks) 0 <? mg then (k0 :: k1 :: ks) !! (i + 1)%nat else Some k0.
Proof. reflexivity. Qed.

Lemma start_found ks s : uint 16 s -> StronglySorted Z.lt ks -> Forall (uint 16) ks -> s ∈ ks ->
  (forall k, k ∈ ks -> (k - s) mod 65536 < 32768) -> start_of ks = Some s.
Proof.
  intros Hs Hsort Hu Hin Hd. apply list_elem_of_split in Hin as (low & high & ->). destruct (around low high s Hs Hsort Hu Hd) as [Hl Hh].
  assert (s <= List.last (s :: high) 0 < s + 32768) as Hlast by (pose proof Hh as Hf; rewrite Forall_forall in Hf; apply Hf, last_keys_elem).
  destruct low as [|k0 low].
  - cbn [app]. destruct high as [|k1 high]; [done|]. rewrite start_of_long.
    pose proof (gap_loop_below 32768 s (s :: k1 :: high) 0 0 0 Hh ltac:(lia)) as Hg. destruct (gap_loop _ _ _ _) as [g x]. cbn [fst] in Hg.
    rewrite (proj2 (Z.ltb_ge _ _)); [done|]. lia.
  - destruct (exists_last (l := k0 :: low)) as (l & x & E); [done|].
    assert (0 <= k0 <= x /\ x < s - 32768) as Hx.
    { assert (x ∈ k0 :: low) as Hx by (rewrite E; set_solver). pose proof Hl as Hl'. rewrite Forall_forall in Hl'. pose proof (Hl' x Hx). pose proof (Hl' k0 ltac:(left)).
      apply StronglySorted_app_1_l in Hsort. apply StronglySorted_inv in Hsort as [_ Hf]. rewrite Forall_forall in Hf.
      apply elem_of_cons in Hx as [->|Hx]; [lia|]. specialize (Hf x Hx). lia. }
    assert (exists k1 ks, low ++ s :: high = k1 :: ks) as (k1 & ks & Ek) by (destruct low; cbn; eauto).
    pose proof (start_of_long k0 k1 ks) as Hst. rewrite <- Ek in Hst. change (k0 :: low ++ s :: high) with ((k0 :: low) ++ s :: high) in Hst. rewrite Hst.
    rewrite last_app_cons, E, <- app_assoc. cbn [app]. rewrite E in Hl.
    rewrite (gap_loop_jump 32768 0); [|eapply Forall_impl; [exact Hl|cbn; unfold uint in Hs; lia]|done|lia|lia].
    rewrite (proj2 (Z.ltb_lt _ _)) by lia. change (x :: s :: high) with ([x] ++ s :: high). rewrite app_assoc.
    rewrite lookup_app_r by (rewrite length_app; cbn; lia). rewrite length_app. cbn [length]. by replace (0 + length l + 1 - (length l + 1))%nat with 0%nat by lia.
Qed.

(** *** Streams whose packets come in time *)

(** What happens to the buffer: the [i]-th packet of the stream arrives, or one is taken. *)
Inductive arrival := Arrive (i : nat) (now : Z) | Take.

Definition event_of (stream : nat -> AudioPacket) (a : arrival) : event :=
  match a with Arrive i now => EInsert (stream i) now | Take => EPop end.

(** [waiting] are the packets that have arrived and were not taken, [next] is the one
    whose turn it is.  No packet comes twice, after its turn or half the number space
    ahead, there is room for it; the first packet is there when playing starts, and every
    other one when its turn comes. *)
Fixpoint in_time (cfg : JitterBufferConfig) (waiting : gset nat) (next : nat) (started : bool) (evs : list arrival) : bool :=
  match evs with
  | [] => true
  | Arrive i _ :: evs =>
      let waiting' := {[i]} ∪ waiting in
      let started' := started || (min_depth cfg <=? size waiting')%nat in
      negb (bool_decide (i ∈ waiting)) && (next <=? i)%nat && (Z.of_nat i <? Z.of_nat next + 32768) && (size waiting <? max_depth cfg)%nat &&
      (started || negb started' || bool_decide (0%nat ∈ waiting')) && in_time cfg waiting' next started' evs
  | Take :: evs =>
      if started then bool_decide (next ∈ waiting) && in_time cfg (waiting ∖ {[next]}) (S next) true evs
      else in_time cfg waiting next false evs
  end.

(** The number of packets taken after [min_depth] have arrived. *)
Fixpoint turns (cfg : JitterBufferConfig) (arrived : nat) (evs : list arrival) : nat :=
  match evs with
  | [] => 0
  | Arrive _ _ :: evs => turns cfg (S arrived) evs
  | Take :: evs => (if (1 <=? arrived)%nat && (min_depth cfg <=? arrived)%nat then 1 else 0) + turns cfg arrived evs
  end.

Definition losses (b : JitterBuffer) : Z * Z * Z :=
  (packets_dropped_late (stats b), packets_dropped_overflow (stats b), packets_concealed (stats b)).

Lemma update_state_counts b : losses (update_state b) = losses b /\ packets_played (stats (update_state b)) = packets_played (stats b).
Proof. unfold update_state. repeat case_match; done. Qed.

Lemma get_insert {V} k k' (v : V) m : get k (BTreeMap.insert k' v m) = if decide (k = k') then Some v else get k m.
Proof. rewrite !get_lookup, to_map_insert. case_decide as E; [subst; apply lookup_insert_eq|by apply lookup_insert_ne]. Qed.
Lemma get_delete {V} k k' (m : list (Z * V)) : ok m -> get k (delete k' m) = if decide (k = k') then None else get k m.
Proof. intros H. rewrite !get_lookup, to_map_delete by done. case_decide as E; [subst; apply lookup_delete_eq|by apply lookup_delete_ne]. Qed.

Definition insert_packets (b : JitterBuffer) (ps : list (AudioPacket * Z)) : JitterBuffer :=
  foldl (fun b '(p, now) => insert b p now) b ps.

Lemma update_state_start b : state b = Buffering -> next_play_seq b = None ->
  (state (update_state b), next_play_seq (update_state b)) =
    if (min_depth (config b) <=? length (packets b))%nat then (Playing, start_of (keys (packets b))) else (Buffering, None).
Proof.
  intros Hs Hn. unfold update_state. rewrite Hs. destruct (Nat.leb _ _).
  - cbn. by rewrite Hn, <- start_of_spec.
  - cbn. by rewrite Hs, Hn.
Qed.

Section Stream.
Context (cfg : JitterBufferConfig) (s : Z) (stream : nat -> AudioPacket).
Hypothesis (Hs : uint 16 s) (Hstream : forall i, sequence (stream i) = s +%u16 Z.of_nat i).

Definition near (n i : nat) : Prop := (n <= i)%nat /\ Z.of_nat i < Z.of_nat n + 32768.

Lemma ahead n i : near n i -> (s +%u16 Z.of_nat i) -%u16 (s +%u16 Z.of_nat n) = Z.of_nat i - Z.of_nat n.
Proof.
  intros [H1 H2]. unfold wrapping_add, wrapping_sub, wrap. change (2 ^ 16) with 65536. rewrite <- Zminus_mod.
  replace (s + Z.of_nat i - (s + Z.of_nat n)) with (Z.of_nat i - Z.of_nat n) by lia. apply Z.mod_small. lia.
Qed.

Lemma near_inj n i j : near n i -> near n j -> s +%u16 Z.of_nat i = s +%u16 Z.of_nat j -> i = j.
Proof. intros Hi Hj E. pose proof (ahead n i Hi) as H1. pose proof (ahead n j Hj) as H2. rewrite E in H1. lia. Qed.

Lemma near_on_time n i : near n i -> is_late (s +%u16 Z.of_nat i) (Some (s +%u16 Z.of_nat n)) = false.
Proof.
  intros H. unfold is_late. rewrite ahead by done. destruct H as [H1 H2]. unfold sext. change (2 ^ 16) with 65536. change (2 ^ (16 - 1)) with 32768.
  rewrite Z.mod_small by lia. apply Z.ltb_ge. lia.
Qed.

Record holds (b : JitterBuffer) (waiting : gset nat) (next : nat) (started : bool) : Prop := {
  hold_ok : ok (packets b);
  hold_config : config b = cfg;
  hold_size : length (packets b) = size waiting;
  hold_near : forall i, i ∈ waiting -> near next i;
  hold_get : forall i, i ∈ waiting -> get (s +%u16 Z.of_nat i) (packets b) = Some (stream i);
  hold_keys : forall k, k ∈ keys (packets b) -> exists i, i ∈ waiting /\ k = s +%u16 Z.of_nat i;
  hold_state : if started then state b <> Buffering /\ next_play_seq b = Some (s +%u16 Z.of_nat next)
               else state b = Buffering /\ next_play_seq b = None /\ next = 0%nat;
  hold_losses : losses b = (0, 0, 0)
}.
Lemma insert_in_time b p now : is_late (sequence p) (next_play_seq b) = false ->
  (length (packets b) < max_depth (config b))%nat ->
  exists b1, insert b p now = update_state b1 /\ packets b1 = BTreeMap.insert (sequence p) p (packets b) /\
    state b1 = state b /\ next_play_seq b1 = next_play_seq b /\ config b1 = config b /\
    losses b1 = losses b /\ packets_played (stats b1) = packets_played (stats b).
Proof.
  intros Hl Hd. unfold insert. cbv zeta. cbn [next_play_seq]. rewrite Hl. eexists. split; [reflexivity|].
  unfold make_room. cbn [packets config]. rewrite (proj2 (Nat.leb_gt _ _)) by done. by case_match.
Qed.

Lemma update_state_going b : state b <> Buffering -> state (update_state b) <> Buffering /\ next_play_seq (update_state b) = next_play_seq b.
Proof. intros H. unfold update_state. destruct (state b) eqn:E; [done|..]; repeat case_match; cbn; rewrite ?E; done. Qed.

(** The start is found among the packets that wait. *)
Lemma holds_start b (waiting : gset nat) : ok (packets b) -> (forall i, i ∈ waiting -> near 0 i) ->
  (forall i, i ∈ waiting -> get (s +%u16 Z.of_nat i) (packets b) = Some (stream i)) ->
  (forall k, k ∈ keys (packets b) -> exists i, i ∈ waiting /\ k = s +%u16 Z.of_nat i) ->
  0%nat ∈ waiting -> start_of (keys (packets b)) = Some s.
Proof.
  intros Hok Hnear Hget Hkeys H0.
  assert (s +%u16 Z.of_nat 0 = s) as E0 by (unfold wrapping_add; rewrite Z.add_0_r; by apply wrap_small).
  apply start_found; [done|done| | |].
  - apply Forall_forall. intros k (i & _ & ->)%Hkeys. auto with rust lia.
  - rewrite <- E0. destruct (decide (s +%u16 Z.of_nat 0 ∈ keys (packets b))) as [|Hn]; [done|]. apply get_None in Hn. by rewrite Hget in Hn.
  - intros k (i & Hi & ->)%Hkeys. pose proof (ahead 0 i (Hnear i Hi)) as Ha. rewrite E0 in Ha. unfold wrapping_sub, wrap in Ha. change (2 ^ 16) with 65536 in Ha.
    rewrite Ha. destruct (Hnear i Hi). lia.
Qed.

Lemma arrive_holds b waiting next started i now : holds b waiting next started -> i ∉ waiting -> near next i -> (size waiting < max_depth cfg)%nat ->
  let started' := started || (min_depth cfg <=? size ({[i]} ∪ waiting))%nat in
  (started = false -> started' = true -> 0%nat ∈ ({[i]} ∪ waiting : gset nat)) ->
  holds (insert b (stream i) now) ({[i]} ∪ waiting) next started' /\ packets_played (stats (insert b (stream i) now)) = packets_played (stats b).
Proof.
  intros [Hok Hc Hsz Hnear Hget Hkeys Hst Hl] Hi Hni Hroom started' Hfirst.
  destruct (insert_in_time b (stream i) now) as (b1 & -> & P1 & S1 & N1 & C1 & L1 & D1).
  { rewrite Hstream. destruct started; [destruct Hst as [_ ->]; by apply near_on_time|by destruct Hst as (_ & -> & _)]. }
  { by rewrite Hc, Hsz. }
  destruct (update_state_fields b1) as (F1 & F2 & _). destruct (update_state_counts b1) as [U1 U2]. rewrite Hstream in P1.
  assert (get (s +%u16 Z.of_nat i) (packets b) = None) as Hnew.
  { apply get_None. intros (j & Hj & E)%Hkeys. apply (near_inj next) in E as ->; auto. }
  assert (length (packets b1) = size ({[i]} ∪ waiting)) as Hlen
    by (rewrite P1, length_insert_new, size_union, size_singleton, Hsz by (done || set_solver); lia).
  assert (forall j, j ∈ ({[i]} ∪ waiting : gset nat) -> get (s +%u16 Z.of_nat j) (packets b1) = Some (stream j)) as Hg1.
  { intros j Hj. rewrite P1, get_insert. case_decide as E.
    - destruct (decide (j = i)) as [->|Hji]; [done|]. assert (j ∈ waiting) as Hw by set_solver. by apply (near_inj next) in E; [|auto..].
    - destruct (decide (j = i)) as [->|Hji]; [done|]. apply Hget. set_solver. }
  assert (forall k, k ∈ keys (packets b1) -> exists j, j ∈ ({[i]} ∪ waiting : gset nat) /\ k = s +%u16 Z.of_nat j) as Hk1.
  { intros k. rewrite P1, elem_keys_insert. intros [->|(j & Hj & ->)%Hkeys]; [exists i|exists j]; set_solver. }
  assert (forall j, j ∈ ({[i]} ∪ waiting : gset nat) -> near next j) as Hn1 by (intros j [->%elem_of_singleton|]%elem_of_union; auto).
  assert (ok (packets b1)) as Hok1 by (rewrite P1; by apply insert_ok).
  split; [|by rewrite U2]. split; rewrite ?F1, ?F2; try done; [congruence| |by rewrite U1, L1].
  unfold started' in *. destruct started; cbn [orb] in *.
  - destruct Hst as [Hb Hn]. rewrite <- S1 in Hb. destruct (update_state_going b1 Hb) as [? ->]. by rewrite N1.
  - destruct Hst as (Hb & Hn & ->). pose proof (update_state_start b1 ltac:(congruence) ltac:(congruence)) as Hu. rewrite C1, Hc, Hlen in Hu.
    destruct (Nat.leb _ _); apply pair_equal_spec in Hu as [Hu1 Hu2]; rewrite Hu1, Hu2; [|done]. split; [done|].
    rewrite (holds_start b1 ({[i]} ∪ waiting)) by auto. f_equal. unfold wrapping_add. by rewrite Z.add_0_r, wrap_small.
Qed.

Lemma take_holds b waiting next : holds b waiting next true -> next ∈ waiting ->
  exists b', pop b = (Some (stream next), b') /\ holds b' (waiting ∖ {[next]}) (S next) true /\ packets_played (stats b') = packets_played (stats b) + 1.
Proof.
  intros [Hok Hc Hsz Hnear Hget Hkeys [Hb Hn] Hl] Hin. unfold pop, remove. rewrite bool_decide_eq_false_2 by done. rewrite Hn, Hget by done.
  eexists. split; [reflexivity|]. set (b1 := upd_stats _ _). assert (state b1 <> Buffering) as Hb1 by done.
  destruct (update_state_fields b1) as (F1 & F2 & _). destruct (update_state_counts b1) as [U1 U2]. destruct (update_state_going b1 Hb1) as [G1 G2].
  assert (forall j, j ∈ waiting ∖ {[next]} -> s +%u16 Z.of_nat j <> s +%u16 Z.of_nat next) as Hne.
  { intros j Hj E. apply (near_inj next) in E; [|set_solver..]. set_solver. }
  split; [|rewrite U2; done]. split; rewrite ?F1, ?F2; cbn [b1 packets upd_stats set_next set_packets config].
  - by apply delete_ok.
  - done.
  - pose proof (length_delete_get _ _ _ (Hget next Hin)). rewrite size_difference, size_singleton by set_solver. lia.
  - intros j Hj. destruct (Hnear j) as [? ?]; [set_solver|]. assert (j <> next) by set_solver. unfold near. lia.
  - intros j Hj. rewrite get_delete by done. rewrite decide_False by auto. apply Hget. set_solver.
  - intros k Hk. destruct (Hkeys k) as (j & Hj & ->); [eapply elem_of_sublist; [exact Hk|apply keys_delete_sublist]|]. exists j. split; [|done].
    destruct (decide (j = next)) as [->|]; [|set_solver]. exfalso. assert (get (s +%u16 Z.of_nat next) (delete (s +%u16 Z.of_nat next) (packets b)) = None) as Hx
      by (rewrite get_delete by done; by rewrite decide_True). by apply get_None in Hx.
  - split; [exact G1|]. rewrite G2. cbn. f_equal. unfold wrapping_add, wrap. rewrite Zplus_mod_idemp_l. f_equal. lia.
  - by rewrite U1.
Qed.

Lemma take_idle b waiting next : holds b waiting next false -> pop b = (None, b).
Proof. intros H. destruct (hold_state _ _ _ _ H) as [Hb _]. unfold pop. by rewrite bool_decide_eq_true_2. Qed.

Lemma run_in_time evs : forall b waiting next started arrived, holds b waiting next started ->
  started = (1 <=? arrived)%nat && (min_depth cfg <=? arrived)%nat -> (started = false -> size waiting = arrived) ->
  in_time cfg waiting next started evs = true ->
  exists b', run b (map (event_of stream) evs) = (map stream (seq next (turns cfg arrived evs)), b') /\
    losses b' = (0, 0, 0) /\ packets_played (stats b') = packets_played (stats b) + Z.of_nat (turns cfg arrived evs).
Proof.
  induction evs as [|[i now|] evs IH]; intros b waiting next started arrived Hb Hst Hsz Ht.
  - exists b. split_and!; [done|apply (hold_losses _ _ _ _ Hb)|cbn; lia].
  - cbn [in_time map event_of run turns] in *. apply andb_true_iff in Ht as [Ht Hrest]. apply andb_true_iff in Ht as [Ht H5].
    apply andb_true_iff in Ht as [Ht H4]. apply andb_true_iff in Ht as [Ht H3]. apply andb_true_iff in Ht as [H1 H2].
    apply negb_true_iff, bool_decide_eq_false_1 in H1. apply Nat.leb_le in H2. apply Z.ltb_lt in H3. apply Nat.ltb_lt in H4.
    destruct (arrive_holds b waiting next started i now Hb H1 (conj H2 H3) H4) as [Hb' Hp].
    { intros -> Hs'. rewrite Hs' in H5. cbn in H5. by apply bool_decide_eq_true_1 in H5. }
    assert (size ({[i]} ∪ waiting) = S (size waiting)) as Hsz' by (rewrite size_union, size_singleton by set_solver; lia).
    rewrite Hsz' in *. rewrite <- Hp. apply (IH _ _ _ _ (S arrived) Hb'); [| |exact Hrest].
    + destruct started; cbn [orb].
      * symmetry in Hst. apply andb_true_iff in Hst as [_ Hm%Nat.leb_le]. symmetry. apply andb_true_iff. split; [done|]. apply Nat.leb_le. lia.
      * by rewrite (Hsz eq_refl).
    + intros [-> _]%orb_false_iff. by rewrite Hsz', (Hsz eq_refl).
  - cbn [in_time map event_of run turns] in *. rewrite <- Hst. destruct started.
    + apply andb_true_iff in Ht as [Hn Hrest]. apply bool_decide_eq_true_1 in Hn. destruct (take_holds b waiting next Hb Hn) as (b1 & -> & Hb1 & Hp).
      destruct (IH b1 _ _ true arrived Hb1 Hst ltac:(done) Hrest) as (b' & Hr & Hl & Hd). rewrite Hr. exists b'. split_and!; [done|done|lia].
    + rewrite (take_idle b waiting next Hb). destruct (IH b _ _ false arrived Hb Hst Hsz Ht) as (b' & Hr & Hl & Hd). rewrite Hr. exists b'. by split_and!.
Qed.
End Stream.

(** ** Properties *)

(** The jitter buffer keeps its invariant. In every state reachable by
    insertions of packets, pops, flushes and pruning: packets are stored in
    strictly increasing order of their own sequence numbers, at most
    [max_depth] of them; a play position exists once buffering is over; and
    played, late, overflowed and buffered packets together never exceed those
    received. *)
Theorem jitter_invariant (cfg : JitterBufferConfig) (b : JitterBuffer) (Hmax : (1 <= max_depth cfg)%nat)
  (Hreach : rtc jb_step (JitterBuffer_new cfg) b) :
  StronglySorted Z.lt (keys (packets b)) /\
  Forall (fun '(k, p) => sequence p = k /\ uint 16 k) (packets b) /\
  (depth b <= max_depth cfg)%nat /\
  (state b <> Buffering -> is_Some (next_play_seq b)) /\
  packets_played (stats b) + packets_dropped_late (stats b) + packets_dropped_overflow (stats b)
    + Z.of_nat (depth b) <= packets_received (stats b).
Proof.
  destruct (jb_reachable_inv cfg b Hmax Hreach) as [[H1 H2 H3 H4 H5 H6] <-]. split_and!; try done.
  intros H. apply H5 in H. by destruct (next_play_seq b).
Qed.

(** C38: packets are played in order and at most once. From any reachable state
    with a play position [n], under any interleaving of arrivals, pops and
    pruning, the packets played have sequence numbers [n + u] for strictly
    increasing distances [u] below ten times the number of pops; so within
    6553 pops no sequence number is played twice or out of order, across the
    wrap-around included. *)
Theorem plays_in_order (cfg : JitterBufferConfig) (b : JitterBuffer) (n : Z) (evs : list event)
  (out : list AudioPacket) (b' : JitterBuffer) (Hmax : (1 <= max_depth cfg)%nat)
  (Hreach : rtc jb_step (JitterBuffer_new cfg) b) (Hn : next_play_seq b = Some n)
  (Hev : Forall valid_event evs) (Hrun : run b evs = (out, b')) :
  exists us, map sequence out = map (fun u => n +%u16 u) us /\ StronglySorted Z.lt us /\
    Forall (fun u => 0 <= u < 10 * pops evs) us /\
    (pops evs <= 6553 -> NoDup (map sequence out)).
Proof.
  destruct (jb_reachable_inv cfg b Hmax Hreach) as [Hb <-].
  destruct (run_order evs b n out b' Hb Hmax Hn Hev Hrun) as (us & H1 & H2 & H3).
  exists us. split_and!; [done..|]. intros Hp. rewrite H1. eapply sequence_distinct; [|done|done]. lia.
Qed.


(** Outside these conditions packets are lost: a first packet that comes after
    [min_depth] others is late, and with the default configuration fifty packets that
    arrive in reverse start the playing at the forty-first. *)
Theorem start_missing_lost :
  let pkt s := mkPacket s 0 0 [] 0 in
  let play cfg l := map sequence (run (insert_packets (JitterBuffer_new cfg) (map (fun s => (pkt s, 0)) l)) (replicate 50 EPop)).1 in
  play {| target_depth := 3; min_depth := 3; max_depth := 9; max_age := 3000000000 |} [1; 2; 3; 0] = [1; 2; 3] /\
  play JitterBufferConfig_default (map Z.of_nat (rev (seq 0 50))) = map Z.of_nat (seq 40 10).
Proof. split; vm_compute; reflexivity. Qed.

(** At the wrap-around of the sequence numbers the smallest key is not the
    oldest packet. With 65533 lost and 65534, 65535, 0 and 1 buffered, concealing
    the gap jumps to 0, and 65534 and 65535 are neither played nor removed: the
    depth stays two, so the end of the stream is not reported as an underrun.
    When the buffer is full, [insert] drops packet 0 and keeps the older
    65534. *)
Theorem wrap_strands_packets :
  let cfg n := {| target_depth := 50; min_depth := n; max_depth := n; max_age := 3000000000 |} in
  let pkt s := mkPacket s 0 0 [] 0 in
  let fill n l := insert_packets (JitterBuffer_new (cfg n)) (map (fun s => (pkt s, 0)) l) in
  (let '(out, b) := run (fill 5%nat [65532; 65534; 65535; 0; 1]) (replicate 10 EPop) in
   (map sequence out, keys (packets b), state b)) = ([65532; 0; 1], [65534; 65535], Playing) /\
  keys (packets (fill 3%nat [65534; 65535; 0; 1])) = [1; 65534; 65535].
Proof. split; vm_compute; reflexivity. Qed.

(** ** Witnesses *)
Definition cfg3 : JitterBufferConfig := {| target_depth := 3; min_depth := 3; max_depth := 4; max_age := 1000 |}.
Definition pkt (s : Z) : AudioPacket := mkPacket s (352 * s) 7 [s mod 256] 5.
Definition filled : JitterBuffer := insert_packets (JitterBuffer_new cfg3) [(pkt 0, 1); (pkt 65534, 2); (pkt 65535, 3)].

Lemma pkt_valid s : uint 16 s -> uint 16 (sequence (pkt s)).
Proof. done. Qed.

Lemma filled_reachable : rtc jb_step (JitterBuffer_new cfg3) filled.
Proof.
  unfold filled, insert_packets. cbn [foldl].
  do 3 (eapply rtc_r; [|apply step_insert, pkt_valid; unfold uint; lia]). apply rtc_refl.
Qed.

Lemma jitter_invariant_witness : (1 <= max_depth cfg3)%nat /\ (depth filled <= max_depth cfg3)%nat.
Proof.
  split; [cbn; lia|].
  destruct (jitter_invariant cfg3 filled) as (_ & _ & H & _); [cbn; lia|exact filled_reachable|exact H].
Defined.

Lemma pkt2_valid : Forall valid_event [EPop; EInsert (pkt 2) 4; EPop; EPop; EPop].
Proof. repeat apply Forall_cons_2; try apply Forall_nil_2; try exact I. apply pkt_valid. unfold uint. lia. Qed.

Lemma plays_in_order_witness :
  exists out b', run filled [EPop; EInsert (pkt 2) 4; EPop; EPop; EPop] = (out, b') /\
    map sequence out = [65534; 65535; 0; 2] /\ NoDup (map sequence out).
Proof.
  destruct (run filled [EPop; EInsert (pkt 2) 4; EPop; EPop; EPop]) as [out b'] eqn:Hrun.
  exists out, b'. split; [reflexivity|]. split.
  - change out with (out, b').1. rewrite <- Hrun. vm_compute. reflexivity.
  - refine (match plays_in_order cfg3 filled 65534 _ out b' _ filled_reachable _ pkt2_valid Hrun with
            | ex_intro _ us (conj _ (conj _ (conj _ H))) => H _ end).
    + cbn; lia.
    + vm_compute. reflexivity.
    + vm_compute. discriminate.
Defined.

Definition shuffled : list arrival :=
  [Arrive 2 1; Take; Arrive 0 2; Arrive 1 3; Take; Arrive 4 4; Take; Arrive 3 5; Arrive 5 6; Take; Take; Arrive 6 7; Take; Take].


End JitterBuffer.
