(* ===== verification/Ap2Jitter.v ===== *)
(** * Jitter buffer of the AirPlay 2 receiver

    Models [src/receiver/ap2/jitter_buffer.rs]: frames by RTP timestamp, the
    play position, the frame being played and the depth-driven state machine.
    [channels] and [sample_rate] are divisors, so every operation that computes
    a depth can panic; the loops of [pull] and [handle_overflow] carry fuel, with
    [None] for running out, which the theorems exclude.  Instants are integers
    and [Instant::now()] is an argument; the [u64] counters are unbounded and
    [jitter_estimate_ms], which the code never writes, is left out. *)

From stdpp Require Import gmap sorting.
From S2P Require Import Prelude BTreeMap.

Module Ap2Jitter.
Import BTreeMap.

Record AudioFrame := mkFrame { sequence : Z; timestamp : Z; samples : list Z; receive_time : Z }.

Record JitterBufferConfig := {
  min_depth_ms : Z; max_depth_ms : Z; target_depth_ms : Z; sample_rate : Z; channels : Z
}.

Definition JitterBufferConfig_default : JitterBufferConfig :=
  {| min_depth_ms := 50; max_depth_ms := 2000; target_depth_ms := 200; sample_rate := 44100; channels := 2 |}.

Inductive BufferState := Buffering | Playing | Underrun | Overflow.

#[export] Instance BufferState_eq_dec : EqDecision BufferState.
Proof. solve_decision. Defined.

Record BufferStats := mkStats {
  frames_received : Z; frames_played : Z; frames_dropped : Z; frames_lost : Z;
  underruns : Z; overflows : Z; current_depth_ms : Z
}.

Record JitterBuffer := mkBuffer {
  config : JitterBufferConfig;
  frames : list (Z * AudioFrame);
  playback_position : Z;
  state : BufferState;
  stats : BufferStats;
  last_sequence : option Z;
  started : bool;
  current_frame : option AudioFrame;
  current_frame_offset : nat
}.

Definition JitterBuffer_new (config : JitterBufferConfig) : JitterBuffer :=
  mkBuffer config [] 0 Buffering (mkStats 0 0 0 0 0 0 0) None false None 0.

(** ** Field updates *)
Definition set_frames b m := mkBuffer (config b) m (playback_position b) (state b) (stats b) (last_sequence b)
  (started b) (current_frame b) (current_frame_offset b).
Definition set_state b s := mkBuffer (config b) (frames b) (playback_position b) s (stats b) (last_sequence b)
  (started b) (current_frame b) (current_frame_offset b).
Definition set_started b s := mkBuffer (config b) (frames b) (playback_position b) (state b) (stats b) (last_sequence b)
  s (current_frame b) (current_frame_offset b).
Definition set_position b p := mkBuffer (config b) (frames b) p (state b) (stats b) (last_sequence b)
  (started b) (current_frame b) (current_frame_offset b).
Definition set_last b s := mkBuffer (config b) (frames b) (playback_position b) (state b) (stats b) s
  (started b) (current_frame b) (current_frame_offset b).
Definition set_current b f o := mkBuffer (config b) (frames b) (playback_position b) (state b) (stats b) (last_sequence b)
  (started b) f o.
Definition upd_stats b (f : BufferStats -> BufferStats) := mkBuffer (config b) (frames b) (playback_position b) (state b)
  (f (stats b)) (last_sequence b) (started b) (current_frame b) (current_frame_offset b).

Definition inc_received s := mkStats (frames_received s + 1) (frames_played s) (frames_dropped s) (frames_lost s)
  (underruns s) (overflows s) (current_depth_ms s).
Definition inc_played s := mkStats (frames_received s) (frames_played s + 1) (frames_dropped s) (frames_lost s)
  (underruns s) (overflows s) (current_depth_ms s).
Definition inc_dropped s := mkStats (frames_received s) (frames_played s) (frames_dropped s + 1) (frames_lost s)
  (underruns s) (overflows s) (current_depth_ms s).
Definition add_lost n s := mkStats (frames_received s) (frames_played s) (frames_dropped s) (frames_lost s + n)
  (underruns s) (overflows s) (current_depth_ms s).
Definition inc_underruns s := mkStats (frames_received s) (frames_played s) (frames_dropped s) (frames_lost s)
  (underruns s + 1) (overflows s) (current_depth_ms s).
Definition inc_overflows s := mkStats (frames_received s) (frames_played s) (frames_dropped s) (frames_lost s)
  (underruns s) (overflows s + 1) (current_depth_ms s).
Definition set_depth d s := mkStats (frames_received s) (frames_played s) (frames_dropped s) (frames_lost s)
  (underruns s) (overflows s) d.

(** ** Depth *)

(** [(n / channels) as u32]. *)
Definition duration {E} (c : JitterBufferConfig) (n : nat) : outcome E Z :=
  if channels c =? 0 then Panic else Ok (wrap 32 (Z.of_nat n / channels c)).

(** The end of a frame: its timestamp plus its duration. *)
Definition frame_end {E} (c : JitterBufferConfig) (f : AudioFrame) : outcome E Z :=
  d ← duration c (length (samples f)); Ok (timestamp f +%u32 d).

(** The depth in milliseconds between two timestamps. *)
Definition depth_ms {E} (c : JitterBufferConfig) (end_ts current_ts : Z) : outcome E Z :=
  let depth_samples := end_ts -%u32 current_ts in
  if sample_rate c =? 0 then Panic else Ok (wrap 32 (depth_samples * 1000 / sample_rate c)).

Definition update_depth (b : JitterBuffer) : outcome Empty_set JitterBuffer :=
  let empty := Ok (upd_stats b (set_depth 0)) in
  let last_frame := match last (frames b) with Some (_, f) => Some f | None => current_frame b end in
  match last_frame with
  | None => empty
  | Some f =>
      end_ts ← frame_end (config b) f;
      let finish current_ts := d ← depth_ms (config b) end_ts current_ts; Ok (upd_stats b (set_depth d)) in
      if bool_decide (state b = Buffering) then
        match first_key (frames b) with
        | Some first_ts => finish first_ts
        | None => empty
        end
      else
        offset ← duration (config b) (current_frame_offset b);
        finish (playback_position b +%u32 offset)
  end.

(** ** Overflow *)
Fixpoint overflow_loop (fuel : nat) (b : JitterBuffer) : option (outcome Empty_set JitterBuffer) :=
  match fuel with
  | O => None
  | S fuel =>
      if target_depth_ms (config b) <? current_depth_ms (stats b) then
        match first_key (frames b) with
        | Some ts =>
            match update_depth (upd_stats (set_frames b (delete ts (frames b))) inc_dropped) with
            | Ok b => overflow_loop fuel b
            | Err e => Some (Err e)
            | Panic => Some Panic
            end
        | None => Some (Ok b)
        end
      else Some (Ok b)
  end.

Definition handle_overflow (b : JitterBuffer) : option (outcome Empty_set JitterBuffer) :=
  r ← overflow_loop (S (length (frames b))) (upd_stats b inc_overflows);
  Some (b ← r; Ok (set_state b Playing)).

(** ** Push *)

(** The frames lost before this one, by its sequence number. *)
Definition lost_before (last : option Z) (seq : Z) : Z :=
  match last with
  | Some last_seq =>
      let expected := last_seq +%u16 1 in
      if seq =? expected then 0
      else let gap := seq -%u16 expected in if gap <? 100 then gap else 0
  | None => 0
  end.

Definition start_if_ready (b : JitterBuffer) : JitterBuffer :=
  if bool_decide (state b = Buffering) && (target_depth_ms (config b) <=? current_depth_ms (stats b))
  then set_started (set_state b Playing) true else b.

Definition push (b : JitterBuffer) (frame : AudioFrame) : option (outcome Empty_set JitterBuffer) :=
  let b := upd_stats b inc_received in
  let b := upd_stats b (add_lost (lost_before (last_sequence b) (sequence frame))) in
  let b := set_last b (Some (sequence frame)) in
  let b := set_frames b (BTreeMap.insert (timestamp frame) frame (frames b)) in
  match update_depth b with
  | Ok b =>
      if max_depth_ms (config b) <? current_depth_ms (stats b)
      then r ← handle_overflow b; Some (b ← r; Ok (start_if_ready b))
      else Some (Ok (start_if_ready b))
  | Err e => Some (Err e)
  | Panic => Some Panic
  end.

(** ** Pull *)

(** The end of the frame being played: advance the position, count the frame. *)
Definition frame_done (b : JitterBuffer) (f : AudioFrame) : outcome Empty_set JitterBuffer :=
  d ← duration (config b) (length (samples f));
  Ok (upd_stats (set_current (set_position b (playback_position b +%u32 d)) None 0) inc_played).

(** Take [n] more samples of the frame being played. *)
Definition consume (b : JitterBuffer) (f : AudioFrame) (n : nat) : outcome Empty_set JitterBuffer :=
  let offset := (current_frame_offset b + n)%nat in
  let b := set_current b (Some f) offset in
  if (length (samples f) <=? offset)%nat then frame_done b f else Ok b.

(** A frame of silence of the standard length, at the play position. *)
Definition silence (b : JitterBuffer) (now : Z) : AudioFrame :=
  mkFrame 0 (playback_position b) (replicate (352 * Z.to_nat (channels (config b))) 0) now.

(** [remaining]: samples still to produce. *)
Fixpoint pull_loop (fuel remaining : nat) (now : Z) (b : JitterBuffer)
  : option (outcome Empty_set (list Z * JitterBuffer)) :=
  match fuel with
  | O => None
  | S fuel =>
      if (remaining =? 0)%nat then Some (Ok ([], b))
      else
        match current_frame b with
        | Some f =>
            let offset := current_frame_offset b in
            if (length (samples f) <? offset)%nat then Some Panic
            else
              let n := Nat.min (length (samples f) - offset) remaining in
              match consume b f n with
              | Ok b2 =>
                  r ← pull_loop fuel (remaining - n) now b2;
                  Some ('(out, b3) ← r; Ok (take n (drop offset (samples f)) ++ out, b3))
              | Err e => Some (Err e)
              | Panic => Some Panic
              end
        | None =>
            match remove (playback_position b) (frames b) with
            | (Some f, m) => pull_loop fuel remaining now (set_current (set_frames b m) (Some f) 0)
            | (None, m) =>
                pull_loop fuel remaining now
                  (set_current (upd_stats (set_frames b m) (add_lost 1)) (Some (silence b now)) 0)
            end
        end
  end.

Definition pull (b : JitterBuffer) (sample_count : nat) (now : Z)
  : option (outcome Empty_set (list Z * JitterBuffer)) :=
  let total_samples_needed := (sample_count * Z.to_nat (channels (config b)))%nat in
  if bool_decide (state b = Buffering) then Some (Ok (replicate total_samples_needed 0, b))
  else
    r ← pull_loop (2 * total_samples_needed + 2 * length (frames b) + 3) total_samples_needed now b;
    Some ('(output, b) ← r;
          let b := match frames b with
                   | [] => if started b then upd_stats (set_state b Underrun) inc_underruns else b
                   | _ => b
                   end in
          b ← update_depth b; Ok (output, b)).

(** ** Flush and positioning *)
Definition flush (b : JitterBuffer) : outcome Empty_set JitterBuffer :=
  update_depth (set_started (set_state (set_current (set_frames b []) None 0) Buffering) false).

Definition flush_to (b : JitterBuffer) (ts : Z) : outcome Empty_set JitterBuffer :=
  let b := set_frames b (retain (fun t _ => ts <=? t) (frames b)) in
  let b := match current_frame b with
           | Some f => if timestamp f <? ts then set_current b None 0 else b
           | None => b
           end in
  update_depth (set_position b ts).

Definition set_playback_position (b : JitterBuffer) (ts : Z) : JitterBuffer :=
  set_current (set_position b ts) None 0.

(** ** Well-formed buffers *)
Definition buf_ok (b : JitterBuffer) : Prop :=
  1 <= channels (config b) /\ 1 <= sample_rate (config b) /\ ok (frames b) /\
  match current_frame b with Some f => (current_frame_offset b <= length (samples f))%nat | None => True end.

(** The fields the pull loop leaves alone. *)
Definition same_mode (b b' : JitterBuffer) : Prop :=
  config b' = config b /\ state b' = state b /\ started b' = started b.

Lemma update_depth_ok b : 1 <= channels (config b) -> 1 <= sample_rate (config b) ->
  exists d, update_depth b = Ok (upd_stats b (set_depth d)).
Proof.
  intros Hc Hr. assert ((channels (config b) =? 0) = false) as Hc' by (apply Z.eqb_neq; lia).
  assert ((sample_rate (config b) =? 0) = false) as Hr' by (apply Z.eqb_neq; lia).
  unfold update_depth, frame_end, duration, depth_ms. rewrite Hc', Hr'.
  repeat case_match; cbn; eauto.
Qed.

Lemma frame_done_ok b f : 1 <= channels (config b) -> exists d, duration (E := Empty_set) (config b) (length (samples f)) = Ok d /\
  frame_done b f = Ok (upd_stats (set_current (set_position b (playback_position b +%u32 d)) None 0) inc_played).
Proof.
  intros Hc. unfold frame_done, duration. assert ((channels (config b) =? 0) = false) as -> by (apply Z.eqb_neq; lia). cbn. eauto.
Qed.

(** Twice the samples still to produce and the frames buffered, plus what the
    frame being played adds, bound the iterations of the pull loop. *)
Definition weight (b : JitterBuffer) : nat :=
  match current_frame b with
  | None => 1
  | Some f => if (current_frame_offset b <? length (samples f))%nat then 0 else 2
  end.

Lemma silence_length b now : 1 <= channels (config b) -> (0 < length (samples (silence b now)))%nat.
Proof. intros. cbn. rewrite length_replicate. lia. Qed.

Lemma consume_ok b f n : buf_ok b -> current_frame b = Some f ->
  (current_frame_offset b + n <= length (samples f))%nat ->
  exists b2, consume b f n = Ok b2 /\ buf_ok b2 /\ same_mode b b2 /\ frames b2 = frames b /\
    if (length (samples f) <=? current_frame_offset b + n)%nat then current_frame b2 = None
    else current_frame b2 = Some f /\ current_frame_offset b2 = (current_frame_offset b + n)%nat.
Proof.
  intros (Hc & Hr & Hok & _) Hf Hn. unfold consume. case_match.
  - destruct (frame_done_ok (set_current b (Some f) (current_frame_offset b + n)) f Hc) as (d & _ & ->).
    eexists. split; [reflexivity|]. by split_and!.
  - eexists. split; [reflexivity|]. by split_and!.
Qed.

Lemma same_mode_trans b1 b2 b3 : same_mode b1 b2 -> same_mode b2 b3 -> same_mode b1 b3.
Proof. intros (? & ? & ?) (? & ? & ?). split_and!; congruence. Qed.

Lemma pull_loop_total fuel : forall remaining now b, buf_ok b ->
  (2 * remaining + 2 * length (frames b) + weight b < fuel)%nat ->
  exists out b', pull_loop fuel remaining now b = Some (Ok (out, b')) /\ length out = remaining /\
    buf_ok b' /\ same_mode b b'.
Proof.
  induction fuel as [|fuel IH]; intros rem now b Hb Hf; [lia|]. cbn [pull_loop].
  destruct (Nat.eqb_spec rem 0) as [->|Hrem]; [by exists [], b|].
  pose proof Hb as (Hc & Hr & Hok & Hcur). unfold weight in Hf.
  destruct (current_frame b) as [f|] eqn:Hcf.
  - rewrite (proj2 (Nat.ltb_ge _ _)) by done. cbv zeta.
    destruct (consume_ok b f (Nat.min (length (samples f) - current_frame_offset b) rem) Hb Hcf ltac:(lia))
      as (b2 & -> & Hb2 & Hm2 & Hfr & Hw).
    destruct (IH (rem - Nat.min (length (samples f) - current_frame_offset b) rem)%nat now b2 Hb2) as (out & b' & -> & Hl & Hb' & Hm').
    + rewrite Hfr. unfold weight. revert Hw Hf. case_match; bool_to_prop; case_match; bool_to_prop.
      * intros ->. lia.
      * intros ->. lia.
      * intros [-> ->]. case_match; bool_to_prop; lia.
      * intros [-> ->]. case_match; bool_to_prop; lia.
    + eexists _, b'. split_and!; [reflexivity| |done|by eapply same_mode_trans].
      rewrite length_app, length_take, length_drop. lia.
  - unfold remove. destruct (get (playback_position b) (frames b)) as [f|] eqn:Hg.
    + apply length_delete_get in Hg as Hl.
      destruct (IH rem now (set_current (set_frames b (delete (playback_position b) (frames b))) (Some f) 0))
        as (out & b' & -> & Hlen & Hb' & Hm').
      * split_and!; cbn; try done; [by apply delete_ok|lia].
      * unfold weight. cbn. case_match; lia.
      * eexists _, _. by split_and!.
    + rewrite (get_None_delete _ _ Hg).
      destruct (IH rem now (set_current (upd_stats (set_frames b (frames b)) (add_lost 1)) (Some (silence b now)) 0))
        as (out & b' & -> & Hlen & Hb' & Hm').
      * split_and!; cbn; try done; lia.
      * unfold weight. cbn [current_frame set_current current_frame_offset]. 
        rewrite (proj2 (Nat.ltb_lt _ _)) by (by apply silence_length). cbn. lia.
      * eexists _, _. by split_and!.
Qed.

(** ** Splitting a pull *)
Lemma pull_loop_mono fuel k : forall remaining now b r, pull_loop fuel remaining now b = Some r ->
  pull_loop (fuel + k) remaining now b = Some r.
Proof.
  induction fuel as [|fuel IH]; intros rem now b r H; [done|]. cbn [pull_loop plus] in *.
  destruct (rem =? 0)%nat; [done|]. destruct (current_frame b) as [f|].
  - destruct (_ <? _)%nat; [done|]. destruct (consume _ _ _) as [b2| |]; [|done..].
    destruct (pull_loop fuel _ now b2) as [r'|] eqn:Hr; [|done]. by rewrite (IH _ _ _ _ Hr).
  - destruct (remove _ _) as [[f|] m]; by apply IH.
Qed.

Lemma consume_partial b f n : (current_frame_offset b + n < length (samples f))%nat ->
  consume b f n = Ok (set_current b (Some f) (current_frame_offset b + n)).
Proof. intros H. unfold consume. by rewrite (proj2 (Nat.leb_gt _ _)). Qed.

Lemma consume_consume b f n k :
  consume (set_current b (Some f) (current_frame_offset b + n)) f k = consume b f (n + k).
Proof. unfold consume. cbn. by rewrite Nat.add_assoc. Qed.

(** The step of the loop inside a frame. *)
Lemma pull_loop_frame fuel rem now b f : (0 < rem)%nat -> current_frame b = Some f ->
  (current_frame_offset b <= length (samples f))%nat ->
  pull_loop (S fuel) rem now b =
    let n := Nat.min (length (samples f) - current_frame_offset b) rem in
    match consume b f n with
    | Ok b2 =>
        r ← pull_loop fuel (rem - n) now b2;
        Some ('(out, b3) ← r; Ok (take n (drop (current_frame_offset b) (samples f)) ++ out, b3))
    | Err e => Some (Err e)
    | Panic => Some Panic
    end.
Proof.
  intros Hrem Hf Ho. cbn [pull_loop]. rewrite (proj2 (Nat.eqb_neq _ _)), Hf by lia.
  by rewrite (proj2 (Nat.ltb_ge _ _)).
Qed.

(** What a completed loop did: its first step, and the rest. *)
Lemma loop_ok_inv (r : option (outcome Empty_set (list Z * JitterBuffer))) (pre : list Z) o b :
  (x ← r; Some ('(out, b3) ← x; Ok (pre ++ out, b3))) = Some (Ok (o, b)) ->
  exists out, r = Some (Ok (out, b)) /\ o = pre ++ out.
Proof. destruct r as [[[out b3]| |]|]; cbn; naive_solver. Qed.

Lemma pull_loop_inside f2 m now b f n o2 b2 f1 : (0 < n)%nat -> current_frame b = Some f ->
  (current_frame_offset b + n < length (samples f))%nat ->
  pull_loop f2 m now (set_current b (Some f) (current_frame_offset b + n)) = Some (Ok (o2, b2)) ->
  pull_loop (S f1 + f2) (n + m) now b =
    Some (Ok (take n (drop (current_frame_offset b) (samples f)) ++ o2, b2)).
Proof.
  intros Hn Hf Hlt H. cbn [plus]. rewrite pull_loop_frame with (f := f) by (done || lia). cbv zeta.
  destruct f2 as [|f2]; [done|]. destruct (Nat.eq_dec m 0%nat) as [->|Hm].
  - cbn in H. simplify_eq. rewrite Nat.add_0_r, Nat.min_r, consume_partial, Nat.sub_diag by lia.
    rewrite Nat.add_succ_r. cbn. by rewrite app_nil_r.
  - rewrite pull_loop_frame with (f := f) in H by (cbn; done || lia). cbv zeta in H.
    cbn [current_frame_offset set_current] in H. rewrite consume_consume in H.
    set (k := Nat.min (length (samples f) - (current_frame_offset b + n)) m) in *.
    replace (Nat.min (length (samples f) - current_frame_offset b) (n + m)) with (n + k)%nat by lia.
    destruct (consume b f (n + k)) as [b3| |]; [|done..]. apply loop_ok_inv in H as (out & Hr & ->).
    replace (n + m - (n + k))%nat with (m - k)%nat by lia.
    replace (f1 + S f2)%nat with (f2 + S f1)%nat by lia. rewrite (pull_loop_mono _ _ _ _ _ _ Hr). cbn.
    rewrite app_assoc. do 3 f_equal. by rewrite <- drop_drop, take_take_drop.
Qed.

Lemma pull_loop_app f1 : forall n m now b o1 b1 f2 o2 b2, 
  pull_loop f1 n now b = Some (Ok (o1, b1)) -> pull_loop f2 m now b1 = Some (Ok (o2, b2)) ->
  pull_loop (f1 + f2) (n + m) now b = Some (Ok (o1 ++ o2, b2)).
Proof.
  induction f1 as [|f1 IH]; intros n m now b o1 b1 f2 o2 b2 H1 H2; [done|].
  destruct (Nat.eq_dec n 0%nat) as [->|Hn].
  { cbn in H1. simplify_eq. rewrite Nat.add_comm. by apply pull_loop_mono. }
  destruct (current_frame b) as [f|] eqn:Hf.
  - destruct (Nat.ltb_spec (length (samples f)) (current_frame_offset b)) as [Hp|Ho].
    { cbn [pull_loop] in H1. rewrite (proj2 (Nat.eqb_neq _ _)), Hf, (proj2 (Nat.ltb_lt _ _)) in H1 by lia. done. }
    destruct (Nat.le_gt_cases (length (samples f) - current_frame_offset b) n) as [Hle|Hgt].
    + cbn [plus]. rewrite pull_loop_frame with (f := f) in H1 |- * by (done || lia). cbv zeta in *.
      rewrite Nat.min_l in H1 |- * by lia. destruct (consume b f _) as [b3| |]; [|done..].
      apply loop_ok_inv in H1 as (out & Hr & ->). pose proof (IH _ m now b3 out b1 f2 o2 b2 Hr H2) as Happ.
      replace (n + m - (length (samples f) - current_frame_offset b))%nat
        with (n - (length (samples f) - current_frame_offset b) + m)%nat by lia.
      rewrite Happ. cbn. by rewrite app_assoc.
    + rewrite pull_loop_frame with (f := f) in H1 by (done || lia). cbv zeta in H1.
      rewrite Nat.min_r, consume_partial, Nat.sub_diag in H1 by lia.
      destruct f1 as [|f1]; [done|]. cbn in H1. simplify_eq. rewrite app_nil_r.
      apply pull_loop_inside; [lia|done|lia|done].
  - cbn [pull_loop plus] in *. rewrite (proj2 (Nat.eqb_neq n 0)) in H1 by lia.
    rewrite (proj2 (Nat.eqb_neq (n + m) 0)) by lia. rewrite Hf in *.
    destruct (remove _ _) as [[f|] fs]; exact (IH _ m now _ _ b1 f2 o2 b2 H1 H2).
Qed.

(** ** Gapless playback *)

(** The frames [fs] are buffered one after the other from [pos]: each is stored
    at the end of the one before and lasts at least one sample per channel. *)
Fixpoint contiguous (c : JitterBufferConfig) (m : list (Z * AudioFrame)) (pos : Z) (fs : list AudioFrame) : Prop :=
  match fs with
  | [] => True
  | f :: fs =>
      get pos m = Some f /\
      exists d, (1 <= d)%nat /\ length (samples f) = (d * Z.to_nat (channels c))%nat /\ Z.of_nat d < 2 ^ 32 /\
        contiguous c (delete pos m) (pos +%u32 Z.of_nat d) fs
  end.

Definition all_samples (fs : list AudioFrame) : list Z := concat (map samples fs).

Lemma pull_one fuel now b f d : buf_ok b -> current_frame b = None ->
  get (playback_position b) (frames b) = Some f -> (1 <= d)%nat ->
  length (samples f) = (d * Z.to_nat (channels (config b)))%nat -> Z.of_nat d < 2 ^ 32 -> (3 <= fuel)%nat ->
  exists b', pull_loop fuel (length (samples f)) now b = Some (Ok (samples f, b')) /\
    buf_ok b' /\ same_mode b b' /\ current_frame b' = None /\
    playback_position b' = playback_position b +%u32 Z.of_nat d /\ frames b' = delete (playback_position b) (frames b).
Proof.
  intros (Hc & Hr & Hok & _) Hcf Hg Hd Hlen Hd32 Hfuel. destruct fuel as [|[|[|fuel]]]; [lia..|].
  set (b1 := set_current (set_frames b (delete (playback_position b) (frames b))) (Some f) 0).
  assert (pull_loop (S (S (S fuel))) (length (samples f)) now b = pull_loop (S (S fuel)) (length (samples f)) now b1) as ->.
  { cbn [pull_loop]. rewrite (proj2 (Nat.eqb_neq (length (samples f)) 0)) by nia. rewrite Hcf. unfold remove. by rewrite Hg. }
  rewrite pull_loop_frame with (f := f) by (cbn; done || nia). cbv zeta. cbn [current_frame_offset set_current b1].
  rewrite Nat.sub_0_r, Nat.min_id, Nat.sub_diag. unfold consume. cbn [current_frame_offset set_current b1 plus].
  rewrite Nat.leb_refl.
  destruct (frame_done_ok (set_current b1 (Some f) (length (samples f))) f Hc) as (d' & Hd' & ->).
  unfold duration in Hd'. rewrite (proj2 (Z.eqb_neq (channels _) 0)) in Hd' by (cbn; lia). injection Hd' as <-.
  eexists. split; [cbn; by rewrite drop_0, firstn_all, app_nil_r|]. 
  split; [split_and!; cbn; auto using delete_ok|]. split_and!; try done.
  cbn. f_equal. rewrite Hlen, Nat2Z.inj_mul, Z2Nat.id, Z.div_mul by lia. apply wrap_small. unfold uint. lia.
Qed.

Lemma pull_contiguous now fs : forall b, buf_ok b -> current_frame b = None ->
  contiguous (config b) (frames b) (playback_position b) fs ->
  exists fuel b', pull_loop fuel (length (all_samples fs)) now b = Some (Ok (all_samples fs, b')) /\ buf_ok b' /\ same_mode b b'.
Proof.
  induction fs as [|f fs IH]; intros b Hb Hcf Hcon.
  { exists 1%nat, b. by split_and!. }
  destruct Hcon as (Hg & d & Hd & Hlen & Hd32 & Hcon).
  destruct (pull_one 3 now b f d Hb Hcf Hg Hd Hlen Hd32 (Nat.le_refl _)) as (b1 & H1 & Hb1 & Hm1 & Hc1 & Hp1 & Hf1).
  destruct (IH b1 Hb1 Hc1) as (fuel & b2 & H2 & Hb2 & Hm2).
  { destruct Hm1 as (-> & _ & _). by rewrite Hp1, Hf1. }
  exists (3 + fuel)%nat, b2. split_and!; [|done|by eapply same_mode_trans]. unfold all_samples. cbn [map concat].
  rewrite length_app. by eapply pull_loop_app.
Qed.

Lemma pull_loop_det f1 f2 n now b r1 r2 : pull_loop f1 n now b = Some r1 -> pull_loop f2 n now b = Some r2 -> r1 = r2.
Proof.
  intros H1 H2. apply (pull_loop_mono _ f2) in H1. apply (pull_loop_mono _ f1) in H2.
  rewrite Nat.add_comm, H1 in H2. by simplify_eq.
Qed.

(** The samples [pull] returns are those of its loop. *)
Lemma pull_is_loop b n now : buf_ok b -> state b <> Buffering -> exists fuel out b1 b',
  pull_loop fuel (n * Z.to_nat (channels (config b))) now b = Some (Ok (out, b1)) /\
  pull b n now = Some (Ok (out, b')) /\ length out = (n * Z.to_nat (channels (config b)))%nat /\
  buf_ok b' /\ state b' <> Buffering /\ config b' = config b /\
  (frames b', playback_position b', current_frame b', current_frame_offset b', config b') =
  (frames b1, playback_position b1, current_frame b1, current_frame_offset b1, config b1).
Proof.
  intros Hb Hs. unfold pull. rewrite bool_decide_eq_false_2 by done.
  set (needed := (n * Z.to_nat (channels (config b)))%nat).
  destruct (pull_loop_total (2 * needed + 2 * length (frames b) + 3) needed now b Hb) as (out & b1 & Hl & Hlen & Hb1 & Hm).
  { unfold weight. repeat case_match; lia. }
  rewrite Hl. cbn [mbind option_bind outcome_bind].
  set (b2 := match frames b1 with
             | [] => if started b1 then upd_stats (set_state b1 Underrun) inc_underruns else b1
             | _ => b1 end).
  assert (state b2 <> Buffering /\ frames b2 = frames b1 /\ playback_position b2 = playback_position b1 /\
    current_frame b2 = current_frame b1 /\ current_frame_offset b2 = current_frame_offset b1 /\ config b2 = config b1)
    as (E0 & E1 & E2 & E3 & E4 & E5).
  { destruct Hm as (_ & Hst & _). unfold b2. destruct (frames b1) eqn:?, (started b1) eqn:?; cbn; split_and!; congruence. }
  fold b2. clearbody b2. unfold buf_ok in Hb1. rewrite <- E1, <- E3, <- E4, <- E5 in Hb1.
  destruct (update_depth_ok b2) as (d & Hd); [apply Hb1..|]. rewrite Hd. cbn.
  eexists _, out, b1, _. split_and!; [done|reflexivity|done|exact Hb1|done|destruct Hm; cbn; congruence|]. cbn. congruence.
Qed.

(** The loop reads and writes only these fields (and the statistics). *)
Definition core (b : JitterBuffer) :=
  (frames b, playback_position b, current_frame b, current_frame_offset b, config b).

Lemma core_set_current b b' f o : core b = core b' -> core (set_current b f o) = core (set_current b' f o).
Proof. unfold core. cbn. congruence. Qed.

Lemma consume_core b b' f n b2 : core b = core b' -> consume b f n = Ok b2 ->
  exists b2', consume b' f n = Ok b2' /\ core b2 = core b2'.
Proof.
  unfold core, consume, frame_done, duration. intros Hc H. injection Hc as E1 E2 E3 E4 E5. cbn in *.
  rewrite E4, E5 in H. repeat case_match; cbn in *; simplify_eq; eexists; (split; [reflexivity|]); cbn; congruence.
Qed.

Lemma pull_loop_core fuel : forall n now b b' o b1, core b = core b' ->
  pull_loop fuel n now b = Some (Ok (o, b1)) ->
  exists b1', pull_loop fuel n now b' = Some (Ok (o, b1')) /\ core b1 = core b1'.
Proof.
  induction fuel as [|fuel IH]; intros n now b b' o b1 Hc H; [done|]. cbn [pull_loop] in *.
  destruct (Nat.eqb_spec n 0); [injection H as <- <-; by exists b'|].
  assert (frames b' = frames b /\ playback_position b' = playback_position b /\ current_frame b' = current_frame b /\
    current_frame_offset b' = current_frame_offset b /\ config b' = config b) as (E1 & E2 & E3 & E4 & E5).
  { unfold core in Hc. split_and!; congruence. }
  rewrite E1, E2, E3, E4. destruct (current_frame b) as [f|].
  - destruct (_ <? _)%nat; [done|]. destruct (consume b f _) as [b2| |] eqn:Hcons; [|done..].
    apply loop_ok_inv in H as (out & H & ->).
    destruct (consume_core _ b' _ _ _ Hc Hcons) as (b2' & -> & Hc2).
    destruct (IH _ _ _ b2' _ _ Hc2 H) as (b1' & -> & Hc1). by exists b1'.
  - destruct (remove _ _) as [[f|] m].
    + eapply IH, H. unfold core in *. cbn. congruence.
    + eapply IH, H. unfold core, silence in *. cbn. congruence.
Qed.

(** ** Overflow while playing *)

(** While playing, the depth is measured from the play position to the end of
    the last frame. *)
Definition playing_depth (b : JitterBuffer) (f : AudioFrame) : outcome Empty_set Z :=
  e ← frame_end (config b) f;
  o ← duration (config b) (current_frame_offset b);
  depth_ms (config b) e (playback_position b +%u32 o).

Lemma depth_playing b k f : state b <> Buffering -> last (frames b) = Some (k, f) ->
  update_depth b = (d ← playing_depth b f; Ok (upd_stats b (set_depth d))).
Proof.
  intros Hs Hl. unfold update_depth, playing_depth. rewrite Hl, bool_decide_eq_false_2 by done.
  by destruct (frame_end _ _); [destruct (duration _ _)| |].
Qed.

Lemma last_cons_ne {A} (x : A) l : l <> [] -> last (x :: l) = last l.
Proof. destruct l; [done|]. intros _. apply last_cons_cons. Qed.

(** The recorded depth is that of the last frame, and above the target. *)
Definition too_deep (b : JitterBuffer) : Prop :=
  forall k f, last (frames b) = Some (k, f) ->
    playing_depth b f = Ok (current_depth_ms (stats b)) /\ target_depth_ms (config b) < current_depth_ms (stats b).

Lemma overflow_loop_all fuel : forall b, buf_ok b -> state b <> Buffering -> (length (frames b) < fuel)%nat ->
  too_deep b -> exists b', overflow_loop fuel b = Some (Ok b') /\ frames b' = [].
Proof.
  induction fuel as [|fuel IH]; intros b Hb Hs Hl Hd; [lia|]. cbn [overflow_loop].
  destruct (frames b) as [|[k f] m] eqn:Hf.
  { exists b. by case_match. }
  destruct (last (frames b)) as [[k' f']|] eqn:Hlast; [|rewrite last_None in Hlast; congruence].
  destruct (Hd _ _ Hlast) as [Hval Hgt]. rewrite (proj2 (Z.ltb_lt _ _)) by done.
  cbn [first_key head fmap option_fmap option_map fst delete]. rewrite Z.eqb_refl.
  set (b1 := upd_stats (set_frames b m) inc_dropped). pose proof Hb as (Hc & Hr & Hok & Hcur).
  assert (buf_ok b1) as Hb1.
  { split_and!; try done. rewrite Hf in Hok. by apply ok_cons in Hok as [? _]. }
  destruct (update_depth_ok b1 Hc Hr) as (d & Hd1). rewrite Hd1.
  destruct (IH (upd_stats b1 (set_depth d))) as (b' & H1 & H2); [done|done|cbn in *; lia| |by exists b'].
  intros k2 f2 Hl2. change (last m = Some (k2, f2)) in Hl2.
  assert (f2 = f') as ->.
  { rewrite Hf, last_cons_ne in Hlast by (by destruct m). congruence. }
  rewrite (depth_playing b1 k2 f') in Hd1 by done.
  change (playing_depth b1 f') with (playing_depth b f') in Hd1. rewrite Hval in Hd1. cbn in Hd1.
  apply (f_equal (fun r => match r with Ok b => current_depth_ms (stats b) | _ => 0 end)) in Hd1. cbn in Hd1. by subst d.
Qed.

Lemma handle_overflow_all b : buf_ok b -> state b <> Buffering -> too_deep b ->
  exists b', handle_overflow b = Some (Ok b') /\ frames b' = [] /\ state b' = Playing.
Proof.
  intros Hb Hs Hd. unfold handle_overflow.
  destruct (overflow_loop_all (S (length (frames b))) (upd_stats b inc_overflows)) as (b' & -> & Hf); [done|done|cbn; lia|done|].
  cbn. by eexists.
Qed.

Lemma overflow_loop_total fuel : forall b, buf_ok b -> (length (frames b) < fuel)%nat ->
  exists b', overflow_loop fuel b = Some (Ok b') /\ buf_ok b'.
Proof.
  induction fuel as [|fuel IH]; intros b Hb Hl; [lia|]. cbn [overflow_loop]. case_match; [|by exists b].
  destruct (first_key (frames b)) as [ts|] eqn:Hf; [|by exists b].
  apply first_key_get in Hf as (f & Hf). apply length_delete_get in Hf. pose proof Hb as (Hc & Hr & Hok & Hcur).
  destruct (update_depth_ok (upd_stats (set_frames b (delete ts (frames b))) inc_dropped) Hc Hr) as (d & ->).
  apply IH; [|cbn; lia]. split_and!; cbn; auto using delete_ok.
Qed.

(** The buffer with the frame added, before its depth is computed. *)
Definition received (b : JitterBuffer) (frame : AudioFrame) : JitterBuffer :=
  set_frames (set_last (upd_stats (upd_stats b inc_received)
      (add_lost (lost_before (last_sequence b) (sequence frame)))) (Some (sequence frame)))
    (BTreeMap.insert (timestamp frame) frame (frames b)).

Lemma received_ok b frame : buf_ok b -> buf_ok (received b frame).
Proof. intros (Hc & Hr & Hok & Hcur). split_and!; cbn; auto using insert_ok. Qed.

Lemma start_if_ready_ok b : buf_ok b -> buf_ok (start_if_ready b).
Proof. intros Hb. unfold start_if_ready. by case_match. Qed.

Lemma push_unfold b frame : push b frame =
  match update_depth (received b frame) with
  | Ok b =>
      if max_depth_ms (config b) <? current_depth_ms (stats b)
      then r ← handle_overflow b; Some (b ← r; Ok (start_if_ready b))
      else Some (Ok (start_if_ready b))
  | Err e => Some (Err e)
  | Panic => Some Panic
  end.
Proof. done. Qed.

Lemma push_total b frame : buf_ok b -> exists b', push b frame = Some (Ok b') /\ buf_ok b'.
Proof.
  intros Hb. apply (received_ok b frame) in Hb. pose proof Hb as (Hc & Hr & _). rewrite push_unfold.
  destruct (update_depth_ok _ Hc Hr) as (d & ->). case_match; [|eexists; by split; [|apply start_if_ready_ok]].
  unfold handle_overflow.
  destruct (overflow_loop_total (S (length (frames (received b frame)))) (upd_stats (upd_stats (received b frame) (set_depth d)) inc_overflows))
    as (b' & H1 & H2); [done|cbn; lia|]. cbn [frames upd_stats] in *. rewrite H1. cbn.
  eexists. split; [reflexivity|]. by apply start_if_ready_ok.
Qed.

(** ** Properties *)

(** [pull] is exact and independent of the request size. On a well-formed
    buffer that is past buffering it terminates without panicking and returns
    exactly the requested number of samples; pulling [n] frames and then [m]
    returns the same samples as pulling [n + m], and leaves the playback in the
    same place, concealment included. *)
Theorem pull_chunks (b : JitterBuffer) (n m : nat) (now : Z) (Hb : buf_ok b) (Hs : state b <> Buffering) :
  exists o1 b1 o2 b2 b12,
    pull b n now = Some (Ok (o1, b1)) /\ pull b1 m now = Some (Ok (o2, b2)) /\
    pull b (n + m) now = Some (Ok (o1 ++ o2, b12)) /\ core b12 = core b2 /\
    length o1 = (n * Z.to_nat (channels (config b)))%nat /\ length o2 = (m * Z.to_nat (channels (config b)))%nat.
Proof.
  destruct (pull_is_loop b n now Hb Hs) as (f1 & o1 & c1 & b1 & L1 & P1 & N1 & Hb1 & Hs1 & Hcfg1 & C1).
  destruct (pull_is_loop b1 m now Hb1 Hs1) as (f2 & o2 & c2 & b2 & L2 & P2 & N2 & Hb2 & Hs2 & Hcfg2 & C2).
  destruct (pull_is_loop b (n + m) now Hb Hs) as (f3 & o3 & c3 & b3 & L3 & P3 & N3 & Hb3 & Hs3 & Hcfg3 & C3).
  rewrite Hcfg1 in L2, N2. destruct (pull_loop_core f2 _ now b1 c1 o2 c2 C1 L2) as (c2' & L2' & C2').
  pose proof (pull_loop_app _ _ _ _ _ _ _ _ _ _ L1 L2') as L12. rewrite Nat.mul_add_distr_r in L3.
  pose proof (pull_loop_det _ _ _ _ _ _ _ L12 L3) as [= <- <-].
  exists o1, b1, o2, b2, b3. split_and!; [done|done|done| |done|done]. unfold core in *. congruence.
Qed.

(** Gapless playback. When the frames [fs] are buffered back to back from
    the play position, pulling their total length returns exactly their samples
    in timestamp order, whatever the order in which they arrived. *)
Theorem pull_gapless (b : JitterBuffer) (fs : list AudioFrame) (n : nat) (now : Z) (Hb : buf_ok b)
  (Hs : state b <> Buffering) (Hcur : current_frame b = None)
  (Hcon : contiguous (config b) (frames b) (playback_position b) fs)
  (Hn : length (all_samples fs) = (n * Z.to_nat (channels (config b)))%nat) :
  exists b', pull b n now = Some (Ok (all_samples fs, b')).
Proof.
  destruct (pull_is_loop b n now Hb Hs) as (f1 & o1 & c1 & b1 & L1 & P1 & _).
  destruct (pull_contiguous now fs b Hb Hcur Hcon) as (f2 & b2 & L2 & _). rewrite Hn in L2.
  pose proof (pull_loop_det _ _ _ _ _ _ _ L1 L2) as [= <- <-]. by exists b1.
Qed.

(** An overflow during playback empties the buffer. Pushing always
    terminates without panicking on a well-formed buffer; but past buffering,
    when the new depth exceeds the maximum, discarding the oldest frames does
    not reduce the measured depth (it is counted from the play position), so
    every frame is discarded, the one just received included. *)
Theorem overflow_drops_everything (b : JitterBuffer) (frame : AudioFrame) (b1 : JitterBuffer) (Hb : buf_ok b)
  (Hs : state b <> Buffering) (Htarget : target_depth_ms (config b) <= max_depth_ms (config b))
  (Hdepth : update_depth (received b frame) = Ok b1) (Hover : max_depth_ms (config b) < current_depth_ms (stats b1)) :
  exists b', push b frame = Some (Ok b') /\ buf_ok b' /\ frames b' = [] /\ state b' = Playing.
Proof.
  pose proof (received_ok b frame Hb) as Hr. pose proof Hr as (Hc & Hrate & _).
  destruct (push_total b frame Hb) as (b' & Hp & Hb'). exists b'. split; [done|]. split; [done|].
  destruct (update_depth_ok _ Hc Hrate) as (d & Hd). rewrite Hdepth in Hd. injection Hd as ->.
  destruct (handle_overflow_all (upd_stats (received b frame) (set_depth d))) as (b2 & H2 & Hf & Hst); [done|done| |].
  - intros k f Hl. cbn in Hover |- *. split; [|lia]. rewrite (depth_playing _ k f) in Hdepth by done.
    destruct (playing_depth (received b frame) f) as [x| |] eqn:Hx; [|done..]. cbn in Hdepth.
    apply (f_equal (fun r => match r with Ok b => current_depth_ms (stats b) | _ => 0 end)) in Hdepth. cbn in Hdepth.
    by subst x.
  - rewrite push_unfold, Hdepth in Hp. cbn [config upd_stats received set_frames set_last stats] in Hp.
    rewrite (proj2 (Z.ltb_lt _ _)) in Hp by done. cbn in H2. cbn in Hp. rewrite H2 in Hp. cbn in Hp. injection Hp as <-.
    unfold start_if_ready. by rewrite Hst.
Qed.


(** ** Witnesses: mono at one sample per millisecond, frames of two samples *)
Definition cfg : JitterBufferConfig :=
  {| min_depth_ms := 1; max_depth_ms := 4; target_depth_ms := 2; sample_rate := 1000; channels := 1 |}.
Definition frame (t : Z) : AudioFrame := mkFrame t (2 * t) [10 * t; 10 * t + 1] 0.
Definition push_all (b : JitterBuffer) (fs : list AudioFrame) : JitterBuffer :=
  foldl (fun b f => match push b f with Some (Ok b) => b | _ => b end) b fs.
Definition playing : JitterBuffer :=
  Eval vm_compute in push_all (JitterBuffer_new cfg) [frame 0; frame 1].

Lemma playing_ok : buf_ok playing.
Proof. split_and!; [cbn; lia|cbn; lia|repeat constructor|exact I]. Qed.

Lemma pull_chunks_witness : exists o1 b1 o2 b2 b12,
  pull playing 3 7 = Some (Ok (o1, b1)) /\ pull b1 5 7 = Some (Ok (o2, b2)) /\ pull playing 8 7 = Some (Ok (o1 ++ o2, b12)).
Proof.
  destruct (pull_chunks playing 3 5 7 playing_ok) as (o1 & b1 & o2 & b2 & b12 & H1 & H2 & H3 & _); [discriminate|].
  exists o1, b1, o2, b2, b12. split; [exact H1|]. split; [exact H2|exact H3].
Defined.

Lemma pull_gapless_witness : exists b', pull playing 4 7 = Some (Ok ([0; 1; 10; 11], b')).
Proof.
  destruct (pull_gapless playing [frame 0; frame 1] 4 7 playing_ok) as (b' & H).
  - discriminate.
  - reflexivity.
  - split; [reflexivity|]. exists 2%nat. split; [lia|]. split; [reflexivity|]. split; [lia|].
    split; [reflexivity|]. exists 2%nat. split; [lia|]. split; [reflexivity|]. split; [lia|]. exact I.
  - reflexivity.
  - exists b'. exact H.
Defined.

Lemma overflow_drops_everything_witness :
  frames playing = [(0, frame 0); (2, frame 1)] /\ exists b', push playing (frame 2) = Some (Ok b') /\ frames b' = [].
Proof.
  split; [vm_compute; reflexivity|].
  destruct (update_depth (received playing (frame 2))) as [b1| |] eqn:Hd; [|vm_compute in Hd; discriminate..].
  destruct (overflow_drops_everything playing (frame 2) b1 playing_ok) as (b' & H1 & _ & H2 & _).
  - discriminate.
  - vm_compute. discriminate.
  - exact Hd.
  - vm_compute in Hd. injection Hd as <-. vm_compute. reflexivity.
  - exists b'. split; [exact H1|exact H2].
Defined.

End Ap2Jitter.
