(* ===== verification/Ptp.v ===== *)
(** * PTP timestamps and messages

    Models [src/protocol/ptp/timestamp.rs] and [src/protocol/ptp/message.rs]:
    the IEEE 1588 and the compact AirPlay timestamp formats, the 34-byte header,
    the six message bodies and the 24-byte AirPlay timing packet.  The wall clock
    is an argument: the seconds and nanoseconds since the Unix epoch. *)

From S2P Require Import Bytes.

Module Ptp.

(** ** Timestamps *)
Record PtpTimestamp := mkTs { seconds : Z; nanoseconds : Z }.

#[export] Instance PtpTimestamp_eq_dec : EqDecision PtpTimestamp.
Proof. solve_decision. Defined.

Definition NANOS_PER_SEC : Z := 1000000000.
Definition MAX_SECONDS_48BIT : Z := Z.shiftl 1 48 - 1.

Definition PtpTimestamp_new (secs nanos : Z) : PtpTimestamp :=
  mkTs secs (Z.min nanos (NANOS_PER_SEC - 1)).

(** [PtpTimestamp::now] at a clock reading. *)
Definition PtpTimestamp_now (secs nanos : Z) : PtpTimestamp := mkTs secs nanos.

Definition ZERO : PtpTimestamp := mkTs 0 0.

(** In [i128], where no [u64] of seconds overflows. *)
Definition to_nanos (t : PtpTimestamp) : Z := seconds t * NANOS_PER_SEC + nanoseconds t.

Definition from_nanos {E} (nanos : Z) : outcome E PtpTimestamp :=
  if nanos <? 0 then Panic
  else
    s ← chk_u 64 (nanos / NANOS_PER_SEC);
    Ok (mkTs s (nanos mod NANOS_PER_SEC)).

(** [(seconds as i64 * 1_000_000) + (nanoseconds / 1_000)] in [i64]. *)
Definition to_micros {E} (t : PtpTimestamp) : outcome E Z :=
  p ← chk_i 64 (sext 64 (seconds t) * 1000000);
  chk_i 64 (p + nanoseconds t / 1000).

Definition diff_nanos (t other : PtpTimestamp) : Z := to_nanos t - to_nanos other.

Definition diff_micros {E} (t other : PtpTimestamp) : outcome E Z :=
  a ← to_micros t; b ← to_micros other; chk_i 64 (a - b).

Definition encode_ieee1588 (t : PtpTimestamp) : list Z :=
  drop 2 (to_be 8 (seconds t)) ++ to_be 4 (nanoseconds t).

Definition decode_ieee1588 (data : list Z) : option PtpTimestamp :=
  if (length data <? 10)%nat then None
  else Some (mkTs (from_be (take 6 data)) (from_be (take 4 (drop 6 data)))).

Definition to_airplay_compact (t : PtpTimestamp) : Z :=
  let fraction := wrap 16 (nanoseconds t * 65536 / NANOS_PER_SEC) in
  let seconds_48 := Z.land (seconds t) MAX_SECONDS_48BIT in
  Z.lor (wrap 64 (Z.shiftl seconds_48 16)) fraction.

Definition from_airplay_compact (value : Z) : PtpTimestamp :=
  let fraction := Z.land value 0xFFFF in
  mkTs (Z.shiftr value 16) (Z.min (fraction * NANOS_PER_SEC / 65536) (NANOS_PER_SEC - 1)).

(** A [Duration] is its seconds and its nanoseconds below one second. *)
Record Duration := mkDuration { as_secs : Z; subsec_nanos : Z }.

(** [Duration::new]: nanoseconds of a second or more are carried over. *)
Definition to_duration {E} (t : PtpTimestamp) : outcome E Duration :=
  s ← chk_u 64 (seconds t + nanoseconds t / NANOS_PER_SEC);
  Ok (mkDuration s (nanoseconds t mod NANOS_PER_SEC)).

Definition from_duration (d : Duration) : PtpTimestamp := mkTs (as_secs d) (subsec_nanos d).

Definition add_duration {E} (t : PtpTimestamp) (d : Duration) : outcome E PtpTimestamp :=
  let total_nanos := nanoseconds t + subsec_nanos d in
  let carry := total_nanos / NANOS_PER_SEC in
  s ← chk_u 64 (seconds t + as_secs d);
  s ← chk_u 64 (s + carry);
  Ok (mkTs s (total_nanos mod NANOS_PER_SEC)).

(** ** Message types *)
Inductive PtpMessageType := Sync | DelayReq | FollowUp | DelayResp | Announce | Signaling.

#[export] Instance PtpMessageType_eq_dec : EqDecision PtpMessageType.
Proof. solve_decision. Defined.

Definition type_as_u8 (t : PtpMessageType) : Z :=
  match t with
  | Sync => 0x00 | DelayReq => 0x01 | FollowUp => 0x08
  | DelayResp => 0x09 | Announce => 0x0B | Signaling => 0x0C
  end.

Inductive PtpParseError := TooShort (needed have : Z) | UnknownMessageType (value : Z).

Definition from_nibble (value : Z) : outcome PtpParseError PtpMessageType :=
  match Z.land value 0x0F with
  | 0x00 => Ok Sync | 0x01 => Ok DelayReq | 0x08 => Ok FollowUp
  | 0x09 => Ok DelayResp | 0x0B => Ok Announce | 0x0C => Ok Signaling
  | other => Err (UnknownMessageType other)
  end.

Definition is_event (t : PtpMessageType) : bool :=
  match t with Sync | DelayReq => true | _ => false end.
Definition is_ignorable (t : PtpMessageType) : bool :=
  match t with Signaling => true | _ => false end.
Definition is_general (t : PtpMessageType) : bool := negb (is_event t).

(** ** Port identity and header *)
Record PtpPortIdentity := mkPort { clock_identity : Z; port_number : Z }.

Definition port_encode (p : PtpPortIdentity) : list Z :=
  to_be 8 (clock_identity p) ++ to_be 2 (port_number p).

Definition port_decode (data : list Z) : option PtpPortIdentity :=
  if (length data <? 10)%nat then None
  else Some (mkPort (from_be (take 8 data)) (from_be (take 2 (drop 8 data)))).

Record PtpHeader := mkHeader {
  transport_specific : Z;
  message_type : PtpMessageType;
  version : Z;
  message_length : Z;
  domain_number : Z;
  flags : Z;
  correction_field : Z;
  source_port_identity : PtpPortIdentity;
  sequence_id : Z;
  control_field : Z;
  log_message_interval : Z
}.

Definition HEADER_SIZE : nat := 34.
Definition PTP_VERSION_2 : Z := 2.

Definition PtpHeader_new (t : PtpMessageType) (source : PtpPortIdentity) (seq : Z) : PtpHeader := {|
  transport_specific := 1;
  message_type := t;
  version := PTP_VERSION_2;
  message_length := 0;
  domain_number := 0;
  flags := 0;
  correction_field := 0;
  source_port_identity := source;
  sequence_id := seq;
  control_field :=
    match t with
    | Sync => 0x00 | DelayReq => 0x01 | FollowUp => 0x02 | DelayResp => 0x03
    | Announce | Signaling => 0x05
    end;
  log_message_interval := match t with Sync => -3 | Announce => -2 | _ => 0x7F end
|}.

Definition PtpHeader_encode (h : PtpHeader) (body_length : nat) : list Z :=
  [ Z.lor (wrap 8 (Z.shiftl (transport_specific h) 4)) (Z.land (type_as_u8 (message_type h)) 0x0F);
    Z.land (version h) 0x0F ]
  ++ to_be 2 (Z.min (Z.of_nat (HEADER_SIZE + body_length)) 65535)
  ++ [domain_number h; 0]
  ++ to_be 2 (flags h)
  ++ to_be 8 (wrap 64 (correction_field h))
  ++ replicate 4 0
  ++ port_encode (source_port_identity h)
  ++ to_be 2 (sequence_id h)
  ++ [control_field h; wrap 8 (log_message_interval h)].

Definition PtpHeader_decode (data : list Z) : outcome PtpParseError PtpHeader :=
  if (length data <? HEADER_SIZE)%nat
  then Err (TooShort (Z.of_nat HEADER_SIZE) (Z.of_nat (length data)))
  else
    b0 ← byte_at data 0;
    t ← from_nibble b0;
    ps ← slice data 20 30;
    source ← ok_or (port_decode ps) (TooShort 30 (Z.of_nat (length data)));
    b1 ← byte_at data 1;
    len ← be_at data 2 2;
    dom ← byte_at data 4;
    fl ← be_at data 6 2;
    corr ← be_at data 8 8;
    seq ← be_at data 30 2;
    ctl ← byte_at data 32;
    log ← byte_at data 33;
    Ok {| transport_specific := Z.shiftr b0 4;
          message_type := t;
          version := Z.land b1 0x0F;
          message_length := len;
          domain_number := dom;
          flags := fl;
          correction_field := sext 64 corr;
          source_port_identity := source;
          sequence_id := seq;
          control_field := ctl;
          log_message_interval := sext 8 log |}.

(** ** Messages *)
Inductive PtpMessageBody :=
| BSync (origin_timestamp : PtpTimestamp)
| BFollowUp (precise_origin_timestamp : PtpTimestamp)
| BDelayReq (origin_timestamp : PtpTimestamp)
| BDelayResp (receive_timestamp : PtpTimestamp) (requesting_port_identity : PtpPortIdentity)
| BAnnounce (origin_timestamp : PtpTimestamp) (grandmaster_identity priority1 priority2 : Z)
| BSignaling.

Record PtpMessage := mkMsg { header : PtpHeader; body : PtpMessageBody }.

Definition TIMESTAMP_BODY_SIZE : nat := 10.
Definition DELAY_RESP_BODY_SIZE : nat := 20.
Definition ANNOUNCE_BODY_SIZE : nat := 30.

Definition decode_body (t : PtpMessageType) (total : nat) (b : list Z) : outcome PtpParseError PtpMessageBody :=
  let short n := TooShort (Z.of_nat (HEADER_SIZE + n)) (Z.of_nat total) in
  match t with
  | Sync => ts ← ok_or (decode_ieee1588 b) (short TIMESTAMP_BODY_SIZE); Ok (BSync ts)
  | FollowUp => ts ← ok_or (decode_ieee1588 b) (short TIMESTAMP_BODY_SIZE); Ok (BFollowUp ts)
  | DelayReq => ts ← ok_or (decode_ieee1588 b) (short TIMESTAMP_BODY_SIZE); Ok (BDelayReq ts)
  | DelayResp =>
      if (length b <? DELAY_RESP_BODY_SIZE)%nat then Err (short DELAY_RESP_BODY_SIZE)
      else
        ts ← ok_or (decode_ieee1588 b) (short DELAY_RESP_BODY_SIZE);
        ps ← slice b 10 20;
        port ← ok_or (port_decode ps) (short DELAY_RESP_BODY_SIZE);
        Ok (BDelayResp ts port)
  | Announce =>
      if (length b <? 10)%nat then Err (short 10%nat)
      else
        ts ← ok_or (decode_ieee1588 b) (short 10%nat);
        if (ANNOUNCE_BODY_SIZE <=? length b)%nat then
          gm ← be_at b 19 8;
          p1 ← byte_at b 13;
          p2 ← byte_at b 18;
          Ok (BAnnounce ts gm p1 p2)
        else Ok (BAnnounce ts 0 128 128)
  | Signaling => Ok BSignaling
  end.

Definition PtpMessage_decode (data : list Z) : outcome PtpParseError PtpMessage :=
  h ← PtpHeader_decode data;
  b ← slice data HEADER_SIZE (length data);
  bd ← decode_body (message_type h) (length data) b;
  Ok (mkMsg h bd).

Definition encode_body (m : PtpMessage) : list Z :=
  match body m with
  | BSync ts | BFollowUp ts | BDelayReq ts => encode_ieee1588 ts
  | BDelayResp ts port => encode_ieee1588 ts ++ port_encode port
  | BAnnounce ts gm p1 p2 =>
      encode_ieee1588 ts ++ to_be 2 37 ++ [0] ++ [p1] ++ [248; 0xFE; 0xFF; 0xFF] ++ [p2] ++
      to_be 8 gm ++ to_be 2 0 ++ [0xA0]
  | BSignaling => []
  end.

Definition PtpMessage_encode (m : PtpMessage) : list Z :=
  let body_bytes := encode_body m in
  PtpHeader_encode (header m) (length body_bytes) ++ body_bytes.

Definition sync (source : PtpPortIdentity) (seq : Z) (ts : PtpTimestamp) : PtpMessage :=
  mkMsg (PtpHeader_new Sync source seq) (BSync ts).
Definition follow_up (source : PtpPortIdentity) (seq : Z) (ts : PtpTimestamp) : PtpMessage :=
  mkMsg (PtpHeader_new FollowUp source seq) (BFollowUp ts).
Definition delay_req (source : PtpPortIdentity) (seq : Z) (ts : PtpTimestamp) : PtpMessage :=
  mkMsg (PtpHeader_new DelayReq source seq) (BDelayReq ts).
Definition delay_resp (source : PtpPortIdentity) (seq : Z) (ts : PtpTimestamp) (req : PtpPortIdentity) : PtpMessage :=
  mkMsg (PtpHeader_new DelayResp source seq) (BDelayResp ts req).
(** [now]: the origin timestamp. *)
Definition announce (source : PtpPortIdentity) (seq gm p1 p2 : Z) (now : PtpTimestamp) : PtpMessage :=
  mkMsg (PtpHeader_new Announce source seq) (BAnnounce now gm p1 p2).

(** ** AirPlay timing packets *)
Record AirPlayTimingPacket := mkPkt {
  pkt_type : PtpMessageType; pkt_sequence_id : Z; pkt_timestamp : PtpTimestamp; pkt_clock_id : Z
}.

Definition PKT_SIZE : nat := 24.

Definition pkt_decode (data : list Z) : outcome PtpParseError AirPlayTimingPacket :=
  if (length data <? 22)%nat then Err (TooShort 22 (Z.of_nat (length data)))
  else
    b0 ← byte_at data 0;
    t ← from_nibble b0;
    seq ← be_at data 2 2;
    compact ← be_at data 8 6;
    clock ← be_at data 14 8;
    Ok (mkPkt t seq (from_airplay_compact compact) clock).

Definition pkt_encode (p : AirPlayTimingPacket) : list Z :=
  [type_as_u8 (pkt_type p); 0] ++ to_be 2 (pkt_sequence_id p) ++ replicate 4 0 ++
  drop 2 (to_be 8 (to_airplay_compact (pkt_timestamp p))) ++ to_be 8 (pkt_clock_id p) ++ replicate 2 0.

(** ** Well-formedness *)
Definition ts_ok (t : PtpTimestamp) : Prop := uint 48 (seconds t) /\ uint 32 (nanoseconds t).
Definition port_ok (p : PtpPortIdentity) : Prop := uint 64 (clock_identity p) /\ uint 16 (port_number p).

Definition header_ok (h : PtpHeader) : Prop :=
  uint 4 (transport_specific h) /\ uint 4 (version h) /\ uint 8 (domain_number h) /\ uint 16 (flags h) /\
  sint 64 (correction_field h) /\ port_ok (source_port_identity h) /\ uint 16 (sequence_id h) /\
  uint 8 (control_field h) /\ sint 8 (log_message_interval h) /\ uint 16 (message_length h).

Definition body_type (b : PtpMessageBody) : PtpMessageType :=
  match b with
  | BSync _ => Sync | BFollowUp _ => FollowUp | BDelayReq _ => DelayReq
  | BDelayResp _ _ => DelayResp | BAnnounce _ _ _ _ => Announce | BSignaling => Signaling
  end.

Definition body_ok (b : PtpMessageBody) : Prop :=
  match b with
  | BSync t | BFollowUp t | BDelayReq t => ts_ok t
  | BDelayResp t p => ts_ok t /\ port_ok p
  | BAnnounce t gm p1 p2 => ts_ok t /\ uint 64 gm /\ uint 8 p1 /\ uint 8 p2
  | BSignaling => True
  end.

Definition msg_ok (m : PtpMessage) : Prop :=
  header_ok (header m) /\ body_ok (body m) /\ message_type (header m) = body_type (body m).

Definition with_length (h : PtpHeader) (n : Z) : PtpHeader :=
  mkHeader (transport_specific h) (message_type h) (version h) n (domain_number h) (flags h)
    (correction_field h) (source_port_identity h) (sequence_id h) (control_field h) (log_message_interval h).

(** ** Lemmas *)
Lemma length_ieee1588 t : length (encode_ieee1588 t) = 10%nat.
Proof. done. Qed.
Lemma length_port p : length (port_encode p) = 10%nat.
Proof. done. Qed.
Lemma length_header h n : length (PtpHeader_encode h n) = HEADER_SIZE.
Proof. done. Qed.

#[local] Hint Rewrite length_ieee1588 length_port length_header : bytes.

Lemma encode_ieee1588_eq t : encode_ieee1588 t = to_be 6 (seconds t) ++ to_be 4 (nanoseconds t).
Proof. done. Qed.

Lemma ieee1588_roundtrip t rest : ts_ok t -> decode_ieee1588 (encode_ieee1588 t ++ rest) = Some t.
Proof.
  intros [Hs Hn]. unfold decode_ieee1588. rewrite encode_ieee1588_eq, <- app_assoc.
  rewrite (proj2 (Nat.ltb_ge _ _)) by (autorewrite with bytes; lia).
  rewrite take_app_length', drop_app_length', take_app_length' by (by rewrite length_to_be).
  rewrite !from_be_to_be. unfold uint in *. rewrite !Z.mod_small by (simpl; lia). by destruct t.
Qed.

Lemma ieee1588_roundtrip' t : ts_ok t -> decode_ieee1588 (encode_ieee1588 t) = Some t.
Proof. rewrite <- (app_nil_r (encode_ieee1588 t)). apply ieee1588_roundtrip. Qed.

Lemma port_roundtrip p : port_ok p -> port_decode (port_encode p) = Some p.
Proof.
  intros [Hc Hn]. unfold port_decode, port_encode.
  rewrite (proj2 (Nat.ltb_ge _ _)) by (autorewrite with bytes; lia).
  rewrite take_app_length', drop_app_length', take_ge by (by rewrite length_to_be).
  rewrite !from_be_to_be. unfold uint in *. rewrite !Z.mod_small by (simpl; lia). by destruct p.
Qed.

Lemma ptp_byte0_fields ts t : uint 4 ts ->
  let b := Z.lor (wrap 8 (Z.shiftl ts 4)) (Z.land (type_as_u8 t) 0x0F) in
  Z.shiftr b 4 = ts /\ from_nibble b = Ok t.
Proof.
  intros H. unfold uint in H.
  assert (In ts (seqZ 0 16)) as Hin by (apply list_elem_of_In, elem_of_seqZ; lia).
  simpl in Hin. destruct t; repeat (destruct Hin as [<-|Hin]; [done|]); done.
Qed.

Lemma version_field v : uint 4 v -> Z.land (Z.land v 0x0F) 0x0F = v.
Proof.
  intros H. change 0x0F with (Z.ones 4). rewrite !Z.land_ones by lia.
  rewrite Z.mod_mod by lia. by apply Z.mod_small.
Qed.

Lemma header_roundtrip h n rest : header_ok h ->
  PtpHeader_decode (PtpHeader_encode h n ++ rest) =
  Ok (with_length h (Z.min (Z.of_nat (HEADER_SIZE + n)) 65535)).
Proof.
  destruct h as [ts t v ml dom fl corr src seq ctl lg].
  intros (H1 & H2 & H3 & H4 & H5 & H6 & H7 & H8 & H9 & _). cbn in H1, H2, H3, H4, H5, H6, H7, H8, H9.
  destruct (ptp_byte0_fields ts t H1) as [E1 E2].
  unfold PtpHeader_decode. rewrite (proj2 (Nat.ltb_ge _ _)) by (autorewrite with bytes; unfold HEADER_SIZE; lia).
  unfold PtpHeader_encode.
  cbn [transport_specific message_type version message_length domain_number flags correction_field
       source_port_identity sequence_id control_field log_message_interval].
  set (b0 := Z.lor _ _) in *. rewrite <- !app_assoc.
  cbn [app byte_at unwrap lookup list_lookup mbind outcome_bind]. rewrite E2. cbn [mbind outcome_bind].
  read_bytes. rewrite port_roundtrip by done. cbn [ok_or mbind outcome_bind]. read_bytes.
  unfold with_length. cbn. rewrite E1, version_field by done.
  pose proof (wrap_range 64 corr ltac:(lia)) as Hw. unfold port_ok, uint in *.
  rewrite !Z.mod_small by (cbn; lia). by rewrite !sext_wrap.
Qed.

Lemma body_roundtrip h b total : body_ok b ->
  decode_body (body_type b) total (encode_body (mkMsg h b)) = Ok b.
Proof.
  unfold encode_body. destruct b as [t|t|t|t p|t gm p1 p2|]; cbn [body body_type decode_body body_ok]; intros Hok.
  1-3: by rewrite ieee1588_roundtrip'.
  - destruct Hok as [Ht Hp]. rewrite (proj2 (Nat.ltb_ge _ _)) by (autorewrite with bytes; unfold DELAY_RESP_BODY_SIZE; lia).
    rewrite ieee1588_roundtrip by done. cbn [ok_or mbind outcome_bind]. read_bytes. by rewrite port_roundtrip.
  - destruct Hok as (Ht & Hg & H1 & H2).
    rewrite (proj2 (Nat.ltb_ge _ _)) by (autorewrite with bytes; lia).
    rewrite ieee1588_roundtrip by done. cbn [ok_or mbind outcome_bind].
    rewrite (proj2 (Nat.leb_le _ _)) by (autorewrite with bytes; unfold ANNOUNCE_BODY_SIZE; cbn; lia).
    read_bytes. unfold uint in Hg. by rewrite Z.mod_small by (cbn; lia).
  - done.
Qed.

Lemma message_roundtrip m : msg_ok m ->
  PtpMessage_decode (PtpMessage_encode m) =
  Ok (mkMsg (with_length (header m) (Z.of_nat (length (PtpMessage_encode m)))) (body m)).
Proof.
  destruct m as [h b]. intros (Hh & Hb & Ht). cbn [header body] in *.
  unfold PtpMessage_decode, PtpMessage_encode. cbn [header].
  rewrite header_roundtrip by done. cbn [mbind outcome_bind].
  rewrite slice_in by (autorewrite with bytes; lia).
  rewrite length_app, length_header. rewrite drop_app_length' by done. rewrite take_ge by lia.
  cbn [mbind outcome_bind with_length message_type]. rewrite Ht, body_roundtrip by done. cbn.
  rewrite Z.min_l; [done|]. destruct b; cbn; lia.
Qed.

Lemma from_nibble_safe v : safe (from_nibble v).
Proof. unfold from_nibble. repeat case_m; done. Qed.

Lemma header_decode_safe data : safe (PtpHeader_decode data).
Proof.
  unfold PtpHeader_decode, HEADER_SIZE. destruct (Nat.ltb_spec (length data) 34); [done|].
  apply safe_bind; [apply byte_at_safe; lia|]. intros b0 _. apply safe_bind; [apply from_nibble_safe|]. intros t _.
  rewrite slice_in by lia. cbn [mbind outcome_bind].
  apply safe_bind; [by destruct (port_decode _)|]. intros src _.
  repeat (apply safe_bind; [first [apply byte_at_safe; lia | apply be_at_safe; lia]|]; intros ? _). done.
Qed.

Lemma decode_body_safe t n b : safe (decode_body t n b).
Proof.
  assert (forall o e, safe (ok_or (E := PtpParseError) (A := PtpTimestamp) o e)) as Ho by (by intros []).
  destruct t; cbn [decode_body]; cbv zeta; try (apply safe_bind; [apply Ho|done]); [| |done].
  - case_match; [done|]. apply safe_bind; [apply Ho|]. intros ts _. unfold DELAY_RESP_BODY_SIZE in *. bool_to_prop.
    rewrite slice_in by lia. cbn [mbind outcome_bind]. apply safe_bind; [by destruct (port_decode _)|done].
  - case_match; [done|]. apply safe_bind; [apply Ho|]. intros ts _. unfold ANNOUNCE_BODY_SIZE.
    destruct (Nat.leb_spec 30 (length b)); [|done].
    repeat (apply safe_bind; [first [apply byte_at_safe; lia | apply be_at_safe; lia]|]; intros ? _). done.
Qed.

Lemma message_decode_safe data : safe (PtpMessage_decode data).
Proof.
  apply safe_bind; [apply header_decode_safe|]. intros h Hh. unfold PtpHeader_decode in Hh.
  destruct (Nat.ltb_spec (length data) HEADER_SIZE); [done|]. rewrite slice_in by lia. cbn [mbind outcome_bind].
  apply safe_bind; [apply decode_body_safe|done].
Qed.

Lemma pkt_decode_safe data : safe (pkt_decode data).
Proof.
  unfold pkt_decode. destruct (Nat.ltb_spec (length data) 22); [done|].
  apply safe_bind; [apply byte_at_safe; lia|]. intros b0 _. apply safe_bind; [apply from_nibble_safe|]. intros t _.
  repeat (apply safe_bind; [apply be_at_safe; lia|]; intros ? _). done.
Qed.

(** *** Decoded values fit their fields *)
Lemma ieee1588_typed b t : bytes_ok b -> decode_ieee1588 b = Some t -> ts_ok t.
Proof.
  unfold decode_ieee1588. intros Hb. destruct (Nat.ltb_spec (length b) 10); intros [= <-].
  pose proof (from_be_take_range b 0 6 Hb ltac:(lia)). pose proof (from_be_take_range b 6 4 Hb ltac:(lia)).
  rewrite drop_0 in *. done.
Qed.

Lemma port_typed b p : bytes_ok b -> port_decode b = Some p -> port_ok p.
Proof.
  unfold port_decode. intros Hb. destruct (Nat.ltb_spec (length b) 10); intros [= <-].
  pose proof (from_be_take_range b 0 8 Hb ltac:(lia)). pose proof (from_be_take_range b 8 2 Hb ltac:(lia)).
  rewrite drop_0 in *. done.
Qed.

Lemma from_nibble_wp v : wp (from_nibble v) (fun t => Z.land v 0x0F = type_as_u8 t).
Proof. unfold from_nibble. repeat case_m; done. Qed.

Lemma header_typed data : bytes_ok data -> wp (PtpHeader_decode data) header_ok.
Proof.
  intros Hd. unfold PtpHeader_decode, HEADER_SIZE. destruct (Nat.ltb_spec (length data) 34); [done|].
  apply wp_bind. eapply wp_mono; [apply byte_at_wp; [done|lia]|]. intros b0 Hb0.
  apply wp_bind. eapply wp_mono; [apply from_nibble_wp|]. intros t _.
  rewrite slice_in by lia. cbn [mbind outcome_bind].
  apply wp_bind, wp_ok_or. intros src Hsrc%port_typed; [|auto with rust].
  repeat (apply wp_bind; eapply wp_mono; [first [apply byte_at_wp|apply be_at_wp]; [done|lia]|]; intros ? ?).
  unfold header_ok, uint, byte_ok in *. cbn -[sext Z.shiftr Z.land Z.pow]. cbn in Hb0.
  assert (0 <= Z.land a 0x0F < 2 ^ 4)
    by (change 0x0F with (Z.ones 4); rewrite Z.land_ones by lia; by apply Z.mod_pos_bound).
  assert (0 <= Z.shiftr b0 4 < 2 ^ 4) by (rewrite Z.shiftr_div_pow2 by lia; cbn; Z.to_euclidean_division_equations; lia).
  split_and!; first [by apply sext_range|done|lia].
Qed.

Lemma decode_body_typed t n b : bytes_ok b -> wp (decode_body t n b) (fun bd => body_ok bd /\ body_type bd = t).
Proof.
  intros Hb. assert (forall (e : PtpParseError) (Q : PtpMessageBody -> Prop) k, (forall ts, ts_ok ts -> wp (E := PtpParseError) (k ts) Q) ->
    wp (E := PtpParseError) (ts ← ok_or (decode_ieee1588 b) e; k ts) Q) as Hts.
  { intros e Q k Hk. apply wp_bind, wp_ok_or. intros ts Hts. by apply Hk; eapply ieee1588_typed. }
  destruct t; cbn [decode_body]; cbv zeta; try (apply Hts; by intros); [| |done].
  - destruct (Nat.ltb_spec (length b) DELAY_RESP_BODY_SIZE); [done|]. unfold DELAY_RESP_BODY_SIZE in *.
    apply Hts. intros ts Ht. rewrite slice_in by lia. cbn [mbind outcome_bind].
    apply wp_bind, wp_ok_or. intros p Hp%port_typed; [done|auto with rust].
  - destruct (Nat.ltb_spec (length b) 10); [done|]. apply Hts. intros ts Ht. unfold ANNOUNCE_BODY_SIZE.
    destruct (Nat.leb_spec 30 (length b)); [|by cbn].
    repeat (apply wp_bind; eapply wp_mono; [first [apply byte_at_wp|apply be_at_wp]; [done|lia]|]; intros ? ?).
    by cbn.
Qed.

Lemma message_typed data : bytes_ok data -> wp (PtpMessage_decode data) msg_ok.
Proof.
  intros Hd. unfold PtpMessage_decode. pose proof (header_typed data Hd) as Hh.
  destruct (PtpHeader_decode data) as [h|e|] eqn:Eh; [|done|done]. cbn [mbind outcome_bind].
  unfold PtpHeader_decode in Eh. destruct (Nat.ltb_spec (length data) HEADER_SIZE); [done|]. clear Eh.
  rewrite slice_in by lia. cbn [mbind outcome_bind].
  apply wp_bind. eapply wp_mono; [apply decode_body_typed; auto with rust|]. intros bd [Hb Ht]. by cbn.
Qed.

Definition pkt_ok (p : AirPlayTimingPacket) : Prop :=
  uint 16 (pkt_sequence_id p) /\ uint 64 (pkt_clock_id p) /\ uint 32 (seconds (pkt_timestamp p)) /\
  0 <= nanoseconds (pkt_timestamp p) < NANOS_PER_SEC.

Lemma from_compact_typed v : 0 <= v < 2 ^ 48 ->
  uint 32 (seconds (from_airplay_compact v)) /\ 0 <= nanoseconds (from_airplay_compact v) < NANOS_PER_SEC.
Proof.
  intros Hv. unfold from_airplay_compact, uint, NANOS_PER_SEC. cbn [seconds nanoseconds].
  rewrite Z.shiftr_div_pow2 by lia. change 0xFFFF with (Z.ones 16). rewrite Z.land_ones by lia.
  pose proof (Z.mod_pos_bound v (2 ^ 16)). change (2 ^ 16) with 65536 in *.
  split; [split; [apply Z.div_pos; lia|apply Z.div_lt_upper_bound; lia]|].
  assert (0 <= v mod 65536 * 1000000000 / 65536) by (apply Z.div_pos; lia). lia.
Qed.

Lemma pkt_typed data : bytes_ok data -> wp (pkt_decode data) pkt_ok.
Proof.
  intros Hd. unfold pkt_decode. destruct (Nat.ltb_spec (length data) 22); [done|].
  apply wp_bind. eapply wp_mono; [apply byte_at_wp; [done|lia]|]. intros b0 Hb0.
  apply wp_bind. eapply wp_mono; [apply from_nibble_wp|]. intros t _.
  repeat (apply wp_bind; eapply wp_mono; [apply be_at_wp; [done|lia]|]; intros ? ?).
  unfold pkt_ok. cbn [wp pkt_sequence_id pkt_clock_id pkt_timestamp]. split_and!; try done; by apply from_compact_typed.
Qed.

(** *** The compact format *)
Lemma compact_value t : 0 <= seconds t -> 0 <= nanoseconds t < NANOS_PER_SEC ->
  to_airplay_compact t = (seconds t mod 2 ^ 48) * 65536 + nanoseconds t * 65536 / NANOS_PER_SEC.
Proof.
  intros Hs Hn. unfold to_airplay_compact. unfold NANOS_PER_SEC in *.
  assert (0 <= nanoseconds t * 65536 / 1000000000 < 65536)
    by (split; [apply Z.div_pos; lia|apply Z.div_lt_upper_bound; lia]).
  rewrite (wrap_small 16) by (unfold uint; lia).
  change MAX_SECONDS_48BIT with (Z.ones 48). rewrite Z.land_ones by lia.
  pose proof (Z.mod_pos_bound (seconds t) (2 ^ 48)).
  rewrite (wrap_small 64) by (unfold uint; rewrite Z.shiftl_mul_pow2 by lia; lia).
  rewrite lor_shiftl by (unfold uint; lia). lia.
Qed.

Lemma compact_fields s f : 0 <= f < 65536 -> from_airplay_compact (s * 65536 + f) = mkTs s (f * NANOS_PER_SEC / 65536).
Proof.
  intros Hf. unfold from_airplay_compact. rewrite Z.shiftr_div_pow2 by lia.
  change 0xFFFF with (Z.ones 16). rewrite Z.land_ones by lia. change (2 ^ 16) with 65536.
  rewrite Z.div_add_l, (Z.div_small f), Z.add_0_r by lia.
  rewrite Z.add_comm, Z.mod_add, Z.mod_small by lia. f_equal. apply Z.min_l.
  unfold NANOS_PER_SEC. enough (f * 1000000000 / 65536 < 1000000000) by lia. apply Z.div_lt_upper_bound; lia.
Qed.

(** Reading a compact timestamp back loses less than a 65536th of a second. *)
Lemma compact_error n : 0 <= n < NANOS_PER_SEC ->
  let n' := (n * 65536 / NANOS_PER_SEC) * NANOS_PER_SEC / 65536 in 0 <= n' <= n /\ n - n' <= 15259.
Proof. unfold NANOS_PER_SEC. intros Hn. cbv zeta. Z.to_euclidean_division_equations. lia. Qed.

(** *** What the decoder keeps of the bytes *)

(** The bytes of the body a message of a type must have. *)
Definition body_size (t : PtpMessageType) : nat :=
  match t with Sync | FollowUp | DelayReq | Announce => 10 | DelayResp => 20 | Signaling => 0 end.

(** The header of [data] with a length of [len]: the high half of the version byte and
    the reserved bytes are zero, the rest is as it was. *)
Definition header_on_wire (data : list Z) (len : Z) : list Z :=
  take 1 data ++ [Z.land (nth 1 data 0) 0x0F] ++ to_be 2 len ++ take 1 (drop 4 data) ++ [0] ++
  take 10 (drop 6 data) ++ replicate 4 0 ++ take 14 (drop 20 data).

Definition body_on_wire (b : PtpMessageBody) (wire : list Z) : Prop :=
  match b with
  | BSync t | BFollowUp t | BDelayReq t => take 10 wire = encode_ieee1588 t
  | BDelayResp t p => take 20 wire = encode_ieee1588 t ++ port_encode p
  | BAnnounce t gm p1 p2 => take 10 wire = encode_ieee1588 t /\
      if (ANNOUNCE_BODY_SIZE <=? length wire)%nat
      then take 8 (drop 19 wire) = to_be 8 gm /\ wire !! 13%nat = Some p1 /\ wire !! 18%nat = Some p2
      else gm = 0 /\ p1 = 128 /\ p2 = 128
  | BSignaling => True
  end.

Lemma byte0_back b t : byte_ok b -> Z.land b 0x0F = type_as_u8 t ->
  Z.lor (wrap 8 (Z.shiftl (Z.shiftr b 4) 4)) (Z.land (type_as_u8 t) 0x0F) = b.
Proof.
  intros Hb <-. rewrite <- Z.land_assoc, Z.land_diag. unfold byte_ok in Hb.
  rewrite wrap_small.
  - apply Z.bits_inj'. intros n Hn. rewrite Z.lor_spec, Z.land_spec. change 0x0F with (Z.ones 4).
    rewrite Z.testbit_ones_nonneg by lia. destruct (Z.ltb_spec n 4).
    + rewrite Z.shiftl_spec_low by lia. by rewrite andb_true_r.
    + rewrite Z.shiftl_spec, Z.shiftr_spec by lia. rewrite andb_false_r, orb_false_r. f_equal. lia.
  - unfold uint. rewrite Z.shiftl_mul_pow2, Z.shiftr_div_pow2 by lia. change (2 ^ 4) with 16. pose proof (Z.div_mod b 16). pose proof (Z.mod_pos_bound b 16). lia.
Qed.

Lemma ieee1588_on_wire b t : bytes_ok b -> decode_ieee1588 b = Some t -> take 10 b = encode_ieee1588 t.
Proof.
  unfold decode_ieee1588. intros Hb. destruct (Nat.ltb_spec (length b) 10); intros [= <-].
  rewrite encode_ieee1588_eq. cbn [seconds nanoseconds]. change 10%nat with (6 + 4)%nat. rewrite take_split.
  f_equal; [|by rewrite to_be_take by (done || lia)]. pose proof (to_be_take b 0 6 Hb ltac:(lia)) as H6. by rewrite drop_0 in H6.
Qed.

Lemma port_on_wire b p : bytes_ok b -> port_decode b = Some p -> take 10 b = port_encode p.
Proof.
  unfold port_decode. intros Hb. destruct (Nat.ltb_spec (length b) 10); intros [= <-].
  unfold port_encode. cbn [clock_identity port_number]. change 10%nat with (8 + 2)%nat. rewrite take_split.
  f_equal; [|by rewrite to_be_take by (done || lia)]. pose proof (to_be_take b 0 8 Hb ltac:(lia)) as H6. by rewrite drop_0 in H6.
Qed.

Lemma header_wire data n : bytes_ok data -> wp (PtpHeader_decode data) (fun h =>
  message_length h = from_be (take 2 (drop 2 data)) /\
  PtpHeader_encode h n = header_on_wire data (Z.min (Z.of_nat (HEADER_SIZE + n)) 65535)).
Proof.
  intros Hd. unfold PtpHeader_decode, HEADER_SIZE. destruct (Nat.ltb_spec (length data) 34); [done|].
  apply wp_bind. eapply wp_mono; [apply byte_at_lookup_wp; lia|]. intros b0 Hb0.
  apply wp_bind. eapply wp_mono; [apply from_nibble_wp|]. intros t Ht.
  rewrite slice_in by lia. cbn [mbind outcome_bind].
  apply wp_bind, wp_ok_or. intros src Hsrc%port_on_wire; [|auto with rust].
  apply wp_bind. eapply wp_mono; [apply byte_at_lookup_wp; lia|]. intros b1 Hb1.
  apply wp_bind. eapply wp_mono; [apply be_at_take_wp; [done|lia]|]. intros len [_ Hlen].
  apply wp_bind. eapply wp_mono; [apply byte_at_lookup_wp; lia|]. intros dom Hdom.
  apply wp_bind. eapply wp_mono; [apply be_at_take_wp; [done|lia]|]. intros fl [Hfl _].
  apply wp_bind. eapply wp_mono; [apply be_at_take_wp; [done|lia]|]. intros corr [Hcorr Hcv].
  apply wp_bind. eapply wp_mono; [apply be_at_take_wp; [done|lia]|]. intros seq [Hseq _].
  apply wp_bind. eapply wp_mono; [apply byte_at_lookup_wp; lia|]. intros ctl Hctl.
  apply wp_bind. eapply wp_mono; [apply byte_at_lookup_wp; lia|]. intros lg Hlg.
  cbn [wp message_length]. split; [done|]. unfold PtpHeader_encode, header_on_wire.
  cbn [transport_specific message_type version domain_number flags correction_field source_port_identity sequence_id control_field log_message_interval].
  cbn beta in *. pose proof (from_be_take_range data 8 8 Hd ltac:(lia)) as Hcr. pose proof (bytes_ok_lookup _ _ _ Hd Hlg) as Hlb.
  rewrite (byte0_back b0 t (bytes_ok_lookup _ _ _ Hd Hb0) Ht), <- Z.land_assoc, Z.land_diag.
  rewrite (wrap_sext 64) by (lia || (unfold uint; rewrite Hcv; exact Hcr)). rewrite (wrap_sext 8) by (lia || (unfold uint, byte_ok in *; lia)).
  rewrite take_ge in Hsrc by (rewrite length_take, length_drop; lia).
  rewrite (nth_lookup_Some data 1 0 b1 Hb1).
  assert (take 10 (drop 6 data) = take 2 (drop 6 data) ++ take 8 (drop 8 data)) as -> by exact (fields_split data 6 2 8).
  assert (take 14 (drop 20 data) = take 10 (drop 20 data) ++ take 2 (drop 30 data) ++ take 1 (drop 32 data) ++ take 1 (drop 33 data)) as ->.
  { etransitivity; [exact (fields_split data 20 10 4)|]. f_equal. etransitivity; [exact (fields_split data 30 2 2)|]. f_equal. exact (fields_split data 32 1 1). }
  rewrite (take_1_drop data 4 dom), (take_1_drop data 32 ctl), (take_1_drop data 33 lg) by done.
  replace (take 1 data) with [b0] by (rewrite <- (drop_0 data); symmetry; by apply take_1_drop).
  rewrite Hfl, Hcorr, Hseq, <- Hsrc. rewrite <- !app_assoc. done.
Qed.

Lemma body_wire t n b : bytes_ok b -> wp (decode_body t n b) (fun bd => body_on_wire bd b).
Proof.
  intros Hb. assert (forall (e : PtpParseError) (Q : PtpMessageBody -> Prop) k, (forall ts, take 10 b = encode_ieee1588 ts -> wp (E := PtpParseError) (k ts) Q) ->
    wp (E := PtpParseError) (ts ← ok_or (decode_ieee1588 b) e; k ts) Q) as Hts.
  { intros e Q k Hk. apply wp_bind, wp_ok_or. intros ts Hts. by apply Hk; eapply ieee1588_on_wire. }
  destruct t; cbn [decode_body]; cbv zeta; try (apply Hts; by intros); [| |done].
  - destruct (Nat.ltb_spec (length b) DELAY_RESP_BODY_SIZE); [done|]. unfold DELAY_RESP_BODY_SIZE in *.
    apply Hts. intros ts Ht. rewrite slice_in by lia. cbn [mbind outcome_bind].
    apply wp_bind, wp_ok_or. intros p Hp%port_on_wire; [|auto with rust]. cbn [wp body_on_wire].
    rewrite take_take in Hp. change 20%nat with (10 + 10)%nat. by rewrite take_split, Ht, <- Hp.
  - destruct (Nat.ltb_spec (length b) 10); [done|]. apply Hts. intros ts Ht. unfold ANNOUNCE_BODY_SIZE.
    destruct (Nat.leb_spec 30 (length b)) as [Hl|Hl].
    + apply wp_bind. eapply wp_mono; [apply be_at_take_wp; [done|lia]|]. intros gm [Hgm _].
      apply wp_bind. eapply wp_mono; [apply byte_at_lookup_wp; lia|]. intros p1 Hp1.
      apply wp_bind. eapply wp_mono; [apply byte_at_lookup_wp; lia|]. intros p2 Hp2.
      cbn [wp body_on_wire]. unfold ANNOUNCE_BODY_SIZE. rewrite (proj2 (Nat.leb_le _ _) Hl). done.
    + cbn [wp body_on_wire]. unfold ANNOUNCE_BODY_SIZE. rewrite (proj2 (Nat.leb_gt _ _) Hl). done.
Qed.

Lemma decode_ieee1588_long b : (10 <= length b)%nat -> exists t, decode_ieee1588 b = Some t.
Proof. intros H. unfold decode_ieee1588. rewrite (proj2 (Nat.ltb_ge _ _)) by lia. eauto. Qed.

Lemma port_decode_long b : (10 <= length b)%nat -> exists p, port_decode b = Some p.
Proof. intros H. unfold port_decode. rewrite (proj2 (Nat.ltb_ge _ _)) by lia. eauto. Qed.

Lemma from_nibble_known b t : Z.land b 0x0F = type_as_u8 t -> from_nibble b = Ok t.
Proof. intros H. unfold from_nibble. rewrite H. by destruct t. Qed.

Lemma decode_body_accepts t n b : (body_size t <= length b)%nat -> exists bd, decode_body t n b = Ok bd.
Proof.
  intros Hl. destruct t; cbn [decode_body body_size] in *; [| | | | |by eexists].
  1-3: destruct (decode_ieee1588_long b Hl) as [ts ->]; by eexists.
  - rewrite (proj2 (Nat.ltb_ge _ _)) by (unfold DELAY_RESP_BODY_SIZE; lia). destruct (decode_ieee1588_long b ltac:(lia)) as [ts ->].
    cbn [ok_or mbind outcome_bind]. rewrite slice_in by lia. cbn [mbind outcome_bind].
    destruct (port_decode_long (take (20 - 10) (drop 10 b))) as [p ->]; [rewrite length_take, length_drop; lia|]. by eexists.
  - rewrite (proj2 (Nat.ltb_ge _ _)) by lia. destruct (decode_ieee1588_long b Hl) as [ts ->].
    cbn [ok_or mbind outcome_bind]. unfold ANNOUNCE_BODY_SIZE. destruct (Nat.leb_spec 30 (length b)); [|by eexists].
    rewrite be_at_in by lia. cbn [mbind outcome_bind]. unfold byte_at.
    destruct (lookup_lt_is_Some_2 b 13 ltac:(lia)) as [x ->], (lookup_lt_is_Some_2 b 18 ltac:(lia)) as [y ->]. by eexists.
Qed.

Lemma message_accepted data b t : data !! 0%nat = Some b -> Z.land b 0x0F = type_as_u8 t -> (HEADER_SIZE + body_size t <= length data)%nat ->
  exists m, PtpMessage_decode data = Ok m.
Proof.
  intros Hb Ht Hl. unfold PtpMessage_decode, HEADER_SIZE in *.
  assert (exists h, PtpHeader_decode data = Ok h /\ message_type h = t) as (h & -> & Hh).
  { unfold PtpHeader_decode, HEADER_SIZE. rewrite (proj2 (Nat.ltb_ge _ _)) by lia. unfold byte_at. rewrite Hb. cbn [unwrap mbind outcome_bind].
    rewrite (from_nibble_known b t Ht). cbn [mbind outcome_bind]. rewrite slice_in by lia. cbn [mbind outcome_bind].
    destruct (port_decode_long (take (30 - 20) (drop 20 data))) as [p ->]; [rewrite length_take, length_drop; lia|]. cbn [ok_or mbind outcome_bind].
    destruct (lookup_lt_is_Some_2 data 1 ltac:(lia)) as [x ->], (lookup_lt_is_Some_2 data 4 ltac:(lia)) as [y ->].
    destruct (lookup_lt_is_Some_2 data 32 ltac:(lia)) as [z ->], (lookup_lt_is_Some_2 data 33 ltac:(lia)) as [w ->].
    rewrite !be_at_in by lia. by eexists. }
  cbn [mbind outcome_bind]. rewrite slice_in by lia. cbn [mbind outcome_bind]. rewrite Hh.
  destruct (decode_body_accepts t (length data) (take (length data - 34) (drop 34 data))) as [bd ->]; [rewrite length_take, length_drop; lia|]. by eexists.
Qed.

Lemma message_on_wire data : bytes_ok data -> wp (PtpMessage_decode data) (fun m =>
  message_length (header m) = from_be (take 2 (drop 2 data)) /\
  take HEADER_SIZE (PtpMessage_encode m) = header_on_wire data (Z.of_nat (length (PtpMessage_encode m))) /\
  body_on_wire (body m) (drop HEADER_SIZE data)).
Proof.
  intros Hd. unfold PtpMessage_decode.
  destruct (PtpHeader_decode data) as [h|e|] eqn:Eh; [|done|by pose proof (header_decode_safe data) as Hs; rewrite Eh in Hs].
  pose proof (fun n => header_wire data n Hd) as Hw. rewrite Eh in Hw. cbn [wp] in Hw.
  unfold PtpHeader_decode in Eh. destruct (Nat.ltb_spec (length data) HEADER_SIZE); [done|]. clear Eh. cbn [mbind outcome_bind].
  rewrite slice_in by lia. cbn [mbind outcome_bind]. rewrite take_ge by (rewrite length_drop; lia).
  apply wp_bind. eapply wp_mono; [apply body_wire; auto with rust|]. intros bd Hb. cbn [wp header body].
  split_and!; [apply (Hw 0%nat)| |done]. unfold PtpMessage_encode. cbn [header]. set (n := length _). 
  rewrite take_app_length', length_app, length_header by (by rewrite length_header). fold n.
  etransitivity; [apply (Hw n)|]. rewrite Z.min_l; [done|]. unfold n. destruct bd; cbn; lia.
Qed.

Lemma pkt_wire data : bytes_ok data -> wp (pkt_decode data) (fun p =>
  pkt_sequence_id p = from_be (take 2 (drop 2 data)) /\ pkt_clock_id p = from_be (take 8 (drop 14 data)) /\
  seconds (pkt_timestamp p) = from_be (take 4 (drop 8 data)) /\
  nanoseconds (pkt_timestamp p) = from_be (take 2 (drop 12 data)) * NANOS_PER_SEC / 65536).
Proof.
  intros Hd. unfold pkt_decode. destruct (Nat.ltb_spec (length data) 22); [done|].
  apply wp_bind. eapply wp_mono; [apply byte_at_lookup_wp; lia|]. intros b0 Hb0.
  apply wp_bind. eapply wp_mono; [apply from_nibble_wp|]. intros t _.
  apply wp_bind. eapply wp_mono; [apply be_at_take_wp; [done|lia]|]. intros seq [_ Hseq].
  apply wp_bind. eapply wp_mono; [apply be_at_take_wp; [done|lia]|]. intros c [_ Hc].
  apply wp_bind. eapply wp_mono; [apply be_at_take_wp; [done|lia]|]. intros clock [_ Hclock].
  cbn [wp pkt_sequence_id pkt_clock_id pkt_timestamp]. split_and!; try done.
  all: pose proof (from_be_take_range data 12 2 Hd ltac:(lia)) as Hf; cbn in Hf.
  all: assert (c = from_be (take 4 (drop 8 data)) * 65536 + from_be (take 2 (drop 12 data))) as ->
    by (rewrite Hc, (fields_split data 8 4 2 : take 6 (drop 8 data) = _), from_be_app, length_take, length_drop, Nat.min_l by lia; done).
  all: by rewrite compact_fields.
Qed.

(** ** Properties *)

(** PTP messages round-trip. Decoding an encoded message of any of the six
    types returns the same message, with the length field set to the bytes
    written; and both decoders are safe on any bytes. *)
Theorem ptp_roundtrip (m : PtpMessage) (data : list Z) (Hm : msg_ok m) :
  PtpMessage_decode (PtpMessage_encode m) =
    Ok (mkMsg (with_length (header m) (Z.of_nat (length (PtpMessage_encode m)))) (body m)) /\
  safe (PtpMessage_decode data) /\ safe (pkt_decode data).
Proof. split_and!; [by apply message_roundtrip|apply message_decode_safe|apply pkt_decode_safe]. Qed.



(** The compact timing packet is lossy. It keeps type, sequence and clock
    identity; the seconds come back modulo [2 ^ 32], not [2 ^ 48], and the
    nanoseconds are at most 15259 too small. Re-encoding a decoded timestamp can
    lose another unit, so the conversion is not lossless even on values that
    came from the wire. *)
Theorem compact_packet_loss (p : AirPlayTimingPacket) (Hseq : uint 16 (pkt_sequence_id p))
  (Hclock : uint 64 (pkt_clock_id p)) (Hs : uint 64 (seconds (pkt_timestamp p)))
  (Hn : 0 <= nanoseconds (pkt_timestamp p) < NANOS_PER_SEC) :
  (exists n, pkt_decode (pkt_encode p) =
     Ok (mkPkt (pkt_type p) (pkt_sequence_id p) (mkTs (seconds (pkt_timestamp p) mod 2 ^ 32) n) (pkt_clock_id p)) /\
     nanoseconds (pkt_timestamp p) - 15259 <= n <= nanoseconds (pkt_timestamp p)) /\
  (exists c, to_airplay_compact (from_airplay_compact c) = c - 1 /\ uint 64 c).
Proof.
  split; [|exists 1; split; [vm_compute; reflexivity|unfold uint; lia]].
  destruct p as [t seq [s n] clock]. cbn [pkt_type pkt_sequence_id pkt_timestamp pkt_clock_id seconds nanoseconds] in *.
  destruct (compact_error n Hn) as [He1 He2]. eexists. split; [|split; [|apply He1]; lia].
  unfold pkt_decode, pkt_encode. cbn [pkt_type pkt_sequence_id pkt_timestamp pkt_clock_id].
  rewrite compact_value by (cbn; unfold uint in Hs; lia). cbn [seconds nanoseconds].
  set (f := n * 65536 / NANOS_PER_SEC).
  assert (0 <= f < 65536) as Hf.
  { unfold f, NANOS_PER_SEC in *. split; [apply Z.div_pos; lia|apply Z.div_lt_upper_bound; lia]. }
  change (drop 2 (to_be 8 (s mod 2 ^ 48 * 65536 + f))) with (to_be 6 (s mod 2 ^ 48 * 65536 + f)).
  rewrite (proj2 (Nat.ltb_ge _ _)) by (autorewrite with bytes; cbn; lia).
  cbn [app byte_at unwrap lookup list_lookup mbind outcome_bind].
  assert (from_nibble (type_as_u8 t) = Ok t) as -> by (by destruct t). cbn [mbind outcome_bind]. read_bytes.
  rewrite (Z.mod_small seq), (Z.mod_small clock) by (unfold uint in *; cbn; lia). do 2 f_equal.
  change (256 ^ Z.of_nat 6) with (2 ^ 32 * 65536).
  replace ((s mod 2 ^ 48 * 65536 + f) mod (2 ^ 32 * 65536)) with (s mod 2 ^ 32 * 65536 + f).
  - by apply compact_fields.
  - change (2 ^ 48) with (2 ^ 32 * 65536). Z.to_euclidean_division_equations. nia.
Qed.

Lemma ptp_roundtrip_witness :
  let m := mkMsg (PtpHeader_new Sync (mkPort 0x1122334455667788 1) 7) (BSync (mkTs 1700000000 5)) in
  msg_ok m /\ PtpMessage_decode (PtpMessage_encode m) = Ok (mkMsg (with_length (header m) 44) (body m)).
Proof.
  intros m. assert (msg_ok m) as Hm by (vm_compute; repeat split; congruence).
  split; [done|]. exact (proj1 (ptp_roundtrip m [] Hm)).
Defined.

Lemma compact_packet_loss_witness :
  let p := mkPkt Sync 3 (mkTs 0x100000005 999999999) 42 in
  exists n, pkt_decode (pkt_encode p) = Ok (mkPkt Sync 3 (mkTs 5 n) 42) /\ 999984740 <= n <= 999999999.
Proof.
  assert (uint 16 3) as H1 by (by split).
  assert (uint 64 42) as H2 by (by split).
  assert (uint 64 0x100000005) as H3 by (by split).
  assert (0 <= 999999999 < NANOS_PER_SEC) as H4 by (by split).
  destruct (compact_packet_loss (mkPkt Sync 3 (mkTs 0x100000005 999999999) 42) H1 H2 H3 H4) as [[n [E1 E2]] _].
  exists n. split; [exact E1|]. clear E1. cbn [pkt_timestamp nanoseconds] in E2. lia.
Defined.

End Ptp.
