(* ===== verification/PtpClock.v ===== *)
(** * PTP clock

    Models [src/protocol/ptp/clock.rs]: the offset estimator of the delay
    request-response mechanism.  A [Duration] is its number of nanoseconds, an
    [Instant] a reading of the monotonic clock in nanoseconds; both clocks are
    arguments of the operations that read them.  Offsets are [i128] in the code:
    seconds are [u64] and nanoseconds [u32], so no sum here leaves 97 bits and
    plain [Z] arithmetic is exact.  The [f64] drift estimate, which only
    [drift_ppm] reads, is left out. *)

From stdpp Require Import sorting sets.
From S2P Require Import Bytes Ptp.

Module PtpClock.
Import Ptp.

Inductive PtpRole := Master | Slave.

(** [local_time] feeds the drift estimate only. *)
Record TimingMeasurement := mkMeasurement {
  t1 : PtpTimestamp; t2 : PtpTimestamp; t3 : PtpTimestamp; t4 : PtpTimestamp;
  m_offset_ns : Z; rtt : Z
}.

(** Division of [i128] rounds towards zero; an [rtt] above [u64::MAX] saturates. *)
Definition calculate (a b c d : PtpTimestamp) : TimingMeasurement :=
  let t2_minus_t1 := diff_nanos b a in
  let t3_minus_t4 := diff_nanos c d in
  let rtt_nanos := Z.max 0 (diff_nanos d a - diff_nanos c b) in
  mkMeasurement a b c d (Z.quot (t2_minus_t1 + t3_minus_t4) 2) (Z.min rtt_nanos (2 ^ 64 - 1)).

Record PtpClock := mkClock {
  clock_id : Z;
  clock_role : PtpRole;
  measurements : list TimingMeasurement;
  max_measurements : nat;
  offset_ns : Z;
  synchronized : bool;
  min_sync_measurements : nat;
  max_rtt : Z;
  remote_master_clock_id : option Z;
  epoch_offset_ns : option Z;
  epoch_anchor : Z;
  epoch_anchor_master_ns : Z
}.

Definition DEFAULT_MAX_MEASUREMENTS : nat := 8.
Definition DEFAULT_MIN_SYNC : nat := 1.
Definition DEFAULT_MAX_RTT : Z := 100000000.

Definition new (id : Z) (r : PtpRole) (now : Z) : PtpClock := {|
  clock_id := id; clock_role := r; measurements := [];
  max_measurements := DEFAULT_MAX_MEASUREMENTS;
  offset_ns := 0; synchronized := false;
  min_sync_measurements := DEFAULT_MIN_SYNC;
  max_rtt := DEFAULT_MAX_RTT;
  remote_master_clock_id := None;
  epoch_offset_ns := None; epoch_anchor := now; epoch_anchor_master_ns := 0
|}.

Definition set_max_measurements (c : PtpClock) (max : nat) : PtpClock :=
  mkClock (clock_id c) (clock_role c) (measurements c) (Nat.max max 1) (offset_ns c) (synchronized c)
    (min_sync_measurements c) (max_rtt c) (remote_master_clock_id c) (epoch_offset_ns c) (epoch_anchor c)
    (epoch_anchor_master_ns c).

Definition set_min_sync_measurements (c : PtpClock) (min : nat) : PtpClock :=
  mkClock (clock_id c) (clock_role c) (measurements c) (max_measurements c) (offset_ns c) (synchronized c)
    (Nat.max min 1) (max_rtt c) (remote_master_clock_id c) (epoch_offset_ns c) (epoch_anchor c)
    (epoch_anchor_master_ns c).

Definition set_max_rtt (c : PtpClock) (max : Z) : PtpClock :=
  mkClock (clock_id c) (clock_role c) (measurements c) (max_measurements c) (offset_ns c) (synchronized c)
    (min_sync_measurements c) max (remote_master_clock_id c) (epoch_offset_ns c) (epoch_anchor c)
    (epoch_anchor_master_ns c).

(** The fields a new measurement changes. *)
Definition with_window (c : PtpClock) (ms : list TimingMeasurement) (off : Z) (s : bool) : PtpClock :=
  mkClock (clock_id c) (clock_role c) ms (max_measurements c) off s (min_sync_measurements c) (max_rtt c)
    (remote_master_clock_id c) (epoch_offset_ns c) (epoch_anchor c) (epoch_anchor_master_ns c).

(** [while self.measurements.len() > self.max_measurements { pop_front }] *)
Fixpoint trim (max : nat) (ms : list TimingMeasurement) : list TimingMeasurement :=
  match ms with
  | [] => []
  | _ :: rest => if (max <? length ms)%nat then trim max rest else ms
  end.

(** [sort_unstable] and the element at [len / 2]. *)
Definition median (l : list Z) : Z := default 0 (merge_sort Z.le l !! (length l / 2)%nat).

Definition update_offset (c : PtpClock) : PtpClock :=
  match measurements c with
  | [] => c
  | ms => with_window c ms (median (map m_offset_ns ms)) (synchronized c)
  end.

(** The common tail of [process_timing] and [process_one_way]. *)
Definition record_measurement (c : PtpClock) (m : TimingMeasurement) : PtpClock :=
  let c := with_window c (trim (max_measurements c) (measurements c ++ [m])) (offset_ns c) (synchronized c) in
  let c := update_offset c in
  if (min_sync_measurements c <=? length (measurements c))%nat
  then with_window c (measurements c) (offset_ns c) true else c.

Definition process_timing (c : PtpClock) (a b d e : PtpTimestamp) : PtpClock * bool :=
  let m := calculate a b d e in
  if max_rtt c <? rtt m then (c, false) else (record_measurement c m, true).

Definition process_one_way (c : PtpClock) (a b : PtpTimestamp) : PtpClock :=
  record_measurement c (mkMeasurement a b b a (diff_nanos b a) 0).

(** [now] is the monotonic clock, [wall] the system clock. *)
Definition calibrate_epoch (c : PtpClock) (raw_offset_ns now : Z) (wall : PtpTimestamp) : PtpClock :=
  match epoch_offset_ns c with
  | Some _ => c
  | None =>
      mkClock (clock_id c) (clock_role c) (measurements c) (max_measurements c) (offset_ns c) (synchronized c)
        (min_sync_measurements c) (max_rtt c) (remote_master_clock_id c) (Some raw_offset_ns) now
        (to_nanos wall - raw_offset_ns)
  end.

Definition clamp_from_nanos {E} (n : Z) : outcome E PtpTimestamp :=
  if 0 <=? n then from_nanos n else Ok ZERO.

(** [elapsed] saturates at zero. *)
Definition master_now {E} (c : PtpClock) (now : Z) : outcome E (option PtpTimestamp) :=
  match epoch_offset_ns c with
  | None => Ok None
  | Some _ =>
      t ← clamp_from_nanos (epoch_anchor_master_ns c + Z.max 0 (now - epoch_anchor c));
      Ok (Some t)
  end.

Definition remote_to_local {E} (c : PtpClock) (remote : PtpTimestamp) : outcome E PtpTimestamp :=
  clamp_from_nanos (to_nanos remote + offset_ns c).

Definition local_to_remote {E} (c : PtpClock) (local : PtpTimestamp) : outcome E PtpTimestamp :=
  clamp_from_nanos (to_nanos local - offset_ns c).

(** [i64::try_from(offset / 1000).unwrap_or(i64::MAX)] *)
Definition offset_micros (c : PtpClock) : Z :=
  let q := Z.quot (offset_ns c) 1000 in
  if (- 2 ^ 63 <=? q) && (q <? 2 ^ 63) then q else 2 ^ 63 - 1.

Definition set_remote_master_clock_id (c : PtpClock) (id : Z) : PtpClock :=
  mkClock (clock_id c) (clock_role c) (measurements c) (max_measurements c) (offset_ns c) (synchronized c)
    (min_sync_measurements c) (max_rtt c) (Some id) (epoch_offset_ns c) (epoch_anchor c)
    (epoch_anchor_master_ns c).

Definition last_rtt (c : PtpClock) : option Z := rtt <$> last (measurements c).

Definition median_rtt (c : PtpClock) : option Z :=
  match measurements c with [] => None | ms => Some (median (map rtt ms)) end.

(** The epoch calibration survives a reset. *)
Definition reset (c : PtpClock) : PtpClock :=
  mkClock (clock_id c) (clock_role c) [] (max_measurements c) 0 false (min_sync_measurements c) (max_rtt c)
    None (epoch_offset_ns c) (epoch_anchor c) (epoch_anchor_master_ns c).

(** A sample rate of zero divides by zero. *)
Definition rtp_to_local_ptp {E} (c : PtpClock) (rtp_timestamp sample_rate rtp_anchor : Z)
    (ptp_anchor : PtpTimestamp) : outcome E PtpTimestamp :=
  let sample_diff := sext 32 (rtp_timestamp -%u32 rtp_anchor) in
  p ← chk_i 64 (sample_diff * 1000000000);
  if sample_rate =? 0 then Panic
  else
    remote_ptp ← clamp_from_nanos (to_nanos ptp_anchor + Z.quot p sample_rate);
    remote_to_local c remote_ptp.

(** ** Lemmas *)
Lemma trim_suffix max ms : exists pre, ms = pre ++ trim max ms.
Proof.
  induction ms as [|m ms [pre IH]]; [by exists []|]. cbn. case_m; [|by exists []].
  exists (m :: pre). cbn. by rewrite <- IH.
Qed.

Lemma trim_length max ms : (length (trim max ms) <= max)%nat.
Proof. induction ms as [|m ms IH]; cbn [trim length]; [lia|]. case_m; bool_to_prop; cbn [length]; [done|lia]. Qed.

Lemma trim_forall (P : TimingMeasurement -> Prop) max ms : Forall P ms -> Forall P (trim max ms).
Proof. destruct (trim_suffix max ms) as [pre E]. rewrite E at 1. by intros [_ ?]%Forall_app. Qed.

Lemma trim_snoc_nonempty max ms m : (0 < max)%nat -> trim max (ms ++ [m]) <> [].
Proof.
  intros Hmax. induction ms as [|x ms IH]; cbn [app trim length].
  - case_m; bool_to_prop; [lia|done].
  - case_m; [apply IH|done].
Qed.

(** Elements of a sorted list below or above a bound form a prefix or a suffix. *)
Lemma sorted_lookup l i j x y : StronglySorted Z.le l -> l !! i = Some x -> l !! j = Some y -> (i <= j)%nat -> x <= y.
Proof.
  intros Hs. revert i j. induction Hs as [|z l Hs IH Hz]; intros i j Hi Hj Hij; [done|].
  destruct i as [|i], j as [|j]; cbn in *; simplify_eq; [lia| |lia|by eapply IH; eauto with lia].
  by eapply Forall_lookup_1 in Hz.
Qed.

(** A predicate that holds on the first [k] elements counts at least [k]. *)
Lemma filter_length_firstn (P : Z -> Prop) `{!forall x, Decision (P x)} l k :
  (k <= length l)%nat -> Forall P (take k l) -> (k <= length (filter P l))%nat.
Proof.
  intros Hk HP. rewrite <- (take_drop k l), filter_app, length_app, (filter_all _ _ HP), length_take. lia.
Qed.

Lemma filter_length_skipn (P : Z -> Prop) `{!forall x, Decision (P x)} l k :
  Forall P (drop k l) -> (length l - k <= length (filter P l))%nat.
Proof.
  intros HP. rewrite <- (take_drop k l) at 2. rewrite filter_app, length_app, (filter_all _ _ HP), length_drop. lia.
Qed.

Lemma filter_split_length (P Q : Z -> Prop) `{!forall x, Decision (P x)} `{!forall x, Decision (Q x)} l :
  (forall x, P x -> ~ Q x) -> (length (filter P l) + length (filter Q l) <= length l)%nat.
Proof.
  intros HPQ. induction l as [|x l IH]; [done|]. rewrite !filter_cons.
  repeat case_decide; cbn [length]; try lia. by edestruct HPQ.
Qed.

Lemma median_in l : l <> [] -> median l ∈ l.
Proof.
  intros Hl. unfold median. pose proof (merge_sort_Permutation Z.le l) as Hp.
  destruct (lookup_lt_is_Some_2 (merge_sort Z.le l) (length l / 2)) as [x Hx].
  { rewrite Hp. destruct l; [done|]. apply Nat.div_lt; cbn; lia. }
  rewrite Hx. cbn. rewrite <- Hp. by eapply list_elem_of_lookup_2.
Qed.

(** More than half of the elements in an interval put the median there. *)
Lemma median_majority l a b : (length l < 2 * length (filter (fun x => (a <= x <= b)%Z) l))%nat ->
  a <= median l <= b.
Proof.
  intros Hmaj. assert (l <> []) as Hl by (intros ->; cbn in Hmaj; lia).
  pose proof (merge_sort_Permutation Z.le l) as Hp.
  pose proof (Sorted.Sorted_StronglySorted Z.le_trans (Sorted_merge_sort Z.le l)) as Hs.
  unfold median. set (s := merge_sort Z.le l) in *.
  assert (length s = length l) as Hlen by (by rewrite Hp).
  rewrite <- Hlen in *. rewrite <- (Permutation_length (filter_Permutation (fun x => (a <= x <= b)%Z) _ _ Hp)) in Hmaj.
  assert (0 < length s)%nat as H0 by (rewrite Hlen; destruct l; [done|cbn; lia]).
  pose proof (Nat.div_mod (length s) 2 ltac:(lia)). pose proof (Nat.mod_upper_bound (length s) 2 ltac:(lia)).
  destruct (lookup_lt_is_Some_2 s (length s / 2)) as [x Hx]; [lia|]. rewrite Hx. cbn.
  split; apply Z.nlt_ge; intros Hlt.
  - assert (Forall (fun y => y < a) (take (S (length s / 2)) s)) as HF.
    { apply Forall_lookup_2. intros i y [Hy Hi]%lookup_take_Some.
      pose proof (sorted_lookup _ _ _ _ _ Hs Hy Hx ltac:(lia)). lia. }
    assert (S (length s `div` 2) <= length s)%nat as Hle by lia.
    pose proof (filter_length_firstn _ _ _ Hle HF).
    pose proof (filter_split_length (fun y => y < a) (fun x => (a <= x <= b)%Z) s ltac:(cbn; lia)). lia.
  - assert (Forall (fun y => b < y) (drop (length s / 2) s)) as HF.
    { apply Forall_lookup_2. intros i y Hy. rewrite lookup_drop in Hy.
      pose proof (sorted_lookup _ _ _ _ _ Hs Hx Hy ltac:(lia)). lia. }
    pose proof (filter_length_skipn _ _ _ HF).
    pose proof (filter_split_length (fun y => b < y) (fun x => (a <= x <= b)%Z) s ltac:(cbn; lia)). lia.
Qed.

(** ** A run of exchanges *)
Definition Exchange : Type := PtpTimestamp * PtpTimestamp * PtpTimestamp * PtpTimestamp.

Definition measure (e : Exchange) : TimingMeasurement := let '(a, b, c, d) := e in calculate a b c d.

Definition exchange (c : PtpClock) (e : Exchange) : PtpClock :=
  let '(t1, t2, t3, t4) := e in fst (process_timing c t1 t2 t3 t4).

Definition run (c : PtpClock) (es : list Exchange) : PtpClock := fold_left exchange es c.

(** The measurement of two clocks [theta] apart (slave minus master) with delays
    that are not negative: the Sync arrives after it was sent, and so does the
    Delay_Req. *)
Definition causal (theta : Z) (m : TimingMeasurement) : Prop :=
  to_nanos (t1 m) + theta <= to_nanos (t2 m) /\ to_nanos (t3 m) - theta <= to_nanos (t4 m).

#[export] Instance causal_dec theta m : Decision (causal theta m).
Proof. apply _. Defined.

Lemma trim_drop max ms : trim max ms = drop (length ms - max) ms.
Proof.
  induction ms as [|m ms IH]; [done|]. cbn [trim]. case_m; bool_to_prop; cbn [length] in *.
  - rewrite IH. by replace (S (length ms) - max)%nat with (S (length ms - max)) by lia.
  - by replace (S (length ms) - max)%nat with 0%nat by lia.
Qed.

Lemma trim_snoc max ms m : (0 < max)%nat -> trim max (trim max ms ++ [m]) = trim max (ms ++ [m]).
Proof.
  intros Hmax. rewrite !trim_drop, !length_app, length_drop. cbn [length].
  destruct (decide (length ms <= max)%nat).
  - replace (length ms - max)%nat with 0%nat by lia. by rewrite drop_0, Nat.sub_0_r.
  - rewrite !drop_app_le by (rewrite ?length_drop; lia). rewrite drop_drop. do 2 f_equal. lia.
Qed.

(** [update_offset]: with a window the offset is its median. *)
Lemma record_measurement_spec c m : (0 < max_measurements c)%nat ->
  let ms := trim (max_measurements c) (measurements c ++ [m]) in
  record_measurement c m =
    with_window c ms (median (map m_offset_ns ms)) ((min_sync_measurements c <=? length ms)%nat || synchronized c).
Proof.
  intros Hmax ms. unfold record_measurement. cbv zeta. fold ms. unfold update_offset.
  pose proof (trim_snoc_nonempty _ (measurements c) m Hmax) as Hne. fold ms in Hne.
  cbn [measurements with_window]. destruct ms as [|x ms'] eqn:E; [done|].
  cbn [measurements with_window min_sync_measurements offset_ns synchronized]. by case_m.
Qed.

(** What a run of exchanges leaves in a fresh clock. *)
Definition run_spec (c0 : PtpClock) (es : list Exchange) (c : PtpClock) : Prop :=
  measurements c = trim (max_measurements c0) (filter (fun m => rtt m <= max_rtt c0) (map measure es)) /\
  offset_ns c = (if decide (measurements c = []) then 0 else median (map m_offset_ns (measurements c))) /\
  max_measurements c = max_measurements c0 /\ max_rtt c = max_rtt c0.

Lemma run_meets_spec c0 es : (0 < max_measurements c0)%nat -> measurements c0 = [] -> offset_ns c0 = 0 ->
  run_spec c0 es (run c0 es).
Proof.
  intros Hmax Hm Ho. induction es as [|e es IH] using rev_ind; [unfold run_spec; cbn; by rewrite Hm|].
  unfold run in *. rewrite fold_left_app. cbn [fold_left].
  set (c := fold_left exchange es c0) in *. destruct IH as (I1 & I2 & I3 & I4).
  unfold run_spec. rewrite map_app, filter_app. cbn [map]. destruct e as [[[a b] d] f].
  change (measure (a, b, d, f)) with (calculate a b d f). unfold exchange, process_timing. rewrite I4.
  case_m; bool_to_prop.
  - rewrite filter_cons_False by lia. rewrite filter_nil, app_nil_r. done.
  - rewrite filter_cons_True by lia. rewrite filter_nil. cbn [fst].
    rewrite record_measurement_spec by (by rewrite I3). rewrite I3, I1, trim_snoc by done.
    cbn [measurements offset_ns max_measurements max_rtt with_window].
    rewrite decide_False by (by apply trim_snoc_nonempty). done.
Qed.

Lemma causal_offset theta e : causal theta (measure e) -> rtt (measure e) < 2 ^ 64 - 1 ->
  2 * Z.abs (m_offset_ns (measure e) - theta) <= rtt (measure e) + 1.
Proof.
  destruct e as [[[a b] c] d]. unfold measure, calculate, causal, diff_nanos. cbn [t1 t2 t3 t4 rtt m_offset_ns].
  generalize (to_nanos a) (to_nanos b) (to_nanos c) (to_nanos d). intros w x y z [H1 H2] Hr.
  Z.to_euclidean_division_equations. lia.
Qed.

Lemma filter_map_length {A} (f : A -> Z) (P : A -> Prop) (Q : Z -> Prop)
    `{!forall x, Decision (P x)} `{!forall x, Decision (Q x)} l :
  (forall x, x ∈ l -> P x -> Q (f x)) -> (length (filter P l) <= length (filter Q (map f l)))%nat.
Proof.
  induction l as [|x l IH]; intros Himp; [done|]. cbn [map]. rewrite !filter_cons.
  assert (length (filter P l) <= length (filter Q (map f l)))%nat by (apply IH; set_solver).
  repeat case_decide; cbn [length]; try lia. exfalso. eauto using list_elem_of_here.
Qed.

(** ** Properties *)

(** C34: accuracy of the offset estimate. After any sequence of exchanges the
    clock holds the last eight measurements whose round trip is at most 100 ms,
    in order; and if, for some true clock difference [theta], more than half of
    them come from exchanges with non-negative delays, the estimate is within
    50 ms (half the accepted round trip) of [theta], whatever the other measurements are. *)
Theorem offset_accuracy (id now theta : Z) (r : PtpRole) (es : list Exchange) :
  let c := run (new id r now) es in
  measurements c = trim 8 (filter (fun m => rtt m <= 100000000) (map measure es)) /\
  ((length (measurements c) < 2 * length (filter (causal theta) (measurements c)))%nat ->
   Z.abs (offset_ns c - theta) <= 50000000).
Proof.
  intros c. destruct (run_meets_spec (new id r now) es) as (I1 & I2 & I3 & I4); try done; [cbn; unfold DEFAULT_MAX_MEASUREMENTS; lia|].
  fold c in I1, I2, I3, I4. split; [exact I1|]. intros Hmaj. rewrite I2.
  rewrite decide_False by (intros E; rewrite E in Hmaj; cbn in Hmaj; lia).
  assert (forall m, m ∈ measurements c -> exists e, m = measure e /\ rtt m <= 100000000) as Hin.
  { intros m Hm. rewrite I1 in Hm. destruct (trim_suffix (max_measurements (new id r now))
      (filter (fun m => rtt m <= max_rtt (new id r now)) (map measure es))) as [pre E].
    assert (m ∈ filter (fun m => rtt m <= max_rtt (new id r now)) (map measure es)) as Hm' by (rewrite E; set_solver).
    apply list_elem_of_filter in Hm' as [Hr Hm']. apply list_elem_of_In, in_map_iff in Hm' as (e & <- & _). by exists e. }
  destruct (median_majority (map m_offset_ns (measurements c)) (theta - 50000000) (theta + 50000000)) as [Hlo Hhi].
  { rewrite length_map. eapply Nat.lt_le_trans; [exact Hmaj|]. apply Nat.mul_le_mono_l, filter_map_length.
    intros m Hm Hc. destruct (Hin m Hm) as (e & -> & Hr).
    pose proof (causal_offset theta e Hc ltac:(lia)). lia. }
  lia.
Qed.

Lemma offset_accuracy_witness :
  let es := [(mkTs 100 0, mkTs 105 1000, mkTs 105 3000, mkTs 100 4000);
             (mkTs 101 0, mkTs 106 900, mkTs 106 3000, mkTs 101 4100);
             (mkTs 102 0, mkTs 190 900, mkTs 190 3000, mkTs 102 4100)] in
  offset_ns (run (new 7 Slave 0) es) = 5000000000 /\ length (measurements (run (new 7 Slave 0) es)) = 3%nat /\
  Z.abs (offset_ns (run (new 7 Slave 0) es) - 5000000000) <= 50000000.
Proof.
  intros es. split; [vm_compute; reflexivity|]. split; [vm_compute; reflexivity|].
  apply (offset_accuracy 7 0 5000000000 Slave es). vm_compute. repeat constructor.
Defined.

End PtpClock.
