(* ===== verification/MultiRoom.v ===== *)
(** * Multi-room coordination on the receiver

    Models [src/receiver/ap2/multi_room.rs]: the coordinator of a receiver that plays in
    a group, over the modelled PTP clock.  Readings of the system's clocks are arguments,
    in nanoseconds. *)

From stdpp Require Import base list.
From S2P Require Import Bytes Ptp PtpClock.

Module MultiRoom.
Import Ptp.

Inductive GroupRole := NoRole | Leader | Follower.
#[export] Instance GroupRole_eq_dec : EqDecision GroupRole.
Proof. solve_decision. Defined.

Record GroupMember := mkMember { m_device_id : list Z; m_name : list Z; m_clock_id : Z; m_role : GroupRole }.
Record GroupInfo := mkGroup {
  uuid : list Z; role : GroupRole; leader_clock_id : option Z; members : list GroupMember; target_playback_time : option Z
}.
Inductive PlaybackCommand := StartAt (timestamp : Z) | AdjustRate (rate_ppm : Z) | Pause | Resume.

Record MultiRoomCoordinator := mkCoordinator {
  device_id : list Z; clock : PtpClock.PtpClock; group : option GroupInfo; sync_tolerance_us : Z; last_sync_check : Z; in_sync : bool
}.

Definition Coordinator_new (id : list Z) (clock_id now : Z) : MultiRoomCoordinator :=
  mkCoordinator id (PtpClock.new clock_id PtpClock.Slave now) None 1000 now false.

Definition join_group (c : MultiRoomCoordinator) (u : list Z) (r : GroupRole) (leader : option Z) : MultiRoomCoordinator :=
  mkCoordinator (device_id c) (clock c) (Some (mkGroup u r leader [] None)) (sync_tolerance_us c) (last_sync_check c) (in_sync c).
Definition leave_group (c : MultiRoomCoordinator) : MultiRoomCoordinator :=
  match group c with
  | Some _ => mkCoordinator (device_id c) (PtpClock.reset (clock c)) None (sync_tolerance_us c) (last_sync_check c) (in_sync c)
  | None => c
  end.
Definition set_target_time (c : MultiRoomCoordinator) (t : Z) : MultiRoomCoordinator :=
  match group c with
  | Some (mkGroup u r l m _) =>
      mkCoordinator (device_id c) (clock c) (Some (mkGroup u r l m (Some t))) (sync_tolerance_us c) (last_sync_check c) (in_sync c)
  | None => c
  end.

(** The drift in microseconds, kept to an [i64] by the cast. *)
Definition drift_micros (current target : Z) : Z := sext 64 (Z.quot (Z.quot ((current - target) * 1000000000) 65536) 1000).

(** What is done about a drift: whether it is within the tolerance, and the command. *)
Definition adjust {E} (tolerance drift target : Z) : outcome E (bool * option PlaybackCommand) :=
  a ← chk_i 64 (Z.abs drift);
  if a <? tolerance then Ok (true, None)
  else if 10000 <? a then Ok (false, Some (StartAt target))
  else Ok (false, Some (AdjustRate (- Z.max (-500) (Z.min (Z.quot drift 10) 500)))).

Definition calculate_adjustment_internal {E} (c : MultiRoomCoordinator) (now : PtpTimestamp)
  : outcome E (option PlaybackCommand * MultiRoomCoordinator) :=
  match group c ≫= target_playback_time with
  | None => Ok (None, c)
  | Some target =>
      if negb (PtpClock.synchronized (clock c)) then Ok (None, c)
      else
        master_time ← PtpClock.local_to_remote (clock c) now;
        '(s, command) ← adjust (sync_tolerance_us c) (drift_micros (to_airplay_compact master_time) target) target;
        Ok (command, mkCoordinator (device_id c) (clock c) (group c) (sync_tolerance_us c) (last_sync_check c) s)
  end.

(** An [Instant] as the system time it was or will be; before the epoch is the epoch. *)
Definition instant_to_ptp (inst now_inst now_sys : Z) : PtpTimestamp :=
  let n := Z.max 0 (now_sys + (inst - now_inst)) in from_duration (mkDuration (n / NANOS_PER_SEC) (n mod NANOS_PER_SEC)).

(** The two instants are converted one after the other, each with its own readings. *)
Definition update_timing (c : MultiRoomCoordinator) (t1_compact t2_local t3_local t4_compact : Z) (r2 r3 : Z * Z) : MultiRoomCoordinator :=
  mkCoordinator (device_id c)
    (fst (PtpClock.process_timing (clock c) (from_airplay_compact t1_compact) (instant_to_ptp t2_local (fst r2) (snd r2))
            (instant_to_ptp t3_local (fst r3) (snd r3)) (from_airplay_compact t4_compact)))
    (group c) (sync_tolerance_us c) (last_sync_check c) (in_sync c).

Definition is_leader (c : MultiRoomCoordinator) : bool :=
  match group c with Some g => bool_decide (role g = Leader) | None => false end.
Definition group_uuid (c : MultiRoomCoordinator) : option (list Z) := uuid <$> group c.

(** ** The control loop *)
Lemma drift_range current target : Z.abs (current - target) < 2 ^ 58 -> Z.abs (drift_micros current target) < 2 ^ 63 /\
  drift_micros current target = Z.quot (Z.quot ((current - target) * 1000000000) 65536) 1000.
Proof.
  intros H. set (d := current - target) in *. unfold drift_micros. fold d.
  assert (Z.abs (Z.quot (Z.quot (d * 1000000000) 65536) 1000) < 2 ^ 63) as Hb.
  { rewrite <- !Z.quot_abs by lia. rewrite Z.abs_mul, !Z.quot_div_nonneg by (try lia; apply Z.quot_pos; lia). cbn [Z.abs]. rewrite Z.div_div by lia.
    apply Z.div_lt_upper_bound; lia. }
  assert (sext 64 (Z.quot (Z.quot (d * 1000000000) 65536) 1000) = Z.quot (Z.quot (d * 1000000000) 65536) 1000) as ->; [|done].
  unfold sext. rewrite Z.mod_small; lia.
Qed.

(** The rate commanded for a drift. *)
Definition rate_for (drift : Z) : Z := - Z.max (-500) (Z.min (Z.quot drift 10) 500).

Lemma rate_opposes d : -500 <= rate_for d <= 500 /\ rate_for d * d <= 0 /\ Z.abs (d + rate_for d) <= Z.abs d /\ (1000 <= Z.abs d -> Z.abs (d + rate_for d) <= Z.abs d - 100).
Proof.
  unfold rate_for. pose proof (Z.quot_rem' d 10) as E. assert (Z.abs (Z.rem d 10) < 10) by (apply Z.rem_bound_abs; lia).
  set (q := Z.quot d 10) in *. set (r := Z.rem d 10) in *.
  assert (0 <= r * d) by (apply Z.rem_sign_mul; lia). assert (0 <= d -> 0 <= r) by nia. assert (d <= 0 -> r <= 0) by nia.
  clearbody q r. set (k := Z.max (-500) (Z.min q 500)). assert (0 <= d -> 0 <= k <= d) by lia. assert (d <= 0 -> d <= k <= 0) by lia.
  assert (1000 <= Z.abs d -> 100 <= Z.abs k) by lia. assert (-500 <= k <= 500) by lia. clearbody k.
  split_and!; [lia|lia|nia|lia|lia].
Qed.

(** A drift is corrected in the right direction. With a target and a synchronised
    clock, the receiver asks for nothing exactly when its drift is within the tolerance,
    for a new start at the target when the drift is more than ten milliseconds, and in
    between for a rate of at most 500 ppm that opposes the drift and, over a second of
    playing at it, brings the receiver closer without overshooting. *)
Theorem adjustment_corrects {E} (c : MultiRoomCoordinator) (now m : PtpTimestamp) (target : Z)
  (Ht : group c ≫= target_playback_time = Some target) (Hs : PtpClock.synchronized (clock c) = true)
  (Hm : PtpClock.local_to_remote (E := E) (clock c) now = Ok m) (Hr : Z.abs (to_airplay_compact m - target) < 2 ^ 58) :
  let d := drift_micros (to_airplay_compact m) target in
  exists command s, calculate_adjustment_internal (E := E) c now =
      Ok (command, mkCoordinator (device_id c) (clock c) (group c) (sync_tolerance_us c) (last_sync_check c) s) /\
    (s = true <-> Z.abs d < sync_tolerance_us c) /\
    match command with
    | None => Z.abs d < sync_tolerance_us c
    | Some (StartAt t) => t = target /\ sync_tolerance_us c <= Z.abs d /\ 10000 < Z.abs d
    | Some (AdjustRate r) =>
        sync_tolerance_us c <= Z.abs d <= 10000 /\ -500 <= r <= 500 /\ r * d <= 0 /\ Z.abs (d + r) <= Z.abs d /\
        (1000 <= Z.abs d -> Z.abs (d + r) <= Z.abs d - 100)
    | _ => False
    end.
Proof.
  cbn zeta. destruct (drift_range _ _ Hr) as [Hb _]. unfold calculate_adjustment_internal. rewrite Ht, Hs, Hm. cbn [negb mbind outcome_bind].
  set (d := drift_micros _ _) in *. unfold adjust. rewrite chk_i_ok by (unfold sint; lia). cbn [mbind outcome_bind].
  destruct (Z.ltb_spec (Z.abs d) (sync_tolerance_us c)); [eexists _, _; split; [done|]; by split|].
  destruct (Z.ltb_spec 10000 (Z.abs d)); (eexists _, _; split; [done|]; split; [split; [done|lia]|]); [done|].
  change (- Z.max (-500) (Z.min (Z.quot d 10) 500)) with (rate_for d). pose proof (rate_opposes d). lia.
Qed.

(** Followed for a second at a time, the rates bring every drift of at most ten
    milliseconds below the default tolerance. *)
Lemma rates_converge d : Z.abs d <= 10000 -> exists n, (n <= 91)%nat /\ Z.abs (Nat.iter n (fun d => d + rate_for d) d) < 1000.
Proof.
  intros Hd. assert (forall k d, Z.abs d < 1000 + 100 * Z.of_nat k -> exists n, (n <= k)%nat /\ Z.abs (Nat.iter n (fun d => d + rate_for d) d) < 1000) as H.
  { clear. induction k as [|k IH]; intros d Hd; [exists 0%nat; cbn; lia|].
    destruct (Z.lt_ge_cases (Z.abs d) 1000) as [Hs|Hs]; [exists 0%nat; cbn; lia|].
    destruct (rate_opposes d) as (_ & _ & _ & Hstep). destruct (IH (d + rate_for d)) as (n & Hn & Hlt); [specialize (Hstep Hs); lia|].
    exists (S n). split; [lia|]. by rewrite Nat.iter_succ_r. }
  apply H. lia.
Qed.

(** ** Witness *)
Definition demo_coordinator : MultiRoomCoordinator :=
  set_target_time (join_group (update_timing (Coordinator_new [] 1 0) (100 * 65536) 100000000000 100000000000 (100 * 65536) (0, 0) (0, 0)) [] Follower (Some 2))
    (500 * 65536).

Lemma adjustment_corrects_witness :
  PtpClock.synchronized (clock demo_coordinator) = true /\
  let d := drift_micros (to_airplay_compact (mkTs 500 5000000)) (500 * 65536) in
  d = 4989 /\ exists command s, calculate_adjustment_internal (E := Empty_set) demo_coordinator (mkTs 500 5000000) =
      Ok (command, mkCoordinator (device_id demo_coordinator) (clock demo_coordinator) (group demo_coordinator) 1000 0 s) /\
    (s = true <-> Z.abs d < 1000) /\
    match command with
    | None => Z.abs d < 1000
    | Some (StartAt t) => t = 500 * 65536 /\ 1000 <= Z.abs d /\ 10000 < Z.abs d
    | Some (AdjustRate r) => 1000 <= Z.abs d <= 10000 /\ -500 <= r <= 500 /\ r * d <= 0 /\ Z.abs (d + r) <= Z.abs d /\
        (1000 <= Z.abs d -> Z.abs (d + r) <= Z.abs d - 100)
    | _ => False
    end.
Proof.
  split; [vm_compute; reflexivity|]. split; [vm_compute; reflexivity|].
  apply (adjustment_corrects (E := Empty_set) demo_coordinator (mkTs 500 5000000) (mkTs 500 5000000) (500 * 65536)); vm_compute; reflexivity.
Defined.

End MultiRoom.
