(* ===== verification/PtpNode.v ===== *)
(** * PTP node

    Models [src/protocol/ptp/node.rs]: one endpoint that acts as master and as
    slave, with the simplified best-master algorithm on Announce messages, the
    delay request-response exchange, its fallback to one-way estimates, and the
    Apple signaling answer.

    A handler maps the node and its clock readings to the new node and the
    datagrams it sends, in order.  [wall i] and [mono i] are the [i]-th reading of
    the system and the monotonic clock inside the handler, so successive calls of
    [now()] may differ and the system clock may jump.  Sends succeed: an I/O error
    ends [run].  An IP address is an abstract number. *)

From S2P Require Import Bytes Ptp PtpClock.

Module PtpNode.
Import Ptp.

Record SocketAddr := mkAddr { ip : Z; port : Z }.

#[export] Instance SocketAddr_eq_dec : EqDecision SocketAddr.
Proof. solve_decision. Defined.

Definition PTP_EVENT_PORT : Z := 319.
Definition PTP_GENERAL_PORT : Z := 320.

Inductive Socket := EventSocket | GeneralSocket | TimingSocket.

Record Datagram := mkDatagram { via : Socket; payload : list Z; dest : SocketAddr }.

(** The clocks a handler reads, and whether [try_write] finds the clock's lock free. *)
Record Readings := mkReadings { wall : nat -> PtpTimestamp; mono : nat -> Z; lock_free : bool }.

(** Durations in nanoseconds. *)
Record PtpNodeConfig := mkConfig {
  clock_id : Z;
  priority1 : Z;
  priority2 : Z;
  sync_interval : Z;
  delay_req_interval : Z;
  announce_interval : Z;
  recv_buf_size : Z;
  use_airplay_format : bool;
  cfg_transport_specific : Z;
  cfg_announce_timeout : Z
}.

Definition default_config : PtpNodeConfig := {|
  clock_id := 0; priority1 := 128; priority2 := 128;
  sync_interval := 1000000000; delay_req_interval := 1000000000; announce_interval := 2000000000;
  recv_buf_size := 256; use_airplay_format := false; cfg_transport_specific := 0;
  cfg_announce_timeout := 6000000000
|}.

Inductive EffectiveRole := Master | Slave.

#[export] Instance EffectiveRole_eq_dec : EqDecision EffectiveRole.
Proof. solve_decision. Defined.

Record RemoteMaster := mkRemote {
  rm_grandmaster_identity : Z; rm_priority1 : Z; rm_priority2 : Z;
  event_addr : SocketAddr; general_addr : SocketAddr; last_announce : Z
}.

Definition DELAY_REQ_TIMEOUT : Z := 1000000000.
Definition MAX_UNANSWERED_BEFORE_FALLBACK : Z := 2.

(** The slave side of the state: the exchange in progress. *)
Record Pending := mkPending {
  pending_t1 : option PtpTimestamp;
  pending_t2 : option PtpTimestamp;
  pending_t3 : option PtpTimestamp;
  delay_req_sent_at : option Z;
  delay_req_unanswered : Z
}.

(** [general_socket]: whether it is bound; [timing_socket]: the local port of the
    timing socket, 0 when the socket does not know it. *)
Record PtpNode := mkNode {
  general_socket : bool;
  timing_socket : option Z;
  clock : PtpClock.PtpClock;
  config : PtpNodeConfig;
  role : EffectiveRole;
  sync_sequence : Z;
  delay_req_sequence : Z;
  announce_sequence : Z;
  signaling_sequence : Z;
  known_slaves : list SocketAddr;
  known_general_slaves : list SocketAddr;
  pending : Pending;
  remote_master : option RemoteMaster;
  announce_timeout : Z;
  calibrated_epoch_offset : option Z
}.

Definition new (general : bool) (c : PtpClock.PtpClock) (cfg : PtpNodeConfig) : PtpNode := {|
  general_socket := general; timing_socket := None; clock := c; config := cfg; role := Master;
  sync_sequence := 0; delay_req_sequence := 0; announce_sequence := 0; signaling_sequence := 0;
  known_slaves := []; known_general_slaves := [];
  pending := mkPending None None None None 0;
  remote_master := None; announce_timeout := cfg_announce_timeout cfg; calibrated_epoch_offset := None
|}.

Definition create_client_node (general : bool) (c : PtpClock.PtpClock) (id p1 : Z) : PtpNode :=
  new general c {|
    clock_id := id; priority1 := p1; priority2 := 128;
    sync_interval := sync_interval default_config; delay_req_interval := delay_req_interval default_config;
    announce_interval := announce_interval default_config; recv_buf_size := recv_buf_size default_config;
    use_airplay_format := use_airplay_format default_config;
    cfg_transport_specific := cfg_transport_specific default_config;
    cfg_announce_timeout := cfg_announce_timeout default_config |}.

(** ** Field updates *)
Definition with_clock (n : PtpNode) (c : PtpClock.PtpClock) : PtpNode :=
  mkNode (general_socket n) (timing_socket n) c (config n) (role n) (sync_sequence n) (delay_req_sequence n)
    (announce_sequence n) (signaling_sequence n) (known_slaves n) (known_general_slaves n) (pending n)
    (remote_master n) (announce_timeout n) (calibrated_epoch_offset n).
Definition with_role (n : PtpNode) (r : EffectiveRole) (rm : option RemoteMaster) : PtpNode :=
  mkNode (general_socket n) (timing_socket n) (clock n) (config n) r (sync_sequence n) (delay_req_sequence n)
    (announce_sequence n) (signaling_sequence n) (known_slaves n) (known_general_slaves n) (pending n)
    rm (announce_timeout n) (calibrated_epoch_offset n).
Definition with_sequences (n : PtpNode) (sy de an si : Z) : PtpNode :=
  mkNode (general_socket n) (timing_socket n) (clock n) (config n) (role n) sy de an si
    (known_slaves n) (known_general_slaves n) (pending n)
    (remote_master n) (announce_timeout n) (calibrated_epoch_offset n).
Definition with_slaves (n : PtpNode) (sl gs : list SocketAddr) : PtpNode :=
  mkNode (general_socket n) (timing_socket n) (clock n) (config n) (role n) (sync_sequence n) (delay_req_sequence n)
    (announce_sequence n) (signaling_sequence n) sl gs (pending n)
    (remote_master n) (announce_timeout n) (calibrated_epoch_offset n).
Definition with_pending (n : PtpNode) (p : Pending) : PtpNode :=
  mkNode (general_socket n) (timing_socket n) (clock n) (config n) (role n) (sync_sequence n) (delay_req_sequence n)
    (announce_sequence n) (signaling_sequence n) (known_slaves n) (known_general_slaves n) p
    (remote_master n) (announce_timeout n) (calibrated_epoch_offset n).
Definition with_epoch (n : PtpNode) (e : option Z) : PtpNode :=
  mkNode (general_socket n) (timing_socket n) (clock n) (config n) (role n) (sync_sequence n) (delay_req_sequence n)
    (announce_sequence n) (signaling_sequence n) (known_slaves n) (known_general_slaves n) (pending n)
    (remote_master n) (announce_timeout n) e.

Definition set_timing_socket (n : PtpNode) (local_port : Z) : PtpNode :=
  mkNode (general_socket n) (Some local_port) (clock n) (config n) (role n) (sync_sequence n) (delay_req_sequence n)
    (announce_sequence n) (signaling_sequence n) (known_slaves n) (known_general_slaves n) (pending n)
    (remote_master n) (announce_timeout n) (calibrated_epoch_offset n).

Definition add_unique (l : list SocketAddr) (a : SocketAddr) : list SocketAddr :=
  if bool_decide (a ∈ l) then l else l ++ [a].
Definition add_slave (n : PtpNode) (a : SocketAddr) : PtpNode :=
  with_slaves n (add_unique (known_slaves n) a) (known_general_slaves n).
Definition add_general_slave (n : PtpNode) (a : SocketAddr) : PtpNode :=
  with_slaves n (known_slaves n) (add_unique (known_general_slaves n) a).

(** ** Time and addresses *)
Definition adjusted_now {E} (n : PtpNode) (now : PtpTimestamp) : outcome E PtpTimestamp :=
  match calibrated_epoch_offset n with
  | None => Ok now
  | Some epoch_offset =>
      let master_ns := to_nanos now - epoch_offset in
      if 0 <=? master_ns then from_nanos master_ns else Ok ZERO
  end.

(** The first position of [event_src] whose general address is known. *)
Definition resolve_general_addr_for_event (n : PtpNode) (event_src : SocketAddr) : SocketAddr :=
  let fix go (i : nat) (slaves : list SocketAddr) : option SocketAddr :=
    match slaves with
    | [] => None
    | a :: rest =>
        if bool_decide (a = event_src) then
          match known_general_slaves n !! i with
          | Some g => Some g
          | None => go (S i) rest
          end
        else go (S i) rest
    end in
  default (mkAddr (ip event_src) PTP_GENERAL_PORT) (go O (known_slaves n)).

(** ** Best master *)
Definition compare_priority (n : PtpNode) (remote_p1 remote_p2 remote_clock_id : Z) : bool :=
  if negb (remote_p1 =? priority1 (config n)) then remote_p1 <? priority1 (config n)
  else if negb (remote_p2 =? priority2 (config n)) then remote_p2 <? priority2 (config n)
  else remote_clock_id <? clock_id (config n).

Definition process_announce (n : PtpNode) (gm p1 p2 : Z) (src : SocketAddr) (rd : Readings) : PtpNode :=
  if gm =? clock_id (config n) then n
  else
    let remote_is_better := compare_priority n p1 p2 gm in
    let ev := default (mkAddr (ip src) PTP_EVENT_PORT) (List.find (fun a => ip a =? ip src) (known_slaves n)) in
    if remote_is_better then
      let n := with_role n Slave (Some (mkRemote gm p1 p2 ev (mkAddr (ip src) (port src)) (mono rd 0))) in
      if lock_free rd then with_clock n (PtpClock.set_remote_master_clock_id (clock n) gm) else n
    else
      match remote_master n with
      | Some rm =>
          if rm_grandmaster_identity rm =? gm
          then with_role n (role n) (Some (mkRemote (rm_grandmaster_identity rm) (rm_priority1 rm) (rm_priority2 rm)
                                             (event_addr rm) (general_addr rm) (mono rd 0)))
          else n
      | None => n
      end.

(** [elapsed] saturates at zero. *)
Definition elapsed (since now : Z) : Z := Z.max 0 (now - since).

Definition check_announce_timeout (n : PtpNode) (rd : Readings) : PtpNode :=
  match remote_master n with
  | Some rm =>
      if announce_timeout n <? elapsed (last_announce rm) (mono rd 0)
      then with_pending (with_role n Master None)
             (mkPending None None None None (delay_req_unanswered (pending n)))
      else n
  | None => n
  end.

(** ** Sending *)
Definition source_port (n : PtpNode) : PtpPortIdentity := mkPort (clock_id (config n)) 1.

Definition with_flags (m : PtpMessage) (f : Z) : PtpMessage :=
  let h := header m in
  mkMsg (mkHeader (transport_specific h) (message_type h) (version h) (message_length h) (domain_number h) f
           (correction_field h) (source_port_identity h) (sequence_id h) (control_field h) (log_message_interval h))
        (body m).
Definition with_transport (m : PtpMessage) (t : Z) : PtpMessage :=
  let h := header m in
  mkMsg (mkHeader t (message_type h) (version h) (message_length h) (domain_number h) (flags h)
           (correction_field h) (source_port_identity h) (sequence_id h) (control_field h) (log_message_interval h))
        (body m).

(** The datagrams for the [i]-th slave; [precise] is the second clock reading. *)
Definition sync_datagrams (n : PtpNode) (t1 precise : PtpTimestamp) (slave : SocketAddr) : list Datagram :=
  if use_airplay_format (config n) then
    [mkDatagram EventSocket (pkt_encode (mkPkt Sync (sync_sequence n) t1 (clock_id (config n)))) slave]
  else
    let follow := PtpMessage_encode (follow_up (source_port n) (sync_sequence n) precise) in
    mkDatagram EventSocket (PtpMessage_encode (with_flags (sync (source_port n) (sync_sequence n) t1) 0x0200)) slave
    :: (if general_socket n then
          map (mkDatagram GeneralSocket follow) (known_general_slaves n) ++
          (if bool_decide (known_general_slaves n = []) then [mkDatagram GeneralSocket follow slave] else [])
        else [mkDatagram EventSocket follow slave]).

Definition send_sync (n : PtpNode) (rd : Readings) : PtpNode * list Datagram :=
  (with_sequences n (sync_sequence n +%u16 1) (delay_req_sequence n) (announce_sequence n) (signaling_sequence n),
   concat (imap (fun i slave => sync_datagrams n (wall rd 0) (wall rd (S i)) slave) (known_slaves n))).

Definition build_apple_signaling (n : PtpNode) (target : PtpPortIdentity) (seq timing_port : Z) : list Z :=
  let tlv_body := [0x00; 0x0D; 0x93; 0x00; 0x00; 0x01] ++ to_be 8 (clock_id (config n)) ++ replicate 4 0 ++
                  to_be 2 timing_port ++ replicate 2 0 in
  [0x1C; 0x02] ++ to_be 2 70 ++ [0x00; 0x00] ++ to_be 2 0 ++ to_be 8 0 ++ replicate 4 0 ++
  to_be 8 (clock_id (config n)) ++ to_be 2 1 ++ to_be 2 seq ++ [0x05; 0x7F] ++
  to_be 8 (clock_identity target) ++ to_be 2 (port_number target) ++
  to_be 2 0x0003 ++ to_be 2 22 ++ tlv_body.

Definition send_apple_signaling_response (n : PtpNode) (target : PtpPortIdentity) (to : SocketAddr)
    : PtpNode * list Datagram :=
  let timing_port := default 0 (timing_socket n) in
  if timing_port =? 0 then (n, [])
  else
    let seq := signaling_sequence n in
    (with_sequences n (sync_sequence n) (delay_req_sequence n) (announce_sequence n) (signaling_sequence n +%u16 1),
     [mkDatagram (if general_socket n then GeneralSocket else EventSocket)
        (build_apple_signaling n target seq timing_port) to]).

Definition send_announce (n : PtpNode) (rd : Readings) : PtpNode * list Datagram :=
  let encoded := PtpMessage_encode (announce (source_port n) (announce_sequence n) (clock_id (config n))
                   (priority1 (config n)) (priority2 (config n)) (wall rd 0)) in
  (with_sequences n (sync_sequence n) (delay_req_sequence n) (announce_sequence n +%u16 1) (signaling_sequence n),
   if general_socket n then map (mkDatagram GeneralSocket encoded) (known_general_slaves n) else []).

(** [i]: the position of this call's clock reading in the handler. *)
Definition send_delay_req {E} (n : PtpNode) (rd : Readings) (i : nat) : outcome E (PtpNode * list Datagram) :=
  let target :=
    match remote_master n with
    | Some rm => Some (event_addr rm)
    | None => head (known_slaves n)
    end in
  match target with
  | None => Ok (n, [])
  | Some to =>
      t3 ← adjusted_now n (wall rd i);
      let p := pending n in
      let n1 := with_pending n (mkPending (pending_t1 p) (pending_t2 p) (Some t3) (Some (mono rd i))
                                  (delay_req_unanswered p)) in
      let data :=
        if use_airplay_format (config n)
        then pkt_encode (mkPkt DelayReq (delay_req_sequence n) t3 (clock_id (config n)))
        else PtpMessage_encode (with_transport (delay_req (source_port n) (delay_req_sequence n) t3)
                                  (cfg_transport_specific (config n))) in
      Ok (with_sequences n1 (sync_sequence n) (delay_req_sequence n +%u16 1) (announce_sequence n) (signaling_sequence n),
          [mkDatagram (match timing_socket n with Some _ => TimingSocket | None => EventSocket end) data to])
  end.

Definition handle_airplay_delay_req (n : PtpNode) (req : AirPlayTimingPacket) (src : SocketAddr) (t4 : PtpTimestamp)
    : list Datagram :=
  [mkDatagram EventSocket (pkt_encode (mkPkt DelayResp (pkt_sequence_id req) t4 (clock_id (config n)))) src].

Definition handle_ieee_delay_req (n : PtpNode) (m : PtpMessage) (src : SocketAddr) (t4 : PtpTimestamp)
    : list Datagram :=
  let resp := PtpMessage_encode (delay_resp (source_port n) (sequence_id (header m)) t4
                                   (source_port_identity (header m))) in
  if general_socket n then [mkDatagram GeneralSocket resp (resolve_general_addr_for_event n src)]
  else [mkDatagram EventSocket resp src].

(** ** The slave's exchange *)
Definition complete_exchange (n : PtpNode) (t4 : PtpTimestamp) : option PtpClock.PtpClock :=
  match pending_t1 (pending n), pending_t2 (pending n), pending_t3 (pending n) with
  | Some t1, Some t2, Some t3 => Some (fst (PtpClock.process_timing (clock n) t1 t2 t3 t4))
  | _, _, _ => None
  end.

(** The result of [process_timing] is ignored: a rejected first measurement
    calibrates the epoch with the offset the clock happens to have. *)
Definition process_delay_resp (n : PtpNode) (receive_timestamp : PtpTimestamp) (rd : Readings) : PtpNode :=
  match complete_exchange n receive_timestamp with
  | Some c =>
      let n :=
        match calibrated_epoch_offset n with
        | None =>
            let raw_offset := PtpClock.offset_ns c in
            with_epoch (with_clock n (PtpClock.calibrate_epoch c raw_offset (mono rd 1) (wall rd 1))) (Some raw_offset)
        | Some _ => with_clock n c
        end in
      with_pending n (mkPending None None None None 0)
  | None => n
  end.

Definition one_way (n : PtpNode) : PtpNode :=
  match pending_t1 (pending n), pending_t2 (pending n) with
  | Some t1, Some t2 => with_clock n (PtpClock.process_one_way (clock n) t1 t2)
  | _, _ => n
  end.

(** [delay_req_unanswered += 1] on a [u32]. *)
Definition check_delay_req_timeout {E} (n : PtpNode) (rd : Readings) : outcome E PtpNode :=
  let p := pending n in
  match delay_req_sent_at p with
  | Some sent_at =>
      if DELAY_REQ_TIMEOUT <? elapsed sent_at (mono rd 0) then
        u ← chk_u 32 (delay_req_unanswered p + 1);
        let n := with_pending n (mkPending (pending_t1 p) (pending_t2 p) None None u) in
        Ok (if MAX_UNANSWERED_BEFORE_FALLBACK <=? u then one_way n else n)
      else Ok n
  | None => Ok n
  end.

Definition try_one_way_sync (n : PtpNode) : PtpNode :=
  if (MAX_UNANSWERED_BEFORE_FALLBACK <=? delay_req_unanswered (pending n))
     && bool_decide (pending_t3 (pending n) = None) && bool_decide (role n = Slave)
  then one_way n else n.

(** ** Packets *)
Definition on_sync {E} (n : PtpNode) (origin receive_time : PtpTimestamp) : outcome E PtpNode :=
  let p := pending n in
  match pending_t3 p with
  | Some _ =>
      u ← chk_u 32 (delay_req_unanswered p + 1);
      Ok (with_pending n (mkPending (Some origin) (Some receive_time) None None u))
  | None =>
      Ok (with_pending n (mkPending (Some origin) (Some receive_time) None (delay_req_sent_at p) (delay_req_unanswered p)))
  end.

Definition set_t1 (n : PtpNode) (t1 : PtpTimestamp) : PtpNode :=
  let p := pending n in
  with_pending n (mkPending (Some t1) (pending_t2 p) (pending_t3 p) (delay_req_sent_at p) (delay_req_unanswered p)).

Definition handle_airplay_packet (n : PtpNode) (pkt : AirPlayTimingPacket) (src : SocketAddr)
    (receive_time : PtpTimestamp) (rd : Readings) : PtpNode * list Datagram :=
  let p := pending n in
  match pkt_type pkt with
  | Sync =>
      (with_pending n (mkPending (Some (pkt_timestamp pkt)) (Some receive_time) (pending_t3 p) (delay_req_sent_at p)
                         (delay_req_unanswered p)), [])
  | DelayReq =>
      let n := add_slave n src in (n, handle_airplay_delay_req n pkt src (wall rd 1))
  | DelayResp =>
      match complete_exchange n (pkt_timestamp pkt) with
      | Some c =>
          (with_pending (with_clock n c) (mkPending None None None (delay_req_sent_at p) (delay_req_unanswered p)), [])
      | None => (n, [])
      end
  | _ => (n, [])
  end.

Definition handle_event_packet {E} (n : PtpNode) (data : list Z) (src : SocketAddr) (rd : Readings)
    : outcome E (PtpNode * list Datagram) :=
  receive_time ← adjusted_now n (wall rd 0);
  if use_airplay_format (config n) then
    match pkt_decode data with
    | Ok pkt => Ok (handle_airplay_packet n pkt src receive_time rd)
    | Err _ => Ok (n, [])
    | Panic => Panic
    end
  else
    match PtpMessage_decode data with
    | Ok m =>
        match body m with
        | BSync origin => n ← on_sync n origin receive_time; Ok (n, [])
        | BFollowUp t1 => Ok (try_one_way_sync (set_t1 n t1), [])
        | BDelayReq _ => let n := add_slave n src in Ok (n, handle_ieee_delay_req n m src (wall rd 1))
        | BDelayResp t4 _ => Ok (process_delay_resp n t4 rd, [])
        | _ => Ok (n, [])
        end
    | Err _ => Ok (n, [])
    | Panic => Panic
    end.

(** The scan for an Apple TLV; [fuel] bounds the iterations, running out of it is [Panic]. *)
Fixpoint scan_tlvs {E} (fuel : nat) (data : list Z) (offset : nat) (has_apple_tlv : bool) : outcome E bool :=
  match fuel with
  | O => Panic
  | S fuel =>
      if (offset + 4 <=? length data)%nat then
        tlv_type ← be_at data offset 2;
        tlv_len ← be_at data (offset + 2) 2;
        apple ←
          (if (tlv_type =? 0x0003) && (4 <=? tlv_len) && (offset + 4 + 3 <=? length data)%nat then
             a ← byte_at data (offset + 4);
             if a =? 0x00 then
               b ← byte_at data (offset + 5);
               if b =? 0x0D then c ← byte_at data (offset + 6); Ok (c =? 0x93) else Ok false
             else Ok false
           else Ok false);
        let has_apple_tlv := has_apple_tlv || apple in
        if tlv_len =? 0 then Ok has_apple_tlv
        else scan_tlvs fuel data (offset + (4 + Z.to_nat tlv_len)) has_apple_tlv
      else Ok has_apple_tlv
  end.

Definition has_apple_tlv {E} (data : list Z) : outcome E bool :=
  if (44 <? length data)%nat then scan_tlvs (S (length data)) data 44 false else Ok false.

(** The time a general-port [Delay_Resp] reports: [receiveTimestamp] plus the
    correction, whose unit is [2 ^ -16] ns. *)
Definition t4_actual {E} (h : PtpHeader) (receive_timestamp : PtpTimestamp) : outcome E PtpTimestamp :=
  let correction_ns := Z.shiftr (correction_field h) 16 in
  if 0 <? correction_ns then from_nanos (Z.max (to_nanos receive_timestamp + correction_ns) 0)
  else Ok receive_timestamp.

Definition on_follow_up {E} (n : PtpNode) (t1 : PtpTimestamp) (rd : Readings) : outcome E (PtpNode * list Datagram) :=
  let n := set_t1 n t1 in
  if bool_decide (role n = Slave) && negb (bool_decide (pending_t2 (pending n) = None)) then
    let p := pending n in
    let n := with_pending n (mkPending (pending_t1 p) (pending_t2 p) None None (delay_req_unanswered p)) in
    if delay_req_unanswered p <? 2 then send_delay_req n rd 0 else Ok (try_one_way_sync n, [])
  else Ok (n, []).

Definition handle_general_packet {E} (n : PtpNode) (data : list Z) (src : SocketAddr) (rd : Readings)
    : outcome E (PtpNode * list Datagram) :=
  if use_airplay_format (config n) then Ok (n, [])
  else
    match PtpMessage_decode data with
    | Ok m =>
        match body m with
        | BFollowUp t1 => on_follow_up n t1 rd
        | BDelayResp receive_timestamp _ =>
            t4 ← t4_actual (header m) receive_timestamp;
            Ok (process_delay_resp n t4 rd, [])
        | BAnnounce _ gm p1 p2 => Ok (process_announce n gm p1 p2 src rd, [])
        | BSignaling =>
            apple ← has_apple_tlv data;
            Ok (if (apple : bool) then send_apple_signaling_response n (source_port_identity (header m)) src else (n, []))
        | _ => Ok (n, [])
        end
    | Err _ => Ok (n, [])
    | Panic => Panic
    end.

(** ** The event loop: one iteration of [run]'s [select!] *)
Inductive Event :=
| EventPacket (data : list Z) (src : SocketAddr)
| GeneralPacket (data : list Z) (src : SocketAddr)
| TimingPacket (data : list Z) (src : SocketAddr)
| SyncTick
| DelayReqTick
| AnnounceTick.

(** The clock readings of [send_delay_req] follow those of the timeout check. *)
Definition on_delay_req_tick {E} (n : PtpNode) (rd : Readings) : outcome E (PtpNode * list Datagram) :=
  n ← check_delay_req_timeout n rd;
  let p := pending n in
  let in_fallback := 2 <=? delay_req_unanswered p in
  let should_send :=
    negb (bool_decide (pending_t1 p = None)) && bool_decide (pending_t3 p = None) && negb in_fallback
    && (bool_decide (role n = Slave) || use_airplay_format (config n)) in
  if should_send then send_delay_req n rd 1 else Ok (n, []).

Definition step {E} (n : PtpNode) (ev : Event) (rd : Readings) : outcome E (PtpNode * list Datagram) :=
  match ev with
  | EventPacket data src => handle_event_packet n data src rd
  | GeneralPacket data src => if general_socket n then handle_general_packet n data src rd else Ok (n, [])
  | TimingPacket data src =>
      match timing_socket n with Some _ => handle_event_packet n data src rd | None => Ok (n, []) end
  | SyncTick =>
      Ok (if bool_decide (role n = Master) && negb (bool_decide (known_slaves n = []))
          then send_sync n rd else (n, []))
  | DelayReqTick => on_delay_req_tick n rd
  | AnnounceTick => let '(n, ds) := send_announce n rd in Ok (check_announce_timeout n rd, ds)
  end.

(** Iterations of the loop, with everything sent. *)
Fixpoint run {E} (n : PtpNode) (evs : list (Event * Readings)) : outcome E (PtpNode * list Datagram) :=
  match evs with
  | [] => Ok (n, [])
  | (ev, rd) :: rest =>
      '(n, ds) ← step n ev rd;
      '(n, ds') ← run n rest;
      Ok (n, ds ++ ds')
  end.

(** ** Invariants *)

(** At most two unanswered requests are counted, and none is outstanding at two. *)
Definition count_inv (p : Pending) : Prop :=
  0 <= delay_req_unanswered p <= 2 /\
  (delay_req_unanswered p = 2 -> pending_t3 p = None /\ delay_req_sent_at p = None).

(** Times before the year [2 ^ 62 / 31556952]. *)
Definition T_MAX : Z := 2 ^ 62 * NANOS_PER_SEC + 2 ^ 32.
Definition in_range (t : PtpTimestamp) : Prop := 0 <= to_nanos t <= T_MAX.
Definition opt_in_range (o : option PtpTimestamp) : Prop := from_option in_range True o.
Definition offset_ok (z : Z) : Prop := Z.abs z <= T_MAX.

Definition window_ok (c : PtpClock.PtpClock) : Prop :=
  Forall (fun m => offset_ok (PtpClock.m_offset_ns m)) (PtpClock.measurements c) /\ offset_ok (PtpClock.offset_ns c).

Definition epoch_inv (n : PtpNode) : Prop :=
  match calibrated_epoch_offset n with
  | Some e => offset_ok e
  | None => opt_in_range (pending_t2 (pending n)) /\ opt_in_range (pending_t3 (pending n)) /\ window_ok (clock n)
  end.

Definition node_inv (n : PtpNode) : Prop :=
  count_inv (pending n) /\ opt_in_range (pending_t1 (pending n)) /\ epoch_inv n /\
  (0 < PtpClock.max_measurements (clock n))%nat.

(** A node before its first event: slaves and the timing socket may be set. *)
Definition fresh (n : PtpNode) : Prop :=
  pending n = mkPending None None None None 0 /\ calibrated_epoch_offset n = None /\
  PtpClock.measurements (clock n) = [] /\ PtpClock.offset_ns (clock n) = 0 /\
  (0 < PtpClock.max_measurements (clock n))%nat.

Definition readings_ok (rd : Readings) : Prop :=
  forall i, 0 <= seconds (wall rd i) < 2 ^ 62 /\ 0 <= nanoseconds (wall rd i) < NANOS_PER_SEC.

Definition event_ok (ev : Event) : Prop :=
  match ev with
  | EventPacket data _ | GeneralPacket data _ | TimingPacket data _ => bytes_ok data
  | _ => True
  end.

Lemma fresh_inv n : fresh n -> node_inv n.
Proof.
  intros (Hp & He & Hm & Ho & Hmax). unfold node_inv, epoch_inv, window_ok, count_inv. rewrite He, Hp, Hm, Ho. cbn.
  unfold offset_ok, T_MAX, NANOS_PER_SEC. split_and!; auto; try lia; intros [=].
Qed.

Lemma wall_in_range rd i : readings_ok rd -> in_range (wall rd i).
Proof.
  intros H. destruct (H i) as [H1 H2]. unfold in_range, to_nanos, T_MAX, NANOS_PER_SEC in *. lia.
Qed.

Lemma ts_ok_in_range t : ts_ok t -> in_range t.
Proof. unfold ts_ok, in_range, to_nanos, T_MAX, NANOS_PER_SEC, uint. lia. Qed.

Lemma pkt_ok_in_range p : pkt_ok p -> in_range (pkt_timestamp p).
Proof. intros (_ & _ & H1 & H2). unfold uint, in_range, to_nanos, T_MAX, NANOS_PER_SEC in *. lia. Qed.

Lemma from_nanos_wp {E} z : 0 <= z < 2 ^ 64 * NANOS_PER_SEC -> wp (from_nanos (E := E) z) (fun t => to_nanos t = z).
Proof.
  intros Hz. unfold from_nanos. rewrite (proj2 (Z.ltb_ge z 0)) by lia.
  rewrite chk_u_ok; [|split; [apply Z.div_pos|apply Z.div_lt_upper_bound]; unfold NANOS_PER_SEC in *; lia].
  cbn [mbind outcome_bind wp]. unfold to_nanos. cbn [seconds nanoseconds].
  rewrite (Z.div_mod z NANOS_PER_SEC) at 3 by done. lia.
Qed.

Lemma adjusted_now_wp {E} n t : epoch_inv n -> in_range t ->
  wp (adjusted_now (E := E) n t) (fun t' => calibrated_epoch_offset n = None -> in_range t').
Proof.
  unfold epoch_inv, adjusted_now. intros He Ht. destruct (calibrated_epoch_offset n) as [e|]; [|by cbn].
  cbv zeta. case_m; [|done]. bool_to_prop. eapply wp_mono; [apply from_nanos_wp|done].
  unfold offset_ok, in_range, T_MAX, NANOS_PER_SEC in *. lia.
Qed.

(** *** The clock keeps its offsets in range *)
Lemma record_measurement_ok c m : (0 < PtpClock.max_measurements c)%nat -> window_ok c -> offset_ok (PtpClock.m_offset_ns m) ->
  window_ok (PtpClock.record_measurement c m).
Proof.
  intros Hmax [Hf _] Hm. rewrite PtpClock.record_measurement_spec by done. unfold window_ok. cbn.
  set (ms := PtpClock.trim _ _).
  assert (Forall (fun m => offset_ok (PtpClock.m_offset_ns m)) ms) as HF
    by (apply PtpClock.trim_forall, Forall_app; auto).
  split; [done|]. assert (PtpClock.median (map PtpClock.m_offset_ns ms) ∈ map PtpClock.m_offset_ns ms) as Hin.
  { apply PtpClock.median_in. destruct ms eqn:E; [|done]. by apply PtpClock.trim_snoc_nonempty in E. }
  apply list_elem_of_In, in_map_iff in Hin as (x & <- & Hx%list_elem_of_In).
  by eapply Forall_forall in HF.
Qed.

Lemma record_max c m : PtpClock.max_measurements (PtpClock.record_measurement c m) = PtpClock.max_measurements c.
Proof.
  unfold PtpClock.record_measurement, PtpClock.update_offset. cbv zeta.
  cbn [PtpClock.with_window PtpClock.measurements PtpClock.max_measurements PtpClock.min_sync_measurements].
  repeat (case_match; cbn); done.
Qed.

Lemma process_timing_ok c a b d e : (0 < PtpClock.max_measurements c)%nat -> window_ok c ->
  in_range a -> in_range b -> in_range d -> in_range e -> window_ok (fst (PtpClock.process_timing c a b d e)).
Proof.
  intros Hmax Hc Ha Hb Hd He. unfold PtpClock.process_timing. cbv zeta. case_m; [done|]. apply record_measurement_ok; [done..|].
  unfold PtpClock.calculate, diff_nanos, offset_ok, in_range in *. cbn [PtpClock.m_offset_ns].
  revert Ha Hb Hd He. generalize (to_nanos a) (to_nanos b) (to_nanos d) (to_nanos e) T_MAX.
  intros. Z.to_euclidean_division_equations. lia.
Qed.

Lemma process_timing_max c a b d e :
  PtpClock.max_measurements (fst (PtpClock.process_timing c a b d e)) = PtpClock.max_measurements c.
Proof. unfold PtpClock.process_timing. cbv zeta. case_m; [done|]. apply record_max. Qed.

Lemma one_way_ok c a b : (0 < PtpClock.max_measurements c)%nat -> window_ok c -> in_range a -> in_range b ->
  window_ok (PtpClock.process_one_way c a b).
Proof.
  intros Hmax Hc Ha Hb. apply record_measurement_ok; [done..|]. unfold offset_ok, diff_nanos, in_range in *. cbn. lia.
Qed.

Lemma calibrate_max c z now w :
  PtpClock.max_measurements (PtpClock.calibrate_epoch c z now w) = PtpClock.max_measurements c.
Proof. unfold PtpClock.calibrate_epoch. by case_m. Qed.

(** *** Every handler keeps the invariant *)
Definition keeps {E} (m : outcome E (PtpNode * list Datagram)) : Prop := wp m (fun r => node_inv (fst r)).

Ltac inv_split := unfold node_inv, epoch_inv, count_inv in *; cbn in *; destruct_and?; split_and!; auto; try done; try lia.

Lemma send_delay_req_inv {E} n rd i : node_inv n -> delay_req_unanswered (pending n) < 2 -> readings_ok rd ->
  keeps (send_delay_req (E := E) n rd i).
Proof.
  intros (Hc & H1 & He & Hm) Hu Hrd. unfold send_delay_req. cbv zeta. case_m; [|by cbn].
  apply wp_bind. eapply wp_mono; [apply adjusted_now_wp; [done|by apply wall_in_range]|].
  intros t3 Ht3. inv_split. case_m; [done|]. naive_solver.
Qed.

(** An outstanding request leaves room to count it. *)
Lemma count_lt p : count_inv p -> pending_t3 p <> None \/ delay_req_sent_at p <> None -> delay_req_unanswered p < 2.
Proof. intros [H1 H2] H. destruct (Z.eq_dec (delay_req_unanswered p) 2) as [E|]; [destruct (H2 E); naive_solver|lia]. Qed.

Lemma one_way_inv n : node_inv n -> node_inv (one_way n).
Proof.
  intros Hn. pose proof Hn as (Hc & H1 & He & Hm). unfold one_way.
  destruct (pending_t1 (pending n)) as [t1|] eqn:E1; [|done].
  destruct (pending_t2 (pending n)) as [t2|] eqn:E2; [|done].
  unfold node_inv, epoch_inv in *. cbn. rewrite E1, E2 in *. unfold PtpClock.process_one_way in *. rewrite record_max.
  split_and!; try done. case_m; [done|]. destruct He as (Ha & Hb & Hw). split_and!; try done. by apply one_way_ok.
Qed.

Lemma check_delay_req_timeout_inv {E} n rd : node_inv n -> wp (check_delay_req_timeout (E := E) n rd) node_inv.
Proof.
  intros (Hc & H1 & He & Hm). unfold check_delay_req_timeout. cbv zeta.
  destruct (delay_req_sent_at (pending n)) as [sent|] eqn:Es; [|done]. case_m; [|done].
  assert (delay_req_unanswered (pending n) < 2) by (apply count_lt; [done|right; congruence]). destruct Hc as [Hc Hc2]. rewrite chk_u_ok by (unfold uint; lia). cbn [mbind outcome_bind wp].
  assert (node_inv (with_pending n (mkPending (pending_t1 (pending n)) (pending_t2 (pending n)) None None
             (delay_req_unanswered (pending n) + 1)))) as Hi by (inv_split; case_m; naive_solver).
  case_m; [by apply one_way_inv|done].
Qed.

Lemma try_one_way_sync_inv n : node_inv n -> node_inv (try_one_way_sync n).
Proof. unfold try_one_way_sync. case_m; [apply one_way_inv|done]. Qed.

Lemma on_sync_inv {E} n a b : node_inv n -> in_range a -> (calibrated_epoch_offset n = None -> in_range b) ->
  wp (on_sync (E := E) n a b) node_inv.
Proof.
  intros (Hc & H1 & He & Hm) Ha Hb. unfold on_sync. cbv zeta. destruct (pending_t3 (pending n)) eqn:E3.
  - assert (delay_req_unanswered (pending n) < 2) by (apply count_lt; [done|left; congruence]). destruct Hc as [Hc Hc2]. rewrite chk_u_ok by (unfold uint; lia). inv_split. case_m; naive_solver.
  - inv_split; [naive_solver|]. case_m; naive_solver.
Qed.

Lemma set_t1_inv n t : node_inv n -> in_range t -> node_inv (set_t1 n t).
Proof. intros (Hc & H1 & He & Hm) Ht. by inv_split. Qed.

Lemma add_slave_inv n a : node_inv n -> node_inv (add_slave n a).
Proof. done. Qed.

Lemma complete_exchange_ok n t4 c : node_inv n -> in_range t4 -> complete_exchange n t4 = Some c ->
  (calibrated_epoch_offset n = None -> window_ok c) /\ PtpClock.max_measurements c = PtpClock.max_measurements (clock n).
Proof.
  intros (Hc & H1 & He & Hm) H4. unfold complete_exchange, epoch_inv in *.
  destruct (pending_t1 (pending n)), (pending_t2 (pending n)), (pending_t3 (pending n)); try done.
  intros [= <-]. rewrite process_timing_max. split; [|done]. intros Hcal. rewrite Hcal in He.
  destruct He as (H2 & H3 & Hw). by apply process_timing_ok.
Qed.

Lemma process_delay_resp_inv n t4 rd : node_inv n -> in_range t4 -> node_inv (process_delay_resp n t4 rd).
Proof.
  intros Hn H4. unfold process_delay_resp. destruct (complete_exchange n t4) as [c|] eqn:Ec; [|done].
  destruct (complete_exchange_ok n t4 c Hn H4 Ec) as [Hw Hmax]. destruct Hn as (Hc & H1 & He & Hm).
  unfold node_inv, epoch_inv, count_inv. destruct (calibrated_epoch_offset n) as [e|] eqn:Ee; cbn; rewrite ?Ee, ?calibrate_max, Hmax.
  - unfold epoch_inv in He. rewrite Ee in He. split_and!; try done; lia.
  - destruct (Hw eq_refl) as [_ Ho]. split_and!; try done; lia.
Qed.

Lemma handle_airplay_packet_inv n pkt src t rd : node_inv n -> pkt_ok pkt ->
  (calibrated_epoch_offset n = None -> in_range t) -> node_inv (fst (handle_airplay_packet n pkt src t rd)).
Proof.
  intros Hn Hp%pkt_ok_in_range Ht. unfold handle_airplay_packet. cbv zeta. destruct (pkt_type pkt); try done; cbn [fst].
  - destruct Hn as (Hc & H1 & He & Hm). inv_split. case_m; naive_solver.
  - destruct (complete_exchange n _) as [c|] eqn:Ec; [|done].
    destruct (complete_exchange_ok n _ c Hn Hp Ec) as [Hw Hmax]. destruct Hn as (Hc & H1 & He & Hm).
    inv_split; rewrite ?Hmax; try done; [naive_solver|]. case_m; naive_solver.
Qed.

Lemma handle_event_packet_inv {E} n data src rd : node_inv n -> bytes_ok data -> readings_ok rd ->
  keeps (handle_event_packet (E := E) n data src rd).
Proof.
  intros Hn Hd Hrd. unfold handle_event_packet. apply wp_bind.
  eapply wp_mono; [apply adjusted_now_wp; [apply Hn|by apply wall_in_range]|]. intros t Ht.
  pose proof (pkt_typed data Hd) as Hp. pose proof (message_typed data Hd) as Hmsg. case_m.
  - destruct (pkt_decode data) as [pkt|e|]; [|done|done]. cbn in *. by apply handle_airplay_packet_inv.
  - destruct (PtpMessage_decode data) as [m|e|]; [|done|done]. destruct Hmsg as (_ & Hb & _).
    destruct (body m) eqn:Eb; try done.
    + apply wp_bind. eapply wp_mono; [apply on_sync_inv; auto using ts_ok_in_range|]. by intros.
    + apply try_one_way_sync_inv, set_t1_inv; [done|by apply ts_ok_in_range].
    + apply process_delay_resp_inv; [done|]. by apply ts_ok_in_range, Hb.
Qed.

(** Each turn of the scan moves past a TLV header and a non-empty body, so the
    length of the packet is fuel enough. *)
Lemma scan_tlvs_safe {E} fuel data offset acc : bytes_ok data ->
  (0 < fuel)%nat -> (length data < offset + fuel)%nat -> safe (scan_tlvs (E := E) fuel data offset acc).
Proof.
  intros Hd. revert offset acc. induction fuel as [|fuel IH]; intros offset acc H0 Hf; [lia|]. cbn [scan_tlvs].
  destruct (Nat.leb_spec (offset + 4) (length data)); [|done].
  apply safe_bind; [apply be_at_safe; lia|]. intros ty _.
  apply safe_bind; [apply be_at_safe; lia|]. intros len Hlen.
  assert (0 <= len) by (pose proof (be_at_wp (E := E) data (offset + 2) 2 Hd ltac:(lia)) as Hw; rewrite Hlen in Hw; apply Hw).
  apply safe_bind.
  - case_m; [|done]. bool_to_prop.
    apply safe_bind; [apply byte_at_safe; lia|]. intros a _. case_m; [|done].
    apply safe_bind; [apply byte_at_safe; lia|]. intros b _. case_m; [|done].
    apply safe_bind; [apply byte_at_safe; lia|done].
  - intros apple _. cbv zeta. case_m; [done|]. bool_to_prop. apply IH; lia.
Qed.

Lemma has_apple_tlv_safe {E} data : bytes_ok data -> safe (has_apple_tlv (E := E) data).
Proof. intros Hd. unfold has_apple_tlv. case_m; [|done]. apply scan_tlvs_safe; [done|lia..]. Qed.

Lemma t4_actual_wp {E} h t : header_ok h -> ts_ok t -> wp (t4_actual (E := E) h t) in_range.
Proof.
  intros (_ & _ & _ & _ & Hc & _) Ht. unfold t4_actual. cbv zeta. case_m; [|by apply ts_ok_in_range].
  bool_to_prop. unfold sint, ts_ok, uint in *. rewrite Z.shiftr_div_pow2 in * by lia.
  assert (correction_field h / 2 ^ 16 < 2 ^ 47) by (apply Z.div_lt_upper_bound; lia).
  assert (0 <= to_nanos t < 2 ^ 48 * NANOS_PER_SEC + 2 ^ 32) by (unfold to_nanos, NANOS_PER_SEC in *; lia).
  eapply wp_mono; [apply from_nanos_wp|]; unfold in_range, T_MAX, NANOS_PER_SEC in *; [lia|].
  intros t' ->. lia.
Qed.

Lemma process_announce_inv n gm p1 p2 src rd : node_inv n -> node_inv (process_announce n gm p1 p2 src rd).
Proof. intros (Hc & H1 & He & Hm). unfold process_announce. cbv zeta. repeat case_m; by inv_split. Qed.

Lemma signaling_inv n target to : node_inv n -> node_inv (fst (send_apple_signaling_response n target to)).
Proof. intros. unfold send_apple_signaling_response. cbv zeta. by case_m. Qed.

Lemma on_follow_up_inv {E} n t1 rd : node_inv n -> in_range t1 -> readings_ok rd ->
  keeps (on_follow_up (E := E) n t1 rd).
Proof.
  intros Hn Ht Hrd. apply (set_t1_inv n t1) in Hn; [|done]. unfold on_follow_up. cbv zeta. case_m; [|done].
  assert (node_inv (with_pending (set_t1 n t1) (mkPending (pending_t1 (pending (set_t1 n t1)))
    (pending_t2 (pending (set_t1 n t1))) None None (delay_req_unanswered (pending (set_t1 n t1)))))) as Hi.
  { destruct Hn as (Hc & H1 & He & Hmax). inv_split. case_m; naive_solver. }
  case_m; bool_to_prop.
  - by apply send_delay_req_inv.
  - by apply try_one_way_sync_inv.
Qed.

Lemma handle_general_packet_inv {E} n data src rd : node_inv n -> bytes_ok data -> readings_ok rd ->
  keeps (handle_general_packet (E := E) n data src rd).
Proof.
  intros Hn Hd Hrd. unfold handle_general_packet. case_m; [done|].
  pose proof (message_typed data Hd) as Hmsg.
  destruct (PtpMessage_decode data) as [m|e|]; [|done|done]. destruct Hmsg as (Hh & Hb & _).
  destruct (body m) eqn:Eb; try done.
  - apply on_follow_up_inv; [done|by apply ts_ok_in_range|done].
  - apply wp_bind. eapply wp_mono; [apply t4_actual_wp; [done|apply Hb]|]. intros t4 H4. by apply process_delay_resp_inv.
  - by apply process_announce_inv.
  - apply wp_bind. eapply wp_mono; [apply safe_wp, has_apple_tlv_safe, Hd|]. intros a _. cbn.
    case_m; [by apply signaling_inv|done].
Qed.

Lemma on_delay_req_tick_inv {E} n rd : node_inv n -> readings_ok rd -> keeps (on_delay_req_tick (E := E) n rd).
Proof.
  intros Hn Hrd. apply wp_bind. eapply wp_mono; [by apply check_delay_req_timeout_inv|]. intros n' Hn'. cbv zeta.
  case_m; [|done]. apply send_delay_req_inv; [done| |done]. apply andb_prop in Hm as [[_ Hu]%andb_prop _].
  apply negb_true_iff in Hu. bool_to_prop. lia.
Qed.

Lemma step_inv {E} n ev rd : node_inv n -> event_ok ev -> readings_ok rd -> keeps (step (E := E) n ev rd).
Proof.
  intros Hn Hev Hrd. destruct ev; cbn [step] in *.
  - by apply handle_event_packet_inv.
  - case_m; [by apply handle_general_packet_inv|done].
  - case_m; [by apply handle_event_packet_inv|done].
  - by case_m.
  - by apply on_delay_req_tick_inv.
  - unfold send_announce. cbn. unfold check_announce_timeout. cbn. repeat case_m; try done.
    destruct Hn as (Hc & H1 & He & Hm'). inv_split. case_m; naive_solver.
Qed.

Definition trace_ok (evs : list (Event * Readings)) : Prop := Forall (fun e => event_ok (fst e) /\ readings_ok (snd e)) evs.

Lemma run_inv {E} n evs : node_inv n -> trace_ok evs -> keeps (run (E := E) n evs).
Proof.
  intros Hn Hevs. revert n Hn. induction Hevs as [|[ev rd] evs [He Hr] _ IH]; intros n Hn; [done|]. cbn [run].
  apply wp_bind. eapply wp_mono; [by apply step_inv|]. intros [n' ds] Hn'. cbn in *.
  apply wp_bind. eapply wp_mono; [by apply IH|]. by intros [].
Qed.

(** ** The one-way fallback *)

(** A datagram with a [Delay_Req], in either format. *)
Definition is_request (d : Datagram) : bool :=
  match payload d with b :: _ => Z.land b 0x0F =? type_as_u8 DelayReq | [] => false end.

Definition stuck (n : PtpNode) : Prop :=
  delay_req_unanswered (pending n) = 2 /\ pending_t3 (pending n) = None /\ delay_req_sent_at (pending n) = None.

(** What a step of a node in fallback may change. *)
Definition stays_stuck (n : PtpNode) (r : PtpNode * list Datagram) : Prop :=
  stuck (fst r) /\ calibrated_epoch_offset (fst r) = calibrated_epoch_offset n /\ config (fst r) = config n /\
  Forall (fun d => is_request d = false) (snd r) /\
  (use_airplay_format (config n) = true -> clock (fst r) = clock n).

Lemma stays_refl n : stuck n -> stays_stuck n (n, []).
Proof. by unfold stays_stuck. Qed.

Lemma forall_map_same (f : SocketAddr -> Datagram) l :
  (forall a, is_request (f a) = false) -> Forall (fun d => is_request d = false) (map f l).
Proof. intros H. apply Forall_map, Forall_true, H. Qed.

Lemma send_sync_no_request n rd : Forall (fun d => is_request d = false) (snd (send_sync n rd)).
Proof.
  cbn [send_sync snd]. apply Forall_concat, Forall_lookup_2. intros i ds. rewrite list_lookup_imap.
  destruct (known_slaves n !! i) as [a|]; cbn; [|done]. intros [= <-]. unfold sync_datagrams. cbv zeta.
  destruct (use_airplay_format (config n)); [by repeat constructor|]. constructor; [done|].
  destruct (general_socket n); [|by repeat constructor]. apply Forall_app. split; [by apply forall_map_same|].
  case_m; by repeat constructor.
Qed.

Lemma one_way_stuck n : stuck n -> use_airplay_format (config n) = false -> stays_stuck n (one_way n, []).
Proof. intros Hs Hf. unfold one_way. repeat case_m; unfold stays_stuck, stuck in *; cbn; rewrite ?Hf; naive_solver. Qed.

Lemma complete_none n t4 : pending_t3 (pending n) = None -> complete_exchange n t4 = None.
Proof. unfold complete_exchange. intros ->. by repeat case_m. Qed.

Lemma handle_event_stuck {E} n data src rd r : stuck n ->
  handle_event_packet (E := E) n data src rd = Ok r -> stays_stuck n r.
Proof.
  intros Hs. pose proof Hs as (Hu & H3 & Hsent). unfold handle_event_packet. intros (t & _ & H)%bind_ok. revert H.
  destruct (use_airplay_format (config n)) eqn:Hf.
  - destruct (pkt_decode data) as [pkt|e|]; [|intros [= <-]; by apply stays_refl|done]. intros [= <-].
    unfold handle_airplay_packet. cbv zeta. rewrite complete_none by done.
    destruct (pkt_type pkt); try by apply stays_refl.
    + by unfold stays_stuck, stuck.
    + unfold stays_stuck. split_and!; try done. by repeat constructor.
  - destruct (PtpMessage_decode data) as [m|e|]; [|intros [= <-]; by apply stays_refl|done].
    destruct (body m); intros H; simplify_eq; try by apply stays_refl.
    + unfold on_sync in H. rewrite H3 in H. cbn in H. injection H as <-. by unfold stays_stuck, stuck.
    + unfold try_one_way_sync. case_m; [|by unfold stays_stuck, stuck]. by apply (one_way_stuck (set_t1 n _)).
    + unfold stays_stuck. split_and!; try done. unfold handle_ieee_delay_req. cbv zeta. case_m; by repeat constructor.
    + unfold process_delay_resp. rewrite complete_none by done. by apply stays_refl.
Qed.

Lemma handle_general_stuck {E} n data src rd r : stuck n ->
  handle_general_packet (E := E) n data src rd = Ok r -> stays_stuck n r.
Proof.
  intros Hs. pose proof Hs as (Hu & H3 & Hsent). unfold handle_general_packet.
  destruct (use_airplay_format (config n)) eqn:Hf; [intros [= <-]; by apply stays_refl|].
  destruct (PtpMessage_decode data) as [m|e|]; [|intros [= <-]; by apply stays_refl|done].
  destruct (body m); intros H; simplify_eq; try by apply stays_refl.
  - unfold on_follow_up in H. cbv zeta in H. revert H. case_m; [|intros [= <-]; by unfold stays_stuck, stuck].
    cbn [set_t1 pending delay_req_unanswered with_pending]. rewrite Hu. cbn [Z.ltb Z.compare]. intros [= <-].
    unfold try_one_way_sync. case_m; [|by unfold stays_stuck, stuck].
    by apply (one_way_stuck (with_pending n _)).
  - apply bind_ok in H as (t4 & _ & [= <-]). unfold process_delay_resp. rewrite complete_none by done.
    by apply stays_refl.
  - unfold process_announce. cbv zeta. unfold stays_stuck, stuck in *. repeat case_m; cbn; rewrite ?Hf; naive_solver.
  - apply bind_ok in H as (a & _ & [= <-]). case_m; [|by apply stays_refl]. unfold send_apple_signaling_response.
    cbv zeta. case_m; [by apply stays_refl|]. unfold stays_stuck. split_and!; try done. by repeat constructor.
Qed.

Lemma step_stuck {E} n ev rd r : stuck n -> step (E := E) n ev rd = Ok r -> stays_stuck n r.
Proof.
  intros Hs. pose proof Hs as (Hu & H3 & Hsent). destruct ev; cbn [step].
  - by apply handle_event_stuck.
  - case_m; [by apply handle_general_stuck|intros [= <-]; by apply stays_refl].
  - case_m; [by apply handle_event_stuck|intros [= <-]; by apply stays_refl].
  - intros [= <-]. case_m; [|by apply stays_refl]. unfold stays_stuck. split_and!; try done. apply send_sync_no_request.
  - unfold on_delay_req_tick, check_delay_req_timeout. cbv zeta. rewrite Hsent. cbn [mbind outcome_bind].
    rewrite Hu. cbn [Z.leb Z.compare negb]. rewrite andb_false_r. cbn [andb]. intros [= <-]. by apply stays_refl.
  - intros [= <-]. unfold send_announce, check_announce_timeout, stays_stuck. cbn [fst snd].
    split_and!; repeat case_m; try done; by apply forall_map_same.
Qed.

Lemma run_stuck {E} n evs r : stuck n -> run (E := E) n evs = Ok r -> stays_stuck n r.
Proof.
  revert n r. induction evs as [|[ev rd] evs IH]; intros n r Hs; cbn [run].
  - intros [= <-]. by apply stays_refl.
  - intros ([n1 ds1] & H1%step_stuck & ([n2 ds2] & H2 & [= <-])%bind_ok)%bind_ok; [|done].
    destruct H1 as (S1 & C1 & G1 & F1 & K1). apply IH in H2; [|done]. destruct H2 as (S2 & C2 & G2 & F2 & K2).
    cbn [fst snd] in *. unfold stays_stuck. cbn [fst snd]. rewrite C2, G2, C1, G1. split_and!; try done.
    + by apply Forall_app.
    + intros Hf. rewrite <- K1 by done. apply K2. by rewrite G1.
Qed.

(** ** Two nodes over the wire *)
Definition node_wf (n : PtpNode) : Prop :=
  use_airplay_format (config n) = false /\ general_socket n = true /\
  uint 64 (clock_id (config n)) /\ uint 8 (priority1 (config n)) /\ uint 8 (priority2 (config n)) /\
  uint 4 (cfg_transport_specific (config n)) /\
  uint 16 (sync_sequence n) /\ uint 16 (delay_req_sequence n) /\ uint 16 (announce_sequence n).

Definition wire_times (rd : Readings) : Prop := forall i, ts_ok (wall rd i).

Lemma source_port_ok n : node_wf n -> port_ok (source_port n).
Proof. intros (_ & _ & H & _). split; [done|unfold uint; cbn; lia]. Qed.

Lemma new_header_ok t p seq : port_ok p -> uint 16 seq -> header_ok (PtpHeader_new t p seq).
Proof. intros Hp Hs. unfold header_ok, uint, sint in *. cbn -[port_ok Z.pow]. destruct t; cbn -[port_ok]; split_and!; done || lia. Qed.

(** The messages a node builds survive the wire. *)
Lemma announce_arrives n rd : node_wf n -> wire_times rd -> exists h,
  PtpMessage_decode (PtpMessage_encode (announce (source_port n) (announce_sequence n) (clock_id (config n))
     (priority1 (config n)) (priority2 (config n)) (wall rd 0))) =
  Ok (mkMsg h (BAnnounce (wall rd 0) (clock_id (config n)) (priority1 (config n)) (priority2 (config n)))).
Proof.
  intros Hn Hrd. pose proof (source_port_ok n Hn). destruct Hn as (_ & _ & Hid & Hp1 & Hp2 & _ & _ & _ & Hs).
  eexists. apply message_roundtrip. split_and!; [by apply new_header_ok| |done]. by split_and!.
Qed.

Lemma sync_arrives n t : node_wf n -> ts_ok t -> exists h,
  PtpMessage_decode (PtpMessage_encode (with_flags (sync (source_port n) (sync_sequence n) t) 0x0200)) = Ok (mkMsg h (BSync t)).
Proof.
  intros Hn Ht. pose proof (source_port_ok n Hn) as Hp. destruct Hn as (_ & _ & Hid & _ & _ & _ & Hs & _).
  eexists. apply message_roundtrip. pose proof (new_header_ok Sync _ _ Hp Hs) as Hh. split_and!; [|done|done].
  unfold header_ok in *. cbn -[port_ok Z.pow] in *. destruct_and!. split_and!; try done.
Qed.

Lemma follow_up_arrives n t : node_wf n -> ts_ok t -> exists h,
  PtpMessage_decode (PtpMessage_encode (follow_up (source_port n) (sync_sequence n) t)) = Ok (mkMsg h (BFollowUp t)).
Proof.
  intros Hn Ht. pose proof (source_port_ok n Hn) as Hp. destruct Hn as (_ & _ & Hid & _ & _ & _ & Hs & _).
  eexists. apply message_roundtrip. split_and!; [by apply new_header_ok|done|done].
Qed.

Lemma delay_req_arrives n t : node_wf n -> ts_ok t -> exists h,
  PtpMessage_decode (PtpMessage_encode (with_transport (delay_req (source_port n) (delay_req_sequence n) t)
    (cfg_transport_specific (config n)))) = Ok (mkMsg h (BDelayReq t)) /\
  sequence_id h = delay_req_sequence n /\ source_port_identity h = source_port n.
Proof.
  intros Hn Ht. pose proof (source_port_ok n Hn) as Hp. destruct Hn as (_ & _ & Hid & _ & _ & Hts & _ & Hs & _).
  eexists. split; [apply message_roundtrip|done]. pose proof (new_header_ok DelayReq _ _ Hp Hs) as Hh.
  split_and!; [|done|done]. unfold header_ok in *. cbn -[port_ok Z.pow] in *. destruct_and!. by split_and!.
Qed.

Lemma delay_resp_arrives n seq t p : node_wf n -> uint 16 seq -> ts_ok t -> port_ok p -> exists h,
  PtpMessage_decode (PtpMessage_encode (delay_resp (source_port n) seq t p)) = Ok (mkMsg h (BDelayResp t p)) /\
  correction_field h = 0.
Proof.
  intros Hn Hs Ht Hp. pose proof (source_port_ok n Hn).
  eexists. split; [apply message_roundtrip|done]. split_and!; [by apply new_header_ok|done|done].
Qed.

(** *** The steps of one exchange *)
Lemma sync_step {E} s t origin src rd h : use_airplay_format (config s) = false -> calibrated_epoch_offset s = None ->
  pending s = mkPending None None None None 0 -> PtpMessage_decode t = Ok (mkMsg h (BSync origin)) ->
  step (E := E) s (EventPacket t src) rd =
    Ok (with_pending s (mkPending (Some origin) (Some (wall rd 0)) None None 0), []).
Proof.
  intros Hf Hc Hp Hd. cbn [step]. unfold handle_event_packet, adjusted_now. rewrite Hc. cbn [mbind outcome_bind].
  rewrite Hf, Hd. cbn [body]. unfold on_sync. rewrite Hp. reflexivity.
Qed.

Lemma follow_up_step {E} s t t1 o t2 src rd h rm : node_wf s -> calibrated_epoch_offset s = None -> role s = Slave ->
  remote_master s = Some rm -> pending s = mkPending o (Some t2) None None 0 ->
  PtpMessage_decode t = Ok (mkMsg h (BFollowUp t1)) -> exists s',
  step (E := E) s (GeneralPacket t src) rd =
    Ok (s', [mkDatagram (match timing_socket s with Some _ => TimingSocket | None => EventSocket end)
               (PtpMessage_encode (with_transport (delay_req (source_port s) (delay_req_sequence s) (wall rd 0))
                  (cfg_transport_specific (config s)))) (event_addr rm)]) /\
  pending s' = mkPending (Some t1) (Some t2) (Some (wall rd 0)) (Some (mono rd 0)) 0 /\
  clock s' = clock s /\ config s' = config s /\ general_socket s' = true /\ calibrated_epoch_offset s' = None.
Proof.
  intros (Hf & Hg & _) Hc Hr Hrm Hp Hd. eexists. split; [|split].
  - cbn [step]. rewrite Hg. unfold handle_general_packet. rewrite Hf, Hd. cbn [body]. unfold on_follow_up, set_t1. cbv zeta.
    cbn [role with_pending pending pending_t2]. rewrite Hr, Hp.
    cbn [pending_t1 pending_t2 delay_req_unanswered bool_decide decide andb negb Z.ltb Z.compare].
    unfold send_delay_req, adjusted_now. cbn [remote_master with_pending config calibrated_epoch_offset timing_socket].
    rewrite Hrm, Hc. cbn [mbind outcome_bind]. rewrite Hf. reflexivity.
  - reflexivity.
  - by split_and!.
Qed.

(** The master answers the slave it knows, on that slave's general address. *)
Lemma delay_req_step {E} m t ts sE sG rd h sq pt : node_wf m -> calibrated_epoch_offset m = None ->
  known_slaves m = [sE] -> known_general_slaves m = [sG] ->
  PtpMessage_decode t = Ok (mkMsg h (BDelayReq ts)) -> sequence_id h = sq -> source_port_identity h = pt ->
  step (E := E) m (EventPacket t sE) rd =
    Ok (add_slave m sE, [mkDatagram GeneralSocket (PtpMessage_encode (delay_resp (source_port m) sq (wall rd 1) pt)) sG]).
Proof.
  intros (Hf & Hg & _) Hc Hk Hgs Hd <- <-. cbn [step]. unfold handle_event_packet, adjusted_now. rewrite Hc.
  cbn [mbind outcome_bind]. rewrite Hf, Hd. cbn [body]. unfold handle_ieee_delay_req.
  cbn [general_socket add_slave with_slaves header]. rewrite Hg. unfold resolve_general_addr_for_event.
  cbn [known_slaves known_general_slaves add_slave with_slaves]. rewrite Hk, Hgs. unfold add_unique.
  rewrite bool_decide_true by (by left). rewrite bool_decide_true by done. reflexivity.
Qed.

Lemma delay_resp_step {E} s t t1 t2 t3 t4 p at' src rd h :
  use_airplay_format (config s) = false -> general_socket s = true -> calibrated_epoch_offset s = None ->
  pending s = mkPending (Some t1) (Some t2) (Some t3) at' 0 ->
  PtpMessage_decode t = Ok (mkMsg h (BDelayResp t4 p)) -> correction_field h = 0 -> exists s',
  step (E := E) s (GeneralPacket t src) rd = Ok (s', []) /\
  pending s' = mkPending None None None None 0 /\
  let c := fst (PtpClock.process_timing (clock s) t1 t2 t3 t4) in
  calibrated_epoch_offset s' = Some (PtpClock.offset_ns c) /\
  clock s' = PtpClock.calibrate_epoch c (PtpClock.offset_ns c) (mono rd 1) (wall rd 1).
Proof.
  intros Hf Hg Hc Hp Hd Hcorr. cbn [step]. rewrite Hg. unfold handle_general_packet. rewrite Hf, Hd. cbn [body header].
  unfold t4_actual. rewrite Hcorr. cbn [Z.shiftr Z.shiftl Z.ltb Z.compare Z.opp mbind outcome_bind].
  unfold process_delay_resp, complete_exchange. rewrite Hp. cbn [pending_t1 pending_t2 pending_t3]. rewrite Hc.
  eexists. split; [reflexivity|]. by split_and!.
Qed.

(** The first accepted measurement is the offset. *)
Lemma first_measurement id r now a b d e :
  let m := PtpClock.calculate a b d e in PtpClock.rtt m <= 100000000 ->
  let c := fst (PtpClock.process_timing (PtpClock.new id r now) a b d e) in
  PtpClock.offset_ns c = PtpClock.m_offset_ns m /\ PtpClock.synchronized c = true.
Proof.
  intros m Hm. unfold PtpClock.process_timing. cbn [PtpClock.max_rtt PtpClock.new]. fold m.
  rewrite (proj2 (Z.ltb_ge _ _)) by (unfold PtpClock.DEFAULT_MAX_RTT; lia). done.
Qed.

(** One with a longer round trip is rejected. *)
Lemma first_rejected id r now a b d e : 100000000 < PtpClock.rtt (PtpClock.calculate a b d e) ->
  fst (PtpClock.process_timing (PtpClock.new id r now) a b d e) = PtpClock.new id r now.
Proof.
  intros Hm. unfold PtpClock.process_timing. cbn [PtpClock.max_rtt PtpClock.new].
  by rewrite (proj2 (Z.ltb_lt _ _)) by (unfold PtpClock.DEFAULT_MAX_RTT; lia).
Qed.

(** *** The epoch is set once *)
Lemma send_delay_req_epoch {E} n rd i r : send_delay_req (E := E) n rd i = Ok r ->
  calibrated_epoch_offset (fst r) = calibrated_epoch_offset n.
Proof.
  unfold send_delay_req. cbv zeta. case_m; [|by intros [= <-]]. by intros (t & _ & [= <-])%bind_ok.
Qed.

Lemma one_way_epoch n : calibrated_epoch_offset (one_way n) = calibrated_epoch_offset n.
Proof. unfold one_way. by repeat case_m. Qed.

Lemma try_one_way_epoch n : calibrated_epoch_offset (try_one_way_sync n) = calibrated_epoch_offset n.
Proof. unfold try_one_way_sync. case_m; [apply one_way_epoch|done]. Qed.

Lemma process_delay_resp_epoch n t rd e : calibrated_epoch_offset n = Some e ->
  calibrated_epoch_offset (process_delay_resp n t rd) = Some e.
Proof. intros He. unfold process_delay_resp. rewrite He. by case_m. Qed.

Lemma handle_event_epoch {E} n data src rd r e : calibrated_epoch_offset n = Some e ->
  handle_event_packet (E := E) n data src rd = Ok r -> calibrated_epoch_offset (fst r) = Some e.
Proof.
  intros He. unfold handle_event_packet. intros (t & _ & H)%bind_ok. revert H. case_m.
  - case_m; [|by intros [= <-]|done]. intros [= <-]. unfold handle_airplay_packet. cbv zeta. repeat case_m; done.
  - case_m; [|by intros [= <-]|done]. destruct (body a); intros H; simplify_eq; try done.
    + apply bind_ok in H as (n' & H & [= <-]). unfold on_sync in H. cbv zeta in H. revert H. case_m.
      * by intros (u & _ & [= <-])%bind_ok.
      * by intros [= <-].
    + cbn [fst]. by rewrite try_one_way_epoch.
    + by apply process_delay_resp_epoch.
Qed.

Lemma handle_general_epoch {E} n data src rd r e : calibrated_epoch_offset n = Some e ->
  handle_general_packet (E := E) n data src rd = Ok r -> calibrated_epoch_offset (fst r) = Some e.
Proof.
  intros He. unfold handle_general_packet. case_m; [by intros [= <-]|].
  case_m; [|by intros [= <-]|done]. destruct (body a); intros H; simplify_eq; try done.
  - unfold on_follow_up in H. cbv zeta in H. revert H. case_m; [|by intros [= <-]]. case_m.
    + intros ->%send_delay_req_epoch. done.
    + intros [= <-]. cbn [fst]. by rewrite try_one_way_epoch.
  - apply bind_ok in H as (t4 & _ & [= <-]). by apply process_delay_resp_epoch.
  - unfold process_announce. cbv zeta. by repeat case_m.
  - apply bind_ok in H as (b & _ & [= <-]). case_m; [|done]. unfold send_apple_signaling_response. cbv zeta. by case_m.
Qed.

Lemma step_epoch {E} n ev rd r e : calibrated_epoch_offset n = Some e ->
  step (E := E) n ev rd = Ok r -> calibrated_epoch_offset (fst r) = Some e.
Proof.
  intros He. destruct ev; cbn [step].
  - by apply handle_event_epoch.
  - case_m; [by apply handle_general_epoch|by intros [= <-]].
  - case_m; [by apply handle_event_epoch|by intros [= <-]].
  - intros [= <-]. by case_m.
  - unfold on_delay_req_tick. intros (n' & Hc & H)%bind_ok.
    assert (calibrated_epoch_offset n' = Some e) as He'.
    { revert Hc. unfold check_delay_req_timeout. cbv zeta. case_m; [|by intros [= <-]]. case_m; [|by intros [= <-]].
      intros (u & _ & [= <-])%bind_ok. case_m; [by rewrite one_way_epoch|done]. }
    revert H. cbv zeta. case_m; [|by intros [= <-]]. intros ->%send_delay_req_epoch. done.
  - intros [= <-]. unfold check_announce_timeout. by repeat case_m.
Qed.

Lemma run_epoch {E} n evs r e : calibrated_epoch_offset n = Some e ->
  run (E := E) n evs = Ok r -> calibrated_epoch_offset (fst r) = Some e.
Proof.
  revert n r. induction evs as [|[ev rd] evs IH]; intros n r He; cbn [run]; [by intros [= <-]|].
  intros ([n1 ds1] & H1%(step_epoch _ _ _ _ e) & ([n2 ds2] & H2 & [= <-])%bind_ok)%bind_ok; [|done].
  by apply IH in H2.
Qed.

Lemma median_two a b : PtpClock.median [a; b] = Z.max a b.
Proof. unfold PtpClock.median. cbn. repeat (case_decide; cbn); lia. Qed.

(** ** Properties *)

(** C35: the node never panics. From a fresh node, for every sequence of packets
    with any contents and timer ticks and any readings of the clocks before the
    year [2 ^ 62 / 31556952], no iteration of the event loop panics (no overflow,
    no negative or oversized timestamp, no read past a packet, and the TLV scan
    ends); and the number of unanswered requests never exceeds two, with no
    request outstanding once it is two. *)
Theorem node_never_panics (n : PtpNode) (evs : list (Event * Readings)) (Hn : fresh n) (He : trace_ok evs) :
  wp (run (E := False) n evs) (fun r => count_inv (pending (fst r))).
Proof. eapply wp_mono; [apply run_inv; [by apply fresh_inv|done]|]. by intros r []. Qed.

(** The fallback to one-way estimates is permanent. Once a node that started
    fresh has counted two unanswered requests, no later packet, tick, announce
    timeout or change of master makes it send a [Delay_Req] again, reset the count
    or calibrate its epoch; and in the compact format, which has no [Follow_Up] to
    drive one-way estimates, its clock never changes again. *)
Theorem fallback_permanent (n n1 n2 : PtpNode) (evs1 evs2 : list (Event * Readings)) (ds1 ds2 : list Datagram)
  (Hn : fresh n) (He : trace_ok evs1) (H1 : run (E := False) n evs1 = Ok (n1, ds1))
  (Hu : 2 <= delay_req_unanswered (pending n1)) (H2 : run (E := False) n1 evs2 = Ok (n2, ds2)) :
  delay_req_unanswered (pending n2) = 2 /\ Forall (fun d => is_request d = false) ds2 /\
  calibrated_epoch_offset n2 = calibrated_epoch_offset n1 /\
  (use_airplay_format (config n1) = true -> clock n2 = clock n1).
Proof.
  pose proof (run_inv (E := False) n evs1 (fresh_inv n Hn) He) as Hi. rewrite H1 in Hi. cbn in Hi.
  destruct Hi as ([Hc Hc2] & _). assert (delay_req_unanswered (pending n1) = 2) as Hu2 by lia.
  apply run_stuck in H2; [|by split; [|apply Hc2]]. destruct H2 as ((Hs & _) & ? & _ & ? & ?). by split_and!.
Qed.

(** Two nodes that hear each other's Announce agree on the master. For any
    priorities and distinct clock identities, after each node receives an Announce
    datagram the other one sent, exactly one of them is a slave, and it follows
    the other. *)
Theorem announce_agreement (a b : PtpNode) (rda rdb rda' rdb' : Readings) (da db : Datagram) (srca srcb : SocketAddr)
  (Ha : node_wf a) (Hb : node_wf b) (Hra : role a = Master) (Hrb : role b = Master)
  (Hid : clock_id (config a) <> clock_id (config b)) (Hta : wire_times rda) (Htb : wire_times rdb)
  (Hda : da ∈ snd (send_announce a rda)) (Hdb : db ∈ snd (send_announce b rdb)) :
  exists a' b',
    step (E := False) a (GeneralPacket (payload db) srcb) rda' = Ok (a', []) /\
    step (E := False) b (GeneralPacket (payload da) srca) rdb' = Ok (b', []) /\
    ((role a' = Slave /\ role b' = Master /\ rm_grandmaster_identity <$> remote_master a' = Some (clock_id (config b))) \/
     (role a' = Master /\ role b' = Slave /\ rm_grandmaster_identity <$> remote_master b' = Some (clock_id (config a)))).
Proof.
  destruct (announce_arrives a rda Ha Hta) as [ha Ea]. destruct (announce_arrives b rdb Hb Htb) as [hb Eb].
  unfold send_announce in Hda, Hdb. cbn [snd] in Hda, Hdb.
  destruct Ha as (Hfa & Hga & _), Hb as (Hfb & Hgb & _). rewrite Hga in Hda. rewrite Hgb in Hdb.
  apply list_elem_of_In, in_map_iff in Hda as (aa & <- & _). apply list_elem_of_In, in_map_iff in Hdb as (ab & <- & _).
  cbn [payload step]. unfold handle_general_packet. rewrite Hga, Hgb, Hfa, Hfb, Ea, Eb. cbn [body].
  eexists _, _. split; [reflexivity|]. split; [reflexivity|].
  unfold process_announce. cbv zeta. rewrite (proj2 (Z.eqb_neq _ _)), (proj2 (Z.eqb_neq _ _)) by congruence.
  assert (compare_priority b (priority1 (config a)) (priority2 (config a)) (clock_id (config a)) =
          negb (compare_priority a (priority1 (config b)) (priority2 (config b)) (clock_id (config b)))) as ->.
  { unfold compare_priority. repeat case_match; rewrite ?negb_true_iff, ?negb_false_iff in *; bool_to_prop; try lia;
      destruct (Z.ltb_spec (priority1 (config a)) (priority1 (config b))), (Z.ltb_spec (priority1 (config b)) (priority1 (config a)));
      destruct (Z.ltb_spec (priority2 (config a)) (priority2 (config b))), (Z.ltb_spec (priority2 (config b)) (priority2 (config a)));
      destruct (Z.ltb_spec (clock_id (config a)) (clock_id (config b))), (Z.ltb_spec (clock_id (config b)) (clock_id (config a)));
      cbn; lia. }
  destruct (compare_priority a _ _ _); cbn [negb]; [left|right]; repeat case_m; done.
Qed.

(** C36: the first exchange over the wire on a fresh clock. A master sends Sync
    and Follow_Up, the slave answers the Follow_Up at once with a [Delay_Req] to the
    master it follows, the master answers that with a [Delay_Resp], each message is
    what the other side's encoder wrote, and after it the exchange is closed and the
    slave's epoch set. If the slave's clock is [theta] ahead and the delays are not
    negative, and the round trip is at most 100 ms, the epoch is off by at most half
    the round trip and the clock synchronized. With a longer round trip the clock
    rejects the measurement and is not synchronized, and the epoch is 0. *)
Theorem exchange_calibrates (m s : PtpNode) (rm : RemoteMaster) (mE mG sE sG : SocketAddr)
  (r1 r2 r3 r4 r5 : Readings) (id now theta : Z) (crole : PtpClock.PtpRole)
  (Hm : node_wf m) (Hs : node_wf s)
  (Hslaves : known_slaves m = [sE] /\ known_general_slaves m = [sG] /\ calibrated_epoch_offset m = None)
  (Hpm : role s = Slave /\ remote_master s = Some rm /\ pending s = mkPending None None None None 0 /\
         calibrated_epoch_offset s = None /\ clock s = PtpClock.new id crole now)
  (Hw : wire_times r1 /\ wire_times r3 /\ wire_times r4)
  (Hfwd : to_nanos (wall r1 1) + theta <= to_nanos (wall r2 0))
  (Hback : to_nanos (wall r3 0) - theta <= to_nanos (wall r4 1)) :
  let rtt := (to_nanos (wall r2 0) - to_nanos (wall r1 1)) + (to_nanos (wall r4 1) - to_nanos (wall r3 0)) in
  exists dsync dfollow dreq dresp m' s1 s2 s3 off,
    snd (send_sync m r1) = [dsync; dfollow] /\ dest dsync = sE /\ dest dfollow = sG /\
    step (E := False) s (EventPacket (payload dsync) mE) r2 = Ok (s1, []) /\
    step (E := False) s1 (GeneralPacket (payload dfollow) mG) r3 = Ok (s2, [dreq]) /\ dest dreq = event_addr rm /\
    step (E := False) (fst (send_sync m r1)) (EventPacket (payload dreq) sE) r4 = Ok (m', [dresp]) /\ dest dresp = sG /\
    step (E := False) s2 (GeneralPacket (payload dresp) mG) r5 = Ok (s3, []) /\
    calibrated_epoch_offset s3 = Some off /\ pending s3 = mkPending None None None None 0 /\
    (rtt <= 100000000 -> 2 * Z.abs (off - theta) <= rtt + 1 /\ PtpClock.synchronized (clock s3) = true) /\
    (100000000 < rtt -> off = 0 /\ PtpClock.synchronized (clock s3) = false).
Proof.
  intros rtt. destruct Hslaves as (Hk & Hg & Hmc), Hpm as (Hr & Hrm & Hp & Hc & Hclk), Hw as (W1 & W3 & W4).
  destruct (sync_arrives m (wall r1 0) Hm (W1 _)) as [h1 E1].
  destruct (follow_up_arrives m (wall r1 1) Hm (W1 _)) as [h2 E2].
  destruct (delay_req_arrives s (wall r3 0) Hs (W3 _)) as (h3 & E3 & Hseq & Hport).
  pose proof Hm as (Hmf & Hmg & _). pose proof Hs as (Hsf & Hsg & _ & _ & _ & _ & _ & Hsq & _).
  destruct (delay_resp_arrives m (delay_req_sequence s) (wall r4 1) (source_port s) Hm Hsq (W4 _) (source_port_ok s Hs))
    as (h4 & E4 & Hcorr).
  pose proof (sync_step (E := False) s _ _ mE r2 h1 Hsf Hc Hp E1) as S1.
  set (s1 := with_pending s _) in S1.
  destruct (follow_up_step (E := False) s1 _ _ _ _ mG r3 h2 rm Hs Hc Hr Hrm eq_refl E2) as (s2 & S2 & P2 & C2 & G2 & G2' & Ec2).
  destruct (delay_resp_step (E := False) s2 _ _ _ _ _ _ _ mG r5 h4 ltac:(by rewrite G2) G2' Ec2 P2 E4 Hcorr)
    as (s3 & S3 & P3 & Ec3 & C3).
  assert (PtpClock.rtt (PtpClock.calculate (wall r1 1) (wall r2 0) (wall r3 0) (wall r4 1)) = Z.min rtt (2 ^ 64 - 1)) as Hrtt
    by (unfold PtpClock.calculate, diff_nanos; cbn [PtpClock.rtt]; fold rtt; unfold rtt; lia).
  rewrite C2 in Ec3, C3. change (clock s1) with (clock s) in Ec3, C3. rewrite Hclk in Ec3, C3.
  assert (node_wf (fst (send_sync m r1))) as Hm'.
  { unfold node_wf in *. destruct_and!. split_and!; try done. by apply wrapping_add_range. }
  eexists _, _, _, _, _, _, s2, s3, _. split_and!.
  - unfold send_sync. cbn [snd]. rewrite Hk. cbn [imap concat]. unfold sync_datagrams. cbv zeta. rewrite Hmf, Hmg, Hg.
    reflexivity.
  - reflexivity.
  - reflexivity.
  - exact S1.
  - exact S2.
  - reflexivity.
  - exact (delay_req_step (fst (send_sync m r1)) _ _ sE sG r4 h3 _ _ Hm' Hmc Hk Hg E3 Hseq Hport).
  - reflexivity.
  - exact S3.
  - exact Ec3.
  - exact P3.
  - intros H. destruct (first_measurement id crole now (wall r1 1) (wall r2 0) (wall r3 0) (wall r4 1)) as [Ho Hsy]; [rewrite Hrtt; lia|]. rewrite Ho, C3. split.
    + pose proof (PtpClock.causal_offset theta (wall r1 1, wall r2 0, wall r3 0, wall r4 1)) as Hoff.
      cbn [PtpClock.measure] in Hoff. unfold rtt, PtpClock.causal, PtpClock.calculate, diff_nanos in *.
      cbn [PtpClock.rtt PtpClock.t1 PtpClock.t2 PtpClock.t3 PtpClock.t4 PtpClock.m_offset_ns] in *. lia.
    + unfold PtpClock.calibrate_epoch. by case_m.
  - intros H. rewrite C3, first_rejected by (rewrite Hrtt; lia). done.
Qed.

(** What the epoch calibration does with bad luck. If the round trip of the
    first exchange is over 100 ms the clock rejects it, yet the node takes the
    offset 0 the clock still has as its epoch and keeps it in every later run; and
    with a good first exchange the second one does not replace the raw epoch
    difference: the offset is the larger of the two. *)
Theorem calibration_defects (s s' : PtpNode) (rd : Readings) (id now : Z) (crole : PtpClock.PtpRole)
  (a b c d a' b' c' d' : PtpTimestamp) (t5 : option Z) (u : Z) (evs : list (Event * Readings)) (ds : list Datagram)
  (Hp : pending s = mkPending (Some a) (Some b) (Some c) t5 u) (Hc : calibrated_epoch_offset s = None)
  (Hclk : clock s = PtpClock.new id crole now)
  (Hrun : run (E := False) (process_delay_resp s d rd) evs = Ok (s', ds)) :
  (100000000 < PtpClock.rtt (PtpClock.calculate a b c d) -> calibrated_epoch_offset s' = Some 0) /\
  (PtpClock.rtt (PtpClock.calculate a b c d) <= 100000000 -> PtpClock.rtt (PtpClock.calculate a' b' c' d') <= 100000000 ->
   PtpClock.offset_ns (PtpClock.run (clock s) [(a, b, c, d); (a', b', c', d')]) =
     Z.max (PtpClock.m_offset_ns (PtpClock.calculate a b c d)) (PtpClock.m_offset_ns (PtpClock.calculate a' b' c' d'))).
Proof.
  split.
  - intros Hr. eapply (run_epoch _ _ _ 0) in Hrun; [done|]. unfold process_delay_resp, complete_exchange.
    rewrite Hp, Hc, Hclk. cbn [pending_t1 pending_t2 pending_t3]. unfold PtpClock.process_timing.
    rewrite (proj2 (Z.ltb_lt _ _)) by done. done.
  - intros H1 H2. rewrite Hclk.
    destruct (PtpClock.run_meets_spec (PtpClock.new id crole now) [(a, b, c, d); (a', b', c', d')]) as (I1 & I2 & _);
      try done; [cbn; unfold PtpClock.DEFAULT_MAX_MEASUREMENTS; lia|].
    cbn [map PtpClock.measure] in I1. rewrite !filter_cons_True, filter_nil in I1 by done.
    change (PtpClock.trim _ _) with [PtpClock.calculate a b c d; PtpClock.calculate a' b' c' d'] in I1.
    rewrite I2, I1. rewrite decide_False by done. cbn [map]. apply median_two.
Qed.

(** ** Witnesses *)
Definition at_time (ts : PtpTimestamp) (ns : Z) : Readings := mkReadings (fun _ => ts) (fun _ => ns) true.

Definition compact_config : PtpNodeConfig :=
  mkConfig 0xAA 128 128 1000000000 1000000000 2000000000 256 true 0 6000000000.
Definition compact_node : PtpNode := add_slave (new false (PtpClock.new 0xAA PtpClock.Slave 0) compact_config) (mkAddr 1 319).

Definition compact (t : PtpMessageType) (seq ns : Z) : Event * Readings :=
  (EventPacket (pkt_encode (mkPkt t seq (mkTs 1000 0) 0xBB)) (mkAddr 1 319), at_time (mkTs 1000 0) ns).

(** Two requests, both answered; each time the next Sync comes two seconds later. *)
Definition answered_requests : list (Event * Readings) :=
  [compact Sync 0 0; (DelayReqTick, at_time (mkTs 1000 0) 10); compact DelayResp 0 20;
   (DelayReqTick, at_time (mkTs 1000 0) 2000000000);
   compact Sync 1 2000000010; (DelayReqTick, at_time (mkTs 1000 0) 3000000000); compact DelayResp 1 3000000020;
   (DelayReqTick, at_time (mkTs 1000 0) 5000000000)].

Lemma answered_trace_ok : trace_ok answered_requests.
Proof.
  repeat (apply Forall_cons_2; [split; [try exact I; vm_compute; repeat constructor; congruence|intros i; vm_compute; repeat split; congruence]|]).
  apply Forall_nil_2.
Qed.

Lemma compact_fresh : fresh compact_node.
Proof. split_and!; try reflexivity. vm_compute. lia. Qed.

Lemma node_never_panics_witness :
  wp (run (E := False) compact_node answered_requests) (fun r => count_inv (pending (fst r))) /\
  safe (run (E := False) compact_node answered_requests).
Proof.
  pose proof (node_never_panics compact_node answered_requests compact_fresh answered_trace_ok) as H.
  split; [exact H|exact (wp_safe _ _ H)].
Defined.

(** Both requests of this run were answered, yet it ends in the fallback for good. *)
Lemma fallback_permanent_witness :
  exists n ds, run (E := False) compact_node answered_requests = Ok (n, ds) /\
    length (filter (fun d => is_request d = true) ds) = 2%nat /\
    length (PtpClock.measurements (clock n)) = 2%nat /\
    forall n2 ds2 evs, run (E := False) n evs = Ok (n2, ds2) -> clock n2 = clock n.
Proof.
  destruct (run (E := False) compact_node answered_requests) as [[n ds]| |] eqn:E; [|vm_compute in E; discriminate..].
  exists n, ds. pose proof E as E'. vm_compute in E'. injection E' as <- <-.
  split; [reflexivity|]. split; [reflexivity|]. split; [reflexivity|]. intros n2 ds2 evs H2.
  eapply (fallback_permanent compact_node _ n2 answered_requests evs _ ds2 compact_fresh answered_trace_ok E); [|exact H2|reflexivity].
  cbn. lia.
Defined.

Definition ieee_config (id p1 : Z) : PtpNodeConfig :=
  mkConfig id p1 128 1000000000 1000000000 2000000000 256 false 1 6000000000.
Definition ieee_node (id p1 : Z) : PtpNode :=
  add_general_slave (add_slave (new true (PtpClock.new id PtpClock.Slave 0) (ieee_config id p1)) (mkAddr 1 319)) (mkAddr 1 320).

Lemma ieee_node_wf id p1 : uint 64 id -> uint 8 p1 -> node_wf (ieee_node id p1).
Proof. intros. unfold node_wf. split_and!; try done. Qed.

Lemma announce_agreement_witness :
  exists a' b', (role a' = Slave /\ role b' = Master \/ role a' = Master /\ role b' = Slave) /\
    step (E := False) (ieee_node 7 128) (GeneralPacket (PtpMessage_encode (announce (mkPort 9 1) 0 9 64 128 (mkTs 5 0))) (mkAddr 1 320))
      (at_time ZERO 0) = Ok (a', []).
Proof.
  assert (wire_times (at_time (mkTs 5 0) 0)) as Ht by (intros i; vm_compute; repeat split; congruence).
  assert (node_wf (ieee_node 7 128)) as Ha by (apply ieee_node_wf; vm_compute; split; congruence).
  assert (node_wf (ieee_node 9 64)) as Hb by (apply ieee_node_wf; vm_compute; split; congruence).
  destruct (announce_agreement (ieee_node 7 128) (ieee_node 9 64) (at_time (mkTs 5 0) 0) (at_time (mkTs 5 0) 0)
    (at_time ZERO 0) (at_time ZERO 0)
    (mkDatagram GeneralSocket (PtpMessage_encode (announce (mkPort 7 1) 0 7 128 128 (mkTs 5 0))) (mkAddr 1 320))
    (mkDatagram GeneralSocket (PtpMessage_encode (announce (mkPort 9 1) 0 9 64 128 (mkTs 5 0))) (mkAddr 1 320))
    (mkAddr 1 320) (mkAddr 1 320) Ha Hb eq_refl eq_refl ltac:(discriminate) Ht Ht
    ltac:(apply list_elem_of_singleton; reflexivity) ltac:(apply list_elem_of_singleton; reflexivity))
    as (a' & b' & E1 & _ & H). exists a', b'. split; [|exact E1]. destruct H as [(?&?&_)|(?&?&_)]; auto.
Defined.

(** A slave of the node 9, 5 seconds ahead of it. *)
Definition slave_node : PtpNode :=
  with_role (ieee_node 7 128) Slave (Some (mkRemote 9 64 128 (mkAddr 2 319) (mkAddr 2 320) 0)).

Lemma exchange_calibrates_witness :
  exists s1 s2 s3 dreq off,
    step (E := False) slave_node
      (EventPacket (PtpMessage_encode (with_flags (sync (mkPort 9 1) 0 (mkTs 100 0)) 0x0200)) (mkAddr 2 319))
      (at_time (mkTs 105 1000) 0) = Ok (s1, []) /\
    step (E := False) s1 (GeneralPacket (PtpMessage_encode (follow_up (mkPort 9 1) 0 (mkTs 100 0))) (mkAddr 2 320))
      (at_time (mkTs 105 2000) 0) = Ok (s2, [dreq]) /\
    calibrated_epoch_offset s3 = Some off /\ 2 * Z.abs (off - 5000000000) <= 2001 /\ PtpClock.synchronized (clock s3) = true.
Proof.
  assert (forall t, ts_ok t -> wire_times (at_time t 0)) as Ht by (intros t H i; exact H).
  assert (node_wf slave_node) as Hs by (apply (ieee_node_wf 7 128); vm_compute; split; congruence).
  assert (node_wf (ieee_node 9 64)) as Hm by (apply ieee_node_wf; vm_compute; split; congruence).
  destruct (exchange_calibrates (ieee_node 9 64) slave_node (mkRemote 9 64 128 (mkAddr 2 319) (mkAddr 2 320) 0)
    (mkAddr 2 319) (mkAddr 2 320) (mkAddr 1 319) (mkAddr 1 320)
    (at_time (mkTs 100 0) 0) (at_time (mkTs 105 1000) 0) (at_time (mkTs 105 2000) 0) (at_time (mkTs 100 3000) 0)
    (at_time (mkTs 105 4000) 0) 7 0 5000000000 PtpClock.Slave Hm Hs)
    as (d1 & d2 & dreq & d4 & m' & s1 & s2 & s3 & off & Es & _ & _ & S1 & S2 & _ & _ & _ & _ & Hoff & _ & Hgood & _).
  - split_and!; reflexivity.
  - split_and!; reflexivity.
  - split_and!; apply Ht; vm_compute; repeat split; congruence.
  - vm_compute; congruence.
  - vm_compute; congruence.
  - destruct Hgood as [Herr Hsy]; [vm_compute; congruence|]. exists s1, s2, s3, dreq, off. cbn in Es. injection Es as <- <-.
    split; [exact S1|]. split; [exact S2|]. split; [exact Hoff|]. split; [exact Herr|exact Hsy].
Defined.

Lemma calibration_defects_witness :
  let s := with_pending slave_node (mkPending (Some (mkTs 100 0)) (Some (mkTs 105 0)) (Some (mkTs 105 1000)) None 0) in
  calibrated_epoch_offset (process_delay_resp s (mkTs 101 0) (at_time ZERO 0)) = Some 0.
Proof.
  intros s. apply (proj1 (calibration_defects s (process_delay_resp s (mkTs 101 0) (at_time ZERO 0)) (at_time ZERO 0) 7 0
    PtpClock.Slave _ _ _ (mkTs 101 0) ZERO ZERO ZERO ZERO None 0 [] [] eq_refl eq_refl eq_refl eq_refl)).
  vm_compute. reflexivity.
Defined.

End PtpNode.
