(* ===== verification/PtpHandler.v ===== *)
(** * PTP slave and master handlers

    Models [src/protocol/ptp/handler.rs]: the two single-role handlers that the
    receiver and the sender run.  Sockets, addresses, clock readings and the
    datagrams sent are those of [PtpNode]; the shared clock is a field of the state. *)

From S2P Require Import Bytes Ptp PtpClock PtpNode.

Module PtpHandler.
Import Ptp PtpNode.

(** Durations in nanoseconds. *)
Record PtpHandlerConfig := mkHandlerConfig {
  h_clock_id : Z;
  h_role : PtpClock.PtpRole;
  h_sync_interval : Z;
  h_delay_req_interval : Z;
  h_recv_buf_size : Z;
  h_use_airplay_format : bool
}.

Definition default_handler_config : PtpHandlerConfig :=
  mkHandlerConfig 0 PtpClock.Slave 1000000000 1000000000 256 false.

Definition create_shared_clock (id : Z) (r : PtpClock.PtpRole) (now : Z) : PtpClock.PtpClock := PtpClock.new id r now.

(** ** Slave *)
Record PtpSlaveHandler := mkSlave {
  s_clock : PtpClock.PtpClock;
  s_config : PtpHandlerConfig;
  master_addr : SocketAddr;
  master_clock_port_addr : option SocketAddr;
  s_delay_req_sequence : Z;
  s_t1 : option PtpTimestamp;
  s_t2 : option PtpTimestamp;
  s_t3 : option PtpTimestamp;
  pending_delay_resp : option PtpTimestamp;
  s_sent_at : option Z;
  sync_count : Z;
  delay_req_no_resp_count : Z
}.

Definition slave_new (c : PtpClock.PtpClock) (cfg : PtpHandlerConfig) (master : SocketAddr) : PtpSlaveHandler :=
  mkSlave c cfg master None 0 None None None None None 0 0.

Definition set_clock_port_addr (s : PtpSlaveHandler) (a : SocketAddr) : PtpSlaveHandler :=
  mkSlave (s_clock s) (s_config s) (master_addr s) (Some a) (s_delay_req_sequence s) (s_t1 s) (s_t2 s) (s_t3 s)
    (pending_delay_resp s) (s_sent_at s) (sync_count s) (delay_req_no_resp_count s).

Definition with_times (s : PtpSlaveHandler) (a b c r : option PtpTimestamp) (at' : option Z) : PtpSlaveHandler :=
  mkSlave (s_clock s) (s_config s) (master_addr s) (master_clock_port_addr s) (s_delay_req_sequence s) a b c r at'
    (sync_count s) (delay_req_no_resp_count s).
Definition with_s_clock (s : PtpSlaveHandler) (c : PtpClock.PtpClock) : PtpSlaveHandler :=
  mkSlave c (s_config s) (master_addr s) (master_clock_port_addr s) (s_delay_req_sequence s) (s_t1 s) (s_t2 s) (s_t3 s)
    (pending_delay_resp s) (s_sent_at s) (sync_count s) (delay_req_no_resp_count s).
Definition with_counts (s : PtpSlaveHandler) (seq syncs no_resp : Z) : PtpSlaveHandler :=
  mkSlave (s_clock s) (s_config s) (master_addr s) (master_clock_port_addr s) seq (s_t1 s) (s_t2 s) (s_t3 s)
    (pending_delay_resp s) (s_sent_at s) syncs no_resp.

(** A [Delay_Resp] with time [t4] on the event port. *)
Definition slave_complete (s : PtpSlaveHandler) (t4 : PtpTimestamp) : PtpSlaveHandler :=
  match s_t1 s, s_t2 s, s_t3 s with
  | Some t1, Some t2, Some t3 =>
      with_times (with_s_clock s (fst (PtpClock.process_timing (s_clock s) t1 t2 t3 t4)))
        None None None (pending_delay_resp s) (s_sent_at s)
  | _, _, _ => s
  end.

(** [sync_count += 1] on a [u64]. *)
Definition slave_handle_event_packet {E} (s : PtpSlaveHandler) (data : list Z) (rd : Readings) : outcome E PtpSlaveHandler :=
  let t2 := wall rd 0 in
  if h_use_airplay_format (s_config s) then
    match pkt_decode data with
    | Ok pkt =>
        Ok (match pkt_type pkt with
            | Sync => with_times s (Some (pkt_timestamp pkt)) (Some t2) (s_t3 s) (pending_delay_resp s) (s_sent_at s)
            | DelayResp => slave_complete s (pkt_timestamp pkt)
            | _ => s
            end)
    | Err _ => Ok s
    | Panic => Panic
    end
  else
    match PtpMessage_decode data with
    | Ok m =>
        match body m with
        | BSync origin =>
            syncs ← chk_u 64 (sync_count s + 1);
            let s := with_counts s (s_delay_req_sequence s) syncs (delay_req_no_resp_count s) in
            Ok (with_times s (Some origin) (Some t2) (s_t3 s) (pending_delay_resp s) (s_sent_at s))
        | BFollowUp precise => Ok (with_times s (Some precise) (s_t2 s) (s_t3 s) (pending_delay_resp s) (s_sent_at s))
        | BDelayResp t4 _ => Ok (slave_complete s t4)
        | _ => Ok s
        end
    | Err _ => Ok s
    | Panic => Panic
    end.

Definition slave_handle_general_packet {E} (s : PtpSlaveHandler) (data : list Z) : outcome E PtpSlaveHandler :=
  if h_use_airplay_format (s_config s) then Ok s
  else
    match PtpMessage_decode data with
    | Ok m =>
        Ok (match body m with
            | BFollowUp precise => with_times s (Some precise) (s_t2 s) (s_t3 s) (pending_delay_resp s) (s_sent_at s)
            | BDelayResp t4 _ => with_times s (s_t1 s) (s_t2 s) (s_t3 s) (Some t4) (s_sent_at s)
            | _ => s
            end)
    | Err _ => Ok s
    | Panic => Panic
    end.

(** [pending_delay_resp] is taken whether or not the other three times are there. *)
Definition try_complete_timing (s : PtpSlaveHandler) : PtpSlaveHandler :=
  let s' := with_times s (s_t1 s) (s_t2 s) (s_t3 s) None (s_sent_at s) in
  match s_t1 s, s_t2 s, s_t3 s, pending_delay_resp s with
  | Some t1, Some t2, Some t3, Some t4 =>
      with_times (with_s_clock s' (fst (PtpClock.process_timing (s_clock s) t1 t2 t3 t4))) None None None None (s_sent_at s)
  | _, _, _, _ => s'
  end.

Definition slave_send_delay_req (s : PtpSlaveHandler) (rd : Readings) : PtpSlaveHandler * list Datagram :=
  let t3 := wall rd 0 in
  let s' := with_times s (s_t1 s) (s_t2 s) (Some t3) (pending_delay_resp s) (Some (mono rd 1)) in
  let data :=
    if h_use_airplay_format (s_config s)
    then pkt_encode (mkPkt DelayReq (s_delay_req_sequence s) t3 (h_clock_id (s_config s)))
    else PtpMessage_encode (with_flags (with_transport
           (delay_req (mkPort (h_clock_id (s_config s)) 1) (s_delay_req_sequence s) t3) 1) 0x0408) in
  (with_counts s' (s_delay_req_sequence s +%u16 1) (sync_count s) (delay_req_no_resp_count s),
   mkDatagram EventSocket data (master_addr s) ::
   match master_clock_port_addr s with Some a => [mkDatagram EventSocket data a] | None => [] end).

Definition slave_try_one_way_sync (s : PtpSlaveHandler) : PtpSlaveHandler :=
  match s_t1 s, s_t2 s with
  | Some t1, Some t2 => with_s_clock s (fst (PtpClock.process_timing (s_clock s) t1 t2 t2 t1))
  | _, _ => s
  end.

Definition SLAVE_DELAY_REQ_TIMEOUT : Z := 2000000000.
Definition ONE_WAY_SYNC_INTERVAL : Z := 8.

(** The timer branch of [run]; the count of timeouts is a [u32] that nothing resets. *)
Definition timed_out {E} (s : PtpSlaveHandler) (rd : Readings) : outcome E PtpSlaveHandler :=
  match s_t3 s, s_sent_at s with
  | Some _, Some sent_at =>
      if SLAVE_DELAY_REQ_TIMEOUT <? elapsed sent_at (mono rd 0) then
        c ← chk_u 32 (delay_req_no_resp_count s + 1);
        let s := with_counts s (s_delay_req_sequence s) (sync_count s) c in
        Ok (with_times s (s_t1 s) (s_t2 s) None (pending_delay_resp s) None)
      else Ok s
  | _, _ => Ok s
  end.

Definition slave_timer {E} (s : PtpSlaveHandler) (rd : Readings) : outcome E (PtpSlaveHandler * list Datagram) :=
  s ← timed_out s rd;
  let '(s, ds) :=
    if negb (bool_decide (s_t1 s = None)) && bool_decide (s_t3 s = None) then slave_send_delay_req s rd else (s, []) in
  Ok (if (0 <? sync_count s) && (sync_count s mod ONE_WAY_SYNC_INTERVAL =? 0) && (3 <=? delay_req_no_resp_count s)
      then slave_try_one_way_sync s else s, ds).

Inductive SlaveEvent := SlaveEventPacket (data : list Z) | SlaveGeneralPacket (data : list Z) | SlaveTimer.

(** An iteration of [run]; general packets need the general socket. *)
Definition slave_step {E} (s : PtpSlaveHandler) (ev : SlaveEvent) (rd : Readings) : outcome E (PtpSlaveHandler * list Datagram) :=
  match ev with
  | SlaveEventPacket data => s ← slave_handle_event_packet s data rd; Ok (s, [])
  | SlaveGeneralPacket data => s ← slave_handle_general_packet s data; Ok (try_complete_timing s, [])
  | SlaveTimer => slave_timer s rd
  end.

(** ** Master *)
Record PtpMasterHandler := mkMaster {
  m_general_socket : bool;
  m_clock : PtpClock.PtpClock;
  m_config : PtpHandlerConfig;
  m_sync_sequence : Z;
  m_known_slaves : list SocketAddr;
  m_known_general_slaves : list SocketAddr;
  pending_remote_t1 : option PtpTimestamp;
  pending_remote_t2 : option PtpTimestamp;
  pending_remote_t3 : option PtpTimestamp;
  m_delay_req_sequence : Z
}.

Definition master_new (general : bool) (c : PtpClock.PtpClock) (cfg : PtpHandlerConfig) : PtpMasterHandler :=
  mkMaster general c cfg 0 [] [] None None None 0.

Definition with_remote (m : PtpMasterHandler) (a b c : option PtpTimestamp) : PtpMasterHandler :=
  mkMaster (m_general_socket m) (m_clock m) (m_config m) (m_sync_sequence m) (m_known_slaves m) (m_known_general_slaves m)
    a b c (m_delay_req_sequence m).
Definition with_known (m : PtpMasterHandler) (sl gs : list SocketAddr) : PtpMasterHandler :=
  mkMaster (m_general_socket m) (m_clock m) (m_config m) (m_sync_sequence m) sl gs
    (pending_remote_t1 m) (pending_remote_t2 m) (pending_remote_t3 m) (m_delay_req_sequence m).
Definition with_m_clock (m : PtpMasterHandler) (c : PtpClock.PtpClock) : PtpMasterHandler :=
  mkMaster (m_general_socket m) c (m_config m) (m_sync_sequence m) (m_known_slaves m) (m_known_general_slaves m)
    (pending_remote_t1 m) (pending_remote_t2 m) (pending_remote_t3 m) (m_delay_req_sequence m).
Definition with_m_sequences (m : PtpMasterHandler) (sy de : Z) : PtpMasterHandler :=
  mkMaster (m_general_socket m) (m_clock m) (m_config m) sy (m_known_slaves m) (m_known_general_slaves m)
    (pending_remote_t1 m) (pending_remote_t2 m) (pending_remote_t3 m) de.

Definition master_add_slave (m : PtpMasterHandler) (a : SocketAddr) : PtpMasterHandler :=
  with_known m (add_unique (m_known_slaves m) a) (m_known_general_slaves m).
Definition master_add_general_slave (m : PtpMasterHandler) (a : SocketAddr) : PtpMasterHandler :=
  with_known m (m_known_slaves m) (add_unique (m_known_general_slaves m) a).

Definition m_port (m : PtpMasterHandler) : PtpPortIdentity := mkPort (h_clock_id (m_config m)) 1.

Definition master_airplay_delay_req (m : PtpMasterHandler) (req : AirPlayTimingPacket) (src : SocketAddr) (rd : Readings)
    : PtpMasterHandler * list Datagram :=
  (master_add_slave m src,
   [mkDatagram EventSocket (pkt_encode (mkPkt DelayResp (pkt_sequence_id req) (wall rd 0) (h_clock_id (m_config m)))) src]).

Definition master_ieee_delay_req (m : PtpMasterHandler) (msg : PtpMessage) (src : SocketAddr) (rd : Readings)
    : PtpMasterHandler * list Datagram :=
  let general_addr := mkAddr (ip src) PTP_GENERAL_PORT in
  let m := master_add_general_slave (master_add_slave m src) general_addr in
  let resp := PtpMessage_encode (delay_resp (m_port m) (sequence_id (header msg)) (wall rd 0)
                                   (source_port_identity (header msg))) in
  (m, [if m_general_socket m then mkDatagram GeneralSocket resp general_addr else mkDatagram EventSocket resp src]).

Definition two_step (h : PtpHeader) : bool := negb (Z.land (flags h) 0x0200 =? 0).

Definition handle_event_message {E} (m : PtpMasterHandler) (data : list Z) (src : SocketAddr) (rd : Readings)
    : outcome E (PtpMasterHandler * list Datagram) :=
  if h_use_airplay_format (m_config m) then
    match pkt_decode data with
    | Ok req => Ok (if bool_decide (pkt_type req = DelayReq) then master_airplay_delay_req m req src rd else (m, []))
    | Err _ => Ok (m, [])
    | Panic => Panic
    end
  else
    match PtpMessage_decode data with
    | Ok msg =>
        Ok (match body msg with
            | BSync origin =>
                (with_remote m (if two_step (header msg) then pending_remote_t1 m else Some origin) (Some (wall rd 0))
                   (pending_remote_t3 m), [])
            | BDelayReq _ => master_ieee_delay_req m msg src rd
            | _ => (m, [])
            end)
    | Err _ => Ok (m, [])
    | Panic => Panic
    end.

(** The three pending times are taken whether or not all are there. *)
Definition handle_general_message {E} (m : PtpMasterHandler) (data : list Z) : outcome E PtpMasterHandler :=
  match PtpMessage_decode data with
  | Ok msg =>
      Ok (match body msg with
          | BFollowUp precise => with_remote m (Some precise) (pending_remote_t2 m) (pending_remote_t3 m)
          | BDelayResp t4 _ =>
              let m' := with_remote m None None None in
              match pending_remote_t1 m, pending_remote_t2 m, pending_remote_t3 m with
              | Some t1, Some t2, Some t3 => with_m_clock m' (fst (PtpClock.process_timing (m_clock m) t1 t2 t3 t4))
              | _, _, _ => m'
              end
          | _ => m
          end)
  | Err _ => Ok m
  | Panic => Panic
  end.

Definition send_delay_req_to_remote (m : PtpMasterHandler) (rd : Readings) : PtpMasterHandler * list Datagram :=
  match m_known_slaves m with
  | slave_addr :: _ =>
      let t3 := wall rd 0 in
      (with_m_sequences (with_remote m (pending_remote_t1 m) (pending_remote_t2 m) (Some t3))
         (m_sync_sequence m) (m_delay_req_sequence m +%u16 1),
       [mkDatagram EventSocket (PtpMessage_encode (delay_req (m_port m) (m_delay_req_sequence m) t3)) slave_addr])
  | [] => (m, [])
  end.

(** The sequence number is a local of [run]. *)
Definition master_send_announce (m : PtpMasterHandler) (sequence : Z) (rd : Readings) : Z * list Datagram :=
  let encoded := PtpMessage_encode (announce (m_port m) sequence (h_clock_id (m_config m)) 128 128 (wall rd 0)) in
  (sequence +%u16 1,
   if m_general_socket m then map (mkDatagram GeneralSocket encoded) (m_known_general_slaves m) else []).

Definition master_sync_datagrams (m : PtpMasterHandler) (t1 precise : PtpTimestamp) (slave : SocketAddr) : list Datagram :=
  if h_use_airplay_format (m_config m) then
    [mkDatagram EventSocket (pkt_encode (mkPkt Sync (m_sync_sequence m) t1 (h_clock_id (m_config m)))) slave]
  else
    let follow := PtpMessage_encode (follow_up (m_port m) (m_sync_sequence m) precise) in
    mkDatagram EventSocket (PtpMessage_encode (with_flags (sync (m_port m) (m_sync_sequence m) t1) 0x0200)) slave
    :: (if m_general_socket m then
          map (mkDatagram GeneralSocket follow) (m_known_general_slaves m) ++
          (if bool_decide (m_known_general_slaves m = []) then [mkDatagram GeneralSocket follow slave] else [])
        else [mkDatagram EventSocket follow slave]).

Definition master_send_sync (m : PtpMasterHandler) (rd : Readings) : PtpMasterHandler * list Datagram :=
  (with_m_sequences m (m_sync_sequence m +%u16 1) (m_delay_req_sequence m),
   concat (imap (fun i slave => master_sync_datagrams m (wall rd 0) (wall rd (S i)) slave) (m_known_slaves m))).

Inductive MasterEvent :=
| MasterEventPacket (data : list Z) (src : SocketAddr)
| MasterGeneralPacket (data : list Z)
| MasterSyncTick | MasterAnnounceTick | MasterDelayReqTick.

(** An iteration of [run]: the handler and the announce sequence number. *)
Definition master_step {E} (st : PtpMasterHandler * Z) (ev : MasterEvent) (rd : Readings)
    : outcome E (PtpMasterHandler * Z * list Datagram) :=
  let '(m, seq) := st in
  match ev with
  | MasterEventPacket data src => '(m, ds) ← handle_event_message m data src rd; Ok (m, seq, ds)
  | MasterGeneralPacket data =>
      if m_general_socket m then m ← handle_general_message m data; Ok (m, seq, []) else Ok (m, seq, [])
  | MasterSyncTick =>
      let '(m, ds) := match m_known_slaves m with [] => (m, []) | _ => master_send_sync m rd end in Ok (m, seq, ds)
  | MasterAnnounceTick => let '(seq, ds) := master_send_announce m seq rd in Ok (m, seq, ds)
  | MasterDelayReqTick =>
      let '(m, ds) :=
        match m_known_slaves m with
        | [] => (m, [])
        | _ => if h_use_airplay_format (m_config m) then (m, []) else send_delay_req_to_remote m rd
        end in Ok (m, seq, ds)
  end.

(** ** Runs of the slave *)
Fixpoint slave_run {E} (s : PtpSlaveHandler) (evs : list (SlaveEvent * Readings)) : outcome E (PtpSlaveHandler * list Datagram) :=
  match evs with
  | [] => Ok (s, [])
  | (ev, rd) :: rest =>
      '(s, ds) ← slave_step s ev rd;
      '(s, ds') ← slave_run s rest;
      Ok (s, ds ++ ds')
  end.

(** A one-way exchange has no round trip and twice the difference. *)
Lemma one_way_timing c t1 t2 : 0 <= PtpClock.max_rtt c ->
  PtpClock.process_timing c t1 t2 t2 t1 = (PtpClock.process_one_way c t1 t2, true).
Proof.
  intros Hr. unfold PtpClock.process_timing, PtpClock.process_one_way, PtpClock.calculate, diff_nanos. cbv zeta.
  cbn [PtpClock.rtt]. rewrite !Z.sub_diag. cbn [Z.max Z.min Z.sub Z.add Z.opp Z.compare].
  rewrite (proj2 (Z.ltb_ge _ _)) by lia. do 3 f_equal.
  rewrite (Z.add_diag (to_nanos t2 - to_nanos t1)), Z.mul_comm. by apply Z.quot_mul.
Qed.

(** Every step keeps the count of timeouts or adds one at the timer. *)
Lemma slave_step_count {E} s ev rd s' ds : slave_step (E := E) s ev rd = Ok (s', ds) ->
  delay_req_no_resp_count s <= delay_req_no_resp_count s'.
Proof.
  destruct ev; cbn [slave_step].
  - intros (s1 & H & [= <- <-])%bind_ok. revert H. unfold slave_handle_event_packet, slave_complete. cbv zeta.
    case_m; [case_m; [intros [= <-]; repeat case_m; done|by intros [= <-]|done]|].
    case_m; [|by intros [= <-]|done]. destruct (body a); intros H; try (injection H as <-; repeat case_m; done).
    by apply bind_ok in H as (? & _ & [= <-]).
  - intros (s1 & H & [= <- <-])%bind_ok.
    assert (delay_req_no_resp_count (try_complete_timing s1) = delay_req_no_resp_count s1) as ->
      by (unfold try_complete_timing; cbv zeta; by repeat case_m).
    revert H. unfold slave_handle_general_packet. case_m; [by intros [= <-]|]. case_m; [|by intros [= <-]|done].
    intros [= <-]. by case_m.
  - unfold slave_timer. intros (s1 & H & H2)%bind_ok.
    assert (delay_req_no_resp_count s <= delay_req_no_resp_count s1) as Hle.
    { revert H. unfold timed_out. case_m; [|by intros [= <-]]. case_m; [|by intros [= <-]]. case_m; [|by intros [= <-]].
      intros (c & Hc & [= <-])%bind_ok. unfold chk_u in Hc. cbn. revert Hc. case_m; [|done]. intros [= <-]. lia. }
    assert (forall x, delay_req_no_resp_count (slave_try_one_way_sync x) = delay_req_no_resp_count x) as How
      by (intros x; unfold slave_try_one_way_sync; by repeat case_m).
    destruct (if _ && _ then _ else _) as [p l] eqn:Hp in H2.
    assert (delay_req_no_resp_count p = delay_req_no_resp_count s1) as Hp' by (revert Hp; case_m; by intros [= <- <-]).
    injection H2 as <- <-. case_m; rewrite ?How; lia.
Qed.

Lemma slave_run_count {E} s evs s' ds : slave_run (E := E) s evs = Ok (s', ds) ->
  delay_req_no_resp_count s <= delay_req_no_resp_count s'.
Proof.
  revert s s' ds. induction evs as [|[ev rd] evs IH]; intros s s' ds; cbn [slave_run]; [by intros [= <- <-]|].
  intros ([s1 d1] & H1%slave_step_count & ([s2 d2] & H2%IH & [= <- <-])%bind_ok)%bind_ok. lia.
Qed.

(** ** Properties *)

(** The slave handler's one-way estimates never stop. The count of timeouts is
    never reset, so once three requests have timed out it stays at three or more
    in every later run, however many are answered; and at a timer tick with the
    Sync count at a positive multiple of eight and an exchange open, the clock
    receives exactly the measurement of [process_one_way]. *)
Theorem slave_one_way_forever (s s' : PtpSlaveHandler) (evs : list (SlaveEvent * Readings)) (ds : list Datagram)
  (rd : Readings) (t1 t2 : PtpTimestamp)
  (H3 : 3 <= delay_req_no_resp_count s) (Hrun : slave_run (E := False) s evs = Ok (s', ds))
  (Ht : s_t1 s' = Some t1 /\ s_t2 s' = Some t2) (Hsync : 0 < sync_count s' /\ sync_count s' mod 8 = 0)
  (Hr : 0 <= PtpClock.max_rtt (s_clock s')) (Hmax : delay_req_no_resp_count s' < 2 ^ 32 - 1) :
  3 <= delay_req_no_resp_count s' /\
  exists s2 ds2, slave_step (E := False) s' SlaveTimer rd = Ok (s2, ds2) /\
    s_clock s2 = PtpClock.process_one_way (s_clock s') t1 t2.
Proof.
  apply slave_run_count in Hrun. split; [lia|]. destruct Ht as (H1 & H2). cbn [slave_step].
  assert (exists s1, timed_out (E := False) s' rd = Ok s1 /\ s_t1 s1 = Some t1 /\ s_t2 s1 = Some t2 /\
    sync_count s1 = sync_count s' /\ s_clock s1 = s_clock s' /\ 3 <= delay_req_no_resp_count s1) as (s1 & E1 & F1 & F2 & F3 & F4 & F5).
  { unfold timed_out. repeat case_m; try (exists s'; split_and!; done || lia).
    rewrite chk_u_ok by (unfold uint; lia). eexists. split; [reflexivity|]. cbn. split_and!; done || lia. }
  unfold slave_timer. rewrite E1. cbn [mbind outcome_bind]. rewrite F1.
  destruct (if _ && _ then _ else _) as [p l] eqn:Hp.
  assert (s_t1 p = Some t1 /\ s_t2 p = Some t2 /\ sync_count p = sync_count s' /\ s_clock p = s_clock s' /\
    3 <= delay_req_no_resp_count p) as (G1 & G2 & G3 & G4 & G5) by (revert Hp; case_m; by intros [= <- <-]).
  unfold ONE_WAY_SYNC_INTERVAL. rewrite G3, (proj2 Hsync), (proj2 (Z.ltb_lt _ _)), (proj2 (Z.leb_le _ _)) by lia.
  cbn [andb Z.eqb]. eexists _, _. split; [reflexivity|]. unfold slave_try_one_way_sync. rewrite G1, G2, G4.
  by rewrite one_way_timing.
Qed.

(** Three requests timed out before; eight Syncs were seen. *)
Lemma slave_one_way_forever_witness :
  let s := mkSlave (PtpClock.new 1 PtpClock.Slave 0) default_handler_config (mkAddr 1 319) None 3
             (Some (mkTs 10 0)) (Some (mkTs 15 0)) (Some (mkTs 15 9)) None (Some 0) 8 3 in
  exists s2 ds2, slave_step (E := False) s SlaveTimer (at_time ZERO 5) = Ok (s2, ds2) /\
    s_clock s2 = PtpClock.process_one_way (s_clock s) (mkTs 10 0) (mkTs 15 0).
Proof.
  intros s. apply (slave_one_way_forever s s [] [] (at_time ZERO 5) (mkTs 10 0) (mkTs 15 0));
    try (split; reflexivity); try reflexivity; vm_compute; congruence.
Defined.

End PtpHandler.
