(* ===== verification/EncryptedRtsp.v ===== *)
(** * The encrypted control connection

    Models [src/receiver/ap2/encrypted_rtsp.rs]: the RTSP codec behind the
    encryption layer ([EncryptedRtspCodec]) and the connection that drains it on
    every read ([EncryptedConnection]).  It composes [EncryptedChannel] and
    [RtspParser]; the main theorem is the end-to-end promise of the two. *)

From stdpp Require Import pretty.
From S2P Require Import Bytes Aead EncryptedChannel Text Rtsp RtspParser.
Import Rtsp.

Module EncryptedRtsp.
Import EncryptedChannel.EncryptedChannel.

Inductive CodecError :=
| Encryption (e : EncryptionError)
| Parse (e : RtspParser.ParseError).

Record EncryptedRtspCodec := mkCodec {
  rtsp_codec : RtspParser.RtspServerCodec;
  channel : EncryptedChannel;
  decrypted_buffer : list Z
}.

Definition Codec_new : EncryptedRtspCodec := mkCodec RtspParser.codec_new Channel_disabled [].
Definition Codec_enable (c : EncryptedRtspCodec) (ek dk : list Z) : EncryptedRtspCodec :=
  mkCodec (rtsp_codec c) (Channel_enable (channel c) ek dk) (decrypted_buffer c).
Definition Codec_disable (c : EncryptedRtspCodec) : EncryptedRtspCodec :=
  mkCodec (rtsp_codec c) (Channel_disable (channel c)) (decrypted_buffer c).
Definition Codec_is_encrypted (c : EncryptedRtspCodec) : bool := enabled (channel c).
Definition Codec_feed (c : EncryptedRtspCodec) (data : list Z) : EncryptedRtspCodec :=
  mkCodec (rtsp_codec c) (feed (channel c) data) (decrypted_buffer c).
Definition Codec_clear (c : EncryptedRtspCodec) : EncryptedRtspCodec :=
  mkCodec (RtspParser.clear (rtsp_codec c)) (Channel_clear (channel c)) [].

Inductive ConnectionState := Plaintext | Encrypted | Error.

Record EncryptedConnection := mkConn {
  codec : EncryptedRtspCodec;
  peer_addr : string;
  conn_state : ConnectionState
}.

Definition Connection_new (peer : string) : EncryptedConnection := mkConn Codec_new peer Plaintext.
Definition Connection_enable (c : EncryptedConnection) (ek dk : list Z) : EncryptedConnection :=
  mkConn (Codec_enable (codec c) ek dk) (peer_addr c) Encrypted.

Section WithAead.
Context {A : AeadCipher}.

(** The first half of [decode]: the frames that are complete move, decrypted, into
    the RTSP codec. *)
Definition pull (c : EncryptedRtspCodec) : outcome CodecError unit * EncryptedRtspCodec :=
  match decrypt_all (channel c) with
  | (Ok frames, ch) =>
      let buf := decrypted_buffer c ++ concat frames in
      if bool_decide (buf = []) then (Ok tt, mkCodec (rtsp_codec c) ch [])
      else (Ok tt, mkCodec (RtspParser.feed (rtsp_codec c) buf) ch [])
  | (Err e, ch) => (Err (Encryption e), mkCodec (rtsp_codec c) ch (decrypted_buffer c))
  | (Panic, ch) => (Panic, mkCodec (rtsp_codec c) ch (decrypted_buffer c))
  end.

Definition Codec_decode (c : EncryptedRtspCodec) : outcome CodecError (option RtspRequest) * EncryptedRtspCodec :=
  match pull c with
  | (Ok _, c1) =>
      let '(b, res) := RtspParser.decode (rtsp_codec c1) in
      (map_err Parse res, mkCodec b (channel c1) (decrypted_buffer c1))
  | (Err e, c1) => (Err e, c1)
  | (Panic, c1) => (Panic, c1)
  end.

Definition Codec_encode_response (c : EncryptedRtspCodec) (response : list Z)
  : outcome CodecError (list Z) * EncryptedRtspCodec :=
  let '(r, ch) := encrypt (channel c) response in
  (map_err Encryption r, mkCodec (rtsp_codec c) ch (decrypted_buffer c)).

(** [while let Some(request) = self.codec.decode()?]; [None] is "out of fuel". *)
Fixpoint drain_fuel (fuel : nat) (c : EncryptedRtspCodec)
  : option (outcome CodecError (list RtspRequest) * EncryptedRtspCodec) :=
  match fuel with
  | O => None
  | S fuel =>
      match Codec_decode c with
      | (Ok (Some r), c1) =>
          match drain_fuel fuel c1 with
          | Some (rs, c2) => Some (cons r <$> rs, c2)
          | None => None
          end
      | (Ok None, c1) => Some (Ok [], c1)
      | (Err e, c1) => Some (Err e, c1)
      | (Panic, c1) => Some (Panic, c1)
      end
  end.

(** Only the first round decrypts anything and every request takes a byte at least
    out of the RTSP codec, so this much fuel is enough ([drain_eq]). *)
Definition drain (c : EncryptedRtspCodec) : outcome CodecError (list RtspRequest) * EncryptedRtspCodec :=
  default (Panic, c) (drain_fuel (S (length (rtsp_codec (pull c).2))) c).

Definition on_data (c : EncryptedConnection) (data : list Z)
  : outcome CodecError (list RtspRequest) * EncryptedConnection :=
  let '(rs, k) := drain (Codec_feed (codec c) data) in (rs, mkConn k (peer_addr c) (conn_state c)).

Definition Connection_encode (c : EncryptedConnection) (response : list Z)
  : outcome CodecError (list Z) * EncryptedConnection :=
  let '(r, k) := Codec_encode_response (codec c) response in (r, mkConn k (peer_addr c) (conn_state c)).

(** A connection that handles its reads one after the other. *)
Fixpoint on_reads (c : EncryptedConnection) (reads : list (list Z))
  : outcome CodecError (list RtspRequest) * EncryptedConnection :=
  match reads with
  | [] => (Ok [], c)
  | r :: reads =>
      match on_data c r with
      | (Ok rs, c1) => let '(rest, c2) := on_reads c1 reads in (app rs <$> rest, c2)
      | (Err e, c1) => (Err e, c1)
      | (Panic, c1) => (Panic, c1)
      end
  end.

(** ** The drain loop *)

Lemma decrypt_wait ch ch' : decrypt ch = (Ok None, ch') -> ch' = ch.
Proof.
  unfold decrypt. intros H. repeat (case_match; simplify_eq/=; try done).
  destruct (map_err _ (Aead.Cipher_new _)); cbn in *; try done. destruct (map_err _ (Aead.Cipher_decrypt _ _ _)); cbn in *; done.
Qed.

(** [decrypt_all] leaves a channel with nothing more to decrypt. *)
Lemma decrypt_all_quiet ch ms ch' : decrypt_all ch = (Ok ms, ch') -> decrypt ch' = (Ok None, ch').
Proof.
  remember (length (input_buffer ch)) as n eqn:Hn. revert ch ms Hn.
  induction (lt_wf n) as [n _ IH]. intros ch ms -> H. rewrite decrypt_all_eq in H.
  destruct (decrypt ch) as [[[m|]|e|] c1] eqn:Hd; try done.
  - apply decrypt_consumes in Hd as Hlt. destruct (decrypt_all c1) as [[ms'|e|] c2] eqn:H1; try done. simplify_eq/=.
    by eapply (IH _ Hlt c1 ms').
  - simplify_eq. by pose proof (decrypt_wait _ _ Hd) as ->.
Qed.

Lemma pull_quiet c ch : channel c = ch -> decrypt ch = (Ok None, ch) -> decrypted_buffer c = [] -> pull c = (Ok tt, c).
Proof.
  intros Hc Hd Hb. unfold pull. rewrite Hc, decrypt_all_eq, Hd, Hb. cbn. destruct c; cbn in *. by subst.
Qed.

Lemma pull_done c c1 : pull c = (Ok tt, c1) -> decrypt (channel c1) = (Ok None, channel c1) /\ decrypted_buffer c1 = [].
Proof.
  unfold pull. destruct (decrypt_all (channel c)) as [[fs|e|] ch] eqn:E; try done. apply decrypt_all_quiet in E.
  by case_bool_decide; intros [= <-].
Qed.

Lemma drain_fuel_quiet n : forall c, pull c = (Ok tt, c) -> (length (rtsp_codec c) <= n)%nat ->
  exists res, forall f, (n < f)%nat -> drain_fuel f c = Some res.
Proof.
  induction n as [n IH] using lt_wf_ind. intros c Hq Hn. destruct (pull_done _ _ Hq).
  destruct (RtspParser.decode (rtsp_codec c)) as [b [[r|]|e|]] eqn:E.
  - apply RtspParser.decode_consumes in E as Hlt.
    destruct (IH (length b) ltac:(lia) (mkCodec b (channel c) (decrypted_buffer c))) as [[rs c2] Hres];
      [by eapply pull_quiet|done|].
    exists (cons r <$> rs, c2). intros [|f] Hf; [lia|]. cbn [drain_fuel]. unfold Codec_decode. rewrite Hq, E. cbn [map_err].
    by rewrite Hres by lia.
  - eexists. intros [|f] Hf; [lia|]. cbn [drain_fuel]. unfold Codec_decode. by rewrite Hq, E.
  - eexists. intros [|f] Hf; [lia|]. cbn [drain_fuel]. unfold Codec_decode. by rewrite Hq, E.
  - eexists. intros [|f] Hf; [lia|]. cbn [drain_fuel]. unfold Codec_decode. by rewrite Hq, E.
Qed.

(** The loop terminates: with any more fuel the result is the same. *)
Lemma drain_fuel_enough c f : (length (rtsp_codec (pull c).2) < f)%nat -> drain_fuel f c = Some (drain c).
Proof.
  assert (exists res, forall f, (length (rtsp_codec (pull c).2) < f)%nat -> drain_fuel f c = Some res) as [res Hres].
  { clear f. destruct (pull c) as [[[]|e|] c1] eqn:Ep; cbn [snd].
    - destruct (pull_done _ _ Ep) as [Hd Hb]. pose proof (pull_quiet c1 _ eq_refl Hd Hb) as Hq.
      destruct (drain_fuel_quiet (length (rtsp_codec c1)) c1 Hq ltac:(lia)) as [res Hres]. exists res.
      intros [|f] Hf; [lia|]. rewrite <- (Hres (S f)) by done. cbn [drain_fuel]. unfold Codec_decode. by rewrite Ep, Hq.
    - eexists. intros [|f] Hf; [lia|]. cbn [drain_fuel]. unfold Codec_decode. by rewrite Ep.
    - eexists. intros [|f] Hf; [lia|]. cbn [drain_fuel]. unfold Codec_decode. by rewrite Ep. }
  intros Hf. unfold drain. by rewrite !Hres by lia.
Qed.

(** The loop's equation. *)
Lemma drain_eq c : drain c =
  match Codec_decode c with
  | (Ok (Some r), c1) => let '(rs, c2) := drain c1 in (cons r <$> rs, c2)
  | (Ok None, c1) => (Ok [], c1)
  | (Err e, c1) => (Err e, c1)
  | (Panic, c1) => (Panic, c1)
  end.
Proof.
  apply (inj Some). set (n := (length (rtsp_codec (pull c).2) + length (rtsp_codec (pull (Codec_decode c).2).2))%nat).
  rewrite <- (drain_fuel_enough c (S (S n))) by (unfold n; lia).
  assert (length (rtsp_codec (pull (Codec_decode c).2).2) < S n)%nat as Hn by (unfold n; lia).
  remember (S n) as n' eqn:En. clear En. cbn [drain_fuel].
  destruct (Codec_decode c) as [[[r|]|e|] c1]; try done. cbn [snd] in Hn.
  rewrite (drain_fuel_enough c1) by done. by destruct (drain c1).
Qed.

(** ** The stream of requests *)
Context {AL : AeadLaws A} {O : HashOrder} {OL : HashOrderLaws O}.

(** A channel that has handed out every complete frame has nothing to decrypt. *)
Lemma drained_quiet ch msgs w : expects ch msgs w -> drained ch msgs -> decrypt ch = (Ok None, ch).
Proof.
  intros (He & Hk & Hm & Hn1 & Hn2 & Hw) Hd. destruct msgs as [|m msgs]; cbn in Hd.
  - unfold decrypt. rewrite He, Hd. done.
  - inversion Hm; subst. cbn [length] in Hn2.
    pose proof (decrypt_wire_step ch m msgs _ w He Hk ltac:(done) ltac:(unfold uint; lia) Hw eq_refl) as Hstep.
    by rewrite (proj2 (Nat.ltb_lt _ _)) in Hstep by done.
Qed.

(** Draining a codec whose channel is quiet yields the requests that are there in
    full. *)
Lemma drain_pending rs : forall c w, pull c = (Ok tt, c) -> RtspParser.pending (rtsp_codec c) rs w ->
  exists k c', drain c = (Ok (map RtspParser.received (take k rs)), c') /\ (k <= length rs)%nat /\
    channel c' = channel c /\ decrypted_buffer c' = [] /\ RtspParser.pending (rtsp_codec c') (drop k rs) w /\
    match drop k rs with
    | [] => rtsp_codec c' = []
    | r :: _ => (length (rtsp_codec c') < length (RtspParser.request_encode r))%nat
    end.
Proof.
  induction rs as [|r rs IH]; intros c w Hq Hp; pose proof (RtspParser.decode_pending _ _ _ Hp) as Hd;
    destruct (pull_done _ _ Hq) as [Hdec Hb]; rewrite drain_eq; unfold Codec_decode; rewrite Hq; cbv beta iota in Hd.
  - rewrite Hd. exists 0%nat. eexists. cbn [rtsp_codec channel decrypted_buffer]. split_and!; try done.
    destruct Hp as [_ E]. by apply app_eq_nil in E as [-> _].
  - destruct (Nat.ltb_spec (length (rtsp_codec c)) (length (RtspParser.request_encode r))) as [Hlt|Hge].
    + rewrite Hd. exists 0%nat. eexists. cbn [map_err take drop map rtsp_codec channel decrypted_buffer]. split_and!; done || lia.
    + destruct Hd as (b & -> & Hp' & _). cbn [map_err].
      destruct (IH (mkCodec b (channel c) (decrypted_buffer c)) w) as (k & c' & -> & Hk & Hc & Hb' & Hpk & Hmax);
        [by eapply pull_quiet|done|].
      exists (S k), c'. split_and!; try done. cbn. lia.
Qed.

(** The connection is in the middle of a stream: the frames of [msgs] are still to be
    opened, [w] still to arrive, and [rs] are the requests not yet handed out. *)
Definition in_stream (c : EncryptedConnection) (rs : list RtspRequest) (msgs : list (list Z)) (w : list Z) : Prop :=
  let k := codec c in
  expects (channel k) msgs w /\ decrypted_buffer k = [] /\ RtspParser.pending (rtsp_codec k) rs (concat msgs).

Lemma pull_expects k msgs w : expects (channel k) msgs w -> decrypted_buffer k = [] ->
  exists j k', pull k = (Ok tt, k') /\ (j <= length msgs)%nat /\ expects (channel k') (drop j msgs) w /\
    drained (channel k') (drop j msgs) /\ rtsp_codec k' = rtsp_codec k ++ concat (take j msgs).
Proof.
  intros Hex Hb. destruct (decrypt_all_expects msgs (channel k) w Hex) as (j & ch & Hd & Hj & Hex' & Hdr & _).
  exists j. unfold pull. rewrite Hd, Hb. cbn [app].
  case_bool_decide as E; eexists; split_and!; try done. cbn. by rewrite E, app_nil_r.
Qed.

Lemma pull_drain k k' : pull k = (Ok tt, k') -> drain k = drain k'.
Proof.
  intros Hp. destruct (pull_done _ _ Hp) as [Hd Hb]. rewrite (drain_eq k), (drain_eq k'). unfold Codec_decode.
  by rewrite Hp, (pull_quiet k' _ eq_refl Hd Hb).
Qed.

Lemma on_data_stream c rs msgs r w : in_stream c rs msgs (r ++ w) ->
  exists k j c', on_data c r = (Ok (map RtspParser.received (take k rs)), c') /\ (k <= length rs)%nat /\
    in_stream c' (drop k rs) (drop j msgs) w /\ drained (channel (codec c')) (drop j msgs) /\
    match drop k rs with
    | [] => rtsp_codec (codec c') = []
    | q :: _ => (length (rtsp_codec (codec c')) < length (RtspParser.request_encode q))%nat
    end.
Proof.
  intros (Hex & Hb & Hp). apply feed_expects in Hex. unfold on_data.
  destruct (pull_expects (Codec_feed (codec c) r) msgs w) as (j & k1 & Hpull & Hj & Hex1 & Hdr1 & Hr1); [done..|].
  rewrite (pull_drain _ _ Hpull). destruct (pull_done _ _ Hpull) as [Hd Hb1].
  destruct (drain_pending rs k1 (concat (drop j msgs))) as (k & k2 & -> & Hk & Hc & Hb2 & Hp2 & Hmax).
  { by eapply pull_quiet. }
  { destruct Hp as [Hs He]. split; [done|]. rewrite Hr1. cbn [rtsp_codec Codec_feed].
    by rewrite <- app_assoc, <- concat_app, take_drop. }
  exists k, j. eexists. split; [done|]. unfold in_stream. cbn [codec]. rewrite Hc. by split_and!.
Qed.

Lemma on_reads_stream reads : forall c rs msgs w, in_stream c rs msgs (concat reads ++ w) ->
  drained (channel (codec c)) msgs ->
  match rs with
  | [] => rtsp_codec (codec c) = []
  | q :: _ => (length (rtsp_codec (codec c)) < length (RtspParser.request_encode q))%nat
  end ->
  exists k j c', on_reads c reads = (Ok (map RtspParser.received (take k rs)), c') /\ (k <= length rs)%nat /\
    in_stream c' (drop k rs) (drop j msgs) w /\ drained (channel (codec c')) (drop j msgs) /\
    match drop k rs with
    | [] => rtsp_codec (codec c') = []
    | q :: _ => (length (rtsp_codec (codec c')) < length (RtspParser.request_encode q))%nat
    end.
Proof.
  induction reads as [|r reads IH]; intros c rs msgs w Hst Hdr Hmax.
  { exists 0%nat, 0%nat, c. split_and!; done || lia. }
  cbn [concat] in Hst. rewrite <- app_assoc in Hst.
  destruct (on_data_stream c rs msgs r _ Hst) as (k & j & c1 & H1 & Hk & Hst1 & Hdr1 & Hmax1).
  destruct (IH c1 _ _ w Hst1 Hdr1 Hmax1) as (k2 & j2 & c2 & H2 & Hk2 & Hst2 & Hdr2 & Hmax2).
  exists (k + k2)%nat, (j + j2)%nat, c2. rewrite drop_drop in Hst2, Hmax2. rewrite !drop_drop in Hst2, Hdr2.
  rewrite length_drop in Hk2. split_and!; [|lia|done..]. cbn [on_reads]. rewrite H1, H2. cbn [fmap outcome_fmap].
  by rewrite <- map_app, take_take_drop.
Qed.

(** ** Properties *)

(** C10: the encrypted control connection delivers requests end to end. A client
    whose channel matches the connection's encodes any list of well-formed
    requests, cuts the bytes into messages in any way a frame allows and encrypts
    them. However the bytes written are cut into reads, and wherever the reads
    stop, the connection has handed out, in order and once each, a prefix of the
    requests as the server reads them; and once all bytes have arrived it has
    handed out all of them, with nothing left in any of its buffers. *)
Theorem connection_delivery (s : EncryptedChannel) (c : EncryptedConnection) (rs : list RtspRequest) (msgs : list (list Z))
  (Hs : enabled s = true) (Hlen : length (encrypt_key s) = 32%nat) (Hn : 0 <= encrypt_nonce s)
  (Hover : encrypt_nonce s + Z.of_nat (length msgs) < 2 ^ 64)
  (Hc : codec c = mkCodec [] (mkChannel (encrypt_key (channel (codec c))) (encrypt_key s) (encrypt_nonce (channel (codec c)))
                              (encrypt_nonce s) [] true) [])
  (Hrs : Forall RtspParser.sendable rs) (Hmsgs : concat msgs = concat (map RtspParser.request_encode rs))
  (Hm : Forall (fun m => (length m <= MAX_FRAME_SIZE)%nat) msgs) :
  exists w s', send_all s msgs = (Ok w, s') /\
  forall reads later, concat reads ++ later = w ->
  exists k c', on_reads c reads = (Ok (map RtspParser.received (take k rs)), c') /\ (k <= length rs)%nat /\
    (later = [] -> k = length rs /\ rtsp_codec (codec c') = [] /\ input_buffer (channel (codec c')) = []).
Proof.
  destruct (send_all_wire msgs s) as (w & Hsend & Hw); try done.
  exists w. eexists. split; [done|]. intros reads later Hcat.
  destruct (on_reads_stream reads c rs msgs later) as (k & j & c' & Hon & Hk & (Hex & Hb & Hsd & Hp) & Hdr & Hmax).
  - rewrite Hcat. unfold in_stream. rewrite Hc. cbn. by split_and!.
  - rewrite Hc. unfold drained. cbn. destruct msgs; [done|lia].
  - rewrite Hc. destruct rs as [|q rs']; [done|]. cbn. unfold RtspParser.request_encode. rewrite length_app.
    destruct (method q); cbn; lia.
  - exists k, c'. split_and!; [done..|]. intros ->. 
    destruct Hex as (_ & _ & _ & _ & _ & Hwire). rewrite app_nil_r in Hwire.
    assert (drop j msgs = []) as Hj.
    { destruct (drop j msgs) as [|m ms] eqn:E; [done|]. exfalso. apply length_wire in Hwire. cbn in Hwire, Hdr. lia. }
    rewrite Hj in *. cbn in Hwire, Hp. rewrite app_nil_r in Hp.
    destruct (drop k rs) as [|q qs] eqn:E.
    + apply (f_equal length) in E. rewrite length_drop in E. cbn in E. split; [lia|done].
    + exfalso. rewrite Hp in Hmax. cbn in Hmax. rewrite length_app in Hmax. lia.
Qed.

(** An error loses the requests decoded before it. A request that arrives in
    the same read as bytes that do not parse is taken out of the codec, but
    [on_data] returns the error alone ([?] drops the vector); the malformed bytes
    stay, so every later read fails with the same error. Stated on a connection
    before encryption, where every read passes through. *)
Theorem on_data_drops_requests (c : EncryptedConnection) (r : RtspRequest) (bad : list Z) (e : RtspParser.ParseError)
  (Hc : enabled (channel (codec c)) = false /\ input_buffer (channel (codec c)) = [] /\ decrypted_buffer (codec c) = [] /\
        rtsp_codec (codec c) = [])
  (Hr : RtspParser.request_ok r) (Hbad : RtspParser.decode bad = (bad, Err e)) :
  exists c', on_data c (RtspParser.request_encode r ++ bad) = (Err (Parse e), c') /\ rtsp_codec (codec c') = bad.
Proof.
  destruct c as [[rb ch db] pa cs], Hc as (He & Hi & Hdb & Hrb). cbn in He, Hi, Hdb, Hrb. subst.
  set (data := RtspParser.request_encode r ++ bad). unfold on_data. cbn [codec peer_addr conn_state].
  assert (data <> []) as Hne.
  { unfold data, RtspParser.request_encode. by destruct (method r). }
  set (ch' := set_input_buffer (feed ch data) []).
  assert (pull (Codec_feed (mkCodec [] ch []) data) = (Ok tt, mkCodec data ch' [])) as Hp.
  { unfold pull. cbn [channel Codec_feed decrypted_buffer rtsp_codec]. rewrite decrypt_all_eq. unfold decrypt at 1.
    cbn [feed enabled input_buffer]. rewrite He, Hi. cbn [negb app]. destruct data as [|z data']; [done|]. cbn [length Nat.eqb].
    rewrite decrypt_all_eq. unfold decrypt. cbn [set_input_buffer feed enabled input_buffer]. rewrite He. cbn [negb length Nat.eqb].
    cbn [fmap outcome_fmap concat]. rewrite app_nil_r. by rewrite bool_decide_false. }
  destruct (pull_done _ _ Hp) as [Hd _]. cbn [channel] in Hd.
  rewrite (pull_drain _ _ Hp), drain_eq. unfold Codec_decode at 1. rewrite (pull_quiet _ ch') by done. cbn [rtsp_codec].
  unfold data at 1. rewrite RtspParser.decode_complete by done. cbn [map_err channel decrypted_buffer].
  rewrite drain_eq. unfold Codec_decode. rewrite (pull_quiet _ ch') by done. cbn [rtsp_codec]. rewrite Hbad.
  cbn [map_err channel decrypted_buffer]. eexists. split; done.
Qed.

End WithAead.

(** ** Witnesses *)
Import ToyAead.
#[local] Existing Instance RtspParser.reverse_order.
#[local] Existing Instance RtspParser.reverse_order_laws.

Definition demo_options : RtspRequest := RtspParser.request_cseq (RtspParser.Request_new Options "*") 8.
Definition demo_requests : list RtspRequest := [RtspParser.demo_request; demo_options].
Definition demo_bytes : list Z := concat (map RtspParser.request_encode demo_requests).
Definition demo_conn : EncryptedConnection := Connection_enable (Connection_new "10.0.0.2:7000") [] demo_key.

Lemma demo_sendable : Forall RtspParser.sendable demo_requests.
Proof.
  apply Forall_cons_2; [|apply Forall_cons_2; [|apply Forall_nil_2]]; (split; [|vm_compute; discriminate]).
  - apply RtspParser.demo_request_ok.
  - apply RtspParser.request_header_ok; [|apply RtspParser.plain_field_ok; vm_compute; reflexivity|vm_compute; reflexivity].
    apply RtspParser.request_new_ok. vm_compute. reflexivity.
Qed.

Lemma connection_delivery_witness :
  exists w s', send_all (Channel_new demo_key []) [take 50 demo_bytes; drop 50 demo_bytes] = (Ok w, s') /\
  exists c', on_reads demo_conn [take 3 w; drop 3 w] = (Ok (map RtspParser.received demo_requests), c').
Proof.
  destruct (connection_delivery (Channel_new demo_key []) demo_conn demo_requests [take 50 demo_bytes; drop 50 demo_bytes])
    as (w & s' & Hsend & Hrec).
  1-5: vm_compute; reflexivity || discriminate.
  - exact demo_sendable.
  - cbn [concat]. by rewrite app_nil_r, take_drop.
  - repeat apply Forall_cons_2; [apply Nat.leb_le; vm_compute; reflexivity..|apply Forall_nil_2].
  - exists w, s'. split; [exact Hsend|].
    destruct (Hrec [take 3 w; drop 3 w] []) as (k & c' & Hon & _ & Hall).
    { cbn [concat]. by rewrite !app_nil_r, take_drop. }
    exists c'. rewrite Hon, (proj1 (Hall eq_refl)). by rewrite firstn_all.
Defined.

Lemma on_data_drops_requests_witness :
  exists c', on_data (Connection_new "10.0.0.2:7000") (RtspParser.request_encode RtspParser.demo_request ++ RtspParser.blank_line)
    = (Err (Parse (RtspParser.InvalidRequestLine (bs "Empty request"))), c') /\ rtsp_codec (codec c') = RtspParser.blank_line.
Proof.
  apply (on_data_drops_requests (Connection_new "10.0.0.2:7000") RtspParser.demo_request RtspParser.blank_line).
  - by split_and!.
  - apply RtspParser.demo_request_ok.
  - vm_compute. reflexivity.
Defined.

End EncryptedRtsp.
