(* ===== verification/PairVerify.v ===== *)
(** * Pair-verify and the other client-side pairing sessions

    Models [src/protocol/pairing/verify.rs] ([PairVerify]), [transient.rs]
    ([TransientPairing]), [auth_setup.rs] ([AuthSetup]), the channel of
    [mod.rs] ([EncryptedChannel] over [SessionKeys]) and the in-memory key store
    of [storage.rs].  As in [PairSetup], a step returns its result next to the
    session it leaves behind; the key pairs generated by [new] are arguments. *)

From stdpp Require Import relations pretty gmap strings.
From S2P Require Import Text Bytes Tlv AesCtr Aead Srp KeyCrypto PairSetup PairingServer.
Import AesCtr(CryptoError, EncryptionFailed).
Import Aead KeyCrypto.

Module PairVerify.
Import PairSetup(PairingState, Init, WaitingResponse, Verifying, Complete, Failed, PairingState_debug,
  SessionKeys, PairingError, InvalidState, AuthenticationFailed, SignatureVerificationFailed, ECrypto, DeviceError, ETlv,
  PairingStepResult, SendData, NeedData, StepComplete, check_state, label_nonce, no_data).
#[local] Existing Instance PairSetup.PairingState_eq_dec.

(** ** Stored keys *)
Record PairingKeys := mkKeys {
  identifier : list Z;
  secret_key : list Z;
  public_key : list Z;
  device_public_key : list Z
}.

(** [MemoryStorage]: a hash map by device identifier. *)
Record MemoryStorage := mkStorage { stored_keys : gmap string PairingKeys }.
Definition storage_new : MemoryStorage := mkStorage ∅.
Definition load (m : MemoryStorage) (device_id : string) : option PairingKeys := stored_keys m !! device_id.
Definition save (m : MemoryStorage) (device_id : string) (keys : PairingKeys) : MemoryStorage :=
  mkStorage (<[device_id := keys]> (stored_keys m)).
Definition remove (m : MemoryStorage) (device_id : string) : MemoryStorage := mkStorage (delete device_id (stored_keys m)).

(** ** Pair-verify *)
Record PairVerify := mkVerify {
  state : PairingState;
  our_keys : PairingKeys;
  device_ltpk : list Z;
  ephemeral_keypair : list Z;
  device_ephemeral : option (list Z);
  shared_secret : option (list Z);
  session_key : option (list Z);
  final_session_keys : option SessionKeys
}.

Definition with_state (s : PairVerify) (st : PairingState) : PairVerify :=
  mkVerify st (our_keys s) (device_ltpk s) (ephemeral_keypair s) (device_ephemeral s) (shared_secret s)
    (session_key s) (final_session_keys s).

(** The [?] operator returns before the assignments at the end of a method. *)
Definition commit {S A} (s : S) (r : outcome PairingError (A * S)) : outcome PairingError A * S :=
  match r with
  | Ok (a, s') => (Ok a, s')
  | Err e => (Err e, s)
  | Panic => (Panic, s)
  end.

Section WithCrypto.
Context {A : AeadCipher} {P : PairCrypto}.

Definition PairVerify_new (keys : PairingKeys) (ltpk ephemeral : list Z) : outcome PairingError PairVerify :=
  ltpk ← map_err ECrypto (Ed25519PublicKey_from_bytes ltpk);
  Ok (mkVerify Init keys ltpk ephemeral None None None None).

Definition start (s : PairVerify) : outcome PairingError (list Z) * PairVerify :=
  if negb (bool_decide (state s = Init))
  then (Err (InvalidState "Init" (PairingState_debug (state s))), s)
  else
    (Ok (Tlv.build (Tlv.add (Tlv.add_state Tlv.new 1) Tlv.PublicKey (x_public (ephemeral_keypair s)))),
     with_state s WaitingResponse).

Definition process_m2 (s : PairVerify) (data : list Z) : outcome PairingError PairingStepResult * PairVerify :=
  match Tlv.decode data with
  | Ok tlv =>
      match Tlv.get_error tlv with
      | Some code => (Err (DeviceError code), with_state s Failed)
      | None =>
          commit s (
            _ ← check_state tlv 2;
            device_ephemeral_bytes ← map_err ETlv (Tlv.get_required tlv Tlv.PublicKey);
            encrypted_data ← map_err ETlv (Tlv.get_required tlv Tlv.EncryptedData);
            device_ephemeral ← map_err ECrypto (X25519PublicKey_from_bytes device_ephemeral_bytes);
            let shared := diffie_hellman (ephemeral_keypair s) device_ephemeral in
            session_key ← map_err ECrypto
              (expand_fixed32 (bs "Pair-Verify-Encrypt-Salt") shared (bs "Pair-Verify-Encrypt-Info"));
            cipher ← map_err ECrypto (Cipher_new session_key);
            nonce ← map_err ECrypto (Nonce_from_bytes (label_nonce (bs "PV-Msg02")));
            decrypted ← map_err ECrypto (Cipher_decrypt cipher nonce encrypted_data);
            device_tlv ← map_err ETlv (Tlv.decode decrypted);
            _ ← map_err ETlv (Tlv.get_required device_tlv Tlv.Identifier);
            device_signature ← map_err ETlv (Tlv.get_required device_tlv Tlv.Signature);
            let verify_data := device_ephemeral_bytes ++ x_public (ephemeral_keypair s) in
            signature ← map_err ECrypto (Ed25519Signature_from_bytes device_signature);
            _ ← map_err ECrypto (Ed25519PublicKey_verify (device_ltpk s) verify_data signature);
            let sign_data := x_public (ephemeral_keypair s) ++ device_ephemeral_bytes in
            our_keypair ← map_err ECrypto (Ed25519KeyPair_from_bytes (secret_key (our_keys s)));
            let our_signature := ed_sign our_keypair sign_data in
            let inner_tlv := Tlv.build (Tlv.add (Tlv.add Tlv.new Tlv.Identifier (identifier (our_keys s)))
                               Tlv.Signature our_signature) in
            nonce ← map_err ECrypto (Nonce_from_bytes (label_nonce (bs "PV-Msg03")));
            encrypted ← map_err ECrypto (Cipher_encrypt cipher nonce inner_tlv);
            let m3 := Tlv.build (Tlv.add (Tlv.add_state Tlv.new 3) Tlv.EncryptedData encrypted) in
            Ok (SendData m3,
                mkVerify Verifying (our_keys s) (device_ltpk s) (ephemeral_keypair s) (Some device_ephemeral)
                  (Some shared) (Some session_key) (final_session_keys s)))
      end
  | Err e => (Err (ETlv e), s)
  | Panic => (Panic, s)
  end.

Definition process_m4 (s : PairVerify) (data : list Z) : outcome PairingError PairingStepResult * PairVerify :=
  match Tlv.decode data with
  | Ok tlv =>
      match Tlv.get_error tlv with
      | Some code => (Err (if code =? 2 then SignatureVerificationFailed else DeviceError code), with_state s Failed)
      | None =>
          commit s (
            _ ← check_state tlv 4;
            shared ← ok_or (shared_secret s) (InvalidState "shared_secret" "none");
            keys ← PairSetup.control_keys shared shared;
            Ok (StepComplete keys,
                mkVerify Complete (our_keys s) (device_ltpk s) (ephemeral_keypair s) (device_ephemeral s)
                  (shared_secret s) (session_key s) (Some keys)))
      end
  | Err e => (Err (ETlv e), s)
  | Panic => (Panic, s)
  end.

(** [step]: the driver of the state machine; [Complete] without keys panics. *)
Definition step (s : PairVerify) (data : option (list Z)) : outcome PairingError PairingStepResult * PairVerify :=
  match state s with
  | Init => let '(r, s') := start s in (m1 ← r; Ok (SendData m1), s')
  | WaitingResponse => match data with Some d => process_m2 s d | None => (Err no_data, s) end
  | Verifying => match data with Some d => process_m4 s d | None => (Err no_data, s) end
  | Complete => (match final_session_keys s with Some k => Ok (StepComplete k) | None => Panic end, s)
  | Failed => (Err (InvalidState "not failed" "Failed"), s)
  | _ => (Ok NeedData, s)
  end.

(** ** Transient pairing: the same exchange without a stored device key *)
Record TransientPairing := mkTransient {
  t_state : PairingState;
  our_keypair : list Z;
  signing_keypair : list Z;
  device_public : option (list Z);
  t_shared_secret : option (list Z);
  session_keys : option SessionKeys
}.

Definition TransientPairing_new (keypair signing : list Z) : TransientPairing :=
  mkTransient Init keypair signing None None None.

Definition t_with_state (s : TransientPairing) (st : PairingState) : TransientPairing :=
  mkTransient st (our_keypair s) (signing_keypair s) (device_public s) (t_shared_secret s) (session_keys s).

Definition t_start (s : TransientPairing) : outcome PairingError (list Z) * TransientPairing :=
  if negb (bool_decide (t_state s = Init))
  then (Err (InvalidState "Init" (PairingState_debug (t_state s))), s)
  else
    (Ok (Tlv.build (Tlv.add (Tlv.add_byte (Tlv.add_state Tlv.new 1) Tlv.Method 0) Tlv.PublicKey (x_public (our_keypair s)))),
     t_with_state s WaitingResponse).

Definition t_process_m2 (s : TransientPairing) (data : list Z) : outcome PairingError PairingStepResult * TransientPairing :=
  if negb (bool_decide (t_state s = WaitingResponse))
  then (Err (InvalidState "WaitingResponse" (PairingState_debug (t_state s))), s)
  else
  match Tlv.decode data with
  | Ok tlv =>
      match Tlv.get_error tlv with
      | Some code => (Err (DeviceError code), t_with_state s Failed)
      | None =>
          commit s (
            _ ← check_state tlv 2;
            device_pub_bytes ← map_err ETlv (Tlv.get_required tlv Tlv.PublicKey);
            device_public ← map_err ECrypto (X25519PublicKey_from_bytes device_pub_bytes);
            let shared := diffie_hellman (our_keypair s) device_public in
            session_key ← map_err ECrypto
              (expand_fixed32 (bs "Pair-Verify-Encrypt-Salt") shared (bs "Pair-Verify-Encrypt-Info"));
            let signature := ed_sign (signing_keypair s) (x_public (our_keypair s) ++ device_pub_bytes) in
            let inner_tlv := Tlv.build (Tlv.add (Tlv.add Tlv.new Tlv.Identifier (bs "airplay2-rs")) Tlv.Signature signature) in
            cipher ← map_err ECrypto (Cipher_new session_key);
            nonce ← map_err ECrypto (Nonce_from_bytes (replicate 12 0));
            encrypted ← map_err ECrypto (Cipher_encrypt cipher nonce inner_tlv);
            let m3 := Tlv.build (Tlv.add (Tlv.add_state Tlv.new 3) Tlv.EncryptedData encrypted) in
            Ok (SendData m3,
                mkTransient Verifying (our_keypair s) (signing_keypair s) (Some device_public) (Some shared) (session_keys s)))
      end
  | Err e => (Err (ETlv e), s)
  | Panic => (Panic, s)
  end.

Definition t_process_m4 (s : TransientPairing) (data : list Z) : outcome PairingError PairingStepResult * TransientPairing :=
  if negb (bool_decide (t_state s = Verifying))
  then (Err (InvalidState "Verifying" (PairingState_debug (t_state s))), s)
  else
  match Tlv.decode data with
  | Ok tlv =>
      match Tlv.get_error tlv with
      | Some code => (Err (DeviceError code), t_with_state s Failed)
      | None =>
          commit s (
            _ ← check_state tlv 4;
            shared ← ok_or (t_shared_secret s) (InvalidState "shared_secret set" "none");
            keys ← PairSetup.control_keys shared shared;
            Ok (StepComplete keys,
                mkTransient Complete (our_keypair s) (signing_keypair s) (device_public s) (t_shared_secret s) (Some keys)))
      end
  | Err e => (Err (ETlv e), s)
  | Panic => (Panic, s)
  end.

Definition t_step (s : TransientPairing) (data : option (list Z)) : outcome PairingError PairingStepResult * TransientPairing :=
  match t_state s with
  | Init => let '(r, s') := t_start s in (m1 ← r; Ok (SendData m1), s')
  | WaitingResponse => match data with Some d => t_process_m2 s d | None => (Err no_data, s) end
  | Verifying => match data with Some d => t_process_m4 s d | None => (Err no_data, s) end
  | Complete => (match session_keys s with Some k => Ok (StepComplete k) | None => Panic end, s)
  | Failed => (Err (InvalidState "not failed" "Failed"), s)
  | _ => (Ok NeedData, s)
  end.

(** ** Auth-setup *)
Definition auth_start (keypair : list Z) : list Z := 1 :: x_public keypair.

Definition too_short (what : string) : PairingError := AuthenticationFailed (String.append "Auth-Setup response " what).

Definition process_response (data : list Z) : outcome PairingError unit :=
  let len := length data in
  if (len <? 32)%nat then Err (too_short "too short")
  else if (len <? 36)%nat then Err (too_short "missing cert length")
  else
    cert_len ← be_at data 32 4;
    let cursor := (36 + Z.to_nat cert_len)%nat in
    if (len <? cursor)%nat then Err (too_short "missing certificate data")
    else if (len <? cursor + 4)%nat then Err (too_short "missing signature length")
    else
      sig_len ← be_at data cursor 4;
      if (len <? cursor + 4 + Z.to_nat sig_len)%nat then Err (too_short "missing signature data")
      else Ok tt.

(** ** The channel of the session keys ([mod.rs]) *)
Record Channel := mkChannel { cipher : list Z; nonce_counter : Z; is_sender : bool }.

Definition Channel_new (key : list Z) (nonce : Z) (sender : bool) : outcome CryptoError Channel :=
  c ← Cipher_new key; Ok (mkChannel c nonce sender).
Definition encryptor (k : SessionKeys) : outcome CryptoError Channel :=
  Channel_new (PairSetup.encrypt_key k) (PairSetup.encrypt_nonce k) true.
Definition decryptor (k : SessionKeys) : outcome CryptoError Channel :=
  Channel_new (PairSetup.decrypt_key k) (PairSetup.decrypt_nonce k) false.

(** [+= 1] panics on overflow, before the cipher runs. *)
Definition Channel_encrypt (c : Channel) (plaintext : list Z) : outcome CryptoError (list Z) * Channel :=
  match chk_u (E := CryptoError) 64 (nonce_counter c + 1) with
  | Ok n => (Cipher_encrypt (cipher c) (Nonce_from_counter (nonce_counter c)) plaintext, mkChannel (cipher c) n (is_sender c))
  | _ => (Panic, c)
  end.
Definition Channel_decrypt (c : Channel) (ciphertext : list Z) : outcome CryptoError (list Z) * Channel :=
  match chk_u (E := CryptoError) 64 (nonce_counter c + 1) with
  | Ok n => (Cipher_decrypt (cipher c) (Nonce_from_counter (nonce_counter c)) ciphertext, mkChannel (cipher c) n (is_sender c))
  | _ => (Panic, c)
  end.
Definition encrypt_framed (c : Channel) (plaintext : list Z) : outcome CryptoError (list Z) * Channel :=
  let '(r, c') := Channel_encrypt c plaintext in
  (encrypted ← r;
   if (65535 <? length encrypted)%nat then Err EncryptionFailed
   else Ok (to_le 2 (Z.of_nat (length encrypted)) ++ encrypted), c').

(** ** Steps that cannot panic *)
Context {AL : AeadLaws A} {PL : PairCryptoLaws P}.

Lemma wp_safe_any {E B} (m : outcome E B) (Q : B -> Prop) : safe m -> (forall b, Q b) -> wp m Q.
Proof. destruct m; cbn; [auto|done|by intros []]. Qed.

Lemma check_state_safe tlv n : safe (check_state tlv n).
Proof.
  unfold check_state. apply safe_bind; [|by intros; case_match].
  unfold Tlv.get_state, Tlv.get_required. destruct (Tlv.get tlv Tlv.State) as [v|]; [|done].
  cbn [ok_or mbind outcome_bind]. destruct v as [|b [|]]; done.
Qed.

Lemma expand_wp salt ikm info : wp (expand_fixed32 salt ikm info) (fun k => length k = 32%nat).
Proof.
  unfold expand_fixed32, HkdfSha512_expand. destruct (expand_fixed32_ok salt ikm info) as (k & -> & Hk). done.
Qed.

Lemma key_wp b (Q : list Z -> Prop) : Q b -> wp (X25519PublicKey_from_bytes b) Q.
Proof. intros H. unfold X25519PublicKey_from_bytes. by case_match. Qed.
Lemma signature_wp b (Q : list Z -> Prop) : Q b -> wp (Ed25519Signature_from_bytes b) Q.
Proof. intros H. unfold Ed25519Signature_from_bytes. by case_match. Qed.
Lemma keypair_wp b (Q : list Z -> Prop) : Q b -> wp (Ed25519KeyPair_from_bytes b) Q.
Proof. intros H. unfold Ed25519KeyPair_from_bytes. by case_match. Qed.
Lemma verify_wp k m sg (Q : unit -> Prop) : (ed_verify k m sg = true -> Q tt) -> wp (Ed25519PublicKey_verify k m sg) Q.
Proof. intros H. unfold Ed25519PublicKey_verify. destruct (ed_verify k m sg); [by apply H|done]. Qed.

Lemma control_keys_ok secret raw : exists k, PairSetup.control_keys secret raw = Ok k.
Proof.
  unfold PairSetup.control_keys, expand_fixed32, HkdfSha512_expand.
  destruct (expand_fixed32_ok (bs "Control-Salt") secret (bs "Control-Write-Encryption-Key")) as (ek & -> & _).
  destruct (expand_fixed32_ok (bs "Control-Salt") secret (bs "Control-Read-Encryption-Key")) as (dk & -> & _). by eexists.
Qed.

(** ** What the states of a session promise *)

(** The device has proved, for this session's key, that it holds the stored key. *)
Definition device_proved (s : PairVerify) : Prop := exists de sg,
  device_ephemeral s = Some de /\ shared_secret s = Some (x_dh (ephemeral_keypair s) de) /\
  ed_verify (device_ltpk s) (de ++ x_public (ephemeral_keypair s)) sg = true.

Definition verify_inv (s : PairVerify) : Prop :=
  (state s = Verifying \/ state s = Complete -> device_proved s) /\
  (state s = Complete -> exists de keys, device_ephemeral s = Some de /\ final_session_keys s = Some keys /\
     PairSetup.control_keys (x_dh (ephemeral_keypair s) de) (x_dh (ephemeral_keypair s) de) = Ok keys).

(** The fields that are set once. *)
Definition same_identity (s s' : PairVerify) : Prop :=
  our_keys s' = our_keys s /\ device_ltpk s' = device_ltpk s /\ ephemeral_keypair s' = ephemeral_keypair s.

Lemma commit_wp {S B} (s : S) (r : outcome PairingError (B * S)) (Q : S -> Prop) :
  Q s -> wp r (fun x => Q x.2) -> safe (commit s r).1 /\ Q (commit s r).2.
Proof. destruct r as [[b s']|e|]; cbn; [by split|by split|done]. Qed.

Lemma process_m2_spec s data : state s = WaitingResponse ->
  safe (process_m2 s data).1 /\ verify_inv (process_m2 s data).2 /\ same_identity s (process_m2 s data).2.
Proof.
  intros Hst. assert (verify_inv s /\ same_identity s s) as Hs.
  { split; [|done]. split; rewrite Hst; naive_solver. }
  unfold process_m2. pose proof (Tlv.decode_safe data) as Hsafe. destruct (Tlv.decode data) as [tlv|e|]; [|by split|done].
  destruct (Tlv.get_error tlv); [by split; [|split; [split; cbn; naive_solver|done]]|].
  apply (commit_wp s _ (fun s' => verify_inv s' /\ same_identity s s')); [done|].
  apply wp_bind, wp_safe_any; [apply check_state_safe|intros []].
  apply wp_bind, wp_map_err, wp_ok_or. intros de _. apply wp_bind, wp_map_err, wp_ok_or. intros enc _.
  apply wp_bind, wp_map_err, key_wp. cbv zeta.
  apply wp_bind, wp_map_err. eapply wp_mono; [apply expand_wp|]. intros k Hk. cbn beta in Hk.
  rewrite (Cipher_new_ok k Hk). cbn [map_err mbind outcome_bind].
  rewrite !(Nonce_from_bytes_ok (label_nonce _)) by done. cbn [map_err mbind outcome_bind].
  apply wp_bind, wp_map_err, wp_ok_or. intros dec _.
  apply wp_bind, wp_map_err, wp_safe_any; [apply Tlv.decode_safe|intros dt].
  apply wp_bind, wp_map_err, wp_ok_or. intros _ _. apply wp_bind, wp_map_err, wp_ok_or. intros sg _.
  apply wp_bind, wp_map_err, signature_wp. apply wp_bind, wp_map_err, verify_wp. intros Hv.
  apply wp_bind, wp_map_err, keypair_wp. apply wp_bind, wp_map_err, wp_ok_or. intros out _.
  cbn. split; [|done]. split; cbn; [|by intros]. intros _. by exists de, sg.
Qed.

Lemma process_m4_spec s data : state s = Verifying -> verify_inv s ->
  safe (process_m4 s data).1 /\ verify_inv (process_m4 s data).2 /\ same_identity s (process_m4 s data).2.
Proof.
  intros Hst Hinv. unfold process_m4. pose proof (Tlv.decode_safe data) as Hsafe.
  destruct (Tlv.decode data) as [tlv|e|]; [|by split|done].
  destruct (Tlv.get_error tlv); [by split; [|split; [split; cbn; naive_solver|done]]|].
  apply (commit_wp s _ (fun s' => verify_inv s' /\ same_identity s s')); [done|]. destruct Hinv as [Hp _]. specialize (Hp (or_introl Hst)) as (de & sg & Hde & Hsh & Hv).
  apply wp_bind, wp_safe_any; [apply check_state_safe|intros []].
  apply wp_bind. rewrite Hsh. cbn [ok_or wp].
  destruct (control_keys_ok (x_dh (ephemeral_keypair s) de) (x_dh (ephemeral_keypair s) de)) as [keys Hkeys].
  rewrite Hkeys. cbn [wp mbind outcome_bind snd].
  split; [|done]. split; cbn.
  - intros _. exists de, sg. by split_and!.
  - intros _. by exists de, keys.
Qed.

Lemma step_spec s data : verify_inv s ->
  safe (step s data).1 /\ verify_inv (step s data).2 /\ same_identity s (step s data).2.
Proof.
  intros Hinv. unfold step. destruct (state s) eqn:Hst; try (by split_and!).
  - unfold start. rewrite Hst. cbn. split_and!; try done; split; cbn; naive_solver.
  - destruct data as [d|]; [by apply process_m2_spec|by split_and!].
  - destruct data as [d|]; [by apply process_m4_spec|by split_and!].
  - destruct Hinv as [H1 H2]. destruct (H2 Hst) as (de & keys & _ & Hk & _). rewrite Hk. by split_and!.
Qed.

Lemma new_ok keys ltpk eph s0 : PairVerify_new keys ltpk eph = Ok s0 -> s0 = mkVerify Init keys ltpk eph None None None None.
Proof. unfold PairVerify_new, Ed25519PublicKey_from_bytes. intros H. repeat case_match; cbn in H; by simplify_eq. Qed.

Lemma step_init keys ltpk eph : step (mkVerify Init keys ltpk eph None None None None) None =
  (Ok (SendData (Tlv.encode_all (PairingServer.verify_m1_items eph))), mkVerify WaitingResponse keys ltpk eph None None None None).
Proof. reflexivity. Qed.

Lemma step_complete s data k s' : step s data = (Ok (StepComplete k), s') -> state s' = Complete /\ final_session_keys s' = Some k.
Proof.
  unfold step. destruct (state s) eqn:Hst.
  - unfold start. rewrite Hst. cbn. by intros.
  - destruct data as [d|]; [|done]. unfold process_m2. intros H. repeat (case_match; try done). unfold commit in H.
    match type of H with (match ?r with _ => _ end) = _ => destruct r as [[res s1]|err|] eqn:Hres; [|done..] end. simplify_eq.
    repeat (apply bind_ok in Hres as (? & _ & Hres)). done.
  - done.
  - done.
  - destruct data as [d|]; [|done]. unfold process_m4. intros H. repeat (case_match; try done). unfold commit in H.
    match type of H with (match ?r with _ => _ end) = _ => destruct r as [[res s1]|err|] eqn:Hres; [|done..] end. simplify_eq.
    repeat (apply bind_ok in Hres as (? & _ & Hres)). by simplify_eq.
  - destruct (final_session_keys s) eqn:Hf; intros; by simplify_eq.
  - done.
Qed.

(** ** A device that follows the protocol *)
Definition device_sub (id ltsk b their_public : list Z) :=
  [(Tlv.Identifier, id); (Tlv.Signature, ed_sign ltsk (x_public b ++ their_public))].
Definition device_m2 (b enc : list Z) := [(Tlv.State, [2]); (Tlv.PublicKey, x_public b); (Tlv.EncryptedData, enc)].
Definition device_m4 : list (Tlv.TlvType * list Z) := [(Tlv.State, [4])].
Definition client_sub (keys : PairingKeys) (eph their_public : list Z) :=
  [(Tlv.Identifier, identifier keys); (Tlv.Signature, ed_sign (secret_key keys) (x_public eph ++ their_public))].

(** The message carries no error item and the expected state. *)
Lemma message_ok kvs st : Tlv.values_of kvs Tlv.State = Some [st] -> Tlv.values_of kvs Tlv.Error = None ->
  exists d, Tlv.decode (Tlv.encode_all kvs) = Ok d /\ Tlv.get_error d = None /\ check_state d st = Ok tt /\
    forall ty, Tlv.get_required d ty = ok_or (Tlv.values_of kvs ty) (Tlv.MissingField ty).
Proof.
  intros Hst He. destruct (PairingServer.message_fields kvs st Hst) as (d & Hd & Hgs & _ & Hget). exists d.
  split_and!; [done| | |].
  - unfold Tlv.get_error. by rewrite Hget, He.
  - unfold check_state. rewrite Hgs. cbn. by rewrite Z.eqb_refl.
  - intros ty. unfold Tlv.get_required. by rewrite Hget.
Qed.

Lemma length_two_items ty v ty' v' : (length v <= 255)%nat -> (length v' <= 255)%nat ->
  Z.of_nat (length (Tlv.encode_all [(ty, v); (ty', v')])) < 2 ^ 32.
Proof.
  intros Hv Hv'. pose proof (PairingServer.length_chunked ty' v' (Tlv.add Tlv.new ty v) Hv') as H1.
  pose proof (PairingServer.length_chunked ty v Tlv.new Hv) as H2. change (length (Tlv.buffer Tlv.new)) with 0%nat in H2.
  change (Tlv.encode_all _) with (Tlv.buffer (Tlv.add (Tlv.add Tlv.new ty v) ty' v')). lia.
Qed.

Lemma m2_ok s ltsk b id k enc : state s = WaitingResponse -> device_ltpk s = ed_public ltsk ->
  length (secret_key (our_keys s)) = 32%nat -> (length (identifier (our_keys s)) <= 255)%nat ->
  hkdf_expand (Some (bs "Pair-Verify-Encrypt-Salt")) (x_dh b (x_public (ephemeral_keypair s))) (bs "Pair-Verify-Encrypt-Info") 32 = Some k ->
  aead_seal k (label_nonce (bs "PV-Msg02")) [] (Tlv.encode_all (device_sub id ltsk b (x_public (ephemeral_keypair s)))) = Some enc ->
  exists s' enc3, process_m2 s (Tlv.encode_all (device_m2 b enc)) =
      (Ok (SendData (Tlv.encode_all [(Tlv.State, [3]); (Tlv.EncryptedData, enc3)])), s') /\
    aead_open k (label_nonce (bs "PV-Msg03")) [] enc3 =
      Some (Tlv.encode_all (client_sub (our_keys s) (ephemeral_keypair s) (x_public b))) /\
    state s' = Verifying /\ shared_secret s' = Some (x_dh (ephemeral_keypair s) (x_public b)).
Proof.
  intros Hst Hltpk Hsk Hid Hk Henc. apply aead_seal_open in Henc. rewrite (x_dh_comm b) in Hk.
  destruct (message_ok (device_m2 b enc) 2) as (d & Hd & He & Hc & Hget); [done..|].
  unfold process_m2. rewrite Hd, He, Hc, !Hget.
  assert (Tlv.values_of (device_m2 b enc) Tlv.PublicKey = Some (x_public b)) as -> by tlv_value.
  assert (Tlv.values_of (device_m2 b enc) Tlv.EncryptedData = Some enc) as -> by tlv_value.
  cbn [ok_or map_err mbind outcome_bind]. rewrite X25519PublicKey_from_bytes_ok. cbn [map_err mbind outcome_bind].
  unfold expand_fixed32, HkdfSha512_expand, diffie_hellman. rewrite Hk. cbn [ok_or map_err mbind outcome_bind].
  apply hkdf_length in Hk. rewrite (Cipher_new_ok k Hk). cbn [map_err mbind outcome_bind].
  rewrite !(Nonce_from_bytes_ok (label_nonce _)) by done. cbn [map_err mbind outcome_bind].
  unfold Cipher_decrypt. rewrite Henc. cbn [ok_or map_err mbind outcome_bind].
  destruct (Tlv.decode_encode_all (device_sub id ltsk b (x_public (ephemeral_keypair s)))) as (dt & -> & Hdt).
  cbn [map_err mbind outcome_bind]. unfold Tlv.get_required. rewrite !Hdt.
  assert (Tlv.values_of (device_sub id ltsk b (x_public (ephemeral_keypair s))) Tlv.Identifier = Some id) as -> by tlv_value.
  assert (Tlv.values_of (device_sub id ltsk b (x_public (ephemeral_keypair s))) Tlv.Signature =
    Some (ed_sign ltsk (x_public b ++ x_public (ephemeral_keypair s)))) as -> by tlv_value.
  cbn [ok_or map_err mbind outcome_bind]. rewrite Ed25519Signature_from_bytes_ok. cbn [map_err mbind outcome_bind].
  unfold Ed25519PublicKey_verify. rewrite Hltpk, ed_sign_verify. cbn [map_err mbind outcome_bind].
  unfold Ed25519KeyPair_from_bytes. rewrite Hsk. cbn [Nat.eqb negb map_err mbind outcome_bind].
  set (inner := Tlv.build _).
  destruct (aead_seal_total k (label_nonce (bs "PV-Msg03")) [] inner) as [enc3 Henc3].
  { apply (length_two_items Tlv.Identifier (identifier (our_keys s)) Tlv.Signature
      (ed_sign (secret_key (our_keys s)) (x_public (ephemeral_keypair s) ++ x_public b))); [done|]. rewrite ed_sign_length. lia. }
  unfold Cipher_encrypt. rewrite Henc3. cbn [ok_or map_err mbind outcome_bind commit].
  apply aead_seal_open in Henc3. eexists _, enc3. by split_and!.
Qed.

Lemma m4_ok s shared : state s = Verifying -> shared_secret s = Some shared ->
  exists keys s', process_m4 s (Tlv.encode_all device_m4) = (Ok (StepComplete keys), s') /\
    PairSetup.control_keys shared shared = Ok keys /\ state s' = Complete.
Proof.
  intros Hst Hsh. destruct (message_ok device_m4 4) as (d & Hd & He & Hc & _); [done..|].
  unfold process_m4. rewrite Hd, He, Hc, Hsh. cbn [ok_or mbind outcome_bind].
  destruct (control_keys_ok shared shared) as [keys ->]. by eexists keys, _.
Qed.

(** ** The crate's own server *)
Lemma server_m2 s e secret : exists r s' k enc m,
  PairingServer.process_pair_verify s (Tlv.encode_all (PairingServer.verify_m1_items e)) secret = Ok (r, s') /\
  PairingServer.response r = Tlv.encode_all (device_m2 secret enc) /\
  hkdf_expand (Some (bs "Pair-Verify-Encrypt-Salt")) (x_dh secret (x_public e)) (bs "Pair-Verify-Encrypt-Info") 32 = Some k /\
  aead_seal k (PairingServer.nonce_of_prefix (bs "PV-Msg02")) [] m = Some enc.
Proof.
  destruct (PairingServer.message_fields (PairingServer.verify_m1_items e) 1) as (d & Hd & _ & Hst & Hget); [done|].
  unfold PairingServer.process_pair_verify. rewrite Hd, Hst. unfold PairingServer.handle_pair_verify_m1.
  set (s1 := if negb _ && negb _ then _ else _). clearbody s1. rewrite Hget.
  assert (Tlv.values_of (PairingServer.verify_m1_items e) Tlv.PublicKey = Some (x_public e)) as -> by tlv_value.
  rewrite x_public_length, X25519PublicKey_from_bytes_ok. cbn [Nat.eqb negb]. unfold diffie_hellman.
  destruct (expand_fixed32_ok (bs "Pair-Verify-Encrypt-Salt") (x_dh secret (x_public e)) (bs "Pair-Verify-Encrypt-Info"))
    as (k & Hk & Hl). unfold derive_key, HkdfSha512_expand. rewrite Hk. cbn [ok_or map_err mbind outcome_bind PairingServer.identity].
  edestruct PairingServer.encrypt_with_key_ok as (enc & -> & Henc); [done|by cbn; lia|apply PairingServer.length_sub_tlv|].
  cbn [mbind outcome_bind PairingServer.finish]. eexists _, _, k, enc, _. by split_and!.
Qed.

(** ** Properties *)

(** A step of the session, with or without data. *)
Definition session_step (s s' : PairVerify) : Prop := exists data, s' = (step s data).2.

(** C23: pair-verify authenticates the device. In every state a session can reach,
    whatever bytes it is fed and in whatever order, no step panics; it is past the
    second message only if a signature over both session keys verified under the
    stored device key; and the keys it completes with are those of the exchange
    with the key that was signed. *)
Theorem verify_authenticates (keys : PairingKeys) (ltpk eph : list Z) (s0 s : PairVerify)
  (Hnew : PairVerify_new keys ltpk eph = Ok s0) (Hreach : rtc session_step s0 s) :
  device_ltpk s = ltpk /\ ephemeral_keypair s = eph /\ (forall data, safe (step s data).1) /\
  (state s = Verifying \/ state s = Complete -> device_proved s) /\
  (forall data k s', step s data = (Ok (StepComplete k), s') -> device_proved s' /\
     exists de, device_ephemeral s' = Some de /\ PairSetup.control_keys (x_dh eph de) (x_dh eph de) = Ok k).
Proof.
  apply new_ok in Hnew as ->.
  assert (verify_inv s /\ device_ltpk s = ltpk /\ ephemeral_keypair s = eph) as (Hinv & Hl & He).
  { remember (mkVerify Init keys ltpk eph None None None None) as s0 eqn:E0.
    assert (verify_inv s0 /\ device_ltpk s0 = ltpk /\ ephemeral_keypair s0 = eph) as H0.
    { subst. split_and!; [|done..]. split; cbn; naive_solver. }
    clear E0. induction Hreach as [|s0 s1 s2 (data & ->) _ IH]; [done|]. apply IH. destruct H0 as (Hi & Hl & He).
    destruct (step_spec s0 data Hi) as (_ & Hi' & _ & Hl' & He'). split; [done|]. by rewrite Hl', He'. }
  split_and!; [done|done|by intros; apply step_spec|by apply Hinv|].
  intros data k s' Hstep. destruct (step_spec s data Hinv) as (_ & [Hi1 Hi2] & _ & _ & He'). rewrite Hstep in Hi1, Hi2, He'.
  cbn [snd] in *. pose proof (step_complete _ _ _ _ Hstep) as (Hc & Hf).
  destruct (Hi2 Hc) as (de & k' & Hde & Hk' & Hck). split; [by apply Hi1; right|]. exists de. rewrite He', He in Hck. by simplify_eq.
Qed.

(** C24: pair-verify completes with a device that holds the stored key. A fresh
    session and a device that knows the secret of the stored key run the whole
    exchange: the session accepts the device's message, its own message opens
    under the shared session key to its identifier and its signature over both
    keys, and the final state item completes it, with control keys derived from
    the secret the device computes as well. *)
Theorem verify_completes (keys : PairingKeys) (ltsk eph b id : list Z)
  (Hsk : length (secret_key keys) = 32%nat) (Hid : (length (identifier keys) <= 255)%nat) (Hdid : (length id <= 255)%nat) :
  exists s0 s1 k enc s2 enc3 s3 ck,
    PairVerify_new keys (ed_public ltsk) eph = Ok s0 /\
    step s0 None = (Ok (SendData (Tlv.encode_all (PairingServer.verify_m1_items eph))), s1) /\
    hkdf_expand (Some (bs "Pair-Verify-Encrypt-Salt")) (x_dh b (x_public eph)) (bs "Pair-Verify-Encrypt-Info") 32 = Some k /\
    aead_seal k (label_nonce (bs "PV-Msg02")) [] (Tlv.encode_all (device_sub id ltsk b (x_public eph))) = Some enc /\
    step s1 (Some (Tlv.encode_all (device_m2 b enc))) =
      (Ok (SendData (Tlv.encode_all (PairingServer.verify_m3_items enc3))), s2) /\
    aead_open k (label_nonce (bs "PV-Msg03")) [] enc3 = Some (Tlv.encode_all (client_sub keys eph (x_public b))) /\
    step s2 (Some (Tlv.encode_all device_m4)) = (Ok (StepComplete ck), s3) /\
    PairSetup.control_keys (x_dh b (x_public eph)) (x_dh b (x_public eph)) = Ok ck.
Proof.
  destruct (expand_fixed32_ok (bs "Pair-Verify-Encrypt-Salt") (x_dh b (x_public eph)) (bs "Pair-Verify-Encrypt-Info"))
    as (k & Hk & Hl).
  destruct (aead_seal_total k (label_nonce (bs "PV-Msg02")) [] (Tlv.encode_all (device_sub id ltsk b (x_public eph)))) as [enc Henc].
  { by apply length_two_items; [|rewrite ed_sign_length; lia]. }
  set (s1 := mkVerify WaitingResponse keys (ed_public ltsk) eph None None None None).
  destruct (m2_ok s1 ltsk b id k enc) as (s2 & enc3 & H2 & Ho & Hst2 & Hsh2); try done.
  destruct (m4_ok s2 _ Hst2 Hsh2) as (ck & s3 & H4 & Hck & _). cbn [ephemeral_keypair s1] in Hck. rewrite x_dh_comm in Hck.
  eexists _, s1, k, enc, s2, enc3, s3, ck. unfold PairVerify_new. rewrite Ed25519PublicKey_from_bytes_ok. cbn [map_err mbind outcome_bind].
  split_and!; try done. unfold step. by rewrite Hst2.
Qed.

(** The two ends of this crate cannot pair-verify with each other. The server
    puts the label of its nonce in the first eight bytes, the client in the last
    eight; with a cipher that does not open a message under another nonce, the
    client rejects the server's answer to its first message as undecryptable,
    whatever keys the two hold. *)
Theorem own_server_rejected (keys : PairingKeys) (ltpk eph secret : list Z) (s0 s1 : PairVerify) (m1 : list Z)
  (srv : PairingServer.PairingServer)
  (Hauth : forall k n n' m c, length n = 12%nat -> length n' = 12%nat -> n <> n' ->
     aead_seal k n [] m = Some c -> aead_open k n' [] c = None)
  (Hnew : PairVerify_new keys ltpk eph = Ok s0) (Hstart : step s0 None = (Ok (SendData m1), s1)) :
  exists r srv', PairingServer.process_pair_verify srv m1 secret = Ok (r, srv') /\
    step s1 (Some (PairingServer.response r)) = (Err (ECrypto AesCtr.DecryptionFailed), s1).
Proof.
  assert (m1 = Tlv.encode_all (PairingServer.verify_m1_items eph) /\ state s1 = WaitingResponse /\ ephemeral_keypair s1 = eph)
    as (-> & Hst & Heph).
  { apply new_ok in Hnew as ->. rewrite step_init in Hstart. by injection Hstart as <- <-. }
  destruct (server_m2 srv eph secret) as (r & srv' & k & enc & m & Hp & Hr & Hk & Henc).
  exists r, srv'. split; [done|]. rewrite Hr. unfold step. rewrite Hst. unfold process_m2.
  destruct (message_ok (device_m2 secret enc) 2) as (d & Hd & He & Hc & Hget); [done..|].
  rewrite Hd, He, Hc, !Hget.
  assert (Tlv.values_of (device_m2 secret enc) Tlv.PublicKey = Some (x_public secret)) as -> by tlv_value.
  assert (Tlv.values_of (device_m2 secret enc) Tlv.EncryptedData = Some enc) as -> by tlv_value.
  cbn [ok_or map_err mbind outcome_bind]. rewrite X25519PublicKey_from_bytes_ok. cbn [map_err mbind outcome_bind].
  rewrite (x_dh_comm secret) in Hk. unfold expand_fixed32, HkdfSha512_expand, diffie_hellman. rewrite Heph, Hk.
  cbn [ok_or map_err mbind outcome_bind]. apply hkdf_length in Hk. rewrite (Cipher_new_ok k Hk). cbn [map_err mbind outcome_bind].
  rewrite !(Nonce_from_bytes_ok (label_nonce _)) by done. cbn [map_err mbind outcome_bind].
  assert (PairingServer.nonce_of_prefix (bs "PV-Msg02") <> label_nonce (bs "PV-Msg02")) as Hne by (vm_compute; discriminate).
  unfold Cipher_decrypt. by rewrite (Hauth k (PairingServer.nonce_of_prefix (bs "PV-Msg02")) (label_nonce (bs "PV-Msg02")) m enc eq_refl eq_refl Hne Henc).
Qed.

End WithCrypto.

(** ** Witnesses *)
Import ToyAead.
#[local] Existing Instance toy_pair_crypto.
#[local] Existing Instance toy_pair_crypto_laws.

Definition demo_keys : PairingKeys := mkKeys (bs "airplay2-rs") (replicate 32 7) [] [].

Lemma verify_authenticates_witness : exists s0 s1,
  PairVerify_new demo_keys (ed_public [5]) [9] = Ok s0 /\ step s0 None = (Ok (SendData (Tlv.encode_all (PairingServer.verify_m1_items [9]))), s1) /\
  safe (step s1 (Some [6; 1; 2])).1.
Proof.
  eexists _, _. split; [reflexivity|]. split; [reflexivity|].
  refine (proj1 (proj2 (proj2 (verify_authenticates demo_keys (ed_public [5]) [9] _ _ eq_refl _))) (Some [6; 1; 2])).
  apply rtc_once. by exists None.
Defined.

Lemma verify_completes_witness : exists s0 s1,
  PairVerify_new demo_keys (ed_public [5]) [9] = Ok s0 /\ step s0 None = (Ok (SendData (Tlv.encode_all (PairingServer.verify_m1_items [9]))), s1).
Proof.
  destruct (verify_completes demo_keys [5] [9] [11] (bs "device") eq_refl) as (s0 & s1 & k & enc & s2 & enc3 & s3 & ck & H1 & H2 & _);
    [cbn; lia..|]. exists s0, s1. split; [exact H1|exact H2].
Defined.

(** The toy cipher's tag contains the nonce. *)
Lemma toy_nonce_separation (k n n' m c : list Z) : length n = 12%nat -> length n' = 12%nat -> n <> n' ->
  aead_seal k n [] m = Some c -> aead_open k n' [] c = None.
Proof.
  intros Hn Hn' Hne. cbn [aead_seal aead_open toy_aead]. case_match; [|done]. intros [= <-].
  rewrite length_app, length_toy_tag. replace (length m + 16 - 16)%nat with (length m) by lia.
  rewrite drop_app_length, bool_decide_eq_false_2, andb_false_r; [done|].
  unfold toy_tag. intros E. apply app_inj_2 in E as [E _]; [|done].
  apply (f_equal (take 12)) in E. rewrite !take_take in E. cbn [Nat.min] in E. by rewrite !take_app_length' in E by done.
Qed.

Lemma own_server_rejected_witness : exists s1 m1 r srv',
  PairingServer.process_pair_verify (PairingServer.PairingServer_new [3] []) m1 [8] = Ok (r, srv') /\
  step s1 (Some (PairingServer.response r)) = (Err (ECrypto AesCtr.DecryptionFailed), s1).
Proof.
  eexists _, _. eapply (own_server_rejected demo_keys (ed_public [5]) [9] [8]).
  - exact toy_nonce_separation.
  - reflexivity.
  - reflexivity.
Defined.

End PairVerify.
