(* ===== verification/Hap.v ===== *)
(** * The client's secure session

    Models [src/net/secure.rs] ([HapSecureSession]) and the loop of
    [src/connection/manager.rs] that turns what the socket delivers into blocks
    ([send_rtsp_request]).  A block is its length, the ciphertext and the tag;
    the length is authenticated as associated data. *)

From S2P Require Import Bytes Text Aead EncryptedChannel.
Import Aead.

Module Hap.

(** The errors of [src/error/mod.rs] that these paths return. *)
Inductive AirPlayError :=
| RtspError (message : string) (status_code : option Z)
| AuthenticationFailed (message : string) (recoverable : bool)
| Disconnected (device_name : string).

Record HapSecureSession := mkSession {
  encrypt_cipher : list Z;
  decrypt_cipher : list Z;
  encrypt_count : Z;
  decrypt_count : Z
}.

Definition Session_new (encrypt_key decrypt_key : list Z) : HapSecureSession := mkSession encrypt_key decrypt_key 0 0.

Definition BLOCK : nat := Z.to_nat 1024.

(** Four zero bytes and the counter. *)
Definition count_nonce (n : Z) : list Z := replicate 4 0 ++ to_le 8 n.

Section WithAead.
Context {A : AeadCipher}.

(** One round per chunk; a failure drops the output, not the count. *)
Fixpoint encrypt_chunks (key : list Z) (count : Z) (cs : list (list Z)) : outcome AirPlayError (list Z) * Z :=
  match cs with
  | [] => (Ok [], count)
  | chunk :: cs =>
      if 65535 <? Z.of_nat (length chunk) then (Err (RtspError "Chunk size exceeds u16" None), count)
      else
        let len_bytes := to_le 2 (Z.of_nat (length chunk)) in
        match aead_seal key (count_nonce count) len_bytes chunk with
        | None => (Err (AuthenticationFailed "Encryption failed" false), count)
        | Some buffer_and_tag =>
            match chk_u (E := AirPlayError) 64 (count + 1) with
            | Ok n =>
                let '(rest, m) := encrypt_chunks key n cs in
                (app (len_bytes ++ buffer_and_tag) <$> rest, m)
            | _ => (Panic, count)
            end
        end
  end.

Definition encrypt (s : HapSecureSession) (data : list Z) : outcome AirPlayError (list Z) * HapSecureSession :=
  let '(r, n) := encrypt_chunks (encrypt_cipher s) (encrypt_count s) (chunks BLOCK data) in
  (r, mkSession (encrypt_cipher s) (decrypt_cipher s) n (decrypt_count s)).

(** The message and the input that remains; the count moves only on success. *)
Definition decrypt_block (s : HapSecureSession) (data : list Z)
  : outcome AirPlayError (list Z * list Z) * HapSecureSession :=
  if (length data <? 18)%nat then (Err (RtspError "Buffer too small for HAP block" None), s)
  else
    let len := Z.to_nat (from_le (take 2 data)) in
    if (length data <? 2 + len + 16)%nat then (Err (RtspError "Incomplete HAP block" None), s)
    else
      match aead_open (decrypt_cipher s) (count_nonce (decrypt_count s)) (take 2 data) (take (len + 16) (drop 2 data)) with
      | None => (Err (AuthenticationFailed "Decryption failed" false), s)
      | Some buffer =>
          match chk_u (E := AirPlayError) 64 (decrypt_count s + 1) with
          | Ok n => (Ok (buffer, drop (2 + len + 16) data), mkSession (encrypt_cipher s) (decrypt_cipher s) (encrypt_count s) n)
          | _ => (Panic, s)
          end
      end.

(** *** The read loop
    What a block decrypts to goes to a sink: the client feeds its RTSP codec. *)
Section Sink.
Context {X : Type} (sink : X -> list Z -> outcome AirPlayError X).

(** [while encrypted_buf.len() >= 2]: decrypts the complete blocks; [None] is "out of
    fuel".  The state is the session, what is left of the buffer, and the sink's. *)
Fixpoint take_blocks_fuel (fuel : nat) (s : HapSecureSession) (buf : list Z) (x : X)
  : option (outcome AirPlayError unit * (HapSecureSession * list Z * X)) :=
  match fuel with
  | O => None
  | S fuel =>
      if (length buf <? 2)%nat then Some (Ok tt, (s, buf, x))
      else
        let total_len := (2 + Z.to_nat (from_le (take 2 buf)) + 16)%nat in
        if (length buf <? total_len)%nat then Some (Ok tt, (s, buf, x))
        else
          let rest := drop total_len buf in
          match decrypt_block s (take total_len buf) with
          | (Ok (decrypted, _), s') =>
              match sink x decrypted with
              | Ok x' => take_blocks_fuel fuel s' rest x'
              | Err e => Some (Err e, (s', rest, x))
              | Panic => Some (Panic, (s', rest, x))
              end
          | (Err e, s') => Some (Err e, (s', rest, x))
          | (Panic, s') => Some (Panic, (s', rest, x))
          end
  end.

(** Every round takes at least 18 bytes out of the buffer. *)
Definition take_blocks (s : HapSecureSession) (buf : list Z) (x : X)
  : outcome AirPlayError unit * (HapSecureSession * list Z * X) :=
  default (Panic, (s, buf, x)) (take_blocks_fuel (S (length buf)) s buf x).

(** One read after the other. *)
Fixpoint take_reads (s : HapSecureSession) (buf : list Z) (x : X) (reads : list (list Z))
  : outcome AirPlayError unit * (HapSecureSession * list Z * X) :=
  match reads with
  | [] => (Ok tt, (s, buf, x))
  | r :: reads =>
      match take_blocks s (buf ++ r) x with
      | (Ok _, (s', buf', x')) => take_reads s' buf' x' reads
      | other => other
      end
  end.

(** The sink after a list of blocks. *)
Fixpoint sink_all (x : X) (ds : list (list Z)) : outcome AirPlayError X :=
  match ds with
  | [] => Ok x
  | d :: ds => x' ← sink x d; sink_all x' ds
  end.

Lemma sink_all_app x ds ds' : sink_all x (ds ++ ds') = (x' ← sink_all x ds; sink_all x' ds').
Proof. revert x. induction ds as [|d ds IH]; intros x; [done|]. cbn. destruct (sink x d); cbn; [apply IH|done|done]. Qed.

Lemma take_blocks_fuel_total f : forall s buf x, (length buf < f)%nat ->
  exists res, forall g, (f <= g)%nat -> take_blocks_fuel g s buf x = Some res.
Proof.
  induction f as [|f IH]; intros s buf x Hf; [lia|].
  destruct (Nat.ltb_spec (length buf) 2) as [Hs|Hs].
  { eexists. intros [|g] Hg; [lia|]. cbn [take_blocks_fuel]. by rewrite (proj2 (Nat.ltb_lt _ _)) by lia. }
  set (total := (2 + Z.to_nat (from_le (take 2 buf)) + 16)%nat).
  destruct (Nat.ltb_spec (length buf) total) as [Ht|Ht].
  { eexists. intros [|g] Hg; [lia|]. cbn [take_blocks_fuel]. fold total. rewrite (proj2 (Nat.ltb_ge _ 2)) by lia.
    by rewrite (proj2 (Nat.ltb_lt _ _)) by lia. }
  assert (forall g, take_blocks_fuel (S g) s buf x =
    match decrypt_block s (take total buf) with
    | (Ok (decrypted, _), s') =>
        match sink x decrypted with
        | Ok x' => take_blocks_fuel g s' (drop total buf) x'
        | Err e => Some (Err e, (s', drop total buf, x))
        | Panic => Some (Panic, (s', drop total buf, x))
        end
    | (Err e, s') => Some (Err e, (s', drop total buf, x))
    | (Panic, s') => Some (Panic, (s', drop total buf, x))
    end) as E.
  { intros g. cbn [take_blocks_fuel]. fold total. by rewrite !(proj2 (Nat.ltb_ge _ _)) by lia. }
  destruct (decrypt_block s (take total buf)) as [[[m rest]|e|] s'] eqn:Hd.
  2,3: eexists; intros [|g] Hg; [lia|apply E].
  destruct (sink x m) as [x'|e|] eqn:Hx.
  2,3: eexists; intros [|g] Hg; [lia|apply E].
  destruct (IH s' (drop total buf) x') as [res Hr]; [rewrite length_drop; unfold total in *; lia|].
  exists res. intros [|g] Hg; [lia|]. rewrite E. by rewrite Hr by lia.
Qed.

(** The loop's equation; the fuel is immaterial. *)
Lemma take_blocks_eq s buf x : take_blocks s buf x =
  if (length buf <? 2)%nat then (Ok tt, (s, buf, x))
  else
    let total_len := (2 + Z.to_nat (from_le (take 2 buf)) + 16)%nat in
    if (length buf <? total_len)%nat then (Ok tt, (s, buf, x))
    else
      match decrypt_block s (take total_len buf) with
      | (Ok (decrypted, _), s') =>
          match sink x decrypted with
          | Ok x' => take_blocks s' (drop total_len buf) x'
          | Err e => (Err e, (s', drop total_len buf, x))
          | Panic => (Panic, (s', drop total_len buf, x))
          end
      | (Err e, s') => (Err e, (s', drop total_len buf, x))
      | (Panic, s') => (Panic, (s', drop total_len buf, x))
      end.
Proof.
  unfold take_blocks at 1. remember (length buf) as n eqn:Hn. cbn [take_blocks_fuel]. rewrite <- Hn.
  destruct (Nat.ltb_spec n 2) as [|H2]; [done|]. cbv zeta.
  set (total := (2 + Z.to_nat (from_le (take 2 buf)) + 16)%nat).
  destruct (Nat.ltb_spec n total) as [|Ht]; [done|].
  destruct (decrypt_block s (take total buf)) as [[[m rest]|e|] s'] eqn:Hd; [|done..].
  destruct (sink x m) as [x'|e|]; [|done..].
  unfold take_blocks. destruct (take_blocks_fuel_total (S (length (drop total buf))) s' (drop total buf) x') as [res Hr]; [lia|].
  rewrite (Hr n) by (rewrite length_drop, <- Hn; unfold total in *; lia). by rewrite Hr by lia.
Qed.
End Sink.

(** ** The stream of blocks *)
Context {AL : AeadLaws A}.

Fixpoint blocks (key : list Z) (n : Z) (cs : list (list Z)) (w : list Z) : Prop :=
  match cs with
  | [] => w = []
  | c :: cs => exists b w', aead_seal key (count_nonce n) (to_le 2 (Z.of_nat (length c))) c = Some b /\
      blocks key (n + 1) cs w' /\ w = to_le 2 (Z.of_nat (length c)) ++ b ++ w'
  end.

Lemma encrypt_blocks key cs : forall n, Forall (fun c => (length c <= BLOCK)%nat) cs ->
  0 <= n -> n + Z.of_nat (length cs) < 2 ^ 64 ->
  exists w, encrypt_chunks key n cs = (Ok w, n + Z.of_nat (length cs)) /\ blocks key n cs w.
Proof.
  induction cs as [|c cs IH]; intros n Hcs Hn1 Hn2; [exists []; cbn; by rewrite Z.add_0_r|].
  apply Forall_cons in Hcs as [Hc Hcs]. unfold BLOCK in Hc. cbn [length] in Hn2.
  destruct (aead_seal_total key (count_nonce n) (to_le 2 (Z.of_nat (length c))) c) as [b Hb]; [lia|].
  destruct (IH (n + 1)) as (w & Hw & Hbl); [done|lia|lia|].
  exists ((to_le 2 (Z.of_nat (length c)) ++ b) ++ w). cbn [encrypt_chunks].
  rewrite (proj2 (Z.ltb_ge _ _)) by lia. rewrite Hb, chk_u_ok, Hw by (unfold uint; lia). split.
  - cbn. f_equal. lia.
  - exists b, w. split_and!; [done|done|]. by rewrite <- app_assoc.
Qed.

Definition set_decrypt (s : HapSecureSession) (n : Z) : HapSecureSession :=
  mkSession (encrypt_cipher s) (decrypt_cipher s) (encrypt_count s) n.

(** The receiver is in the middle of the stream: the chunks [cs] are still to come. *)
Definition expects (s : HapSecureSession) (buf : list Z) (cs : list (list Z)) (w : list Z) : Prop :=
  Forall (fun c => (length c <= BLOCK)%nat) cs /\ 0 <= decrypt_count s /\
  decrypt_count s + Z.of_nat (length cs) < 2 ^ 64 /\ blocks (decrypt_cipher s) (decrypt_count s) cs (buf ++ w).

Definition drained (buf : list Z) (cs : list (list Z)) : Prop :=
  match cs with [] => buf = [] | c :: _ => (length buf < length c + 18)%nat end.

Lemma length_prefix (c rest : list Z) : (length c <= BLOCK)%nat ->
  Z.to_nat (from_le (take 2 (to_le 2 (Z.of_nat (length c)) ++ rest))) = length c.
Proof.
  intros Hc. rewrite take_app_length' by (by rewrite length_to_le).
  rewrite from_le_to_le, Z.mod_small; unfold BLOCK in *; lia.
Qed.

(** A complete block at the head of the buffer is decrypted. *)
Lemma decrypt_block_head s c cs buf w : expects s buf (c :: cs) w -> (length c + 18 <= length buf)%nat ->
  Z.to_nat (from_le (take 2 buf)) = length c /\
  (exists rest, decrypt_block s (take (2 + length c + 16) buf) = (Ok (c, rest), set_decrypt s (decrypt_count s + 1))) /\
  expects (set_decrypt s (decrypt_count s + 1)) (drop (2 + length c + 16) buf) cs w.
Proof.
  intros (Hcs & Hn1 & Hn2 & b & w' & Hseal & Hb & E) Hlen. apply Forall_cons in Hcs as [Hc Hcs]. cbn [length] in Hn2.
  pose proof (aead_seal_length _ _ _ _ _ Hseal) as Hlb. apply aead_seal_open in Hseal.
  set (hd := to_le 2 (Z.of_nat (length c))) in *. assert (length hd = 2)%nat as Hlh by apply length_to_le.
  assert (take (2 + length c + 16) buf = hd ++ b) as Hfr.
  { apply (f_equal (take (2 + length c + 16))) in E. rewrite take_app_le in E by lia.
    rewrite E, app_assoc. rewrite take_app_length'; [done|]. rewrite length_app. lia. }
  set (buf' := drop (2 + length c + 16) buf).
  assert (buf = (hd ++ b) ++ buf') as Hbuf by (unfold buf'; by rewrite <- Hfr, take_drop).
  assert (Z.to_nat (from_le hd) = length c) as Hh.
  { pose proof (length_prefix c [] Hc) as Hp. by rewrite app_nil_r, take_ge in Hp by (rewrite length_to_le; lia). }
  split_and!.
  - rewrite Hbuf, <- app_assoc, take_app_length' by done. done.
  - rewrite Hfr. unfold decrypt_block. rewrite length_app, Hlh, Hlb.
    rewrite (proj2 (Nat.ltb_ge _ 18)) by lia. rewrite take_app_length', Hh by done.
    rewrite (proj2 (Nat.ltb_ge _ _)) by lia. rewrite drop_app_length' by done. rewrite take_ge by lia.
    rewrite Hseal, chk_u_ok by (unfold uint; lia). by eexists.
  - split_and!; [done|cbn; lia|cbn; lia|]. rewrite Hbuf, <- !app_assoc in E.
    apply app_inv_head in E. apply app_inv_head in E. by rewrite E.
Qed.

(** An incomplete one is left alone. *)
Lemma take_blocks_wait {X} sink (x : X) s buf cs w : expects s buf cs w -> drained buf cs -> take_blocks sink s buf x = (Ok tt, (s, buf, x)).
Proof.
  intros (Hcs & _ & _ & Hb) Hd. rewrite take_blocks_eq. destruct cs as [|c cs]; cbn in Hd; [by subst|].
  apply Forall_cons in Hcs as [Hc _]. destruct Hb as (b & w' & _ & _ & E).
  destruct (Nat.ltb_spec (length buf) 2) as [|H2]; [done|].
  assert (Z.to_nat (from_le (take 2 buf)) = length c) as ->.
  { apply (f_equal (take 2)) in E. rewrite take_app_le in E by done. rewrite E. by apply length_prefix. }
  cbv zeta. by rewrite (proj2 (Nat.ltb_lt _ _)) by lia.
Qed.

Lemma expects_drained_dec s buf cs w : expects s buf cs w ->
  drained buf cs \/ exists c cs', cs = c :: cs' /\ (length c + 18 <= length buf)%nat.
Proof.
  intros (_ & _ & _ & Hb). destruct cs as [|c cs]; [left|].
  - cbn in Hb. by apply app_eq_nil in Hb as [-> _].
  - destruct (Nat.le_gt_cases (length c + 18) (length buf)); [right; eauto|by left].
Qed.

(** Complete blocks are decrypted, as long as the sink takes them. *)
Lemma take_blocks_expects {X} sink cs : forall (x : X) s buf w, expects s buf cs w ->
  (forall k, (k <= length cs)%nat -> exists x', sink_all sink x (take k cs) = Ok x') ->
  exists k buf' x', take_blocks sink s buf x = (Ok tt, (set_decrypt s (decrypt_count s + Z.of_nat k), buf', x')) /\
    sink_all sink x (take k cs) = Ok x' /\ (k <= length cs)%nat /\
    expects (set_decrypt s (decrypt_count s + Z.of_nat k)) buf' (drop k cs) w /\ drained buf' (drop k cs).
Proof.
  induction cs as [|c cs IH]; intros x s buf w Hex Hsink.
  - destruct (expects_drained_dec _ _ _ _ Hex) as [Hd|(? & ? & ? & _)]; [|done].
    exists 0%nat, buf, x. rewrite (take_blocks_wait _ _ _ _ _ _ Hex Hd), Z.add_0_r. destruct s. by split_and!.
  - destruct (expects_drained_dec _ _ _ _ Hex) as [Hd|(c' & cs' & [= <- <-] & Hlen)].
    { exists 0%nat, buf, x. rewrite (take_blocks_wait _ _ _ _ _ _ Hex Hd), Z.add_0_r. destruct s. split_and!; done || lia. }
    destruct (decrypt_block_head _ _ _ _ _ Hex Hlen) as (Hl & (rest & Hdec) & Hex').
    destruct (Hsink 1%nat) as [x1 Hx1]; [cbn; lia|]. cbn in Hx1. destruct (sink x c) as [x1'|e|] eqn:Hx; cbn [mbind outcome_bind take sink_all] in Hx1; [|done..]. injection Hx1 as ->.
    destruct (IH x1 (set_decrypt s (decrypt_count s + 1)) (drop (2 + length c + 16) buf) w) as (k & buf' & x' & Ht & Hs & Hk & Hex2 & Hdr).
    { done. }
    { intros k Hk. destruct (Hsink (S k)) as [x' Hx']; [cbn; lia|]. cbn in Hx'. rewrite Hx in Hx'. exists x'. exact Hx'. }
    exists (S k), buf', x'. unfold set_decrypt in *. cbn [decrypt_count encrypt_cipher decrypt_cipher encrypt_count] in *.
    replace (decrypt_count s + Z.of_nat (S k)) with (decrypt_count s + 1 + Z.of_nat k) by lia.
    split_and!; [|cbn; by rewrite Hx|cbn; lia|done|done].
    rewrite take_blocks_eq, (proj2 (Nat.ltb_ge _ 2)) by lia. rewrite Hl. cbv zeta.
    rewrite (proj2 (Nat.ltb_ge _ _)) by lia. by rewrite Hdec, Hx.
Qed.

Lemma expects_read s buf cs r w : expects s buf cs (r ++ w) -> expects s (buf ++ r) cs w.
Proof. intros (H1 & H2 & H3 & H4). split_and!; try done. by rewrite <- app_assoc. Qed.

Lemma take_reads_expects {X} sink reads : forall (x : X) s buf cs w, expects s buf cs (concat reads ++ w) -> drained buf cs ->
  (forall k, (k <= length cs)%nat -> exists x', sink_all sink x (take k cs) = Ok x') ->
  exists k buf' x', take_reads sink s buf x reads = (Ok tt, (set_decrypt s (decrypt_count s + Z.of_nat k), buf', x')) /\
    sink_all sink x (take k cs) = Ok x' /\ (k <= length cs)%nat /\
    expects (set_decrypt s (decrypt_count s + Z.of_nat k)) buf' (drop k cs) w /\ drained buf' (drop k cs).
Proof.
  induction reads as [|r reads IH]; intros x s buf cs w Hex Hdr Hsink.
  { exists 0%nat, buf, x. cbn [concat app take drop take_reads] in *. rewrite Z.add_0_r. destruct s. split_and!; done || lia. }
  cbn [concat] in Hex. rewrite <- app_assoc in Hex. apply expects_read in Hex.
  destruct (take_blocks_expects sink cs x _ _ _ Hex Hsink) as (k & b1 & x1 & H1 & Hs1 & Hk & Hex1 & Hdr1).
  destruct (IH x1 _ _ _ w Hex1 Hdr1) as (j & b2 & x2 & H2 & Hs2 & Hj & Hex2 & Hdr2).
  { intros j Hj. rewrite length_drop in Hj. destruct (Hsink (k + j)%nat) as [x' Hx']; [lia|].
    rewrite <- take_take_drop, sink_all_app, Hs1 in Hx'. by exists x'. }
  exists (k + j)%nat, b2, x2. rewrite drop_drop in Hex2, Hdr2. rewrite length_drop in Hj.
  cbn [set_decrypt decrypt_count] in *. rewrite <- Z.add_assoc, <- Nat2Z.inj_add in H2, Hex2.
  split_and!; [|by rewrite <- take_take_drop, sink_all_app, Hs1|lia|done|done]. cbn [take_reads]. by rewrite H1, H2.
Qed.

(** A sink that keeps everything. *)
Definition keep (x d : list Z) : outcome AirPlayError (list Z) := Ok (x ++ d).

Lemma keep_all x ds : sink_all keep x ds = Ok (x ++ concat ds).
Proof. revert x. induction ds as [|d ds IH]; intros x; cbn; [by rewrite app_nil_r|]. by rewrite IH, app_assoc. Qed.

Lemma blocks_exact key cs : forall n w, blocks key n cs w -> match cs with [] => w = [] | c :: _ => (length c + 18 <= length w)%nat end.
Proof.
  intros n w. destruct cs as [|c cs]; [done|]. intros (b & w' & Hb & _ & ->). apply aead_seal_length in Hb.
  rewrite !length_app, length_to_le. lia.
Qed.

(** ** Properties *)

(** The secure session is a reliable byte stream. What one end encrypts, the
    other end, with the same key and block count, recovers: encrypting succeeds for
    any data, and however the bytes are cut into reads and wherever the reads stop,
    the blocks that are complete have been decrypted in order to a prefix of the
    data, with the rest of the ciphertext waiting in the buffer; when all bytes are
    there all data is, the buffer is empty and the counts agree. *)
Theorem session_delivery (s r : HapSecureSession) (data : list Z)
  (Hkey : encrypt_cipher s = decrypt_cipher r) (Hcount : encrypt_count s = decrypt_count r)
  (Hn : 0 <= encrypt_count s) (Hover : encrypt_count s + Z.of_nat (length (chunks BLOCK data)) < 2 ^ 64) :
  exists w s', encrypt s data = (Ok w, s') /\
  forall reads later, concat reads ++ later = w ->
  exists k r' buf, take_reads keep r [] [] reads = (Ok tt, (r', buf, concat (take k (chunks BLOCK data)))) /\
    (k <= length (chunks BLOCK data))%nat /\
    (later = [] -> concat (take k (chunks BLOCK data)) = data /\ buf = [] /\ decrypt_count r' = encrypt_count s').
Proof.
  assert (Forall (fun c => (length c <= BLOCK)%nat) (chunks BLOCK data)) as Hc.
  { eapply Forall_impl; [apply chunks_bound; unfold BLOCK; lia|]. cbn. lia. }
  destruct (encrypt_blocks (encrypt_cipher s) _ (encrypt_count s) Hc Hn Hover) as (w & Hw & Hb).
  exists w. eexists. unfold encrypt. rewrite Hw. split; [done|]. intros reads later Hcat.
  destruct (take_reads_expects keep reads [] r [] (chunks BLOCK data) later) as (k & buf & x & Hr & Hx & Hk & (_ & _ & _ & Hbl) & Hdr).
  - split_and!; [done|lia|lia|]. cbn [app]. by rewrite Hcat, <- Hkey, <- Hcount.
  - unfold drained. destruct (chunks BLOCK data); [done|cbn; lia].
  - intros k _. rewrite keep_all. eauto.
  - rewrite keep_all in Hx. injection Hx as <-. exists k. eexists _, buf. split_and!; [exact Hr|done|]. intros ->. rewrite app_nil_r in Hbl.
    apply blocks_exact in Hbl. unfold drained in Hdr. destruct (drop k (chunks BLOCK data)) as [|c cs] eqn:E; [|lia].
    assert (take k (chunks BLOCK data) = chunks BLOCK data) as ->.
    { rewrite <- (take_drop k (chunks BLOCK data)) at 2. by rewrite E, app_nil_r. }
    apply (f_equal length) in E. rewrite length_drop in E. cbn in E.
    split_and!; [apply chunks_concat; unfold BLOCK; lia|done|]. cbn. lia.
Qed.

(** The client and the crate's own receiver cannot talk encrypted. The session
    authenticates the length of a block as associated data, the receiver's channel
    passes none: with a cipher that does not open a message under other associated
    data, the receiver fails on the first block of anything the client sends, even
    with the right key and count. *)
Theorem own_receiver_rejects (s : HapSecureSession) (c : EncryptedChannel.EncryptedChannel) (data : list Z)
  (Hauth : forall k n aad m ct, aad <> [] -> aead_seal k n aad m = Some ct -> aead_open k n [] ct = None)
  (Hdata : data <> []) (Hn : 0 <= encrypt_count s) (Hover : encrypt_count s + Z.of_nat (length (chunks BLOCK data)) < 2 ^ 64)
  (Hc : EncryptedChannel.enabled c = true) (Hlen : length (encrypt_cipher s) = 32%nat)
  (Hkey : EncryptedChannel.decrypt_key c = encrypt_cipher s) (Hcount : EncryptedChannel.decrypt_nonce c = encrypt_count s)
  (Hbuf : EncryptedChannel.input_buffer c = []) :
  exists w s', encrypt s data = (Ok w, s') /\
    (EncryptedChannel.decrypt_all (EncryptedChannel.feed c w)).1 = Err EncryptedChannel.DecryptionFailed.
Proof.
  assert (Forall (fun c => (length c <= BLOCK)%nat) (chunks BLOCK data)) as Hcs.
  { eapply Forall_impl; [apply chunks_bound; unfold BLOCK; lia|]. cbn. lia. }
  destruct (encrypt_blocks (encrypt_cipher s) _ (encrypt_count s) Hcs Hn Hover) as (w & Hw & Hb).
  exists w. eexists. unfold encrypt. rewrite Hw. split; [done|].
  destruct (chunks BLOCK data) as [|m ms] eqn:E.
  { pose proof (chunks_concat BLOCK data ltac:(unfold BLOCK; lia)) as Hcat. rewrite E in Hcat. by subst. }
  apply Forall_cons in Hcs as [Hm _]. cbn [length] in Hover. destruct Hb as (b & w' & Hseal & _ & ->).
  pose proof (aead_seal_length _ _ _ _ _ Hseal) as Hlb.
  apply Hauth in Hseal; [|by intros H; apply (f_equal length) in H; rewrite length_to_le in H].
  rewrite EncryptedChannel.decrypt_all_eq. unfold EncryptedChannel.decrypt.
  cbn [EncryptedChannel.feed EncryptedChannel.enabled EncryptedChannel.input_buffer EncryptedChannel.decrypt_key EncryptedChannel.decrypt_nonce].
  rewrite Hc, Hbuf, Hkey, Hcount. cbn [negb app]. unfold EncryptedChannel.LENGTH_SIZE, EncryptedChannel.TAG_SIZE.
  rewrite length_prefix by done. rewrite !length_app, length_to_le, Hlb. unfold BLOCK in Hm.
  rewrite !(proj2 (Nat.ltb_ge _ _)) by (unfold EncryptedChannel.MAX_FRAME_SIZE; lia).
  rewrite chk_u_ok, Cipher_new_ok by (done || unfold uint; lia). cbn [map_err mbind outcome_bind].
  rewrite drop_app_length' by (by rewrite length_to_le). rewrite take_app_length' by done.
  unfold Cipher_decrypt, Nonce_from_counter. unfold count_nonce in Hseal. by rewrite Hseal.
Qed.

End WithAead.

(** ** Witnesses *)
Import ToyAead.

Definition demo_data : list Z := replicate (Z.to_nat 1500) 65.

Lemma session_delivery_witness :
  exists w s', encrypt (Session_new EncryptedChannel.demo_key []) demo_data = (Ok w, s') /\
  exists r', take_reads keep (Session_new [] EncryptedChannel.demo_key) [] [] [take 1100 w; drop 1100 w] = (Ok tt, (r', [], demo_data)).
Proof.
  destruct (session_delivery (Session_new EncryptedChannel.demo_key []) (Session_new [] EncryptedChannel.demo_key) demo_data)
    as (w & s' & Hs & Hr); [reflexivity|reflexivity|cbn; lia|vm_compute; reflexivity|].
  exists w, s'. split; [exact Hs|]. destruct (Hr [take 1100 w; drop 1100 w] []) as (k & r' & buf & Ht & _ & Hall).
  { cbn [concat]. by rewrite !app_nil_r, take_drop. }
  destruct (Hall eq_refl) as (E & -> & _). rewrite E in Ht. exists r'. exact Ht.
Defined.

(** The last byte of the toy cipher's tag differs. *)
Lemma toy_aad_separation (k n aad m ct : list Z) : aad <> [] -> aead_seal k n aad m = Some ct -> aead_open k n [] ct = None.
Proof.
  intros Hne. cbn [aead_seal aead_open toy_aead]. case_match; [|done]. intros [= <-].
  rewrite length_app, length_toy_tag. replace (length m + 16 - 16)%nat with (length m) by lia.
  rewrite drop_app_length, bool_decide_eq_false_2, andb_false_r; [done|].
  unfold toy_tag. rewrite (bool_decide_eq_false_2 (aad = [])) by done. intros E. by apply app_inj_2 in E as [_ E].
Qed.

Lemma own_receiver_rejects_witness : exists w s',
  encrypt (Session_new EncryptedChannel.demo_key []) [1; 2; 3] = (Ok w, s') /\
  (EncryptedChannel.decrypt_all (EncryptedChannel.feed (EncryptedChannel.Channel_new [] EncryptedChannel.demo_key) w)).1
    = Err EncryptedChannel.DecryptionFailed.
Proof.
  apply (own_receiver_rejects (Session_new EncryptedChannel.demo_key []) (EncryptedChannel.Channel_new [] EncryptedChannel.demo_key) [1; 2; 3]).
  - exact toy_aad_separation.
  - discriminate.
  - cbn. lia.
  - vm_compute. reflexivity.
  - reflexivity.
  - reflexivity.
  - reflexivity.
  - reflexivity.
  - reflexivity.
Defined.

End Hap.
