(* ===== verification/RtspClient.v ===== *)
(** * RTSP responses and the client's request loop

    Models the client's incremental response parser [RtspCodec]
    ([src/protocol/rtsp/codec.rs]) and the exchange of
    [ConnectionManager::send_rtsp_request] ([src/connection/manager.rs]): the
    loop that reads, decrypts ([Hap]) and parses until the response with the
    request's [CSeq] is there.  The socket is the list of its reads. *)

From stdpp Require Import pretty.
From S2P Require Import Text Bytes Unicode Aead EncryptedChannel Rtsp RtspParser Hap.
Import Unicode Rtsp.

Module RtspClient.
Import RtspParser(of_chars, position, text, field_ok, line_of, line_ok, blank_line, printable).
Import Hap(AirPlayError, RtspError, Disconnected, HapSecureSession).

Inductive RtspCodecError :=
| Incomplete
| InvalidStatusLine (s : list Z)
| InvalidHeader (s : list Z)
| InvalidContentLength
| ResponseTooLarge (size : Z).

Inductive ParseState :=
| StatusLine
| HeadersState (version : string) (status : Z) (reason : string)
| BodyState (version : string) (status : Z) (reason : string) (headers : Headers) (content_length : nat).

Record RtspCodec := mkCodec { buffer : list Z; max_size : Z; state : ParseState }.

Definition codec_new : RtspCodec := mkCodec [] (1024 * 1024) StatusLine.
Definition with_max_size (c : RtspCodec) (size : Z) : RtspCodec := mkCodec (buffer c) size (state c).
Definition reset (c : RtspCodec) : RtspCodec := mkCodec [] (max_size c) StatusLine.

Definition feed (c : RtspCodec) (bytes : list Z) : outcome RtspCodecError RtspCodec :=
  let size := Z.of_nat (length (buffer c) + length bytes) in
  if max_size c <? size then Err (ResponseTooLarge size)
  else Ok (mkCodec (buffer c ++ bytes) (max_size c) (state c)).

Definition find_line_end (c : RtspCodec) : option nat := position [13; 10] (buffer c).

Definition parse_status_line (line : list Z) : outcome RtspCodecError (string * Z * string) :=
  match split_whitespace line with
  | version :: status :: rest =>
      s ← ok_or (parse_uint 16 (of_chars status)) (InvalidStatusLine line);
      Ok (of_chars version, s, of_chars (join_words rest))
  | _ => Err (InvalidStatusLine line)
  end.

(** Lines that are empty are skipped. *)
Fixpoint parse_header_lines (ls : list (list Z)) (h : Headers) : outcome RtspCodecError Headers :=
  match ls with
  | [] => Ok h
  | line :: rest =>
      if bool_decide (line = []) then parse_header_lines rest h
      else match split_at 58 line with
           | Some (name, value) => parse_header_lines rest (Headers_insert h (of_chars (trim name)) (of_chars (trim value)))
           | None => Err (InvalidHeader line)
           end
  end.

Definition parse_headers (c : RtspCodec) : outcome RtspCodecError (option (Headers * nat)) :=
  if bool_decide (take 2 (buffer c) = [13; 10]) then Ok (Some ([], 2%nat))
  else match position blank_line (buffer c) with
       | None => Ok None
       | Some header_end =>
           h ← parse_header_lines (split_crlf (from_utf8_lossy (take header_end (buffer c)))) [];
           Ok (Some (h, (header_end + 4)%nat))
       end.

(** [decode] is a loop over the state, which moves forward in each round: its three
    rounds, last one first. *)
Definition decode_body (c : RtspCodec) (v : string) (s : Z) (r : string) (h : Headers) (n : nat)
  : outcome RtspCodecError (option RtspResponse) * RtspCodec :=
  if (length (buffer c) <? n)%nat then (Ok None, mkCodec (buffer c) (max_size c) (BodyState v s r h n))
  else (Ok (Some {| version := v; status := s; reason := r; resp_headers := h; resp_body := take n (buffer c) |}),
        mkCodec (drop n (buffer c)) (max_size c) StatusLine).

Definition decode_headers (c : RtspCodec) (v : string) (s : Z) (r : string)
  : outcome RtspCodecError (option RtspResponse) * RtspCodec :=
  let here := mkCodec (buffer c) (max_size c) (HeadersState v s r) in
  match parse_headers c with
  | Ok (Some (h, body_start)) =>
      let content_length := Z.to_nat (default 0 (Headers_content_length h)) in
      let rest := drop body_start (buffer c) in
      if (content_length =? 0)%nat
      then (Ok (Some {| version := v; status := s; reason := r; resp_headers := h; resp_body := [] |}),
            mkCodec rest (max_size c) StatusLine)
      else decode_body (mkCodec rest (max_size c) (HeadersState v s r)) v s r h content_length
  | Ok None => (Ok None, here)
  | Err e => (Err e, here)
  | Panic => (Panic, here)
  end.

Definition decode_status (c : RtspCodec) : outcome RtspCodecError (option RtspResponse) * RtspCodec :=
  match find_line_end c with
  | Some line_end =>
      match parse_status_line (from_utf8_lossy (take line_end (buffer c))) with
      | Ok (v, s, r) => decode_headers (mkCodec (drop (line_end + 2) (buffer c)) (max_size c) StatusLine) v s r
      | Err e => (Err e, c)
      | Panic => (Panic, c)
      end
  | None => (Ok None, c)
  end.

Definition decode (c : RtspCodec) : outcome RtspCodecError (option RtspResponse) * RtspCodec :=
  match state c with
  | StatusLine => decode_status c
  | HeadersState v s r => decode_headers c v s r
  | BodyState v s r h n => decode_body c v s r h n
  end.

(** ** The client's request loop *)

(** [Display] of the codec's errors. *)
Definition codec_error_to_string (e : RtspCodecError) : string :=
  match e with
  | Incomplete => "incomplete data: need more bytes"
  | InvalidStatusLine l => String.append "invalid status line: " (of_chars l)
  | InvalidHeader l => String.append "invalid header: " (of_chars l)
  | InvalidContentLength => "invalid content length"
  | ResponseTooLarge n => String.append "response too large: " (String.append (pretty n) " bytes")
  end.

Definition codec_error (e : RtspCodecError) : AirPlayError := RtspError (codec_error_to_string e) None.
Definition codec_feed (c : RtspCodec) (d : list Z) : outcome AirPlayError RtspCodec := map_err codec_error (feed c d).

(** Both numbers are there and differ: the response to an earlier request. *)
Definition is_deferred (expected : option Z) (r : RtspResponse) : bool :=
  match expected, Headers_cseq (resp_headers r) with
  | Some e, Some n => negb (n =? e)
  | _, _ => false
  end.

(** The part of the loop that does not read: decode, and skip what is deferred;
    [None] is "out of fuel". *)
Fixpoint next_response_fuel (fuel : nat) (expected : option Z) (c : RtspCodec)
  : option (outcome AirPlayError (option RtspResponse) * RtspCodec) :=
  match fuel with
  | O => None
  | S fuel =>
      match decode c with
      | (Ok (Some r), c') => if is_deferred expected r then next_response_fuel fuel expected c' else Some (Ok (Some r), c')
      | (Ok None, c') => Some (Ok None, c')
      | (Err e, c') => Some (Err (codec_error e), c')
      | (Panic, c') => Some (Panic, c')
      end
  end.

(** Each response takes a byte at least. *)
Definition next_response (expected : option Z) (c : RtspCodec) : outcome AirPlayError (option RtspResponse) * RtspCodec :=
  default (Panic, c) (next_response_fuel (S (length (buffer c))) expected c).

(** The session, the codec and the ciphertext that waits for the rest of its block. *)
Definition LoopState : Type := option HapSecureSession * RtspCodec * list Z.

Section Loop.
Context {A : AeadCipher}.

Definition read_step (st : LoopState) (r : list Z) : outcome AirPlayError unit * LoopState :=
  let '(sec, c, encrypted_buf) := st in
  match sec with
  | Some s => let '(res, (s', b', c')) := Hap.take_blocks codec_feed s (encrypted_buf ++ r) c in (res, (Some s', c', b'))
  | None =>
      match codec_feed c r with
      | Ok c' => (Ok tt, (None, c', encrypted_buf))
      | Err e => (Err e, st)
      | Panic => (Panic, st)
      end
  end.

(** An empty read, or none at all any more, means that the peer has closed. *)
Fixpoint await_response (expected : option Z) (st : LoopState) (reads : list (list Z))
  : outcome AirPlayError RtspResponse * LoopState * list (list Z) :=
  let '(sec, c, encrypted_buf) := st in
  match next_response expected c with
  | (Ok (Some r), c') => (Ok r, (sec, c', encrypted_buf), reads)
  | (Ok None, c') =>
      match reads with
      | [] => (Err (Disconnected "unknown"), (sec, c', encrypted_buf), [])
      | r :: reads =>
          if bool_decide (r = []) then (Err (Disconnected "unknown"), (sec, c', encrypted_buf), reads)
          else match read_step (sec, c', encrypted_buf) r with
               | (Ok _, st') => await_response expected st' reads
               | (Err e, st') => (Err e, st', reads)
               | (Panic, st') => (Panic, st', reads)
               end
      end
  | (Err e, c') => (Err e, (sec, c', encrypted_buf), reads)
  | (Panic, c') => (Panic, (sec, c', encrypted_buf), reads)
  end.

(** The parts of [ConnectionManager] the exchange works on. *)
Record Connection := mkConnection { secure_session : option HapSecureSession; rtsp_codec : RtspCodec }.

(** The bytes written, the result, the connection afterwards and the reads that
    remain.  The buffer of incomplete blocks is local: it starts empty and what is
    in it at the end is gone. *)
Definition send_rtsp_request {O : HashOrder} (conn : Connection) (request : RtspRequest) (reads : list (list Z))
  : list Z * outcome AirPlayError RtspResponse * Connection * list (list Z) :=
  let encoded := RtspParser.request_encode request in
  let run (bytes : list Z) (sec : option HapSecureSession) :=
    let '(res, (sec', c', _), reads') :=
      await_response (Headers_cseq (headers request)) (sec, rtsp_codec conn, []) reads in
    (bytes, res, mkConnection sec' c', reads') in
  match secure_session conn with
  | Some s =>
      match Hap.encrypt s encoded with
      | (Ok bytes, s') => run bytes (Some s')
      | (Err e, s') => ([], Err e, mkConnection (Some s') (rtsp_codec conn), reads)
      | (Panic, s') => ([], Panic, mkConnection (Some s') (rtsp_codec conn), reads)
      end
  | None => run encoded None
  end.
End Loop.

(** ** Decoding consumes *)
Lemma decode_body_shorter c v s r h n res c' : (0 < n)%nat -> decode_body c v s r h n = (Ok (Some res), c') ->
  (length (buffer c') < length (buffer c))%nat /\ max_size c' = max_size c.
Proof.
  intros Hn. unfold decode_body. destruct (Nat.ltb_spec (length (buffer c)) n); [done|]. intros; simplify_eq/=.
  rewrite length_drop. split; [lia|done].
Qed.

Lemma decode_headers_shorter c v s r res c' : decode_headers c v s r = (Ok (Some res), c') ->
  (length (buffer c') < length (buffer c))%nat /\ max_size c' = max_size c.
Proof.
  unfold decode_headers. destruct (parse_headers c) as [[[h b]|]|e|] eqn:E; try done.
  assert (0 < b <= length (buffer c))%nat as Hb.
  { unfold parse_headers in E. case_bool_decide as H2.
    - simplify_eq. apply (f_equal length) in H2. rewrite length_take in H2. cbn [length] in H2. lia.
    - destruct (position blank_line (buffer c)) as [i|] eqn:Ei; [|done]. apply bind_ok in E as (h' & _ & E). simplify_eq.
      apply RtspParser.position_bound in Ei as [Hi _]. cbn in Hi. lia. }
  cbv zeta. destruct (Nat.eqb_spec (Z.to_nat (default 0 (Headers_content_length h))) 0).
  - intros; simplify_eq/=. rewrite length_drop. split; [lia|done].
  - intros [H1 H2]%decode_body_shorter; [|lia]. cbn in *. rewrite length_drop in H1. split; [lia|done].
Qed.

(** A body is only waited for when it is not empty. *)
Definition codec_ok (c : RtspCodec) : Prop := match state c with BodyState _ _ _ _ n => (0 < n)%nat | _ => True end.

Lemma decode_shorter c res c' : codec_ok c -> decode c = (Ok (Some res), c') ->
  (length (buffer c') < length (buffer c))%nat /\ max_size c' = max_size c.
Proof.
  unfold codec_ok, decode. destruct (state c) as [|v s r|v s r h n]; intros Hok.
  - unfold decode_status. destruct (find_line_end c) as [i|] eqn:Ei; [|done].
    apply RtspParser.position_bound in Ei as [Hi _]. cbn in Hi.
    destruct (parse_status_line _) as [[[v s] r]|e|]; try done. intros [H1 H2]%decode_headers_shorter. cbn in *.
    rewrite length_drop in H1. split; [lia|done].
  - apply decode_headers_shorter.
  - by apply decode_body_shorter.
Qed.

(** ** Responses on the wire *)
Section Wire.
Context {O : HashOrder} {OL : HashOrderLaws O}.

(** One word of version, a status of 16 bits, a reason of words separated by single
    blanks, headers that each fit a line, and a length that tells the truth. *)
Record response_ok (r : RtspResponse) : Prop := {
  version_ok : exists cv, text (version r) cv /\ no_ws cv /\ cv <> [];
  status_ok : uint 16 (status r);
  reason_ok : exists cr, text (reason r) cr /\ 13 ∉ cr /\ join_words (split_whitespace cr) = cr;
  fields_ok : Forall field_ok (resp_headers r);
  names_ok : headers_ok (resp_headers r);
  length_ok : default 0 (Headers_content_length (resp_headers r)) = Z.of_nat (length (resp_body r)) }.

(** The response as the client reads it. *)
Definition received (r : RtspResponse) : RtspResponse :=
  {| version := version r; status := status r; reason := reason r;
     resp_headers := hash_order (resp_headers r); resp_body := resp_body r |}.

(** The parts of an encoded response after the status line. *)
Definition header_bytes (r : RtspResponse) : list Z := concat (map encode_header (hash_order (resp_headers r))) ++ crlf.

Lemma encode_parts r : encode_response r =
  (bs (version r) ++ bs " " ++ bs (pretty (status r)) ++ bs " " ++ bs (reason r)) ++ crlf ++ header_bytes r ++ resp_body r.
Proof. unfold encode_response, header_bytes. by rewrite <- !app_assoc. Qed.

Lemma received_length r : response_ok r ->
  default 0 (Headers_content_length (hash_order (resp_headers r))) = Z.of_nat (length (resp_body r)).
Proof.
  intros H. rewrite <- (length_ok r H). unfold Headers_content_length.
  by rewrite (RtspParser.headers_get_perm (resp_headers r)) by (apply H || by rewrite hash_order_perm).
Qed.

(** *** The status line *)
Lemma status_line r : response_ok r -> exists l,
  bs (version r) ++ bs " " ++ bs (pretty (status r)) ++ bs " " ++ bs (reason r) = utf8_encode l /\ string_ok l /\ 13 ∉ l /\
  parse_status_line l = Ok (version r, status r, reason r).
Proof.
  intros Hr. destruct (version_ok r Hr) as (cv & Hv & Hws & Hne). destruct (reason_ok r Hr) as (cr & Hcr & H13 & Hj).
  destruct (RtspParser.pretty_spec 16 (status r) (status_ok r Hr) ltac:(lia)) as (Hd & Hpne & Hp).
  assert (Forall printable (bs (pretty (status r)))) as Hpr by (eapply Forall_impl; [exact Hd|]; unfold printable; cbn; lia).
  destruct (RtspParser.printable_ok _ Hpr) as (P1 & P2 & _ & P3 & P4).
  exists (cv ++ 32 :: bs (pretty (status r)) ++ 32 :: cr).
  pose proof Hv as [Bv Ov]. pose proof Hcr as [Br Or]. split_and!.
  - rewrite utf8_encode_app. change (32 :: bs (pretty (status r)) ++ 32 :: cr) with (bs " " ++ bs (pretty (status r)) ++ bs " " ++ cr).
    rewrite !utf8_encode_app, (ascii_encode (bs " ")), (ascii_encode (bs (pretty _))), Bv, Br by done. done.
  - apply Forall_app. split; [done|]. apply Forall_cons_2; [unfold scalar; lia|]. apply Forall_app. split; [done|].
    apply Forall_cons_2; [unfold scalar; lia|done].
  - rewrite not_elem_of_app, not_elem_of_cons, not_elem_of_app, not_elem_of_cons.
    split_and!; [by apply RtspParser.no_ws_avoid|lia|done|lia|done].
  - unfold parse_status_line. rewrite words_sep by done. rewrite words_sep; [|done| |done].
    + rewrite Hj. assert (of_chars (bs (pretty (status r))) = pretty (status r)) as ->.
      { unfold of_chars. by rewrite ascii_encode, sb_bs. }
      rewrite Hp. cbn. rewrite (RtspParser.of_chars_text _ _ Hv), (RtspParser.of_chars_text _ _ Hcr). done.
    + intros E. apply Hpne. rewrite <- (sb_bs (pretty (status r))), E. done.
Qed.

(** *** The headers *)
Lemma header_lines_ok hs ls h : Forall2 line_of hs ls -> headers_ok (h ++ hs) -> parse_header_lines ls h = Ok (h ++ hs).
Proof.
  intros Hl. revert h. induction Hl as [|kv l hs ls (_ & _ & Hne & _ & _ & cn & cv & Hs & Hn & Hv) Hls IH]; intros h Hok.
  - by rewrite app_nil_r.
  - cbn [parse_header_lines]. rewrite bool_decide_false, Hs, Hn, Hv by done.
    rewrite (cons_middle kv h hs), app_assoc in Hok |- *. destruct kv as [k v]. rewrite RtspParser.insert_fresh.
    + by apply IH.
    + apply (RtspParser.headers_ok_fresh h k v). unfold headers_ok in *. rewrite map_app in Hok. by apply NoDup_app in Hok as [? _].
Qed.

Lemma split_lines l ls : 13 ∉ l -> Forall line_ok ls -> split_crlf (l ++ concat (map (fun l => 13 :: 10 :: l) ls)) = l :: ls.
Proof.
  intros Hl Hls. revert l Hl. induction Hls as [|l' ls (_ & _ & _ & H13) Hls IH]; intros l Hl; cbn [map concat].
  - rewrite app_nil_r. by apply split_crlf_word.
  - cbn [app]. rewrite split_crlf_sep by done. by rewrite IH.
Qed.

(** What the parser makes of a prefix of the headers, the blank line and more. *)
Lemma parse_headers_prefix r c w tail : response_ok r -> buffer c ++ w = header_bytes r ++ tail ->
  parse_headers c = Ok (if (length (buffer c) <? length (header_bytes r))%nat then None
                        else Some (hash_order (resp_headers r), length (header_bytes r))).
Proof.
  intros Hr E. set (hs := hash_order (resp_headers r)). unfold header_bytes in *. fold hs in E |- *.
  assert (Forall field_ok hs) as Hf by (unfold hs; rewrite hash_order_perm; apply Hr).
  assert (headers_ok hs) as Hn by (unfold hs, headers_ok; rewrite hash_order_perm; apply Hr).
  destruct (RtspParser.field_lines hs Hf) as [ls Hls]. pose proof (RtspParser.line_of_ok _ _ Hls) as Hlo.
  unfold parse_headers. destruct Hls as [|kv l hs' ls Hl Hls].
  - cbn [map concat app crlf length] in *. change (crlf ++ tail) with (13 :: 10 :: tail) in E.
    destruct (buffer c) as [|c0 [|c1 b]]; cbn [app] in E; simplify_eq/=.
    + done.
    + done.
    + done.
  - assert (Forall2 line_of (kv :: hs') (l :: ls)) as Hsec by (by constructor).
    apply RtspParser.encode_headers_section in Hsec. cbn [map concat] in Hsec.
    change (13 :: 10 :: l) with (crlf ++ l) in Hsec. rewrite <- (app_assoc crlf), utf8_encode_app, (ascii_encode crlf), <- !app_assoc in Hsec by done.
    apply app_inv_head in Hsec. set (sec := l ++ concat (map (fun l => 13 :: 10 :: l) ls)) in *.
    apply Forall_cons in Hlo as [(Hok & Hne & _ & H13) Hlo].
    cbn [map concat] in E |- *. rewrite Hsec, <- !app_assoc in *. change (crlf ++ crlf ++ ?x) with (blank_line ++ x) in *. change (crlf ++ crlf) with blank_line in *.
    assert (position blank_line (buffer c ++ w) = Some (length (utf8_encode sec))) as Hpos by (rewrite E; by apply RtspParser.lines_position).
    rewrite bool_decide_false.
    2:{ intros E2. assert (take 2 (buffer c ++ w) = [13; 10]) as E3.
        { rewrite take_app_le; [done|]. apply (f_equal length) in E2. rewrite length_take in E2. cbn [length] in E2. lia. }
        rewrite E in E3. unfold sec in E3. destruct l as [|z l]; [done|]. apply not_elem_of_cons in H13 as [Hz _].
        apply Forall_cons in Hok as [Hsc _].
        assert (13 ∉ utf8_char z) as Hav.
        { pose proof (RtspParser.utf8_avoid 13 [z]) as Hu. unfold utf8_encode in Hu. cbn [map concat] in Hu. rewrite app_nil_r in Hu.
          apply Hu; [by constructor|lia|]. rewrite not_elem_of_cons. split; [done|apply not_elem_of_nil]. }
        unfold utf8_encode in E3. cbn [app map concat] in E3. rewrite <- app_assoc in E3.
        destruct (utf8_char z) as [|x y] eqn:Ez; [unfold utf8_char in Ez; by repeat case_match|].
        apply (f_equal head) in E3. cbn in E3. injection E3 as ->. apply Hav. by left. }
    rewrite (RtspParser.position_prefix _ _ _ _ Hpos). rewrite length_app. change (length blank_line) with 4%nat.
    destruct (Nat.ltb_spec (length (buffer c)) (length (utf8_encode sec) + 4)) as [|Hge]; [done|].
    assert (take (length (utf8_encode sec)) (buffer c) = utf8_encode sec) as ->.
    { rewrite <- (take_app_le _ w) by lia. rewrite E. apply take_app_length. }
    rewrite lossy_encode.
    2:{ unfold sec. apply Forall_app. split; [done|]. clear -Hlo. induction Hlo as [|l ls (Hl & _) Hls IH]; [apply Forall_nil_2|].
        cbn [map concat]. repeat (apply Forall_cons_2; [unfold scalar; lia|]). by apply Forall_app. }
    unfold sec. rewrite split_lines by done. rewrite (header_lines_ok (kv :: hs')); [done|by constructor|done].
Qed.

(** *** The codec in the middle of a stream *)

(** What the state says has been read of [r]; [u] is what has not been consumed. *)
Definition at_stage (st : ParseState) (r : RtspResponse) (u rest : list Z) : Prop :=
  match st with
  | StatusLine => u = encode_response r ++ rest
  | HeadersState v s rs => v = version r /\ s = status r /\ rs = reason r /\ u = header_bytes r ++ resp_body r ++ rest
  | BodyState v s rs h n => v = version r /\ s = status r /\ rs = reason r /\ h = hash_order (resp_headers r) /\
      n = length (resp_body r) /\ (0 < n)%nat /\ u = resp_body r ++ rest
  end.

(** The responses [rs] are being received, [w] is still to arrive. *)
Definition pending (c : RtspCodec) (rs : list RtspResponse) (w : list Z) : Prop :=
  Forall response_ok rs /\
  match rs with
  | [] => state c = StatusLine /\ buffer c ++ w = []
  | r :: rs' => at_stage (state c) r (buffer c ++ w) (concat (map encode_response rs'))
  end.

(** Either the response is handed out, or it is not all there. *)
Definition progress (c : RtspCodec) (r : RtspResponse) (rs : list RtspResponse) (w : list Z)
  (res : outcome RtspCodecError (option RtspResponse) * RtspCodec) : Prop :=
  exists c', max_size c' = max_size c /\
    ((res = (Ok None, c') /\ pending c' (r :: rs) w /\ w <> [] /\ (length (buffer c') <= length (buffer c))%nat) \/
     (res = (Ok (Some (received r)), c') /\ pending c' rs w /\ (length (buffer c') < length (buffer c))%nat)).

Lemma pending_start b m rs w : Forall response_ok rs -> b ++ w = concat (map encode_response rs) -> pending (mkCodec b m StatusLine) rs w.
Proof. intros Hrs E. split; [done|]. destruct rs as [|r rs]; [by split|]. done. Qed.

Lemma body_progress c r rs w : Forall response_ok (r :: rs) -> (0 < length (resp_body r))%nat ->
  buffer c ++ w = resp_body r ++ concat (map encode_response rs) ->
  progress c r rs w (decode_body c (version r) (status r) (reason r) (hash_order (resp_headers r)) (length (resp_body r))).
Proof.
  intros Hrs Hpos E. unfold decode_body. destruct (Nat.ltb_spec (length (buffer c)) (length (resp_body r))) as [Hlt|Hge].
  - eexists. split; [|left; refine (conj eq_refl (conj (conj Hrs _) (conj _ _)))]; [done|by split_and!| |done].
    intros ->. rewrite app_nil_r in E. rewrite E, length_app in Hlt. lia.
  - apply Forall_cons in Hrs as [_ Hrs].
    assert (take (length (resp_body r)) (buffer c) = resp_body r) as Ht.
    { rewrite <- (take_app_le _ w) by done. rewrite E. apply take_app_length. }
    assert (drop (length (resp_body r)) (buffer c) ++ w = concat (map encode_response rs)) as Hd.
    { rewrite <- drop_app_le by done. rewrite E. apply drop_app_length. }
    rewrite Ht. eexists. split; [|right; refine (conj eq_refl (conj _ _))]; [done|by apply pending_start|cbn; rewrite length_drop; lia].
Qed.

Lemma headers_progress c r rs w : Forall response_ok (r :: rs) ->
  buffer c ++ w = header_bytes r ++ resp_body r ++ concat (map encode_response rs) ->
  progress c r rs w (decode_headers c (version r) (status r) (reason r)).
Proof.
  intros Hrs E. pose proof (Forall_inv Hrs) as Hr. unfold decode_headers. rewrite (parse_headers_prefix r c w _ Hr E).
  assert (2 <= length (header_bytes r))%nat as Hh2 by (unfold header_bytes; rewrite length_app; cbn; lia).
  destruct (Nat.ltb_spec (length (buffer c)) (length (header_bytes r))) as [Hlt|Hge].
  - eexists. split; [|left; refine (conj eq_refl (conj (conj Hrs _) (conj _ _)))]; [done|by split_and!| |done].
    intros ->. rewrite app_nil_r in E. rewrite E, !length_app in Hlt. lia.
  - cbv zeta. rewrite (received_length r Hr), Nat2Z.id.
    assert (drop (length (header_bytes r)) (buffer c) ++ w = resp_body r ++ concat (map encode_response rs)) as Hd.
    { rewrite <- drop_app_le by done. rewrite E. apply drop_app_length. }
    destruct (Nat.eqb_spec (length (resp_body r)) 0) as [H0|H0].
    + apply length_zero_iff_nil in H0. exists (mkCodec (drop (length (header_bytes r)) (buffer c)) (max_size c) StatusLine).
      split; [done|right]. apply Forall_cons in Hrs as [_ Hrs].
      rewrite H0 in Hd. split; [unfold received; by rewrite H0|]. split; [by apply pending_start|cbn; rewrite length_drop; lia].
    + destruct (body_progress (mkCodec (drop (length (header_bytes r)) (buffer c)) (max_size c)
          (HeadersState (version r) (status r) (reason r))) r rs w) as (c' & Hm & Hc'); [done|lia|done|].
      exists c'. split; [done|]. cbn [buffer] in Hc'. rewrite length_drop in Hc'.
      destruct Hc' as [(-> & ? & ? & ?)|(-> & ? & ?)]; [left|right]; repeat (split; [done || lia|]); done || lia.
Qed.

Lemma decode_progress c r rs w : pending c (r :: rs) w -> progress c r rs w (decode c).
Proof.
  intros [Hrs Hst]. pose proof (Forall_inv Hrs) as Hr. unfold decode. destruct (state c) as [|v s rn|v s rn h n] eqn:Es; cbn in Hst.
  - destruct (status_line r Hr) as (l & El & Hok & H13 & Hp). rewrite encode_parts, El, <- !app_assoc in Hst.
    unfold decode_status, find_line_end.
    assert (position [13; 10] (buffer c ++ w) = Some (length (utf8_encode l))) as Hpos.
    { rewrite Hst. change (crlf ++ ?x) with (13 :: 10 :: x). apply RtspParser.position_crlf_first. by apply RtspParser.utf8_avoid. }
    rewrite (RtspParser.position_prefix _ _ _ _ Hpos). change (length [13; 10]) with 2%nat.
    destruct (Nat.ltb_spec (length (buffer c)) (length (utf8_encode l) + 2)) as [Hlt|Hge].
    + exists c. split; [done|left]. refine (conj eq_refl (conj (conj Hrs _) (conj _ _))); [| |done].
      * rewrite Es. cbn. by rewrite encode_parts, El, <- !app_assoc.
      * intros ->. rewrite app_nil_r in Hst. rewrite Hst, !length_app in Hlt. cbn in Hlt. lia.
    + assert (take (length (utf8_encode l)) (buffer c) = utf8_encode l) as ->.
      { rewrite <- (take_app_le _ w) by lia. rewrite Hst. apply take_app_length. }
      rewrite lossy_encode, Hp by done.
      assert (drop (length (utf8_encode l) + 2) (buffer c) ++ w = header_bytes r ++ resp_body r ++ concat (map encode_response rs)) as Hd.
      { rewrite <- drop_app_le by done. rewrite Hst, <- drop_drop, drop_app_length. by rewrite drop_app_length'. }
      destruct (headers_progress (mkCodec (drop (length (utf8_encode l) + 2) (buffer c)) (max_size c) StatusLine) r rs w Hrs Hd)
        as (c' & Hm & Hc'). exists c'. split; [done|]. cbn [buffer] in Hc'. rewrite length_drop in Hc'.
      destruct Hc' as [(-> & ? & ? & ?)|(-> & ? & ?)]; [left|right]; repeat (split; [done || lia|]); done || lia.
  - destruct Hst as (-> & -> & -> & E). by apply headers_progress.
  - destruct Hst as (-> & -> & -> & -> & -> & Hpos & E). by apply body_progress.
Qed.

Lemma decode_idle c w : pending c [] w -> decode c = (Ok None, c).
Proof.
  intros (_ & Hst & E). apply app_eq_nil in E as [Hb _]. unfold decode. rewrite Hst. unfold decode_status, find_line_end.
  rewrite Hb. by rewrite RtspParser.position_nil.
Qed.

(** ** The loop *)
Lemma next_response_stream ds : forall c f r rs w expected, pending c (ds ++ r :: rs) w ->
  Forall (fun d => is_deferred expected (received d) = true) ds -> is_deferred expected (received r) = false ->
  (length (buffer c) < f)%nat ->
  exists c', max_size c' = max_size c /\
    ((next_response_fuel f expected c = Some (Ok (Some (received r)), c') /\ pending c' rs w) \/
     (exists ds', next_response_fuel f expected c = Some (Ok None, c') /\ pending c' (ds' ++ r :: rs) w /\ w <> [] /\
        Forall (fun d => is_deferred expected (received d) = true) ds')) /\ (length (buffer c') <= length (buffer c))%nat.
Proof.
  induction ds as [|d ds IH]; intros c f r rs w expected Hp Hds Hr Hf; (destruct f as [|f]; [lia|]); cbn [app] in Hp.
  - destruct (decode_progress c r rs w Hp) as (c' & Hm & [(E & Hp' & Hw & Hl)|(E & Hp' & Hl)]); exists c'; cbn [next_response_fuel]; rewrite E.
    + split; [done|]. split; [|done]. right. exists []. by split_and!.
    + rewrite Hr. split; [done|]. split; [by left|lia].
  - apply Forall_cons in Hds as [Hd Hds].
    destruct (decode_progress c d _ w Hp) as (c' & Hm & [(E & Hp' & Hw & Hl)|(E & Hp' & Hl)]); cbn [next_response_fuel]; rewrite E.
    + exists c'. split; [done|]. split; [|done]. right. exists (d :: ds). split; [done|]. split; [done|]. split; [done|by constructor].
    + rewrite Hd. destruct (IH c' f r rs w expected Hp' Hds Hr ltac:(lia)) as (c2 & Hm2 & Hc2 & Hl2).
      exists c2. split; [congruence|]. split; [done|lia].
Qed.

Context {A : AeadCipher} {AL : AeadLaws A}.

(** The socket has still to deliver [w]; of the peer's text that leaves [u]. *)
Definition link (sec : option HapSecureSession) (encrypted_buf w u : list Z) : Prop :=
  match sec with
  | None => encrypted_buf = [] /\ u = w
  | Some s => exists cs, Hap.expects s encrypted_buf cs w /\ Hap.drained encrypted_buf cs /\ u = concat cs
  end.

(** The client is in step with its peer: the responses [rs] are coming, [w] is what
    the socket has still to deliver, and what is outstanding fits the codec. *)
Definition in_sync (st : LoopState) (rs : list RtspResponse) (w : list Z) : Prop :=
  let '(sec, c, encrypted_buf) := st in
  exists u, link sec encrypted_buf w u /\ pending c rs u /\ Z.of_nat (length (buffer c) + length u) <= max_size c.

Lemma link_end sec eb u : link sec eb [] u -> u = [].
Proof.
  destruct sec as [s|]; cbn; [|naive_solver]. intros (cs & (_ & _ & _ & Hb) & Hdr & ->). rewrite app_nil_r in Hb.
  apply Hap.blocks_exact in Hb. destruct cs as [|m cs]; cbn in Hdr; [done|lia].
Qed.

Lemma feed_fits c d : Z.of_nat (length (buffer c) + length d) <= max_size c ->
  codec_feed c d = Ok (mkCodec (buffer c ++ d) (max_size c) (state c)).
Proof. unfold codec_feed, feed. intros H. by rewrite (proj2 (Z.ltb_ge _ _)) by lia. Qed.

Lemma sink_fits cs : forall c, Z.of_nat (length (buffer c) + length (concat cs)) <= max_size c ->
  Hap.sink_all codec_feed c cs = Ok (mkCodec (buffer c ++ concat cs) (max_size c) (state c)).
Proof.
  induction cs as [|d cs IH]; intros c Hc; cbn [Hap.sink_all concat] in *; [rewrite app_nil_r; by destruct c|].
  rewrite length_app in Hc. rewrite feed_fits by lia. cbn [mbind outcome_bind].
  rewrite IH; cbn [buffer max_size state]; [by rewrite <- app_assoc|]. rewrite length_app. lia.
Qed.

Lemma pending_feed c rs d w : pending c rs (d ++ w) -> pending (mkCodec (buffer c ++ d) (max_size c) (state c)) rs w.
Proof.
  intros [H1 H2]. split; [done|]. cbn [state buffer]. destruct rs as [|r rs]; rewrite <- app_assoc; exact H2.
Qed.

(** A read keeps client and peer in step. *)
Lemma read_step_sync st rs r w : in_sync st rs (r ++ w) -> exists st', read_step st r = (Ok tt, st') /\ in_sync st' rs w.
Proof.
  destruct st as [[[s|] c] eb]; cbn [in_sync read_step link].
  - intros (u & (cs & Hex & Hdr & ->) & Hp & Hsz). apply Hap.expects_read in Hex.
    assert (forall k, concat cs = concat (take k cs) ++ concat (drop k cs)) as Ecs by (intros; by rewrite <- concat_app, take_drop).
    assert (forall k, Z.of_nat (length (buffer c) + length (concat (take k cs))) <= max_size c) as Hk
      by (intros k; rewrite (Ecs k), length_app in Hsz; lia).
    destruct (Hap.take_blocks_expects codec_feed cs c _ _ _ Hex) as (k & eb' & c' & -> & Hs & _ & Hex' & Hdr').
    { intros k _. eexists. by apply sink_fits. }
    rewrite sink_fits in Hs by done. injection Hs as <-. eexists. split; [done|].
    exists (concat (drop k cs)). rewrite (Ecs k) in Hp, Hsz. split; [by exists (drop k cs)|].
    split; [by apply pending_feed|]. cbn. rewrite !length_app in *. lia.
  - intros (u & (-> & ->) & Hp & Hsz). rewrite length_app in Hsz. rewrite feed_fits by lia. eexists. split; [done|].
    exists w. split; [done|]. split; [by apply pending_feed|]. cbn. rewrite length_app. lia.
Qed.

(** The loop returns the response it waits for, and stays in step. *)
Lemma await_sync expected r rs reads : forall st ds, in_sync st (ds ++ r :: rs) (concat reads) ->
  Forall (fun d => is_deferred expected (received d) = true) ds -> is_deferred expected (received r) = false ->
  Forall (fun x => x <> []) reads ->
  exists st' reads', await_response expected st reads = (Ok (received r), st', reads') /\
    in_sync st' rs (concat reads') /\ suffix reads' reads.
Proof.
  induction reads as [|x reads IH]; intros [[sec c] eb] ds (u & Hl & Hp & Hsz) Hds Hr Hne; cbn [await_response]; unfold next_response;
    destruct (next_response_stream ds c (S (length (buffer c))) r rs u expected Hp Hds Hr ltac:(lia))
      as (c' & Hm & [(E & Hp')|(ds' & E & Hp' & Hu & Hds')] & Hlen); rewrite E; cbn [default from_option id].
  - exists (sec, c', eb), []. split; [done|]. split; [|done]. exists u. split_and!; [done|exact Hp'|lia].
  - by apply link_end in Hl.
  - exists (sec, c', eb), (x :: reads). split; [done|]. split; [|done]. exists u. split_and!; [done|exact Hp'|lia].
  - apply Forall_cons in Hne as [Hx Hne]. rewrite bool_decide_false by done.
    destruct (read_step_sync (sec, c', eb) (ds' ++ r :: rs) x (concat reads)) as (st' & Hst & Hsync).
    { exists u. split_and!; [exact Hl|exact Hp'|lia]. }
    rewrite Hst. destruct (IH st' ds' Hsync Hds' Hr Hne) as (st2 & reads2 & H2 & Hs2 & Hsuf).
    exists st2, reads2. split; [done|]. split; [done|]. by apply suffix_cons_r.
Qed.

(** The two ways to be in step at the start of an exchange. *)
Lemma in_sync_plain c rs : state c = StatusLine -> buffer c = [] -> Forall response_ok rs ->
  Z.of_nat (length (concat (map encode_response rs))) <= max_size c ->
  in_sync (None, c, []) rs (concat (map encode_response rs)).
Proof.
  intros Hs Hb Hrs Hsz. exists (concat (map encode_response rs)). split; [by split|]. split; [|by rewrite Hb].
  destruct c as [b m st]. cbn in *. subst. by apply pending_start.
Qed.

Lemma in_sync_secure s c rs cs w : state c = StatusLine -> buffer c = [] -> Forall response_ok rs ->
  Z.of_nat (length (concat (map encode_response rs))) <= max_size c ->
  concat cs = concat (map encode_response rs) -> Forall (fun m => (length m <= Hap.BLOCK)%nat) cs ->
  0 <= Hap.decrypt_count s -> Hap.decrypt_count s + Z.of_nat (length cs) < 2 ^ 64 ->
  Hap.blocks (Hap.decrypt_cipher s) (Hap.decrypt_count s) cs w ->
  in_sync (Some s, c, []) rs w.
Proof.
  intros Hs Hb Hrs Hsz Hcs Hf Hn1 Hn2 Hw. exists (concat cs). split.
  - exists cs. split_and!; [by split_and!| |done]. unfold Hap.drained. destruct cs; [done|cbn; lia].
  - rewrite Hcs. split; [|by rewrite Hb]. destruct c as [b m st]. cbn in *. subst. by apply pending_start.
Qed.

(** *** Responses made by the receiver's builder *)
Definition plain_reason (s : string) : bool :=
  forallb (fun c => (32 <=? c) && (c <? 127)) (bs s) && bool_decide (join_words (split_whitespace (bs s)) = bs s).

Lemma status_reason_plain n : plain_reason (status_reason n) = true.
Proof. unfold status_reason. repeat case_match; vm_compute; reflexivity. Qed.

Lemma builder_response_ok b : uint 16 (rb_status b) -> Forall field_ok (rb_headers b) -> headers_ok (rb_headers b) ->
  (rb_body b = None -> Headers_get (rb_headers b) "Content-Length" = None) ->
  Z.of_nat (length (default [] (rb_body b))) < 2 ^ 64 -> response_ok (Builder_build b).
Proof.
  intros Hs Hf Hn Hcl Hlen. split; unfold Builder_build; cbn [version status reason resp_headers resp_body].
  - exists (bs "RTSP/1.0"). destruct (RtspParser.printable_ok _ RtspParser.version_printable) as (H1 & H2 & _). by split_and!.
  - done.
  - pose proof (status_reason_plain (rb_status b)) as Hp. unfold plain_reason in Hp. apply andb_true_iff in Hp as [Hp Hj].
    apply bool_decide_eq_true_1 in Hj. exists (bs (status_reason (rb_status b))).
    assert (forall c, c ∈ bs (status_reason (rb_status b)) -> 32 <= c < 127) as Hc.
    { intros c Hc%list_elem_of_In. rewrite forallb_forall in Hp. specialize (Hp c Hc). lia. }
    split_and!; [split| |done].
    + symmetry. apply ascii_encode, forallb_forall. intros c Hin%list_elem_of_In%Hc. lia.
    + apply Forall_forall. intros c Hin%Hc. unfold scalar. lia.
    + intros Hin%Hc. lia.
  - destruct (rb_body b) as [d|]; [|done]. apply RtspParser.insert_fields; [done|]. apply RtspParser.pretty_field.
    unfold uint. cbn in Hlen. lia.
  - destruct (rb_body b) as [d|]; [|done]. by apply headers_insert_ok.
  - unfold Headers_content_length. destruct (rb_body b) as [d|]; [|by rewrite Hcl].
    rewrite headers_get_insert, eq_ignore_case_refl. cbn in Hlen.
    assert (uint 64 (Z.of_nat (length d))) as Hu by (unfold uint; lia).
    destruct (RtspParser.pretty_spec 64 _ Hu ltac:(lia)) as (_ & _ & Hp). change (Some ?x ≫= parse_uint 64) with (parse_uint 64 x). by rewrite Hp.
Qed.

(** ** Properties *)

Lemma encrypt_link s data bytes s' eb w u : Hap.encrypt s data = (Ok bytes, s') -> link (Some s) eb w u -> link (Some s') eb w u.
Proof. unfold Hap.encrypt. destruct (Hap.encrypt_chunks _ _ _) as [r n]. intros [= _ <-] (cs & Hex & H). exists cs. by split. Qed.

(** A read that ends where a block ends. *)
Inductive whole_blocks : list Z -> Prop :=
| no_block : whole_blocks []
| one_block b x : (2 <= length b)%nat -> length b = (2 + Z.to_nat (from_le (take 2 b)) + 16)%nat -> whole_blocks x -> whole_blocks (b ++ x).

Lemma take_blocks_whole {X} (sink : X -> list Z -> outcome AirPlayError X) buf : whole_blocks buf ->
  forall s x s' eb x', Hap.take_blocks sink s buf x = (Ok tt, (s', eb, x')) -> eb = [].
Proof.
  induction 1 as [|b y H2 Hb Hy IH]; intros s x s' eb x'; rewrite Hap.take_blocks_eq; [by intros [= <- <- <-]|].
  rewrite (proj2 (Nat.ltb_ge _ 2)) by (rewrite length_app; lia). rewrite take_app_le, <- Hb by lia. cbv zeta.
  rewrite (proj2 (Nat.ltb_ge _ _)), take_app_length, drop_app_length by (rewrite length_app; lia).
  destruct (Hap.decrypt_block s b) as [[[m r]| |] s1]; [|done..]. destruct (sink x m) as [x1| |]; [|done..]. apply IH.
Qed.

(** Nothing is left over when the connection is plain or every read ends with a block. *)
Lemma await_whole expected reads : forall sec c r sec' c' eb reads',
  await_response expected (sec, c, []) reads = (Ok r, (sec', c', eb), reads') ->
  sec = None \/ Forall whole_blocks reads -> eb = [].
Proof.
  induction reads as [|x reads IH]; intros sec c r sec' c' eb reads'; cbn [await_response];
    (destruct (next_response expected c) as [[[q|]| |] c1]; [by intros [= _ _ _ <- _]| |done..]); [done|].
  case_bool_decide; [done|]. destruct (read_step (sec, c1, []) x) as [[[]| |] [[sec2 c2] eb2]] eqn:E; [|done..].
  intros Ha Hor. cbn [read_step app] in E. destruct sec as [s|].
  - destruct Hor as [|Hw]; [done|]. apply Forall_cons in Hw as [Hx Hw]. destruct (Hap.take_blocks codec_feed s x c1) as [y [[s3 b3] c3]] eqn:Et.
    injection E as -> <- <- <-. apply take_blocks_whole in Et as ->; [|done]. eapply IH; [exact Ha|by right].
  - destruct (codec_feed c1 x); [|done..]. injection E as <- <- <-. eapply IH; [exact Ha|by left].
Qed.

(** The block counter leaves room for the request. *)
Definition can_send (conn : Connection) (request : RtspRequest) : Prop :=
  match secure_session conn with
  | Some s => 0 <= Hap.encrypt_count s /\
      Hap.encrypt_count s + Z.of_nat (length (chunks Hap.BLOCK (RtspParser.request_encode request))) < 2 ^ 64
  | None => True
  end.

(** C20: a request gets its own response. With client and peer in step, plain or
    encrypted, the peer's bytes carrying responses to earlier requests, then the
    response to this one, then others: however the bytes are cut into reads, the
    exchange writes the request, encrypted if the session is, skips the deferred
    responses and returns the response with the request's [CSeq], its status, reason,
    headers and body as the peer built them, and takes no more reads than it needs.
    Apart from the ciphertext [eb] of a block of which only a part was read, which the
    exchange forgets, client and peer are in step for the other responses; there is none
    on a plain connection, nor when every read ends at the end of a block. *)
Theorem request_gets_response (conn : Connection) (request : RtspRequest) (ds rs : list RtspResponse) (r : RtspResponse)
  (reads : list (list Z))
  (Hsync : in_sync (secure_session conn, rtsp_codec conn, []) (ds ++ r :: rs) (concat reads))
  (Hreads : Forall (fun x => x <> []) reads) (Hsend : can_send conn request)
  (Hds : Forall (fun d => is_deferred (Headers_cseq (headers request)) (received d) = true) ds)
  (Hr : is_deferred (Headers_cseq (headers request)) (received r) = false) :
  exists bytes conn' reads' eb,
    send_rtsp_request conn request reads = (bytes, Ok (received r), conn', reads') /\
    match secure_session conn with
    | None => bytes = RtspParser.request_encode request
    | Some s => (Hap.encrypt s (RtspParser.request_encode request)).1 = Ok bytes
    end /\
    suffix reads' reads /\ in_sync (secure_session conn', rtsp_codec conn', eb) rs (concat reads') /\
    (secure_session conn = None \/ Forall whole_blocks reads -> eb = []).
Proof.
  unfold send_rtsp_request, can_send in *. destruct (secure_session conn) as [s|].
  - destruct Hsend as [Hn1 Hn2]. assert (exists bytes s', Hap.encrypt s (RtspParser.request_encode request) = (Ok bytes, s')) as (bytes & s' & Henc).
    { unfold Hap.encrypt. destruct (Hap.encrypt_blocks (Hap.encrypt_cipher s) (chunks Hap.BLOCK (RtspParser.request_encode request)) (Hap.encrypt_count s))
        as (w & -> & _); [|done|done|by eexists _, _].
      eapply Forall_impl; [apply chunks_bound; unfold Hap.BLOCK; lia|]. cbn. lia. }
    rewrite Henc. destruct (await_sync (Headers_cseq (headers request)) r rs reads (Some s', rtsp_codec conn, []) ds)
      as ([[sec' c'] eb] & reads' & Ha & Hs' & Hsuf); [|done..|].
    + destruct Hsync as (u & Hl & H). exists u. split; [by eapply encrypt_link|done].
    + exists bytes, (mkConnection sec' c'), reads', eb. rewrite Ha. split_and!; try done. intros [|Hw]; [done|]. eapply await_whole; [exact Ha|by right].
  - destruct (await_sync (Headers_cseq (headers request)) r rs reads (None, rtsp_codec conn, []) ds)
      as ([[sec' c'] eb] & reads' & Ha & Hs' & Hsuf); [done..|].
    eexists _, (mkConnection sec' c'), reads', eb. rewrite Ha. split_and!; try done. intros _. eapply await_whole; [exact Ha|by left].
Qed.

End Wire.

(** ** Witnesses *)
Import ToyAead.
#[local] Existing Instance RtspParser.reverse_order.
#[local] Existing Instance RtspParser.reverse_order_laws.

(** The answer to RECORD that comes late, then the one to the request. *)
Definition demo_deferred : RtspResponse := Builder_build (Builder_audio_latency (Builder_cseq Builder_ok 6) 11025).
Definition demo_response : RtspResponse := Builder_build (Builder_binary_body (Builder_cseq Builder_ok 7) [13; 10; 13; 10; 0] "application/octet-stream").

Lemma demo_responses_ok : Forall response_ok [demo_deferred; demo_response].
Proof.
  apply Forall_cons_2; [|apply Forall_cons_2; [|apply Forall_nil_2]]; apply builder_response_ok; try (unfold uint; cbn; lia); try done.
  - repeat (apply RtspParser.insert_fields; [|by apply RtspParser.plain_field_ok]). apply Forall_nil_2.
  - repeat apply headers_insert_ok. by apply NoDup_nil_2.
  - repeat (apply RtspParser.insert_fields; [|by apply RtspParser.plain_field_ok]). apply Forall_nil_2.
  - repeat apply headers_insert_ok. by apply NoDup_nil_2.
Qed.

Definition demo_stream : list Z := concat (map encode_response [demo_deferred; demo_response]).

Definition demo_peer : HapSecureSession := Hap.Session_new EncryptedChannel.demo_key [].
Definition demo_client : Connection := mkConnection (Some (Hap.Session_new [] EncryptedChannel.demo_key)) codec_new.
Definition demo_record : RtspRequest := RtspParser.request_cseq (RtspParser.Request_new Record_ "*") 6.
(** Each response encrypted by itself. *)
Definition demo_wire : list (list Z) :=
  match Hap.encrypt demo_peer (encode_response demo_deferred) with
  | (Ok w1, p1) => match Hap.encrypt p1 (encode_response demo_response) with (Ok w2, _) => [w1; w2] | _ => [] end
  | _ => []
  end.

Lemma demo_wire_sync : in_sync (secure_session demo_client, rtsp_codec demo_client, []) [demo_deferred; demo_response] (concat demo_wire).
Proof.
  apply (in_sync_secure _ _ _ [encode_response demo_deferred; encode_response demo_response]); [done|done|exact demo_responses_ok| | | |done|done|].
  - vm_compute. discriminate.
  - by cbn [concat map].
  - repeat constructor; apply Nat.leb_le; vm_compute; reflexivity.
  - destruct (Hap.encrypt_blocks EncryptedChannel.demo_key [encode_response demo_deferred; encode_response demo_response] 0) as (w & Hw & Hb);
      [repeat constructor; apply Nat.leb_le; vm_compute; reflexivity|lia|cbn; lia|].
    assert (Hap.encrypt_chunks EncryptedChannel.demo_key 0 [encode_response demo_deferred; encode_response demo_response] = (Ok (concat demo_wire), 2)) as E
      by (vm_compute; reflexivity).
    rewrite E in Hw. injection Hw as <-. exact Hb.
Qed.

Lemma demo_wire_whole : Forall whole_blocks demo_wire.
Proof.
  assert (forallb (fun w => (length w =? 2 + Z.to_nat (from_le (take 2 w)) + 16)%nat) demo_wire = true) as H by (vm_compute; reflexivity).
  rewrite forallb_forall in H. apply Forall_forall. intros w Hw%list_elem_of_In. apply H in Hw as E%Nat.eqb_eq.
  rewrite <- (app_nil_r w). apply one_block; [lia|done|constructor].
Qed.

(** Plain, with a deferred response and the bytes cut anywhere; encrypted, with another
    response to come. *)
Lemma request_gets_response_witness :
  (exists bytes conn' reads',
     send_rtsp_request (mkConnection None codec_new) RtspParser.demo_request [take 20 demo_stream; drop 20 demo_stream]
     = (bytes, Ok (received demo_response), conn', reads')) /\
  exists bytes conn' reads', send_rtsp_request demo_client demo_record demo_wire = (bytes, Ok (received demo_deferred), conn', reads') /\
    in_sync (secure_session conn', rtsp_codec conn', []) [demo_response] (concat reads').
Proof.
  split.
  - destruct (request_gets_response (mkConnection None codec_new) RtspParser.demo_request [demo_deferred] [] demo_response
      [take 20 demo_stream; drop 20 demo_stream]) as (bytes & conn' & reads' & eb & H & _).
    + cbn [concat]. rewrite app_nil_r, take_drop. apply in_sync_plain; [done|done|exact demo_responses_ok|vm_compute; discriminate].
    + repeat constructor; vm_compute; discriminate.
    + exact I.
    + apply Forall_cons_2; [vm_compute; reflexivity|apply Forall_nil_2].
    + vm_compute. reflexivity.
    + exists bytes, conn', reads'. exact H.
  - destruct (request_gets_response demo_client demo_record [] [demo_response] demo_deferred demo_wire) as (bytes & conn' & reads' & eb & H1 & _ & _ & H2 & H3).
    + exact demo_wire_sync.
    + repeat constructor; vm_compute; discriminate.
    + split; [vm_compute; discriminate|vm_compute; reflexivity].
    + apply Forall_nil_2.
    + vm_compute. reflexivity.
    + rewrite (H3 (or_intror demo_wire_whole)) in H2. exists bytes, conn', reads'. split; [exact H1|exact H2].
Defined.

(** The ciphertext of a block that has arrived in part is lost with the exchange:
    the next exchange on the same connection does not find its response. *)
Lemma partial_block_lost :
  match Hap.encrypt demo_peer (encode_response demo_deferred) with
  | (Ok w1, p1) =>
      match Hap.encrypt p1 (encode_response demo_response) with
      | (Ok w2, _) =>
          let '(_, r1, c1, _) := send_rtsp_request demo_client (RtspParser.request_cseq (RtspParser.Request_new Record_ "*") 6) [w1 ++ take 5 w2] in
          let '(_, r2, _, _) := send_rtsp_request c1 RtspParser.demo_request [drop 5 w2] in
          r1 = Ok (received demo_deferred) /\ r2 <> Ok (received demo_response)
      | _ => False
      end
  | _ => False
  end.
Proof. vm_compute. split; [reflexivity|discriminate]. Qed.

End RtspClient.
