(* ===== verification/Sdp.v ===== *)
(** * SDP session descriptions

    Models [src/protocol/sdp/]: the description types ([mod.rs]), [SdpParser]
    ([parser.rs]), [SdpBuilder] with [encode_sdp] and [create_raop_announce_sdp]
    ([builder.rs]) and the RAOP parameters a receiver extracts ([raop.rs]), with
    [process_announce] of [src/receiver/announce_handler.rs] and the client's key
    material of [src/protocol/raop/key_exchange.rs].  Text is a list of Unicode
    scalars; an attribute table is a finite map, and the order in which its
    iterator yields the entries is the parameter [attr_order].  Base64 and RSA are
    external crates: interfaces with the laws their documentation gives. *)

From stdpp Require Import gmap pretty.
From S2P Require Import Text Unicode AesCtr Rtsp RtspParser.

Module Sdp.
Import Unicode Rtsp RtspParser.
Import (notations) AesCtr.
#[local] Abbreviation CryptoError := AesCtr.CryptoError.
#[local] Abbreviation DecryptionFailed := AesCtr.DecryptionFailed.
#[local] Abbreviation InvalidKeyLength := AesCtr.InvalidKeyLength.

(** ** Descriptions *)
Abbreviation Attributes := (gmap (list Z) (option (list Z))).

Record SdpOrigin := mkOrigin {
  username : list Z; session_id : list Z; session_version : list Z;
  net_type : list Z; addr_type : list Z; unicast_address : list Z
}.

Record SdpConnection := mkConnection { c_net_type : list Z; c_addr_type : list Z; address : list Z }.

Record MediaDescription := mkMedia {
  media_type : list Z; port : Z; protocol : list Z; formats : list (list Z); m_attributes : Attributes
}.

Record SessionDescription := mkSdp {
  sdp_version : Z; origin : option SdpOrigin; session_name : list Z; connection : option SdpConnection;
  timing : option (Z * Z); media : list MediaDescription; attributes : Attributes
}.

Definition Sdp_default : SessionDescription := mkSdp 0 None [] None None [] ∅.

Definition attr (a : Attributes) (name : list Z) : option (list Z) := mjoin (a !! name).

Definition get_attribute (s : SessionDescription) (name : list Z) : option (list Z) := attr (attributes s) name.
Definition media_get_attribute (m : MediaDescription) (name : list Z) : option (list Z) := attr (m_attributes m) name.

Definition audio_media (s : SessionDescription) : option MediaDescription :=
  List.find (fun m => bool_decide (media_type m = bs "audio")) (media s).

(** The media attribute, or the session's one when the media lists the name
    without a value. *)
Definition media_or_session (s : SessionDescription) (name : list Z) : option (list Z) :=
  m ← audio_media s; v ← m_attributes m !! name;
  match v with Some v => Some v | None => get_attribute s name end.
Definition sdp_rsaaeskey (s : SessionDescription) : option (list Z) := media_or_session s (bs "rsaaeskey").
Definition sdp_aesiv (s : SessionDescription) : option (list Z) := media_or_session s (bs "aesiv").
Definition fmtp (s : SessionDescription) : option (list Z) := m ← audio_media s; attr (m_attributes m) (bs "fmtp").
Definition rtpmap (s : SessionDescription) : option (list Z) := m ← audio_media s; attr (m_attributes m) (bs "rtpmap").

(** ** Parser *)
Inductive SdpParseError :=
| InvalidVersion
| InvalidOrigin (s : list Z)
| InvalidConnection (s : list Z)
| InvalidMedia (s : list Z)
| InvalidAttribute (s : list Z)
| MissingField (s : list Z).

(** [str::parse] of an unsigned integer. *)
Definition parse_num (w : Z) (s : list Z) : option Z := parse_uint w (of_chars s).

(** [&s[n..]] with [n] in bytes: [None] is the panic of an index that is not on a
    character boundary. *)
Fixpoint str_from (n : nat) (s : list Z) : option (list Z) :=
  match n, s with
  | O, _ => Some s
  | _, [] => None
  | _, c :: r => let k := length (utf8_char c) in if (k <=? n)%nat then str_from (n - k) r else None
  end.

Definition parse_origin (value : list Z) : outcome SdpParseError SdpOrigin :=
  match split_whitespace value with
  | p0 :: p1 :: p2 :: p3 :: p4 :: p5 :: _ => Ok (mkOrigin p0 p1 p2 p3 p4 p5)
  | _ => Err (InvalidOrigin value)
  end.

Definition parse_connection (value : list Z) : outcome SdpParseError SdpConnection :=
  match split_whitespace value with
  | p0 :: p1 :: p2 :: _ => Ok (mkConnection p0 p1 p2)
  | _ => Err (InvalidConnection value)
  end.

Definition parse_media (value : list Z) : outcome SdpParseError MediaDescription :=
  match split_whitespace value with
  | p0 :: p1 :: p2 :: p3 :: rest => Ok (mkMedia p0 (default 0 (parse_num 16 p1)) p2 (p3 :: rest) ∅)
  | _ => Err (InvalidMedia value)
  end.

Definition parse_attribute (value : list Z) : list Z * option (list Z) :=
  match split_at 58 value with
  | Some (name, v) => (name, Some v)
  | None => (value, None)
  end.

Definition with_media_attribute (m : MediaDescription) (name : list Z) (v : option (list Z)) : MediaDescription :=
  mkMedia (media_type m) (port m) (protocol m) (formats m) (<[name := v]> (m_attributes m)).

(** [sdp.media.push(media)] for the media section in progress, if any. *)
Definition push_media (s : SessionDescription) (cur : option MediaDescription) : SessionDescription :=
  match cur with
  | Some m => mkSdp (sdp_version s) (origin s) (session_name s) (connection s) (timing s) (media s ++ [m]) (attributes s)
  | None => s
  end.

(** The arms of the match, for a line [type_char=value]. *)
Definition parse_field (s : SessionDescription) (cur : option MediaDescription) (type_char : Z) (value : list Z)
  : outcome SdpParseError (SessionDescription * option MediaDescription) :=
  match type_char with
  | 118 (* v *) =>
      v ← ok_or (parse_num 8 value) InvalidVersion;
      Ok (mkSdp v (origin s) (session_name s) (connection s) (timing s) (media s) (attributes s), cur)
  | 111 (* o *) =>
      o ← parse_origin value;
      Ok (mkSdp (sdp_version s) (Some o) (session_name s) (connection s) (timing s) (media s) (attributes s), cur)
  | 115 (* s *) =>
      Ok (mkSdp (sdp_version s) (origin s) value (connection s) (timing s) (media s) (attributes s), cur)
  | 99 (* c *) =>
      conn ← parse_connection value;
      match cur with
      | Some _ => Ok (s, cur)
      | None => Ok (mkSdp (sdp_version s) (origin s) (session_name s) (Some conn) (timing s) (media s) (attributes s), cur)
      end
  | 116 (* t *) =>
      match split_whitespace value with
      | p0 :: p1 :: _ =>
          Ok (mkSdp (sdp_version s) (origin s) (session_name s) (connection s)
                (Some (default 0 (parse_num 64 p0), default 0 (parse_num 64 p1))) (media s) (attributes s), cur)
      | _ => Ok (s, cur)
      end
  | 109 (* m *) => m ← parse_media value; Ok (push_media s cur, Some m)
  | 97 (* a *) =>
      let '(name, v) := parse_attribute value in
      match cur with
      | Some m => Ok (s, Some (with_media_attribute m name v))
      | None => Ok (mkSdp (sdp_version s) (origin s) (session_name s) (connection s) (timing s) (media s)
                      (<[name := v]> (attributes s)), cur)
      end
  | _ => Ok (s, cur)
  end.

Definition parse_line (st : SessionDescription * option MediaDescription) (line : list Z)
  : outcome SdpParseError (SessionDescription * option MediaDescription) :=
  let line := trim line in
  if bool_decide (line = []) then Ok st
  else if (length (utf8_encode line) <? 2)%nat || negb (bool_decide (line !! 1%nat = Some 61)) then Ok st
  else
    value ← unwrap (str_from 2 line);
    parse_field (fst st) (snd st) (default 32 (head line)) value.

Fixpoint parse_lines (ls : list (list Z)) (st : SessionDescription * option MediaDescription)
  : outcome SdpParseError (SessionDescription * option MediaDescription) :=
  match ls with
  | [] => Ok st
  | l :: ls => st ← parse_line st l; parse_lines ls st
  end.

Definition parse (input : list Z) : outcome SdpParseError SessionDescription :=
  '(s, cur) ← parse_lines (lines input) (Sdp_default, None); Ok (push_media s cur).

(** ** Builder and encoder *)
Record SdpBuilder := mkBuilder { b_sdp : SessionDescription; current_media : option MediaDescription }.
Definition SdpBuilder_new : SdpBuilder := mkBuilder Sdp_default None.

Definition addr_type_of (addr : list Z) : list Z := if bool_decide (58 ∈ addr) then bs "IP6" else bs "IP4".

Definition with_sdp (b : SdpBuilder) (s : SessionDescription) : SdpBuilder := mkBuilder s (current_media b).

Definition set_origin (b : SdpBuilder) (user id addr : list Z) : SdpBuilder :=
  let s := b_sdp b in
  with_sdp b (mkSdp (sdp_version s) (Some (mkOrigin user id (bs "1") (bs "IN") (addr_type_of addr) addr))
    (session_name s) (connection s) (timing s) (media s) (attributes s)).
Definition set_session_name (b : SdpBuilder) (name : list Z) : SdpBuilder :=
  let s := b_sdp b in
  with_sdp b (mkSdp (sdp_version s) (origin s) name (connection s) (timing s) (media s) (attributes s)).
Definition set_connection (b : SdpBuilder) (addr : list Z) : SdpBuilder :=
  let s := b_sdp b in
  with_sdp b (mkSdp (sdp_version s) (origin s) (session_name s) (Some (mkConnection (bs "IN") (addr_type_of addr) addr))
    (timing s) (media s) (attributes s)).
Definition set_timing (b : SdpBuilder) (start stop : Z) : SdpBuilder :=
  let s := b_sdp b in
  with_sdp b (mkSdp (sdp_version s) (origin s) (session_name s) (connection s) (Some (start, stop)) (media s) (attributes s)).
Definition add_attribute (b : SdpBuilder) (name : list Z) (v : option (list Z)) : SdpBuilder :=
  let s := b_sdp b in
  with_sdp b (mkSdp (sdp_version s) (origin s) (session_name s) (connection s) (timing s) (media s) (<[name := v]> (attributes s))).
Definition add_media (b : SdpBuilder) (ty : list Z) (p : Z) (proto : list Z) (fmts : list (list Z)) : SdpBuilder :=
  mkBuilder (push_media (b_sdp b) (current_media b)) (Some (mkMedia ty p proto fmts ∅)).
Definition media_attribute (b : SdpBuilder) (name : list Z) (v : option (list Z)) : SdpBuilder :=
  match current_media b with
  | Some m => mkBuilder (b_sdp b) (Some (with_media_attribute m name v))
  | None => b
  end.
Definition build (b : SdpBuilder) : SessionDescription := push_media (b_sdp b) (current_media b).

(** The iteration order of an attribute table. *)
Class AttrOrder := attr_order : Attributes -> list (list Z * option (list Z)).
Class AttrOrderLaws (O : AttrOrder) := attr_order_perm : forall m, attr_order m ≡ₚ map_to_list m.

Section Encode.
Context {O : AttrOrder}.

Definition line (c : Z) (value : list Z) : list Z := c :: 61 :: value ++ crlf.
Definition num (z : Z) : list Z := bs (pretty z).

Definition encode_attribute (kv : list Z * option (list Z)) : list Z :=
  line 97 (match snd kv with Some v => fst kv ++ 58 :: v | None => fst kv end).

Definition encode_attributes (a : Attributes) : list Z := concat (map encode_attribute (attr_order a)).

Definition encode_media (m : MediaDescription) : list Z :=
  line 109 (media_type m ++ 32 :: num (port m) ++ 32 :: protocol m ++ 32 :: join_words (formats m)) ++
  encode_attributes (m_attributes m).

Definition encode_origin (o : option SdpOrigin) : list Z :=
  match o with
  | Some o => line 111 (username o ++ 32 :: session_id o ++ 32 :: session_version o ++ 32 :: net_type o ++ 32 ::
                        addr_type o ++ 32 :: unicast_address o)
  | None => []
  end.
Definition encode_connection (c : option SdpConnection) : list Z :=
  match c with Some c => line 99 (c_net_type c ++ 32 :: c_addr_type c ++ 32 :: address c) | None => [] end.
Definition encode_timing (t : option (Z * Z)) : list Z :=
  match t with Some (start, stop) => line 116 (num start ++ 32 :: num stop) | None => [] end.

Definition encode_sdp (s : SessionDescription) : list Z :=
  line 118 (num (sdp_version s)) ++ encode_origin (origin s) ++ line 115 (session_name s) ++
  encode_connection (connection s) ++ encode_timing (timing s) ++ encode_attributes (attributes s) ++
  concat (map encode_media (media s)).

Definition encode (b : SdpBuilder) : list Z := encode_sdp (build b).

Definition announce_builder (sid client_ip server_ip key iv : list Z) : SdpBuilder :=
  let b := set_origin SdpBuilder_new (bs "iTunes") sid client_ip in
  let b := set_session_name b (bs "iTunes") in
  let b := set_connection b server_ip in
  let b := set_timing b 0 0 in
  let b := add_media b (bs "audio") 0 (bs "RTP/AVP") [bs "96"] in
  let b := media_attribute b (bs "rtpmap") (Some (bs "96 AppleLossless")) in
  let b := media_attribute b (bs "fmtp") (Some (bs "96 352 0 16 40 10 14 2 255 0 0 44100")) in
  let b := media_attribute b (bs "rsaaeskey") (Some key) in
  let b := media_attribute b (bs "aesiv") (Some iv) in
  media_attribute b (bs "min-latency") (Some (bs "11025")).
Definition create_raop_announce_sdp (sid client_ip server_ip key iv : list Z) : list Z :=
  encode (announce_builder sid client_ip server_ip key iv).
End Encode.

(** ** RAOP parameters *)
Inductive AudioCodec := Pcm | Alac | AacLc | AacEld.

Record StreamParameters := mkParams {
  codec : AudioCodec; sample_rate : Z; bits_per_sample : Z; channels : Z; frames_per_packet : Z;
  aes_key : option (list Z); aes_iv : option (list Z); min_latency : option Z
}.
Definition StreamParameters_default : StreamParameters := mkParams Alac 44100 16 2 352 None None None.

Record AlacParameters := mkAlac {
  a_frames_per_packet : Z; compatible_version : Z; bit_depth : Z; pb : Z; mb : Z; kb : Z; a_channels : Z;
  max_run : Z; max_frame_bytes : Z; avg_bit_rate : Z; a_sample_rate : Z
}.

Definition parse_part (w : Z) (parts : list (list Z)) (index : nat) (name : list Z) : outcome SdpParseError Z :=
  val_str ← ok_or (parts !! index)
    (InvalidAttribute (bs "Missing field '" ++ name ++ bs "' at index " ++ bs (pretty (Z.of_nat index))));
  ok_or (parse_num w val_str) (InvalidAttribute (bs "Invalid value for '" ++ name ++ bs "': " ++ val_str)).

Definition AlacParameters_parse (f : list Z) : outcome SdpParseError AlacParameters :=
  let parts := split_whitespace f in
  offset ← (match length parts with
            | 12%nat => Ok 1%nat
            | 11%nat => Ok 0%nat
            | n => Err (InvalidAttribute (bs "ALAC fmtp needs 11 or 12 fields, got " ++ bs (pretty (Z.of_nat n)) ++ bs ": " ++ f))
            end);
  fpp ← parse_part 32 parts offset (bs "frames_per_packet");
  cv ← parse_part 8 parts (offset + 1) (bs "compatible_version");
  bd ← parse_part 8 parts (offset + 2) (bs "bit_depth");
  pb ← parse_part 8 parts (offset + 3) (bs "pb");
  mb ← parse_part 8 parts (offset + 4) (bs "mb");
  kb ← parse_part 8 parts (offset + 5) (bs "kb");
  ch ← parse_part 8 parts (offset + 6) (bs "channels");
  mr ← parse_part 16 parts (offset + 7) (bs "max_run");
  mf ← parse_part 32 parts (offset + 8) (bs "max_frame_bytes");
  ab ← parse_part 32 parts (offset + 9) (bs "avg_bit_rate");
  sr ← parse_part 32 parts (offset + 10) (bs "sample_rate");
  Ok (mkAlac fpp cv bd pb mb kb ch mr mf ab sr).

Definition detect_codec (m : MediaDescription) : option AudioCodec :=
  r ← attr (m_attributes m) (bs "rtpmap");
  if contains (bs "AppleLossless") r then Some Alac
  else if contains (bs "mpeg4-generic") r || contains (bs "MP4A-LATM") r then
    Some (if contains (bs "ELD") r then AacEld else AacLc)
  else if contains (bs "L16") r then Some Pcm
  else None.

(** The two engines of the base64 crate: the receiver's [STANDARD] and the client's
    [STANDARD_NO_PAD]. *)
Class Base64 := {
  b64_encode : list Z -> list Z; b64_decode : list Z -> option (list Z);
  b64np_encode : list Z -> list Z; b64np_decode : list Z -> option (list Z)
}.
Class Base64Laws (B : Base64) := {
  b64_inverse : forall d, bytes_ok d -> b64_decode (b64_encode d) = Some d;
  b64np_inverse : forall d, bytes_ok d -> b64np_decode (b64np_encode d) = Some d;
  (** canonical padding is required: whole groups of four characters *)
  b64_padded : forall s d, b64_decode s = Some d -> (length s `mod` 4 = 0)%nat;
  b64np_length : forall d, length (b64np_encode d) = ((4 * length d + 2) / 3)%nat;
  b64_alphabet : forall d, bytes_ok d -> Forall (fun c => 33 <= c <= 126) (b64_encode d);
  b64np_alphabet : forall d, bytes_ok d -> Forall (fun c => 33 <= c <= 126) (b64np_encode d)
}.

(** The private key of the [rsa] crate: errors as their texts. *)
Class Rsa := {
  RsaPrivateKey : Type;
  from_pkcs8_der : list Z -> list Z + RsaPrivateKey;
  pkcs1v15_decrypt : RsaPrivateKey -> list Z -> list Z + list Z
}.

Record EncryptionParams := mkEncryption { encrypted_aes_key : list Z; e_aes_iv : list Z }.

Section Raop.
Context {B : Base64} {R : Rsa}.

Definition parse_encryption (m : MediaDescription) : outcome SdpParseError (option EncryptionParams) :=
  match attr (m_attributes m) (bs "rsaaeskey") with
  | None => Ok None
  | Some key =>
      iv_str ← ok_or (attr (m_attributes m) (bs "aesiv")) (MissingField (bs "aesiv"));
      k ← ok_or (b64_decode (trim key)) (InvalidAttribute (bs "Invalid base64 in rsaaeskey"));
      iv ← ok_or (b64_decode (trim iv_str)) (InvalidAttribute (bs "Invalid base64 in aesiv"));
      if (length iv =? 16)%nat then Ok (Some (mkEncryption k iv))
      else Err (InvalidAttribute (bs "AES IV must be 16 bytes, got " ++ bs (pretty (Z.of_nat (length iv)))))
  end.

(** With the [raop] feature. *)
Definition decrypt_aes_key (encrypted rsa_private_key : list Z) : outcome SdpParseError (list Z) :=
  match from_pkcs8_der rsa_private_key with
  | inl e => Err (InvalidAttribute (bs "Invalid RSA key: " ++ e))
  | inr private_key =>
      match pkcs1v15_decrypt private_key encrypted with
      | inl e => Err (InvalidAttribute (bs "RSA decrypt failed: " ++ e))
      | inr decrypted =>
          if (length decrypted =? 16)%nat then Ok decrypted
          else Err (InvalidAttribute (bs "Decrypted AES key must be 16 bytes, got " ++ bs (pretty (Z.of_nat (length decrypted)))))
      end
  end.

Definition extract_stream_parameters (s : SessionDescription) (rsa_private_key : option (list Z))
  : outcome SdpParseError StreamParameters :=
  m ← ok_or (audio_media s) (MissingField (bs "audio media"));
  c ← ok_or (detect_codec m) (MissingField (bs "rtpmap"));
  '(rate, bits, ch, fpp) ← (match c with
    | Alac =>
        f ← ok_or (attr (m_attributes m) (bs "fmtp")) (MissingField (bs "fmtp"));
        alac ← AlacParameters_parse f;
        Ok (a_sample_rate alac, bit_depth alac, a_channels alac, a_frames_per_packet alac)
    | Pcm | AacLc | AacEld => Ok (44100, 16, 2, 352)
    end);
  encryption ← parse_encryption m;
  '(key, iv) ← (match encryption with
    | Some enc =>
        key ← (match rsa_private_key with
               | Some rsa_key => k ← decrypt_aes_key (encrypted_aes_key enc) rsa_key; Ok (Some k)
               | None => Ok None
               end);
        Ok (key, Some (e_aes_iv enc))
    | None => Ok (None, None)
    end);
  let latency := attr (m_attributes m) (bs "min-latency") ≫= parse_num 32 in
  Ok (mkParams c rate bits ch fpp key iv latency).

(** *** [announce_handler.rs] *)
Inductive AnnounceError := EmptyBody | AnnounceInvalidUtf8 | SdpParse (e : SdpParseError) | UnsupportedCodec.

Definition process_announce (r : RtspRequest) (rsa_private_key : option (list Z)) : outcome AnnounceError StreamParameters :=
  if bool_decide (body r = []) then Err EmptyBody
  else
    sdp_str ← ok_or (from_utf8 (body r)) AnnounceInvalidUtf8;
    s ← map_err SdpParse (parse sdp_str);
    map_err SdpParse (extract_stream_parameters s rsa_private_key).

(** *** The client's keys ([key_exchange.rs]) *)
Record RaopSessionKeys := mkKeys { k_aes_key : list Z; k_aes_iv : list Z; k_encrypted_key : list Z }.

(** [generate] for the random key and vector: [encrypt_oaep] is the RSA crate's
    encryption with Apple's public key. *)
Definition generate {E} (encrypt_oaep : list Z -> outcome E (list Z)) (key iv : list Z) : outcome E RaopSessionKeys :=
  encrypted ← encrypt_oaep key; Ok (mkKeys key iv encrypted).
Definition rsaaeskey (k : RaopSessionKeys) : list Z := b64np_encode (k_encrypted_key k).
Definition aesiv (k : RaopSessionKeys) : list Z := b64np_encode (k_aes_iv k).

(** The server side of the same file; [decrypt_oaep] is the private key's. *)
Definition parse_session_keys (decrypt_oaep : list Z -> outcome CryptoError (list Z)) (rsaaeskey_b64 aesiv_b64 : list Z)
  : outcome CryptoError (list Z * list Z) :=
  encrypted ← ok_or (b64np_decode (trim rsaaeskey_b64)) DecryptionFailed;
  key ← decrypt_oaep encrypted;
  if negb (length key =? 16)%nat then Err (InvalidKeyLength 16 (Z.of_nat (length key)))
  else
    iv ← ok_or (b64np_decode (trim aesiv_b64)) DecryptionFailed;
    if negb (length iv =? 16)%nat then Err (InvalidKeyLength 16 (Z.of_nat (length iv)))
    else Ok (key, iv).
End Raop.

(** ** Lines *)

(** A value that a line carries unchanged. *)
Definition value_ok (v : list Z) : Prop := 10 ∉ v /\ (forall x, last v = Some x -> is_whitespace x = false).
Definition word (w : list Z) : Prop := w <> [] /\ no_ws w.

Lemma trim_edges s : (forall x, head s = Some x -> is_whitespace x = false) ->
  (forall x, last s = Some x -> is_whitespace x = false) -> trim s = s.
Proof.
  assert (forall s, (forall x, head s = Some x -> is_whitespace x = false) -> trim_start s = s) as Hs.
  { intros [|c r] H; [done|]. cbn. by rewrite (H c eq_refl). }
  intros Hh Hl. unfold trim. rewrite (Hs s), Hs; [apply reverse_involutive| |done].
  intros x Hx. apply Hl. by rewrite head_reverse in Hx.
Qed.

Lemma word_value w : word w -> value_ok w.
Proof.
  intros [_ Hw]. split.
  - intros H10. by apply (proj1 (Forall_forall _ _) Hw) in H10.
  - intros x Hx. apply last_Some_elem_of in Hx. by apply (proj1 (Forall_forall _ _) Hw) in Hx.
Qed.

Lemma value_app a x v : 10 ∉ a -> x <> 10 -> value_ok v -> is_whitespace x = false \/ v <> [] -> value_ok (a ++ x :: v).
Proof.
  intros Ha Hx [Hn Hl] Hor. split; [set_solver|]. intros y. rewrite last_app.
  destruct v as [|c v]; [destruct Hor; [by intros [= <-]|done]|]. change (last (x :: c :: v)) with (last (c :: v)).
  destruct (last (c :: v)) eqn:E; [|by apply last_None in E]. intros [= <-]. by apply Hl.
Qed.

Lemma word_no_nl w : word w -> 10 ∉ w.
Proof. intros H. by apply word_value in H as [? _]. Qed.

Lemma digits_word z : 0 <= z -> word (num z).
Proof.
  intros Hz. destruct (pretty_spec (Z.log2 z + 1) z) as (Hd & Hne & _).
  - unfold uint. destruct (Z.eq_dec z 0) as [->|]; [cbn; lia|]. pose proof (Z.log2_spec z). lia.
  - pose proof (Z.log2_nonneg z). lia.
  - split; [unfold num; intros E; apply Hne; rewrite <- (sb_bs (pretty z)), E; done|].
    unfold num, no_ws. eapply Forall_impl; [exact Hd|]. cbn. intros x Hx. unfold is_whitespace.
    repeat match goal with |- context [?a <=? ?b] => destruct (Z.leb_spec a b); try lia
      | |- context [?a =? ?b] => destruct (Z.eqb_spec a b); try lia end; done.
Qed.

Lemma parse_num_num w z : uint w z -> 0 < w -> parse_num w (num z) = Some z.
Proof.
  intros Hz Hw. destruct (pretty_spec w z Hz Hw) as (Hd & _ & Hp). unfold parse_num, num, of_chars.
  rewrite ascii_encode, sb_bs; [done|]. unfold is_ascii. rewrite forallb_forall. intros x Hx.
  apply list_elem_of_In, (proj1 (Forall_forall _ _) Hd) in Hx. apply Z.ltb_lt. lia.
Qed.

(** A line of the encoder is read back as its field. *)
Lemma parse_lines_line c v rest st : 0 <= c < 128 -> is_whitespace c = false -> value_ok v ->
  parse_lines (lines (line c v ++ rest)) st = (st ← parse_field (fst st) (snd st) c v; parse_lines (lines rest) st).
Proof.
  intros Hc Hws [Hn Hl].
  replace (line c v ++ rest) with ((c :: 61 :: v) ++ 13 :: 10 :: rest) by (unfold line, crlf; cbn [app]; by rewrite <- app_assoc).
  rewrite lines_crlf.
  2:{ rewrite !not_elem_of_cons. split_and!; [intros <-; done|done|done]. }
  cbn [parse_lines]. unfold parse_line. rewrite (trim_edges (c :: 61 :: v)).
  2:{ by intros x [= <-]. }
  2:{ intros x. destruct v as [|y v]; [by intros [= <-]|]. apply Hl. }
  rewrite bool_decide_false by done.
  assert (utf8_char c = [c]) as Ec by (unfold utf8_char; by rewrite (proj2 (Z.ltb_lt _ _)) by lia).
  replace (Nat.ltb (length (utf8_encode (c :: 61 :: v))) 2) with false.
  2:{ symmetry. apply Nat.ltb_ge. unfold utf8_encode. cbn [map concat]. rewrite Ec. cbn. lia. }
  rewrite bool_decide_true by done. cbn [orb negb str_from]. rewrite Ec. cbn [length Nat.leb Nat.sub str_from utf8_char Z.ltb Z.compare Pos.compare Pos.compare_cont].
  destruct v; reflexivity.
Qed.

(** ** Well-formed descriptions *)
Definition attr_ok (name : list Z) (v : option (list Z)) : Prop :=
  58 ∉ name /\ 10 ∉ name /\ value_ok (default name v).
Definition attributes_ok (a : Attributes) : Prop := map_Forall attr_ok a.
Definition origin_ok (o : SdpOrigin) : Prop :=
  Forall word [username o; session_id o; session_version o; net_type o; addr_type o; unicast_address o].
Definition connection_ok (c : SdpConnection) : Prop := Forall word [c_net_type c; c_addr_type c; address c].
Definition media_ok (m : MediaDescription) : Prop :=
  word (media_type m) /\ uint 16 (port m) /\ word (protocol m) /\ formats m <> [] /\ Forall word (formats m) /\
  attributes_ok (m_attributes m).
Definition sdp_ok (s : SessionDescription) : Prop :=
  uint 8 (sdp_version s) /\ (forall o, origin s = Some o -> origin_ok o) /\ value_ok (session_name s) /\
  (forall c, connection s = Some c -> connection_ok c) /\
  (forall t, timing s = Some t -> uint 64 (fst t) /\ uint 64 (snd t)) /\
  Forall media_ok (media s) /\ attributes_ok (attributes s).

Lemma split_at_none x s : x ∉ s -> split_at x s = None.
Proof.
  induction s as [|c s IH]; [done|]. intros [Hc Hs]%not_elem_of_cons. cbn [split_at].
  rewrite (proj2 (Z.eqb_neq c x)) by congruence. by rewrite IH.
Qed.

Lemma attr_value name v : attr_ok name v ->
  let value := match v with Some v => name ++ 58 :: v | None => name end in
  value_ok value /\ parse_attribute value = (name, v).
Proof.
  intros (H58 & H10 & Hv). unfold parse_attribute. destruct v as [v|]; cbn [default from_option] in Hv.
  - rewrite split_at_first by done. split; [|done]. apply value_app; auto.
  - by rewrite split_at_none.
Qed.

(** The words of a line. *)
Lemma words_space w r : word w -> split_whitespace (w ++ 32 :: r) = w :: split_whitespace r.
Proof. intros [Hne Hw]. by apply words_sep. Qed.

Lemma words_one w : word w -> split_whitespace w = [w].
Proof. intros [Hne Hw]. by apply words_last. Qed.

Lemma words_join ws : Forall word ws -> split_whitespace (join_words ws) = ws.
Proof.
  induction 1 as [|w ws Hw Hws IH]; [done|]. destruct ws as [|w' ws]; [by apply words_one|].
  change (join_words (w :: w' :: ws)) with (w ++ 32 :: join_words (w' :: ws)). by rewrite words_space, IH.
Qed.

Lemma join_value ws : Forall word ws -> value_ok (join_words ws).
Proof.
  induction 1 as [|w ws Hw Hws IH]; [by split; [apply not_elem_of_nil|]|].
  destruct ws as [|w' ws]; [by apply word_value|].
  change (join_words (w :: w' :: ws)) with (w ++ 32 :: join_words (w' :: ws)).
  apply value_app; [by apply word_no_nl|done|done|right].
  apply Forall_cons in Hws as [[Hne _] _]. destruct ws; cbn [join_words]; [done|]. by destruct w'.
Qed.

Lemma join_nonempty ws : Forall word ws -> ws <> [] -> join_words ws <> [].
Proof. intros Hw Hne E. apply Hne. rewrite <- (words_join ws Hw), E. done. Qed.

(** A value that is not empty: words, alone or separated by spaces. *)
Definition value_ne (v : list Z) : Prop := value_ok v /\ v <> [].

Lemma word_ne w : word w -> value_ne w.
Proof. intros Hw. split; [by apply word_value|by destruct Hw]. Qed.
Lemma value_space w v : word w -> value_ne v -> value_ne (w ++ 32 :: v).
Proof. intros Hw [Hv Hne]. split; [apply value_app; auto using word_no_nl|]. by destruct w. Qed.
Lemma join_ne ws : Forall word ws -> ws <> [] -> value_ne (join_words ws).
Proof. intros. split; [by apply join_value|by apply join_nonempty]. Qed.
Lemma ne_value v : value_ne v -> value_ok v.
Proof. by intros []. Qed.
Create HintDb sdp.
#[local] Hint Resolve word_ne value_space join_ne digits_word word_value : sdp.

Section RoundTrip.
Context {O : AttrOrder} {OL : AttrOrderLaws O}.

Lemma insert_all_order a : insert_all (attr_order a) ∅ = a.
Proof. apply insert_all_perm, attr_order_perm. Qed.

Lemma order_ok a : attributes_ok a -> Forall (fun kv => attr_ok (fst kv) (snd kv)) (attr_order a).
Proof.
  intros Ha. rewrite (attr_order_perm a). apply Forall_forall. intros [k v] Hkv.
  apply elem_of_map_to_list in Hkv. by apply Ha.
Qed.

Lemma media_attributes_back l m s rest : Forall (fun kv => attr_ok (fst kv) (snd kv)) l ->
  parse_lines (lines (concat (map encode_attribute l) ++ rest)) (s, Some m) =
  parse_lines (lines rest) (s, Some (mkMedia (media_type m) (port m) (protocol m) (formats m) (insert_all l (m_attributes m)))).
Proof.
  intros Hl. revert m. induction Hl as [|[k v] l Hkv Hl IH]; intros m; [by destruct m|].
  cbn [map concat]. rewrite <- app_assoc. unfold encode_attribute at 1. cbn [fst snd] in *.
  apply attr_value in Hkv as [Hval Hpa]. rewrite parse_lines_line by done. cbn [fst snd parse_field].
  rewrite Hpa. cbn [mbind outcome_bind]. apply IH.
Qed.

Lemma session_attributes_back l s rest : Forall (fun kv => attr_ok (fst kv) (snd kv)) l ->
  parse_lines (lines (concat (map encode_attribute l) ++ rest)) (s, None) =
  parse_lines (lines rest) (mkSdp (sdp_version s) (origin s) (session_name s) (connection s) (timing s) (media s)
    (insert_all l (attributes s)), None).
Proof.
  intros Hl. revert s. induction Hl as [|[k v] l Hkv Hl IH]; intros s; [by destruct s|].
  cbn [map concat]. rewrite <- app_assoc. unfold encode_attribute at 1. cbn [fst snd] in *.
  apply attr_value in Hkv as [Hval Hpa]. rewrite parse_lines_line by done. cbn [fst snd parse_field].
  rewrite Hpa. cbn [mbind outcome_bind]. apply IH.
Qed.

Lemma media_back m s cur rest : media_ok m ->
  parse_lines (lines (encode_media m ++ rest)) (s, cur) = parse_lines (lines rest) (push_media s cur, Some m).
Proof.
  intros (Hty & Hport & Hproto & Hne & Hf & Ha). unfold encode_media, encode_attributes. rewrite <- app_assoc.
  assert (word (num (port m))) as Hpw by (apply digits_word; unfold uint in Hport; lia).
  rewrite parse_lines_line; [|done|done|].
  2:{ apply ne_value. auto with sdp. }
  cbn [fst snd parse_field]. unfold parse_media. rewrite words_space by done. rewrite words_space by done. rewrite words_space by done.
  rewrite words_join by done. destruct (formats m) as [|f fs] eqn:Ef; [done|]. cbn [mbind outcome_bind].
  rewrite parse_num_num by done. cbn [default from_option id]. rewrite media_attributes_back by (by apply order_ok).
  cbn [media_type port protocol formats m_attributes]. rewrite insert_all_order. rewrite <- Ef. by destruct m.
Qed.
Lemma medias_back ms s cur : Forall media_ok ms ->
  parse_lines (lines (concat (map encode_media ms))) (s, cur) =
  Ok (match rev ms with [] => (s, cur) | m :: r => (foldl (fun s m => push_media s (Some m)) (push_media s cur) (rev r), Some m) end).
Proof.
  intros Hm. revert s cur. induction Hm as [|m ms Hm Hms IH]; intros s cur; [done|].
  cbn [map concat]. rewrite media_back, IH by done. cbn [rev]. destruct (rev ms) as [|m' r]; [done|].
  cbn [app]. by rewrite rev_app_distr.
Qed.

Lemma push_all l s : foldl (fun s m => push_media s (Some m)) s l =
  mkSdp (sdp_version s) (origin s) (session_name s) (connection s) (timing s) (media s ++ l) (attributes s).
Proof.
  revert s. induction l as [|m l IH]; intros s; cbn [foldl]; [by rewrite app_nil_r; destruct s|].
  rewrite IH. cbn. by rewrite <- app_assoc.
Qed.

Lemma origin_back o rest v n c t ms a : (forall x, o = Some x -> origin_ok x) ->
  parse_lines (lines (encode_origin o ++ rest)) (mkSdp v None n c t ms a, None) =
  parse_lines (lines rest) (mkSdp v o n c t ms a, None).
Proof.
  intros Ho. destruct o as [o|]; [|done]. specialize (Ho o eq_refl). unfold origin_ok in Ho. rewrite !Forall_cons in Ho.
  destruct Ho as (H1 & H2 & H3 & H4 & H5 & H6 & _). cbn [encode_origin]. rewrite parse_lines_line; [|done|done|].
  2:{ apply ne_value. auto 10 with sdp. }
  cbn [fst snd parse_field]. unfold parse_origin. do 5 (rewrite words_space by done). rewrite words_one by done. by destruct o.
Qed.

Lemma connection_back co rest v o n ms a : (forall x, co = Some x -> connection_ok x) ->
  parse_lines (lines (encode_connection co ++ rest)) (mkSdp v o n None None ms a, None) =
  parse_lines (lines rest) (mkSdp v o n co None ms a, None).
Proof.
  intros Hc. destruct co as [c|]; [|done]. specialize (Hc c eq_refl). unfold connection_ok in Hc. rewrite !Forall_cons in Hc.
  destruct Hc as (H1 & H2 & H3 & _). cbn [encode_connection]. rewrite parse_lines_line; [|done|done|].
  2:{ apply ne_value. auto with sdp. }
  cbn [fst snd parse_field]. unfold parse_connection. do 2 (rewrite words_space by done). rewrite words_one by done. by destruct c.
Qed.

Lemma timing_back ti rest v o n c ms a : (forall t, ti = Some t -> uint 64 (fst t) /\ uint 64 (snd t)) ->
  parse_lines (lines (encode_timing ti ++ rest)) (mkSdp v o n c None ms a, None) =
  parse_lines (lines rest) (mkSdp v o n c ti ms a, None).
Proof.
  intros Ht. destruct ti as [[start stop]|]; [|done]. destruct (Ht _ eq_refl) as [H1 H2]. cbn [fst snd] in *.
  assert (word (num start)) by (apply digits_word; unfold uint in H1; lia).
  assert (word (num stop)) by (apply digits_word; unfold uint in H2; lia).
  cbn [encode_timing]. rewrite parse_lines_line; [|done|done|].
  2:{ apply ne_value. auto with sdp. }
  cbn [fst snd parse_field]. rewrite words_space, words_one by done. by rewrite !parse_num_num.
Qed.

Lemma sdp_back s : sdp_ok s -> parse (encode_sdp s) = Ok s.
Proof.
  intros (Hv & Ho & Hn & Hc & Ht & Hm & Ha). unfold parse, encode_sdp. destruct s as [v o n c t ms a].
  cbn [sdp_version origin session_name connection timing media attributes] in *.
  assert (word (num v)) as Hvw by (apply digits_word; unfold uint in Hv; lia).
  rewrite parse_lines_line by (done || by apply word_value). cbn [fst snd parse_field]. rewrite parse_num_num by done.
  cbn [ok_or mbind outcome_bind Sdp_default origin session_name connection timing media attributes].
  rewrite origin_back by done. rewrite parse_lines_line by done. cbn [fst snd parse_field mbind outcome_bind sdp_version origin session_name connection timing media attributes].
  rewrite connection_back, timing_back by done. unfold encode_attributes. rewrite session_attributes_back by (by apply order_ok).
  cbn [sdp_version origin session_name connection timing media attributes]. rewrite insert_all_order, medias_back by done.
  cbn [mbind outcome_bind]. destruct (rev ms) as [|m r] eqn:E.
  - apply (f_equal (@rev _)) in E. rewrite rev_involutive in E. by subst.
  - apply (f_equal (@rev _)) in E. rewrite rev_involutive in E. cbn [rev] in E. subst. by rewrite push_all.
Qed.
End RoundTrip.

(** ** The announcement *)

(** Printable characters: no space, line break or surrogate. *)
Definition printable (s : list Z) : Prop := Forall (fun c => 33 <= c <= 126) s.

Lemma printable_no_ws s : printable s -> no_ws s.
Proof.
  intros H. eapply Forall_impl; [exact H|]. cbn. intros c Hc. unfold is_whitespace.
  repeat match goal with |- context [?a <=? ?b] => destruct (Z.leb_spec a b); try lia
    | |- context [?a =? ?b] => destruct (Z.eqb_spec a b); try lia end; done.
Qed.

Lemma printable_value s : printable s -> value_ok s.
Proof.
  intros Hs. destruct s as [|c s]; [split; [apply not_elem_of_nil|done]|].
  apply word_value. split; [done|by apply printable_no_ws].
Qed.

Lemma printable_scalars s : printable s -> string_ok s.
Proof. intros H. eapply Forall_impl; [exact H|]. cbn. intros c Hc. unfold scalar. lia. Qed.

(** Literals, by evaluation. *)
Lemma forallb_neq s x : forallb (fun c => negb (c =? x)) s = true -> x ∉ s.
Proof. intros H Hin. rewrite forallb_forall in H. apply list_elem_of_In, H in Hin. by rewrite Z.eqb_refl in Hin. Qed.

Lemma word_lit s : negb (bool_decide (s = [])) && forallb (fun c => negb (is_whitespace c)) s = true -> word s.
Proof.
  intros [Hne Hs]%andb_prop. split; [by case_bool_decide|]. apply Forall_forall. intros c Hc.
  rewrite forallb_forall in Hs. apply list_elem_of_In, Hs in Hc. by apply negb_true_iff in Hc.
Qed.

Lemma value_lit s : forallb (fun c => negb (c =? 10)) s && match last s with Some x => negb (is_whitespace x) | None => true end = true ->
  value_ok s.
Proof.
  intros [Hn Hl]%andb_prop. split; [by apply forallb_neq|]. intros x Hx. rewrite Hx in Hl. by apply negb_true_iff in Hl.
Qed.

Lemma attr_lit name v : forallb (fun c => negb (c =? 58)) name && forallb (fun c => negb (c =? 10)) name = true ->
  value_ok v -> attr_ok name (Some v).
Proof. intros [H1 H2]%andb_prop Hv. split_and!; [by apply forallb_neq..|done]. Qed.

Section Announce.
Context {O : AttrOrder} {OL : AttrOrderLaws O}.

Lemma announce_ok sid cip sip key iv : word sid -> word cip -> word sip -> value_ok key -> value_ok iv ->
  sdp_ok (build (announce_builder sid cip sip key iv)).
Proof.
  intros Hs Hc Hp Hk Hi.
  assert (forall a, word (addr_type_of a)) as Hat by (intros a; unfold addr_type_of; case_bool_decide; by apply word_lit).
  unfold build, announce_builder, media_attribute, add_media, set_timing, set_connection, set_session_name, set_origin, with_sdp.
  cbn [current_media b_sdp push_media with_media_attribute].
  split_and!; cbn [sdp_version origin session_name connection timing media attributes SdpBuilder_new b_sdp Sdp_default].
  - done.
  - intros o [= <-]. unfold origin_ok. cbn [username session_id session_version net_type addr_type unicast_address].
    repeat (apply Forall_cons_2); try done; by apply word_lit.
  - by apply value_lit.
  - intros o [= <-]. unfold connection_ok. cbn [c_net_type c_addr_type address].
    repeat (apply Forall_cons_2); try done; by apply word_lit.
  - by intros t [= <-].
  - apply Forall_cons_2; [|done]. split_and!; cbn [media_type port protocol formats m_attributes];
      [by apply word_lit|done|by apply word_lit|done|apply Forall_cons_2; [by apply word_lit|done]|].
    repeat (apply map_Forall_insert_2; [apply attr_lit; [done|first [done|by apply value_lit]]|]). apply map_Forall_empty.
  - apply map_Forall_empty.
Qed.

(** *** Everything the encoder writes is text *)
Lemma line_text c v : 0 <= c < 128 -> string_ok v -> string_ok (line c v).
Proof.
  intros Hc Hv. unfold line. repeat (apply Forall_cons_2; [unfold scalar; lia|]). apply Forall_app_2; [done|].
  repeat constructor; unfold scalar; lia.
Qed.

Lemma text_app a b : string_ok a -> string_ok b -> string_ok (a ++ b).
Proof. apply Forall_app_2. Qed.
Lemma text_cons c v : 0 <= c < 128 -> string_ok v -> string_ok (c :: v).
Proof. intros Hc. apply Forall_cons_2. unfold scalar. lia. Qed.
Hint Resolve bs_text line_text text_app text_cons : sdp.

Lemma announce_text sid cip sip key iv : string_ok sid -> string_ok cip -> string_ok sip -> string_ok key -> string_ok iv ->
  string_ok (create_raop_announce_sdp sid cip sip key iv).
Proof.
  intros Hs Hc Hp Hk Hi.
  assert (forall a, string_ok (addr_type_of a)) as Hat by (intros a; unfold addr_type_of; case_bool_decide; apply bs_text).
  assert (forall z, string_ok (num z)) as Hnum by (intros; apply bs_text).
  unfold create_raop_announce_sdp, encode, build, announce_builder, media_attribute, add_media, set_timing, set_connection,
    set_session_name, set_origin, with_sdp.
  cbn [current_media b_sdp push_media with_media_attribute].
  unfold encode_sdp. cbn [sdp_version origin session_name connection timing media attributes SdpBuilder_new b_sdp Sdp_default
    app map concat encode_origin encode_connection encode_timing username session_id session_version net_type addr_type
    unicast_address c_net_type c_addr_type address].
  assert (forall a, map_Forall (fun k v => string_ok k /\ string_ok (default [] v)) a -> string_ok (encode_attributes a)) as Ha.
  { intros a Hall. unfold encode_attributes. apply Forall_concat, Forall_map. rewrite (attr_order_perm a). apply Forall_forall.
    intros [k v] Hkv. apply elem_of_map_to_list, Hall in Hkv as [? ?]. cbn. apply line_text; [lia|].
    destruct v; cbn [snd fst default from_option] in *; auto with sdp. apply text_app; [done|]. apply text_cons; [lia|done]. }
  repeat first [apply text_app|apply line_text; [lia|]|apply text_cons; [lia|]|apply bs_text|done|apply Hnum|apply Hat|apply Ha].
  unfold encode_media. cbn [media_type port protocol formats m_attributes join_words].
  repeat first [apply text_app|apply line_text; [lia|]|apply text_cons; [lia|]|apply bs_text|done|apply Hnum|apply Hat|apply Ha|apply Forall_nil_2].
  repeat (apply map_Forall_insert_2; [split; [apply bs_text|cbn [default from_option]; first [done|apply bs_text]]|]).
  1: apply map_Forall_empty. apply Forall_nil_2.
Qed.
End Announce.

(** ** Properties *)

(** C28: SDP round-trips. What the encoder writes for a well-formed description, with
    the attributes in whatever order the hash table yields them, parses to the
    same description: origin, connection, timing, session attributes and every
    media section with its formats and attributes. *)
Theorem sdp_roundtrip {O : AttrOrder} {OL : AttrOrderLaws O} (s : SessionDescription) (Hs : sdp_ok s) : parse (encode_sdp s) = Ok s.
Proof. by apply sdp_back. Qed.

Section Extract.
Context {O : AttrOrder} {OL : AttrOrderLaws O} {B : Base64} {BL : Base64Laws B} {R : Rsa}.

(** What the receiver makes of an announcement, up to the keys. *)
Lemma announce_params r sid cip sip key iv rsa : word sid -> word cip -> word sip -> string_ok sid -> string_ok cip ->
  string_ok sip -> printable key -> printable iv -> body r = utf8_encode (create_raop_announce_sdp sid cip sip key iv) ->
  process_announce r rsa = map_err SdpParse (
    k ← ok_or (b64_decode key) (InvalidAttribute (bs "Invalid base64 in rsaaeskey"));
    i ← ok_or (b64_decode iv) (InvalidAttribute (bs "Invalid base64 in aesiv"));
    if (length i =? 16)%nat then
      key ← (match rsa with Some rk => a ← decrypt_aes_key k rk; Ok (Some a) | None => Ok None end);
      Ok (mkParams Alac 44100 16 2 352 key (Some i) (Some 11025))
    else Err (InvalidAttribute (bs "AES IV must be 16 bytes, got " ++ bs (pretty (Z.of_nat (length i)))))).
Proof.
  intros Hs Hc Hp Ts Tc Tp Pk Pi Hb. unfold process_announce. rewrite bool_decide_false.
  2:{ rewrite Hb. unfold create_raop_announce_sdp, encode, encode_sdp, line. by rewrite utf8_encode_app. }
  pose proof (announce_text sid cip sip key iv Ts Tc Tp (printable_scalars _ Pk) (printable_scalars _ Pi)) as Ht.
  pose proof (utf8_roundtrip _ [] Ht) as Hu. rewrite app_nil_r in Hu. cbn [from_utf8 fmap option_fmap option_map] in Hu.
  rewrite app_nil_r in Hu. rewrite Hb, Hu. cbn [ok_or mbind outcome_bind]. unfold create_raop_announce_sdp, encode.
  rewrite sdp_back by (apply announce_ok; auto using printable_value). cbn [map_err mbind outcome_bind].
  f_equal. set (s := build (announce_builder sid cip sip key iv)).
  set (m := mkMedia (bs "audio") 0 (bs "RTP/AVP") [bs "96"]
    (<[bs "min-latency" := Some (bs "11025")]> (<[bs "aesiv" := Some iv]> (<[bs "rsaaeskey" := Some key]>
      (<[bs "fmtp" := Some (bs "96 352 0 16 40 10 14 2 255 0 0 44100")]> (<[bs "rtpmap" := Some (bs "96 AppleLossless")]> ∅)))))).
  assert (audio_media s = Some m) as Hm by reflexivity.
  assert (attr (m_attributes m) (bs "rsaaeskey") = Some key) as Hkey by (vm_compute; reflexivity).
  assert (attr (m_attributes m) (bs "aesiv") = Some iv) as Hiv by (vm_compute; reflexivity).
  assert (attr (m_attributes m) (bs "rtpmap") = Some (bs "96 AppleLossless")) as Hrtp by (vm_compute; reflexivity).
  assert (attr (m_attributes m) (bs "fmtp") = Some (bs "96 352 0 16 40 10 14 2 255 0 0 44100")) as Hf by (vm_compute; reflexivity).
  assert (attr (m_attributes m) (bs "min-latency") = Some (bs "11025")) as Hml by (vm_compute; reflexivity).
  clearbody s m. unfold extract_stream_parameters, detect_codec, parse_encryption. rewrite Hm. cbn [ok_or mbind outcome_bind].
  rewrite Hkey, Hiv, Hrtp, Hf, Hml. cbn [mbind option_bind].
  assert (contains (bs "AppleLossless") (bs "96 AppleLossless") = true) as -> by reflexivity. cbn [ok_or mbind outcome_bind].
  assert (AlacParameters_parse (bs "96 352 0 16 40 10 14 2 255 0 0 44100") = Ok (mkAlac 352 0 16 40 10 14 2 255 0 0 44100)) as ->
    by (vm_compute; reflexivity).
  cbn [mbind outcome_bind a_sample_rate bit_depth a_channels a_frames_per_packet].
  rewrite !trim_no_ws by (by apply printable_no_ws).
  destruct (b64_decode key) as [k|]; [|done]. destruct (b64_decode iv) as [i|]; [|done]. cbn [ok_or mbind outcome_bind].
  destruct (length i =? 16)%nat; [|done]. cbn [mbind outcome_bind encrypted_aes_key e_aes_iv].
  assert (parse_num 32 (bs "11025") = Some 11025) as -> by reflexivity.
  destruct rsa as [rk|]; cbn [mbind outcome_bind]; [|done]. by destruct (decrypt_aes_key k rk).
Qed.

(** The receiver understands an announcement. Of the SDP that
    [create_raop_announce_sdp] writes, with the encrypted key and the vector in the
    encoding the receiver reads, the ANNOUNCE handler recovers Apple Lossless at
    44.1 kHz, 16 bits, stereo and 352 frames per packet, the AES key it decrypts
    (none without a private key), the vector and the latency. *)
Theorem announce_understood (r : RtspRequest) (sid cip sip enc iv : list Z) (rsa aes : option (list Z))
  (Hs : word sid /\ string_ok sid) (Hc : word cip /\ string_ok cip) (Hp : word sip /\ string_ok sip)
  (He : bytes_ok enc) (Hi : bytes_ok iv) (Hl : length iv = 16%nat)
  (Hb : body r = utf8_encode (create_raop_announce_sdp sid cip sip (b64_encode enc) (b64_encode iv)))
  (Hr : (match rsa with Some rk => a ← decrypt_aes_key enc rk; Ok (Some a) | None => Ok None end) = Ok aes) :
  process_announce r rsa = Ok (mkParams Alac 44100 16 2 352 aes (Some iv) (Some 11025)).
Proof.
  destruct Hs, Hc, Hp. rewrite (announce_params r sid cip sip (b64_encode enc) (b64_encode iv)) by (try done; by apply b64_alphabet).
  rewrite !b64_inverse by done. cbn [ok_or mbind outcome_bind]. rewrite Hl. cbn [Nat.eqb].
  rewrite Hr. done.
Qed.

(** The crate's receiver rejects the crate's own announcements. The client
    writes its 256-byte encrypted key without padding; the file that wrote it reads
    it back ([parse_session_keys]), but the receiver's SDP code requires padding
    and answers every such ANNOUNCE with an error, whatever its private key. *)
Theorem own_announce_rejected (r : RtspRequest) (sid cip sip : list Z) (k : RaopSessionKeys) (rsa : option (list Z))
  (decrypt_oaep : list Z -> outcome CryptoError (list Z))
  (Hs : word sid /\ string_ok sid) (Hc : word cip /\ string_ok cip) (Hp : word sip /\ string_ok sip)
  (Hk : length (k_aes_key k) = 16%nat /\ length (k_aes_iv k) = 16%nat /\ length (k_encrypted_key k) = 256%nat)
  (Hbytes : bytes_ok (k_aes_iv k) /\ bytes_ok (k_encrypted_key k))
  (Hd : decrypt_oaep (k_encrypted_key k) = Ok (k_aes_key k))
  (Hb : body r = utf8_encode (create_raop_announce_sdp sid cip sip (rsaaeskey k) (aesiv k))) :
  parse_session_keys decrypt_oaep (rsaaeskey k) (aesiv k) = Ok (k_aes_key k, k_aes_iv k) /\
  process_announce r rsa = Err (SdpParse (InvalidAttribute (bs "Invalid base64 in rsaaeskey"))).
Proof.
  destruct Hs, Hc, Hp, Hk as (Hkey & Hiv & Henc), Hbytes as [Bi Be]. split.
  - unfold parse_session_keys, rsaaeskey, aesiv. rewrite !trim_no_ws by (by apply printable_no_ws, b64np_alphabet).
    rewrite !b64np_inverse by done. cbn [ok_or mbind outcome_bind]. rewrite Hd. cbn [mbind outcome_bind]. by rewrite Hkey, Hiv.
  - rewrite (announce_params r sid cip sip (rsaaeskey k) (aesiv k)) by (try done; by apply b64np_alphabet).
    destruct (b64_decode (rsaaeskey k)) as [d|] eqn:E; [|done]. exfalso. apply b64_padded in E. revert E.
    unfold rsaaeskey. rewrite b64np_length, Henc. vm_compute. congruence.
Qed.
End Extract.

(** A character of three bytes before the equals sign makes the parser slice
    inside it. *)
Example parse_panics : parse (bs "v=0" ++ crlf ++ [0x20AC; 61] ++ bs "x") = Panic.
Proof. vm_compute. reflexivity. Qed.

(** ** A concrete base64 *)
Module RealBase64.
Definition enc6 (n : Z) : Z :=
  if n <? 26 then 65 + n else if n <? 52 then 97 + (n - 26) else if n <? 62 then 48 + (n - 52) else if n =? 62 then 43 else 47.
Definition dec6 (c : Z) : Z :=
  if (65 <=? c) && (c <=? 90) then c - 65 else if (97 <=? c) && (c <=? 122) then c - 71
  else if (48 <=? c) && (c <=? 57) then c + 4 else if c =? 43 then 62 else 63.

Fixpoint np_encode (d : list Z) : list Z :=
  match d with
  | a :: b :: c :: r =>
      enc6 (a / 4) :: enc6 (a mod 4 * 16 + b / 16) :: enc6 (b mod 16 * 4 + c / 64) :: enc6 (c mod 64) :: np_encode r
  | [a; b] => [enc6 (a / 4); enc6 (a mod 4 * 16 + b / 16); enc6 (b mod 16 * 4)]
  | [a] => [enc6 (a / 4); enc6 (a mod 4 * 16)]
  | [] => []
  end.
Fixpoint np_decode (s : list Z) : option (list Z) :=
  match s with
  | p :: q :: t :: u :: r =>
      app [dec6 p * 4 + dec6 q / 16; dec6 q mod 16 * 16 + dec6 t / 4; dec6 t mod 4 * 64 + dec6 u] <$> np_decode r
  | [p; q; t] => Some [dec6 p * 4 + dec6 q / 16; dec6 q mod 16 * 16 + dec6 t / 4]
  | [p; q] => Some [dec6 p * 4 + dec6 q / 16]
  | [] => Some []
  | _ => None
  end.
Definition pad (d : list Z) : list Z :=
  match (length d `mod` 3)%nat with 1%nat => [61; 61] | 2%nat => [61] | _ => [] end.

#[export] Instance base64 : Base64 := {
  b64_encode d := np_encode d ++ pad d;
  b64_decode s := if (length s `mod` 4 =? 0)%nat then np_decode (filter (fun c => c <> 61) s) else None;
  b64np_encode := np_encode;
  b64np_decode := np_decode
}.

(** Induction in steps of three. *)
Lemma list_ind3 (P : list Z -> Prop) : P [] -> (forall a, P [a]) -> (forall a b, P [a; b]) ->
  (forall a b c r, P r -> P (a :: b :: c :: r)) -> forall d, P d.
Proof.
  intros H0 H1 H2 H3. fix IH 1. intros [|a [|b [|c r]]]; [done|apply H1|apply H2|]. apply H3, IH.
Qed.

Lemma dec_enc n : 0 <= n < 64 -> dec6 (enc6 n) = n.
Proof.
  intros Hn. unfold enc6. repeat case_match; bool_to_prop; unfold dec6;
    repeat match goal with |- context [?a <=? ?b] => destruct (Z.leb_spec a b); try lia
      | |- context [?a =? ?b] => destruct (Z.eqb_spec a b); try lia end; cbn; lia.
Qed.

Lemma enc6_range n : 0 <= n -> 33 <= enc6 n <= 126 /\ enc6 n <> 61.
Proof. intros Hn. unfold enc6. repeat case_match; bool_to_prop; lia. Qed.

#[local] Ltac Zify.zify_post_hook ::= Z.to_euclidean_division_equations.

Lemma np_alphabet d : bytes_ok d -> Forall (fun c => 33 <= c <= 126 /\ c <> 61) (np_encode d).
Proof.
  induction d as [|a|a b|a b c r IH] using list_ind3; intros Hd; cbn [np_encode]; repeat apply Forall_cons_2; try apply Forall_nil_2;
    unfold bytes_ok in Hd; rewrite ?Forall_cons in Hd; unfold byte_ok in Hd; try (by apply IH; tauto); apply enc6_range; lia.
Qed.

Lemma np_inverse d : bytes_ok d -> np_decode (np_encode d) = Some d.
Proof.
  induction d as [|a|a b|a b c r IH] using list_ind3; intros Hd; cbn [np_encode np_decode];
    unfold bytes_ok in Hd; rewrite ?Forall_cons in Hd; unfold byte_ok in Hd; [done| | |];
    try rewrite IH by tauto; cbn [fmap option_fmap option_map app]; repeat f_equal; rewrite !dec_enc by lia; lia.
Qed.

Lemma np_length d : length (np_encode d) = ((4 * length d + 2) / 3)%nat.
Proof.
  induction d as [|a|a b|a b c r IH] using list_ind3; [done..|]. cbn [np_encode length]. rewrite IH.
  replace (4 * S (S (S (length r))) + 2)%nat with (4 * length r + 2 + 4 * 3)%nat by lia. rewrite Nat.div_add by lia. lia.
Qed.

Lemma padded_length d : (length (np_encode d ++ pad d) `mod` 4 = 0)%nat.
Proof.
  rewrite length_app, np_length. unfold pad. pose proof (Nat.div_mod_eq (length d) 3). pose proof (Nat.mod_upper_bound (length d) 3).
  set (q := (length d / 3)%nat) in *. set (m := (length d `mod` 3)%nat) in *.
  assert (m = 0 \/ m = 1 \/ m = 2)%nat as [E|[E|E]] by lia; rewrite E; cbn [length]; rewrite H, E.
  - replace (4 * (3 * q + 0) + 2)%nat with (2 + 4 * q * 3)%nat by lia. rewrite Nat.div_add by lia. 
    replace (2 / 3 + 4 * q + 0)%nat with (0 + q * 4)%nat by (change (2 / 3)%nat with 0%nat; lia). by rewrite Nat.Div0.mod_add.
  - replace (4 * (3 * q + 1) + 2)%nat with (6 + 4 * q * 3)%nat by lia. rewrite Nat.div_add by lia.
    replace (6 / 3 + 4 * q + 2)%nat with (0 + (q + 1) * 4)%nat by (change (6 / 3)%nat with 2%nat; lia). by rewrite Nat.Div0.mod_add.
  - replace (4 * (3 * q + 2) + 2)%nat with (10 + 4 * q * 3)%nat by lia. rewrite Nat.div_add by lia.
    replace (10 / 3 + 4 * q + 1)%nat with (0 + (q + 1) * 4)%nat by (change (10 / 3)%nat with 3%nat; lia). by rewrite Nat.Div0.mod_add.
Qed.

#[export] Instance base64_laws : Base64Laws base64.
Proof.
  split; cbn.
  - intros d Hd. rewrite (proj2 (Nat.eqb_eq _ _)) by apply padded_length. rewrite filter_app, filter_all, filter_none.
    + by rewrite app_nil_r, np_inverse.
    + unfold pad. repeat case_match; repeat constructor; congruence.
    + eapply Forall_impl; [by apply np_alphabet|]. cbn. tauto.
  - apply np_inverse.
  - intros s d. case_match eqn:E; [|done]. intros _. by apply Nat.eqb_eq in E.
  - apply np_length.
  - intros d Hd. apply Forall_app_2; [eapply Forall_impl; [by apply np_alphabet|]; cbn; tauto|].
    unfold pad. repeat case_match; repeat constructor; lia.
  - intros d Hd. eapply Forall_impl; [by apply np_alphabet|]. cbn. tauto.
Qed.
End RealBase64.

(** *** Witnesses *)
Import RealBase64.
#[local] Instance table_order : AttrOrder := fun m => map_to_list m.
#[local] Instance table_order_laws : AttrOrderLaws table_order.
Proof. intros m. reflexivity. Qed.
(** A key that decrypts by dropping 240 bytes. *)
#[local] Instance short_rsa : Rsa :=
  {| RsaPrivateKey := unit; from_pkcs8_der _ := inr tt; pkcs1v15_decrypt _ c := inr (take 16 c) |}.

Definition demo_sdp : SessionDescription :=
  mkSdp 0 (Some (mkOrigin (bs "iTunes") (bs "1234") (bs "1") (bs "IN") (bs "IP4") (bs "10.0.0.2"))) (bs "My session")
    None (Some (0, 0)) [mkMedia (bs "audio") 6000 (bs "RTP/AVP") [bs "96"; bs "97"] {[bs "fmtp" := Some (bs "96 352")]}]
    {[bs "recvonly" := None]}.

Lemma sdp_roundtrip_witness : parse (encode_sdp demo_sdp) = Ok demo_sdp.
Proof.
  apply sdp_roundtrip. split_and!; cbn [demo_sdp sdp_version origin session_name connection timing media attributes].
  - done.
  - intros o [= <-]. repeat (apply Forall_cons_2; [by apply word_lit|]). apply Forall_nil_2.
  - by apply value_lit.
  - done.
  - by intros t [= <-].
  - apply Forall_cons_2; [|done]. split_and!; cbn [media_type port protocol formats m_attributes];
      [by apply word_lit|done|by apply word_lit|done|by repeat (apply Forall_cons_2; [by apply word_lit|])|].
    apply map_Forall_insert_2; [|apply map_Forall_empty]. apply attr_lit; [done|by apply value_lit].
  - apply map_Forall_insert_2; [|apply map_Forall_empty].
    split_and!; [by apply forallb_neq..|by apply value_lit].
Defined.

Definition announce_of (key iv : list Z) : RtspRequest :=
  request_body (Request_new Announce "rtsp://10.0.0.3/1234")
    (utf8_encode (create_raop_announce_sdp (bs "1234") (bs "0.0.0.0") (bs "10.0.0.3") key iv)).

Lemma announce_understood_witness :
  process_announce (announce_of (b64_encode (replicate 256 7)) (b64_encode (replicate 16 9))) (Some [1]) =
    Ok (mkParams Alac 44100 16 2 352 (Some (replicate 16 7)) (Some (replicate 16 9)) (Some 11025)).
Proof.
  assert (forall s, string_ok (bs s)) as Ht by apply bs_text.
  apply (announce_understood _ (bs "1234") (bs "0.0.0.0") (bs "10.0.0.3") (replicate 256 7) (replicate 16 9));
    [split; [by apply word_lit|apply Ht]|split; [by apply word_lit|apply Ht]|split; [by apply word_lit|apply Ht]|by apply Forall_replicate|by apply Forall_replicate|reflexivity..].
Defined.

Lemma own_announce_rejected_witness :
  let k := mkKeys (replicate 16 1) (replicate 16 2) (replicate 256 3) in
  parse_session_keys (fun _ => Ok (replicate 16 1)) (rsaaeskey k) (aesiv k) = Ok (k_aes_key k, k_aes_iv k) /\
  process_announce (announce_of (rsaaeskey k) (aesiv k)) None = Err (SdpParse (InvalidAttribute (bs "Invalid base64 in rsaaeskey"))).
Proof.
  intros k. assert (forall s, string_ok (bs s)) as Ht by apply bs_text.
  apply (own_announce_rejected _ (bs "1234") (bs "0.0.0.0") (bs "10.0.0.3"));
    [split; [by apply word_lit|apply Ht]|split; [by apply word_lit|apply Ht]|split; [by apply word_lit|apply Ht]|done|split; by apply Forall_replicate|reflexivity..].
Defined.

End Sdp.
