(* ===== verification/Dmap.v ===== *)
(** * DMAP: track metadata, progress and artwork

    Models [src/protocol/daap/]: the tagged format with its encoder and recursive
    parser ([dmap.rs]), the client's track metadata ([metadata.rs]), progress
    ([progress.rs]) and artwork ([artwork.rs]), and the receiver's own readers
    [src/receiver/metadata_handler.rs] and [artwork_handler.rs].  A string is its
    list of Unicode scalars.  The quotients of [DmapProgress] in floating point are
    left out. *)

From stdpp Require Import sets pretty.
From S2P Require Import Text Unicode Rtsp RtspParser.

Module Dmap.
Import Unicode.

(** ** Tags and values *)
Inductive DmapTag :=
| ItemName | SongArtist | SongAlbum | SongGenre | SongTrackNumber | SongDiscNumber | SongYear | SongTime
| Listing | ListingItem | DatabaseSongs
| Unknown (c : list Z).

#[export] Instance DmapTag_eq_dec : EqDecision DmapTag.
Proof. solve_decision. Defined.

Definition code (t : DmapTag) : list Z :=
  match t with
  | ItemName => bs "minm" | SongArtist => bs "asar" | SongAlbum => bs "asal" | SongGenre => bs "asgn"
  | SongTrackNumber => bs "astn" | SongDiscNumber => bs "asdn" | SongYear => bs "asyr" | SongTime => bs "astm"
  | Listing => bs "mlcl" | ListingItem => bs "mlit" | DatabaseSongs => bs "adbs"
  | Unknown c => c
  end.

Definition TAGS : list DmapTag :=
  [ItemName; SongArtist; SongAlbum; SongGenre; SongTrackNumber; SongDiscNumber; SongYear; SongTime; Listing; ListingItem;
   DatabaseSongs].

Definition from_bytes (b : list Z) : DmapTag :=
  default (Unknown b) (List.find (fun t => bool_decide (b = code t)) TAGS).

Definition is_container (t : DmapTag) : bool :=
  match t with Listing | ListingItem | DatabaseSongs => true | _ => false end.

(** [Display]. *)
Definition tag_to_string (t : DmapTag) : list Z := default (bs "????") (from_utf8 (code t)).

Inductive DmapValue :=
| DString (s : list Z)
| Int (n : Z)
| Container (items : list (DmapTag * DmapValue))
| Raw (b : list Z).

(** ** Encoder *)

(** A length that does not fit in 32 bits panics. *)
Definition with_length {E} (data : list Z) : outcome E (list Z) :=
  n ← chk_u 32 (Z.of_nat (length data)); Ok (to_be 4 n ++ data).

Definition encode_int (n : Z) : list Z :=
  if (0 <=? n) && (n <=? 255) then to_be 4 1 ++ [n]
  else if (- 2 ^ 15 <=? n) && (n <? 2 ^ 15) then to_be 4 2 ++ to_be 2 n
  else if (- 2 ^ 31 <=? n) && (n <? 2 ^ 31) then to_be 4 4 ++ to_be 4 n
  else to_be 4 8 ++ to_be 8 n.

Section Items.
Context {E : Type}.
Variable enc : DmapValue -> outcome E (list Z).

(** [encode_tag] for each item of a container. *)
Fixpoint encode_items (items : list (DmapTag * DmapValue)) : outcome E (list Z) :=
  match items with
  | [] => Ok []
  | (t, v) :: items => b ← enc v; rest ← encode_items items; Ok (code t ++ b ++ rest)
  end.
End Items.

(** The length and the bytes of a value. *)
Fixpoint encode_value {E} (v : DmapValue) : outcome E (list Z) :=
  match v with
  | DString s => with_length (utf8_encode s)
  | Int n => Ok (encode_int n)
  | Container items => inner ← encode_items encode_value items; with_length inner
  | Raw data => with_length data
  end.

(** [DmapEncoder]: its buffer. *)
Definition DmapEncoder : Type := list Z.
Definition Encoder_new : DmapEncoder := [].
Definition encode_tag {E} (e : DmapEncoder) (t : DmapTag) (v : DmapValue) : outcome E DmapEncoder :=
  b ← encode_value v; Ok (e ++ code t ++ b).
Definition encode_string {E} (e : DmapEncoder) (t : DmapTag) (s : list Z) : outcome E DmapEncoder := encode_tag e t (DString s).
Definition encode_integer {E} (e : DmapEncoder) (t : DmapTag) (n : Z) : outcome E DmapEncoder := encode_tag e t (Int n).
Definition finish (e : DmapEncoder) : list Z := e.

(** ** Parser *)
Inductive DmapDecodeError := InvalidTag | UnexpectedEnd | InvalidIntSize (n : Z).

(** [None] is running out of fuel. *)
Notation pres A := (outcome (option DmapDecodeError) A).

(** [char::is_control]. *)
Definition is_control (c : Z) : bool := (0 <=? c) && (c <? 32) || (127 <=? c) && (c <? 160).

Definition is_int_tag (t : DmapTag) : bool :=
  match t with SongTrackNumber | SongDiscNumber | SongYear | SongTime => true | _ => false end.

Definition parse_value (t : DmapTag) (b : list Z) : pres DmapValue :=
  if is_int_tag t then
    match length b with
    | 1%nat => Ok (Int (from_be b))
    | 2%nat => Ok (Int (sext 16 (from_be b)))
    | 4%nat => Ok (Int (sext 32 (from_be b)))
    | 8%nat => Ok (Int (sext 64 (from_be b)))
    | n => Err (Some (InvalidIntSize (Z.of_nat n)))
    end
  else
    match from_utf8 b with
    | Some s => if forallb (fun c => negb (is_control c)) s then Ok (DString s) else Ok (Raw b)
    | None => Ok (Raw b)
    end.

Fixpoint parse_container (fuel : nat) (data : list Z) : pres (list (DmapTag * DmapValue)) :=
  match fuel with
  | O => Err None
  | S fuel =>
      if bool_decide (data = []) then Ok []
      else if (length data <? 8)%nat then Err (Some UnexpectedEnd)
      else
        let len := from_be (take 4 (drop 4 data)) in
        let data' := drop 8 data in
        if Z.of_nat (length data') <? len then Err (Some UnexpectedEnd)
        else
          let value_bytes := take (Z.to_nat len) data' in
          let rest := drop (Z.to_nat len) data' in
          let t := from_bytes (take 4 data) in
          v ← (if is_container t then Container <$> parse_container fuel value_bytes else parse_value t value_bytes);
          items ← parse_container fuel rest;
          Ok ((t, v) :: items)
  end.

Definition parse (data : list Z) : pres DmapValue := Container <$> parse_container (S (length data)) data.

(** The pairs of [decode_dmap], containers flattened. *)
Fixpoint flatten (t : DmapTag) (v : DmapValue) : list (list Z * list Z) :=
  match v with
  | DString s => [(tag_to_string t, s)]
  | Int i => [(tag_to_string t, bs (pretty i))]
  | Container items => (fix go l := match l with [] => [] | (t, v) :: l => flatten t v ++ go l end) items
  | Raw b => [(tag_to_string t, bs "<" ++ bs (pretty (Z.of_nat (length b))) ++ bs " bytes>")]
  end.
Definition decode_dmap (data : list Z) : pres (list (list Z * list Z)) := v ← parse data; Ok (flatten Listing v).

(** ** The client's metadata *)
Record TrackMetadata := mkMetadata {
  title : option (list Z); artist : option (list Z); album : option (list Z); genre : option (list Z);
  track_number : option Z; disc_number : option Z; year : option Z; duration_ms : option Z
}.
Definition Metadata_new : TrackMetadata := mkMetadata None None None None None None None None.

(** [MetadataBuilder]. *)
Definition set_title (m : TrackMetadata) (v : list Z) : TrackMetadata :=
  mkMetadata (Some v) (artist m) (album m) (genre m) (track_number m) (disc_number m) (year m) (duration_ms m).
Definition set_artist (m : TrackMetadata) (v : list Z) : TrackMetadata :=
  mkMetadata (title m) (Some v) (album m) (genre m) (track_number m) (disc_number m) (year m) (duration_ms m).
Definition set_album (m : TrackMetadata) (v : list Z) : TrackMetadata :=
  mkMetadata (title m) (artist m) (Some v) (genre m) (track_number m) (disc_number m) (year m) (duration_ms m).
Definition set_genre (m : TrackMetadata) (v : list Z) : TrackMetadata :=
  mkMetadata (title m) (artist m) (album m) (Some v) (track_number m) (disc_number m) (year m) (duration_ms m).
Definition set_track_number (m : TrackMetadata) (v : Z) : TrackMetadata :=
  mkMetadata (title m) (artist m) (album m) (genre m) (Some v) (disc_number m) (year m) (duration_ms m).
Definition set_disc_number (m : TrackMetadata) (v : Z) : TrackMetadata :=
  mkMetadata (title m) (artist m) (album m) (genre m) (track_number m) (Some v) (year m) (duration_ms m).
Definition set_year (m : TrackMetadata) (v : Z) : TrackMetadata :=
  mkMetadata (title m) (artist m) (album m) (genre m) (track_number m) (disc_number m) (Some v) (duration_ms m).
Definition set_duration_ms (m : TrackMetadata) (v : Z) : TrackMetadata :=
  mkMetadata (title m) (artist m) (album m) (genre m) (track_number m) (disc_number m) (year m) (Some v).

Definition is_empty (m : TrackMetadata) : bool :=
  bool_decide (title m = None) && bool_decide (artist m = None) && bool_decide (album m = None) &&
  bool_decide (genre m = None) && bool_decide (track_number m = None) && bool_decide (duration_ms m = None).

(** The items pushed in order. *)
Definition text_item (t : DmapTag) (v : option (list Z)) : list (DmapTag * DmapValue) :=
  match v with Some s => [(t, DString s)] | None => [] end.
Definition number_item (t : DmapTag) (v : option Z) : list (DmapTag * DmapValue) :=
  match v with Some n => [(t, Int n)] | None => [] end.
Definition metadata_items (m : TrackMetadata) : list (DmapTag * DmapValue) :=
  text_item ItemName (title m) ++ text_item SongArtist (artist m) ++ text_item SongAlbum (album m) ++
  text_item SongGenre (genre m) ++ number_item SongTrackNumber (track_number m) ++
  number_item SongDiscNumber (disc_number m) ++ number_item SongYear (year m) ++ number_item SongTime (duration_ms m).

Definition encode_dmap {E} (m : TrackMetadata) : outcome E (list Z) :=
  encode_tag Encoder_new ListingItem (Container (metadata_items m)).

(** ** The receiver's metadata ([metadata_handler.rs]) *)
Record ReceivedMetadata := mkReceived {
  r_title : option (list Z); r_artist : option (list Z); r_album : option (list Z); r_genre : option (list Z);
  r_track_number : option Z; r_track_count : option Z; r_disc_number : option Z; r_disc_count : option Z;
  r_duration_ms : option Z
}.
Definition Received_default : ReceivedMetadata := mkReceived None None None None None None None None None.

Inductive MetadataError := InvalidFormat | IncompleteData.

(** The arms of the match on the tag; a number needs four bytes. *)
Definition apply_tag (m : ReceivedMetadata) (tag value : list Z) : ReceivedMetadata :=
  let '(mkReceived t a al g tn tc dn dc d) := m in
  let text := Some (from_utf8_lossy value) in
  let number old := if (4 <=? length value)%nat then Some (from_be (take 4 value)) else old in
  if bool_decide (tag = bs "minm") then mkReceived text a al g tn tc dn dc d
  else if bool_decide (tag = bs "asar") then mkReceived t text al g tn tc dn dc d
  else if bool_decide (tag = bs "asal") then mkReceived t a text g tn tc dn dc d
  else if bool_decide (tag = bs "asgn") then mkReceived t a al text tn tc dn dc d
  else if bool_decide (tag = bs "astn") then mkReceived t a al g (number tn) tc dn dc d
  else if bool_decide (tag = bs "astc") then mkReceived t a al g tn (number tc) dn dc d
  else if bool_decide (tag = bs "asdn") then mkReceived t a al g tn tc (number dn) dc d
  else if bool_decide (tag = bs "asdc") then mkReceived t a al g tn tc dn (number dc) d
  else if bool_decide (tag = bs "astm") then mkReceived t a al g tn tc dn dc (number d)
  else m.

(** [None] is running out of fuel. *)
Fixpoint metadata_loop (fuel : nat) (data : list Z) (offset : Z) (m : ReceivedMetadata)
  : outcome (option MetadataError) ReceivedMetadata :=
  match fuel with
  | O => Err None
  | S fuel =>
      let rest := drop (Z.to_nat offset) data in
      if Z.of_nat (length data) <? offset + 8 then Ok m
      else
        let length' := from_be (take 4 (drop 4 rest)) in
        let offset := offset + 8 in
        let end_offset := offset + length' in
        if 2 ^ 64 <=? end_offset then Err (Some InvalidFormat)
        else if Z.of_nat (length data) <? end_offset then Err (Some IncompleteData)
        else metadata_loop fuel data end_offset (apply_tag m (take 4 rest) (take (Z.to_nat length') (drop 8 rest)))
  end.

Definition parse_dmap_metadata (data : list Z) : outcome (option MetadataError) ReceivedMetadata :=
  metadata_loop (S (length data)) data 0 Received_default.

(** ** Progress ([progress.rs]) *)
Record DmapProgress := mkProgress { start : Z; current : Z; end_ : Z }.
Definition Progress_from_samples (base position_samples duration_samples : Z) : DmapProgress :=
  mkProgress base (wrapping_add 32 base position_samples) (wrapping_add 32 base duration_samples).
Definition Progress_encode (p : DmapProgress) : list Z :=
  bs "progress: " ++ bs (pretty (start p)) ++ [47] ++ bs (pretty (current p)) ++ [47] ++ bs (pretty (end_ p)) ++ [13; 10].

Definition parse_u32 (s : list Z) : option Z := Rtsp.parse_uint 32 (RtspParser.of_chars (trim s)).
Definition Progress_parse (text : list Z) : option DmapProgress :=
  line ← List.find (RtspParser.starts_with (bs "progress:")) (lines text);
  match split_on (fun c => c =? 47) (trim (drop (length (bs "progress:")) line)) with
  | [a; b; c] => a ← parse_u32 a; b ← parse_u32 b; c ← parse_u32 c; Some (mkProgress a b c)
  | _ => None
  end.

(** ** Artwork ([artwork.rs], [artwork_handler.rs]) *)
Inductive ArtworkFormat := Jpeg | Png.
Record Artwork := mkArtwork { a_data : list Z; format : ArtworkFormat }.

Definition mime_type (f : ArtworkFormat) : list Z := match f with Jpeg => bs "image/jpeg" | Png => bs "image/png" end.

Definition detect (data : list Z) : option ArtworkFormat :=
  if (length data <? 4)%nat then None
  else if bool_decide (take 2 data = [0xFF; 0xD8]) then Some Jpeg
  else if bool_decide (take 4 data = [0x89; 0x50; 0x4E; 0x47]) then Some Png
  else None.
Definition Artwork_from_data (data : list Z) : option Artwork := f ← detect data; Some (mkArtwork data f).

(** The marker at [pos] and what follows it: [None] is running out of fuel. *)
Fixpoint jpeg_loop (fuel : nat) (data : list Z) (pos : nat) : option (outcome Empty_set (option (Z * Z))) :=
  match fuel with
  | O => None
  | S fuel =>
      if (pos <? length data - 4)%nat then
        match byte_at (E := Empty_set) data pos, byte_at (E := Empty_set) data (pos + 1) with
        | Ok b, Ok marker =>
            if negb (b =? 0xFF) then jpeg_loop fuel data (pos + 1)
            else if (0xC0 <=? marker) && (marker <=? 0xCF) && negb (marker =? 0xC4) && negb (marker =? 0xC8) &&
                    negb (marker =? 0xCC) && (pos + 9 <? length data)%nat then
              Some (height ← be_at data (pos + 5) 2; width ← be_at data (pos + 7) 2; Ok (Some (width, height)))
            else if (pos + 3 <? length data)%nat then
              match be_at (E := Empty_set) data (pos + 2) 2 with
              | Ok len => jpeg_loop fuel data (pos + 2 + Z.to_nat len)
              | _ => Some Panic
              end
            else Some (Ok None)
        | _, _ => Some Panic
        end
      else Some (Ok None)
  end.
(** [self.data.len() - 4] underflows on fewer than four bytes. *)
Definition jpeg_dimensions (data : list Z) : option (outcome Empty_set (option (Z * Z))) :=
  if (length data <? 4)%nat then Some Panic else jpeg_loop (S (length data)) data 2.
Definition png_dimensions (data : list Z) : outcome Empty_set (option (Z * Z)) :=
  if (length data <? 24)%nat then Ok None
  else width ← be_at data 16 4; height ← be_at data 20 4; Ok (Some (width, height)).
Definition dimensions (a : Artwork) : option (outcome Empty_set (option (Z * Z))) :=
  match format a with Jpeg => jpeg_dimensions (a_data a) | Png => Some (png_dimensions (a_data a)) end.

(** The receiver's own artwork type; width and height stay unknown. *)
Record ReceivedArtwork := mkReceivedArtwork { ra_data : list Z; ra_mime_type : list Z }.
Definition detect_image_type (data : list Z) : option (list Z) :=
  match data with
  | 0xFF :: 0xD8 :: 0xFF :: _ => Some (bs "image/jpeg")
  | 0x89 :: 0x50 :: 0x4E :: 0x47 :: _ => Some (bs "image/png")
  | _ => None
  end.
Definition ReceivedArtwork_from_data (data : list Z) : option ReceivedArtwork :=
  t ← detect_image_type data; Some (mkReceivedArtwork data t).
Definition parse_artwork (content_type data : list Z) : option ReceivedArtwork :=
  if RtspParser.contains (bs "image/jpeg") content_type || RtspParser.contains (bs "image/png") content_type
  then ReceivedArtwork_from_data data else None.


(** ** Well-formed items *)
Section Induction.
Variable P : DmapValue -> Prop.
Hypothesis Hstring : forall s, P (DString s).
Hypothesis Hint : forall n, P (Int n).
Hypothesis Hcontainer : forall items, Forall (fun tv => P (snd tv)) items -> P (Container items).
Hypothesis Hraw : forall b, P (Raw b).

Fixpoint dmap_ind (v : DmapValue) : P v :=
  match v with
  | DString s => Hstring s
  | Int n => Hint n
  | Container items =>
      Hcontainer items ((fix go l : Forall (fun tv => P (snd tv)) l :=
        match l with [] => Forall_nil_2 _ | x :: l => Forall_cons_2 _ x _ (dmap_ind (snd x)) (go l) end) items)
  | Raw b => Hraw b
  end.
End Induction.

Definition tag_ok (t : DmapTag) : Prop := length (code t) = 4%nat /\ from_bytes (code t) = t.
Definition plain_text (s : list Z) : bool := forallb (fun c => negb (is_control c)) s.

(** A value that its tag's reading gives back. *)
Fixpoint value_ok (t : DmapTag) (v : DmapValue) : Prop :=
  match v with
  | DString s => is_container t = false /\ is_int_tag t = false /\ string_ok s /\ plain_text s = true
  | Int n => is_int_tag t = true /\ sint 64 n
  | Container items =>
      is_container t = true /\ fold_right (fun tv P => (tag_ok (fst tv) /\ value_ok (fst tv) (snd tv)) /\ P) True items
  | Raw b => is_container t = false /\ is_int_tag t = false /\
      (forall s, from_utf8 b = Some s -> plain_text s = false)
  end.
Definition items_ok (items : list (DmapTag * DmapValue)) : Prop :=
  fold_right (fun tv P => (tag_ok (fst tv) /\ value_ok (fst tv) (snd tv)) /\ P) True items.

(** The bytes of the length and the value. *)
Definition int_size (n : Z) : nat :=
  if (0 <=? n) && (n <=? 255) then 1%nat else if (- 2 ^ 15 <=? n) && (n <? 2 ^ 15) then 2%nat
  else if (- 2 ^ 31 <=? n) && (n <? 2 ^ 31) then 4%nat else 8%nat.
Fixpoint value_size (v : DmapValue) : nat :=
  match v with
  | DString s => 4 + length (utf8_encode s)
  | Int n => 4 + int_size n
  | Container items => 4 + fold_right (fun tv n => 4 + value_size (snd tv) + n)%nat 0%nat items
  | Raw b => 4 + length b
  end.
Definition items_size (items : list (DmapTag * DmapValue)) : nat :=
  fold_right (fun tv n => 4 + value_size (snd tv) + n)%nat 0%nat items.

Lemma with_length_ok {E} b : Z.of_nat (length b) < 2 ^ 32 -> with_length (E := E) b = Ok (to_be 4 (Z.of_nat (length b)) ++ b).
Proof. intros H. unfold with_length. rewrite chk_u_ok by (unfold uint; lia). done. Qed.

Lemma with_length_inv {E} b d : with_length (E := E) b = Ok d -> d = to_be 4 (Z.of_nat (length b)) ++ b /\ Z.of_nat (length b) < 2 ^ 32.
Proof.
  unfold with_length, chk_u. case_match eqn:Hr; [|done]. cbn. intros [= <-]. bool_to_prop. split; [done|lia].
Qed.

Lemma int_bytes n : exists b, encode_int n = to_be 4 (Z.of_nat (length b)) ++ b /\ length b = int_size n.
Proof.
  unfold encode_int, int_size. repeat case_match; [exists [n]|exists (to_be 2 n)|exists (to_be 4 n)|exists (to_be 8 n)];
    (split; [reflexivity|]); reflexivity.
Qed.

(** *** The encoder succeeds *)
Fixpoint codes_ok (v : DmapValue) : Prop :=
  match v with
  | Container items => fold_right (fun tv P => (length (code (fst tv)) = 4%nat /\ codes_ok (snd tv)) /\ P) True items
  | _ => True
  end.

Lemma value_codes v : forall t, value_ok t v -> codes_ok v.
Proof.
  induction v as [s|n|items IH|b] using dmap_ind; intros t Hok; try done. destruct Hok as [_ Hok]. cbn [codes_ok].
  induction IH as [|[t' v] items Hv Hitems IH]; cbn [fold_right fst snd] in *; [done|].
  destruct Hok as [[[Ht _] Hvok] Hok]. split; [split; [done|by eapply Hv]|by apply IH].
Qed.

Lemma dmap_items_total {E} items :
  Forall (fun tv => codes_ok (snd tv) -> Z.of_nat (value_size (snd tv)) <= 2 ^ 32 ->
    exists d, encode_value (E := E) (snd tv) = Ok d /\ length d = value_size (snd tv)) items ->
  codes_ok (Container items) -> Z.of_nat (items_size items) < 2 ^ 32 ->
  exists d, encode_items (E := E) encode_value items = Ok d /\ length d = items_size items.
Proof.
  cbn [codes_ok]. unfold items_size. induction 1 as [|[t v] items Hv Hitems IH]; intros Hok Hs; cbn [fold_right encode_items fst snd] in *; [by eexists|].
  destruct Hok as [[Ht Hvok] Hok]. destruct (Hv Hvok) as (d & Ed & Ld); [lia|]. destruct IH as (r & Er & Lr); [done|lia|].
  rewrite Ed. cbn [mbind outcome_bind]. rewrite Er. eexists. split; [reflexivity|]. rewrite !length_app. lia.
Qed.

Lemma dmap_value_total {E} v : codes_ok v -> Z.of_nat (value_size v) <= 2 ^ 32 ->
  exists d, encode_value (E := E) v = Ok d /\ length d = value_size v.
Proof.
  induction v as [s|n|items IH|b] using dmap_ind; intros Hok Hs; cbn [encode_value value_size] in *.
  - rewrite with_length_ok by lia. eexists. split; [reflexivity|]. by rewrite length_app, length_to_be.
  - destruct (int_bytes n) as (b & Eb & Lb). eexists. split; [reflexivity|]. rewrite Eb, length_app, length_to_be. lia.
  - destruct (dmap_items_total (E := E) items IH Hok) as (d & Ed & Ld); [unfold items_size; lia|].
    rewrite Ed. cbn [mbind outcome_bind]. unfold items_size in Ld. rewrite with_length_ok by lia. eexists. split; [reflexivity|].
    rewrite length_app, length_to_be. lia.
  - rewrite with_length_ok by lia. eexists. split; [reflexivity|]. by rewrite length_app, length_to_be.
Qed.

(** *** And its items are read back *)
Definition reads (v : DmapValue) : Prop := forall t d, value_ok t v -> encode_value (E := Empty_set) v = Ok d ->
  exists b, d = to_be 4 (Z.of_nat (length b)) ++ b /\ Z.of_nat (length b) < 2 ^ 32 /\
    forall fuel, (length b < fuel)%nat ->
      (if is_container t then Container <$> parse_container fuel b else parse_value t b) = Ok v.

Lemma parse_int t n : is_int_tag t = true -> sint 64 n -> exists b, encode_int n = to_be 4 (Z.of_nat (length b)) ++ b /\
  parse_value t b = Ok (Int n) /\ Z.of_nat (length b) < 2 ^ 32.
Proof.
  intros Ht Hn. unfold encode_int, parse_value. rewrite Ht.
  assert (forall k (w := 8 * Z.of_nat k), (0 < k)%nat -> sint w n -> sext w (from_be (to_be k n)) = n) as Hs.
  { intros k w Hk Hw. rewrite from_be_to_be. replace (n mod 256 ^ Z.of_nat k) with (wrap w n); [apply sext_wrap; [lia|done]|].
    unfold wrap, w. by rewrite Z.pow_mul_r by lia. }
  destruct ((0 <=? n) && (n <=? 255)) eqn:E1; bool_to_prop.
  { exists [n]. split_and!; [reflexivity| |cbn; lia]. cbn [length]. do 2 f_equal. }
  destruct ((- 2 ^ 15 <=? n) && (n <? 2 ^ 15)) eqn:E2.
  { bool_to_prop. exists (to_be 2 n). split_and!; [by rewrite length_to_be| |rewrite length_to_be; lia].
    rewrite length_to_be. do 2 f_equal. apply (Hs 2%nat); [lia|]. unfold sint. change (8 * Z.of_nat 2) with 16. lia. }
  destruct ((- 2 ^ 31 <=? n) && (n <? 2 ^ 31)) eqn:E3.
  { bool_to_prop. exists (to_be 4 n). split_and!; [by rewrite length_to_be| |rewrite length_to_be; lia].
    rewrite length_to_be. do 2 f_equal. apply (Hs 4%nat); [lia|]. unfold sint. change (8 * Z.of_nat 4) with 32. lia. }
  exists (to_be 8 n). split_and!; [by rewrite length_to_be| |rewrite length_to_be; lia].
  rewrite length_to_be. do 2 f_equal. apply (Hs 8%nat); [lia|done].
Qed.

Lemma parse_item fuel t b rest v items : tag_ok t -> Z.of_nat (length b) < 2 ^ 32 ->
  (if is_container t then Container <$> parse_container fuel b else parse_value t b) = Ok v ->
  parse_container fuel rest = Ok items ->
  parse_container (S fuel) (code t ++ (to_be 4 (Z.of_nat (length b)) ++ b) ++ rest) = Ok ((t, v) :: items).
Proof.
  intros [Ht Hfrom] Hb Hv Hrest. cbn [parse_container].
  set (data := code t ++ (to_be 4 (Z.of_nat (length b)) ++ b) ++ rest).
  assert (length data = 8 + length b + length rest)%nat as Hlen
    by (unfold data; rewrite !length_app, length_to_be, Ht; lia).
  rewrite bool_decide_false by (intros E; rewrite E in Hlen; cbn in Hlen; lia).
  rewrite (proj2 (Nat.ltb_ge _ _)) by lia.
  assert (take 4 data = code t) as -> by (unfold data; rewrite <- Ht; by rewrite take_app_length).
  assert (drop 4 data = to_be 4 (Z.of_nat (length b)) ++ b ++ rest) as E4
    by (unfold data; rewrite <- Ht, drop_app_length; by rewrite <- app_assoc).
  assert (drop 8 data = b ++ rest) as ->.
  { change 8%nat with (4 + 4)%nat. rewrite <- drop_drop, E4. rewrite drop_app_ge by (rewrite length_to_be; lia).
    by rewrite length_to_be, Nat.sub_diag. }
  assert (from_be (take 4 (drop 4 data)) = Z.of_nat (length b)) as ->.
  { rewrite E4, take_app_le, take_ge by (rewrite length_to_be; lia). rewrite from_be_to_be. apply Z.mod_small.
    change (256 ^ Z.of_nat 4) with (2 ^ 32). lia. }
  rewrite (proj2 (Z.ltb_ge _ _)) by (rewrite length_app; lia). rewrite Nat2Z.id, take_app_length, drop_app_length.
  rewrite Hfrom, Hv. cbn [mbind outcome_bind]. by rewrite Hrest.
Qed.

Lemma items_read items : Forall (fun tv => reads (snd tv)) items -> items_ok items -> forall d,
  encode_items (E := Empty_set) encode_value items = Ok d -> forall fuel, (length d < fuel)%nat ->
  parse_container fuel d = Ok items.
Proof.
  intros Hr. induction Hr as [|[t v] items Hv Hr IH]; intros Hok d Hd fuel Hf.
  - injection Hd as <-. by destruct fuel; [lia|].
  - destruct Hok as [[Ht Hvok] Hok]. cbn [fst snd encode_items] in *. apply bind_ok in Hd as (dv & Edv & Hd).
    apply bind_ok in Hd as (r & Er & Hd). assert (d = code t ++ dv ++ r) as -> by congruence.
    destruct (Hv t dv Hvok Edv) as (b & -> & Hb & Hread). destruct fuel as [|fuel]; [lia|].
    rewrite !length_app, length_to_be in Hf. apply parse_item; [done|done|apply Hread; lia|apply IH; [done|done|lia]].
Qed.

Lemma value_reads v : reads v.
Proof.
  induction v as [s|n|items IH|b] using dmap_ind; intros t d Hok Hd; cbn [encode_value value_ok] in *.
  - destruct Hok as (Hc & Hi & Hs & Hp). apply with_length_inv in Hd as [-> Hl]. exists (utf8_encode s). split_and!; [done|done|].
    intros fuel _. rewrite Hc. unfold parse_value. rewrite Hi. pose proof (utf8_roundtrip s [] Hs) as Hu.
    rewrite app_nil_r in Hu. rewrite Hu. cbn. rewrite app_nil_r. unfold plain_text in Hp. by rewrite Hp.
  - destruct Hok as [Hi Hn]. assert (d = encode_int n) as -> by congruence. destruct (parse_int t n Hi Hn) as (b & Eb & Hp & Hl).
    exists b. split_and!; [done|done|]. intros fuel _. by destruct t.
  - destruct Hok as [Hc Hok]. apply bind_ok in Hd as (inner & Ei & Hd). apply with_length_inv in Hd as [-> Hl].
    exists inner. split_and!; [done|done|]. intros fuel Hf. rewrite Hc. by rewrite (items_read items IH Hok inner Ei fuel Hf).
  - destruct Hok as (Hc & Hi & Hp). apply with_length_inv in Hd as [-> Hl]. exists b. split_and!; [done|done|].
    intros fuel _. rewrite Hc. unfold parse_value. rewrite Hi. destruct (from_utf8 b) as [s|] eqn:E; [|done].
    specialize (Hp s eq_refl). unfold plain_text in Hp. by rewrite Hp.
Qed.

(** ** Totality of the parser *)
Lemma parse_value_total t b : exists r, parse_value t b = r /\ (r <> Err None) /\ r <> Panic.
Proof. eexists. split; [reflexivity|]. unfold parse_value. repeat case_match; done. Qed.

Lemma parse_container_total fuel : forall data, (length data < fuel)%nat ->
  parse_container fuel data <> Err None /\ parse_container fuel data <> Panic.
Proof.
  induction fuel as [|fuel IH]; intros data Hf; [lia|]. cbn [parse_container].
  case_bool_decide; [done|]. destruct (Nat.ltb_spec (length data) 8); [done|].
  destruct (Z.ltb_spec (Z.of_nat (length (drop 8 data))) (from_be (take 4 (drop 4 data)))) as [|Hle]; [done|].
  set (n := Z.to_nat _). set (t := from_bytes _).
  assert (length (take n (drop 8 data)) < fuel /\ length (drop n (drop 8 data)) < fuel)%nat as [H1 H2].
  { rewrite length_take, !length_drop. lia. }
  destruct (IH _ H2) as [Hr1 Hr2].
  assert (exists r, (if is_container t then Container <$> parse_container fuel (take n (drop 8 data))
    else parse_value t (take n (drop 8 data))) = r /\ r <> Err None /\ r <> Panic) as (r & -> & Hn & Hp).
  { destruct (is_container t); [|apply parse_value_total]. destruct (IH _ H1) as [Hc1 Hc2]. eexists. split; [reflexivity|].
    by destruct (parse_container fuel (take n (drop 8 data))) as [?|[]|]. }
  destruct r as [v|[e|]|]; cbn [mbind outcome_bind]; try done.
  by destruct (parse_container fuel (drop n (drop 8 data))) as [?|[]|].
Qed.

(** ** What the receiver reads *)

(** A record of the flat format: a tag and its bytes. *)
Definition record (r : list Z * list Z) : list Z := fst r ++ to_be 4 (Z.of_nat (length (snd r))) ++ snd r.
Definition record_ok (r : list Z * list Z) : Prop := length (fst r) = 4%nat /\ Z.of_nat (length (snd r)) < 2 ^ 32.
Definition apply_record (m : ReceivedMetadata) (r : list Z * list Z) : ReceivedMetadata := apply_tag m (fst r) (snd r).

Lemma metadata_step fuel pre r rest m : record_ok r -> Z.of_nat (length (pre ++ record r ++ rest)) < 2 ^ 63 ->
  metadata_loop (S fuel) (pre ++ record r ++ rest) (Z.of_nat (length pre)) m =
  metadata_loop fuel ((pre ++ record r) ++ rest) (Z.of_nat (length (pre ++ record r))) (apply_record m r).
Proof.
  intros [Ht Hb] Hl. destruct r as [t b]. cbn [fst snd] in *. rewrite <- (app_assoc pre). unfold record in *. cbn [fst snd] in *.
  cbn [metadata_loop]. set (data := pre ++ (t ++ to_be 4 (Z.of_nat (length b)) ++ b) ++ rest) in *.
  assert (length data = length pre + 8 + length b + length rest)%nat as Hlen
    by (unfold data; rewrite !length_app, length_to_be, Ht; lia).
  rewrite Nat2Z.id. assert (drop (length pre) data = t ++ to_be 4 (Z.of_nat (length b)) ++ b ++ rest) as E
    by (unfold data; rewrite drop_app_length; by rewrite <- !app_assoc).
  rewrite E. assert (take 4 (t ++ to_be 4 (Z.of_nat (length b)) ++ b ++ rest) = t) as -> by (by rewrite <- Ht, take_app_length).
  assert (drop 4 (t ++ to_be 4 (Z.of_nat (length b)) ++ b ++ rest) = to_be 4 (Z.of_nat (length b)) ++ b ++ rest) as E4
    by (by rewrite <- Ht, drop_app_length).
  assert (drop 8 (t ++ to_be 4 (Z.of_nat (length b)) ++ b ++ rest) = b ++ rest) as ->.
  { change 8%nat with (4 + 4)%nat. rewrite <- drop_drop, E4. rewrite drop_app_ge by (rewrite length_to_be; lia).
    by rewrite length_to_be, Nat.sub_diag. }
  assert (from_be (take 4 (drop 4 (t ++ to_be 4 (Z.of_nat (length b)) ++ b ++ rest))) = Z.of_nat (length b)) as ->.
  { rewrite E4, take_app_le, take_ge by (rewrite length_to_be; lia). rewrite from_be_to_be. apply Z.mod_small.
    change (256 ^ Z.of_nat 4) with (2 ^ 32). lia. }
  rewrite (proj2 (Z.ltb_ge _ _)) by lia. rewrite (proj2 (Z.leb_gt _ _)) by lia. rewrite (proj2 (Z.ltb_ge _ _)) by lia.
  rewrite Nat2Z.id, take_app_length. f_equal. rewrite !length_app, length_to_be, Ht. lia.
Qed.

Lemma metadata_records recs : Forall record_ok recs -> forall pre m fuel,
  Z.of_nat (length (pre ++ concat (map record recs))) < 2 ^ 63 -> (length recs < fuel)%nat ->
  metadata_loop fuel (pre ++ concat (map record recs)) (Z.of_nat (length pre)) m = Ok (foldl apply_record m recs).
Proof.
  induction 1 as [|r recs Hr Hrecs IH]; intros pre m fuel Hl Hf; (destruct fuel as [|fuel]; [cbn in Hf; lia|]).
  - cbn [map concat metadata_loop foldl]. rewrite app_nil_r. by rewrite (proj2 (Z.ltb_lt _ _)) by lia.
  - cbn [map concat foldl length] in *. rewrite metadata_step by done. apply IH; [by rewrite <- app_assoc|lia].
Qed.

Lemma records_bound recs : Forall record_ok recs -> (length recs <= length (concat (map record recs)))%nat.
Proof.
  induction 1 as [|r recs [Hr _] Hrecs IH]; [done|]. cbn [map concat length]. unfold record at 1. rewrite !length_app, Hr. lia.
Qed.

Lemma parse_records recs : Forall record_ok recs -> Z.of_nat (length (concat (map record recs))) < 2 ^ 63 ->
  parse_dmap_metadata (concat (map record recs)) = Ok (foldl apply_record Received_default recs).
Proof.
  intros Hr Hl. unfold parse_dmap_metadata. pose proof (records_bound recs Hr).
  apply (metadata_records recs Hr [] Received_default); [done|lia].
Qed.

(** The bytes of a value without its length. *)
Definition int_body (n : Z) : list Z := drop 4 (encode_int n).
Definition text_record (t : DmapTag) (v : option (list Z)) : list (list Z * list Z) :=
  match v with Some s => [(code t, utf8_encode s)] | None => [] end.
Definition number_record (t : DmapTag) (v : option Z) : list (list Z * list Z) :=
  match v with Some n => [(code t, int_body n)] | None => [] end.
Definition metadata_flat (m : TrackMetadata) : list (list Z * list Z) :=
  text_record ItemName (title m) ++ text_record SongArtist (artist m) ++ text_record SongAlbum (album m) ++
  text_record SongGenre (genre m) ++ number_record SongTrackNumber (track_number m) ++
  number_record SongDiscNumber (disc_number m) ++ number_record SongYear (year m) ++ number_record SongTime (duration_ms m).

(** What is left of a number: it is read from four bytes or not at all. *)
Definition read_back (n : Z) : option Z := if n <=? 32767 then None else if n <? 2 ^ 31 then Some n else Some 0.
Definition metadata_read (m : TrackMetadata) : ReceivedMetadata :=
  mkReceived (title m) (artist m) (album m) (genre m) (track_number m ≫= read_back) None (disc_number m ≫= read_back) None
    (duration_ms m ≫= read_back).

Definition metadata_ok (m : TrackMetadata) : Prop :=
  (forall s, s ∈ [title m; artist m; album m; genre m] -> forall t, s = Some t -> string_ok t) /\
  (forall n, n ∈ [track_number m; disc_number m; year m; duration_ms m] -> forall z, n = Some z -> uint 32 z) /\
  Z.of_nat (items_size (metadata_items m)) < 2 ^ 32.

Lemma number_read n old : uint 32 n ->
  (if (4 <=? length (int_body n))%nat then Some (from_be (take 4 (int_body n))) else old) =
  match read_back n with Some r => Some r | None => old end.
Proof.
  intros Hn. unfold uint in Hn. unfold int_body, encode_int, read_back.
  destruct (Z.leb_spec 0 n); [|lia]. cbn [andb]. destruct (Z.leb_spec n 255).
  { rewrite (proj2 (Z.leb_le _ _)) by lia. done. }
  destruct (Z.leb_spec (- 2 ^ 15) n); [|lia]. cbn [andb]. destruct (Z.ltb_spec n (2 ^ 15)).
  { rewrite (proj2 (Z.leb_le _ _)) by lia. done. }
  destruct (Z.leb_spec (- 2 ^ 31) n); [|lia]. cbn [andb]. rewrite (proj2 (Z.leb_gt n 32767)) by lia.
  destruct (Z.ltb_spec n (2 ^ 31)).
  - change (drop 4 (to_be 4 4 ++ to_be 4 n)) with (to_be 4 n). rewrite take_ge, length_to_be by (rewrite length_to_be; lia).
    cbn [Nat.leb]. rewrite from_be_to_be, Z.mod_small; [done|]. change (256 ^ Z.of_nat 4) with (2 ^ 32). lia.
  - change (drop 4 (to_be 4 8 ++ to_be 8 n)) with (to_be 8 n). rewrite length_to_be. cbn [Nat.leb]. f_equal.
    change (take 4 (to_be 8 n)) with [(n / 256 ^ 7) mod 256; (n / 256 ^ 6) mod 256; (n / 256 ^ 5) mod 256; (n / 256 ^ 4) mod 256].
    by rewrite !Z.div_small by (split; [lia|eapply Z.lt_le_trans; [apply Hn|done]]).
Qed.

(** The encoder writes the records one after the other. *)
Lemma flat_text t v : (forall s, v = Some s -> Z.of_nat (value_size (DString s)) <= 2 ^ 32) ->
  encode_items (E := Empty_set) encode_value (text_item t v) = Ok (concat (map record (text_record t v))).
Proof.
  intros Hv. destruct v as [s|]; [|done]. specialize (Hv s eq_refl). cbn [value_size] in Hv. cbn [text_item encode_items encode_value].
  rewrite with_length_ok by lia. cbn [mbind outcome_bind text_record map concat record fst snd]. by rewrite !app_nil_r.
Qed.

Lemma flat_number t v : encode_items (E := Empty_set) encode_value (number_item t v) = Ok (concat (map record (number_record t v))).
Proof.
  destruct v as [n|]; [|done]. cbn [number_item encode_items encode_value mbind outcome_bind number_record map concat record fst snd].
  destruct (int_bytes n) as (b & Eb & _). unfold int_body. rewrite Eb. rewrite drop_app_ge by (rewrite length_to_be; lia).
  by rewrite length_to_be, Nat.sub_diag, !app_nil_r.
Qed.

Lemma encode_items_app {E} l1 l2 d1 d2 : encode_items (E := E) encode_value l1 = Ok d1 -> encode_items (E := E) encode_value l2 = Ok d2 ->
  encode_items (E := E) encode_value (l1 ++ l2) = Ok (d1 ++ d2).
Proof.
  revert d1. induction l1 as [|[t v] l1 IH]; intros d1; cbn [app encode_items]; [by intros [= <-]|].
  intros (b & Eb & (r & Er & [= <-])%bind_ok)%bind_ok H2. rewrite Eb. cbn [mbind outcome_bind]. rewrite (IH r Er H2).
  cbn [mbind outcome_bind]. by rewrite <- !app_assoc.
Qed.

Lemma items_size_app l1 l2 : items_size (l1 ++ l2) = (items_size l1 + items_size l2)%nat.
Proof. unfold items_size. induction l1 as [|tv l1 IH]; [done|]. cbn [app fold_right]. lia. Qed.

Lemma metadata_encoded m : metadata_ok m ->
  encode_items (E := Empty_set) encode_value (metadata_items m) = Ok (concat (map record (metadata_flat m))).
Proof.
  intros (_ & _ & Hs). unfold metadata_items, metadata_flat in *. rewrite !map_app, !concat_app.
  rewrite !items_size_app in Hs.
  repeat (apply encode_items_app; [|]); try apply flat_number; apply flat_text; intros s E; rewrite E in Hs;
    cbn [text_item items_size fold_right snd] in Hs; lia.
Qed.

Lemma metadata_flat_ok m : metadata_ok m -> Forall record_ok (metadata_flat m).
Proof.
  intros (_ & _ & Hs). unfold metadata_items, metadata_flat in *. rewrite !items_size_app in Hs.
  assert (forall t v, length (code t) = 4%nat -> Forall record_ok (number_record t v)) as Hnum.
  { intros t [n|] Ht; [|constructor]. apply Forall_singleton. split; [done|]. unfold int_body, snd.
    destruct (int_bytes n) as (b & -> & Lb). rewrite drop_app_ge by (rewrite length_to_be; lia).
    rewrite length_to_be, Nat.sub_diag, drop_0, Lb. unfold int_size. repeat case_match; lia. }
  assert (forall t v, length (code t) = 4%nat -> Z.of_nat (items_size (text_item t v)) < 2 ^ 32 -> Forall record_ok (text_record t v)) as Htxt.
  { intros t [s|] Ht Hsz; [|constructor]. apply Forall_singleton. split; [done|].
    cbn [text_item items_size fold_right snd value_size] in *. lia. }
  repeat apply Forall_app_2; first [by apply Hnum|apply Htxt; [done|lia]].
Qed.

(** Folding an optional field into the received metadata. *)
Definition or_old {A} (v old : option A) : option A := match v with Some x => Some x | None => old end.

Lemma fold_title r v : (forall s, v = Some s -> string_ok s) -> foldl apply_record r (text_record ItemName v) =
  mkReceived (or_old v (r_title r)) (r_artist r) (r_album r) (r_genre r) (r_track_number r) (r_track_count r) (r_disc_number r) (r_disc_count r) (r_duration_ms r).
Proof. destruct r, v as [s|]; [|done]. intros Hs. rewrite <- (lossy_encode s) at 2 by auto. reflexivity. Qed.

Lemma fold_artist r v : (forall s, v = Some s -> string_ok s) -> foldl apply_record r (text_record SongArtist v) =
  mkReceived (r_title r) (or_old v (r_artist r)) (r_album r) (r_genre r) (r_track_number r) (r_track_count r) (r_disc_number r) (r_disc_count r) (r_duration_ms r).
Proof. destruct r, v as [s|]; [|done]. intros Hs. rewrite <- (lossy_encode s) at 2 by auto. reflexivity. Qed.

Lemma fold_album r v : (forall s, v = Some s -> string_ok s) -> foldl apply_record r (text_record SongAlbum v) =
  mkReceived (r_title r) (r_artist r) (or_old v (r_album r)) (r_genre r) (r_track_number r) (r_track_count r) (r_disc_number r) (r_disc_count r) (r_duration_ms r).
Proof. destruct r, v as [s|]; [|done]. intros Hs. rewrite <- (lossy_encode s) at 2 by auto. reflexivity. Qed.

Lemma fold_genre r v : (forall s, v = Some s -> string_ok s) -> foldl apply_record r (text_record SongGenre v) =
  mkReceived (r_title r) (r_artist r) (r_album r) (or_old v (r_genre r)) (r_track_number r) (r_track_count r) (r_disc_number r) (r_disc_count r) (r_duration_ms r).
Proof. destruct r, v as [s|]; [|done]. intros Hs. rewrite <- (lossy_encode s) at 2 by auto. reflexivity. Qed.

Lemma fold_track_number r v : (forall n, v = Some n -> uint 32 n) -> foldl apply_record r (number_record SongTrackNumber v) =
  mkReceived (r_title r) (r_artist r) (r_album r) (r_genre r) (or_old (v ≫= read_back) (r_track_number r)) (r_track_count r) (r_disc_number r) (r_disc_count r) (r_duration_ms r).
Proof. destruct r, v as [n|]; [|done]. intros Hn. cbn [mbind option_bind]. unfold or_old. rewrite <- number_read by auto. reflexivity. Qed.

Lemma fold_disc_number r v : (forall n, v = Some n -> uint 32 n) -> foldl apply_record r (number_record SongDiscNumber v) =
  mkReceived (r_title r) (r_artist r) (r_album r) (r_genre r) (r_track_number r) (r_track_count r) (or_old (v ≫= read_back) (r_disc_number r)) (r_disc_count r) (r_duration_ms r).
Proof. destruct r, v as [n|]; [|done]. intros Hn. cbn [mbind option_bind]. unfold or_old. rewrite <- number_read by auto. reflexivity. Qed.

Lemma fold_duration_ms r v : (forall n, v = Some n -> uint 32 n) -> foldl apply_record r (number_record SongTime v) =
  mkReceived (r_title r) (r_artist r) (r_album r) (r_genre r) (r_track_number r) (r_track_count r) (r_disc_number r) (r_disc_count r) (or_old (v ≫= read_back) (r_duration_ms r)).
Proof. destruct r, v as [n|]; [|done]. intros Hn. cbn [mbind option_bind]. unfold or_old. rewrite <- number_read by auto. reflexivity. Qed.

Lemma fold_year r v : foldl apply_record r (number_record SongYear v) = r.
Proof. by destruct r, v. Qed.

Lemma metadata_folded m : metadata_ok m -> foldl apply_record Received_default (metadata_flat m) = metadata_read m.
Proof.
  intros (Ht & Hn & _). unfold metadata_flat, metadata_read. rewrite !foldl_app.
  rewrite fold_title, fold_artist, fold_album, fold_genre by (intros s E; eapply Ht; [|exact E]; set_solver).
  rewrite fold_track_number by (intros z E; eapply Hn; [|exact E]; set_solver).
  rewrite fold_disc_number by (intros z E; eapply Hn; [|exact E]; set_solver). rewrite fold_year.
  rewrite fold_duration_ms by (intros z E; eapply Hn; [|exact E]; set_solver).
  assert (forall A (o : option A), or_old o None = o) as Ho by (by intros A []). cbn. by rewrite !Ho.
Qed.

Lemma items_roundtrip items : items_ok items -> Z.of_nat (items_size items) < 2 ^ 32 ->
  exists data, encode_items (E := Empty_set) encode_value items = Ok data /\ parse data = Ok (Container items).
Proof.
  intros Hok Hs. destruct (dmap_items_total (E := Empty_set) items) as (d & Ed & Ld); [| |done|].
  - apply Forall_true. intros tv. apply dmap_value_total.
  - apply (value_codes (Container items) Listing). by split.
  - exists d. split; [done|]. unfold parse. rewrite (items_read items) with (d := d); [done| |done|done|lia].
    apply Forall_true. intros tv. apply value_reads.
Qed.

(** ** Properties *)

(** C29: DMAP round-trips. Items whose values are of their tag's kind (nested
    containers included) and take less than 4 GiB are always encoded, and the
    parser returns exactly them. *)
Theorem dmap_roundtrip (items : list (DmapTag * DmapValue)) (Hok : items_ok items)
  (Hs : Z.of_nat (items_size items) < 2 ^ 32) :
  exists data, encode_items (E := Empty_set) encode_value items = Ok data /\ parse data = Ok (Container items).
Proof. by apply items_roundtrip. Qed.

(** The DMAP parser terminates on every input with a value or an error of its
    own: nesting and lengths are bounded by the data, and no slice is out of range. *)
Theorem dmap_parse_total (data : list Z) : parse data <> Err None /\ parse data <> Panic.
Proof.
  unfold parse. destruct (parse_container_total (S (length data)) data) as [H1 H2]; [lia|].
  by destruct (parse_container (S (length data)) data) as [?|[]|].
Qed.

(** The receiver reads none of the client's metadata. The client wraps its
    items in a listing, which the receiver's flat reader skips whole, so whatever
    was set, the metadata it reports is empty. The same items without the wrapper
    would give the texts, but of the numbers only those the encoder writes on four
    bytes (above 32767), and 0 for those above [2 ^ 31]. *)
Theorem own_metadata_lost (m : TrackMetadata) (Hm : metadata_ok m) :
  exists data flat, encode_dmap (E := Empty_set) m = Ok data /\ parse_dmap_metadata data = Ok Received_default /\
    encode_items (E := Empty_set) encode_value (metadata_items m) = Ok flat /\
    parse_dmap_metadata flat = Ok (metadata_read m).
Proof.
  pose proof (metadata_encoded m Hm) as He. set (flat := concat (map record (metadata_flat m))) in *.
  assert (Z.of_nat (length flat) < 2 ^ 32) as Hl.
  { destruct Hm as (_ & _ & Hs).
    destruct (dmap_items_total (E := Empty_set) (metadata_items m)) as (d & Ed & Ld); [| |done|].
    - apply Forall_true. intros tv. apply dmap_value_total.
    - unfold metadata_items. destruct m as [[?|] [?|] [?|] [?|] [?|] [?|] [?|] [?|]]; cbn; tauto.
    - assert (d = flat) as -> by congruence. lia. }
  exists (concat (map record [(code ListingItem, flat)])), flat. split_and!.
  - unfold encode_dmap, encode_tag. cbn [encode_value]. rewrite He. cbn [mbind outcome_bind]. rewrite with_length_ok by done.
    cbn [mbind outcome_bind Encoder_new app map concat record fst snd]. by rewrite app_nil_r.
  - assert (Forall record_ok [(code ListingItem, flat)]) as Hr by (apply Forall_singleton; by split).
    rewrite parse_records; [done|done|]. cbn [map concat record fst snd].
    unfold record. cbn [fst snd]. rewrite !length_app, length_to_be.
    change (length (code ListingItem)) with 4%nat. cbn [length]. lia.
  - done.
  - unfold flat. rewrite parse_records, metadata_folded; [done|done|by apply metadata_flat_ok|]. fold flat. lia.
Qed.

(** Progress lines round-trip. *)
Lemma slash_split a b c : 47 ∉ a -> 47 ∉ b -> 47 ∉ c ->
  split_on (fun x => x =? 47) (a ++ 47 :: b ++ 47 :: c) = [a; b; c].
Proof.
  assert (forall w, 47 ∉ w -> Forall (fun x => (x =? 47) = false) w) as H.
  { intros w Hw. apply Forall_forall. intros x Hx. apply Z.eqb_neq. intros ->. done. }
  intros Ha Hb Hc. rewrite split_on_sep, split_on_sep, split_on_word by (done || by apply H). done.
Qed.

(** The header a short JPEG makes [dimensions] panic. *)
Example short_jpeg_panics : dimensions (mkArtwork [0xFF; 0xD8] Jpeg) = Some Panic.
Proof. reflexivity. Qed.

(** *** Witnesses *)
Lemma dmap_roundtrip_witness :
  let items := [(ListingItem, Container [(ItemName, DString (bs "Song")); (SongTrackNumber, Int 300);
                                         (Unknown (bs "abcd"), Raw [1; 255])])] in
  exists data, encode_items (E := Empty_set) encode_value items = Ok data /\ parse data = Ok (Container items).
Proof.
  intros items. apply (dmap_roundtrip items); [|vm_compute; done].
  cbn. split_and!; try done. repeat constructor; cbn; lia.
Defined.

Lemma own_metadata_lost_witness :
  let m := set_duration_ms (set_title Metadata_new (bs "Song")) 200000 in
  exists data flat, encode_dmap (E := Empty_set) m = Ok data /\ parse_dmap_metadata data = Ok Received_default /\
    encode_items (E := Empty_set) encode_value (metadata_items m) = Ok flat /\
    parse_dmap_metadata flat = Ok (metadata_read m).
Proof.
  intros m. apply (own_metadata_lost m). split_and!.
  - cbn. intros s Hs t ->. assert (t = bs "Song") as -> by set_solver. repeat constructor; cbn; lia.
  - cbn. intros n Hn z ->. assert (z = 200000) as -> by set_solver. done.
  - vm_compute. done.
Defined.
End Dmap.
