(* ===== verification/RaopSession.v ===== *)
(** * The RAOP receiver's session and request handlers

    Models [src/receiver/session.rs] (the session and its states),
    [src/protocol/rtsp/transport.rs] (the Transport header),
    [src/receiver/volume_handler.rs], [progress_handler.rs] and
    [set_parameter_handler.rs] (parameter updates) and
    [src/receiver/rtsp_handler.rs] (one handler per RTSP method).  Times are
    nanoseconds, passed in where the code reads the clock; a 32- or 64-bit float is
    its bit pattern, compared by its bits; reading and printing floats and the power
    function are the interface [Floats].  Session identifiers are arguments. *)

From stdpp Require Import gmap pretty.
From S2P Require Import Text Unicode Rtsp RtspParser Sdp Dmap.

(** The float routines of the standard library that the handlers call. *)
Class Floats := {
  parse_f32 : list Z -> option Z;   (** [f32::from_str] *)
  parse_f64 : list Z -> option Z;   (** [f64::from_str] *)
  db_power : Z -> Z;                (** [10.0_f32.powf(db / 20.0)] *)
  show_f32 : Z -> list Z            (** [format!("{:.6}")] *)
}.

Module RaopSession.
Import Unicode Rtsp RtspParser Sdp.

(** The characters of a header value. *)
Definition chars_of (s : string) : list Z := default [] (from_utf8 (bs s)).

(** ** The Transport header *)
Inductive LowerTransport := Udp | Tcp.
Inductive CastMode := Unicast | Multicast.
Record TransportHeader := mkTransport {
  t_protocol : list Z; lower_transport : LowerTransport; cast : CastMode; mode : option (list Z);
  control_port : option Z; timing_port : option Z; interleaved : option (Z * Z)
}.
Inductive TransportParseError := MissingProtocol | UnsupportedProtocol (s : list Z) | InvalidPort | InvalidInterleaved.

Definition split_char (x : Z) (s : list Z) : list (list Z) := split_on (fun c => c =? x) s.

Definition parse_protocol (spec : list Z) : outcome TransportParseError (list Z * LowerTransport) :=
  let parts := split_char 47 spec in
  if bool_decide (parts = [bs "RTP"; bs "AVP"]) || bool_decide (parts = [bs "RTP"; bs "AVP"; bs "UDP"])
  then Ok (bs "RTP/AVP", Udp)
  else if bool_decide (parts = [bs "RTP"; bs "AVP"; bs "TCP"]) then Ok (bs "RTP/AVP", Tcp)
  else Err (UnsupportedProtocol spec).

Definition parse_interleaved (value : list Z) : outcome TransportParseError (Z * Z) :=
  match split_char 45 value with
  | [a; b] => a ← ok_or (parse_num 8 a) InvalidPort; b ← ok_or (parse_num 8 b) InvalidPort; Ok (a, b)
  | _ => Err InvalidInterleaved
  end.

(** [str::strip_prefix]. *)
Definition strip_prefix (p s : list Z) : option (list Z) :=
  if starts_with p s then Some (drop (length p) s) else None.

(** One parameter; an unknown one is ignored. *)
Definition parse_parameter (t : TransportHeader) (part : list Z) : outcome TransportParseError TransportHeader :=
  let '(mkTransport p l c m cp tp i) := t in
  if bool_decide (part = bs "unicast") then Ok (mkTransport p l Unicast m cp tp i)
  else if bool_decide (part = bs "multicast") then Ok (mkTransport p l Multicast m cp tp i)
  else match strip_prefix (bs "mode=") part with
  | Some v => Ok (mkTransport p l c (Some v) cp tp i)
  | None =>
  match strip_prefix (bs "control_port=") part with
  | Some v => n ← ok_or (parse_num 16 v) InvalidPort; Ok (mkTransport p l c m (Some n) tp i)
  | None =>
  match strip_prefix (bs "timing_port=") part with
  | Some v => n ← ok_or (parse_num 16 v) InvalidPort; Ok (mkTransport p l c m cp (Some n) i)
  | None =>
  match strip_prefix (bs "interleaved=") part with
  | Some v => ab ← parse_interleaved v; Ok (mkTransport p l c m cp tp (Some ab))
  | None => Ok t
  end end end end.

Fixpoint parse_parameters (t : TransportHeader) (parts : list (list Z)) : outcome TransportParseError TransportHeader :=
  match parts with
  | [] => Ok t
  | p :: parts => t ← parse_parameter t (trim p); parse_parameters t parts
  end.

Definition Transport_parse (value : list Z) : outcome TransportParseError TransportHeader :=
  match split_char 59 value with
  | [] => Err MissingProtocol
  | proto_spec :: parts =>
      '(p, l) ← parse_protocol proto_spec;
      parse_parameters (mkTransport p l Unicast None None None None) parts
  end.

Fixpoint join_with (x : Z) (ws : list (list Z)) : list Z :=
  match ws with
  | [] => []
  | [w] => w
  | w :: ws => w ++ x :: join_with x ws
  end.

Definition cast_to_string (c : CastMode) : list Z := match c with Unicast => bs "unicast" | Multicast => bs "multicast" end.

Definition to_response_header (t : TransportHeader) (server control timing : Z) : list Z :=
  join_with 59 (
    [t_protocol t ++ 47 :: match lower_transport t with Udp => bs "UDP" | Tcp => bs "TCP" end; cast_to_string (cast t)] ++
    match mode t with Some m => [bs "mode=" ++ m] | None => [] end ++
    [bs "server_port=" ++ num server; bs "control_port=" ++ num control; bs "timing_port=" ++ num timing]).

(** ** Sessions *)
Inductive SessionState := Connected | Announced | Setup | Streaming | Paused | Teardown | Closed.
#[export] Instance SessionState_eq_dec : EqDecision SessionState.
Proof. solve_decision. Defined.

Definition can_transition_to (s t : SessionState) : bool :=
  match s, t with
  | (Connected | Announced | Setup), Announced
  | (Announced | Setup), Setup
  | (Setup | Paused), Streaming
  | Streaming, Paused
  | (Connected | Announced | Setup | Streaming | Paused), Teardown
  | Teardown, Closed => true
  | _, _ => false
  end.
Definition is_active (s : SessionState) : bool := match s with Streaming | Paused => true | _ => false end.
Definition is_valid (s : SessionState) : bool := match s with Teardown | Closed => false | _ => true end.

Record SessionSockets := mkSockets {
  audio_port : Z; s_control_port : Z; s_timing_port : Z;
  client_control_port : option Z; client_timing_port : option Z; s_client_addr : option string
}.

Record ReceiverSession := mkSession {
  id : string; state : SessionState; client_addr : string; stream_params : option StreamParameters;
  sockets : option SessionSockets; volume : Z; last_activity : Z; created_at : Z;
  rtsp_session_id : option string; initial_seq : option Z; initial_rtptime : option Z
}.

Inductive SessionError := InvalidTransition (from to : SessionState) | NotFound (s : string) | Busy | Timeout.

(** [new] reads the clock twice; the readings are equal here. *)
Definition Session_new (sid addr : string) (now : Z) : ReceiverSession :=
  mkSession sid Connected addr None None 0 now now None None None.

Definition touch (s : ReceiverSession) (now : Z) : ReceiverSession :=
  mkSession (id s) (state s) (client_addr s) (stream_params s) (sockets s) (volume s) now (created_at s)
    (rtsp_session_id s) (initial_seq s) (initial_rtptime s).

Definition set_state (s : ReceiverSession) (new_state : SessionState) (now : Z) : outcome SessionError ReceiverSession :=
  if can_transition_to (state s) new_state then
    Ok (touch (mkSession (id s) new_state (client_addr s) (stream_params s) (sockets s) (volume s) (last_activity s)
                 (created_at s) (rtsp_session_id s) (initial_seq s) (initial_rtptime s)) now)
  else Err (InvalidTransition (state s) new_state).

(** *** Floats by their bits *)
Definition f32_nan (b : Z) : bool := 0x7F800000 <? Z.land b 0x7FFFFFFF.
(** The order of the numbers is that of these keys; both zeros have key 0. *)
Definition f32_key (b : Z) : Z := if b <? 2 ^ 31 then b else 2 ^ 31 - b.
Definition f32_lt (a b : Z) : bool := negb (f32_nan a) && negb (f32_nan b) && (f32_key a <? f32_key b).
Definition f32_le (a b : Z) : bool := negb (f32_nan a) && negb (f32_nan b) && (f32_key a <=? f32_key b).
Definition f32_clamp (x lo hi : Z) : Z :=
  let x := if f32_lt x lo then lo else x in if f32_lt hi x then hi else x.

Definition VOLUME_MIN_DB : Z := 0xC3100000.
Definition VOLUME_MAX_DB : Z := 0.
Definition F32_ONE : Z := 0x3F800000.

Definition set_volume (s : ReceiverSession) (v now : Z) : ReceiverSession :=
  touch (mkSession (id s) (state s) (client_addr s) (stream_params s) (sockets s) (f32_clamp v VOLUME_MIN_DB VOLUME_MAX_DB)
           (last_activity s) (created_at s) (rtsp_session_id s) (initial_seq s) (initial_rtptime s)) now.
Definition set_stream_params (s : ReceiverSession) (p : StreamParameters) (now : Z) : ReceiverSession :=
  touch (mkSession (id s) (state s) (client_addr s) (Some p) (sockets s) (volume s) (last_activity s) (created_at s)
           (rtsp_session_id s) (initial_seq s) (initial_rtptime s)) now.
Definition set_sockets (s : ReceiverSession) (k : SessionSockets) (now : Z) : ReceiverSession :=
  touch (mkSession (id s) (state s) (client_addr s) (stream_params s) (Some k) (volume s) (last_activity s) (created_at s)
           (rtsp_session_id s) (initial_seq s) (initial_rtptime s)) now.
Definition set_rtsp_session_id (s : ReceiverSession) (i : string) : ReceiverSession :=
  mkSession (id s) (state s) (client_addr s) (stream_params s) (sockets s) (volume s) (last_activity s) (created_at s)
    (Some i) (initial_seq s) (initial_rtptime s).
Definition set_rtp_info (s : ReceiverSession) (seq rtptime now : Z) : ReceiverSession :=
  touch (mkSession (id s) (state s) (client_addr s) (stream_params s) (sockets s) (volume s) (last_activity s) (created_at s)
           (rtsp_session_id s) (Some seq) (Some rtptime)) now.

(** [Instant::elapsed] saturates. *)
Definition idle_time (s : ReceiverSession) (now : Z) : Z := Z.max 0 (now - last_activity s).
Definition age (s : ReceiverSession) (now : Z) : Z := Z.max 0 (now - created_at s).
Definition is_timed_out (s : ReceiverSession) (timeout now : Z) : bool := timeout <? idle_time s now.

(** *** [announce_handler.rs] *)
Definition apply_to_session (s : ReceiverSession) (p : StreamParameters) (now : Z) : ReceiverSession :=
  set_stream_params s p now.

(** ** Parameter updates *)
Record VolumeUpdate := mkVolume { db : Z; muted : bool; linear : Z }.
Record PlaybackProgress := mkPlayback { p_start : Z; p_current : Z; p_end : Z }.
Inductive ParameterUpdate :=
| UVolume (v : VolumeUpdate)
| UMetadata (m : Dmap.ReceivedMetadata)
| UArtwork (a : Dmap.ReceivedArtwork)
| UProgress (p : PlaybackProgress)
| UUnknown (s : list Z).

Section WithFloats.
Context {F : Floats}.

Definition db_to_linear (d : Z) : Z :=
  if f32_le d VOLUME_MIN_DB then 0 else if f32_le VOLUME_MAX_DB d then F32_ONE else db_power d.

Definition from_db (d : Z) : VolumeUpdate :=
  let d := f32_clamp d VOLUME_MIN_DB VOLUME_MAX_DB in mkVolume d (f32_le d VOLUME_MIN_DB) (db_to_linear d).

(** The first line with the prefix and a number. *)
Fixpoint volume_lines (ls : list (list Z)) : option VolumeUpdate :=
  match ls with
  | [] => None
  | l :: ls =>
      match strip_prefix (bs "volume:") (trim l) with
      | Some v => match parse_f32 (trim v) with Some d => Some (from_db d) | None => volume_lines ls end
      | None => volume_lines ls
      end
  end.
Definition parse_volume_parameter (body : list Z) : option VolumeUpdate := volume_lines (lines body).

(** A part that is not a number ends the search. *)
Fixpoint progress_lines (ls : list (list Z)) : option PlaybackProgress :=
  match ls with
  | [] => None
  | l :: ls =>
      match strip_prefix (bs "progress:") (trim l) with
      | Some v =>
          match split_char 47 (trim v) with
          | [a; b; c] => a ← parse_f64 a; b ← parse_f64 b; c ← parse_f64 c; Some (mkPlayback a b c)
          | _ => progress_lines ls
          end
      | None => progress_lines ls
      end
  end.
Definition parse_progress (body : list Z) : option PlaybackProgress := progress_lines (lines body).

Definition process_set_parameter (r : RtspRequest) : list ParameterUpdate :=
  let content_type := default [] (chars_of <$> Headers_get (headers r) "Content-Type") in
  let body_str := from_utf8_lossy (body r) in
  if contains (bs "text/parameters") content_type then
    match parse_volume_parameter body_str with Some v => [UVolume v] | None => [] end ++
    match parse_progress body_str with Some p => [UProgress p] | None => [] end
  else if contains (bs "application/x-dmap-tagged") content_type then
    match Dmap.parse_dmap_metadata (body r) with Ok m => [UMetadata m] | _ => [] end
  else if contains (bs "image/") content_type then
    match Dmap.parse_artwork content_type (body r) with Some a => [UArtwork a] | None => [] end
  else if negb (bool_decide (content_type = [])) then [UUnknown content_type]
  else [].

(** ** Request handlers *)
Record AllocatedPorts := mkPorts {
  ap_audio : Z; ap_control : Z; ap_timing : Z; ap_client_control : option Z; ap_client_timing : option Z
}.

Record HandleResult := mkResult {
  response : RtspResponse; new_state : option SessionState; allocated_ports : option AllocatedPorts;
  hr_stream_params : option StreamParameters; start_streaming : bool; stop_streaming : bool;
  parameter_updates : list ParameterUpdate
}.

Definition reply (b : ResponseBuilder) (st : option SessionState) : HandleResult :=
  mkResult (Builder_build b) st None None false false [].
Definition METHOD_NOT_ALLOWED : Z := 405.
Definition ok_cseq (cseq : Z) : ResponseBuilder := Builder_cseq Builder_ok cseq.
Definition error_result (status cseq : Z) : HandleResult := reply (Builder_cseq (Builder_error status) cseq) None.

Definition METHODS_LIST : string :=
  "ANNOUNCE, SETUP, RECORD, PAUSE, FLUSH, TEARDOWN, OPTIONS, GET_PARAMETER, SET_PARAMETER, POST".
Definition handle_options (cseq : Z) : HandleResult := reply (Builder_header (ok_cseq cseq) "Public" METHODS_LIST) None.

Section WithCrypto.
Context {B : Base64} {R : Rsa}.

(** The SDP parser can panic. *)
Definition handle_announce {E} (r : RtspRequest) (cseq : Z) (s : ReceiverSession) (key : option (list Z)) : outcome E HandleResult :=
  if negb (bool_decide (state s = Connected)) then Ok (error_result METHOD_NOT_VALID cseq)
  else
    match process_announce r key with
    | Ok params => Ok (mkResult (Builder_build (ok_cseq cseq)) (Some Announced) None (Some params) false false [])
    | Err _ => Ok (error_result BAD_REQUEST cseq)
    | Panic => Panic
    end.

(** Ports are placeholders that the connection fills in. *)
Definition handle_setup (r : RtspRequest) (cseq : Z) (session_id : string) : HandleResult :=
  match Headers_get (headers r) "Transport" with
  | None => error_result BAD_REQUEST cseq
  | Some transport_str =>
      match Transport_parse (chars_of transport_str) with
      | Ok t =>
          let ports := mkPorts 0 0 0 (control_port t) (timing_port t) in
          let header := of_chars (to_response_header t (ap_audio ports) (ap_control ports) (ap_timing ports)) in
          mkResult (Builder_build (Builder_header (Builder_session (ok_cseq cseq) session_id) "Transport" header))
            (Some Setup) (Some ports) None false false []
      | _ => error_result BAD_REQUEST cseq
      end
  end.

Definition handle_record (cseq : Z) (s : ReceiverSession) : HandleResult :=
  if negb (bool_decide (state s = Setup)) then error_result METHOD_NOT_VALID cseq
  else mkResult (Builder_build (Builder_audio_latency (ok_cseq cseq) 88200)) (Some Streaming) None None true false [].

Definition handle_pause (cseq : Z) (s : ReceiverSession) : HandleResult :=
  if negb (bool_decide (state s = Streaming)) then error_result METHOD_NOT_VALID cseq
  else reply (ok_cseq cseq) (Some Paused).

Definition handle_flush (cseq : Z) (s : ReceiverSession) : HandleResult :=
  if negb (is_active (state s)) then error_result METHOD_NOT_VALID cseq else reply (ok_cseq cseq) None.

Definition handle_teardown (cseq : Z) : HandleResult :=
  mkResult (Builder_build (ok_cseq cseq)) (Some Teardown) None None false true [].

Definition handle_get_parameter (r : RtspRequest) (cseq : Z) (s : ReceiverSession) : HandleResult :=
  let body_str := from_utf8_lossy (body r) in
  if contains (bs "volume") body_str
  then reply (Builder_text_body (ok_cseq cseq) (of_chars (bs "volume: " ++ show_f32 (volume s) ++ crlf))) None
  else reply (ok_cseq cseq) None.

Definition handle_set_parameter (r : RtspRequest) (cseq : Z) : HandleResult :=
  mkResult (Builder_build (ok_cseq cseq)) None None None false false (process_set_parameter r).

Definition handle_post (cseq : Z) : HandleResult := error_result NOT_IMPLEMENTED cseq.
Definition handle_unknown (cseq : Z) : HandleResult := error_result METHOD_NOT_ALLOWED cseq.

Definition handle_request {E} (r : RtspRequest) (s : ReceiverSession) (key : option (list Z)) (session_id : string)
  : outcome E HandleResult :=
  let cseq := default 0 (Headers_cseq (headers r)) in
  match method r with
  | Options => Ok (handle_options cseq)
  | Announce => handle_announce r cseq s key
  | Rtsp.Setup => Ok (handle_setup r cseq session_id)
  | Record_ => Ok (handle_record cseq s)
  | Pause => Ok (handle_pause cseq s)
  | Flush => Ok (handle_flush cseq s)
  | Rtsp.Teardown => Ok (handle_teardown cseq)
  | GetParameter => Ok (handle_get_parameter r cseq s)
  | SetParameter => Ok (handle_set_parameter r cseq)
  | Post => Ok (handle_post cseq)
  | _ => Ok (handle_unknown cseq)
  end.
End WithCrypto.
End WithFloats.

End RaopSession.
