(* ===== verification/Features.v ===== *)
(** * Feature flags and the receiver's configuration

    Models [src/receiver/ap2/features.rs] and [src/receiver/ap2/config.rs], the
    capabilities of [src/types/device.rs] and [src/discovery/parser.rs]: what a
    receiver says about itself and what a client reads out of it.  Texts are lists of
    characters; [std]'s hexadecimal formatting and parsing are written out. *)

From stdpp Require Import gmap.
From S2P Require Import Bytes Text Unicode Rtsp RtspParser Sdp RaopSession.

Module Features.
Import Unicode Rtsp RtspParser.

(** ** Hexadecimal text *)

(** [{:X}] and [{:x}] of an unsigned integer of at most 64 bits. *)
Definition hex_char (upper : bool) (d : Z) : Z := if d <? 10 then 48 + d else (if upper then 55 else 87) + d.
Fixpoint hex_fuel (upper : bool) (n : nat) (z : Z) : list Z :=
  match n with
  | O => []
  | S n => if z <? 16 then [hex_char upper z] else hex_fuel upper n (z / 16) ++ [hex_char upper (z mod 16)]
  end.
Definition show_hex (upper : bool) (z : Z) : list Z := hex_fuel upper 16 z.
(** [{:02X}] and [{:02x}] of a byte. *)
Definition show_hex2 (upper : bool) (z : Z) : list Z := [hex_char upper (z / 16); hex_char upper (z mod 16)].

(** [char::to_digit(16)]. *)
Definition hex_value (c : Z) : option Z :=
  if (48 <=? c) && (c <=? 57) then Some (c - 48)
  else if (65 <=? c) && (c <=? 70) then Some (c - 55)
  else if (97 <=? c) && (c <=? 102) then Some (c - 87)
  else None.
Definition is_hexdigit (c : Z) : bool := match hex_value c with Some _ => true | None => false end.

(** [from_str_radix(_, 16)] at [w] bits: one leading [+] is allowed, no digits or an
    overflow is an error. *)
Fixpoint radix16 (w acc : Z) (s : list Z) : option Z :=
  match s with
  | [] => Some acc
  | c :: s =>
      match hex_value c with
      | Some d => if acc * 16 + d <? 2 ^ w then radix16 w (acc * 16 + d) s else None
      | None => None
      end
  end.
Definition from_str_radix16 (w : Z) (s : list Z) : option Z :=
  match s with
  | [] => None
  | c :: rest => if c =? 43 then match rest with [] => None | _ => radix16 w 0 rest end else radix16 w 0 s
  end.

(** [trim_start_matches("0x")]: as often as it matches. *)
Fixpoint trim_0x (s : list Z) : list Z :=
  match s with
  | a :: b :: r => if (a =? 48) && (b =? 120) then trim_0x r else s
  | _ => s
  end.

(** ** features.rs *)
Inductive FeatureFlag :=
| Video | Photo | VideoFairPlay | VideoVolumeControl | VideoHttpLiveStreaming | Slideshow | Reserved6
| ScreenMirroring | ScreenRotation | Audio | Reserved10 | AudioRedundant | FairPlaySecureAuth | PhotoCaching
| AuthenticationSetup | MetadataFeatures1 | MetadataFeatures2 | LegacyPairing | UnifiedMediaControl
| SupportsVolume | RemoteControlRelay | AudioFormatAlac | AudioFormatAacLc | AudioFormatAacEld | SupportsPin
| SupportsTransientPairing | SupportsSystemPairing | IsSpeaker | SupportsBufferedAudio | SupportsPtp
| SupportsScreenMirroring2 | SupportsUnifiedPairSetupAndVerify | SupportsHomeKit | SupportsCoreUtilsPairing
| SupportsPersistentCredentials | SupportsAirPlayVideoV2 | AudioMetadataTxtRecord | SupportsUnifiedAdvertising.
#[export] Instance FeatureFlag_eq_dec : EqDecision FeatureFlag.
Proof. solve_decision. Defined.

(** The discriminants. *)
Definition feature_bit (f : FeatureFlag) : Z :=
  match f with
  | Video => 0 | Photo => 1 | VideoFairPlay => 2 | VideoVolumeControl => 3 | VideoHttpLiveStreaming => 4
  | Slideshow => 5 | Reserved6 => 6 | ScreenMirroring => 7 | ScreenRotation => 8 | Audio => 9 | Reserved10 => 10
  | AudioRedundant => 11 | FairPlaySecureAuth => 12 | PhotoCaching => 13 | AuthenticationSetup => 14
  | MetadataFeatures1 => 15 | MetadataFeatures2 => 16 | LegacyPairing => 17 | UnifiedMediaControl => 18
  | SupportsVolume => 19 | RemoteControlRelay => 20 | AudioFormatAlac => 22 | AudioFormatAacLc => 23
  | AudioFormatAacEld => 25 | SupportsPin => 26 | SupportsTransientPairing => 27 | SupportsSystemPairing => 30
  | IsSpeaker => 32 | SupportsBufferedAudio => 38 | SupportsPtp => 40 | SupportsScreenMirroring2 => 41
  | SupportsUnifiedPairSetupAndVerify => 42 | SupportsHomeKit => 46 | SupportsCoreUtilsPairing => 48
  | SupportsPersistentCredentials => 50 | SupportsAirPlayVideoV2 => 51 | AudioMetadataTxtRecord => 52
  | SupportsUnifiedAdvertising => 54
  end.
Definition mask (f : FeatureFlag) : Z := Z.shiftl 1 (feature_bit f).

Record FeatureFlags := mkFeatures { flags : Z }.
Definition Features_new : FeatureFlags := mkFeatures 0.
Definition set (s : FeatureFlags) (f : FeatureFlag) : FeatureFlags := mkFeatures (Z.lor (flags s) (mask f)).
(** [!mask] at 64 bits. *)
Definition clear (s : FeatureFlags) (f : FeatureFlag) : FeatureFlags :=
  mkFeatures (Z.land (flags s) (Z.lxor (Z.ones 64) (mask f))).
Definition has (s : FeatureFlags) (f : FeatureFlag) : bool := negb (Z.land (flags s) (mask f) =? 0).

Definition audio_receiver : FeatureFlags :=
  foldl set Features_new
    [Audio; AudioRedundant; SupportsVolume; AudioFormatAlac; AudioFormatAacLc; AudioFormatAacEld; AuthenticationSetup;
     LegacyPairing; SupportsPin; SupportsTransientPairing; SupportsHomeKit; MetadataFeatures1; MetadataFeatures2].
Definition multi_room_receiver : FeatureFlags := foldl set audio_receiver [SupportsBufferedAudio; SupportsPtp; IsSpeaker].

(** [0x{:X},0x{:X}] of the low and the high 32 bits. *)
Definition features_text (z : Z) : list Z :=
  bs "0x" ++ show_hex true (Z.land z 0xFFFFFFFF) ++ 44 :: bs "0x" ++ show_hex true (Z.shiftr z 32).
Definition to_txt_value (s : FeatureFlags) : list Z := features_text (flags s).

Definition from_txt_value (value : list Z) : option FeatureFlags :=
  match RaopSession.split_char 44 value with
  | [p0; p1] =>
      match from_str_radix16 32 (trim_0x p0) with
      | Some low =>
          match from_str_radix16 32 (trim_0x p1) with
          | Some high => Some (mkFeatures (Z.lor low (Z.shiftl high 32)))
          | None => None
          end
      | None => None
      end
  | _ => None
  end.

Inductive StatusFlag :=
| ProblemDetected | NotConfigured | AudioCableAttached | StatusSupportsPin | RequiresPassword | PasswordSet | DeviceLocked
| AccessoryProblems.
Definition status_bit (f : StatusFlag) : Z :=
  match f with
  | ProblemDetected => 0 | NotConfigured => 1 | AudioCableAttached => 2 | StatusSupportsPin => 3 | RequiresPassword => 4
  | PasswordSet => 5 | DeviceLocked => 6 | AccessoryProblems => 11
  end.
Definition status_mask (f : StatusFlag) : Z := Z.shiftl 1 (status_bit f).

Record StatusFlags := mkStatus { s_flags : Z }.
Definition Status_new : StatusFlags := mkStatus 0.
Definition status_set (s : StatusFlags) (f : StatusFlag) : StatusFlags := mkStatus (Z.lor (s_flags s) (status_mask f)).
Definition status_clear (s : StatusFlags) (f : StatusFlag) : StatusFlags :=
  mkStatus (Z.land (s_flags s) (Z.lxor (Z.ones 32) (status_mask f))).
Definition status_has (s : StatusFlags) (f : StatusFlag) : bool := negb (Z.land (s_flags s) (status_mask f) =? 0).
Definition healthy : StatusFlags := status_set Status_new StatusSupportsPin.
Definition status_with_password : StatusFlags := foldl status_set healthy [RequiresPassword; PasswordSet].
Definition status_to_txt_value (s : StatusFlags) : list Z := bs "0x" ++ show_hex true (s_flags s).

(** ** The codecs of [types/raop.rs], named by the configuration too *)
Inductive RaopCodec := Pcm | Alac | Aac | AacEld.
#[export] Instance RaopCodec_eq_dec : EqDecision RaopCodec.
Proof. solve_decision. Defined.
Definition RaopCodec_from_u8 (v : Z) : option RaopCodec :=
  match v with 0 => Some Pcm | 1 => Some Alac | 2 => Some Aac | 3 => Some AacEld | _ => None end.
Definition codec_number (c : RaopCodec) : Z := match c with Pcm => 0 | Alac => 1 | Aac => 2 | AacEld => 3 end.

(** ** config.rs *)
Record Ap2Config := mkConfig {
  name : list Z; device_id : list Z; model : list Z; manufacturer : list Z; serial_number : option (list Z);
  firmware_version : list Z; server_port : Z; password : option (list Z); audio_formats : list RaopCodec;
  multi_room_enabled : bool; buffer_size_ms : Z; max_sessions : Z; debug_logging : bool
}.

(** The text made of six random bytes. *)
Definition generate_device_id (random : list Z) : list Z := RaopSession.join_with 58 (map (show_hex2 true) random).

(** [version] is the crate's version that the build provides. *)
Definition Config_default (random version : list Z) : Ap2Config :=
  mkConfig (bs "AirPlay Receiver") (generate_device_id random) (bs "Receiver1,1") (bs "airplay2-rs") None version 7000 None
    [Pcm; Alac; AacEld] true 2000 1 false.

Definition set_name (c : Ap2Config) (n : list Z) : Ap2Config :=
  let '(mkConfig _ d mo ma s f p pw a m b x l) := c in mkConfig n d mo ma s f p pw a m b x l.
Definition set_device_id (c : Ap2Config) (i : list Z) : Ap2Config :=
  let '(mkConfig n _ mo ma s f p pw a m b x l) := c in mkConfig n i mo ma s f p pw a m b x l.
Definition with_password (c : Ap2Config) (w : list Z) : Ap2Config :=
  let '(mkConfig n d mo ma s f p _ a m b x l) := c in mkConfig n d mo ma s f p (Some w) a m b x l.
Definition with_port (c : Ap2Config) (port : Z) : Ap2Config :=
  let '(mkConfig n d mo ma s f _ pw a m b x l) := c in mkConfig n d mo ma s f port pw a m b x l.
Definition without_multi_room (c : Ap2Config) : Ap2Config :=
  let '(mkConfig n d mo ma s f p pw a _ b x l) := c in mkConfig n d mo ma s f p pw a false b x l.
Definition set_buffer_size_ms (c : Ap2Config) (ms : Z) : Ap2Config :=
  let '(mkConfig n d mo ma s f p pw a m _ x l) := c in mkConfig n d mo ma s f p pw a m ms x l.
Definition Config_new (random version n : list Z) : Ap2Config := set_name (Config_default random version) n.

Definition feature_flags (c : Ap2Config) : Z :=
  flags (foldl set (if multi_room_enabled c then multi_room_receiver else audio_receiver) [Video; Photo; UnifiedMediaControl]).
Definition status_flags (c : Ap2Config) : Z := s_flags (if password c then status_with_password else healthy).
Definition has_password (c : Ap2Config) : bool := match password c with Some p => negb (bool_decide (p = [])) | None => false end.

Inductive ConfigError := InvalidName | InvalidDeviceId | InvalidPort.
Definition mac_part (p : list Z) : bool := bool_decide (length (utf8_encode p) = 2%nat) && forallb is_hexdigit p.
(** [Ap2ConfigBuilder::build]; the builder is the configuration it holds. *)
Definition Builder_build (c : Ap2Config) : outcome ConfigError Ap2Config :=
  if bool_decide (name c = []) then Err InvalidName
  else
    let parts := RaopSession.split_char 58 (device_id c) in
    if negb (bool_decide (length parts = 6%nat)) || existsb (fun p => negb (mac_part p)) parts then Err InvalidDeviceId
    else if server_port c =? 0 then Err InvalidPort
    else Ok c.

(** ** types/device.rs: capabilities *)
Record DeviceCapabilities := mkCaps {
  airplay2 : bool; supports_grouping : bool; supports_screen : bool; supports_audio : bool; supports_hires_audio : bool;
  supports_buffered_audio : bool; supports_persistent_pairing : bool; supports_homekit_pairing : bool;
  supports_transient_pairing : bool; supports_ptp : bool; raw_features : Z
}.
Definition Caps_default : DeviceCapabilities := mkCaps false false false false false false false false false false 0.

Definition feature_on (features bit : Z) : bool := negb (Z.land features (Z.shiftl 1 bit) =? 0).
Definition from_features (features : Z) : DeviceCapabilities :=
  mkCaps (feature_on features 48) (feature_on features 32) false (feature_on features 9) (feature_on features 48)
    (feature_on features 38) false false false (feature_on features 40) features.

(** ** discovery/parser.rs *)
Definition strip_0x (s : list Z) : list Z :=
  match RaopSession.strip_prefix (bs "0x") s with
  | Some r => r
  | None => match RaopSession.strip_prefix (bs "0X") s with Some r => r | None => s end
  end.
Definition parse_hex (s : list Z) : option Z := from_str_radix16 64 (strip_0x (trim s)).

(** [hi << 32] drops the bits above 64. *)
Definition parse_features (s : list Z) : option DeviceCapabilities :=
  features ← (if bool_decide (44 ∈ s) then
                match RaopSession.split_char 44 s with
                | p0 :: p1 :: _ =>
                    match parse_hex p0 with
                    | Some lo => match parse_hex p1 with Some hi => Some (Z.lor (wrap 64 (Z.shiftl hi 32)) lo) | None => None end
                    | None => None
                    end
                | [p0] => parse_hex p0
                | [] => None
                end
              else parse_hex s);
  Some (from_features features).

Definition parse_txt_record (r : list Z) : list Z * list Z :=
  match split_at 61 r with Some (k, v) => (k, v) | None => (r, []) end.
Definition parse_txt_records (records : list (list Z)) : gmap (list Z) (list Z) := insert_all (map parse_txt_record records) ∅.

Definition parse_model_name (m : list Z) : list Z :=
  if bool_decide (m = bs "AudioAccessory1,1") || bool_decide (m = bs "AudioAccessory1,2") then bs "HomePod"
  else if bool_decide (m = bs "AudioAccessory5,1") then bs "HomePod mini"
  else if bool_decide (m = bs "AppleTV3,1") || bool_decide (m = bs "AppleTV3,2") then bs "Apple TV (3rd generation)"
  else if bool_decide (m = bs "AppleTV5,3") then bs "Apple TV (4th generation)"
  else if bool_decide (m = bs "AppleTV6,2") then bs "Apple TV 4K"
  else if bool_decide (m = bs "AppleTV11,1") then bs "Apple TV 4K (2nd generation)"
  else if bool_decide (m = bs "AppleTV14,1") then bs "Apple TV 4K (3rd generation)"
  else if bool_decide (m = bs "AirPort10,1") then bs "AirPort Express"
  else m.

(** ** Hexadecimal text read back *)
Lemma hex_value_char up d : 0 <= d < 16 -> hex_value (hex_char up d) = Some d.
Proof.
  intros Hd. assert (d ∈ seqZ 0 16) as Hi by (rewrite elem_of_seqZ; lia). revert Hi.
  assert (Forall (fun d => hex_value (hex_char up d) = Some d) (seqZ 0 16)) as Ha by (destruct up; repeat constructor).
  rewrite Forall_forall in Ha. apply Ha.
Qed.

Lemma radix16_snoc w l : forall acc c, radix16 w acc (l ++ [c]) =
  match radix16 w acc l with
  | Some a => match hex_value c with Some d => if a * 16 + d <? 2 ^ w then Some (a * 16 + d) else None | None => None end
  | None => None
  end.
Proof.
  induction l as [|x l IH]; intros acc c; cbn.
  - by destruct (hex_value c).
  - destruct (hex_value x) as [d|]; [|done]. destruct (_ <? _); [apply IH|done].
Qed.

Lemma hex_fuel_spec w up n : forall z, 0 <= z < 16 ^ Z.of_nat n -> 0 < Z.of_nat n -> z < 2 ^ w ->
  radix16 w 0 (hex_fuel up n z) = Some z /\ Forall (fun c => is_hexdigit c = true) (hex_fuel up n z) /\ hex_fuel up n z <> [].
Proof.
  induction n as [|n IH]; intros z Hz Hn Hw; [lia|]. cbn [hex_fuel].
  assert (0 <= z mod 16 < 16) as Hm by (apply Z.mod_pos_bound; lia).
  destruct (Z.ltb_spec z 16).
  - cbn [radix16]. unfold is_hexdigit. rewrite hex_value_char by lia. replace (0 * 16 + z) with z by lia.
    rewrite (proj2 (Z.ltb_lt _ _)) by done. split_and!; [done| |done]. constructor; [|done]. by rewrite hex_value_char by lia.
  - assert (z = 16 * (z / 16) + z mod 16) as E by (apply Z.div_mod; lia).
    rewrite Nat2Z.inj_succ, Z.pow_succ_r in Hz by lia.
    destruct (decide (n = 0%nat)) as [->|Hn0]; [cbn in Hz; lia|].
    set (q := z / 16) in *. set (r := z mod 16) in *. clearbody q r. set (p := 16 ^ Z.of_nat n) in *. set (v := 2 ^ w) in *.
    destruct (IH q) as (Hr & Hd & Hne); [lia..|].
    rewrite radix16_snoc, Hr, hex_value_char by lia. replace (q * 16 + r) with z by lia.
    rewrite (proj2 (Z.ltb_lt _ _)) by done. split_and!; [done| |by destruct (hex_fuel up n q)].
    apply Forall_app; split; [done|]. constructor; [|done]. unfold is_hexdigit. by rewrite hex_value_char by lia.
Qed.

Lemma hexdigit_range c : is_hexdigit c = true -> 48 <= c <= 57 \/ 65 <= c <= 70 \/ 97 <= c <= 102.
Proof.
  unfold is_hexdigit, hex_value. intros H.
  destruct ((48 <=? c) && (c <=? 57)) eqn:?, ((65 <=? c) && (c <=? 70)) eqn:?, ((97 <=? c) && (c <=? 102)) eqn:?; (done || lia).
Qed.

(** Hexadecimal digits are neither signs, commas, the letter x nor white space. *)
Lemma hexdigit_plain c : is_hexdigit c = true -> c <> 43 /\ c <> 44 /\ c <> 58 /\ c <> 120 /\ is_whitespace c = false.
Proof. intros H%hexdigit_range. unfold is_whitespace. split_and!; lia. Qed.

Section Hex.
Context (w : Z) (up : bool) (z : Z) (Hz : uint 64 z) (Hw : z < 2 ^ w).

Lemma show_hex_spec : radix16 w 0 (show_hex up z) = Some z /\ Forall (fun c => is_hexdigit c = true) (show_hex up z) /\ show_hex up z <> [].
Proof. apply hex_fuel_spec; unfold uint in Hz; cbn in *; lia. Qed.

Lemma show_hex_parses : from_str_radix16 w (show_hex up z) = Some z.
Proof.
  destruct show_hex_spec as (Hr & Hd & Hne). destruct (show_hex up z) as [|c r] eqn:E; [done|]. cbn.
  apply Forall_cons in Hd as [Hc _]. apply hexdigit_plain in Hc. by rewrite (proj2 (Z.eqb_neq c 43)) by tauto.
Qed.

Lemma show_hex_no c : c = 43 \/ c = 44 \/ c = 58 \/ c = 120 -> c ∉ show_hex up z.
Proof.
  destruct show_hex_spec as (_ & Hd & _). rewrite Forall_forall in Hd. intros Hc Hin. apply Hd, hexdigit_plain in Hin. lia.
Qed.

Lemma show_hex_no_ws : no_ws (show_hex up z).
Proof. destruct show_hex_spec as (_ & Hd & _). eapply Forall_impl; [exact Hd|]. intros c Hc. exact (proj2 (proj2 (proj2 (proj2 (hexdigit_plain c Hc))))). Qed.

Lemma show_hex_trim : trim_0x (bs "0x" ++ show_hex up z) = show_hex up z.
Proof.
  pose proof (show_hex_no 120) as Hx. generalize dependent (show_hex up z). intros [|a [|b r]] Hx; [done..|]. cbn.
  rewrite !not_elem_of_cons in Hx. by rewrite (proj2 (Z.eqb_neq b 120)), andb_false_r by (intros ->; tauto).
Qed.
End Hex.

Lemma split_comma a b : 44 ∉ a -> 44 ∉ b -> RaopSession.split_char 44 (a ++ 44 :: b) = [a; b].
Proof.
  intros Ha Hb. unfold RaopSession.split_char.
  rewrite split_on_sep, split_on_word; [done| | |done]; apply Forall_forall; intros x Hx; apply Z.eqb_neq; by intros ->.
Qed.

Lemma halves z : uint 64 z -> uint 32 (Z.land z 0xFFFFFFFF) /\ uint 32 (Z.shiftr z 32) /\
  Z.lor (Z.land z 0xFFFFFFFF) (Z.shiftl (Z.shiftr z 32) 32) = z.
Proof.
  unfold uint. intros Hz. change 0xFFFFFFFF with (Z.ones 32). rewrite Z.land_ones, Z.shiftr_div_pow2 by lia.
  assert (z = 2 ^ 32 * (z / 2 ^ 32) + z mod 2 ^ 32) as E by (apply Z.div_mod; lia).
  assert (0 <= z mod 2 ^ 32 < 2 ^ 32) by (apply Z.mod_pos_bound; lia).
  split_and!; [lia..|]. rewrite Z.lor_comm, lor_shiftl by (unfold uint; lia). lia.
Qed.

Lemma no_ws_0x s : no_ws s -> no_ws (bs "0x" ++ s).
Proof. intros. apply Forall_app; split; [by repeat constructor|done]. Qed.

Lemma parse_hex_shown z : uint 64 z -> parse_hex (bs "0x" ++ show_hex true z) = Some z.
Proof.
  intros Hz. unfold parse_hex. rewrite trim_no_ws by (by apply no_ws_0x, (show_hex_no_ws 64); try apply Hz).
  unfold strip_0x, RaopSession.strip_prefix, starts_with. cbn [length bs take app drop]. rewrite bool_decide_true by done.
  apply show_hex_parses; [done|apply Hz].
Qed.

(** The features a receiver advertises are the features a client discovers. For
    every 64-bit set of flags the text of the TXT record, two hexadecimal halves with
    the low one first, is read back by the receiver's own parser as the same set and by
    the discovery parser as the capabilities of exactly that bit mask. *)
Theorem features_discovered (s : FeatureFlags) (Hs : uint 64 (flags s)) :
  from_txt_value (to_txt_value s) = Some s /\ parse_features (to_txt_value s) = Some (from_features (flags s)).
Proof.
  destruct s as [z]. cbn [flags] in *. destruct (halves z Hs) as (Hl & Hh & E).
  assert (forall h, uint 32 h -> uint 64 h) as Hu by (unfold uint; lia).
  assert (forall h, uint 32 h -> 44 ∉ bs "0x" ++ show_hex true h) as Hc.
  { intros h Hb. rewrite not_elem_of_app. split; [|apply (show_hex_no 32); [by apply Hu|apply Hb|tauto]].
    cbn. by rewrite !not_elem_of_cons, elem_of_nil; lia. }
  unfold to_txt_value, features_text. cbn [flags]. rewrite (app_assoc (bs "0x")). split.
  - unfold from_txt_value. rewrite split_comma by auto.
    rewrite !(show_hex_trim 32), !show_hex_parses by (auto; first [apply Hl|apply Hh]). by rewrite E.
  - unfold parse_features. rewrite bool_decide_true by (apply elem_of_app; right; left).
    rewrite split_comma by auto. rewrite !parse_hex_shown by auto.
    rewrite wrap_small; [by rewrite Z.lor_comm, E|]. rewrite Z.shiftl_mul_pow2 by lia. unfold uint in *. lia.
Qed.

Lemma features_discovered_witness :
  from_txt_value (to_txt_value multi_room_receiver) = Some multi_room_receiver /\
  parse_features (to_txt_value multi_room_receiver) = Some (from_features (flags multi_room_receiver)).
Proof. apply (features_discovered multi_room_receiver). vm_compute. split; discriminate || reflexivity. Defined.

(** ** Flags as bits *)
Lemma uint_mask w z : 0 <= w -> uint w z <-> Z.land z (Z.ones w) = z.
Proof.
  intros Hw. rewrite Z.land_ones by done. split.
  - intros Hz. by apply Z.mod_small.
  - intros <-. apply Z.mod_pos_bound. lia.
Qed.

Lemma uint_lor w a b : 0 <= w -> uint w a -> uint w b -> uint w (Z.lor a b).
Proof. intros Hw Ha Hb. apply uint_mask in Ha, Hb; [|done..]. apply uint_mask; [done|]. by rewrite Z.land_lor_distr_l, Ha, Hb. Qed.

Lemma uint_land w a b : 0 <= w -> uint w a -> uint w (Z.land a b).
Proof.
  intros Hw Ha. apply uint_mask in Ha; [|done]. apply uint_mask; [done|].
  by rewrite <- Z.land_assoc, (Z.land_comm b), Z.land_assoc, Ha.
Qed.

Lemma feature_on_testbit z b : 0 <= b -> feature_on z b = Z.testbit z b.
Proof.
  intros Hb. unfold feature_on. rewrite Z.shiftl_1_l. destruct (Z.testbit z b) eqn:E.
  - apply negb_true_iff, Z.eqb_neq. intros H. apply (f_equal (fun x => Z.testbit x b)) in H.
    by rewrite Z.land_spec, E, Z.pow2_bits_true, Z.bits_0 in H by lia.
  - apply negb_false_iff, Z.eqb_eq, Z.bits_inj'. intros n Hn. rewrite Z.land_spec, Z.bits_0.
    destruct (decide (n = b)) as [->|]; [by rewrite E|]. rewrite (Z.pow2_bits_false b n) by lia. by rewrite andb_false_r.
Qed.

Lemma feature_bit_range f : 0 <= feature_bit f < 64.
Proof. destruct f; cbn; lia. Qed.

Lemma feature_bit_inj f g : feature_bit f = feature_bit g -> f = g.
Proof. destruct f, g; (done || discriminate). Qed.

Lemma has_testbit s f : has s f = Z.testbit (flags s) (feature_bit f).
Proof. apply feature_on_testbit. pose proof (feature_bit_range f). lia. Qed.

(** A set of feature flags is a set. Setting a flag makes it and no other present,
    clearing one makes it and no other absent, and both stay within 64 bits. *)
Theorem flags_are_a_set (s : FeatureFlags) (f g : FeatureFlag) (Hs : uint 64 (flags s)) :
  has (set s f) g = bool_decide (f = g) || has s g /\ has (clear s f) g = negb (bool_decide (f = g)) && has s g /\
  uint 64 (flags (set s f)) /\ uint 64 (flags (clear s f)).
Proof.
  pose proof (feature_bit_range f). pose proof (feature_bit_range g). rewrite !has_testbit. cbn [set clear flags].
  unfold mask. rewrite Z.shiftl_1_l, Z.lor_spec, Z.land_spec, Z.lxor_spec, Z.ones_spec_low by lia.
  assert (Z.testbit (2 ^ feature_bit f) (feature_bit g) = bool_decide (f = g)) as ->.
  { case_bool_decide as E; [subst; apply Z.pow2_bits_true; lia|]. apply Z.pow2_bits_false. intros E'. by apply E, feature_bit_inj. }
  split_and!.
  - apply orb_comm.
  - by destruct (Z.testbit (flags s) (feature_bit g)), (bool_decide (f = g)).
  - apply uint_lor; [lia|done|]. unfold uint. split; [lia|]. apply Z.pow_lt_mono_r; lia.
  - by apply uint_land.
Qed.

End Features.
