(* ===== verification/Float.v ===== *)
(** * Floating-point numbers by their bits

    The [f32] and [f64] arithmetic of the controllers: a number is its bits, as in the
    rest of the development, and the operations are those of the Standard Library's
    [SpecFloat], which round to the nearest, ties to even. *)

From Stdlib Require Import SpecFloat.
From S2P Require Import Bytes.

Open Scope Z_scope.

(** A format: the bits of the fraction and of the exponent. *)
Record Format := mkFormat { frac_bits : Z; exp_bits : Z }.
Definition F32 : Format := mkFormat 23 8.
Definition F64 : Format := mkFormat 52 11.

Module Float.
Section Operations.
Context (f : Format).

Definition prec : Z := frac_bits f + 1.
Definition emax : Z := 2 ^ (exp_bits f - 1).
(** The exponent of the least bit of the subnormal numbers. *)
Definition emin : Z := 3 - emax - prec.

Definition of_bits (b : Z) : spec_float :=
  let s := 2 ^ (frac_bits f + exp_bits f) <=? b in
  let e := (b / 2 ^ frac_bits f) mod 2 ^ exp_bits f in
  let m := b mod 2 ^ frac_bits f in
  if e =? 2 ^ exp_bits f - 1 then if m =? 0 then S754_infinity s else S754_nan
  else if e =? 0 then match m with Z.pos p => S754_finite s p emin | _ => S754_zero s end
  else match m + 2 ^ frac_bits f with Z.pos p => S754_finite s p (e - 1 + emin) | _ => S754_zero s end.

(** A result that is not a number has the quiet pattern. *)
Definition to_bits (x : spec_float) : Z :=
  let sign (s : bool) := if s then 2 ^ (frac_bits f + exp_bits f) else 0 in
  match x with
  | S754_zero s => sign s
  | S754_infinity s => sign s + (2 ^ exp_bits f - 1) * 2 ^ frac_bits f
  | S754_nan => (2 ^ exp_bits f - 1) * 2 ^ frac_bits f + 2 ^ (frac_bits f - 1)
  | S754_finite s m e =>
      if Z.pos m <? 2 ^ frac_bits f then sign s + Z.pos m
      else sign s + (e - emin + 1) * 2 ^ frac_bits f + (Z.pos m - 2 ^ frac_bits f)
  end.

Definition mul (a b : Z) : Z := to_bits (SFmul prec emax (of_bits a) (of_bits b)).
Definition add (a b : Z) : Z := to_bits (SFadd prec emax (of_bits a) (of_bits b)).
Definition sub (a b : Z) : Z := to_bits (SFsub prec emax (of_bits a) (of_bits b)).
Definition div (a b : Z) : Z := to_bits (SFdiv prec emax (of_bits a) (of_bits b)).

(** [as] from an integer. *)
Definition of_int (z : Z) : Z := to_bits (binary_normalize prec emax z 0 false).

(** [round] and then [as] to an unsigned integer of [w] bits, and [as] alone: halves
    away from zero and towards zero; what is out of range saturates, NaN is 0. *)
Definition saturate (w z : Z) : Z := Z.max 0 (Z.min z (2 ^ w - 1)).
Definition to_uint_by (round : Z -> Z -> Z) (w a : Z) : Z :=
  match of_bits a with
  | S754_finite false m e => saturate w (if 0 <=? e then Z.pos m * 2 ^ e else round (Z.pos m) (2 ^ (- e)))
  | S754_infinity false => 2 ^ w - 1
  | _ => 0
  end.
Definition round_to_uint (w a : Z) : Z := to_uint_by (fun m d => (2 * m + d) / (2 * d)) w a.
Definition trunc_to_uint (w a : Z) : Z := to_uint_by Z.div w a.
(** [as i64]. *)
Definition trunc_to_i64 (a : Z) : Z :=
  let clamp z := Z.max (- 2 ^ 63) (Z.min z (2 ^ 63 - 1)) in
  match of_bits a with
  | S754_finite s m e =>
      let n := if 0 <=? e then Z.pos m * 2 ^ e else Z.pos m / 2 ^ (- e) in clamp (if s then - n else n)
  | S754_infinity s => if s then - 2 ^ 63 else 2 ^ 63 - 1
  | _ => 0
  end.
End Operations.

(** [Duration::from_secs_f64], in nanoseconds: the nearest, ties to even; a negative
    number, a NaN and more than [u64] seconds panic. *)
Definition from_secs_f64 {E} (a : Z) : outcome E Z :=
  match of_bits F64 a with
  | S754_zero _ => Ok 0
  | S754_finite false m e =>
      let n := Z.pos m * 1000000000 in
      let ns :=
        if 0 <=? e then n * 2 ^ e
        else
          let d := 2 ^ (- e) in
          let q := n / d in
          let r := n mod d in
          if (d <? 2 * r) || ((2 * r =? d) && Z.odd q) then q + 1 else q in
      if ns <? 2 ^ 64 * 1000000000 then Ok ns else Panic
  | _ => Panic
  end.

(** [Duration::as_secs_f64]. *)
Definition as_secs_f64 (secs nanos : Z) : Z := add F64 (of_int F64 secs) (div F64 (of_int F64 nanos) (of_int F64 1000000000)).

(** 0.1 + 0.2, 1 / 3, the largest number doubled and a subnormal one halved. *)
Example arithmetic :
  add F64 0x3FB999999999999A 0x3FC999999999999A = 0x3FD3333333333334 /\ div F32 0x3F800000 0x40400000 = 0x3EAAAAAB /\
  add F32 0x7F7FFFFF 0x7F7FFFFF = 0x7F800000 /\ mul F32 0x00000003 0x3F000000 = 0x00000002 /\
  of_int F32 16777217 = 0x4B800000 /\ round_to_uint F32 8 0x40200000 = 3 /\ trunc_to_uint F32 8 0x40200000 = 2.
Proof. vm_compute. done. Qed.

End Float.
