(* ===== verification/RecvTiming.v ===== *)
(** * Timing on the RAOP receiver

    Models [src/receiver/timing.rs] and [src/receiver/playback_timing.rs]: the answers to
    timing requests, the estimate of the offset and the mapping from RTP timestamps to
    playback times.  Clock readings are arguments; instants and durations are in
    nanoseconds, moving averages the bits of an [f64]. *)

From stdpp Require Import base list.
From S2P Require Import Bytes RtpPacket RtpTiming RtpControl Float.

Module RecvTiming.
Import RtpPacket(RtpDecodeError).

(** ** timing.rs *)
Definition TIMING_REQUEST : Z := 0x52.
Definition TIMING_RESPONSE : Z := 0x53.
Definition NTP_EPOCH_OFFSET : Z := 2208988800.

Record NtpTimestamp := mkNtp { seconds : Z; fraction : Z }.
Definition Ntp_now (secs nanos : Z) : NtpTimestamp :=
  mkNtp (wrap 32 (secs + NTP_EPOCH_OFFSET)) (wrap 32 (nanos * 0x100000000 / 1000000000)).
Definition Ntp_from_u64 (v : Z) : NtpTimestamp := mkNtp (wrap 32 (Z.shiftr v 32)) (wrap 32 v).
Definition Ntp_to_u64 (t : NtpTimestamp) : Z := Z.lor (Z.shiftl (seconds t) 32) (fraction t).
(** In nanoseconds. *)
Definition Ntp_to_duration (t : NtpTimestamp) : Z := seconds t * 1000000000 + fraction t * 1000000000 / 0x100000000.
Definition micros (t : NtpTimestamp) : Z := seconds t * 1000000 + Z.shiftr (fraction t * 1000000) 32.
(** In an [i64], which the 32-bit fields cannot leave. *)
Definition diff_micros (t other : NtpTimestamp) : Z := micros t - micros other.

Record ClockSync := mkSync { offset_micros : Z; delay_micros : Z; exchange_count : Z; last_sync : Z; offset_avg : Z; drift_rate : Z }.
Definition Sync_new (now : Z) : ClockSync := mkSync 0 0 0 now 0 0.

(** 0.5 and 0.1. *)
Definition alpha (count : Z) : Z := if count <? 10 then 0x3FE0000000000000 else 0x3FB999999999999A.
Definition F64_ONE : Z := 0x3FF0000000000000.
Definition Sync_update {E} (s : ClockSync) (sender_transmit our_receive our_transmit : NtpTimestamp) (now : Z) : outcome E ClockSync :=
  let a := alpha (exchange_count s) in
  let avg := Float.add F64 (Float.mul F64 (Float.sub F64 F64_ONE a) (offset_avg s))
               (Float.mul F64 a (Float.of_int F64 (diff_micros our_receive sender_transmit))) in
  n ← chk_u 32 (exchange_count s + 1);
  Ok (mkSync (Float.trunc_to_i64 F64 avg) (Z.abs (diff_micros our_transmit our_receive)) n now avg (drift_rate s)).
Definition is_stale (s : ClockSync) (now max_age : Z) : bool := max_age <? saturating_sub now (last_sync s).

(** The answer, when the datagram is a request; the two readings are the receive and the
    transmit time. *)
Definition handle_timing_packet {E} (s : ClockSync) (data : list Z) (our_receive our_transmit : NtpTimestamp) (now : Z)
  : outcome E (option (list Z) * ClockSync) :=
  if (length data <? 32)%nat then Ok (None, s)
  else
    b1 ← byte_at data 1;
    if negb (Z.land b1 0x7F =? TIMING_REQUEST) then Ok (None, s)
    else
      v ← be_at data 24 8;
      let sender_transmit := Ntp_from_u64 v in
      s ← Sync_update s sender_transmit our_receive our_transmit now;
      s2 ← byte_at data 2; s3 ← byte_at data 3;
      Ok (Some ([0x80; Z.lor TIMING_RESPONSE 0x80; s2; s3; 0; 0; 0; 0] ++ to_be 8 (Ntp_to_u64 sender_transmit) ++
                to_be 8 (Ntp_to_u64 our_receive) ++ to_be 8 (Ntp_to_u64 our_transmit)), s).

(** ** playback_timing.rs *)
Record PlaybackTiming := mkTiming {
  sample_rate : Z; ref_rtp_timestamp : option Z; ref_ntp_timestamp : option NtpTimestamp; ref_local_time : option Z; target_latency_samples : Z
}.
Definition Timing_new {E} (rate : Z) : outcome E PlaybackTiming := l ← chk_u 32 (rate * 2); Ok (mkTiming rate None None None l).
Definition update_from_sync (t : PlaybackTiming) (p : RtpControl.RecvSyncPacket) (now : Z) : PlaybackTiming :=
  mkTiming (sample_rate t) (Some (RtpControl.rs_rtp_timestamp_at_ntp p)) (Some (Ntp_from_u64 (RtpControl.rs_ntp_timestamp p))) (Some now)
    (target_latency_samples t).
Definition set_target_latency (t : PlaybackTiming) (n : Z) : PlaybackTiming :=
  mkTiming (sample_rate t) (ref_rtp_timestamp t) (ref_ntp_timestamp t) (ref_local_time t) n.
Definition rtp_to_duration {E} (t : PlaybackTiming) (n : Z) : outcome E Z :=
  Float.from_secs_f64 (Float.div F64 (Float.of_int F64 n) (Float.of_int F64 (sample_rate t))).
Definition target_latency {E} (t : PlaybackTiming) : outcome E Z := rtp_to_duration t (target_latency_samples t).

Section Instants.
(** Which instants before the reference the platform can represent. *)
Context (representable : Z -> bool).

Definition playback_time {E} (t : PlaybackTiming) (rtp : Z) : outcome E (option Z) :=
  match ref_rtp_timestamp t, ref_local_time t with
  | Some ref_rtp, Some ref_local =>
      let diff := sext 32 (wrapping_sub 32 rtp ref_rtp) in
      latency ← target_latency t;
      d ← rtp_to_duration t (Z.abs diff);
      if 0 <=? diff then Ok (Some (ref_local + d + latency))
      else if representable (ref_local - d) then Ok (Some (ref_local - d + latency))
      else Ok None
  | _, _ => Ok None
  end.
Definition is_ready_for_playback {E} (t : PlaybackTiming) (rtp now : Z) : outcome E bool :=
  p ← playback_time t rtp; Ok (match p with Some at_ => at_ <=? now | None => false end).
Definition delay_until_playback {E} (t : PlaybackTiming) (rtp now : Z) : outcome E (option Z) :=
  p ← playback_time t rtp; Ok (match p with Some at_ => Some (if at_ <=? now then 0 else at_ - now) | None => None end).
End Instants.

(** ** One exchange with the client *)
Definition client_time (t : NtpTimestamp) : RtpTiming.NtpTimestamp := {| RtpTiming.seconds := seconds t; RtpTiming.fraction := fraction t |}.
Definition receiver_time (t : RtpTiming.NtpTimestamp) : NtpTimestamp := mkNtp (RtpTiming.seconds t) (RtpTiming.fraction t).

Lemma to_u64_value t : uint 32 (fraction t) -> Ntp_to_u64 t = seconds t * 2 ^ 32 + fraction t.
Proof. intros H. unfold Ntp_to_u64. by apply lor_shiftl. Qed.

(** The eight bytes are those of the client's encoder. *)
Lemma ntp_bytes t : RtpTiming.ntp_ok (client_time t) -> to_be 8 (Ntp_to_u64 t) = RtpTiming.NtpTimestamp_encode (client_time t).
Proof.
  intros [Hs Hf]. rewrite to_u64_value by done. unfold RtpTiming.NtpTimestamp_encode.
  assert (bytes_ok (to_be 4 (seconds t) ++ to_be 4 (fraction t))) as Hb by (apply Forall_app; split; apply to_be_ok).
  cbn [client_time RtpTiming.seconds RtpTiming.fraction] in *. rewrite <- (to_be_from_be _ Hb). rewrite length_app, !length_to_be. f_equal.
  assert (forall l r, from_be (l ++ r) = from_be l * 256 ^ Z.of_nat (length r) + from_be r) as Happ.
  { clear. induction l as [|b l IH]; intros r; [done|]. cbn [app]. rewrite !from_be_cons, IH, length_app, Nat2Z.inj_add, Z.pow_add_r by lia. lia. }
  rewrite Happ, !from_be_to_be, length_to_be. change (256 ^ Z.of_nat 4) with (2 ^ 32). unfold uint in *. by rewrite !Z.mod_small.
Qed.

Lemma from_u64_time t : RtpTiming.ntp_ok t -> Ntp_from_u64 (from_be (RtpTiming.NtpTimestamp_encode t)) = receiver_time t.
Proof.
  intros [Hs Hf]. destruct t as [s f]. cbn [RtpTiming.seconds RtpTiming.fraction] in Hs, Hf.
  change {| RtpTiming.seconds := s; RtpTiming.fraction := f |} with (client_time (mkNtp s f)) at 1. rewrite <- ntp_bytes by done. rewrite from_be_to_be, to_u64_value by done. cbn [seconds fraction]. unfold Ntp_from_u64, receiver_time.
  cbn [RtpTiming.seconds RtpTiming.fraction]. change (256 ^ Z.of_nat 8) with (2 ^ 64). unfold uint in *.
  rewrite Z.mod_small by lia. f_equal.
  - rewrite Z.shiftr_div_pow2 by lia. rewrite Z.div_add_l, Z.div_small by lia. rewrite Z.add_0_r. by apply wrap_small.
  - unfold wrap. rewrite Z.add_comm, Z.mod_add, Z.mod_small by lia. done.
Qed.

(** The answer's three times, behind eight bytes of header. *)
Lemma reply_decodes h a b c : length h = 8%nat -> RtpTiming.ntp_ok a -> RtpTiming.ntp_ok b -> RtpTiming.ntp_ok c ->
  RtpTiming.RaopTimingResponse_decode (h ++ RtpTiming.NtpTimestamp_encode a ++ RtpTiming.NtpTimestamp_encode b ++ RtpTiming.NtpTimestamp_encode c) =
  Ok {| RtpTiming.reference_time := a; RtpTiming.receive_time := b; RtpTiming.send_time := c |}.
Proof.
  intros Hh Ha Hb Hc. unfold RtpTiming.RaopTimingResponse_decode.
  pose proof RtpTiming.length_NtpTimestamp_encode as Hl.
  rewrite (proj2 (Nat.ltb_ge _ 32)) by (rewrite !length_app, !Hl; lia).
  rewrite !(slice_skip h) by lia. rewrite Hh. cbn [Nat.sub].
  rewrite slice_here by (by rewrite Hl). cbn [mbind outcome_bind]. rewrite RtpTiming.NtpTimestamp_roundtrip' by done. cbn [mbind outcome_bind].
  rewrite !(slice_skip (RtpTiming.NtpTimestamp_encode a)) by (rewrite Hl; lia). rewrite Hl. cbn [Nat.sub].
  rewrite slice_here by (by rewrite Hl). cbn [mbind outcome_bind]. rewrite RtpTiming.NtpTimestamp_roundtrip' by done. cbn [mbind outcome_bind].
  rewrite (slice_skip (RtpTiming.NtpTimestamp_encode b)) by (rewrite Hl; lia). rewrite Hl. cbn [Nat.sub].
  rewrite slice_all by (by rewrite Hl). cbn [mbind outcome_bind]. by rewrite RtpTiming.NtpTimestamp_roundtrip' by done.
Qed.

(** A request of the client, and the receiver's answer to it. *)
Lemma request_answered (self : RtpTiming.TimingSync) (s s' : ClockSync) (t1 : RtpTiming.NtpTimestamp) (t2 t3 : NtpTimestamp) (now : Z) :
  RtpTiming.ntp_ok t1 -> RtpTiming.ntp_ok (client_time t2) -> RtpTiming.ntp_ok (client_time t3) ->
  Sync_update (E := RtpDecodeError) s (receiver_time t1) t2 t3 now = Ok s' ->
  exists reply, handle_timing_packet (E := RtpDecodeError) s (fst (RtpTiming.TimingSync_create_request self t1)) t2 t3 now = Ok (Some reply, s') /\
    RtpTiming.RaopTimingResponse_decode reply =
      Ok {| RtpTiming.reference_time := t1; RtpTiming.receive_time := client_time t2; RtpTiming.send_time := client_time t3 |}.
Proof.
  intros H1 H2 H3 Hu. set (data := fst _).
  assert (length data = 32%nat) as Hl by reflexivity.
  assert (be_at (E := RtpDecodeError) data 24 8 = Ok (from_be (RtpTiming.NtpTimestamp_encode t1))) as Hbe
    by (rewrite be_at_in by (rewrite Hl; lia); reflexivity).
  assert (byte_at (E := RtpDecodeError) data 1 = Ok 0xD2) as Hb1 by reflexivity.
  destruct (byte_at_in (E := RtpDecodeError) data 2) as (x & Hx & _); [rewrite Hl; lia|].
  destruct (byte_at_in (E := RtpDecodeError) data 3) as (y & Hy & _); [rewrite Hl; lia|].
  unfold handle_timing_packet. rewrite Hl, Hb1, Hbe, Hx, Hy. clearbody data. cbn [mbind outcome_bind Nat.ltb Nat.leb].
  change (negb (Z.land 0xD2 0x7F =? TIMING_REQUEST)) with false. cbv iota. rewrite from_u64_time, Hu by done. cbn [mbind outcome_bind].
  eexists. split; [done|]. destruct t1 as [c1 f1]. rewrite !ntp_bytes by done. by apply reply_decodes.
Qed.

(** A timing exchange between the crate's client and its receiver measures their
    clocks. Let the receiver's clock be [theta] microseconds ahead, and let a request of
    a fresh client travel for [d1], be processed for [p] and its answer travel for [d2]:
    the receiver answers it, and from the answer the client estimates the round trip as
    [d1 + d2] and the offset as [theta], off by at most half the round trip. *)
Theorem clocks_measured (self : RtpTiming.TimingSync) (s s' : ClockSync) (t1 t4 : RtpTiming.NtpTimestamp) (t2 t3 : NtpTimestamp) (now a theta d1 p d2 : Z)
  (Hself : RtpTiming.ts_sample_count self = 0) (Hd : 0 <= d1 /\ 0 <= d2 /\ 0 <= p)
  (H1 : RtpTiming.micros_eq t1 a) (H2 : RtpTiming.micros_eq (client_time t2) (a + d1 + theta))
  (H3 : RtpTiming.micros_eq (client_time t3) (a + d1 + theta + p)) (H4 : RtpTiming.micros_eq t4 (a + d1 + p + d2))
  (Hu : Sync_update (E := RtpDecodeError) s (receiver_time t1) t2 t3 now = Ok s') :
  let '(request, self1) := RtpTiming.TimingSync_create_request self t1 in
  exists reply self2, handle_timing_packet (E := RtpDecodeError) s request t2 t3 now = Ok (Some reply, s') /\
    RtpTiming.TimingSync_process_response self1 reply t4 = Ok self2 /\
    RtpTiming.ts_rtt self2 = d1 + d2 /\ 2 * Z.abs (RtpTiming.ts_offset self2 - theta) <= d1 + d2 + 1.
Proof.
  destruct (request_answered self s s' t1 t2 t3 now) as (reply & Hr & Hdec); [apply H1|apply H2|apply H3|done|].
  destruct (RtpTiming.TimingSync_create_request self t1) as [request self1] eqn:E. cbn [fst] in Hr.
  assert (RtpTiming.ts_sample_count self1 = 0) as Hs1 by (unfold RtpTiming.TimingSync_create_request in E; by injection E as _ <-).
  set (r := {| RtpTiming.reference_time := t1; RtpTiming.receive_time := client_time t2; RtpTiming.send_time := client_time t3 |}) in *.
  destruct (RtpTiming.timing_exchange_accuracy r t4 a theta d1 p d2) as (o & Ho & Hrtt & Hacc & _); [done..|].
  exists reply. eexists. split; [exact Hr|]. unfold RtpTiming.TimingSync_process_response. rewrite Hdec. cbn [mbind outcome_bind].
  rewrite RtpTiming.raop_calculate_offset_eq, RtpTiming.raop_calculate_rtt_eq, Ho. cbn [mbind outcome_bind]. rewrite Hrtt, Hs1. cbn [mbind outcome_bind].
  rewrite Z.eqb_refl. cbn [mbind outcome_bind]. rewrite chk_u_ok by (unfold uint; lia). cbn [mbind outcome_bind]. split; [done|]. done.
Qed.

(** ** Witness *)
Lemma clocks_measured_witness :
  let '(request, self1) := RtpTiming.TimingSync_create_request RtpTiming.TimingSync_new {| RtpTiming.seconds := 100; RtpTiming.fraction := 0 |} in
  exists reply self2, handle_timing_packet (E := RtpDecodeError) (Sync_new 0) request (mkNtp 107 0) (mkNtp 108 0) 7 =
      Ok (Some reply, mkSync 3500000 1000000 1 7 0x414AB3F000000000 0) /\
    RtpTiming.TimingSync_process_response self1 reply {| RtpTiming.seconds := 105; RtpTiming.fraction := 0 |} = Ok self2 /\
    RtpTiming.ts_rtt self2 = 4000000 /\ 2 * Z.abs (RtpTiming.ts_offset self2 - 5000000) <= 4000001.
Proof.
  apply (clocks_measured RtpTiming.TimingSync_new (Sync_new 0) _ {| RtpTiming.seconds := 100; RtpTiming.fraction := 0 |} {| RtpTiming.seconds := 105; RtpTiming.fraction := 0 |}
    (mkNtp 107 0) (mkNtp 108 0) 7 100000000 5000000 2000000 1000000 2000000); try (repeat split; vm_compute; congruence).
Defined.

(** At 44.1 kHz and two seconds of latency: one packet after the reference, and one
    before it across the wrap of the timestamp. *)
Example playback_times :
  let t := mkTiming 44100 (Some 100) None (Some 10000000000) 88200 in
  playback_time (E := Empty_set) (fun _ => true) t 452 = Ok (Some 12007981859) /\
  playback_time (E := Empty_set) (fun _ => true) t (2 ^ 32 - 252) = Ok (Some 11992018141).
Proof. vm_compute. done. Qed.

End RecvTiming.
