(* ===== verification/Controls.v ===== *)
(** * Volume and playback control on the client

    Models [src/control/volume.rs], [src/control/playback.rs] and the states of
    [src/types/state.rs] and [src/types/track.rs].  The controllers share the connection
    manager; what they use of it is the class below.  A method is a function of the
    controller, whose locks are held one after the other, to a result and the controller
    after it. *)

From stdpp Require Import gmap.
From S2P Require Import Bytes Text Unicode Rtsp Plist RtspParser Sdp RaopSession Dmap Float.

(** What the controllers need of the connection manager: one command, its reply or
    error, and the PTP time of the master. *)
Class CommandLink := {
  Link : Type; LinkError : Type;
  send_command : Link -> Rtsp.Method -> option (list Z) -> option string -> outcome LinkError (list Z) * Link;
  send_post_command : Link -> string -> option (list Z) -> option string -> outcome LinkError (list Z) * Link;
  get_ptp_network_time : Link -> option (Z * Z * Z)
}.

(** The bodies of the SET_PARAMETER commands that the device has accepted, latest first:
    a failed command and every other one leave them alone. *)
Class CommandLinkLaws (C : CommandLink) := {
  accepted : Link -> list (list Z);
  send_accepted : forall l m b ct r l', send_command l m b ct = (r, l') ->
    accepted l' = match r, m, b with Ok _, Rtsp.SetParameter, Some b => b :: accepted l | _, _, _ => accepted l end
}.

(** The [f32] functions of the C library: [log10], and [10.0_f32.powf(db / 20.0)] in
    [Floats]. *)
Class Log10 := log10_f32 : Z -> Z.

Module Controls.
Import Unicode Rtsp RtspParser.

(** ** volume.rs *)

(** [Volume] by the bits of its [f32]. *)
Definition VMIN : Z := 0.
Definition VMAX : Z := 0x3F800000.
Definition VDEFAULT : Z := 0x3F400000.
Definition Volume_new (level : Z) : Z := RaopSession.f32_clamp level 0 0x3F800000.
Definition as_percent (v : Z) : Z := Float.round_to_uint F32 8 (Float.mul F32 v 0x42C80000).
Definition from_percent (p : Z) : Z := Volume_new (Float.div F32 (Float.of_int F32 p) 0x42C80000).
Definition is_silent (v : Z) : bool := RaopSession.f32_lt v 0x3A83126F.
Definition is_max (v : Z) : bool := RaopSession.f32_le 0x3F7FBE77 v.

Section Conversions.
Context {F : Floats} {L10 : Log10}.
Definition to_db (v : Z) : Z := if RaopSession.f32_le v 0 then 0xC3100000 else Float.mul F32 0x41A00000 (log10_f32 v).
Definition from_db (db : Z) : Z := if RaopSession.f32_le db 0xC3100000 then VMIN else Volume_new (db_power db).
End Conversions.

Section Controllers.
Context {F : Floats} {L10 : Log10} {C : CommandLink}.

Inductive ControlError := LinkFailed (e : LinkError) | RtspError (message : string) | EncodeFailed (e : Plist.PlistEncodeError).

Record VolumeController := mkVC { vc_link : Link; volume : Z; muted : bool; pre_mute_volume : Z }.
Definition VolumeController_new (l : Link) : VolumeController := mkVC l VDEFAULT false VDEFAULT.

Definition text_parameters : option string := Some "text/parameters".

Definition volume_body (v : Z) : list Z := bs "volume: " ++ show_f32 (to_db v) ++ [13; 10].
Definition send_volume (c : VolumeController) (v : Z) : outcome ControlError unit * VolumeController :=
  let '(r, l) := send_command (vc_link c) SetParameter (Some (volume_body v)) text_parameters in
  (_ ← map_err LinkFailed r; Ok tt, mkVC l (volume c) (muted c) (pre_mute_volume c)).

(** The first line that begins with [volume:]. *)
Fixpoint volume_line (ls : list (list Z)) : outcome ControlError Z :=
  match ls with
  | [] => Ok VDEFAULT
  | line :: ls =>
      match RaopSession.strip_prefix (bs "volume:") line with
      | Some v => match parse_f32 (trim v) with Some db => Ok (from_db db) | None => Err (RtspError "Invalid volume value") end
      | None => volume_line ls
      end
  end.
Definition get_device_volume (c : VolumeController) : outcome ControlError Z * VolumeController :=
  let '(r, l) := send_command (vc_link c) GetParameter (Some (bs "volume" ++ [13; 10])) text_parameters in
  (reply ← map_err LinkFailed r; s ← ok_or (from_utf8 reply) (RtspError "Invalid UTF-8 in volume response"); volume_line (lines s),
   mkVC l (volume c) (muted c) (pre_mute_volume c)).

Definition set (c : VolumeController) (v : Z) : outcome ControlError unit * VolumeController :=
  match send_volume c v with
  | (Ok _, c) => (Ok tt, mkVC (vc_link c) v (if is_silent v then muted c else false) (pre_mute_volume c))
  | r => r
  end.
Definition set_percent (c : VolumeController) (p : Z) : outcome ControlError unit * VolumeController := set c (from_percent p).

Definition set_to (c : VolumeController) (v : Z) : outcome ControlError Z * VolumeController :=
  match set c v with (r, c) => (_ ← r; Ok v, c) end.
Definition increase (c : VolumeController) (amount : Z) : outcome ControlError Z * VolumeController :=
  set_to c (Volume_new (Float.add F32 (volume c) amount)).
Definition decrease (c : VolumeController) (amount : Z) : outcome ControlError Z * VolumeController :=
  set_to c (Volume_new (Float.sub F32 (volume c) amount)).
Definition step_up (c : VolumeController) : outcome ControlError Z * VolumeController := increase c 0x3D4CCCCD.
Definition step_down (c : VolumeController) : outcome ControlError Z * VolumeController := decrease c 0x3D4CCCCD.

Definition mute (c : VolumeController) : outcome ControlError unit * VolumeController :=
  if muted c then (Ok tt, c)
  else
    let c := mkVC (vc_link c) (volume c) (muted c) (volume c) in
    match send_volume c VMIN with
    | (Ok _, c) => (Ok tt, mkVC (vc_link c) (volume c) true (pre_mute_volume c))
    | r => r
    end.
Definition unmute (c : VolumeController) : outcome ControlError unit * VolumeController :=
  if muted c then
    match send_volume c (pre_mute_volume c) with
    | (Ok _, c) => (Ok tt, mkVC (vc_link c) (pre_mute_volume c) false (pre_mute_volume c))
    | r => r
    end
  else (Ok tt, c).
Definition toggle_mute (c : VolumeController) : outcome ControlError bool * VolumeController :=
  if muted c then match unmute c with (r, c) => (_ ← r; Ok false, c) end
  else match mute c with (r, c) => (_ ← r; Ok true, c) end.

Definition sync_from_device (c : VolumeController) : outcome ControlError Z * VolumeController :=
  match get_device_volume c with
  | (Ok v, c) => (Ok v, mkVC (vc_link c) v (is_silent v) (pre_mute_volume c))
  | r => r
  end.

(** *** [GroupVolumeController]: its devices refer to shared controllers, here by their
    keys in the store of controllers *)
Record DeviceVolume := mkDV { dv_device_id : list Z; dv_volume : Z; dv_controller : nat }.
Record GroupVolumeController := mkGVC { devices : list DeviceVolume; master_volume : Z }.
Definition GroupVolume_new : GroupVolumeController := mkGVC [] VDEFAULT.
Definition add_device (g : GroupVolumeController) (i : list Z) (k : nat) : GroupVolumeController :=
  mkGVC (devices g ++ [mkDV i VMAX k]) (master_volume g).
Definition remove_device (g : GroupVolumeController) (i : list Z) : GroupVolumeController :=
  mkGVC (List.filter (fun d => negb (bool_decide (dv_device_id d = i))) (devices g)) (master_volume g).

(** One method on each device's controller, in order, until one fails; a reference always
    has its controller. *)
Fixpoint for_each (method : DeviceVolume -> VolumeController -> outcome ControlError unit * VolumeController)
  (ds : list DeviceVolume) (cs : gmap nat VolumeController) : outcome ControlError unit * gmap nat VolumeController :=
  match ds with
  | [] => (Ok tt, cs)
  | d :: ds =>
      match cs !! dv_controller d with
      | None => (Panic, cs)
      | Some c =>
          match method d c with
          | (Ok _, c) => for_each method ds (<[dv_controller d := c]> cs)
          | (r, c) => (r, <[dv_controller d := c]> cs)
          end
      end
  end.
Definition effective (g : GroupVolumeController) (d : DeviceVolume) : Z := Volume_new (Float.mul F32 (master_volume g) (dv_volume d)).
Definition apply_volumes (g : GroupVolumeController) (cs : gmap nat VolumeController) : outcome ControlError unit * gmap nat VolumeController :=
  for_each (fun d c => set c (effective g d)) (devices g) cs.
Definition set_master_volume (g : GroupVolumeController) (v : Z) (cs : gmap nat VolumeController) : outcome ControlError unit * gmap nat VolumeController * GroupVolumeController :=
  let g := mkGVC (devices g) v in (apply_volumes g cs, g).
Fixpoint update_first (i : list Z) (v : Z) (ds : list DeviceVolume) : list DeviceVolume :=
  match ds with
  | [] => []
  | d :: ds => if bool_decide (dv_device_id d = i) then mkDV (dv_device_id d) v (dv_controller d) :: ds else d :: update_first i v ds
  end.
Definition set_device_volume (g : GroupVolumeController) (i : list Z) (v : Z) (cs : gmap nat VolumeController) : outcome ControlError unit * gmap nat VolumeController * GroupVolumeController :=
  let g := mkGVC (update_first i v (devices g)) (master_volume g) in (apply_volumes g cs, g).
Definition mute_all (g : GroupVolumeController) (cs : gmap nat VolumeController) : outcome ControlError unit * gmap nat VolumeController := for_each (fun _ => mute) (devices g) cs.
Definition unmute_all (g : GroupVolumeController) (cs : gmap nat VolumeController) : outcome ControlError unit * gmap nat VolumeController := for_each (fun _ => unmute) (devices g) cs.

(** ** playback.rs *)
Inductive ShuffleMode := ShuffleOff | ShuffleOn.
Inductive RepeatMode := RepeatOff | RepeatAll | RepeatOne.
Inductive ConnectionState := Disconnected | Connecting | Pairing | Connected | Reconnecting.

Record TrackInfo := mkTrackInfo {
  url : list Z; t_title : list Z; t_artist : list Z; t_album : option (list Z); artwork_url : option (list Z); t_duration_secs : option Z;
  t_track_number : option Z; t_disc_number : option Z; t_genre : option (list Z); content_id : option (list Z)
}.
Record QueueItem := mkQueueItem { q_id : Z; q_track : TrackInfo; q_original_position : nat }.
Record PlaybackState := mkState {
  is_playing : bool; current_track : option TrackInfo; position_secs : Z; duration_secs : option Z; ps_volume : Z; queue : list QueueItem;
  queue_index : option Z; shuffle : bool; repeat : RepeatMode; connection_state : ConnectionState
}.
Definition State_default : PlaybackState := mkState false None 0 None 0 [] None false RepeatOff Disconnected.

(** [PlaybackInfo], with its items and their numbers. *)
Record PlaybackInfo := mkInfo { i_current_track : option TrackInfo; i_index : Z; position_ms : Z; i_is_playing : bool; i_items : list (TrackInfo * Z) }.
Definition PlaybackInfo_from (s : PlaybackState) : PlaybackInfo :=
  mkInfo (current_track s)
    (match queue_index s with Some i => if i <? 2 ^ 32 then i else 0 | None => 0 end)
    (Float.trunc_to_uint F64 32 (Float.mul F64 (position_secs s) (Float.of_int F64 1000)))
    (is_playing s)
    (map (fun i => (q_track i, if q_id i <? 2 ^ 31 then q_id i else -1)) (queue s)).

Definition with_playing (s : PlaybackState) (b : bool) : PlaybackState :=
  let '(mkState _ t p d v q i sh r c) := s in mkState b t p d v q i sh r c.
Definition with_position (s : PlaybackState) (p : Z) : PlaybackState :=
  let '(mkState b t _ d v q i sh r c) := s in mkState b t p d v q i sh r c.
Definition with_track (s : PlaybackState) (t : option TrackInfo) : PlaybackState :=
  let '(mkState b _ p d v q i sh r c) := s in mkState b t p d v q i sh r c.
Definition with_repeat (s : PlaybackState) (m : RepeatMode) : PlaybackState :=
  let '(mkState b t p d v q i sh _ c) := s in mkState b t p d v q i sh m c.
Definition with_shuffle (s : PlaybackState) (x : bool) : PlaybackState :=
  let '(mkState b t p d v q i _ r c) := s in mkState b t p d v q i x r c.

Record PlaybackController := mkPC { pc_link : Link; state : PlaybackState; repeat_mode : RepeatMode; shuffle_mode : ShuffleMode }.
Definition PlaybackController_new (l : Link) : PlaybackController := mkPC l State_default RepeatOff ShuffleOff.
Definition with_state (c : PlaybackController) (s : PlaybackState) : PlaybackController := mkPC (pc_link c) s (repeat_mode c) (shuffle_mode c).
Definition set_playing (c : PlaybackController) (b : bool) : PlaybackController := with_state c (with_playing (state c) b).

(** A command whose reply is dropped. *)
Definition send (c : PlaybackController) (m : Method) (b : option (list Z)) (ct : option string) : outcome ControlError unit * PlaybackController :=
  let '(r, l) := send_command (pc_link c) m b ct in
  (_ ← map_err LinkFailed r; Ok tt, mkPC l (state c) (repeat_mode c) (shuffle_mode c)).
(** What is done when it succeeded. *)
Definition then_state (r : outcome ControlError unit * PlaybackController) (f : PlaybackState -> PlaybackState) : outcome ControlError unit * PlaybackController :=
  match r with
  | (Ok _, c) => (Ok tt, with_state c (f (state c)))
  | r => r
  end.

Definition rate_dict (rate : Z) (ptp : option (Z * Z * Z)) : Plist.PlistValue :=
  let b := Plist.builder_insert (Plist.builder_insert Plist.builder_new (bs "rate") (Plist.Integer rate)) (bs "rtpTime") (Plist.UnsignedInteger 0) in
  Plist.builder_build
    (match ptp with
     | Some (secs, frac, timeline) =>
         Plist.builder_insert (Plist.builder_insert (Plist.builder_insert b (bs "networkTimeSecs") (Plist.UnsignedInteger secs))
           (bs "networkTimeFrac") (Plist.UnsignedInteger frac)) (bs "networkTimeTimelineID") (Plist.UnsignedInteger timeline)
     | None => b
     end).
Definition send_rate (c : PlaybackController) (rate : Z) (ptp : option (Z * Z * Z)) : outcome ControlError unit * PlaybackController :=
  match Plist.encode (rate_dict rate ptp) with
  | Ok encoded => send c SetRateAnchorTime (Some encoded) (Some "application/x-apple-binary-plist")
  | Err e => (Err (EncodeFailed e), c)
  | Panic => (Panic, c)
  end.

(** The displayed fraction fits 32 bits for every 64-bit one, so its [expect] holds. *)
Definition play (c : PlaybackController) : outcome ControlError unit * PlaybackController :=
  if is_playing (state c) then (Ok tt, c)
  else then_state (send_rate c 1 (get_ptp_network_time (pc_link c))) (fun s => with_playing s true).
Definition pause (c : PlaybackController) : outcome ControlError unit * PlaybackController :=
  then_state (send_rate c 0 None) (fun s => with_playing s false).
Definition toggle (c : PlaybackController) : outcome ControlError unit * PlaybackController :=
  if is_playing (state c) then pause c else play c.
Definition stop (c : PlaybackController) : outcome ControlError unit * PlaybackController :=
  then_state (send c Teardown None None) (fun s => with_position (with_playing s false) 0).

Definition send_ctrl (c : PlaybackController) (command : string) : outcome ControlError unit * PlaybackController :=
  let '(r, l) := send_post_command (pc_link c) ("/ctrl-int/1/" +:+ command) None None in
  (_ ← map_err LinkFailed r; Ok tt, mkPC l (state c) (repeat_mode c) (shuffle_mode c)).
Definition next (c : PlaybackController) : outcome ControlError unit * PlaybackController := send_ctrl c "nextitem".
Definition previous (c : PlaybackController) : outcome ControlError unit * PlaybackController := send_ctrl c "previtem".

Definition set_progress (c : PlaybackController) (p : Dmap.DmapProgress) : outcome ControlError unit * PlaybackController :=
  send c SetParameter (Some (Dmap.Progress_encode p)) text_parameters.
Definition send_scrub (c : PlaybackController) (position : Z) : outcome ControlError unit * PlaybackController :=
  let samples := Float.trunc_to_uint F64 32 (Float.mul F64 position (Float.of_int F64 44100)) in
  set_progress c (Dmap.mkProgress 0 (wrapping_add 32 0 samples) (wrapping_add 32 0 samples)).

Definition seek_to (c : PlaybackController) (position : Z) : outcome ControlError unit * PlaybackController :=
  then_state (send_scrub c position) (fun s => with_position s position).
Definition seek (c : PlaybackController) (secs nanos : Z) : outcome ControlError unit * PlaybackController :=
  seek_to c (Float.as_secs_f64 secs nanos).

(** [f64::max(0.0)]: a NaN is replaced. *)
Definition f64_nan (b : Z) : bool := 0x7FF0000000000000 <? Z.land b 0x7FFFFFFFFFFFFFFF.
Definition max_zero (b : Z) : Z := if f64_nan b || (2 ^ 63 <=? b) then 0 else b.
Definition seek_relative (c : PlaybackController) (secs nanos : Z) (forward : bool) : outcome ControlError unit * PlaybackController :=
  let offset := Float.as_secs_f64 secs nanos in
  seek_to c (if forward then Float.add F64 (position_secs (state c)) offset
             else max_zero (Float.sub F64 (position_secs (state c)) offset)).
Definition fast_forward (c : PlaybackController) : outcome ControlError unit * PlaybackController := seek_relative c 10 0 true.
Definition rewind (c : PlaybackController) : outcome ControlError unit * PlaybackController := seek_relative c 10 0 false.

Definition set_repeat (c : PlaybackController) (m : RepeatMode) : outcome ControlError unit * PlaybackController :=
  match send_ctrl c (match m with RepeatOff => "repeatoff" | RepeatOne => "repeatone" | RepeatAll => "repeatall" end) with
  | (Ok _, c) => (Ok tt, mkPC (pc_link c) (with_repeat (state c) m) m (shuffle_mode c))
  | r => r
  end.
Definition set_shuffle (c : PlaybackController) (m : ShuffleMode) : outcome ControlError unit * PlaybackController :=
  match send_ctrl c (match m with ShuffleOff => "shuffleoff" | ShuffleOn => "shuffleon" end) with
  | (Ok _, c) => (Ok tt, mkPC (pc_link c) (with_shuffle (state c) (match m with ShuffleOn => true | ShuffleOff => false end)) (repeat_mode c) m)
  | r => r
  end.

Definition track_of (m : Dmap.TrackMetadata) : option TrackInfo :=
  t ← Dmap.title m;
  Some (mkTrackInfo [] t (default [] (Dmap.artist m)) (Dmap.album m) None
          ((fun d => Float.div F64 (Float.of_int F64 d) (Float.of_int F64 1000)) <$> Dmap.duration_ms m)
          (Dmap.track_number m) (Dmap.disc_number m) (Dmap.genre m) None).
Definition set_metadata (c : PlaybackController) (m : Dmap.TrackMetadata) : outcome ControlError unit * PlaybackController :=
  match Dmap.encode_dmap m with
  | Ok b => then_state (send c SetParameter (Some b) (Some "application/x-dmap-tagged")) (fun s => with_track s (track_of m))
  | Err e => (Err e, c)
  | Panic => (Panic, c)
  end.
Definition set_artwork (c : PlaybackController) (data : list Z) (mime : string) : outcome ControlError unit * PlaybackController :=
  send c SetParameter (Some data) (Some mime).

(** *** [PlaybackProgress], in nanoseconds *)
Record PlaybackProgress := mkPlaybackProgress { pp_position : Z; pp_duration : Z; pp_rate : Z }.
Definition progress (p : PlaybackProgress) : Z :=
  let secs z := Float.as_secs_f64 (z / 1000000000) (z mod 1000000000) in
  if pp_duration p =? 0 then 0 else Float.div F64 (secs (pp_position p)) (secs (pp_duration p)).
Definition remaining (p : PlaybackProgress) : Z := saturating_sub (pp_duration p) (pp_position p).

End Controllers.

(** ** Percentages *)

(** A percentage survives the floating-point volume. For every [u8], a volume made of
    a percentage is reported as that percentage, and as 100 above 100: neither the
    division, nor the multiplication, nor the rounding of [f32] loses one. *)
Theorem percent_roundtrip (p : Z) (Hp : byte_ok p) : as_percent (from_percent p) = Z.min p 100.
Proof.
  apply Z.eqb_eq. revert p Hp.
  apply (byte_forallb_spec (fun p => as_percent (from_percent p) =? Z.min p 100)). vm_compute. reflexivity.
Qed.

Lemma percent_roundtrip_witness : as_percent (from_percent 57) = 57.
Proof. apply (percent_roundtrip 57). split; [discriminate|reflexivity]. Defined.

(** ** What the device was told *)
Section Heard.
Context {F : Floats} {L10 : Log10} {C : CommandLink} {CL : CommandLinkLaws C}.

Definition heard (c : VolumeController) : option (list Z) := head (accepted (vc_link c)).

Lemma send_volume_spec c v r c' : send_volume c v = (r, c') ->
  volume c' = volume c /\ muted c' = muted c /\ pre_mute_volume c' = pre_mute_volume c /\
  heard c' = match r with Ok _ => Some (volume_body v) | _ => heard c end.
Proof.
  unfold send_volume, heard. destruct (send_command _ _ _ _) as [x l] eqn:E. intros [= <- <-]. apply send_accepted in E. cbn.
  split_and!; [done..|]. rewrite E. by destruct x.
Qed.

Lemma set_spec c v r c' : set c v = (r, c') ->
  match r with
  | Ok _ => volume c' = v /\ muted c' = (if is_silent v then muted c else false) /\ heard c' = Some (volume_body v)
  | _ => volume c' = volume c /\ muted c' = muted c /\ heard c' = heard c
  end.
Proof.
  unfold set. destruct (send_volume c v) as [x c1] eqn:E. apply send_volume_spec in E as (Hv & Hm & Hp & Hh).
  destruct x as [[]| |]; intros [= <- <-]; [|done..]. cbn. by rewrite Hm.
Qed.

(** Since the link [l] was handed over, the device has accepted the volumes [vs], latest
    first: none, and the controller is as it was made, or the last one is the
    controller's own, or a silent one while the controller is muted. *)
Definition in_step (l : Link) (vs : list Z) (c : VolumeController) : Prop :=
  accepted (vc_link c) = map volume_body vs ++ accepted l /\
  match vs with
  | [] => volume c = VDEFAULT /\ muted c = false
  | v :: _ => if muted c then is_silent v = true else v = volume c
  end.

Lemma send_volume_log c v r c' : send_volume c v = (r, c') ->
  (volume c', muted c', pre_mute_volume c') = (volume c, muted c, pre_mute_volume c) /\
  accepted (vc_link c') = match r with Ok _ => [volume_body v] | _ => [] end ++ accepted (vc_link c).
Proof.
  unfold send_volume. destruct (send_command _ _ _ _) as [x k] eqn:E. intros [= <- <-]. apply send_accepted in E. cbn.
  split; [done|]. rewrite E. by destruct x.
Qed.

(** What an operation may do: nothing that shows, or send one volume that the device
    accepts. *)
Definition volume_step (c c' : VolumeController) : Prop :=
  (accepted (vc_link c'), volume c', muted c') = (accepted (vc_link c), volume c, muted c) \/
  exists v, accepted (vc_link c') = volume_body v :: accepted (vc_link c) /\ if muted c' then is_silent v = true else v = volume c'.

Lemma set_steps c v : volume_step c (snd (set c v)).
Proof.
  unfold set, volume_step. destruct (send_volume c v) as [x c1] eqn:E. apply send_volume_log in E as [[= Hv Hm _] Ha].
  destruct x as [[]| |]; cbn [snd] in *; [right|left; by rewrite Hv, Hm, Ha..]. exists v. split; [done|]. cbn. destruct (is_silent v) eqn:Es; [|done]. by destruct (muted c1).
Qed.

Lemma mute_steps c : volume_step c (snd (mute c)).
Proof.
  unfold mute, volume_step. destruct (muted c) eqn:Em; [left; cbn [snd]; by rewrite Em|]. set (c1 := mkVC _ _ _ _).
  destruct (send_volume c1 VMIN) as [x c2] eqn:E. apply send_volume_log in E as [[= Hv Hm _] Ha].
  destruct x as [[]| |]; cbn [snd] in *; [right; by exists VMIN|left; by rewrite Hv, Hm, Ha..].
Qed.

Lemma unmute_steps c : volume_step c (snd (unmute c)).
Proof.
  unfold unmute, volume_step. destruct (muted c) eqn:Em; [|left; cbn [snd]; by rewrite Em]. destruct (send_volume c (pre_mute_volume c)) as [x c2] eqn:E.
  apply send_volume_log in E as [[= Hv Hm Hp] Ha].
  destruct x as [[]| |]; cbn [snd] in *; [right; by exists (pre_mute_volume c)|left; by rewrite Hv, Hm, Ha, Em..].
Qed.

Lemma step_in_step l vs c c' : volume_step c c' -> in_step l vs c -> exists vs', in_step l vs' c'.
Proof.
  intros [[= Ha Hv Hm]|(v & Ha & Hv)] [H1 H2]; [exists vs; split; [by rewrite Ha|by rewrite Hv, Hm]|].
  exists (v :: vs). split; [by rewrite Ha, H1|done].
Qed.

(** The methods that set the volume. *)
Inductive VolumeOp := OpSet (v : Z) | OpPercent (p : Z) | OpIncrease (a : Z) | OpDecrease (a : Z) | OpStepUp | OpStepDown | OpMute | OpUnmute | OpToggle.
Definition volume_op (c : VolumeController) (op : VolumeOp) : VolumeController :=
  match op with
  | OpSet v => snd (set c v) | OpPercent p => snd (set_percent c p) | OpIncrease a => snd (increase c a) | OpDecrease a => snd (decrease c a)
  | OpStepUp => snd (step_up c) | OpStepDown => snd (step_down c) | OpMute => snd (mute c) | OpUnmute => snd (unmute c) | OpToggle => snd (toggle_mute c)
  end.

Lemma set_to_snd c v : snd (set_to c v) = snd (set c v).
Proof. unfold set_to. by destruct (set c v). Qed.

Lemma toggle_snd c : snd (toggle_mute c) = if muted c then snd (unmute c) else snd (mute c).
Proof. unfold toggle_mute. destruct (muted c); [by destruct (unmute c)|by destruct (mute c)]. Qed.

Lemma op_steps c op : volume_step c (volume_op c op).
Proof.
  destruct op; cbn [volume_op]; unfold set_percent, increase, decrease, step_up, step_down, increase, decrease;
    rewrite ?set_to_snd, ?toggle_snd; auto using set_steps, mute_steps, unmute_steps.
  destruct (muted c); auto using mute_steps, unmute_steps.
Qed.

(** C26: the device has the volume the controller reports. After any sequence of changes,
    steps, mutes and unmutes on a new controller, of which any may fail, the device has
    accepted from it some volumes [vs] and nothing else: none, and the controller still
    has its default volume and is not muted; or the last of them is the volume the
    controller reports, or a silent one while it reports that it is muted. *)
Theorem volume_in_step (l : Link) (ops : list VolumeOp) :
  let c := foldl volume_op (VolumeController_new l) ops in
  exists vs, accepted (vc_link c) = map volume_body vs ++ accepted l /\
    match vs with
    | [] => volume c = VDEFAULT /\ muted c = false
    | v :: _ => if muted c then is_silent v = true else v = volume c
    end.
Proof.
  assert (exists vs, in_step l vs (VolumeController_new l)) as Hc by (by exists []). revert Hc. generalize (VolumeController_new l).
  induction ops as [|op ops IH]; intros c [vs Hc]; [by exists vs|]. apply IH. by eapply step_in_step; [apply op_steps|].
Qed.

(** Muting and unmuting. *)
Lemma unmute_restores c c1 c2 : muted c = false -> mute c = (Ok tt, c1) -> unmute c1 = (Ok tt, c2) ->
  volume c2 = volume c /\ muted c2 = false /\ heard c1 = Some (volume_body VMIN) /\ heard c2 = Some (volume_body (volume c)).
Proof.
  intros Hm. unfold mute. rewrite Hm. set (c0 := mkVC _ _ _ _). destruct (send_volume c0 VMIN) as [[[]| |] x] eqn:E; [|done..].
  apply send_volume_spec in E as (Hv & _ & Hp & Hh). intros [= <-]. unfold unmute. cbn [muted pre_mute_volume]. rewrite Hp. cbn [c0 pre_mute_volume].
  set (c3 := mkVC _ _ _ _). destruct (send_volume c3 (volume c)) as [[[]| |] y] eqn:E2; [|done..].
  apply send_volume_spec in E2 as (_ & _ & Hp2 & Hh2). intros [= <-]. cbn [volume muted]. rewrite Hp2. cbn [c3 pre_mute_volume].
  split_and!; try done.
Qed.

(** Devices with their own controllers. *)
Lemma for_each_spec method ds : forall cs cs' : gmap nat VolumeController, NoDup (map dv_controller ds) -> for_each method ds cs = (Ok tt, cs') ->
  (forall d, d ∈ ds -> exists c c', cs !! dv_controller d = Some c /\ method d c = (Ok tt, c') /\ cs' !! dv_controller d = Some c') /\
  (forall k, k ∉ map dv_controller ds -> cs' !! k = cs !! k).
Proof.
  induction ds as [|d ds IH]; intros cs cs' Hnd; cbn [for_each map]; [intros [= <-]; split; [set_solver|done]|].
  cbn [map] in Hnd. apply NoDup_cons in Hnd as [Hd Hnd]. destruct (cs !! dv_controller d) as [c|] eqn:Ec; [|done].
  destruct (method d c) as [[[]| |] c'] eqn:Em; [|done..]. intros Hf. destruct (IH _ _ Hnd Hf) as [Hin Hout]. split.
  - intros x [->|Hx]%elem_of_cons.
    + exists c, c'. split_and!; [done|done|]. rewrite Hout by done. apply lookup_insert_eq.
    + destruct (Hin x Hx) as (a & a' & Ha & Hm & Ha'). exists a, a'. split_and!; [|done|done].
      rewrite lookup_insert_ne in Ha; [done|]. intros E. apply Hd. rewrite E. by apply list_elem_of_fmap_2.
  - intros k [Hk Hks]%not_elem_of_cons. rewrite Hout by done. by rewrite lookup_insert_ne by congruence.
Qed.

(** The master volume reaches every device of a group. When the group's devices have
    their own controllers and setting the master volume succeeds, each device has been
    sent the product of the master volume and its own, clamped, its controller holds it,
    and no other controller is touched. *)
Theorem master_applied (g g' : GroupVolumeController) (v : Z) (cs cs' : gmap nat VolumeController)
  (Hnd : NoDup (map dv_controller (devices g))) (Hs : set_master_volume g v cs = (Ok tt, cs', g')) :
  (forall d, d ∈ devices g -> exists c, cs' !! dv_controller d = Some c /\
     volume c = Volume_new (Float.mul F32 v (dv_volume d)) /\ heard c = Some (volume_body (Volume_new (Float.mul F32 v (dv_volume d))))) /\
  (forall k, k ∉ map dv_controller (devices g) -> cs' !! k = cs !! k) /\ master_volume g' = v /\ devices g' = devices g.
Proof.
  unfold set_master_volume, apply_volumes in Hs. cbn [devices] in Hs. injection Hs as Hf <-.
  destruct (for_each_spec _ _ _ _ Hnd Hf) as [Hin Hout]. split_and!; try done.
  intros d Hd. destruct (Hin d Hd) as (c & c' & _ & Hc & Hk). exists c'. split; [done|]. apply set_spec in Hc. naive_solver.
Qed.
End Heard.

(** ** What a play command says *)
Section Play.
Context {F : Floats} {L10 : Log10} {C : CommandLink}.

Definition ptp_ok (ptp : option (Z * Z * Z)) : Prop :=
  forall secs frac timeline, ptp = Some (secs, frac, timeline) -> uint 64 secs /\ uint 64 frac /\ uint 64 timeline.

(** The dictionary as the receiver reads it, unsigned numbers as they are written. *)
Definition anchor (rate : Z) (ptp : option (Z * Z * Z)) : Plist.PlistValue :=
  let u z := if z <=? 2 ^ 63 - 1 then Plist.Integer z else Plist.UnsignedInteger z in
  Plist.Dictionary
    (match ptp with
     | Some (secs, frac, timeline) => [(bs "networkTimeFrac", u frac); (bs "networkTimeSecs", u secs); (bs "networkTimeTimelineID", u timeline)]
     | None => []
     end ++ [(bs "rate", Plist.Integer rate); (bs "rtpTime", Plist.Integer 0)]).

Lemma rate_encodes rate ptp : 0 <= rate <= 1 -> ptp_ok ptp ->
  exists body, Plist.encode (rate_dict rate ptp) = Ok body /\ Plist.decode body = Ok (anchor rate ptp).
Proof.
  intros Hr Hp. replace (anchor rate ptp) with (Plist.norm (rate_dict rate ptp)) by (destruct ptp as [[[secs frac] timeline]|]; reflexivity).
  assert (forall s, is_ascii (bs s) = true -> string_ok (bs s)) as Ha by (intros; apply ascii_string_ok; [apply bs_ok|done]).
  apply Plist.encode_decodes.
  - destruct ptp as [[[secs frac] timeline]|].
    + destruct (Hp secs frac timeline) as (H1 & H2 & H3); [done|].
      change (rate_dict rate (Some (secs, frac, timeline))) with (Plist.Dictionary
        [(bs "networkTimeFrac", Plist.UnsignedInteger frac); (bs "networkTimeSecs", Plist.UnsignedInteger secs);
         (bs "networkTimeTimelineID", Plist.UnsignedInteger timeline); (bs "rate", Plist.Integer rate); (bs "rtpTime", Plist.UnsignedInteger 0)]).
      cbn -[bs]. split; [split_and!; first [done|apply Ha; reflexivity|unfold uint, sint in *; lia]|]. repeat constructor.
    + change (rate_dict rate None) with (Plist.Dictionary [(bs "rate", Plist.Integer rate); (bs "rtpTime", Plist.UnsignedInteger 0)]).
      cbn -[bs]. split; [split_and!; first [done|apply Ha; reflexivity|unfold uint, sint in *; lia]|]. repeat constructor.
  - destruct ptp as [[[secs frac] timeline]|]; vm_compute; discriminate.
  - destruct ptp as [[[secs frac] timeline]|]; vm_compute; reflexivity.
Qed.

(** Playing anchors the stream to the master's clock. A controller that is not
    playing sends one SETRATEANCHORTIME whose property list decodes to rate 1, RTP time 0
    and, when the clock is synchronised, the three parts of the network time unchanged;
    it reports playing exactly when the command succeeded, and passes its error on. *)
Theorem play_anchors (c : PlaybackController) (Hp : is_playing (state c) = false) (Ht : ptp_ok (get_ptp_network_time (pc_link c))) :
  exists body, Plist.decode body = Ok (anchor 1 (get_ptp_network_time (pc_link c))) /\
    forall r l, send_command (pc_link c) SetRateAnchorTime (Some body) (Some "application/x-apple-binary-plist") = (r, l) ->
      play c = (_ ← map_err LinkFailed r; Ok tt,
                mkPC l (match r with Ok _ => with_playing (state c) true | _ => state c end) (repeat_mode c) (shuffle_mode c)).
Proof.
  destruct (rate_encodes 1 (get_ptp_network_time (pc_link c))) as (body & He & Hd); [lia|done|]. exists body. split; [done|].
  intros r l E. unfold play, send_rate. rewrite Hp, He. unfold send. rewrite E. by destruct r.
Qed.
End Play.

(** ** Witnesses *)

(** A device that accepts everything, by its log. *)
#[local] Instance demo_link : CommandLink := {|
  Link := list (list Z); LinkError := unit;
  send_command l m b _ := (Ok [], match m, b with SetParameter, Some b => b :: l | _, _ => l end);
  send_post_command l _ _ _ := (Ok [], l); get_ptp_network_time _ := None |}.
#[local] Instance demo_link_laws : CommandLinkLaws demo_link.
Proof. refine {| accepted := (fun l => l) : @Link demo_link -> _ |}. intros l m b ct r l' [= <- <-]. by destruct m, b. Defined.
#[local] Instance demo_floats : Floats := {| parse_f32 _ := None; parse_f64 _ := None; db_power z := z; show_f32 z := to_be 4 z |}.
#[local] Instance demo_log10 : Log10 := fun z => z.

Definition demo_vc : VolumeController := snd (set (VolumeController_new ([] : @Link demo_link)) VDEFAULT).

Lemma play_anchors_witness :
  exists body, Plist.decode body = Ok (Plist.Dictionary [(bs "rate", Plist.Integer 1); (bs "rtpTime", Plist.Integer 0)]) /\
    forall r l, send_command ([] : @Link demo_link) SetRateAnchorTime (Some body) (Some "application/x-apple-binary-plist") = (r, l) ->
      play (PlaybackController_new ([] : @Link demo_link)) =
      (_ ← map_err LinkFailed r; Ok tt, mkPC l (match r with Ok _ => with_playing State_default true | _ => State_default end) RepeatOff ShuffleOff).
Proof. apply (play_anchors (PlaybackController_new ([] : @Link demo_link))); [reflexivity|]. intros ? ? ? [=]. Defined.

Definition demo_group : GroupVolumeController := add_device (add_device GroupVolume_new (bs "A") 1) (bs "B") 2.
Definition demo_cs : gmap nat VolumeController := <[1%nat := demo_vc]> (<[2%nat := demo_vc]> ∅).
Lemma master_applied_witness :
  exists cs' g', set_master_volume demo_group 0x3F000000 demo_cs = (Ok tt, cs', g') /\
  forall d, d ∈ devices demo_group -> exists c, cs' !! dv_controller d = Some c /\
    volume c = Volume_new (Float.mul F32 0x3F000000 (dv_volume d)).
Proof.
  eexists _, _. split; [vm_compute; reflexivity|]. intros d Hd.
  destruct (master_applied demo_group (mkGVC (devices demo_group) 0x3F000000) 0x3F000000 demo_cs
    (snd (fst (set_master_volume demo_group 0x3F000000 demo_cs)))) as (H & _).
  - apply NoDup_cons. split; [by rewrite list_elem_of_singleton|]. apply NoDup_singleton.
  - vm_compute. reflexivity.
  - destruct (H d Hd) as (c & Hc & Hv & _). exists c. split; [exact Hc|exact Hv].
Defined.

(** A device that refuses every other command. *)
#[local] Instance moody_link : CommandLink := {|
  Link := bool * list (list Z); LinkError := unit;
  send_command l m b _ :=
    if fst l then (Ok [], (false, match m, b with SetParameter, Some b => b :: snd l | _, _ => snd l end)) else (Err tt, (true, snd l));
  send_post_command l _ _ _ := (Ok [], l); get_ptp_network_time _ := None |}.
#[local] Instance moody_link_laws : CommandLinkLaws moody_link.
Proof. refine {| accepted := (fun l => snd l) : @Link moody_link -> _ |}. intros [[] l] m b ct r l' [= <- <-]; by destruct m, b. Defined.

Lemma volume_in_step_witness :
  let c := foldl volume_op (VolumeController_new ((false, []) : @Link moody_link)) [OpMute; OpStepUp; OpMute; OpMute; OpToggle] in
  (volume c, muted c, length (accepted (vc_link c))) = (Volume_new (Float.add F32 VDEFAULT 0x3D4CCCCD), true, 2%nat) /\
  exists v vs, accepted (vc_link c) = map volume_body (v :: vs) /\ is_silent v = true.
Proof.
  split; [vm_compute; reflexivity|].
  destruct (volume_in_step ((false, []) : @Link moody_link) [OpMute; OpStepUp; OpMute; OpMute; OpToggle]) as (vs & H1 & H2).
  destruct vs as [|v vs]; [exfalso; vm_compute in H1; discriminate|]. exists v, vs. split; [rewrite H1; apply app_nil_r|].
  match type of H2 with if ?b then _ else _ => assert (b = true) as Hb by (vm_compute; reflexivity); rewrite Hb in H2 end. exact H2.
Defined.
End Controls.
