(* ===== verification/Discovery.v ===== *)
(** * Discovery on the client

    Models [src/types/raop.rs], [src/types/device.rs], [src/discovery/raop.rs],
    [src/discovery/browser.rs], the scans of [src/discovery/mod.rs] and
    [src/client/protocol.rs].  The mDNS daemon is outside: a resolved service is the
    data it delivers, and the stream is driven by the turns of its poll loop. *)

From stdpp Require Import gmap.
From S2P Require Import Bytes Text Unicode Rtsp RtspParser Sdp RaopSession Features.

Module Discovery.
Import Unicode Rtsp RtspParser Features.

(** ** types/raop.rs *)
Inductive RaopEncryption := NoEncryption | Rsa | FairPlay | MfiSap | FairPlaySap25.
#[export] Instance RaopEncryption_eq_dec : EqDecision RaopEncryption.
Proof. solve_decision. Defined.
Definition RaopEncryption_from_u8 (v : Z) : option RaopEncryption :=
  match v with 0 => Some NoEncryption | 1 => Some Rsa | 3 => Some FairPlay | 4 => Some MfiSap | 5 => Some FairPlaySap25 | _ => None end.
Definition is_supported (e : RaopEncryption) : bool := match e with NoEncryption | Rsa => true | _ => false end.

Inductive RaopMetadataType := MText | MArtwork | MProgress.
#[export] Instance RaopMetadataType_eq_dec : EqDecision RaopMetadataType.
Proof. solve_decision. Defined.
Definition RaopMetadataType_from_u8 (v : Z) : option RaopMetadataType :=
  match v with 0 => Some MText | 1 => Some MArtwork | 2 => Some MProgress | _ => None end.

Record RaopCapabilities := mkRaopCaps {
  txt_version : Z; channels : Z; codecs : list RaopCodec; encryption_types : list RaopEncryption; metadata_support : bool;
  metadata_types : list RaopMetadataType; password_required : bool; sample_rate : Z; sample_size : Z; transport : list Z;
  server_version : option (list Z); r_model : option (list Z); r_status_flags : Z
}.
#[export] Instance RaopCapabilities_eq_dec : EqDecision RaopCapabilities.
Proof. solve_decision. Defined.

Definition parse_codes {A} (from_u8 : Z -> option A) (s : list Z) : list A :=
  omap (fun v => Sdp.parse_num 8 (trim v) ≫= from_u8) (RaopSession.split_char 44 s).
Definition parse_codec_list (s : list Z) : list RaopCodec := parse_codes RaopCodec_from_u8 s.
Definition parse_encryption_list (s : list Z) : list RaopEncryption := parse_codes RaopEncryption_from_u8 s.
Definition parse_metadata_types (s : list Z) : list RaopMetadataType := parse_codes RaopMetadataType_from_u8 s.

Definition Txt : Type := gmap (list Z) (list Z).
Definition is_true_text (v : list Z) : bool := bool_decide (v = bs "true") || bool_decide (v = bs "1").

Definition from_txt_records (r : Txt) : RaopCapabilities := {|
  txt_version := match r !! bs "txtvers" with Some v => default 1 (Sdp.parse_num 8 v) | None => 0 end;
  channels := match r !! bs "ch" with Some v => default 2 (Sdp.parse_num 8 v) | None => 2 end;
  codecs := match r !! bs "cn" with Some v => parse_codec_list v | None => [] end;
  encryption_types := match r !! bs "et" with Some v => parse_encryption_list v | None => [] end;
  metadata_support := match r !! bs "da" with Some v => is_true_text v | None => false end;
  metadata_types := match r !! bs "md" with Some v => parse_metadata_types v | None => [] end;
  password_required := match r !! bs "pw" with Some v => is_true_text v | None => false end;
  sample_rate := match r !! bs "sr" with Some v => default 44100 (Sdp.parse_num 32 v) | None => 44100 end;
  sample_size := match r !! bs "ss" with Some v => default 16 (Sdp.parse_num 8 v) | None => 16 end;
  transport := match r !! bs "tp" with Some v => v | None => bs "UDP" end;
  server_version := r !! bs "vs";
  r_model := r !! bs "am";
  r_status_flags := match r !! bs "sf" with Some v => default 0 (from_str_radix16 32 (trim_0x v)) | None => 0 end
|}.

Definition supports_codec (c : RaopCapabilities) (k : RaopCodec) : bool := bool_decide (k ∈ codecs c).
Definition supports_rsa (c : RaopCapabilities) : bool := bool_decide (Rsa ∈ encryption_types c).
Definition supports_unencrypted (c : RaopCapabilities) : bool := bool_decide (NoEncryption ∈ encryption_types c).

Definition preferred_codec (c : RaopCapabilities) : option RaopCodec :=
  if supports_codec c Alac then Some Alac
  else if supports_codec c Aac then Some Aac
  else if supports_codec c Pcm then Some Pcm
  else head (codecs c).
Definition preferred_encryption (c : RaopCapabilities) : option RaopEncryption :=
  if supports_rsa c then Some Rsa else if supports_unencrypted c then Some NoEncryption else None.

(** ** discovery/raop.rs *)
Definition RAOP_SERVICE_TYPE : list Z := bs "_raop._tcp.local.".
Definition AIRPLAY_SERVICE_TYPE : list Z := bs "_airplay._tcp.local.".

(** [to_uppercase], as far as the check that follows can tell: besides the ASCII letters
    the only character whose upper case is hexadecimal is U+FB00, the ff ligature. *)
Definition upper_char (c : Z) : list Z :=
  if (97 <=? c) && (c <=? 122) then [c - 32] else if c =? 0xFB00 then [70; 70] else [c].
Definition to_uppercase (s : list Z) : list Z := concat (map upper_char s).

Definition parse_raop_service_name (name : list Z) : option (list Z * list Z) :=
  match split_at 64 name with
  | Some (p0, p1) =>
      let mac := to_uppercase p0 in
      let device_name := match position (bs "._raop._tcp.local.") p1 with Some i => take i p1 | None => p1 end in
      if bool_decide (length (utf8_encode mac) = 12%nat) && forallb is_hexdigit mac then Some (mac, device_name) else None
  | None => None
  end.

Definition format_mac_address (mac : list Z) : list Z := RaopSession.join_with 58 (chunks 2 mac).

(** ** types/device.rs *)
(** Addresses by their 32 or 128 bits. *)
Inductive IpAddr := V4 (a : Z) | V6 (a : Z).
#[export] Instance IpAddr_eq_dec : EqDecision IpAddr.
Proof. solve_decision. Defined.
Definition is_ipv4 (a : IpAddr) : bool := match a with V4 _ => true | V6 _ => false end.
Definition routable_v6 (a : IpAddr) : bool := match a with V4 _ => false | V6 v => negb (Z.shiftr v 112 =? 0xfe80) end.

Record AirPlayDevice := mkDevice {
  id : list Z; d_name : list Z; d_model : option (list Z); addresses : list IpAddr; port : Z;
  capabilities : DeviceCapabilities; raop_port : option Z; raop_capabilities : option RaopCapabilities;
  txt_records : Txt; last_seen : option Z
}.
Definition supports_airplay2 (d : AirPlayDevice) : bool := airplay2 (capabilities d).
Definition supports_raop (d : AirPlayDevice) : bool := match raop_port d with Some _ => true | None => false end.

Definition device_address (d : AirPlayDevice) : IpAddr :=
  match List.find is_ipv4 (addresses d) with
  | Some a => a
  | None => match List.find routable_v6 (addresses d) with
            | Some a => a
            | None => match addresses d with a :: _ => a | [] => V4 0 end
            end
  end.

(** ** client/protocol.rs *)
Inductive PreferredProtocol := PreferAirPlay2 | PreferRaop | ForceAirPlay2 | ForceRaop.
Inductive SelectedProtocol := AirPlay2 | Raop.
Inductive ProtocolError := AirPlay2NotSupported | RaopNotSupported | NoSupportedProtocol | UnsupportedEncryption.

Definition select_protocol (d : AirPlayDevice) (preferred : PreferredProtocol) : outcome ProtocolError SelectedProtocol :=
  match preferred with
  | ForceAirPlay2 => if supports_airplay2 d then Ok AirPlay2 else Err AirPlay2NotSupported
  | ForceRaop => if supports_raop d then Ok Raop else Err RaopNotSupported
  | PreferAirPlay2 => if supports_airplay2 d then Ok AirPlay2 else if supports_raop d then Ok Raop else Err NoSupportedProtocol
  | PreferRaop => if supports_raop d then Ok Raop else if supports_airplay2 d then Ok AirPlay2 else Err NoSupportedProtocol
  end.

Definition check_raop_encryption (c : RaopCapabilities) : outcome ProtocolError unit :=
  match preferred_encryption c with
  | Some e => if is_supported e then Ok tt else Err UnsupportedEncryption
  | None => Err UnsupportedEncryption
  end.

(** ** discovery/browser.rs *)
Record DeviceFilter := mkFilter { audio_only : bool; exclude_password_protected : bool }.
Record DiscoveryOptions := mkOptions { discover_airplay2 : bool; discover_raop : bool; timeout_ms : Z; filter : option DeviceFilter }.
Definition Options_default : DiscoveryOptions := mkOptions true true 5000 None.

Inductive DiscoveryEvent := Added (d : AirPlayDevice) | Removed (i : list Z) | Updated (d : AirPlayDevice).

(** The data of a resolved service that the handler reads. *)
Record ResolvedService := mkResolved { fullname : list Z; properties : list (list Z * list Z); ips : list IpAddr; s_port : Z }.
Inductive ServiceEvent := ServiceResolved (info : ResolvedService) | ServiceRemoved (full : list Z) | OtherEvent.

Record DeviceBrowserStream := mkBrowser {
  options : DiscoveryOptions; known_devices : gmap (list Z) AirPlayDevice; fullname_map : gmap (list Z) (list Z)
}.
Definition Browser_new (o : DiscoveryOptions) : DeviceBrowserStream := mkBrowser o ∅ ∅.

Definition device_id_of (service_type : list Z) (info : ResolvedService) (txt : Txt) : list Z :=
  if bool_decide (service_type = RAOP_SERVICE_TYPE) then
    match parse_raop_service_name (fullname info) with Some (mac, _) => format_mac_address mac | None => fullname info end
  else
    match txt !! bs "deviceid" with
    | Some d => d
    | None => match txt !! bs "pk" with Some k => k | None => fullname info end
    end.

Definition friendly_name_of (service_type : list Z) (info : ResolvedService) (txt : Txt) : list Z :=
  if bool_decide (service_type = RAOP_SERVICE_TYPE) then
    match parse_raop_service_name (fullname info) with Some (_, n) => n | None => bs "Unknown RAOP Device" end
  else
    match RaopSession.split_char 46 (fullname info) with
    | n :: _ => if bool_decide (n = []) then default (bs "AirPlay Device") (txt !! bs "model") else n
    | [] => default (bs "AirPlay Device") (txt !! bs "model")
    end.

Definition merge_address (l : list IpAddr) (a : IpAddr) : list IpAddr := if bool_decide (a ∈ l) then l else l ++ [a].

(** The name, model, addresses and TXT records taken over. *)
Definition merge_common (d : AirPlayDevice) (friendly : list Z) (txt : Txt) (ips : list IpAddr) : AirPlayDevice := {|
  id := id d;
  d_name := if bool_decide (d_name d = bs "AirPlay Device") || bool_decide (d_name d = bs "Unknown RAOP Device")
            then friendly else d_name d;
  d_model := match d_model d with None => txt !! bs "model" | m => m end;
  addresses := foldl merge_address (addresses d) ips;
  port := port d; capabilities := capabilities d; raop_port := raop_port d; raop_capabilities := raop_capabilities d;
  txt_records := txt ∪ txt_records d; last_seen := last_seen d |}.

(** What only one of the two services says. *)
Definition merge_protocol (d : AirPlayDevice) (service_type : list Z) (txt : Txt) (p : Z) : AirPlayDevice :=
  let '(mkDevice i n m a po c rp rc t l) := d in
  if bool_decide (service_type = AIRPLAY_SERVICE_TYPE) then
    mkDevice i n m a p (match txt !! bs "features" ≫= parse_features with Some c' => c' | None => c end) rp rc t l
  else if bool_decide (service_type = RAOP_SERVICE_TYPE) then
    mkDevice i n m a (if po =? 0 then p else po) c (Some p) (Some (from_txt_records txt)) t l
  else d.

Definition filtered_out (o : DiscoveryOptions) (d : AirPlayDevice) : bool :=
  match filter o with
  | Some f => audio_only f && negb (supports_audio (capabilities d)) && match raop_capabilities d with None => true | Some _ => false end
  | None => false
  end.

Definition touch (d : AirPlayDevice) (now : Z) : AirPlayDevice :=
  let '(mkDevice i n m a po c rp rc t _) := d in mkDevice i n m a po c rp rc t (Some now).

Definition handle_resolved (b : DeviceBrowserStream) (service_type : list Z) (info : ResolvedService) (now : Z)
  : option DiscoveryEvent * DeviceBrowserStream :=
  let txt := insert_all (properties info) ∅ in
  let did := device_id_of service_type info txt in
  let b := mkBrowser (options b) (known_devices b) (<[fullname info := did]> (fullname_map b)) in
  if bool_decide (ips info = []) then (None, b)
  else
    let friendly := friendly_name_of service_type info txt in
    let d := match known_devices b !! did with
             | Some d => d
             | None => mkDevice did friendly (txt !! bs "model") (ips info) 0 Caps_default None None ∅ (Some now)
             end in
    let d := merge_protocol (merge_common d friendly txt (ips info)) service_type txt (s_port info) in
    if filtered_out (options b) d then (None, b)
    else
      let d := touch d now in
      (Some (match known_devices b !! did with Some _ => Updated d | None => Added d end),
       mkBrowser (options b) (<[did := d]> (known_devices b)) (fullname_map b)).

Definition handle_removed (b : DeviceBrowserStream) (full : list Z) : option DiscoveryEvent * DeviceBrowserStream :=
  match fullname_map b !! full with
  | None => (None, b)
  | Some i =>
      let names := delete full (fullname_map b) in
      if bool_decide (map_Exists (fun _ v => v = i) names) then (None, mkBrowser (options b) (known_devices b) names)
      else (Some (Removed i), mkBrowser (options b) (delete i (known_devices b)) names)
  end.

Definition process_event (b : DeviceBrowserStream) (service_type : list Z) (event : ServiceEvent) (now : Z)
  : option DiscoveryEvent * DeviceBrowserStream :=
  match event with
  | ServiceResolved info => handle_resolved b service_type info now
  | ServiceRemoved full => handle_removed b full
  | OtherEvent => (None, b)
  end.

(** The iteration order of the devices. *)
Class DeviceOrder := device_order : gmap (list Z) AirPlayDevice -> list (list Z * AirPlayDevice).
Class DeviceOrderLaws (O : DeviceOrder) := device_order_perm : forall m, device_order m ≡ₚ map_to_list m.

Definition STALE_TIMEOUT : Z := 360000.
Definition stale (now : Z) (kv : list Z * AirPlayDevice) : bool :=
  match last_seen (snd kv) with Some t => STALE_TIMEOUT <? saturating_sub now t | None => false end.

Definition prune {O : DeviceOrder} (b : DeviceBrowserStream) (now : Z) : option DiscoveryEvent * DeviceBrowserStream :=
  match List.filter (stale now) (device_order (known_devices b)) with
  | [] => (None, b)
  | (i, _) :: _ =>
      (Some (Removed i), mkBrowser (options b) (delete i (known_devices b)) (base.filter (fun kv => snd kv <> i) (fullname_map b)))
  end.

(** One turn of the loop of [poll_next]: whether the prune timer fired, and what the
    stream had: [None] when it ended.  No further turn means that it is pending. *)
Record Turn := mkTurn { now : Z; ticked : bool; item : option (list Z * ServiceEvent) }.
Inductive Poll := Ready (e : option DiscoveryEvent) | Pending.

(** The result, the state and the turns that are left for the next poll. *)
Fixpoint poll_next {O : DeviceOrder} (b : DeviceBrowserStream) (turns : list Turn) : Poll * DeviceBrowserStream * list Turn :=
  match turns with
  | [] => (Pending, b, [])
  | t :: rest =>
      match (if ticked t then prune b (now t) else (None, b)) with
      | (Some e, b) => (Ready (Some e), b, mkTurn (now t) false (item t) :: rest)
      | (None, b) =>
          match item t with
          | None => (Ready None, b, rest)
          | Some (service_type, event) =>
              match process_event b service_type event (now t) with
              | (Some e, b) => (Ready (Some e), b, rest)
              | (None, b) => poll_next b rest
              end
          end
      end
  end.

(** ** discovery/mod.rs: the loop of [scan_with_config] and [scan_with_options] *)
Definition scan_event (devices : gmap (list Z) AirPlayDevice) (e : DiscoveryEvent) : gmap (list Z) AirPlayDevice :=
  match e with
  | Added d | Updated d => <[id d := d]> devices
  | Removed i => delete i devices
  end.

(** The stream is polled until it ends or the deadline leaves no turn; the fuel is the
    number of polls. *)
Fixpoint scan_loop {O : DeviceOrder} (fuel : nat) (b : DeviceBrowserStream) (turns : list Turn) (devices : gmap (list Z) AirPlayDevice)
  : DeviceBrowserStream * gmap (list Z) AirPlayDevice * bool :=
  match fuel with
  | O => (b, devices, false)
  | S fuel =>
      match poll_next b turns with
      | (Ready (Some e), b, rest) => scan_loop fuel b rest (scan_event devices e)
      | (Ready None, b, _) | (Pending, b, _) => (b, devices, true)
      end
  end.
Definition scan_fuel (turns : list Turn) : nat := S (2 * length turns).
Definition scan {O : DeviceOrder} (o : DiscoveryOptions) (turns : list Turn) : DeviceBrowserStream * gmap (list Z) AirPlayDevice * bool :=
  scan_loop (scan_fuel turns) (Browser_new o) turns ∅.

(** ** The browser and its clients *)

(** Devices are filed under their identifiers. *)
Definition browser_ok (b : DeviceBrowserStream) : Prop := map_Forall (fun k d => id d = k) (known_devices b).

(** An event says what happened to the devices. *)
Definition tells (b : DeviceBrowserStream) (r : option DiscoveryEvent * DeviceBrowserStream) : Prop :=
  browser_ok (snd r) /\
  known_devices (snd r) = match fst r with Some e => scan_event (known_devices b) e | None => known_devices b end.

Lemma merged_id d st fr txt ips p t : id (touch (merge_protocol (merge_common d fr txt ips) st txt p) t) = id d.
Proof. unfold merge_protocol, merge_common. cbn. by repeat case_bool_decide. Qed.

Lemma browser_delete_ok (i : list Z) (m : gmap (list Z) AirPlayDevice) : map_Forall (fun k d => id d = k) m -> map_Forall (fun k d => id d = k) (delete i m).
Proof. intros H k d [_ Hk]%lookup_delete_Some. by apply H. Qed.

Lemma resolved_tells b st info t : browser_ok b -> tells b (handle_resolved b st info t).
Proof.
  intros Hb. unfold handle_resolved, tells, browser_ok in *. cbn [known_devices options].
  case_bool_decide; [done|]. set (txt := insert_all _ _). set (did := device_id_of _ _ _).
  set (d := match known_devices b !! did with Some d => d | None => _ end).
  assert (id d = did) as Hd by (subst d; destruct (known_devices b !! did) eqn:E; [by apply Hb|done]).
  destruct (filtered_out _ _); [done|]. cbn [fst snd known_devices].
  set (d' := touch _ _). assert (id d' = did) as Hd' by (unfold d'; by rewrite merged_id).
  split.
  - by apply map_Forall_insert_2.
  - destruct (known_devices b !! did); cbn [scan_event]; by rewrite Hd'.
Qed.

Lemma removed_tells b full : browser_ok b -> tells b (handle_removed b full).
Proof.
  intros Hb. unfold handle_removed, tells, browser_ok in *. destruct (fullname_map b !! full); [|done].
  case_bool_decide; [done|]. cbn. split; [by apply browser_delete_ok|done].
Qed.

Lemma process_tells b st e t : browser_ok b -> tells b (process_event b st e t).
Proof. destruct e; cbn; [apply resolved_tells|apply removed_tells|done]. Qed.

Section Poll.
Context {DO : DeviceOrder}.

Lemma prune_tells b t : browser_ok b -> tells b (prune b t).
Proof.
  intros Hb. unfold prune, tells, browser_ok in *. destruct (List.filter _ _) as [|[i d] l]; [done|].
  cbn. split; [by apply browser_delete_ok|done].
Qed.

(** What is still to be polled: an item, and a timer that fired. *)
Fixpoint work (turns : list Turn) : nat :=
  match turns with [] => O | t :: turns => S ((if ticked t then 1 else 0) + work turns) end.

Lemma poll_tells turns : forall b, browser_ok b ->
  match poll_next b turns with
  | (Ready (Some e), b', rest) => tells b (Some e, b') /\ (work rest < work turns)%nat
  | (_, b', _) => tells b (None, b')
  end.
Proof.
  induction turns as [|t turns IH]; intros b Hb; [done|]. cbn [poll_next work].
  assert (tells b (if ticked t then prune b (now t) else (None, b))) as Ht by (destruct (ticked t); [by apply prune_tells|done]).
  destruct (ticked t) eqn:Et.
  - destruct (prune b (now t)) as [[e|] b1]; [cbn; split; [done|lia]|].
    destruct Ht as [Hb1 Hk1]. cbn in Hb1, Hk1. destruct (item t) as [[st ev]|]; [|done].
    pose proof (process_tells b1 st ev (now t) Hb1) as Hp. destruct (process_event b1 st ev (now t)) as [[e|] b2].
    + unfold tells in *. cbn in *. rewrite <- Hk1. split; [done|lia].
    + destruct Hp as [Hb2 Hk2]. cbn in Hb2, Hk2. specialize (IH b2 Hb2). unfold tells in *. cbn [fst snd] in *. rewrite Hk2, Hk1 in IH.
      destruct (poll_next b2 turns) as [[[[e|]|] b3] rest]; [|done..]. split; [apply IH|]. destruct IH. lia.
  - destruct (item t) as [[st ev]|]; [|done].
    pose proof (process_tells b st ev (now t) Hb) as Hp. destruct (process_event b st ev (now t)) as [[e|] b2]; [cbn; split; [done|lia]|].
    destruct Hp as [Hb2 Hk2]. cbn in Hb2, Hk2. specialize (IH b2 Hb2). unfold tells in *. cbn [fst snd] in *. rewrite Hk2 in IH.
    destruct (poll_next b2 turns) as [[[[e|]|] b3] rest]; [|done..]. split; [apply IH|]. destruct IH. lia.
Qed.

Lemma scan_loop_tells fuel : forall b turns devices, (work turns < fuel)%nat -> browser_ok b -> devices = known_devices b ->
  exists b', scan_loop fuel b turns devices = (b', known_devices b', true) /\ browser_ok b'.
Proof.
  induction fuel as [|fuel IH]; intros b turns devices Hf Hb ->; [lia|]. cbn [scan_loop].
  pose proof (poll_tells turns b Hb) as Hp. unfold tells in Hp. destruct (poll_next b turns) as [[[[e|]|] b'] rest]; cbn [fst snd] in Hp.
  - destruct Hp as [[Hb' Hk] Hw]. apply IH; [lia|done|done].
  - destruct Hp as [Hb' <-]. by exists b'.
  - destruct Hp as [Hb' <-]. by exists b'.
Qed.

Lemma work_bound turns : (work turns <= 2 * length turns)%nat.
Proof. induction turns as [|t turns IH]; [done|]. cbn [work length]. destruct (ticked t); lia. Qed.

(** C16: a scan ends and reports the devices the browser knows. Whatever services are
    resolved and removed in whatever order, and whenever stale devices are pruned, the
    scan's table, which sees only the events, is the browser's own table when the
    stream ends or the deadline comes, filed under the devices' identifiers: no event
    is missing, superfluous or wrong. *)
Theorem scan_sees_browser (o : DiscoveryOptions) (turns : list Turn) :
  exists b, scan o turns = (b, known_devices b, true) /\ browser_ok b.
Proof. apply scan_loop_tells; [|by intros k d|done]. unfold scan_fuel. pose proof (work_bound turns). lia. Qed.
End Poll.

(** ** Two services of one device *)
Lemma merge_addresses l ips a : a ∈ foldl merge_address l ips <-> a ∈ l \/ a ∈ ips.
Proof.
  revert l. induction ips as [|x ips IH]; intros l; cbn [foldl]; [set_solver|]. rewrite IH. unfold merge_address.
  case_bool_decide; set_solver.
Qed.

(** The device after a service is resolved, when nothing is filtered. *)
Definition refreshed (b : DeviceBrowserStream) (st : list Z) (info : ResolvedService) (t : Z) : AirPlayDevice :=
  let txt := insert_all (properties info) ∅ in
  let did := device_id_of st info txt in
  let friendly := friendly_name_of st info txt in
  let d := match known_devices b !! did with
           | Some d => d
           | None => mkDevice did friendly (txt !! bs "model") (ips info) 0 Caps_default None None ∅ (Some t)
           end in
  touch (merge_protocol (merge_common d friendly txt (ips info)) st txt (s_port info)) t.

Definition service_id (st : list Z) (info : ResolvedService) : list Z := device_id_of st info (insert_all (properties info) ∅).

Lemma resolved_refreshes b st info t : filter (options b) = None -> ips info <> [] ->
  handle_resolved b st info t =
  (Some (match known_devices b !! service_id st info with Some _ => Updated (refreshed b st info t) | None => Added (refreshed b st info t) end),
   mkBrowser (options b) (<[service_id st info := refreshed b st info t]> (known_devices b)) (<[fullname info := service_id st info]> (fullname_map b))).
Proof.
  intros Hf Hi. unfold handle_resolved. rewrite bool_decide_false by done. cbn [options known_devices fullname_map].
  unfold filtered_out. rewrite Hf. done.
Qed.

(** Equal as far as the protocols are concerned: what the two services say of the ports,
    the capabilities and the addresses. *)
Definition same_services (d d' : AirPlayDevice) : Prop :=
  id d = id d' /\ port d = port d' /\ capabilities d = capabilities d' /\ raop_port d = raop_port d' /\
  raop_capabilities d = raop_capabilities d' /\ last_seen d = last_seen d' /\ (forall a, a ∈ addresses d <-> a ∈ addresses d').

(** The two services of a device make one device, in either order. When the AirPlay
    and the RAOP service of a new device carry the same identifier, the second one
    refreshes what the first one added, and both orders leave one entry, with the
    AirPlay port and capabilities, the RAOP port and capabilities, and all the
    addresses. *)
Theorem services_merge (b : DeviceBrowserStream) (air raop : ResolvedService) (t t' : Z) (i : list Z)
  (Hf : filter (options b) = None) (Ha : ips air <> []) (Hr : ips raop <> []) (Hp : s_port air <> 0)
  (Hia : service_id AIRPLAY_SERVICE_TYPE air = i) (Hir : service_id RAOP_SERVICE_TYPE raop = i) (Hnew : known_devices b !! i = None) :
  let b1 := snd (handle_resolved (snd (handle_resolved b AIRPLAY_SERVICE_TYPE air t)) RAOP_SERVICE_TYPE raop t') in
  let b2 := snd (handle_resolved (snd (handle_resolved b RAOP_SERVICE_TYPE raop t)) AIRPLAY_SERVICE_TYPE air t') in
  exists d d', known_devices b1 = <[i := d]> (known_devices b) /\ known_devices b2 = <[i := d']> (known_devices b) /\
    same_services d d' /\ port d = s_port air /\ raop_port d = Some (s_port raop) /\
    raop_capabilities d = Some (from_txt_records (insert_all (properties raop) ∅)) /\
    capabilities d = default Caps_default ((insert_all (properties air) ∅ : Txt) !! bs "features" ≫= parse_features).
Proof.
  cbn zeta. rewrite !(resolved_refreshes b) by done. cbn [snd]. rewrite !resolved_refreshes by done. cbn [snd known_devices options fullname_map].
  rewrite Hia, Hir, !insert_insert_eq. eexists _, _. split; [done|]. split; [done|].
  assert (bool_decide (RAOP_SERVICE_TYPE = AIRPLAY_SERVICE_TYPE) = false) as E1 by reflexivity.
  assert (bool_decide (AIRPLAY_SERVICE_TYPE = AIRPLAY_SERVICE_TYPE) = true) as E2 by reflexivity.
  assert (bool_decide (RAOP_SERVICE_TYPE = RAOP_SERVICE_TYPE) = true) as E3 by reflexivity.
  unfold service_id in Hia, Hir. unfold same_services, refreshed. cbn zeta. cbn [known_devices]. rewrite Hia, Hir, !lookup_insert_eq, Hnew.
  unfold merge_protocol, merge_common. cbn [id d_name d_model addresses port capabilities raop_port raop_capabilities txt_records last_seen touch].
  rewrite E1, E2, E3. cbn [id d_name d_model addresses port capabilities raop_port raop_capabilities txt_records last_seen touch].
  rewrite (proj2 (Z.eqb_neq (s_port air) 0)) by done.
  destruct (_ ≫= parse_features); split_and!; try done.
  all: intros a; rewrite !merge_addresses; tauto.
Qed.

(** ** Witnesses and behaviours *)
Definition demo_ip : IpAddr := V4 0xC0A8010A.
Definition demo_air : ResolvedService :=
  mkResolved (bs "Kitchen._airplay._tcp.local.") [(bs "deviceid", bs "AA:BB:CC:DD:EE:FF"); (bs "features", bs "0x200,0x10000")] [demo_ip] 7000.
Definition demo_raop : ResolvedService :=
  mkResolved (bs "aabbccddeeff@Kitchen._raop._tcp.local.") [(bs "cn", bs "0,1"); (bs "et", bs "0, 1")] [demo_ip; V6 1] 5000.

Lemma services_merge_witness :
  let b1 := snd (handle_resolved (snd (handle_resolved (Browser_new Options_default) AIRPLAY_SERVICE_TYPE demo_air 1)) RAOP_SERVICE_TYPE demo_raop 2) in
  let b2 := snd (handle_resolved (snd (handle_resolved (Browser_new Options_default) RAOP_SERVICE_TYPE demo_raop 1)) AIRPLAY_SERVICE_TYPE demo_air 2) in
  exists d d', known_devices b1 = <[bs "AA:BB:CC:DD:EE:FF" := d]> ∅ /\ known_devices b2 = <[bs "AA:BB:CC:DD:EE:FF" := d']> ∅ /\
    same_services d d' /\ port d = 7000 /\ raop_port d = Some 5000 /\
    raop_capabilities d = Some (from_txt_records (insert_all (properties demo_raop) ∅)) /\
    capabilities d = default Caps_default ((insert_all (properties demo_air) ∅ : Txt) !! bs "features" ≫= parse_features).
Proof.
  apply (services_merge (Browser_new Options_default) demo_air demo_raop 1 2 (bs "AA:BB:CC:DD:EE:FF"));
    [reflexivity|discriminate|discriminate|discriminate|vm_compute; reflexivity|vm_compute; reflexivity|reflexivity].
Defined.

(** A service that comes back under another identifier leaves its old device behind: the
    removal of the service, the only one there is, takes just the new one away. *)
Definition demo_renamed : ResolvedService :=
  mkResolved (bs "Kitchen._airplay._tcp.local.") [(bs "deviceid", bs "11:22:33:44:55:66")] [demo_ip] 7000.
Example renamed_lingers :
  let b := snd (handle_resolved (snd (handle_resolved (Browser_new Options_default) AIRPLAY_SERVICE_TYPE demo_air 1)) AIRPLAY_SERVICE_TYPE demo_renamed 2) in
  map fst (map_to_list (known_devices (snd (handle_removed b (bs "Kitchen._airplay._tcp.local."))))) = [bs "AA:BB:CC:DD:EE:FF"] /\
  fullname_map (snd (handle_removed b (bs "Kitchen._airplay._tcp.local."))) = ∅.
Proof. vm_compute. done. Qed.

(** A device that was never reported, having no address yet, is reported as removed. *)
Example removed_unreported :
  let r := handle_resolved (Browser_new Options_default) AIRPLAY_SERVICE_TYPE (mkResolved (bs "X._airplay._tcp.local.") [] [] 7000) 1 in
  fst r = None /\ fst (handle_removed (snd r) (bs "X._airplay._tcp.local.")) = Some (Removed (bs "X._airplay._tcp.local.")).
Proof. vm_compute. done. Qed.

End Discovery.
