(* ===== verification/Groups.v ===== *)
(** * Multi-room groups

    Models [src/group/manager.rs]: groups of devices and the manager that keeps the
    groups and the group of each device in two tables.  Every method holds the locks it
    needs to its end, groups before devices, so that a call is one step.  The random
    number of a new group is an argument of the call. *)

From stdpp Require Import gmap.
From S2P Require Import Bytes Text Unicode RaopSession Features Float Controls Discovery.

Module Groups.
Import Discovery.

(** ** [DeviceGroup] *)

(** [{id:032X}] of the 128-bit number. *)
Definition GroupId_new (random : Z) : list Z := concat (map (Features.show_hex2 true) (to_be 16 random)).

Record GroupMember := mkMember { device : AirPlayDevice; m_volume : Z; is_leader : bool; connected : bool }.
Record DeviceGroup := mkGroup { g_id : list Z; g_name : list Z; members : list GroupMember; leader_id : option (list Z); g_volume : Z }.
Definition mid (m : GroupMember) : list Z := id (device m).

Definition Group_new (random : Z) (n : list Z) : DeviceGroup := mkGroup (GroupId_new random) n [] None Controls.VDEFAULT.
Definition with_leader (random : Z) (n : list Z) (d : AirPlayDevice) : DeviceGroup :=
  mkGroup (GroupId_new random) n [mkMember d Controls.VMAX true false] (Some (id d)) Controls.VDEFAULT.

Definition is_member (g : DeviceGroup) (i : list Z) : bool := existsb (fun m => bool_decide (mid m = i)) (members g).
Definition add_member (g : DeviceGroup) (d : AirPlayDevice) : DeviceGroup :=
  if is_member g (id d) then g
  else
    let first := match members g with [] => true | _ => false end in
    mkGroup (g_id g) (g_name g) (members g ++ [mkMember d Controls.VMAX first false])
      (if first then Some (id d) else leader_id g) (g_volume g).

(** [position] and [remove]. *)
Fixpoint take_out (i : list Z) (l : list GroupMember) : option (GroupMember * list GroupMember) :=
  match l with
  | [] => None
  | m :: l => if bool_decide (mid m = i) then Some (m, l) else '(x, l') ← take_out i l; Some (x, m :: l')
  end.
Definition promote (m : GroupMember) : GroupMember := mkMember (device m) (m_volume m) true (connected m).
Definition remove_member (g : DeviceGroup) (i : list Z) : option GroupMember * DeviceGroup :=
  match take_out i (members g) with
  | None => (None, g)
  | Some (x, rest) =>
      (Some x,
       match rest with
       | [] => mkGroup (g_id g) (g_name g) [] None (g_volume g)
       | m :: rest' =>
           if is_leader x then mkGroup (g_id g) (g_name g) (promote m :: rest') (Some (mid m)) (g_volume g)
           else mkGroup (g_id g) (g_name g) rest (leader_id g) (g_volume g)
       end)
  end.

Definition leader (g : DeviceGroup) : option GroupMember := List.find is_leader (members g).
Definition member (g : DeviceGroup) (i : list Z) : option GroupMember := List.find (fun m => bool_decide (mid m = i)) (members g).
Fixpoint update_first (i : list Z) (v : Z) (l : list GroupMember) : list GroupMember :=
  match l with
  | [] => []
  | m :: l => if bool_decide (mid m = i) then mkMember (device m) v (is_leader m) (connected m) :: l else m :: update_first i v l
  end.
Definition set_member_volume (g : DeviceGroup) (i : list Z) (v : Z) : DeviceGroup :=
  mkGroup (g_id g) (g_name g) (update_first i v (members g)) (leader_id g) (g_volume g).
Definition set_volume (g : DeviceGroup) (v : Z) : DeviceGroup := mkGroup (g_id g) (g_name g) (members g) (leader_id g) v.
Definition effective_volume (g : DeviceGroup) (i : list Z) : Z :=
  let member_vol := match member g i with Some m => m_volume m | None => Controls.VMAX end in
  Controls.Volume_new (Float.mul F32 (g_volume g) member_vol).
Definition is_empty (g : DeviceGroup) : bool := match members g with [] => true | _ => false end.
Definition member_count (g : DeviceGroup) : nat := length (members g).
Definition all_connected (g : DeviceGroup) : bool := forallb connected (members g).
Definition connected_count (g : DeviceGroup) : nat := length (List.filter connected (members g)).

(** ** [GroupManager] *)
Record GroupManager := mkManager { groups : gmap (list Z) DeviceGroup; device_groups : gmap (list Z) (list Z) }.
Definition Manager_new : GroupManager := mkManager ∅ ∅.
Inductive GroupError := AlreadyGrouped (device : list Z) | GroupNotFound (group : list Z).

Definition create_group (m : GroupManager) (random : Z) (n : list Z) : list Z * GroupManager :=
  let g := Group_new random n in (g_id g, mkManager (<[g_id g := g]> (groups m)) (device_groups m)).

(** The first device that is taken. *)
Definition first_taken (dg : gmap (list Z) (list Z)) (ds : list AirPlayDevice) : option AirPlayDevice :=
  List.find (fun d => match dg !! id d with Some _ => true | None => false end) ds.
Definition enrol (acc : DeviceGroup * gmap (list Z) (list Z)) (d : AirPlayDevice) : DeviceGroup * gmap (list Z) (list Z) :=
  (add_member (fst acc) d, <[id d := g_id (fst acc)]> (snd acc)).
Definition create_group_with_devices (m : GroupManager) (random : Z) (n : list Z) (ds : list AirPlayDevice) : outcome GroupError (list Z) * GroupManager :=
  match first_taken (device_groups m) ds with
  | Some d => (Err (AlreadyGrouped (id d)), m)
  | None =>
      let '(g, dg) := foldl enrol (Group_new random n, device_groups m) ds in
      (Ok (g_id g), mkManager (<[g_id g := g]> (groups m)) dg)
  end.

Definition delete_group (m : GroupManager) (i : list Z) : option DeviceGroup * GroupManager :=
  match groups m !! i with
  | None => (None, m)
  | Some g => (Some g, mkManager (delete i (groups m)) (foldl (fun dg x => delete (mid x) dg) (device_groups m) (members g)))
  end.

Definition get_group (m : GroupManager) (i : list Z) : option DeviceGroup := groups m !! i.
Definition find_device_group (m : GroupManager) (d : list Z) : option (list Z) := device_groups m !! d.

Definition add_device_to_group (m : GroupManager) (gid : list Z) (d : AirPlayDevice) : outcome GroupError unit * GroupManager :=
  match device_groups m !! id d with
  | Some _ => (Err (AlreadyGrouped (id d)), m)
  | None =>
      match groups m !! gid with
      | None => (Err (GroupNotFound gid), m)
      | Some g => (Ok tt, mkManager (<[gid := add_member g d]> (groups m)) (<[id d := gid]> (device_groups m)))
      end
  end.

Definition remove_device_from_group (m : GroupManager) (d : list Z) : GroupManager :=
  match device_groups m !! d with
  | None => m
  | Some gid =>
      mkManager
        (match groups m !! gid with
         | Some g => let g := snd (remove_member g d) in if is_empty g then delete gid (groups m) else <[gid := g]> (groups m)
         | None => groups m
         end) (delete d (device_groups m))
  end.

Definition with_group (m : GroupManager) (gid : list Z) (f : DeviceGroup -> DeviceGroup) : outcome GroupError unit * GroupManager :=
  match groups m !! gid with
  | None => (Err (GroupNotFound gid), m)
  | Some g => (Ok tt, mkManager (<[gid := f g]> (groups m)) (device_groups m))
  end.
Definition set_group_volume (m : GroupManager) (gid : list Z) (v : Z) : outcome GroupError unit * GroupManager := with_group m gid (fun g => set_volume g v).
Definition manager_set_member_volume (m : GroupManager) (gid d : list Z) (v : Z) : outcome GroupError unit * GroupManager :=
  with_group m gid (fun g => set_member_volume g d v).

(** ** The invariant of a group *)
Definition ids (g : DeviceGroup) : list (list Z) := map mid (members g).

(** The one member that leads, the one the group names. *)
Definition leads (l : list GroupMember) (i : option (list Z)) : Prop :=
  match l with
  | [] => i = None
  | _ => exists pre x post, l = pre ++ x :: post /\ is_leader x = true /\ i = Some (mid x) /\ Forall (fun m => is_leader m = false) (pre ++ post)
  end.
Definition group_ok (g : DeviceGroup) : Prop := NoDup (ids g) /\ leads (members g) (leader_id g).

Lemma is_member_spec g i : is_member g i = true <-> i ∈ ids g.
Proof.
  unfold is_member, ids. rewrite existsb_exists, list_elem_of_fmap. split.
  - intros (m & Hm%list_elem_of_In & <-%bool_decide_eq_true). eauto.
  - intros (m & -> & Hm%list_elem_of_In). exists m. split; [done|]. by apply bool_decide_eq_true.
Qed.

Lemma add_member_ids g d : ids (add_member g d) = if is_member g (id d) then ids g else ids g ++ [id d].
Proof. unfold add_member. destruct (is_member g (id d)); [done|]. unfold ids. cbn [members]. by rewrite map_app. Qed.

Lemma add_member_ok g d : group_ok g -> group_ok (add_member g d).
Proof.
  intros [Hn Hl]. split.
  - rewrite add_member_ids. destruct (is_member g (id d)) eqn:E; [done|]. apply NoDup_app. split_and!; [done| |apply NoDup_singleton].
    intros x Hx ->%list_elem_of_singleton. apply is_member_spec in Hx. congruence.
  - unfold add_member. destruct (is_member g (id d)); [done|]. cbn [members leader_id]. destruct (members g) as [|m l]; cbn [app].
    + by exists [], (mkMember d Controls.VMAX true false), [].
    + destruct Hl as (pre & x & post & E & Hx & Hi & Hf). exists pre, x, (post ++ [mkMember d Controls.VMAX false false]).
      rewrite app_comm_cons, E, <- app_assoc. split_and!; [done..|]. rewrite app_assoc. apply Forall_app. split; [done|]. by constructor.
Qed.

Lemma take_out_spec i l : match take_out i l with
  | Some (x, rest) => exists pre post, l = pre ++ x :: post /\ rest = pre ++ post /\ mid x = i /\ i ∉ map mid pre
  | None => i ∉ map mid l
  end.
Proof.
  induction l as [|m l IH]; cbn [take_out]; [apply not_elem_of_nil|]. case_bool_decide as E.
  - exists [], l. split_and!; [done..|apply not_elem_of_nil].
  - destruct (take_out i l) as [[x rest]|]; cbn.
    + destruct IH as (pre & post & -> & -> & Hx & Hi). exists (m :: pre), post. split_and!; [done..|]. apply not_elem_of_cons. split; [congruence|done].
    + apply not_elem_of_cons. split; [congruence|done].
Qed.

(** Removing from a sequence with one leader. *)
Lemma leads_split pre x post i : leads (pre ++ x :: post) i ->
  (is_leader x = true /\ i = Some (mid x) /\ Forall (fun m => is_leader m = false) (pre ++ post)) \/
  (is_leader x = false /\ pre ++ post <> [] /\ leads (pre ++ post) i).
Proof.
  intros H. assert (exists pre' y post', pre ++ x :: post = pre' ++ y :: post' /\ is_leader y = true /\ i = Some (mid y) /\
    Forall (fun m => is_leader m = false) (pre' ++ post')) as (pre' & y & post' & E & Hy & Hi & Hf) by (destruct pre; exact H). clear H.
  apply app_eq_app in E as [k [[-> E]|[-> E]]]; destruct k as [|z k]; cbn in E; rewrite ?app_nil_r in *.
  - injection E as <- <-. by left.
  - injection E as <- ->. right. rewrite Forall_app in Hf. destruct Hf as [Hf1 Hf2].
    rewrite Forall_app, Forall_cons in Hf2. destruct Hf2 as (H1 & H2 & H3).
    split_and!; [done|by rewrite <- app_assoc; destruct pre'|].
    assert (exists p q r, (pre' ++ y :: k) ++ post = p ++ q :: r /\ is_leader q = true /\ i = Some (mid q) /\ Forall (fun m => is_leader m = false) (p ++ r)) as Hw.
    { exists pre', y, (k ++ post). rewrite <- app_assoc. split_and!; [done..|]. by rewrite !Forall_app. }
    unfold leads. destruct ((pre' ++ y :: k) ++ post) eqn:E2; [by destruct pre'|done].
  - injection E as <- <-. by left.
  - injection E as <- ->. right. rewrite !Forall_app, Forall_cons in Hf. destruct Hf as ((H1 & H2 & H3) & H4).
    split_and!; [done|by destruct pre, k|].
    assert (exists p q r, pre ++ k ++ y :: post' = p ++ q :: r /\ is_leader q = true /\ i = Some (mid q) /\ Forall (fun m => is_leader m = false) (p ++ r)) as Hw.
    { exists (pre ++ k), y, post'. rewrite <- app_assoc. split_and!; [done..|]. by rewrite !Forall_app. }
    unfold leads. destruct (pre ++ k ++ y :: post') eqn:E2; [by destruct pre, k|done].
Qed.

Lemma promoted_leads m l : Forall (fun m => is_leader m = false) (m :: l) -> leads (promote m :: l) (Some (mid m)).
Proof. intros [_ Hl]%Forall_cons. by exists [], (promote m), l. Qed.

Lemma remove_member_ok g i : group_ok g -> group_ok (snd (remove_member g i)).
Proof.
  intros [Hn Hl]. unfold remove_member. pose proof (take_out_spec i (members g)) as Ht.
  destruct (take_out i (members g)) as [[x rest]|]; [|done]. destruct Ht as (pre & post & E & -> & Hx & Hi).
  unfold group_ok, ids in *. rewrite E in *. rewrite map_app in Hn. cbn [map] in Hn. cbn [snd].
  assert (NoDup (map mid (pre ++ post))) as Hn'.
  { rewrite map_app. rewrite NoDup_app in Hn |- *. rewrite NoDup_cons in Hn. set_solver. }
  destruct (leads_split _ _ _ _ Hl) as [(Hlx & _ & Hf)|(Hlx & Hne & Hl')]; rewrite Hlx; destruct (pre ++ post) as [|m l] eqn:E2; try done.
  - split; [exact Hn'|by apply promoted_leads].
Qed.

Lemma remove_member_ids g i : group_ok g -> forall x, x ∈ ids (snd (remove_member g i)) <-> x ∈ ids g /\ x <> i.
Proof.
  intros [Hn _] x. unfold remove_member. pose proof (take_out_spec i (members g)) as Ht.
  destruct (take_out i (members g)) as [[y rest]|]; cbn [snd]; [|unfold ids; set_solver].
  destruct Ht as (pre & post & E & -> & Hy & Hi). unfold ids in *. rewrite E in *. rewrite map_app in *. cbn [map] in *.
  assert (map mid (members (match pre ++ post with
    | [] => mkGroup (g_id g) (g_name g) [] None (g_volume g)
    | m :: rest' => if is_leader y then mkGroup (g_id g) (g_name g) (promote m :: rest') (Some (mid m)) (g_volume g)
                    else mkGroup (g_id g) (g_name g) (pre ++ post) (leader_id g) (g_volume g) end)) = map mid (pre ++ post)) as ->.
  { destruct (pre ++ post); [done|]. by destruct (is_leader y). }
  rewrite map_app. rewrite NoDup_app, NoDup_cons in Hn. set_solver.
Qed.

(** What the volume of a member does not touch. *)
Definition key (m : GroupMember) : list Z * bool := (mid m, is_leader m).

Lemma leads_keys l l' i : map key l = map key l' -> leads l i -> leads l' i.
Proof.
  intros E. destruct l as [|a l], l' as [|b l']; [done..|]. intros (pre & x & post & E1 & Hx & Hi & Hf). rewrite E1, map_app in E.
  symmetry in E. apply map_eq_app in E as (pre' & r & E2 & Hpre & Hr). apply map_eq_cons in Hr as (x' & post' & -> & Hx' & Hpost).
  unfold leads. rewrite E2. rewrite <- E2. exists pre', x', post'. injection Hx' as Hm Hlead.
  assert (forall k k', map key k' = map key k -> Forall (fun m => is_leader m = false) k -> Forall (fun m => is_leader m = false) k') as Hk.
  { clear. induction k as [|y k IH]; intros [|z k'] E H; try done. injection E as _ E1 E2. apply Forall_cons in H as [? ?]. constructor; [congruence|]. by apply IH. }
  rewrite Forall_app in Hf |- *. split_and!; [done|congruence|congruence| |]; naive_solver.
Qed.

Lemma update_first_keys i v l : map key (update_first i v l) = map key l.
Proof. induction l as [|m l IH]; [done|]. cbn. case_bool_decide; cbn; [done|by rewrite IH]. Qed.

Lemma keys_ids g g' : map key (members g') = map key (members g) -> ids g' = ids g.
Proof. intros E. apply (f_equal (map fst)) in E. rewrite !map_map in E. exact E. Qed.

Lemma set_member_volume_ok g i v : group_ok g -> group_ok (set_member_volume g i v) /\ ids (set_member_volume g i v) = ids g.
Proof.
  intros [Hn Hl]. pose proof (update_first_keys i v (members g)) as E.
  assert (ids (set_member_volume g i v) = ids g) as Hi by (by apply keys_ids). unfold group_ok. rewrite Hi. split_and!; [done| |done].
  by apply (leads_keys (members g)).
Qed.

(** ** The invariant of the manager *)

(** Groups are filed under their identifiers, and the table of devices says exactly who
    is in which group. *)
Definition manager_ok (m : GroupManager) : Prop :=
  map_Forall (fun k g => g_id g = k /\ group_ok g) (groups m) /\
  forall d gid, device_groups m !! d = Some gid <-> exists g, groups m !! gid = Some g /\ d ∈ ids g.

(** A change of one group that keeps its members. *)
Lemma with_group_ok m gid f : (forall g, group_ok g -> group_ok (f g) /\ ids (f g) = ids g /\ g_id (f g) = g_id g) ->
  manager_ok m -> manager_ok (snd (with_group m gid f)).
Proof.
  intros Hf [Hg Hd]. unfold with_group. destruct (groups m !! gid) as [g|] eqn:E; [|done]. destruct (Hg gid g E) as [Hi Ho].
  destruct (Hf g Ho) as (H1 & H2 & H3). split; cbn.
  - apply map_Forall_insert_2; [by rewrite H3|done].
  - intros d k. rewrite Hd. destruct (decide (k = gid)) as [->|Hk].
    + rewrite lookup_insert_eq, E. split; intros (x & [= <-] & Hx); eexists; (split; [done|]); congruence.
    + by rewrite lookup_insert_ne by done.
Qed.

Lemma add_member_in g d x : x ∈ ids (add_member g d) <-> x ∈ ids g \/ x = id d.
Proof.
  rewrite add_member_ids. destruct (is_member g (id d)) eqn:E; [apply is_member_spec in E; naive_solver|]. set_solver.
Qed.

Lemma add_member_id g d : g_id (add_member g d) = g_id g.
Proof. unfold add_member. by destruct (is_member g (id d)). Qed.

Lemma add_device_ok m gid d : manager_ok m -> manager_ok (snd (add_device_to_group m gid d)).
Proof.
  intros [Hg Hd]. unfold add_device_to_group. destruct (device_groups m !! id d) eqn:Ed; [done|].
  destruct (groups m !! gid) as [g|] eqn:E; [|done]. destruct (Hg gid g E) as [Hi Ho]. split; cbn.
  - apply map_Forall_insert_2; [|done]. rewrite add_member_id. split; [done|by apply add_member_ok].
  - intros x k. destruct (decide (x = id d)) as [->|Hx].
    + rewrite lookup_insert_eq. split.
      * intros [= <-]. exists (add_member g d). rewrite lookup_insert_eq, add_member_in. tauto.
      * intros (g' & Hk & Hin). destruct (decide (k = gid)) as [->|Hne]; [done|]. rewrite lookup_insert_ne in Hk by done.
        assert (device_groups m !! id d = Some k) by (apply Hd; eauto). congruence.
    + rewrite lookup_insert_ne, Hd by done. destruct (decide (k = gid)) as [->|Hne].
      * rewrite lookup_insert_eq, E. split; intros (y & [= <-] & Hin); eexists; (split; [done|]); rewrite add_member_in in *; naive_solver.
      * by rewrite lookup_insert_ne by done.
Qed.

Lemma remove_member_id g i : g_id (snd (remove_member g i)) = g_id g.
Proof. unfold remove_member. destruct (take_out i (members g)) as [[x [|m l]]|]; [done| |done]. cbn. by destruct (is_leader x). Qed.

Lemma empty_ids g : is_empty g = true -> forall x, x ∉ ids g.
Proof. unfold is_empty, ids. destruct (members g); [|done]. intros _ x. apply not_elem_of_nil. Qed.

Lemma remove_device_ok m d : manager_ok m -> manager_ok (remove_device_from_group m d).
Proof.
  intros [Hg Hd]. unfold remove_device_from_group. destruct (device_groups m !! d) as [gid|] eqn:Ed; [|done].
  destruct (proj1 (Hd d gid) Ed) as (g & E & Hin). rewrite E. destruct (Hg gid g E) as [Hi Ho].
  pose proof (remove_member_ids g d Ho) as Hids. set (g' := snd (remove_member g d)) in *.
  assert (forall x k, delete d (device_groups m) !! x = Some k <->
    exists y, (<[gid := g']> (groups m)) !! k = Some y /\ x ∈ ids y) as Hd'.
  { intros x k. rewrite lookup_delete_Some, Hd. destruct (decide (k = gid)) as [->|Hk].
    - rewrite lookup_insert_eq, E. split.
      + intros (Hx & y & [= <-] & Hy). exists g'. split; [done|]. apply Hids. naive_solver.
      + intros (y & [= <-] & Hy). apply Hids in Hy as [Hy Hx]. naive_solver.
    - rewrite lookup_insert_ne by done. split; [naive_solver|]. intros (y & Hy & Hx). split; [|by eauto].
      intros ->. assert (device_groups m !! x = Some k) by (apply Hd; eauto). congruence. }
  destruct (is_empty g') eqn:Ee; split; cbn [groups device_groups].
  - intros k y [_ Hk]%lookup_delete_Some. by apply Hg.
  - intros x k. rewrite Hd'. pose proof (empty_ids g' Ee x) as Hx. destruct (decide (k = gid)) as [->|Hk].
    + rewrite lookup_insert_eq, lookup_delete_eq. naive_solver.
    + by rewrite lookup_insert_ne, lookup_delete_ne by done.
  - apply map_Forall_insert_2; [|done]. unfold g'. rewrite remove_member_id. split; [done|by apply remove_member_ok].
  - done.
Qed.

Lemma delete_members_lookup (l : list GroupMember) (dg : gmap (list Z) (list Z)) d k :
  foldl (fun dg x => delete (mid x) dg) dg l !! d = Some k <-> dg !! d = Some k /\ d ∉ map mid l.
Proof.
  revert dg. induction l as [|x l IH]; intros dg; cbn [foldl map]; [rewrite elem_of_nil; tauto|].
  rewrite IH, lookup_delete_Some, not_elem_of_cons. naive_solver.
Qed.

Lemma delete_group_ok m i : manager_ok m -> manager_ok (snd (delete_group m i)).
Proof.
  intros [Hg Hd]. unfold delete_group. destruct (groups m !! i) as [g|] eqn:E; [|done]. split; cbn.
  - intros k y [_ Hk]%lookup_delete_Some. by apply Hg.
  - intros d k. rewrite delete_members_lookup, Hd. split.
    + intros [(y & Hy & Hin) Hn]. exists y. split; [|done]. rewrite lookup_delete_ne; [done|]. intros ->. apply Hn. rewrite E in Hy. by injection Hy as ->.
    + intros (y & [Hk Hy]%lookup_delete_Some & Hin). split; [by eauto|]. intros Hx.
      assert (device_groups m !! d = Some i) by (apply Hd; eauto). assert (device_groups m !! d = Some k) by (apply Hd; eauto). congruence.
Qed.

Lemma enrol_spec ds : forall g dg, group_ok g ->
  let '(g', dg') := foldl enrol (g, dg) ds in
  group_ok g' /\ g_id g' = g_id g /\ (forall x, x ∈ ids g' <-> x ∈ ids g \/ x ∈ map id ds) /\
  (forall x, dg' !! x = if bool_decide (x ∈ map id ds) then Some (g_id g) else dg !! x).
Proof.
  induction ds as [|d ds IH]; intros g dg Hg; cbn [foldl map].
  - split_and!; [done..| |]; intros x; [rewrite elem_of_nil; tauto|by rewrite bool_decide_false by apply not_elem_of_nil].
  - unfold enrol at 2. cbn [fst snd]. specialize (IH (add_member g d) (<[id d := g_id g]> dg) (add_member_ok g d Hg)).
    destruct (foldl enrol _ ds) as [g' dg']. destruct IH as (H1 & H2 & H3 & H4). rewrite add_member_id in *. split_and!; [done..| |]; intros x.
    + rewrite H3, add_member_in, elem_of_cons. tauto.
    + rewrite H4. repeat case_bool_decide; try done; [set_solver| |rewrite lookup_insert_ne; set_solver].
      assert (x = id d) as -> by set_solver. apply lookup_insert_eq.
Qed.

Lemma new_group_ok random n : group_ok (Group_new random n).
Proof. split; [apply NoDup_nil_2|done]. Qed.

Lemma create_ok m random n ds : manager_ok m -> groups m !! GroupId_new random = None ->
  manager_ok (snd (create_group_with_devices m random n ds)).
Proof.
  intros [Hg Hd] Hf. unfold create_group_with_devices. destruct (first_taken (device_groups m) ds) eqn:Et; [done|].
  pose proof (enrol_spec ds (Group_new random n) (device_groups m) (new_group_ok random n)) as He.
  destruct (foldl enrol _ ds) as [g dg]. destruct He as (Ho & Hi & Hids & Hdg). cbn [g_id Group_new] in *.
  assert (forall x, x ∈ map id ds -> device_groups m !! x = None) as Hfree.
  { intros x (d & -> & Hin%list_elem_of_In)%list_elem_of_fmap. unfold first_taken in Et. apply (find_none _ _ Et) in Hin.
    by destruct (device_groups m !! id d). }
  split; cbn [snd groups device_groups]; rewrite Hi.
  - by apply map_Forall_insert_2.
  - intros x k. rewrite Hdg. destruct (decide (k = GroupId_new random)) as [->|Hk].
    + rewrite lookup_insert_eq. case_bool_decide as Hx.
      * split; [|done]. intros _. exists g. rewrite Hids. tauto.
      * rewrite Hd, Hf. split; [naive_solver|]. intros (y & [= <-] & Hin). rewrite Hids in Hin. cbn in Hin. rewrite elem_of_nil in Hin. tauto.
    + rewrite lookup_insert_ne by done. case_bool_decide as Hx; [|apply Hd].
      split; [congruence|]. intros Hy. apply Hd in Hy. rewrite Hfree in Hy; done.
Qed.

(** ** Every history *)
Inductive GroupOp :=
| CreateGroup (random : Z) (n : list Z) | CreateWith (random : Z) (n : list Z) (ds : list AirPlayDevice) | DeleteGroup (i : list Z)
| AddDevice (gid : list Z) (d : AirPlayDevice) | RemoveDevice (d : list Z) | SetGroupVolume (gid : list Z) (v : Z)
| SetMemberVolume (gid d : list Z) (v : Z).
Definition step (m : GroupManager) (op : GroupOp) : GroupManager :=
  match op with
  | CreateGroup r n => snd (create_group m r n)
  | CreateWith r n ds => snd (create_group_with_devices m r n ds)
  | DeleteGroup i => snd (delete_group m i)
  | AddDevice gid d => snd (add_device_to_group m gid d)
  | RemoveDevice d => remove_device_from_group m d
  | SetGroupVolume gid v => snd (set_group_volume m gid v)
  | SetMemberVolume gid d v => snd (manager_set_member_volume m gid d v)
  end.

(** The random identifier of a new group is not in use. *)
Definition fresh (m : GroupManager) (op : GroupOp) : Prop :=
  match op with CreateGroup r _ | CreateWith r _ _ => groups m !! GroupId_new r = None | _ => True end.

Inductive reachable : GroupManager -> Prop :=
| reachable_new : reachable Manager_new
| reachable_step m op : reachable m -> fresh m op -> reachable (step m op).

Lemma step_ok m op : manager_ok m -> fresh m op -> manager_ok (step m op).
Proof.
  intros Hm Hf. destruct op as [r n|r n ds|i|gid d|d|gid v|gid d v]; cbn [step fresh] in *.
  - pose proof (create_ok m r n [] Hm Hf) as H. exact H.
  - by apply create_ok.
  - by apply delete_group_ok.
  - by apply add_device_ok.
  - by apply remove_device_ok.
  - apply with_group_ok; [|done]. intros g Hg. done.
  - apply with_group_ok; [|done]. intros g Hg. destruct (set_member_volume_ok g d v Hg). done.
Qed.

Lemma reachable_ok m : reachable m -> manager_ok m.
Proof. induction 1 as [|m op _ IH Hf]; [|by apply step_ok]. split; [done|]. intros d gid. split; [done|]. by intros (g & ? & _). Qed.

Lemma leads_leader l i : leads l i ->
  match List.find is_leader l with
  | None => l = [] /\ i = None
  | Some x => x ∈ l /\ i = Some (mid x) /\ forall y, y ∈ l -> is_leader y = true -> y = x
  end.
Proof.
  destruct l as [|m l]; [done|]. intros (pre & x & post & E & Hx & Hi & Hf). rewrite E. clear E.
  assert (List.find is_leader (pre ++ x :: post) = Some x) as ->.
  { apply Forall_app in Hf as [Hf _]. induction Hf as [|a pre Ha Hf IH]; cbn; [by rewrite Hx|by rewrite Ha]. }
  split_and!; [set_solver|done|]. intros y Hy Hl. rewrite Forall_forall in Hf.
  apply elem_of_app in Hy as [Hy|[->|Hy]%elem_of_cons]; [|done|]; exfalso; specialize (Hf y); rewrite Hl in Hf; discriminate Hf; set_solver.
Qed.

(** C15: the groups stay consistent. In every state the manager can reach, with new
    groups getting unused identifiers, a group is found under its own identifier, no
    device is in it twice, and it is either empty with no leader or has exactly one
    leader, the one it names; and the table of devices gives for each device the one
    group that has it as a member, and nothing for all others. *)
Theorem groups_consistent (m : GroupManager) (Hm : reachable m) :
  (forall gid g, get_group m gid = Some g -> g_id g = gid /\ NoDup (ids g) /\
     match leader g with
     | None => members g = [] /\ leader_id g = None
     | Some x => x ∈ members g /\ leader_id g = Some (mid x) /\ forall y, y ∈ members g -> is_leader y = true -> y = x
     end) /\
  (forall d gid, find_device_group m d = Some gid <-> exists g, get_group m gid = Some g /\ d ∈ ids g).
Proof.
  destruct (reachable_ok m Hm) as [Hg Hd]. split; [|exact Hd]. intros gid g E. destruct (Hg gid g E) as (Hi & Hn & Hl).
  split_and!; [done|done|by apply leads_leader].
Qed.

(** ** Witness *)
Definition demo_device (n : string) : AirPlayDevice := mkDevice (bs n) (bs n) None [] 7000 Features.Caps_default None None ∅ None.
(** Two groups; the leader of the first leaves it, and joins the second. *)
Definition demo_ops : list GroupOp :=
  [CreateWith 1 (bs "Up") [demo_device "A"; demo_device "B"; demo_device "A"]; CreateGroup 2 (bs "Down"); AddDevice (GroupId_new 2) (demo_device "A");
   RemoveDevice (bs "A"); AddDevice (GroupId_new 2) (demo_device "A"); SetMemberVolume (GroupId_new 2) (bs "A") Controls.VMIN].
Definition demo_manager : GroupManager := foldl step Manager_new demo_ops.

Lemma groups_consistent_witness :
  find_device_group demo_manager (bs "A") = Some (GroupId_new 2) /\ find_device_group demo_manager (bs "B") = Some (GroupId_new 1) /\
  (forall d gid, find_device_group demo_manager d = Some gid <-> exists g, get_group demo_manager gid = Some g /\ d ∈ ids g).
Proof.
  split; [vm_compute; reflexivity|]. split; [vm_compute; reflexivity|]. apply (groups_consistent demo_manager).
  unfold demo_manager, demo_ops. cbn [foldl].
  repeat (apply reachable_step; [|vm_compute; first [reflexivity|exact I]]). exact reachable_new.
Defined.

End Groups.
