(* ===== verification/Advertise.v ===== *)
(** * Advertising the receivers

    Models [src/discovery/advertiser.rs] and [src/receiver/ap2/advertisement.rs]: the TXT
    records of the two services and their registration with the mDNS daemon, which is a
    parameter.  The last part composes them with the client's discovery. *)

From stdpp Require Import gmap.
From S2P Require Import Bytes Text Unicode Rtsp RtspParser Sdp RaopSession Ap2Body Features Discovery.

(** The [mdns-sd] crate: services and the daemon that publishes them; [Daemon::new] and
    the construction of a service can fail. *)
Class Mdns := {
  ServiceInfo : Type; MdnsError : Type; Daemon : Type;
  daemon_new : outcome MdnsError Daemon;
  service_info : list Z -> list Z -> list Z -> Z -> gmap (list Z) (list Z) -> outcome MdnsError ServiceInfo;
  get_fullname : ServiceInfo -> list Z;
  daemon_register : Daemon -> ServiceInfo -> outcome MdnsError unit * Daemon;
  daemon_unregister : Daemon -> list Z -> outcome MdnsError unit * Daemon
}.

(** What is published: registering adds, unregistering takes away, a failure changes
    nothing; a service is named by its instance name and type. *)
Class MdnsLaws (M : Mdns) := {
  published : Daemon -> gmap (list Z) ServiceInfo;
  service_parts : ServiceInfo -> list Z * Z * gmap (list Z) (list Z);
  service_info_parts : forall ty n h p txt i, service_info ty n h p txt = Ok i ->
    get_fullname i = n ++ 46 :: ty /\ service_parts i = (n, p, txt);
  register_publishes : forall d i r d', daemon_register d i = (r, d') ->
    published d' = match r with Ok _ => <[get_fullname i := i]> (published d) | _ => published d end;
  unregister_withdraws : forall d n r d', daemon_unregister d n = (r, d') ->
    published d' = match r with Ok _ => delete n (published d) | _ => published d end
}.

(** [str::to_lowercase], by Unicode's tables. *)
Class Lowercase := to_lowercase : list Z -> list Z.

Module Advertise.
Import Unicode Rtsp RtspParser Features Discovery.

(** ** advertiser.rs *)
Inductive AdvertiserError {M : Mdns} := MacRetrievalFailed | MdnsFailed (e : MdnsError) | NotRegistered | AlreadyRegistered.

(** Six groups of hexadecimal digits. *)
Definition parse_mac_string (mac : list Z) : option (list Z) :=
  let parts := RaopSession.split_char 58 mac in
  if bool_decide (length parts = 6%nat) then mapM (from_str_radix16 8) parts else None.

(** The bytes taken out of the 64-bit hash of the machine's identity. *)
Definition generate_stable_mac (hash : Z) : list Z :=
  [Z.lor (wrap 8 (Z.shiftr hash 40)) 0x02; wrap 8 (Z.shiftr hash 32); wrap 8 (Z.shiftr hash 24); wrap 8 (Z.shiftr hash 16);
   wrap 8 (Z.shiftr hash 8); wrap 8 hash].

(** The interfaces in the order the directory lists them, with the text of the address
    file when it can be read; [None] when there is no directory. *)
Fixpoint first_interface (entries : list (list Z * option (list Z))) : option (list Z) :=
  match entries with
  | [] => None
  | (n, addr) :: rest =>
      if bool_decide (n = bs "lo") || starts_with (bs "veth") n || starts_with (bs "docker") n then first_interface rest
      else match addr with
           | Some a => if bool_decide (trim a = bs "00:00:00:00:00:00") then first_interface rest else parse_mac_string (trim a)
           | None => first_interface rest
           end
  end.
Definition get_mac_linux (dir : option (list (list Z * option (list Z)))) : option (list Z) := dir ≫= first_interface.
Definition get_device_mac (dir : option (list (list Z * option (list Z)))) (hash : Z) : list Z :=
  match get_mac_linux dir with Some m => m | None => generate_stable_mac hash end.

Definition format_mac_for_service (mac : list Z) : list Z := concat (map (show_hex2 true) mac).

Record AdvCapabilities := mkAdvCaps {
  a_codecs : list Z; a_encryption_types : list Z; a_metadata_types : list Z; a_channels : Z; a_sample_rate : Z; a_sample_size : Z;
  a_password_required : bool; a_model : list Z; protocol_version : Z; software_version : list Z
}.
Definition AdvCapabilities_default (version : list Z) : AdvCapabilities :=
  mkAdvCaps [0; 1; 2] [0; 1] [0; 1; 2] 2 44100 16 false (bs "AirPlayRust") 1 version.

Record ReceiverStatusFlags := mkRStatus { problem : bool; pin_required : bool; busy : bool; supports_legacy_pairing : bool }.
Definition RStatus_default : ReceiverStatusFlags := mkRStatus false false false false.
Definition to_flags (s : ReceiverStatusFlags) : Z :=
  let f := 0 in
  let f := if problem s then Z.lor f 0x01 else f in
  let f := if pin_required s then Z.lor f 0x02 else f in
  let f := if busy s then Z.lor f 0x04 else f in
  if supports_legacy_pairing s then Z.lor f 0x08 else f.

(** *** [TxtRecordBuilder] *)
Definition txt_new : Txt := ∅.
Definition txt_add (b : Txt) (k v : list Z) : Txt := <[k := v]> b.
Definition format_list (items : list Z) : list Z := RaopSession.join_with 44 (map Sdp.num items).

Definition from_capabilities (c : AdvCapabilities) (s : ReceiverStatusFlags) : Txt :=
  let b := txt_add txt_new (bs "txtvers") (bs "1") in
  let b := txt_add b (bs "ch") (Sdp.num (a_channels c)) in
  let b := txt_add b (bs "sr") (Sdp.num (a_sample_rate c)) in
  let b := txt_add b (bs "ss") (Sdp.num (a_sample_size c)) in
  let b := txt_add b (bs "cn") (format_list (a_codecs c)) in
  let b := txt_add b (bs "et") (format_list (a_encryption_types c)) in
  let b := txt_add b (bs "md") (format_list (a_metadata_types c)) in
  let b := txt_add b (bs "tp") (bs "UDP") in
  let b := txt_add b (bs "pw") (if a_password_required c then bs "true" else bs "false") in
  let b := txt_add b (bs "am") (a_model c) in
  let b := txt_add b (bs "vn") (Sdp.num (protocol_version c)) in
  let b := txt_add b (bs "vs") (software_version c) in
  let b := txt_add b (bs "sf") (bs "0x" ++ show_hex false (to_flags s)) in
  txt_add b (bs "ft") (bs "0x4A7FDFD5").

(** The "key=value" texts, in the table's order. *)
Definition txt_build {O : Ap2Body.ParamOrder} (b : Txt) : list (list Z) := map (fun kv => kv.1 ++ 61 :: kv.2) (Ap2Body.param_order b).

(** *** [RaopAdvertiser] *)
Record AdvertiserConfig := mkAdvConfig { adv_name : list Z; adv_port : Z; adv_capabilities : AdvCapabilities; mac_override : option (list Z) }.
Definition AdvertiserConfig_default (version : list Z) : AdvertiserConfig :=
  mkAdvConfig (bs "AirPlay Receiver") 5000 (AdvCapabilities_default version) None.

Section WithMdns.
Context {M : Mdns} {L : Lowercase}.

Record RaopAdvertiser := mkAdvertiser {
  config : AdvertiserConfig; daemon : Daemon; service_fullname : option (list Z); status : ReceiverStatusFlags; mac : list Z
}.

Definition Advertiser_new (c : AdvertiserConfig) : outcome AdvertiserError RaopAdvertiser :=
  d ← map_err MdnsFailed daemon_new;
  m ← ok_or (mac_override c) MacRetrievalFailed;
  Ok (mkAdvertiser c d None RStatus_default m).

Definition service_name (a : RaopAdvertiser) : list Z := format_mac_for_service (mac a) ++ 64 :: adv_name (config a).

Definition hostname_of (n : list Z) : list Z := to_lowercase (map (fun c => if c =? 32 then 45 else c) n) ++ bs ".local.".

Definition register (a : RaopAdvertiser) : outcome AdvertiserError unit * RaopAdvertiser :=
  match service_fullname a with
  | Some _ => (Err AlreadyRegistered, a)
  | None =>
      match service_info RAOP_SERVICE_TYPE (service_name a) (hostname_of (adv_name (config a))) (adv_port (config a))
              (from_capabilities (adv_capabilities (config a)) (status a)) with
      | Ok info =>
          match daemon_register (daemon a) info with
          | (Ok _, d) => (Ok tt, mkAdvertiser (config a) d (Some (get_fullname info)) (status a) (mac a))
          | (Err e, d) => (Err (MdnsFailed e), mkAdvertiser (config a) d None (status a) (mac a))
          | (Panic, d) => (Panic, mkAdvertiser (config a) d None (status a) (mac a))
          end
      | Err e => (Err (MdnsFailed e), a)
      | Panic => (Panic, a)
      end
  end.

(** [take]: the name is gone also when the daemon fails. *)
Definition unregister (a : RaopAdvertiser) : outcome AdvertiserError unit * RaopAdvertiser :=
  match service_fullname a with
  | None => (Err NotRegistered, a)
  | Some n =>
      let '(r, d) := daemon_unregister (daemon a) n in
      (map_err MdnsFailed r, mkAdvertiser (config a) d None (status a) (mac a))
  end.

Definition update_status (a : RaopAdvertiser) (s : ReceiverStatusFlags) : outcome AdvertiserError unit * RaopAdvertiser :=
  let a := mkAdvertiser (config a) (daemon a) (service_fullname a) s (mac a) in
  match service_fullname a with
  | None => (Ok tt, a)
  | Some _ =>
      match unregister a with
      | (Ok _, a) => register a
      | r => r
      end
  end.

Definition set_busy (a : RaopAdvertiser) (b : bool) : outcome AdvertiserError unit * RaopAdvertiser :=
  let s := status a in update_status a (mkRStatus (problem s) (pin_required s) b (supports_legacy_pairing s)).

(** [Drop]. *)
Definition drop_advertiser (a : RaopAdvertiser) : RaopAdvertiser :=
  match service_fullname a with Some _ => snd (unregister a) | None => a end.

(** *** [AsyncRaopAdvertiser]: the background task *)
Inductive AdvertiserCommand := UpdateStatus (s : ReceiverStatusFlags) | Shutdown.

(** Commands until [Shutdown] or the channel closes; failures are logged. *)
Fixpoint run_commands (a : RaopAdvertiser) (cmds : list AdvertiserCommand) : RaopAdvertiser :=
  match cmds with
  | UpdateStatus s :: cmds => run_commands (snd (update_status a s)) cmds
  | Shutdown :: _ | [] => a
  end.
Definition advertiser_task (c : AdvertiserConfig) (m : list Z) (cmds : list AdvertiserCommand) : option RaopAdvertiser :=
  match Advertiser_new (mkAdvConfig (adv_name c) (adv_port c) (adv_capabilities c) (Some m)) with
  | Ok a =>
      match register a with
      | (Ok _, a) => Some (drop_advertiser (snd (unregister (run_commands a cmds))))
      | (_, a) => Some (drop_advertiser a)
      end
  | _ => None
  end.

(** *** [ServiceAdvertiser] *)
Record ServiceAdvertiser := mkServices { sv_daemon : Daemon; registered_services : gmap (list Z) ServiceInfo }.

Definition services_register (a : ServiceAdvertiser) (ty n host : list Z) (p : Z) (txt : list (list Z * list Z))
  : outcome AdvertiserError (list Z) * ServiceAdvertiser :=
  match service_info ty n host p (insert_all txt ∅) with
  | Ok info =>
      match daemon_register (sv_daemon a) info with
      | (Ok _, d) => (Ok (get_fullname info), mkServices d (<[get_fullname info := info]> (registered_services a)))
      | (Err e, d) => (Err (MdnsFailed e), mkServices d (registered_services a))
      | (Panic, d) => (Panic, mkServices d (registered_services a))
      end
  | Err e => (Err (MdnsFailed e), a)
  | Panic => (Panic, a)
  end.

Definition services_unregister (a : ServiceAdvertiser) (full : list Z) : outcome AdvertiserError unit * ServiceAdvertiser :=
  match registered_services a !! full with
  | Some _ =>
      let '(r, d) := daemon_unregister (sv_daemon a) full in
      (map_err MdnsFailed r, mkServices d (delete full (registered_services a)))
  | None => (Ok tt, a)
  end.

(** The order in which the table is emptied. *)
Context (drain : gmap (list Z) ServiceInfo -> list (list Z)).
Fixpoint unregister_each (d : Daemon) (names : list (list Z)) : outcome AdvertiserError unit * Daemon :=
  match names with
  | [] => (Ok tt, d)
  | n :: names =>
      match daemon_unregister d n with
      | (Ok _, d) => unregister_each d names
      | (Err e, d) => (Err (MdnsFailed e), d)
      | (Panic, d) => (Panic, d)
      end
  end.
Definition services_unregister_all (a : ServiceAdvertiser) : outcome AdvertiserError unit * ServiceAdvertiser :=
  let '(r, d) := unregister_each (sv_daemon a) (drain (registered_services a)) in (r, mkServices d ∅).
End WithMdns.

(** ** advertisement.rs *)
Definition PASSWORD_REQUIRED_FLAG : Z := Z.shiftl 1 4.
Definition PASSWORD_CONFIGURED_FLAG : Z := Z.shiftl 1 5.

(** The entries of [Ap2TxtRecord]. *)
Definition entry (e : Txt) (k v : list Z) : Txt := <[k := v]> e.

(** The hash is SHA-256. *)
Definition derive_pairing_identity (sha256 : list Z -> list Z) (device_id : list Z) : list Z :=
  let hash := sha256 (utf8_encode device_id ++ bs "AirPlay2-PI") in
  let h i := nth i hash 0 in
  let x z := show_hex2 false z in
  x (h 0%nat) ++ x (h 1%nat) ++ x (h 2%nat) ++ x (h 3%nat) ++ bs "-" ++ x (h 4%nat) ++ x (h 5%nat) ++ bs "-" ++
  x (Z.lor (Z.land (h 6%nat) 0x0f) 0x40) ++ x (h 7%nat) ++ bs "-" ++
  x (Z.lor (Z.land (h 8%nat) 0x3f) 0x80) ++ x (h 9%nat) ++ bs "-" ++
  x (h 10%nat) ++ x (h 11%nat) ++ x (h 12%nat) ++ x (h 13%nat) ++ x (h 14%nat) ++ x (h 15%nat).

(** The flags, with the password's bits set or cleared. *)
Definition config_status (c : Ap2Config) : Z :=
  if password c then Z.lor (status_flags c) PASSWORD_REQUIRED_FLAG
  else Z.land (status_flags c) (Z.lxor (Z.ones 32) (Z.lor PASSWORD_REQUIRED_FLAG PASSWORD_CONFIGURED_FLAG)).

Definition from_config {B : Sdp.Base64} (sha256 : list Z -> list Z) (c : Ap2Config) (public_key : list Z) : Txt :=
  let e := entry ∅ (bs "deviceid") (device_id c) in
  let e := entry e (bs "model") (model c) in
  let e := entry e (bs "manufacturer") (manufacturer c) in
  let e := match serial_number c with Some s => entry e (bs "serialNumber") s | None => e end in
  let e := entry e (bs "fv") (firmware_version c) in
  let e := entry e (bs "srcvers") (bs "366.0") in
  let e := entry e (bs "protovers") (bs "1.1") in
  let e := entry e (bs "features") (features_text (feature_flags c)) in
  let e := entry e (bs "flags") (bs "0x" ++ show_hex true (config_status c)) in
  let e := entry e (bs "pk") (Sdp.b64_encode public_key) in
  let e := entry e (bs "pi") (derive_pairing_identity sha256 (device_id c)) in
  let e := entry e (bs "acl") (bs "0") in
  entry e (bs "vv") (bs "2").

Definition update_password_status (e : Txt) (has_password : bool) : Txt :=
  let f := default 0 (e !! bs "flags" ≫= fun s => from_str_radix16 32 (trim_0x s)) in
  let both := Z.lor PASSWORD_REQUIRED_FLAG PASSWORD_CONFIGURED_FLAG in
  let f := if has_password then Z.lor f both else Z.land f (Z.lxor (Z.ones 32) both) in
  entry e (bs "flags") (bs "0x" ++ show_hex true f).

(** *** [Ap2ServiceAdvertiser] *)
Section Ap2Advertiser.
Context {M : Mdns} {B : Sdp.Base64} (sha256 : list Z -> list Z) (host : list Z).

Inductive AdvertisementError := MdnsInit (e : MdnsError) | ServiceCreate (e : MdnsError) | Registration (e : MdnsError) | Unregistration (e : MdnsError).

Record Ap2ServiceAdvertiser := mkAp2Advertiser { ap2_config : Ap2Config; ap2_daemon : Daemon; ap2_info : option ServiceInfo; ap2_public_key : list Z }.

Definition Ap2Advertiser_new (c : Ap2Config) (pk : list Z) : outcome AdvertisementError Ap2ServiceAdvertiser :=
  d ← map_err MdnsInit daemon_new; Ok (mkAp2Advertiser c d None pk).

Definition start (a : Ap2ServiceAdvertiser) : outcome AdvertisementError unit * Ap2ServiceAdvertiser :=
  let c := ap2_config a in
  match service_info AIRPLAY_SERVICE_TYPE (name c) (host ++ bs ".local.") (server_port c) (from_config sha256 c (ap2_public_key a)) with
  | Ok info =>
      match daemon_register (ap2_daemon a) info with
      | (Ok _, d) => (Ok tt, mkAp2Advertiser c d (Some info) (ap2_public_key a))
      | (Err e, d) => (Err (Registration e), mkAp2Advertiser c d (ap2_info a) (ap2_public_key a))
      | (Panic, d) => (Panic, mkAp2Advertiser c d (ap2_info a) (ap2_public_key a))
      end
  | Err e => (Err (ServiceCreate e), a)
  | Panic => (Panic, a)
  end.

Definition stop (a : Ap2ServiceAdvertiser) : outcome AdvertisementError unit * Ap2ServiceAdvertiser :=
  match ap2_info a with
  | Some info =>
      let '(r, d) := daemon_unregister (ap2_daemon a) (get_fullname info) in
      (map_err Unregistration r, mkAp2Advertiser (ap2_config a) d None (ap2_public_key a))
  | None => (Ok tt, a)
  end.

Definition update_name (a : Ap2ServiceAdvertiser) (n : list Z) : outcome AdvertisementError unit * Ap2ServiceAdvertiser :=
  match stop a with
  | (Ok _, a) => start (mkAp2Advertiser (set_name (ap2_config a) n) (ap2_daemon a) (ap2_info a) (ap2_public_key a))
  | r => r
  end.

Definition update_features (a : Ap2ServiceAdvertiser) : outcome AdvertisementError unit * Ap2ServiceAdvertiser :=
  match stop a with
  | (Ok _, a) => start a
  | r => r
  end.
End Ap2Advertiser.

(** ** Registration and status *)
Section Registration.
Context {M : Mdns} {ML : MdnsLaws M} {L : Lowercase}.

(** The service the daemon has to publish. *)
Definition current_service (a : RaopAdvertiser) : list Z * Z * Txt :=
  (service_name a, adv_port (config a), from_capabilities (adv_capabilities (config a)) (status a)).
Definition instance_name (a : RaopAdvertiser) : list Z := service_name a ++ 46 :: RAOP_SERVICE_TYPE.

(** As long as a name is held, it is the receiver's, and what is published under it is
    up to date. *)
Definition advertiser_ok (a : RaopAdvertiser) : Prop :=
  forall n, service_fullname a = Some n -> n = instance_name a /\ exists i, published (daemon a) !! n = Some i /\ service_parts i = current_service a.

Lemma register_ok a : advertiser_ok a -> advertiser_ok (snd (register a)).
Proof.
  unfold register. intros Ha. destruct (service_fullname a) eqn:Ef; [done|].
  destruct (service_info _ _ _ _ _) as [i| |] eqn:Ei; [|done..].
  destruct (daemon_register (daemon a) i) as [[[]| |] d] eqn:Er; [|done..].
  intros n [= <-]. apply service_info_parts in Ei as [Hn Hp]. apply register_publishes in Er. cbn. split; [exact Hn|].
  exists i. rewrite Er. split; [apply lookup_insert_eq|exact Hp].
Qed.

Lemma unregister_none a : service_fullname (snd (unregister a)) = None.
Proof. unfold unregister. destruct (service_fullname a) eqn:E; [|done]. by destruct (daemon_unregister _ _). Qed.

Lemma update_ok a s : advertiser_ok a -> advertiser_ok (snd (update_status a s)).
Proof.
  intros _. unfold update_status. cbn [service_fullname]. destruct (service_fullname a) eqn:Ef; [|by intros n].
  set (a1 := mkAdvertiser _ _ _ _ _). pose proof (unregister_none a1) as Hn. destruct (unregister a1) as [[[]| |] a2]; cbn in Hn.
  - apply register_ok. intros n. by rewrite Hn.
  - intros n. cbn. by rewrite Hn.
  - intros n. cbn. by rewrite Hn.
Qed.

(** What no operation but the status changes. *)
Lemma register_keeps a : config (snd (register a)) = config a /\ mac (snd (register a)) = mac a /\ status (snd (register a)) = status a.
Proof.
  unfold register. destruct (service_fullname a); [done|]. destruct (service_info _ _ _ _ _); [|done..].
  by destruct (daemon_register _ _) as [[[]| |] d].
Qed.

Lemma unregister_keeps a : config (snd (unregister a)) = config a /\ mac (snd (unregister a)) = mac a /\ status (snd (unregister a)) = status a.
Proof. unfold unregister. destruct (service_fullname a); [|done]. by destruct (daemon_unregister _ _). Qed.

Lemma update_keeps a s : config (snd (update_status a s)) = config a /\ mac (snd (update_status a s)) = mac a /\ status (snd (update_status a s)) = s.
Proof.
  unfold update_status. cbn [service_fullname]. destruct (service_fullname a); [|done].
  set (a1 := mkAdvertiser _ _ _ _ _). pose proof (unregister_keeps a1) as Hk. destruct (unregister a1) as [[[]| |] a2]; cbn in Hk; [|done..].
  pose proof (register_keeps a2) as Hr. intuition congruence.
Qed.

Fixpoint last_status (s : ReceiverStatusFlags) (cmds : list AdvertiserCommand) : ReceiverStatusFlags :=
  match cmds with
  | UpdateStatus s :: cmds => last_status s cmds
  | Shutdown :: _ | [] => s
  end.

Lemma run_ok cmds : forall a, advertiser_ok a -> advertiser_ok (run_commands a cmds) /\ config (run_commands a cmds) = config a /\
  mac (run_commands a cmds) = mac a /\ status (run_commands a cmds) = last_status (status a) cmds.
Proof.
  induction cmds as [|[s|] cmds IH]; intros a Ha; cbn; [done| |done].
  destruct (IH _ (update_ok a s Ha)) as (H1 & H2 & H3 & H4). pose proof (update_keeps a s) as (K1 & K2 & K3).
  split_and!; [done|congruence..].
Qed.

(** What is advertised is never out of date. Whatever status updates the background
    task processes, and whatever the daemon answers to them, when the receiver holds a
    registered name at the end, the daemon publishes under it the TXT record of the
    receiver's capabilities and of the last status, with its port. *)
Theorem status_published (a : RaopAdvertiser) (cmds : list AdvertiserCommand) (n : list Z) (Ha : advertiser_ok a)
  (Hn : service_fullname (run_commands a cmds) = Some n) :
  n = instance_name a /\
  exists i, published (daemon (run_commands a cmds)) !! n = Some i /\
    service_parts i = (service_name a, adv_port (config a), from_capabilities (adv_capabilities (config a)) (last_status (status a) cmds)).
Proof.
  destruct (run_ok cmds a Ha) as (Hok & Hc & Hm & Hs). apply Hok in Hn as [-> (i & Hi & Hp)].
  unfold current_service, instance_name, service_name in *. rewrite Hm, Hc, Hs in Hp. rewrite Hm, Hc in *.
  split; [done|]. exists i. done.
Qed.

(** A failed re-registration is never made up for. Once the advertiser has lost its
    name, because withdrawing the old record or publishing the new one failed, every
    further status update is accepted, and none of them publishes anything. *)
Theorem lost_registration (a : RaopAdvertiser) (cmds : list AdvertiserCommand) (s : ReceiverStatusFlags) (Hn : service_fullname a = None) :
  fst (update_status (run_commands a cmds) s) = Ok tt /\
  daemon (snd (update_status (run_commands a cmds) s)) = daemon a /\ service_fullname (run_commands a cmds) = None.
Proof.
  assert (daemon (run_commands a cmds) = daemon a /\ service_fullname (run_commands a cmds) = None) as [Hd Hf].
  { revert a Hn. induction cmds as [|[s'|] cmds IH]; intros a Hn; cbn [run_commands]; [done| |done].
    unfold update_status. cbn [service_fullname]. rewrite Hn. cbn [snd]. by apply (IH (mkAdvertiser (config a) (daemon a) None s' (mac a))). }
  unfold update_status. cbn [service_fullname]. by rewrite Hf.
Qed.
End Registration.

(** ** Advertised and discovered *)

(** A MAC address in the two forms: in the service's name and as an identifier. *)
Lemma show_hex2_spec b : byte_ok b -> Forall (fun c => is_hexdigit c = true /\ upper_char c = [c] /\ c <> 64) (show_hex2 true b).
Proof.
  intros Hb. apply (byte_forallb_spec (fun b => forallb (fun c => is_hexdigit c && bool_decide (upper_char c = [c]) && negb (c =? 64)) (show_hex2 true b)))
    in Hb; [|vm_compute; reflexivity].
  apply Forall_forall. intros c Hc. rewrite forallb_forall in Hb. apply list_elem_of_In, Hb in Hc.
  apply andb_true_iff in Hc as [[Hh Hu%bool_decide_eq_true]%andb_true_iff Hn%negb_true_iff%Z.eqb_neq]. done.
Qed.

Lemma mac_chars m : bytes_ok m -> Forall (fun c => is_hexdigit c = true /\ upper_char c = [c] /\ c <> 64) (format_mac_for_service m).
Proof.
  induction 1 as [|b m Hb Hm IH]; [constructor|]. apply Forall_app. split; [by apply show_hex2_spec|done].
Qed.

Lemma upper_mac m : bytes_ok m -> to_uppercase (format_mac_for_service m) = format_mac_for_service m.
Proof.
  intros Hm%mac_chars. unfold to_uppercase. induction Hm as [|c l (_ & Hc & _) Hl IH]; [done|]. cbn [map concat]. by rewrite Hc, IH.
Qed.

Lemma mac_length m : length (format_mac_for_service m) = (2 * length m)%nat.
Proof. induction m as [|b m IH]; [done|]. cbn. unfold format_mac_for_service in IH. lia. Qed.

Lemma mac_ascii m : bytes_ok m -> utf8_encode (format_mac_for_service m) = format_mac_for_service m.
Proof.
  intros Hm%mac_chars. apply ascii_encode. unfold is_ascii. apply forallb_forall. intros c Hc%list_elem_of_In.
  rewrite Forall_forall in Hm. destruct (Hm c Hc) as (Hh%hexdigit_range & _). lia.
Qed.

Lemma mac_identifier m : length m = 6%nat -> format_mac_address (format_mac_for_service m) = generate_device_id m.
Proof.
  intros _. unfold format_mac_address, format_mac_for_service, generate_device_id, chunks.
  rewrite chunks_fuel_exact; [done|lia| |done]. apply Forall_forall. intros c (b & -> & _)%list_elem_of_fmap. done.
Qed.

(** The first occurrence of a text that begins with a dot. *)
Lemma position_suffix needle n : 46 ∉ n -> position (46 :: needle) (n ++ 46 :: needle) = Some (length n).
Proof.
  induction n as [|c n IH]; intros Hn.
  - cbn [app]. unfold position. rewrite bool_decide_true; [done|]. apply firstn_all.
  - apply not_elem_of_cons in Hn as [Hc Hn]. cbn [app position length take]. rewrite bool_decide_false by congruence. by rewrite IH.
Qed.

Lemma service_name_parses m n : bytes_ok m -> length m = 6%nat -> 46 ∉ n ->
  parse_raop_service_name ((format_mac_for_service m ++ 64 :: n) ++ 46 :: RAOP_SERVICE_TYPE) = Some (format_mac_for_service m, n).
Proof.
  intros Hm Hl Hn. unfold parse_raop_service_name. rewrite <- app_assoc, <- app_comm_cons.
  pose proof (mac_chars m Hm) as Hc. rewrite Forall_forall in Hc.
  rewrite split_at_first by (intros H; by destruct (Hc 64 H) as (_ & _ & ?)).
  rewrite upper_mac, mac_ascii, mac_length, Hl by done. change (bs "._raop._tcp.local.") with (46 :: RAOP_SERVICE_TYPE).
  rewrite position_suffix, take_app_length by done.
  assert (forallb is_hexdigit (format_mac_for_service m) = true) as ->; [|done].
  apply forallb_forall. intros c H%list_elem_of_In. by destruct (Hc c H).
Qed.

(** Lists of numbers read back; unknown numbers are dropped. *)
Lemma split_commas l : l <> [] -> Forall (uint 8) l -> RaopSession.split_char 44 (format_list l) = map Sdp.num l.
Proof.
  assert (forall z, uint 8 z -> Forall (fun c => (c =? 44) = false) (Sdp.num z)) as Hd.
  { intros z Hz. destruct (pretty_spec 8 z) as (Hd & _); [done..|]. eapply Forall_impl; [exact Hd|]. cbn. intros. lia. }
  intros Hne Hl. induction Hl as [|z l Hz Hl IH]; [done|]. unfold format_list, RaopSession.split_char in *. cbn [map].
  destruct l as [|y l]; cbn [map RaopSession.join_with] in *; [by rewrite split_on_word by auto|].
  rewrite split_on_sep by auto. f_equal. by apply IH.
Qed.

Lemma codes_back {A} (from_u8 : Z -> option A) l : Forall (uint 8) l -> parse_codes from_u8 (format_list l) = omap from_u8 l.
Proof.
  intros Hl. unfold parse_codes. destruct (decide (l = [])) as [->|Hne]; [done|]. rewrite split_commas by done. clear Hne.
  induction Hl as [|z l Hz Hl IH]; [done|]. cbn. assert (0 <= z) as Hp by (unfold uint in Hz; lia).
  rewrite trim_no_ws by (by apply (proj2 (Sdp.digits_word z Hp))). rewrite Sdp.parse_num_num by done. cbn. by rewrite IH.
Qed.

(** The capabilities of a receiver as a client has to see them. *)
Definition expected (c : AdvCapabilities) (s : ReceiverStatusFlags) : RaopCapabilities := {|
  txt_version := 1; channels := a_channels c; codecs := omap RaopCodec_from_u8 (a_codecs c);
  encryption_types := omap RaopEncryption_from_u8 (a_encryption_types c); metadata_support := false;
  metadata_types := omap RaopMetadataType_from_u8 (a_metadata_types c); password_required := a_password_required c;
  sample_rate := a_sample_rate c; sample_size := a_sample_size c; transport := bs "UDP";
  server_version := Some (software_version c); r_model := Some (a_model c); r_status_flags := to_flags s |}.

(** The fields of their Rust types. *)
Definition capabilities_ok (c : AdvCapabilities) : Prop :=
  Forall (uint 8) (a_codecs c) /\ Forall (uint 8) (a_encryption_types c) /\ Forall (uint 8) (a_metadata_types c) /\
  uint 8 (a_channels c) /\ uint 32 (a_sample_rate c) /\ uint 8 (a_sample_size c).

Lemma to_flags_range s : uint 32 (to_flags s).
Proof. destruct s as [[] [] [] []]; split; vm_compute; (discriminate || reflexivity). Qed.

Lemma capabilities_back c s : capabilities_ok c -> from_txt_records (from_capabilities c s) = expected c s.
Proof.
  intros (H1 & H2 & H3 & H4 & H5 & H6). unfold from_txt_records.
  assert (forall v1 v2 v3 v4 v5 v6 v7 v8 v9 v10 v11 v12 v13 v14 : list Z,
    let m := txt_add (txt_add (txt_add (txt_add (txt_add (txt_add (txt_add (txt_add (txt_add (txt_add (txt_add (txt_add (txt_add (txt_add txt_new
      (bs "txtvers") v1) (bs "ch") v2) (bs "sr") v3) (bs "ss") v4) (bs "cn") v5) (bs "et") v6) (bs "md") v7) (bs "tp") v8) (bs "pw") v9)
      (bs "am") v10) (bs "vn") v11) (bs "vs") v12) (bs "sf") v13) (bs "ft") v14 in
    m !! bs "txtvers" = Some v1 /\ m !! bs "ch" = Some v2 /\ m !! bs "sr" = Some v3 /\ m !! bs "ss" = Some v4 /\ m !! bs "cn" = Some v5 /\
    m !! bs "et" = Some v6 /\ m !! bs "md" = Some v7 /\ m !! bs "tp" = Some v8 /\ m !! bs "pw" = Some v9 /\ m !! bs "am" = Some v10 /\
    m !! bs "vs" = Some v12 /\ m !! bs "sf" = Some v13 /\ m !! bs "da" = None) as Hl by (intros; split_and!; vm_compute; reflexivity).
  specialize (Hl (bs "1") (Sdp.num (a_channels c)) (Sdp.num (a_sample_rate c)) (Sdp.num (a_sample_size c)) (format_list (a_codecs c))
    (format_list (a_encryption_types c)) (format_list (a_metadata_types c)) (bs "UDP") (if a_password_required c then bs "true" else bs "false")
    (a_model c) (Sdp.num (protocol_version c)) (software_version c) (bs "0x" ++ show_hex false (to_flags s)) (bs "0x4A7FDFD5")).
  cbv zeta in Hl. change (txt_add _ (bs "ft") _) with (from_capabilities c s) in Hl.
  destruct Hl as (-> & -> & -> & -> & -> & -> & -> & -> & -> & -> & -> & -> & ->).
  unfold parse_codec_list, parse_encryption_list, parse_metadata_types, expected. rewrite !codes_back by done.
  rewrite !Sdp.parse_num_num by (done || lia). pose proof (to_flags_range s) as Hf.
  assert (uint 64 (to_flags s)) by (unfold uint in *; lia).
  rewrite (show_hex_trim 32), show_hex_parses by (done || apply Hf). cbn [default]. by destruct (a_password_required c).
Qed.

(** What the daemon delivers of a service: its instance name, its record in any order,
    its port and at least one address. *)
Definition resolved_as (info : ResolvedService) (full : list Z) (txt : Txt) (p : Z) : Prop :=
  fullname info = full /\ properties info ≡ₚ map_to_list txt /\ s_port info = p /\ ips info <> [].

Section Found.
Context (b : DeviceBrowserStream) (info : ResolvedService) (t : Z) (Hf : filter (options b) = None).

(** A RAOP receiver is discovered as what it is. When the advertiser's service is
    resolved by a client that does not know the device yet, the client adds a device
    whose identifier is the receiver's MAC address, with its name and port and exactly
    the capabilities and status it advertises (but no metadata support, which the record
    does not mention); the client then selects RAOP for it, and accepts its encryption
    when it offers none or RSA. *)
Theorem raop_receiver_discovered {M : Mdns} (a : RaopAdvertiser)
  (Hm : bytes_ok (mac a)) (Hl : length (mac a) = 6%nat) (Hn : 46 ∉ adv_name (config a)) (Hc : capabilities_ok (adv_capabilities (config a)))
  (Hi : resolved_as info (service_name a ++ 46 :: RAOP_SERVICE_TYPE) (from_capabilities (adv_capabilities (config a)) (status a)) (adv_port (config a)))
  (Hnew : known_devices b !! generate_device_id (mac a) = None) :
  exists d, fst (handle_resolved b RAOP_SERVICE_TYPE info t) = Some (Added d) /\
    known_devices (snd (handle_resolved b RAOP_SERVICE_TYPE info t)) = <[generate_device_id (mac a) := d]> (known_devices b) /\
    id d = generate_device_id (mac a) /\
    d_name d = adv_name (config a) /\ raop_port d = Some (adv_port (config a)) /\ port d = adv_port (config a) /\
    raop_capabilities d = Some (expected (adv_capabilities (config a)) (status a)) /\
    select_protocol d PreferAirPlay2 = Ok Raop /\
    (0 ∈ a_encryption_types (adv_capabilities (config a)) \/ 1 ∈ a_encryption_types (adv_capabilities (config a)) ->
     check_raop_encryption (expected (adv_capabilities (config a)) (status a)) = Ok tt).
Proof.
  destruct Hi as (Hfull & Hp & Hport & Hips).
  pose proof (service_name_parses (mac a) (adv_name (config a)) Hm Hl Hn) as Hsn. fold (service_name a) in Hsn. rewrite <- Hfull in Hsn.
  assert (service_id RAOP_SERVICE_TYPE info = generate_device_id (mac a)) as Hid.
  { unfold service_id, device_id_of. rewrite bool_decide_true by done. by rewrite Hsn, mac_identifier. }
  rewrite resolved_refreshes by done. cbn [fst snd known_devices]. rewrite Hid, Hnew. eexists. split; [done|]. split; [done|].
  unfold refreshed. cbn zeta. unfold service_id in Hid. rewrite Hid, Hnew. unfold friendly_name_of. rewrite bool_decide_true by done. rewrite Hsn.
  unfold merge_protocol, merge_common. rewrite (bool_decide_false (RAOP_SERVICE_TYPE = AIRPLAY_SERVICE_TYPE)) by (intros [=]).
  rewrite bool_decide_true by done. cbn [id d_name d_model addresses port capabilities raop_port raop_capabilities txt_records last_seen touch].
  rewrite Hport, insert_all_perm with (m := from_capabilities (adv_capabilities (config a)) (status a)) by done. rewrite capabilities_back by done.
  split_and!; try done.
  - by destruct (_ || _).
  - intros He. unfold check_raop_encryption, preferred_encryption, supports_rsa, supports_unencrypted. cbn [encryption_types expected].
    destruct (decide (1 ∈ a_encryption_types (adv_capabilities (config a)))) as [H1|H1].
    + rewrite bool_decide_true; [done|]. apply list_elem_of_omap. by exists 1.
    + destruct He as [H0|]; [|done]. case_bool_decide; [done|]. rewrite bool_decide_true; [done|]. apply list_elem_of_omap. by exists 0.
Qed.

(** The crate's own AirPlay 2 receiver is no AirPlay 2 device to its own client.
    Whatever the configuration, the features the receiver advertises lack the bit the
    client takes for AirPlay 2: the device is added with its identifier, port and
    capabilities, but selecting a protocol for it fails, when AirPlay 2 is preferred and
    when it is forced. *)
Theorem own_receiver_refused {B : Sdp.Base64} (sha256 : list Z -> list Z) (c : Ap2Config) (pk : list Z)
  (Hi : resolved_as info (name c ++ 46 :: AIRPLAY_SERVICE_TYPE) (from_config sha256 c pk) (server_port c))
  (Hnew : known_devices b !! device_id c = None) :
  exists d, fst (handle_resolved b AIRPLAY_SERVICE_TYPE info t) = Some (Added d) /\ id d = device_id c /\ port d = server_port c /\
    capabilities d = from_features (feature_flags c) /\ supports_audio (capabilities d) = true /\
    supports_grouping (capabilities d) = multi_room_enabled c /\
    select_protocol d PreferAirPlay2 = Err NoSupportedProtocol /\ select_protocol d ForceAirPlay2 = Err AirPlay2NotSupported.
Proof.
  destruct Hi as (Hfull & Hp & Hport & Hips). apply insert_all_perm in Hp.
  assert (forall (v1 v2 v3 : list Z) (v4 : option (list Z)) (v5 v6 v7 v8 v9 v10 v11 v12 v13 : list Z),
    let e := entry (entry (entry ∅ (bs "deviceid") v1) (bs "model") v2) (bs "manufacturer") v3 in
    let e := match v4 with Some s => entry e (bs "serialNumber") s | None => e end in
    let e := entry (entry (entry (entry (entry (entry (entry (entry (entry e (bs "fv") v5) (bs "srcvers") v6) (bs "protovers") v7) (bs "features") v8)
      (bs "flags") v9) (bs "pk") v10) (bs "pi") v11) (bs "acl") v12) (bs "vv") v13 in
    e !! bs "deviceid" = Some v1 /\ e !! bs "features" = Some v8) as Hl by (intros; destruct v4; split; vm_compute; reflexivity).
  specialize (Hl (device_id c) (model c) (manufacturer c) (serial_number c) (firmware_version c) (bs "366.0") (bs "1.1")
    (features_text (feature_flags c)) (bs "0x" ++ show_hex true (config_status c)) (Sdp.b64_encode pk)
    (derive_pairing_identity sha256 (device_id c)) (bs "0") (bs "2")).
  cbv zeta in Hl. change (entry _ (bs "vv") _) with (from_config sha256 c pk) in Hl. destruct Hl as [Hid Hft].
  assert (service_id AIRPLAY_SERVICE_TYPE info = device_id c) as Hs.
  { unfold service_id, device_id_of. rewrite bool_decide_false by (intros [=]). by rewrite Hp, Hid. }
  assert (parse_features (features_text (feature_flags c)) = Some (from_features (feature_flags c))) as Hpf
    by (unfold feature_flags; destruct (multi_room_enabled c); vm_compute; reflexivity).
  rewrite resolved_refreshes by done. cbn [fst]. rewrite Hs, Hnew. eexists. split; [done|].
  unfold refreshed. cbn zeta. unfold service_id in Hs. rewrite Hs, Hnew, Hp. unfold merge_protocol, merge_common.
  rewrite bool_decide_true by done. cbn [id d_name d_model addresses port capabilities raop_port raop_capabilities txt_records last_seen touch].
  rewrite Hft. cbn [mbind option_bind]. rewrite Hpf, Hport.
  unfold feature_flags. split_and!; try done; destruct (multi_room_enabled c); vm_compute; reflexivity.
Qed.
End Found.

(** ** Witnesses *)

(** A daemon that publishes whatever it is given. *)
#[local] Instance demo_mdns : Mdns := {|
  ServiceInfo := list Z * list Z * Z * Txt; MdnsError := unit; Daemon := gmap (list Z) (list Z * list Z * Z * Txt);
  daemon_new := Ok ∅;
  service_info ty n _ p txt := Ok (n ++ 46 :: ty, n, p, txt);
  get_fullname i := i.1.1.1;
  daemon_register d i := (Ok tt, <[i.1.1.1 := i]> d);
  daemon_unregister d n := (Ok tt, delete n d)
|}.
#[local] Instance demo_mdns_laws : MdnsLaws demo_mdns.
Proof.
  refine {| published := (fun d => d) : @Daemon demo_mdns -> _; service_parts := (fun i => (i.1.1.2, i.1.2, i.2)) : @ServiceInfo demo_mdns -> _ |}.
  - intros ty n h p txt i [= <-]. done.
  - intros d i r d' [= <- <-]. done.
  - intros d n r d' [= <- <-]. done.
Defined.
#[local] Instance demo_lower : Lowercase := fun s => s.

Definition demo_advertiser : RaopAdvertiser :=
  snd (register (mkAdvertiser (mkAdvConfig (bs "Kitchen") 5000 (AdvCapabilities_default (bs "0.1.0")) None) (∅ : @Daemon demo_mdns) None RStatus_default [0; 1; 0xAB; 3; 4; 255])).
Definition demo_busy : ReceiverStatusFlags := mkRStatus false false true false.

Lemma status_published_witness :
  bs "0001AB0304FF@Kitchen._raop._tcp.local." = instance_name demo_advertiser /\
  exists i, published (daemon (run_commands demo_advertiser [UpdateStatus demo_busy])) !! bs "0001AB0304FF@Kitchen._raop._tcp.local." = Some i /\
    service_parts i = (service_name demo_advertiser, 5000, from_capabilities (AdvCapabilities_default (bs "0.1.0")) demo_busy).
Proof.
  apply (status_published demo_advertiser [UpdateStatus demo_busy]); [|vm_compute; reflexivity].
  intros n [= <-]. split; [vm_compute; reflexivity|]. eexists. split; [vm_compute; reflexivity|]. vm_compute. reflexivity.
Defined.

Lemma lost_registration_witness :
  fst (update_status (run_commands (snd (unregister demo_advertiser)) [UpdateStatus demo_busy]) RStatus_default) = Ok tt /\
  daemon (snd (update_status (run_commands (snd (unregister demo_advertiser)) [UpdateStatus demo_busy]) RStatus_default)) = ∅ /\
  service_fullname (run_commands (snd (unregister demo_advertiser)) [UpdateStatus demo_busy]) = None.
Proof. apply (lost_registration (snd (unregister demo_advertiser)) [UpdateStatus demo_busy] RStatus_default). reflexivity. Defined.

Definition demo_found : ResolvedService :=
  mkResolved (bs "0001AB0304FF@Kitchen._raop._tcp.local.") (map_to_list (from_capabilities (AdvCapabilities_default (bs "0.1.0")) RStatus_default)) [V4 1] 5000.

Lemma raop_receiver_discovered_witness :
  exists d, fst (handle_resolved (Browser_new Options_default) RAOP_SERVICE_TYPE demo_found 9) = Some (Added d) /\
    d_name d = bs "Kitchen" /\ id d = bs "00:01:AB:03:04:FF" /\ select_protocol d PreferAirPlay2 = Ok Raop.
Proof.
  destruct (raop_receiver_discovered (Browser_new Options_default) demo_found 9 eq_refl demo_advertiser) as (d & He & _ & Hid & Hn & _ & _ & _ & Hs & _).
  - repeat constructor; lia.
  - reflexivity.
  - apply Sdp.forallb_neq. reflexivity.
  - split_and!; try (repeat constructor); unfold uint; cbn; lia.
  - split_and!; [vm_compute; reflexivity|reflexivity|reflexivity|discriminate].
  - reflexivity.
  - exists d. split_and!; [exact He|exact Hn|exact Hid|exact Hs].
Defined.

#[local] Instance demo_base64 : Sdp.Base64 :=
  {| Sdp.b64_encode := fun d => d; Sdp.b64_decode := Some; Sdp.b64np_encode := fun d => d; Sdp.b64np_decode := Some |}.
Definition demo_config : Ap2Config := Config_new [1; 2; 3; 4; 5; 6] (bs "0.1.0") (bs "Kitchen").
Definition demo_own : ResolvedService :=
  mkResolved (bs "Kitchen._airplay._tcp.local.") (map_to_list (from_config (fun d => d) demo_config [])) [V4 1] 7000.

Lemma own_receiver_refused_witness :
  exists d, fst (handle_resolved (Browser_new Options_default) AIRPLAY_SERVICE_TYPE demo_own 9) = Some (Added d) /\
    id d = bs "01:02:03:04:05:06" /\ select_protocol d PreferAirPlay2 = Err NoSupportedProtocol.
Proof.
  destruct (own_receiver_refused (Browser_new Options_default) demo_own 9 eq_refl (fun d => d) demo_config []) as (d & He & Hid & _ & _ & _ & _ & Hs & _).
  - split_and!; [vm_compute; reflexivity|reflexivity|reflexivity|discriminate].
  - reflexivity.
  - exists d. split_and!; [exact He|exact Hid|exact Hs].
Defined.

End Advertise.
