(* ===== verification/Ap2Control.v ===== *)
(** * Commands, metadata and volume on the AirPlay 2 receiver

    Models [src/receiver/ap2/command_handler.rs], [metadata_handler.rs] and
    [volume_handler.rs] of the same directory.  The controllers behind locks are
    states that a call takes and returns; their locks are not poisoned, since no
    holder panics. *)

From stdpp Require Import gmap.
From S2P Require Import Bytes Text Unicode Rtsp Plist RtspParser Ap2Body Ap2Request Sdp Dmap RaopSession.

Module Ap2Control.
Import Unicode Rtsp Plist Ap2Body Ap2Request.

(** ** Commands *)

(** [i as f32] of an [i64]: to the nearest, ties to even; the result is the bits. *)
Definition f32_of_i64 (i : Z) : Z :=
  let m := Z.abs i in
  if m =? 0 then 0
  else
    let e := Z.log2 m in
    let q := if e <=? 23 then Z.shiftl m (23 - e)
             else
               let sh := e - 23 in
               let q := Z.shiftr m sh in
               let rem := m mod 2 ^ sh in
               let half := 2 ^ (sh - 1) in
               if (half <? rem) || ((rem =? half) && Z.odd q) then q + 1 else q in
    (if i <? 0 then 2 ^ 31 else 0) + Z.shiftl (e + 127) 23 + (q - 2 ^ 23).

Definition command_from_plist (v : PlistValue) : option PlaybackCommand :=
  t ← get_string v (bs "type");
  if bool_decide (t = bs "play") then Some CPlay
  else if bool_decide (t = bs "pause") then Some CPause
  else if bool_decide (t = bs "stop") then Some CStop
  else if bool_decide (t = bs "nextItem") || bool_decide (t = bs "skipNext") then Some SkipNext
  else if bool_decide (t = bs "previousItem") || bool_decide (t = bs "skipPrevious") then Some SkipPrevious
  else if bool_decide (t = bs "seekToPosition") then
    p ← get_int v (bs "position"); if 0 <=? p then Some (Seek p) else None
  else if bool_decide (t = bs "setPlaybackRate") then
    Some (SetRate (match get_int v (bs "rate") with Some i => f32_of_i64 i | None => RaopSession.F32_ONE end))
  else Some (UnknownCommand t).

Section Handlers.
Context {O : HashOrder}.

Definition handle_command (request : RtspRequest) (cseq : Z) : outcome Empty_set Ap2HandleResult :=
  match parse_bplist_body (body request) with
  | Ok v =>
      match command_from_plist v with
      | None => Ok (error_reply BAD_REQUEST cseq (Some (ErrorText "Failed to parse command: missing or invalid type")))
      | Some command =>
          match encode_bplist_body (Dictionary (dict_insert (bs "status") (Integer 0) [])) with
          | Ok b =>
              Ok {| response := Builder_encode (Ap2_binary_body (Builder_header (Builder_cseq Builder_ok cseq) "Content-Type" BINARY_PLIST) b);
                    new_state := None; event := Some (CommandReceived command); error := None |}
          | Err e => Ok (error_reply INTERNAL_ERROR cseq (Some (BodyFailed "Failed to encode response: " e)))
          | Panic => Panic
          end
      end
  | Err e => Ok (error_reply BAD_REQUEST cseq (Some (BodyFailed "Failed to parse command: " e)))
  | Panic => Panic
  end.

Definition acknowledge (cseq : Z) : Ap2HandleResult :=
  {| response := Builder_encode (Builder_cseq Builder_ok cseq); new_state := None; event := None; error := None |}.

Definition handle_feedback (request : RtspRequest) (cseq : Z) : outcome Empty_set Ap2HandleResult :=
  if bool_decide (body request = []) then Ok (acknowledge cseq)
  else
    match parse_bplist_body (body request) with
    | Ok _ => Ok (acknowledge cseq)
    | Err e => Ok (error_reply BAD_REQUEST cseq (Some (BodyFailed "Failed to parse feedback: " e)))
    | Panic => Panic
    end.
End Handlers.

(** ** Metadata *)
Record TrackMetadata := mkTrack {
  title : option (list Z); artist : option (list Z); album : option (list Z); genre : option (list Z);
  duration_ms : option Z; track_number : option Z; disc_number : option Z
}.
Definition Track_default : TrackMetadata := mkTrack None None None None None None None.
Record Artwork := mkArt { art_data : list Z; art_mime : string }.
Record MetadataController := mkController { metadata : TrackMetadata; artwork : option Artwork }.
Definition Controller_new : MetadataController := mkController Track_default None.

(** The arms of the match; [*i as u32] keeps the low 32 bits. *)
Definition extract_item (rec : Dmap.DmapValue -> TrackMetadata -> TrackMetadata) (m : TrackMetadata) (item : Dmap.DmapTag * Dmap.DmapValue) : TrackMetadata :=
  let '(tag, v) := item in
  let text (f : list Z -> TrackMetadata) := match v with Dmap.DString s => f s | _ => m end in
  let number (f : Z -> TrackMetadata) := match v with Dmap.Int i => f (wrap 32 i) | _ => m end in
  match tag with
  | Dmap.ItemName => text (fun s => mkTrack (Some s) (artist m) (album m) (genre m) (duration_ms m) (track_number m) (disc_number m))
  | Dmap.SongArtist => text (fun s => mkTrack (title m) (Some s) (album m) (genre m) (duration_ms m) (track_number m) (disc_number m))
  | Dmap.SongAlbum => text (fun s => mkTrack (title m) (artist m) (Some s) (genre m) (duration_ms m) (track_number m) (disc_number m))
  | Dmap.SongGenre => text (fun s => mkTrack (title m) (artist m) (album m) (Some s) (duration_ms m) (track_number m) (disc_number m))
  | Dmap.SongTime => number (fun i => mkTrack (title m) (artist m) (album m) (genre m) (Some i) (track_number m) (disc_number m))
  | Dmap.SongTrackNumber => number (fun i => mkTrack (title m) (artist m) (album m) (genre m) (duration_ms m) (Some i) (disc_number m))
  | Dmap.SongDiscNumber => number (fun i => mkTrack (title m) (artist m) (album m) (genre m) (duration_ms m) (track_number m) (Some i))
  | _ => match v with Dmap.Container _ => rec v m | _ => m end
  end.

Fixpoint extract_metadata (v : Dmap.DmapValue) (m : TrackMetadata) : TrackMetadata :=
  match v with
  | Dmap.Container items => foldl (extract_item extract_metadata) m items
  | _ => m
  end.

Inductive MetadataError := DmapParseError (e : option Dmap.DmapDecodeError).

Definition update_metadata (c : MetadataController) (data : list Z) : outcome MetadataError unit * MetadataController :=
  match Dmap.parse data with
  | Ok v => (Ok tt, mkController (extract_metadata v (metadata c)) (artwork c))
  | Err e => (Err (DmapParseError e), c)
  | Panic => (Panic, c)
  end.
Definition update_artwork (c : MetadataController) (d : list Z) (mime : string) : MetadataController :=
  mkController (metadata c) (Some (mkArt d mime)).
Definition clear (c : MetadataController) : MetadataController := mkController Track_default None.

(** ** Volume *)
Record VolumeController := mkVolume { volume_db : Z; muted : bool }.
Definition F32_MINUS_20 : Z := 0xC1A00000.
Definition Volume_new : VolumeController := mkVolume F32_MINUS_20 false.

Inductive VolumeError := VParseError | MissingVolume | InvalidValue.
Definition VolumeError_to_string (e : VolumeError) : string :=
  match e with
  | VParseError => "Failed to parse volume parameters"
  | MissingVolume => "Missing volume parameter"
  | InvalidValue => "Invalid volume value"
  end.

Definition set_volume_db (c : VolumeController) (v : Z) : VolumeController :=
  mkVolume (RaopSession.f32_clamp v RaopSession.VOLUME_MIN_DB RaopSession.VOLUME_MAX_DB) (muted c).
Definition set_muted (c : VolumeController) (b : bool) : VolumeController := mkVolume (volume_db c) b.

Section WithFloats.
Context {O : HashOrder} {F : Floats}.

Definition volume_linear (c : VolumeController) : Z :=
  if RaopSession.f32_le (volume_db c) RaopSession.VOLUME_MIN_DB then 0 else db_power (volume_db c).

(** The volume that is returned is the one that was asked for, before clamping. *)
Definition handle_set_volume (c : VolumeController) (body : list Z) : outcome VolumeError Z * VolumeController :=
  match parse_text_parameters body with
  | Ok params =>
      match params !! bs "volume" with
      | None => (Err MissingVolume, c)
      | Some text =>
          match parse_f32 text with
          | Some v => (Ok v, set_volume_db c v)
          | None => (Err InvalidValue, c)
          end
      end
  | Err _ => (Err VParseError, c)
  | Panic => (Panic, c)
  end.

Definition handle_volume_set_parameter (request : RtspRequest) (cseq : Z) (c : VolumeController) : outcome Empty_set Ap2HandleResult * VolumeController :=
  match handle_set_volume c (body request) with
  | (Ok v, c) => (Ok {| response := Builder_encode (Builder_cseq Builder_ok cseq); new_state := None; event := Some (VolumeChanged v); error := None |}, c)
  | (Err e, c) => (Ok (error_reply BAD_REQUEST cseq (Some (ErrorText (VolumeError_to_string e)))), c)
  | (Panic, c) => (Panic, c)
  end.
End WithFloats.

(** ** Metadata from the client *)

(** What the client set replaces, the rest stays. *)
Definition updated (m : Dmap.TrackMetadata) (t : TrackMetadata) : TrackMetadata :=
  mkTrack (Dmap.or_old (Dmap.title m) (title t)) (Dmap.or_old (Dmap.artist m) (artist t)) (Dmap.or_old (Dmap.album m) (album t))
    (Dmap.or_old (Dmap.genre m) (genre t)) (Dmap.or_old (Dmap.duration_ms m) (duration_ms t))
    (Dmap.or_old (Dmap.track_number m) (track_number t)) (Dmap.or_old (Dmap.disc_number m) (disc_number t)).

(** Texts without control characters, numbers of 32 bits, less than 4 GiB in all. *)
Definition client_metadata_ok (m : Dmap.TrackMetadata) : Prop :=
  Forall (fun o => forall s, o = Some s -> string_ok s /\ Dmap.plain_text s = true) [Dmap.title m; Dmap.artist m; Dmap.album m; Dmap.genre m] /\
  Forall (fun o => forall z, o = Some z -> uint 32 z) [Dmap.track_number m; Dmap.disc_number m; Dmap.year m; Dmap.duration_ms m] /\
  Z.of_nat (Dmap.items_size [(Dmap.ListingItem, Dmap.Container (Dmap.metadata_items m))]) < 2 ^ 32.

Lemma client_items_ok m : client_metadata_ok m -> Dmap.items_ok [(Dmap.ListingItem, Dmap.Container (Dmap.metadata_items m))].
Proof.
  intros (Ht & Hn & _). rewrite !Forall_cons in Ht. rewrite !Forall_cons in Hn. destruct Ht as (H1 & H2 & H3 & H4 & _), Hn as (N1 & N2 & N3 & N4 & _).
  assert (forall z, uint 32 z -> sint 64 z) as Hw by (unfold uint, sint; lia).
  unfold Dmap.items_ok, Dmap.metadata_items, Dmap.text_item, Dmap.number_item, Dmap.tag_ok. cbn. split; [|done]. split; [done|]. split; [done|].
  destruct m as [[?|] [?|] [?|] [?|] [?|] [?|] [?|] [?|]]; cbn in *; repeat split; try done; naive_solver.
Qed.

Lemma extract_updated m t : client_metadata_ok m ->
  extract_metadata (Dmap.Container [(Dmap.ListingItem, Dmap.Container (Dmap.metadata_items m))]) t = updated m t.
Proof.
  intros (_ & Hn & _). rewrite !Forall_cons in Hn. destruct Hn as (N1 & N2 & _ & N4 & _).
  assert (forall z, uint 32 z -> wrap 32 z = z) as Hw by (intros; by apply wrap_small).
  unfold Dmap.metadata_items, Dmap.text_item, Dmap.number_item, updated.
  destruct m as [[?|] [?|] [?|] [?|] [?|] [?|] [?|] [?|]], t; cbn in *; rewrite ?Hw by eauto; reflexivity.
Qed.

(** The AirPlay 2 receiver reads the client's metadata. Whatever fields the client
    sets, the bytes it sends make the receiver's controller hold exactly these, through
    the container they are wrapped in, and keep what it had for the others; the artwork
    is not touched. *)
Theorem client_metadata_received (c : MetadataController) (m : Dmap.TrackMetadata) (Hm : client_metadata_ok m) :
  exists data, Dmap.encode_dmap (E := Empty_set) m = Ok data /\
    update_metadata c data = (Ok tt, mkController (updated m (metadata c)) (artwork c)).
Proof.
  destruct (Dmap.items_roundtrip [(Dmap.ListingItem, Dmap.Container (Dmap.metadata_items m))]) as (data & He & Hp);
    [by apply client_items_ok|by destruct Hm as (_ & _ & H)|].
  exists data. split.
  - unfold Dmap.encode_dmap, Dmap.encode_tag. cbn [Dmap.encode_items] in He. revert He. cbn [mbind outcome_bind Dmap.Encoder_new app].
    destruct (Dmap.encode_value _) as [v| |]; cbn [mbind outcome_bind]; [|done..]. rewrite app_nil_r. done.
  - unfold update_metadata. rewrite Hp, extract_updated by done. done.
Qed.

(** ** Witnesses *)
Definition demo_metadata : Dmap.TrackMetadata := Dmap.mkMetadata (Some (bs "Song")) None None (Some (bs "Jazz")) (Some 3) None None (Some 240000).

Lemma client_metadata_received_witness : exists data, Dmap.encode_dmap (E := Empty_set) demo_metadata = Ok data /\
  update_metadata Controller_new data = (Ok tt, mkController (mkTrack (Some (bs "Song")) None None (Some (bs "Jazz")) (Some 240000) (Some 3) None) None).
Proof.
  apply (client_metadata_received Controller_new demo_metadata). split_and!; [| |vm_compute; reflexivity].
  - rewrite !Forall_cons. unfold demo_metadata. cbn [Dmap.title Dmap.artist Dmap.album Dmap.genre].
    split_and!; try apply Forall_nil_2; intros s Hs; try discriminate Hs;
      injection Hs as <-; (split; [repeat (apply Forall_cons_2; [unfold scalar; lia|]); apply Forall_nil_2|reflexivity]).
  - rewrite !Forall_cons. cbn. split_and!; try apply Forall_nil_2; intros z Hz; try discriminate Hz; injection Hz as <-; split; cbn; lia.
Defined.

Example rates : map f32_of_i64 [0; 1; -1; 2; 16777217; 16777219; 2 ^ 62] = [0; 0x3F800000; 0xBF800000; 0x40000000; 0x4B800000; 0x4B800002; 0x5E800000].
Proof. vm_compute. reflexivity. Qed.

End Ap2Control.
