(* ===== verification/RaopServer.v ===== *)
(** * The RAOP receiver: session manager and connections

    Models [src/receiver/session_manager.rs] and the per-connection loop of
    [src/receiver/server.rs].  The manager's locks delimit atomic sections: each
    asynchronous operation is a sequence of them, written as separate functions
    and composed in the order of the code; [step] is their interleaving by any
    number of tasks.  Sockets are their local ports; what the operating system
    answers to [bind] is the argument [bind]. *)

From stdpp Require Import gmap pretty.
From S2P Require Import Text Unicode Rtsp RtspParser Sdp Dmap RaopSession.

Module RaopServer.
Import Rtsp RtspParser Sdp RaopSession.

(** ** Configuration, events and state *)
Inductive PreemptionPolicy := Reject | AllowPreempt | Queue.

Record SessionManagerConfig := mkConfig {
  idle_timeout : Z; max_duration : Z; preemption_policy : PreemptionPolicy; udp_base_port : Z; udp_port_range : Z
}.
Definition Config_default : SessionManagerConfig := mkConfig 60000000000 0 AllowPreempt 6000 100.

Inductive SessionEvent :=
| SessionStarted (session_id client : string)
| StateChanged (session_id : string) (new_state : SessionState)
| SessionEnded (session_id reason : string)
| VolumeChanged (session_id : string) (volume : Z).

Record PortAllocator := mkAllocator { base : Z; range : Z; next : Z }.
Definition PortAllocator_new (b r : Z) : PortAllocator := mkAllocator b r 0.

(** The additions are on 16 bits: overflow panics. *)
Definition allocate_trio {E} (a : PortAllocator) : outcome E ((Z * Z * Z) * PortAllocator) :=
  n ← chk_u 16 (next a + 3);
  let offset := if range a <? n then 0 else next a in
  next' ← chk_u 16 (offset + 3);
  p0 ← chk_u 16 (base a + offset);
  p1 ← chk_u 16 (p0 + 1);
  p2 ← chk_u 16 (p0 + 2);
  Ok ((p0, p1, p2), mkAllocator (base a) (range a) next').

Record SessionManager := mkManager {
  m_config : SessionManagerConfig; active_session : option ReceiverSession; m_sockets : option (Z * Z * Z);
  port_allocator : PortAllocator; events : list SessionEvent
}.
Definition Manager_new (c : SessionManagerConfig) : SessionManager :=
  mkManager c None None (PortAllocator_new (udp_base_port c) (udp_port_range c)) [].

Definition has_active_session (m : SessionManager) : bool := bool_decide (is_Some (active_session m)).
Definition current_session_id (m : SessionManager) : option string := id <$> active_session m.

Definition with_active (m : SessionManager) (s : option ReceiverSession) : SessionManager :=
  mkManager (m_config m) s (m_sockets m) (port_allocator m) (events m).
Definition with_sockets (m : SessionManager) (k : option (Z * Z * Z)) : SessionManager :=
  mkManager (m_config m) (active_session m) k (port_allocator m) (events m).
Definition with_allocator (m : SessionManager) (a : PortAllocator) : SessionManager :=
  mkManager (m_config m) (active_session m) (m_sockets m) a (events m).
Definition send_event (m : SessionManager) (e : SessionEvent) : SessionManager :=
  mkManager (m_config m) (active_session m) (m_sockets m) (port_allocator m) (events m ++ [e]).

(** ** Atomic sections *)
Definition cleanup_sockets (m : SessionManager) : SessionManager := with_sockets m None.

(** *** [start_session]: the first lock, the clean-up, the second lock *)
Definition start_take (m : SessionManager) : outcome SessionError (option ReceiverSession) * SessionManager :=
  match active_session m with
  | Some s =>
      match preemption_policy (m_config m) with
      | AllowPreempt => (Ok (Some s), with_active m None)
      | Reject | Queue => (Err Busy, m)
      end
  | None => (Ok None, m)
  end.

Definition start_insert (m : SessionManager) (addr sid : string) (now : Z) : outcome SessionError string * SessionManager :=
  let insert m := (Ok sid, with_active (send_event m (SessionStarted sid addr)) (Some (Session_new sid addr now))) in
  match active_session m with
  | Some existing =>
      match preemption_policy (m_config m) with
      | AllowPreempt => insert (send_event m (SessionEnded (id existing) "Preempted by new connection (race)"))
      | Reject | Queue => (Err Busy, m)
      end
  | None => insert m
  end.

Definition PREEMPTED : string := "Preempted by new connection".

(** Without interleaving. *)
Definition start_session (m : SessionManager) (addr sid : string) (now : Z) : outcome SessionError string * SessionManager :=
  let '(r, m) := start_take m in
  match r with
  | Ok old =>
      let m := match old with
               | Some s => send_event (cleanup_sockets m) (SessionEnded (id s) PREEMPTED)
               | None => m
               end in
      start_insert m addr sid now
  | Err e => (Err e, m)
  | Panic => (Panic, m)
  end.

(** *** [end_session] *)
Definition end_take (m : SessionManager) : option ReceiverSession * SessionManager := (active_session m, with_active m None).
Definition end_session (m : SessionManager) (reason : string) : SessionManager :=
  let '(old, m) := end_take m in
  match old with
  | Some s => send_event (cleanup_sockets m) (SessionEnded (id s) reason)
  | None => m
  end.

(** *** [enforce_timeouts] *)
Definition timeouts_take (m : SessionManager) (now : Z) : option (ReceiverSession * string) * SessionManager :=
  match active_session m with
  | Some s =>
      if is_timed_out s (idle_timeout (m_config m)) now then (Some (s, "Idle timeout"), with_active m None)
      else if (0 <? max_duration (m_config m)) && (max_duration (m_config m) <? age s now)
      then (Some (s, "Maximum duration exceeded"), with_active m None)
      else (None, m)
  | None => (None, m)
  end.
Definition enforce_timeouts (m : SessionManager) (now : Z) : SessionManager :=
  let '(old, m) := timeouts_take m now in
  match old with
  | Some (s, reason) => send_event (cleanup_sockets m) (SessionEnded (id s) reason)
  | None => m
  end.
Definition check_timeout (m : SessionManager) (now : Z) : bool :=
  match active_session m with Some s => is_timed_out s (idle_timeout (m_config m)) now | None => false end.

(** *** Operations under one lock *)
Definition update_state (m : SessionManager) (st : SessionState) (now : Z) : outcome SessionError unit * SessionManager :=
  match active_session m with
  | None => (Err (NotFound "No active session"), m)
  | Some s =>
      match set_state s st now with
      | Ok s' => (Ok tt, send_event (with_active m (Some s')) (StateChanged (id s') st))
      | Err e => (Err e, m)
      | Panic => (Panic, m)
      end
  end.

(** The event carries the volume as it was asked for. *)
Definition manager_set_volume (m : SessionManager) (v now : Z) : SessionManager :=
  match active_session m with
  | Some s => send_event (with_active m (Some (set_volume s v now))) (VolumeChanged (id s) v)
  | None => m
  end.
Definition touch_session (m : SessionManager) (now : Z) : SessionManager :=
  match active_session m with Some s => with_active m (Some (touch s now)) | None => m end.
Definition with_session {A} (m : SessionManager) (f : ReceiverSession -> A * ReceiverSession)
  : outcome SessionError A * SessionManager :=
  match active_session m with
  | None => (Err (NotFound "No active session"), m)
  | Some s => let '(a, s') := f s in (Ok a, with_active m (Some s'))
  end.

(** *** [allocate_sockets] *)
Section Sockets.
(** The answer of [UdpSocket::bind] for a port at the [n]-th call: the local port. *)
Variable bind : nat -> Z -> option Z.

(** Binds three sockets; a failure drops those already bound. *)
Definition try_bind (n : nat) (a c t : Z) : option (Z * Z * Z) :=
  a' ← bind n a; c' ← bind (n + 1) c; t' ← bind (n + 2) t; Some (a', c', t').

(** The five attempts: all with the first trio, the later ones only end the loop. *)
Fixpoint bind_loop {E} (tries n : nat) (trio : Z * Z * Z) (m : SessionManager)
  : outcome E (option (Z * Z * Z) * SessionManager) :=
  let '(a, c, t) := trio in
  match tries with
  | O => Ok (None, m)
  | S tries =>
      match try_bind n a c t with
      | Some ports => Ok (Some ports, with_sockets m (Some ports))
      | None =>
          '((na, _, _), alloc) ← allocate_trio (port_allocator m);
          let m := with_allocator m alloc in
          if na =? a then Ok (None, m) else bind_loop tries (n + 3) trio m
      end
  end.

(** Without ports: the I/O error of the fallback. *)
Definition allocate_sockets {E} (m : SessionManager) : outcome E (option (Z * Z * Z) * SessionManager) :=
  '(trio, alloc) ← allocate_trio (port_allocator m);
  '(r, m) ← bind_loop 5 0 trio (with_allocator m alloc);
  match r with
  | Some ports => Ok (Some ports, m)
  | None =>
      match try_bind 15 0 0 0 with
      | Some ports => Ok (Some ports, with_sockets m (Some ports))
      | None => Ok (None, m)
      end
  end.
End Sockets.

(** ** Connections ([server.rs]) *)
Inductive ReceiverEvent :=
| Started (name : string) (port : Z)
| Stopped
| ClientConnected (address : string) (user_agent : option string)
| ClientDisconnected (address reason : string)
| PlaybackStarted
| PlaybackPaused
| PlaybackStopped
| EVolumeChanged (db linear : Z) (muted : bool)
| MetadataUpdated (m : Dmap.ReceivedMetadata)
| ArtworkUpdated (a : Dmap.ReceivedArtwork)
| ProgressUpdated (p : PlaybackProgress)
| BufferStatus (fill : Z) (underrun : bool)
| EError (message : string) (recoverable : bool).

(** The text of an I/O error is the system's. *)
Inductive ReceiverError := AlreadyRunning | Advertisement (s : string) | Network | ESession (s : string) | Audio (s : string) | Io.

(** What the outside supplies while one request is handled: the time, the random
    identifier, the system's answers to [bind], and whether the write succeeds. *)
Record Env := mkEnv { e_now : Z; e_sid : string; e_bind : nat -> Z -> option Z; e_write_ok : bool }.

(** The shared manager and event channel, and what the connection has written. *)
Record World := mkWorld { manager : SessionManager; r_events : list ReceiverEvent; out : list Z; served : nat }.

Definition emit (w : World) (e : ReceiverEvent) : World := mkWorld (manager w) (r_events w ++ [e]) (out w) (served w).
Definition with_manager (w : World) (m : SessionManager) : World := mkWorld m (r_events w) (out w) (served w).

Definition state_name (s : SessionState) : string :=
  match s with
  | Connected => "Connected" | Announced => "Announced" | Setup => "Setup" | Streaming => "Streaming"
  | Paused => "Paused" | Teardown => "Teardown" | Closed => "Closed"
  end.
(** [to_string] of a session error. *)
Definition session_error_text (e : SessionError) : string :=
  match e with
  | NotFound s => "Session not found: " +:+ s
  | Busy => "Session busy: another session is active"
  | Timeout => "Session timed out"
  | InvalidTransition from to => "Invalid state transition from " +:+ state_name from +:+ " to " +:+ state_name to
  end.

Definition process_update (now : Z) (w : World) (u : ParameterUpdate) : World :=
  match u with
  | UVolume v => emit (with_manager w (manager_set_volume (manager w) (db v) now)) (EVolumeChanged (db v) (linear v) (muted v))
  | UMetadata m => emit w (MetadataUpdated m)
  | UProgress p => emit w (ProgressUpdated p)
  | UArtwork a => emit w (ArtworkUpdated a)
  | UUnknown _ => w
  end.
Definition process_parameter_updates (now : Z) (us : list ParameterUpdate) (w : World) : World :=
  foldl (process_update now) w us.

Definition set_response_header (r : RtspResponse) (name value : string) : RtspResponse :=
  {| version := version r; status := status r; reason := reason r;
     resp_headers := Headers_insert (resp_headers r) name value; resp_body := resp_body r |}.

Definition handle_setup_ports (e : Env) (addr : string) (ports_req : AllocatedPorts) (r : RtspRequest) (resp : RtspResponse)
  (m : SessionManager) : outcome ReceiverError (option RtspResponse * SessionManager) :=
  '(ports, m) ← allocate_sockets (e_bind e) m;
  match ports with
  | None => Ok (None, m)
  | Some (a, c, t) =>
  let m := snd (with_session m (fun s => (tt, set_sockets s
             (mkSockets a c t (ap_client_control ports_req) (ap_client_timing ports_req) (Some addr)) (e_now e)))) in
  let resp := match Headers_get (headers r) "Transport" with
              | Some transport_str =>
                  match Transport_parse (chars_of transport_str) with
                  | Ok tr => set_response_header resp "Transport" (of_chars (to_response_header tr a c t))
                  | _ => resp
                  end
              | None => resp
              end in
  Ok (Some resp, m)
  end.

(** Whether the loop over the decoded requests goes on. *)
Inductive Flow := Next | Stop.

Definition playback_event (st : SessionState) (w : World) : World :=
  match st with
  | Streaming => emit w PlaybackStarted
  | Paused => emit w PlaybackPaused
  | Teardown => emit w PlaybackStopped
  | _ => w
  end.

Section Connection.
Context {O : HashOrder} {F : Floats} {B : Base64} {R : Rsa}.

(** The state changes after the response was written; an invalid transition is
    ignored, its playback event is not. *)
Definition after_response (e : Env) (result : HandleResult) (w : World) : World :=
  match new_state result with
  | Some st => playback_event st (with_manager w (snd (update_state (manager w) st (e_now e))))
  | None => w
  end.

(** The response, with the ports of a SETUP filled in; none if no socket could be
    bound. *)
Definition finish_response (e : Env) (addr : string) (r : RtspRequest) (result : HandleResult) (w : World)
  : outcome ReceiverError (option RtspResponse * World) :=
  match allocated_ports result with
  | Some ports =>
      '(resp, m) ← handle_setup_ports e addr ports r (response result) (manager w);
      Ok (resp, with_manager w m)
  | None => Ok (Some (response result), w)
  end.

(** The body of [while let Ok(Some(request)) = codec.decode()]. *)
Definition handle_one (env : nat -> Env) (addr : string) (r : RtspRequest) (w : World) : outcome ReceiverError Flow * World :=
  let e := env (served w) in
  let w := mkWorld (manager w) (r_events w) (out w) (S (served w)) in
  match active_session (manager w) with
  | None => (Err (ESession (session_error_text (NotFound "No active session"))), w)
  | Some s =>
      match handle_request r s None (e_sid e) with
      | Ok result =>
          let w := process_parameter_updates (e_now e) (parameter_updates result) w in
          match finish_response e addr r result w with
          | Ok (None, w) => (Err Network, w)
          | Ok (Some resp, w) =>
              if e_write_ok e then
                let w := mkWorld (manager w) (r_events w) (out w ++ encode_response resp) (served w) in
                (Ok (if stop_streaming result then Stop else Next), after_response e result w)
              else (Ok Stop, w)
          | Err x => (Err x, w)
          | Panic => (Panic, w)
          end
      | Err x => (Err x, w)
      | Panic => (Panic, w)
      end
  end.

(** The loop over the requests in the buffer: [None] is running out of fuel. *)
Fixpoint serve_fuel (fuel : nat) (env : nat -> Env) (addr : string) (c : RtspServerCodec) (w : World)
  : option (outcome ReceiverError unit * RtspServerCodec * World) :=
  match fuel with
  | 0%nat => None
  | S fuel =>
      match decode c with
      | (c, Ok (Some r)) =>
          match handle_one env addr r w with
          | (Ok Next, w) => serve_fuel fuel env addr c w
          | (Ok Stop, w) => Some (Ok tt, c, w)
          | (Err e, w) => Some (Err e, c, w)
          | (Panic, w) => Some (Panic, c, w)
          end
      | (c, _) => Some (Ok tt, c, w)
      end
  end.

(** One read; every request takes a byte at least, so the fuel is enough. *)
Definition serve_read (env : nat -> Env) (addr : string) (c : RtspServerCodec) (w : World) (data : list Z)
  : outcome ReceiverError unit * RtspServerCodec * World :=
  default (Panic, c, w) (serve_fuel (S (length (feed c data))) env addr (feed c data) w).

(** An empty read is the end of the connection. *)
Fixpoint serve_reads (env : nat -> Env) (addr : string) (c : RtspServerCodec) (w : World) (reads : list (list Z))
  : outcome ReceiverError unit * RtspServerCodec * World :=
  match reads with
  | [] | [] :: _ => (Ok tt, c, w)
  | data :: reads =>
      match serve_read env addr c w data with
      | (Ok _, c, w) => serve_reads env addr c w reads
      | x => x
      end
  end.

(** The whole connection, from the accepted socket to its end of file. *)
Definition handle_connection (env : nat -> Env) (addr sid : string) (now : Z) (reads : list (list Z)) (w : World)
  : outcome ReceiverError unit * World :=
  let w := emit w (ClientConnected addr None) in
  let '(r, m) := start_session (manager w) addr sid now in
  let w := with_manager w m in
  match r with
  | Ok _ =>
      match serve_reads env addr codec_new w reads with
      | (Ok _, _, w) =>
          let w := with_manager w (end_session (manager w) "Connection closed") in
          (Ok tt, emit w (ClientDisconnected addr "Connection closed"))
      | (Err e, _, w) => (Err e, w)
      | (Panic, _, w) => (Panic, w)
      end
  | Err e => (Err (ESession (session_error_text e)), w)
  | Panic => (Panic, w)
  end.

(** Requests handled one after the other, without any framing. *)
Fixpoint handle_all (env : nat -> Env) (addr : string) (rs : list RtspRequest) (w : World)
  : outcome ReceiverError Flow * World :=
  match rs with
  | [] => (Ok Next, w)
  | r :: rs =>
      match handle_one env addr r w with
      | (Ok Next, w) => handle_all env addr rs w
      | x => x
      end
  end.
End Connection.

(** ** Framing *)
Section Framing.
Context {O : HashOrder} {OL : HashOrderLaws O} {F : Floats} {B : Base64} {R : Rsa}.
Variables (env : nat -> Env) (addr : string).
Hypothesis Hwrite : forall n, e_write_ok (env n) = true.

Lemma handle_all_app l1 l2 w : handle_all env addr (l1 ++ l2) w =
  match handle_all env addr l1 w with (Ok Next, w1) => handle_all env addr l2 w1 | x => x end.
Proof.
  revert w. induction l1 as [|r l1 IH]; intros w; [done|]. cbn [app handle_all].
  destruct (handle_one env addr r w) as [[[]| |] w1]; [apply IH|done..].
Qed.

Lemma stop_teardown {E} r s sid res : handle_request (E := E) r s None sid = Ok res -> stop_streaming res = true ->
  method r = Rtsp.Teardown.
Proof.
  unfold handle_request. destruct (method r); try done; unfold handle_announce, handle_setup, handle_record, handle_pause, handle_flush,
    handle_get_parameter; repeat case_match; by intros [= <-].
Qed.

Lemma handle_one_stop r w w1 : handle_one env addr r w = (Ok Stop, w1) -> method r = Rtsp.Teardown.
Proof.
  unfold handle_one. cbn [manager r_events out served]. destruct (active_session (manager w)) as [s|]; [|done].
  destruct (handle_request r s None _) as [res| |] eqn:Hr; [|done..].
  destruct (finish_response _ _ _ _ _) as [[[resp|] w2]| |]; [|done..]. rewrite Hwrite.
  destruct (stop_streaming res) eqn:Hs; [|done]. intros _. by eapply stop_teardown.
Qed.

(** A TEARDOWN ends the stream of requests. *)
Definition teardown_last (rs : list RtspRequest) : Prop :=
  forall i r, rs !! i = Some r -> method r = Rtsp.Teardown -> S i = length rs.

Lemma teardown_tail r rs : teardown_last (r :: rs) -> teardown_last rs.
Proof. intros H i q Hi Hm. specialize (H (S i) q Hi Hm). cbn in H. lia. Qed.

(** What is in the buffer does not hold a request in full. *)
Definition waiting (c : RtspServerCodec) (rs : list RtspRequest) : Prop :=
  match rs with [] => c = [] | r :: _ => (length c < length (request_encode r))%nat end.

Lemma serve_pending rs : forall fuel c rest w, pending c rs rest -> (length c < fuel)%nat -> teardown_last rs ->
  exists j, match handle_all env addr (map received (take j rs)) w with
    | (Ok f, w1) => exists c1, serve_fuel fuel env addr c w = Some (Ok tt, c1, w1) /\
        pending c1 (drop j rs) rest /\ waiting c1 (drop j rs) /\ (f = Stop -> drop j rs = [])
    | (Err e, w1) => exists c1, serve_fuel fuel env addr c w = Some (Err e, c1, w1)
    | (Panic, w1) => exists c1, serve_fuel fuel env addr c w = Some (Panic, c1, w1)
    end.
Proof.
  induction rs as [|r rs IH]; intros fuel c rest w Hp Hf Ht; pose proof (decode_pending _ _ _ Hp) as Hd; cbv beta iota in Hd;
    (destruct fuel as [|fuel]; [lia|]); cbn [serve_fuel].
  - exists 0%nat. cbn [take map handle_all drop]. rewrite Hd. exists c. split_and!; [done|done| |done].
    destruct Hp as [_ E]. by apply app_eq_nil in E as [-> _].
  - destruct (Nat.ltb_spec (length c) (length (request_encode r))) as [Hlt|Hge].
    { exists 0%nat. cbn [take map handle_all drop]. rewrite Hd. exists c. by split_and!. }
    destruct Hd as (c' & -> & Hp' & Hlen).
    destruct (handle_one env addr (received r) w) as [[[]|e|] w1] eqn:H1.
    + destruct (IH fuel c' rest w1 Hp') as (j & Hres); [lia|by eapply teardown_tail|].
      exists (S j). cbn [take map handle_all drop]. by rewrite H1.
    + apply handle_one_stop in H1 as Hm. pose proof (Ht 0%nat r eq_refl Hm) as Hlast. destruct rs; [|done].
      exists 1%nat. cbn [take map handle_all drop]. rewrite H1. exists c'. split_and!; [done..| |done].
      destruct Hp' as [_ E]. by apply app_eq_nil in E as [-> _].
    + exists 1%nat. cbn [take map handle_all drop]. rewrite H1. by exists c'.
    + exists 1%nat. cbn [take map handle_all drop]. rewrite H1. by exists c'.
Qed.

Definition end_of_loop (r : outcome ReceiverError Flow) : outcome ReceiverError unit := (fun _ => tt) <$> r.

Lemma teardown_drop j rs : teardown_last rs -> teardown_last (drop j rs).
Proof.
  intros H i r Hi Hm. rewrite lookup_drop in Hi. specialize (H _ _ Hi Hm). rewrite length_drop. lia.
Qed.

(** The reads up to the end of the connection. *)
Fixpoint until_eof (reads : list (list Z)) : list (list Z) :=
  match reads with [] | [] :: _ => [] | data :: reads => data :: until_eof reads end.

Lemma serve_reads_stream reads : forall c rs w, pending c rs (concat (until_eof reads)) -> waiting c rs -> teardown_last rs ->
  let '(r, w1) := handle_all env addr (map received rs) w in
  exists c1, serve_reads env addr c w reads = (end_of_loop r, c1, w1).
Proof.
  induction reads as [|data reads IH]; intros c rs w Hp Hw Ht; [|destruct (decide (data = [])) as [->|Hne]].
  1,2: cbn [serve_reads until_eof] in *; destruct rs as [|r rs]; [by exists c|]; exfalso; destruct Hp as [_ E]; cbn [concat map] in E;
    rewrite app_nil_r in E; apply (f_equal length) in E; rewrite length_app in E; cbn [waiting] in Hw; lia.
  - destruct data as [|x data0]; [done|]. set (data := x :: data0) in *. change (until_eof (data :: reads)) with (data :: until_eof reads) in Hp.
    change (serve_reads env addr c w (data :: reads)) with
      (match serve_read env addr c w data with (Ok _, c, w) => serve_reads env addr c w reads | y => y end).
    cbn [concat] in Hp. unfold serve_read.
    assert (pending (feed c data) rs (concat (until_eof reads))) as Hp' by (destruct Hp; split; [done|]; unfold feed; by rewrite <- app_assoc).
    destruct (serve_pending rs (S (length (feed c data))) (feed c data) (concat (until_eof reads)) w Hp') as (j & Hj); [lia|done|].
    assert (handle_all env addr (map received rs) w =
      match handle_all env addr (map received (take j rs)) w with
      | (Ok Next, w1) => handle_all env addr (map received (drop j rs)) w1 | x => x end) as ->
      by (by rewrite <- handle_all_app, <- map_app, take_drop).
    destruct (handle_all env addr (map received (take j rs)) w) as [[f|e|] w1].
    + destruct Hj as (c1 & -> & Hp1 & Hw1 & Hstop). cbn [default from_option id].
      destruct f; [by apply IH; [..|apply teardown_drop]|].
      rewrite (Hstop eq_refl) in Hp1, Hw1. specialize (IH c1 [] w1 Hp1 Hw1). cbn [map handle_all] in IH. apply IH.
      intros i r Hi. done.
    + destruct Hj as (c1 & ->). by exists c1.
    + destruct Hj as (c1 & ->). by exists c1.
Qed.
End Framing.

(** ** Interleaving *)

(** Where a task is between its locks, with the session it has taken out. *)
Inductive Task :=
| StartBegin (addr : string)
| StartCleanup (old : ReceiverSession) (addr : string)
| StartNotify (old : ReceiverSession) (addr : string)
| StartLock (addr : string)
| EndBegin (reason : string)
| TimeoutBegin
| EndCleanup (old : ReceiverSession) (reason : string)
| EndNotify (old : ReceiverSession) (reason : string)
| Finished.

(** One atomic section of a task. *)
Definition task_run (m : SessionManager) (t : Task) (sid : string) (now : Z) : SessionManager * Task :=
  match t with
  | StartBegin addr =>
      match start_take m with
      | (Ok (Some old), m) => (m, StartCleanup old addr)
      | (Ok None, m) => (m, StartLock addr)
      | (_, m) => (m, Finished)
      end
  | StartCleanup old addr => (cleanup_sockets m, StartNotify old addr)
  | StartNotify old addr => (send_event m (SessionEnded (id old) PREEMPTED), StartLock addr)
  | StartLock addr => (snd (start_insert m addr sid now), Finished)
  | EndBegin reason =>
      match end_take m with
      | (Some old, m) => (m, EndCleanup old reason)
      | (None, m) => (m, Finished)
      end
  | TimeoutBegin =>
      match timeouts_take m now with
      | (Some (old, reason), m) => (m, EndCleanup old reason)
      | (None, m) => (m, Finished)
      end
  | EndCleanup old reason => (cleanup_sockets m, EndNotify old reason)
  | EndNotify old reason => (send_event m (SessionEnded (id old) reason), Finished)
  | Finished => (m, Finished)
  end.

Definition starts (es : list SessionEvent) : list string :=
  omap (fun e => match e with SessionStarted i _ => Some i | _ => None end) es.
Definition ends (es : list SessionEvent) : list string :=
  omap (fun e => match e with SessionEnded i _ => Some i | _ => None end) es.

(** The operations under a single lock. *)
Inductive manager_op : SessionManager -> SessionManager -> Prop :=
| op_update m st now : manager_op m (snd (update_state m st now))
| op_volume m v now : manager_op m (manager_set_volume m v now)
| op_touch m now : manager_op m (touch_session m now)
| op_sockets m k now : manager_op m (snd (with_session m (fun s => (tt, set_sockets s k now))))
| op_allocate m bind r m' : allocate_sockets (E := Empty_set) bind m = Ok (r, m') -> manager_op m m'.

(** Any number of tasks, each at its own pace; the random identifier of a new
    session is one that was not used before. *)
Inductive step : SessionManager * list Task -> SessionManager * list Task -> Prop :=
| step_spawn m ts t : (exists a, t = StartBegin a) \/ (exists r, t = EndBegin r) \/ t = TimeoutBegin ->
    step (m, ts) (m, ts ++ [t])
| step_run m ts i t sid now : ts !! i = Some t -> sid ∉ starts (events m) ->
    step (m, ts) (fst (task_run m t sid now), <[i := snd (task_run m t sid now)]> ts)
| step_op m ts m' : manager_op m m' -> step (m, ts) (m', ts).

Definition reachable (c : SessionManagerConfig) : SessionManager * list Task -> Prop := rtc step (Manager_new c, []).

Definition holding (t : Task) : list string :=
  match t with
  | StartCleanup old _ | StartNotify old _ | EndCleanup old _ | EndNotify old _ => [id old]
  | _ => []
  end.
Definition active_ids (m : SessionManager) : list string := match active_session m with Some s => [id s] | None => [] end.

(** Every session that was started is active, taken out by one task, or ended. *)
Definition conserved (sys : SessionManager * list Task) : Prop :=
  let '(m, ts) := sys in
  NoDup (starts (events m)) /\
  starts (events m) ≡ₚ ends (events m) ++ concat (map holding ts) ++ active_ids m.

Lemma holding_split ts i t : ts !! i = Some t -> exists rest, concat (map holding ts) ≡ₚ holding t ++ rest /\
  forall t', concat (map holding (<[i := t']> ts)) ≡ₚ holding t' ++ rest.
Proof.
  intros Hi. exists (concat (map holding (take i ts)) ++ concat (map holding (drop (S i) ts))).
  assert (forall l x, l = take i ts ++ x :: drop (S i) ts ->
    concat (map holding l) ≡ₚ holding x ++ concat (map holding (take i ts)) ++ concat (map holding (drop (S i) ts))) as H.
  { intros l x ->. rewrite map_app, concat_app. cbn [map concat]. by rewrite !app_assoc, (Permutation_app_comm (concat _) (holding x)). }
  split; [by apply H; symmetry; apply take_drop_middle|]. intros t'. apply H.
  rewrite insert_take_drop by (by eapply lookup_lt_Some). done.
Qed.

Lemma starts_app a b : starts (a ++ b) = starts a ++ starts b.
Proof. apply omap_app. Qed.
Lemma ends_app a b : ends (a ++ b) = ends a ++ ends b.
Proof. apply omap_app. Qed.

(** One section keeps the balance between the log, what the task holds and the
    active session. *)
Definition balanced (m : SessionManager) (held : list string) : Prop :=
  NoDup (starts (events m)) /\ starts (events m) ≡ₚ ends (events m) ++ held ++ active_ids m.

(** Taking the active session out, and logging that it ended. *)
Lemma balance_take m s rest : active_session m = Some s -> balanced m rest -> balanced (with_active m None) (id s :: rest).
Proof.
  unfold balanced, active_ids. intros E [Hn Hp]. rewrite E in Hp. split; [done|]. cbn [with_active events active_session].
  rewrite Hp, app_nil_r. by rewrite (Permutation_app_comm rest [id s]).
Qed.

Lemma balance_notify m i r rest : balanced m (i :: rest) -> balanced (send_event m (SessionEnded i r)) rest.
Proof.
  intros [Hn Hp]. unfold balanced. cbn [send_event events]. rewrite starts_app, ends_app. cbn [starts ends omap list_omap].
  rewrite app_nil_r. split; [done|]. rewrite Hp. change (active_ids (send_event m (SessionEnded i r))) with (active_ids m).
  by rewrite <- app_assoc.
Qed.

Lemma balance_insert m addr sid now rest : sid ∉ starts (events m) -> active_session m = None -> balanced m rest ->
  balanced (with_active (send_event m (SessionStarted sid addr)) (Some (Session_new sid addr now))) rest.
Proof.
  intros Hf E [Hn Hp]. unfold balanced, active_ids in *. rewrite E, app_nil_r in Hp. cbn [send_event with_active events active_session id Session_new].
  rewrite starts_app, ends_app. cbn [starts ends omap list_omap]. rewrite app_nil_r. split.
  - apply NoDup_app. split_and!; [done| |apply NoDup_singleton]. intros x Hx ->%list_elem_of_singleton. done.
  - by rewrite Hp, app_assoc.
Qed.

Lemma task_balance m t sid now rest : let '(m', t') := task_run m t sid now in
  sid ∉ starts (events m) -> balanced m (holding t ++ rest) -> balanced m' (holding t' ++ rest).
Proof.
  destruct (task_run m t sid now) as [m' t'] eqn:E. intros Hf Hb. destruct t; cbn [task_run] in E.
  - unfold start_take in E. destruct (active_session m) as [s|] eqn:Ha; [|by injection E as <- <-].
    destruct (preemption_policy (m_config m)); injection E as <- <-; [done|by apply balance_take|done].
  - by injection E as <- <-.
  - injection E as <- <-. by apply balance_notify.
  - injection E as <- <-. unfold start_insert. destruct (active_session m) as [s|] eqn:Ha; [|by apply balance_insert].
    destruct (preemption_policy (m_config m)); cbn [snd]; [done| |done].
    set (m1 := send_event m _). apply (balance_take _ _ _ Ha) in Hb. cbn [holding app] in *.
    apply (balance_notify _ _ "Preempted by new connection (race)") in Hb.
    apply (balance_insert (send_event (with_active m None) (SessionEnded (id s) "Preempted by new connection (race)")) addr sid now);
      [|done|done]. cbn [send_event events with_active]. rewrite starts_app. cbn. by rewrite app_nil_r.
  - unfold end_take in E. destruct (active_session m) as [s|] eqn:Ha; injection E as <- <-; [by apply balance_take|].
    unfold balanced, active_ids in *. by rewrite Ha in Hb.
  - unfold timeouts_take in E. destruct (active_session m) as [s|] eqn:Ha; [|by injection E as <- <-].
    destruct (is_timed_out _ _ _); [injection E as <- <-; by apply balance_take|].
    destruct (_ && _); injection E as <- <-; [by apply balance_take|done].
  - by injection E as <- <-.
  - injection E as <- <-. by apply balance_notify.
  - by injection E as <- <-.
Qed.

Lemma bind_loop_keeps {E} bind tries : forall n trio m r m', bind_loop (E := E) bind tries n trio m = Ok (r, m') ->
  events m' = events m /\ active_session m' = active_session m.
Proof.
  induction tries as [|tries IH]; intros n [[a c] t] m r m' Hb; cbn [bind_loop] in Hb; [by simplify_eq|].
  destruct (try_bind bind n a c t); [by simplify_eq|]. apply bind_ok in Hb as ([[[na ?] ?] al] & _ & Hb).
  destruct (na =? a); [by simplify_eq|]. by apply IH in Hb as [-> ->].
Qed.

Lemma sockets_keep {E} bind m r m' : allocate_sockets (E := E) bind m = Ok (r, m') ->
  events m' = events m /\ active_session m' = active_session m.
Proof.
  unfold allocate_sockets. intros Ha. apply bind_ok in Ha as ([trio al] & _ & Ha). apply bind_ok in Ha as ([r' m1] & Hb & Ha).
  apply bind_loop_keeps in Hb as [E1 E2]. cbn [with_allocator events active_session] in E1, E2.
  destruct r' as [ports|]; [|destruct (try_bind bind 15 0 0 0)]; simplify_eq; cbn [with_sockets events active_session]; by rewrite E1, E2.
Qed.

Lemma op_balance m m' : manager_op m m' -> starts (events m') = starts (events m) /\ ends (events m') = ends (events m) /\
  active_ids m' = active_ids m.
Proof.
  assert (forall e l, starts [e] = [] -> ends [e] = [] -> starts (l ++ [e]) = starts l /\ ends (l ++ [e]) = ends l) as Hsnoc.
  { intros e l H1 H2. by rewrite starts_app, ends_app, H1, H2, !app_nil_r. }
  destruct 1 as [m st now|m v now|m now|m k now|m bind r m' Ha].
  - unfold update_state, set_state, active_ids. destruct (active_session m) as [s|] eqn:E; [|cbn; by rewrite ?E].
    destruct (can_transition_to _ _); cbn [snd]; [|cbn; by rewrite ?E]. cbn [send_event events with_active active_session id touch].
    destruct (Hsnoc (StateChanged (id s) st) (events m)) as [-> ->]; done.
  - unfold manager_set_volume, active_ids. destruct (active_session m) as [s|] eqn:E; [|cbn; by rewrite ?E].
    cbn [send_event events with_active active_session]. destruct (Hsnoc (VolumeChanged (id s) v) (events m)) as [-> ->]; done.
  - unfold touch_session, active_ids. destruct (active_session m) as [s|] eqn:E; [done|cbn; by rewrite ?E].
  - unfold with_session, active_ids. destruct (active_session m) as [s|] eqn:E; [done|cbn; by rewrite ?E].
  - apply sockets_keep in Ha as [E1 E2]. unfold active_ids. by rewrite E1, E2.
Qed.

Lemma reachable_conserved c sys : reachable c sys -> conserved sys.
Proof.
  unfold reachable. intros H. remember (Manager_new c, @nil Task) as s0 eqn:E0. assert (conserved s0) as H0 by (subst; by split; [constructor|]).
  clear E0. induction H as [|s1 s2 s3 Hs _ IH]; [done|]. apply IH. clear IH.
  destruct Hs as [m ts t Ht|m ts i t sid now Hi Hf|m ts m' Hop]; cbn [conserved] in *; destruct H0 as [Hn Hp].
  - split; [done|]. rewrite map_app, concat_app. assert (holding t = []) as E by (by destruct Ht as [[? ->]|[[? ->]| ->]]).
    cbn [map concat]. by rewrite E, !app_nil_r.
  - destruct (holding_split ts i t Hi) as (rest & E1 & E2). pose proof (task_balance m t sid now rest) as Hb.
    destruct (task_run m t sid now) as [m' t']. cbn [fst snd]. rewrite E2. apply Hb; [done|]. split; [done|]. by rewrite <- E1.
  - apply op_balance in Hop as (-> & -> & ->). done.
Qed.

(** ** The life of a session *)
Definition rank (s : SessionState) : nat :=
  match s with Connected => 0 | Announced => 1 | Setup => 2 | Streaming => 3 | Paused => 4 | Teardown => 5 | Closed => 6 end.

(** Not a number, or between -144 dB and 0 dB. *)
Definition volume_ok (v : Z) : Prop := f32_nan v = true \/ f32_key VOLUME_MIN_DB <= f32_key v <= f32_key VOLUME_MAX_DB.

Lemma clamp_ok v : volume_ok (f32_clamp v VOLUME_MIN_DB VOLUME_MAX_DB).
Proof.
  unfold f32_clamp, volume_ok, f32_lt. change (f32_nan VOLUME_MIN_DB) with false. change (f32_nan VOLUME_MAX_DB) with false. cbn [negb andb].
  destruct (f32_nan v) eqn:En; cbn [negb andb]; [rewrite En; cbn [negb andb]; by left|]. right.
  destruct (Z.ltb_spec (f32_key v) (f32_key VOLUME_MIN_DB)) as [Hl|Hl].
  - vm_compute. by split.
  - rewrite En. cbn [negb andb]. destruct (Z.ltb_spec (f32_key VOLUME_MAX_DB) (f32_key v)); [by vm_compute|done].
Qed.

(** How one session may become another while requests are handled. *)
Record evolves (s s' : ReceiverSession) : Prop := {
  ev_id : id s' = id s;
  ev_params : stream_params s' = stream_params s;
  ev_rank : (rank (state s) <= rank (state s'))%nat;
  ev_volume : volume_ok (volume s) -> volume_ok (volume s')
}.
Definition evolves_opt (a b : option ReceiverSession) : Prop :=
  match a, b with Some s, Some s' => evolves s s' | None, None => True | _, _ => False end.

#[export] Instance evolves_preorder : PreOrder evolves_opt.
Proof.
  split.
  - by intros [s|].
  - intros [a|] [b|] [c|]; cbn; try done. intros [] []. split; [congruence|congruence|lia|tauto].
Qed.

Lemma volume_evolves m v now : evolves_opt (active_session m) (active_session (manager_set_volume m v now)).
Proof.
  unfold manager_set_volume. destruct (active_session m) as [s|] eqn:E; [|by rewrite E]. cbn. split; try done. intros _. apply clamp_ok.
Qed.

Lemma updates_evolve now us : forall w,
  evolves_opt (active_session (manager w)) (active_session (manager (process_parameter_updates now us w))).
Proof.
  induction us as [|u us IH]; intros w; [done|]. unfold process_parameter_updates in *. cbn [foldl].
  etransitivity; [|apply IH]. destruct u; cbn [process_update emit with_manager manager]; [apply volume_evolves|done..].
Qed.

Lemma updates_state now us : forall w,
  state <$> active_session (manager (process_parameter_updates now us w)) = state <$> active_session (manager w).
Proof.
  induction us as [|u us IH]; intros w; [done|]. unfold process_parameter_updates in *. cbn [foldl]. rewrite IH.
  destruct u; cbn [process_update emit with_manager manager]; [|done..]. unfold manager_set_volume. by destruct (active_session (manager w)) eqn:E; [|rewrite E].
Qed.

Section Life.
Context {O : HashOrder} {F : Floats} {B : Base64} {R : Rsa}.

(** The states a handler asks for. *)
Lemma asked_state {E} r s sid res st : handle_request (E := E) r s None sid = Ok res -> new_state res = Some st ->
  match st with Announced => state s = Connected | Streaming => state s = Setup | Paused => state s = Streaming
  | Setup | Teardown => True | Connected | Closed => False end.
Proof.
  unfold handle_request. destruct (method r); try (by intros [= <-]); unfold handle_announce, handle_setup, handle_record, handle_pause,
    handle_flush, handle_get_parameter; repeat case_match; intros; simplify_eq/=; try done; by case_bool_decide.
Qed.

Lemma finish_keeps e addr r res w resp w' : finish_response e addr r res w = Ok (resp, w') ->
  evolves_opt (active_session (manager w)) (active_session (manager w')) /\
  state <$> active_session (manager w') = state <$> active_session (manager w).
Proof.
  unfold finish_response. destruct (allocated_ports res) as [ports|]; [|intros [= <- <-]; by split].
  intros Hr. apply bind_ok in Hr as ([resp' m'] & Hs & [= <- <-]). cbn [with_manager manager]. unfold handle_setup_ports in Hs.
  apply bind_ok in Hs as ([k m1] & Ha & Hs). apply sockets_keep in Ha as [_ Ha]. rewrite <- Ha.
  destruct k as [[[a c] t]|]; injection Hs as <- <-; [|by split].
  unfold with_session. destruct (active_session m1) as [s|] eqn:E; cbn; [|by rewrite E]. by split.
Qed.

Lemma after_evolves {E} e r s sid res w : handle_request (E := E) r s None sid = Ok res ->
  state <$> active_session (manager w) = Some (state s) ->
  evolves_opt (active_session (manager w)) (active_session (manager (after_response e res w))).
Proof.
  intros Hr Hs. unfold after_response. destruct (new_state res) as [st|] eqn:Hn; [|done]. pose proof (asked_state _ _ _ _ _ Hr Hn) as Ha.
  assert (forall st m, manager (playback_event st (with_manager w m)) = m) as -> by (by intros []).
  unfold update_state, set_state. destruct (active_session (manager w)) as [s1|] eqn:E1; [|done]. injection Hs as Hs.
  destruct (can_transition_to (state s1) st) eqn:Ec; cbn [snd send_event with_active active_session]; [|by rewrite E1].
  split; try done. cbn [state touch]. rewrite Hs in *. destruct st; try done; destruct (state s); cbn in *; try done; lia.
Qed.

Lemma handle_one_evolves env addr r w :
  evolves_opt (active_session (manager w)) (active_session (manager (snd (handle_one env addr r w)))).
Proof.
  unfold handle_one. cbn [manager r_events out served]. destruct (active_session (manager w)) as [s|] eqn:Es; [|by cbn; rewrite Es].
  destruct (handle_request r s None _) as [res| |] eqn:Hr; [|by cbn; rewrite Es..].
  set (w0 := mkWorld _ _ _ _). set (w1 := process_parameter_updates _ _ w0).
  pose proof (updates_evolve (e_now (env (served w))) (parameter_updates res) w0 : evolves_opt _ (active_session (manager w1))) as H1.
  pose proof (updates_state (e_now (env (served w))) (parameter_updates res) w0 : state <$> active_session (manager w1) = _) as H2.
  cbn [w0 manager] in H1, H2. rewrite Es in H1, H2.
  destruct (finish_response _ _ _ _ _) as [[[resp|] w2]| |] eqn:Hf; [| |done..]; apply finish_keeps in Hf as [H3 H4].
  - destruct (e_write_ok _); cbn [snd]; [|by etransitivity]. set (w3 := mkWorld _ _ _ _).
    etransitivity; [exact H1|]. etransitivity; [exact H3|]. change (manager w2) with (manager w3).
    eapply after_evolves; [exact Hr|]. cbn [w3 manager]. by rewrite H4, H2.
  - by etransitivity.
Qed.

Lemma handle_all_evolves env addr rs : forall w,
  evolves_opt (active_session (manager w)) (active_session (manager (snd (handle_all env addr rs w)))).
Proof.
  induction rs as [|r rs IH]; intros w; [done|]. cbn [handle_all]. pose proof (handle_one_evolves env addr r w) as H1.
  destruct (handle_one env addr r w) as [[[]| |] w1]; cbn [snd] in *; [by etransitivity|done..].
Qed.
End Life.

(** ** Ports *)
Definition allocator_ok (a : PortAllocator) : Prop :=
  0 <= base a /\ 3 <= range a /\ base a + range a <= 65536 /\ range a + 3 < 65536 /\ 0 <= next a <= range a.

(** The three ports lie in the configured range, and the allocator stays so. *)
Lemma trio_in_range {E} a : allocator_ok a -> exists p a', allocate_trio (E := E) a = Ok ((p, p + 1, p + 2), a') /\
  base a <= p /\ p + 2 < base a + range a /\ allocator_ok a' /\ base a' = base a /\ range a' = range a.
Proof.
  intros (H0 & H1 & H2 & H3 & H4). unfold allocate_trio. rewrite chk_u_ok by (unfold uint; lia). cbn [mbind outcome_bind].
  set (off := if _ <? _ then _ else _).
  assert (0 <= off /\ off + 3 <= range a) as [Ho1 Ho2] by (unfold off; destruct (Z.ltb_spec (range a) (next a + 3)); lia).
  repeat (rewrite chk_u_ok by (unfold uint; lia); cbn [mbind outcome_bind]).
  exists (base a + off), (mkAllocator (base a) (range a) (off + 3)). split; [done|].
  unfold allocator_ok. cbn [base range next]. lia.
Qed.

(** All five attempts are at the same ports. *)
Lemma busy_loop {E} bind p q r tries : (forall n, bind n p = None) -> forall n m, allocator_ok (port_allocator m) ->
  exists m', bind_loop (E := E) bind tries n (p, q, r) m = Ok (None, m').
Proof.
  intros Hb. induction tries as [|tries IH]; intros n m Ha; [by exists m|]. cbn [bind_loop]. unfold try_bind. rewrite Hb. cbn [mbind option_bind].
  destruct (trio_in_range (E := E) _ Ha) as (p' & a' & -> & _ & _ & Ha' & _). cbn [mbind outcome_bind].
  destruct (p' =? p); [by eexists|]. by apply IH.
Qed.

(** A client that may preempt always gets the session; what was active ends. *)
Lemma start_preempts m addr sid now : preemption_policy (m_config m) = AllowPreempt ->
  let m' := snd (start_session m addr sid now) in
  fst (start_session m addr sid now) = Ok sid /\ m_config m' = m_config m /\ active_session m' = Some (Session_new sid addr now) /\
  ends (events m') = ends (events m) ++ active_ids m.
Proof.
  intros Hp. unfold start_session, start_take, active_ids. destruct (active_session m) as [s|] eqn:E; [rewrite Hp|];
    unfold start_insert; cbn [cleanup_sockets with_active with_sockets send_event active_session m_config events fst snd]; [|rewrite E];
    cbn [m_config active_session events with_active send_event fst snd]; rewrite !ends_app; cbn [ends omap list_omap]; by rewrite ?app_nil_r.
Qed.

(** ** Properties *)

(** C5: requests over a byte stream. Whatever the sizes of the reads up to the end of
    the connection, a connection that is sent well-formed requests (a TEARDOWN, if any, the last) behaves as if
    each request were handed to the handlers one by one, in the order sent: the
    same responses, events, session changes, and the same error, if there is one;
    a request split over reads waits, several in one read are all answered. *)
Theorem reads_refine_requests {O : HashOrder} {OL : HashOrderLaws O} {F : Floats} {B : Base64} {R : Rsa}
  (env : nat -> Env) (addr : string) (reads : list (list Z)) (rs : list RtspRequest) (w : World)
  (Hwrite : forall n, e_write_ok (env n) = true) (Hrs : Forall sendable rs) (Ht : teardown_last rs)
  (Hstream : concat (until_eof reads) = concat (map request_encode rs)) :
  let '(r, w1) := handle_all env addr (map received rs) w in
  exists c1, serve_reads env addr codec_new w reads = (end_of_loop r, c1, w1).
Proof.
  apply serve_reads_stream; [done|by split| |done]. unfold waiting. destruct rs as [|r rs]; [done|].
  unfold request_encode. rewrite length_app. by destruct (method r); cbn; lia.
Qed.

(** C14: sessions are conserved. Under every interleaving of connections starting,
    connections closing, timeouts and single-lock operations, each identifier is
    started at most once, and the sessions started are exactly those reported as
    ended, those a task has taken out and not yet reported, and the active one:
    none is lost or ended twice, and at most one is active. *)
Theorem sessions_conserved (c : SessionManagerConfig) (m : SessionManager) (ts : list Task) (H : reachable c (m, ts)) :
  NoDup (starts (events m)) /\ NoDup (ends (events m)) /\
  starts (events m) ≡ₚ ends (events m) ++ concat (map holding ts) ++ active_ids m /\
  (Forall (fun t => t = Finished) ts -> starts (events m) ≡ₚ ends (events m) ++ active_ids m).
Proof.
  apply reachable_conserved in H as [Hn Hp]. split_and!; [done| |done|].
  - rewrite Hp in Hn. by apply NoDup_app in Hn as (? & _).
  - intros Ht. rewrite Hp. by replace (concat (map holding ts)) with (@nil string) by (clear -Ht; induction Ht as [|? ? -> _ IH]; done).
Qed.

(** A session only moves forward. Whatever requests a connection handles, the
    session stays the same one, its state never goes back in the order connected,
    announced, set up, streaming, paused, torn down, and so a paused session never
    streams again; the parameters of an ANNOUNCE are never stored in it; and its
    volume stays between -144 and 0 dB, or is not a number. *)
Theorem session_only_forward {O : HashOrder} {F : Floats} {B : Base64} {R : Rsa}
  (env : nat -> Env) (addr : string) (rs : list RtspRequest) (w : World) :
  match active_session (manager w), active_session (manager (snd (handle_all env addr rs w))) with
  | Some s, Some s' =>
      id s' = id s /\ stream_params s' = stream_params s /\ (rank (state s) <= rank (state s'))%nat /\
      (state s = Paused -> state s' <> Streaming) /\ (volume_ok (volume s) -> volume_ok (volume s'))
  | None, None => True
  | _, _ => False
  end.
Proof.
  pose proof (handle_all_evolves env addr rs w) as H. destruct (active_session (manager w)) as [s|], (active_session _) as [s'|]; try done.
  destruct H as [? ? Hrank ?]. split_and!; try done. intros Hp Hs. rewrite Hp, Hs in Hrank. cbn in Hrank. lia.
Qed.

(** Closing a preempted connection ends its successor. When a second client
    preempts the first, the first connection keeps running; its end of file ends
    whatever session is then active, the second client's, and that client's next
    request closes its connection with an error instead of an answer. *)
Theorem preempted_close_ends_successor {O : HashOrder} {F : Floats} {B : Base64} {R : Rsa}
  (m : SessionManager) (a b sid_a sid_b : string) (t0 t1 : Z) (env : nat -> Env) (r : RtspRequest) (w : World)
  (Hp : preemption_policy (m_config m) = AllowPreempt) :
  let m1 := snd (start_session m a sid_a t0) in
  let m2 := snd (start_session m1 b sid_b t1) in
  let m3 := end_session m2 "Connection closed" in
  id <$> active_session m2 = Some sid_b /\ ends (events m2) = ends (events m1) ++ [sid_a] /\
  active_session m3 = None /\ m_sockets m3 = None /\ ends (events m3) = ends (events m2) ++ [sid_b] /\
  fst (handle_one env b r (with_manager w m3)) = Err (ESession "Session not found: No active session") /\
  out (snd (handle_one env b r (with_manager w m3))) = out w.
Proof.
  intros m1 m2 m3. destruct (start_preempts m a sid_a t0 Hp) as (_ & Hm1 & Ha1 & _). fold m1 in Hm1, Ha1. rewrite <- Hm1 in Hp.
  destruct (start_preempts m1 b sid_b t1 Hp) as (_ & _ & Ha2 & He2). fold m2 in Ha2, He2.
  assert (active_session m3 = None /\ m_sockets m3 = None /\ ends (events m3) = ends (events m2) ++ [sid_b]) as (Ha3 & Hs3 & He3).
  { unfold m3, end_session, end_take. rewrite Ha2. cbn [send_event cleanup_sockets with_sockets with_active active_session m_sockets events].
    by rewrite ends_app. }
  unfold handle_one. cbn [with_manager manager]. unfold active_ids in He2. rewrite Ha1 in He2. rewrite Ha2, Ha3. by split_and!.
Qed.

(** One busy port gives up the whole range. The allocator hands out ports
    inside its range, but every retry binds the first trio again: when one of its
    ports is taken, the sockets end up on ports the system chooses, although all
    the other ports of the range may be free. *)
Theorem busy_port_abandons_range {E} (bind : nat -> Z -> option Z) (m : SessionManager) (p q r : Z) (a' : PortAllocator)
  (Ha : allocator_ok (port_allocator m)) (Hp : allocate_trio (E := E) (port_allocator m) = Ok ((p, q, r), a'))
  (Hb : forall n, bind n p = None) :
  base (port_allocator m) <= p /\ r < base (port_allocator m) + range (port_allocator m) /\
  exists m', allocate_sockets (E := E) bind m = Ok (try_bind bind 15 0 0 0, m').
Proof.
  destruct (trio_in_range (E := E) _ Ha) as (p' & a1 & Ha1 & H1 & H2 & H3 & _). rewrite Ha1 in Hp. simplify_eq.
  split_and!; [done|lia|]. unfold allocate_sockets. rewrite Ha1. cbn [mbind outcome_bind].
  destruct (busy_loop (E := E) bind p (p + 1) (p + 2) 5 Hb 0 (with_allocator m a') H3) as (m' & ->). cbn [mbind outcome_bind].
  destruct (try_bind bind 15 0 0 0); by eexists.
Qed.

(** ** Witnesses *)
#[local] Instance plain_order : HashOrder := fun l => l.
#[local] Instance plain_order_laws : HashOrderLaws plain_order.
Proof. by intros l. Qed.
(** One number. *)
#[local] Instance demo_floats : Floats :=
  {| parse_f32 s := if bool_decide (s = bs "-20") then Some 0xC1A00000 else None; parse_f64 _ := None;
     db_power _ := 0x3DCCCCCD; show_f32 _ := bs "-20.000000" |}.
#[local] Existing Instance Sdp.RealBase64.base64.
#[local] Existing Instance Sdp.short_rsa.

Definition demo_env (n : nat) : Env := mkEnv (Z.of_nat n) "5EED" (fun _ p => Some (if p =? 0 then 50000 else p)) true.
Definition demo_requests : list RtspRequest :=
  [request_body (request_content_type (request_cseq (Request_new SetParameter "rtsp://10.0.0.3/1") 1) "text/parameters")
     (bs "volume: -20");
   request_header (request_cseq (Request_new Rtsp.Setup "rtsp://10.0.0.3/1") 2) "Transport"
     "RTP/AVP/UDP;unicast;mode=record;control_port=6001;timing_port=6002";
   request_cseq (Request_new Rtsp.Teardown "rtsp://10.0.0.3/1") 3].
Definition demo_world : World :=
  mkWorld (snd (start_session (Manager_new Config_default) "10.0.0.2:5000" "A" 0)) [] [] 0.

Lemma demo_requests_sendable : Forall sendable demo_requests.
Proof.
  repeat (apply Forall_cons_2; [split; [|vm_compute; discriminate]|]); [..|done]; try (apply request_body_ok; [|vm_compute; discriminate]);
    repeat (apply request_header_ok; [|apply plain_field_ok; vm_compute; reflexivity|vm_compute; reflexivity]);
    apply request_new_ok; vm_compute; reflexivity.
Qed.

(** Two reads, the first of which ends inside the first request. *)
Lemma reads_refine_requests_witness :
  let stream := concat (map request_encode demo_requests) in
  let '(r, c1, w1) := serve_reads demo_env "10.0.0.2:5000" codec_new demo_world [take 50 stream; drop 50 stream] in
  r = Ok tt /\ (state <$> active_session (manager w1)) = Some Teardown /\
  (volume <$> active_session (manager w1)) = Some 0xC1A00000 /\ served w1 = 3%nat.
Proof.
  intros stream.
  pose proof (reads_refine_requests demo_env "10.0.0.2:5000" [take 50 stream; drop 50 stream] demo_requests demo_world) as H.
  destruct (serve_reads _ _ _ _ _) as [[r c1] w1] eqn:E.
  destruct (handle_all demo_env "10.0.0.2:5000" (map received demo_requests) demo_world) as [r2 w2] eqn:E2.
  destruct H as (c & H); [done|apply demo_requests_sendable| |by vm_compute|].
  - intros i q Hi Hm. apply (f_equal (fmap method)) in Hi. change (fmap method (Some q)) with (Some (method q)) in Hi. rewrite Hm in Hi.
    destruct i as [|[|[|i]]]; [vm_compute in Hi; discriminate Hi|vm_compute in Hi; discriminate Hi|reflexivity|discriminate Hi].
  - injection H as -> _ ->. clear E. vm_compute in E2. injection E2 as <- <-. repeat split; reflexivity.
Defined.

Lemma sessions_conserved_witness : exists m, reachable Config_default (m, [Finished]) /\
  starts (events m) = ["A"] /\ active_ids m = ["A"] /\ ends (events m) = [].
Proof.
  set (run := fun t m => fst (task_run m t "A" 0)). set (m := run (StartLock "x") (Manager_new Config_default)).
  assert (reachable Config_default (m, [Finished])) as H.
  { eapply rtc_l; [apply (step_spawn _ [] (StartBegin "x")); left; by eexists|]. cbn [app].
    eapply rtc_l; [apply (step_run _ _ 0%nat (StartBegin "x") "A" 0); [done|apply not_elem_of_nil]|].
    eapply rtc_l; [apply (step_run _ _ 0%nat (StartLock "x") "A" 0); [done|apply not_elem_of_nil]|]. apply rtc_refl. }
  exists m. split; [done|]. destruct (sessions_conserved _ _ _ H) as (_ & _ & _ & Hf). split; [done|].
  pose proof (Hf ltac:(by repeat constructor)) as Hp. done.
Defined.

Lemma preempted_close_ends_successor_witness :
  let m1 := snd (start_session (Manager_new Config_default) "10.0.0.2:5000" "A" 0) in
  let m2 := snd (start_session m1 "10.0.0.9:5000" "B" 1) in
  active_session (end_session m2 "Connection closed") = None.
Proof.
  pose proof (preempted_close_ends_successor (Manager_new Config_default) "10.0.0.2:5000" "10.0.0.9:5000" "A" "B" 0 1 demo_env
    (Request_new Options "*") demo_world eq_refl) as (_ & _ & H & _). exact H.
Defined.

(** Port 6000 is taken, all the others are free. *)
Lemma busy_port_abandons_range_witness :
  exists m', allocate_sockets (E := ReceiverError) (fun _ p => if p =? 6000 then None else if p =? 0 then Some 50000 else Some p)
    (Manager_new Config_default) = Ok (Some (50000, 50000, 50000), m').
Proof.
  edestruct (busy_port_abandons_range (E := ReceiverError) (fun _ p => if p =? 6000 then None else if p =? 0 then Some 50000 else Some p)
    (Manager_new Config_default) 6000 6001 6002) as (_ & _ & m' & H); [vm_compute; repeat split; discriminate|reflexivity|done|].
  exists m'. exact H.
Defined.

End RaopServer.
