(* ===== verification/RingBuffer.v ===== *)
(** * The audio ring buffer

    Models [src/audio/buffer.rs]: the lock-free single-producer single-consumer
    ring.  Each method is given twice: as a function on the buffer, in the order of
    its statements, and as the sequence of its accesses to the shared state (the
    atomic loads and stores of the two positions and the block copies), which the
    producer and the consumer interleave.  The interleaving is sequentially
    consistent: every position has one writer, and the acquire and release orderings
    make the copies before a store visible to whoever loads the stored value.  A copy
    outside the storage, undefined behaviour in the code, is [Panic] here. *)

From stdpp Require Import relations.
From S2P Require Import Prelude Bytes.

Module RingBuffer.

(** ** State *)
Record AudioRingBuffer := mkRing {
  data : list Z; capacity : nat; read_pos : nat; write_pos : nat; high_watermark : nat; low_watermark : nat
}.

Definition with_data (b : AudioRingBuffer) (d : list Z) : AudioRingBuffer :=
  mkRing d (capacity b) (read_pos b) (write_pos b) (high_watermark b) (low_watermark b).
Definition with_read (b : AudioRingBuffer) (p : nat) : AudioRingBuffer :=
  mkRing (data b) (capacity b) p (write_pos b) (high_watermark b) (low_watermark b).
Definition with_write (b : AudioRingBuffer) (p : nat) : AudioRingBuffer :=
  mkRing (data b) (capacity b) (read_pos b) p (high_watermark b) (low_watermark b).

Section Ops.
Context {E : Type}.

(** Subtraction, addition and remainder of [usize]. *)
Definition usub (a b : nat) : outcome E nat := if (b <=? a)%nat then Ok (a - b)%nat else Panic.
Definition uadd (a b : nat) : outcome E nat := _ ← chk_u 64 (Z.of_nat a + Z.of_nat b); Ok (a + b)%nat.
Definition urem (a b : nat) : outcome E nat := if (b =? 0)%nat then Panic else Ok (a mod b)%nat.

(** A [Vec] holds [isize::MAX] bytes at most. *)
Definition zeroed (capacity : nat) : outcome E (list Z) :=
  if Z.of_nat capacity <? 2 ^ 63 then Ok (replicate capacity 0) else Panic.

Definition new (capacity : nat) : outcome E AudioRingBuffer :=
  d ← zeroed capacity;
  _ ← chk_u 64 (Z.of_nat capacity * 3);
  Ok (mkRing d capacity 0 0 (capacity * 3 / 4) (capacity / 4)).

Definition with_watermarks (capacity low high : nat) : outcome E AudioRingBuffer :=
  if (low <? high)%nat && (high <=? capacity)%nat
  then d ← zeroed capacity; Ok (mkRing d capacity 0 0 high low)
  else Panic.

(** From the two positions as they were loaded. *)
Definition available_of (cap write read : nat) : outcome E nat :=
  if (read <=? write)%nat then usub write read else x ← usub cap read; uadd x write.
Definition free_of (cap avail : nat) : outcome E nat := x ← usub cap avail; usub x 1.

Definition available (b : AudioRingBuffer) : outcome E nat := available_of (capacity b) (write_pos b) (read_pos b).
Definition free (b : AudioRingBuffer) : outcome E nat := a ← available b; free_of (capacity b) a.
Definition is_empty (b : AudioRingBuffer) : outcome E bool := a ← available b; Ok (a =? 0)%nat.
Definition is_full (b : AudioRingBuffer) : outcome E bool := f ← free b; Ok (f =? 0)%nat.
Definition is_underrunning (b : AudioRingBuffer) : outcome E bool := a ← available b; Ok (a <? low_watermark b)%nat.
Definition is_ready (b : AudioRingBuffer) : outcome E bool := a ← available b; Ok (high_watermark b <=? a)%nat.

(** [copy_nonoverlapping] into the storage. *)
Definition copy_to (d : list Z) (pos : nat) (bytes : list Z) : outcome E (list Z) :=
  if (pos + length bytes <=? length d)%nat then Ok (take pos d ++ bytes ++ drop (pos + length bytes) d) else Panic.

Definition write (b : AudioRingBuffer) (bytes : list Z) : outcome E (nat * AudioRingBuffer) :=
  available_space ← free b;
  let to_write := (length bytes `min` available_space)%nat in
  if (to_write =? 0)%nat then Ok (0%nat, b)
  else
    let pos := write_pos b in
    room ← usub (capacity b) pos;
    let first_part := (room `min` to_write)%nat in
    second_part ← usub to_write first_part;
    d ← copy_to (data b) pos (take first_part bytes);
    d ← (if (0 <? second_part)%nat then copy_to d 0 (take second_part (drop first_part bytes)) else Ok d);
    s ← uadd pos to_write;
    new_write_pos ← urem s (capacity b);
    Ok (to_write, with_write (with_data b d) new_write_pos).

(** The bytes copied out of the storage: two parts. *)
Definition copy_out (b : AudioRingBuffer) (pos n : nat) : outcome E (list Z) :=
  room ← usub (capacity b) pos;
  let first_part := (room `min` n)%nat in
  second_part ← usub n first_part;
  a ← slice (data b) pos (pos + first_part);
  c ← (if (0 <? second_part)%nat then slice (data b) 0 second_part else Ok []);
  Ok (a ++ c).

Definition read (b : AudioRingBuffer) (output : list Z) : outcome E (nat * list Z * AudioRingBuffer) :=
  avail ← available b;
  let to_read := (length output `min` avail)%nat in
  if (to_read =? 0)%nat then Ok (0%nat, output, b)
  else
    let pos := read_pos b in
    bytes ← copy_out b pos to_read;
    s ← uadd pos to_read;
    new_read_pos ← urem s (capacity b);
    Ok (to_read, bytes ++ drop to_read output, with_read b new_read_pos).

Definition peek (b : AudioRingBuffer) (output : list Z) : outcome E (nat * list Z) :=
  avail ← available b;
  let to_peek := (length output `min` avail)%nat in
  if (to_peek =? 0)%nat then Ok (0%nat, output)
  else bytes ← copy_out b (read_pos b) to_peek; Ok (to_peek, bytes ++ drop to_peek output).

Definition skip (b : AudioRingBuffer) (count : nat) : outcome E (nat * AudioRingBuffer) :=
  avail ← available b;
  let to_skip := (count `min` avail)%nat in
  s ← uadd (read_pos b) to_skip;
  new_read_pos ← urem s (capacity b);
  Ok (to_skip, with_read b new_read_pos).

Definition clear (b : AudioRingBuffer) : AudioRingBuffer := with_write (with_read b 0) 0.

(** ** The accesses of [write], one at a time *)
Inductive Producer :=
| PIdle
| PLoadWrite (d : list Z)
| PLoadRead (d : list Z) (w : nat)
| PLoadPos (d : list Z) (n : nat)
| PCopy1 (d : list Z) (n pos : nat)
| PCopy2 (d : list Z) (n pos first : nat)
| PStore (d : list Z) (n pos : nat)
| PDone (d : list Z) (n : nat).

Definition pstep (b : AudioRingBuffer) (p : Producer) : outcome E (AudioRingBuffer * Producer) :=
  match p with
  | PIdle => Ok (b, PIdle)
  | PLoadWrite d => Ok (b, PLoadRead d (write_pos b))
  | PLoadRead d w =>
      a ← available_of (capacity b) w (read_pos b);
      space ← free_of (capacity b) a;
      let n := (length d `min` space)%nat in
      Ok (b, if (n =? 0)%nat then PDone d 0 else PLoadPos d n)
  | PLoadPos d n => Ok (b, PCopy1 d n (write_pos b))
  | PCopy1 d n pos =>
      room ← usub (capacity b) pos;
      let first := (room `min` n)%nat in
      second ← usub n first;
      d' ← copy_to (data b) pos (take first d);
      Ok (with_data b d', if (0 <? second)%nat then PCopy2 d n pos first else PStore d n pos)
  | PCopy2 d n pos first =>
      d' ← copy_to (data b) 0 (take (n - first) (drop first d));
      Ok (with_data b d', PStore d n pos)
  | PStore d n pos =>
      s ← uadd pos n;
      w ← urem s (capacity b);
      Ok (with_write b w, PDone d n)
  | PDone d n => Ok (b, PDone d n)
  end.

(** ** The accesses of [read], [peek] and [skip] *)
Inductive Op := Read (len : nat) | Peek (len : nat) | Skip (count : nat).
Definition wanted (o : Op) : nat := match o with Read n | Peek n | Skip n => n end.

Inductive Consumer :=
| CIdle
| CLoadWrite (o : Op)
| CLoadRead (o : Op) (w : nat)
| CLoadPos (o : Op) (n : nat)
| CCopy1 (o : Op) (n pos : nat)
| CCopy2 (o : Op) (n pos : nat) (part : list Z)
| CStore (o : Op) (n pos : nat) (out : list Z)
| CDone (o : Op) (n : nat) (out : list Z).

(** After the copies: a peek moves nothing. *)
Definition copied (o : Op) (n pos : nat) (out : list Z) : Consumer :=
  match o with Peek _ => CDone o n out | _ => CStore o n pos out end.

Definition cstep (b : AudioRingBuffer) (c : Consumer) : outcome E (AudioRingBuffer * Consumer) :=
  match c with
  | CIdle => Ok (b, CIdle)
  | CLoadWrite o => Ok (b, CLoadRead o (write_pos b))
  | CLoadRead o w =>
      a ← available_of (capacity b) w (read_pos b);
      let n := (wanted o `min` a)%nat in
      Ok (b, match o with
             | Skip _ => CLoadPos o n
             | _ => if (n =? 0)%nat then CDone o 0 [] else CLoadPos o n
             end)
  | CLoadPos o n =>
      Ok (b, match o with Skip _ => CStore o n (read_pos b) [] | _ => CCopy1 o n (read_pos b) end)
  | CCopy1 o n pos =>
      room ← usub (capacity b) pos;
      let first := (room `min` n)%nat in
      second ← usub n first;
      part ← slice (data b) pos (pos + first);
      Ok (b, if (0 <? second)%nat then CCopy2 o n pos part else copied o n pos part)
  | CCopy2 o n pos part =>
      part2 ← slice (data b) 0 (n - length part);
      Ok (b, copied o n pos (part ++ part2))
  | CStore o n pos out =>
      s ← uadd pos n;
      r ← urem s (capacity b);
      Ok (with_read b r, CDone o n out)
  | CDone o n out => Ok (b, CDone o n out)
  end.
End Ops.

(** ** Interleaving

    [sent] is the stream of all the bytes [write] has accepted, [taken] how many of
    them were consumed, and [log] what each read and peek returned, with the place
    in the stream it was asked at. *)
Record Sys := mkSys {
  ring : AudioRingBuffer; prod : Producer; cons : Consumer; sent : list Z; taken : nat; log : list (nat * list Z)
}.

Definition sent_after (p : Producer) (s : list Z) : list Z := match p with PStore d n _ => s ++ take n d | _ => s end.
Definition taken_after (c : Consumer) (t : nat) : nat := match c with CStore _ n _ _ => (t + n)%nat | _ => t end.
(** A read is logged at its store, a peek after its last copy. *)
Definition log_after (c c' : Consumer) (t : nat) (l : list (nat * list Z)) : list (nat * list Z) :=
  match c, c' with
  | CStore (Read _) _ _ out, _ => l ++ [(t, out)]
  | (CCopy1 _ _ _ | CCopy2 _ _ _ _), CDone (Peek _) _ out => l ++ [(t, out)]
  | _, _ => l
  end.

Inductive step : Sys -> Sys -> Prop :=
| step_call b p c s t l d : p = PIdle \/ (exists d n, p = PDone d n) ->
    step (mkSys b p c s t l) (mkSys b (PLoadWrite d) c s t l)
| step_prod b p c s t l b' p' : pstep (E := Empty_set) b p = Ok (b', p') ->
    step (mkSys b p c s t l) (mkSys b' p' c (sent_after p s) t l)
| step_ask b p c s t l o : c = CIdle \/ (exists o n out, c = CDone o n out) ->
    step (mkSys b p c s t l) (mkSys b p (CLoadWrite o) s t l)
| step_cons b p c s t l b' c' : cstep (E := Empty_set) b c = Ok (b', c') ->
    step (mkSys b p c s t l) (mkSys b' p c' s (taken_after c t) (log_after c c' t l)).

Definition start (b : AudioRingBuffer) : Sys := mkSys b PIdle CIdle [] 0 [].
Definition reachable (cap : nat) (s : Sys) : Prop :=
  exists b, new (E := Empty_set) cap = Ok b /\ rtc step (start b) s.

(** ** Arithmetic and copies *)
Lemma mod_wrap cap a k : (a < cap)%nat -> (k <= cap)%nat ->
  ((a + k) mod cap)%nat = if (a + k <? cap)%nat then (a + k)%nat else (a + k - cap)%nat.
Proof.
  intros Ha Hk. destruct (Nat.ltb_spec (a + k) cap); [by apply Nat.mod_small|].
  replace (a + k)%nat with ((a + k - cap) + 1 * cap)%nat at 1 by lia. rewrite Nat.Div0.mod_add. apply Nat.mod_small. lia.
Qed.

Ltac wrapped := rewrite ?mod_wrap in * by lia;
  repeat match goal with
  | |- context [(?a <? ?b)%nat] => destruct (Nat.ltb_spec a b)
  | H : context [(?a <? ?b)%nat] |- _ => destruct (Nat.ltb_spec a b)
  end.

Lemma usub_ok {E} a b : (b <= a)%nat -> usub (E := E) a b = Ok (a - b)%nat.
Proof. unfold usub. intros H. destruct (Nat.leb_spec b a); [done|lia]. Qed.
Lemma uadd_ok {E} a b : Z.of_nat a + Z.of_nat b < 2 ^ 64 -> uadd (E := E) a b = Ok (a + b)%nat.
Proof. intros H. unfold uadd. by rewrite chk_u_ok by (unfold uint; lia). Qed.
Lemma urem_ok {E} a b : (0 < b)%nat -> urem (E := E) a b = Ok (a mod b)%nat.
Proof. intros H. unfold urem. destruct (Nat.eqb_spec b 0); [lia|done]. Qed.

Lemma available_ok {E} cap r k : (r < cap)%nat -> (k < cap)%nat -> Z.of_nat cap < 2 ^ 63 ->
  available_of (E := E) cap ((r + k) mod cap) r = Ok k.
Proof.
  intros Hr Hk Hc. unfold available_of. wrapped.
  - destruct (Nat.leb_spec r (r + k)); [|lia]. rewrite usub_ok by lia. f_equal. lia.
  - destruct (Nat.leb_spec r (r + k - cap)); [lia|]. rewrite usub_ok by lia. cbn [mbind outcome_bind]. rewrite uadd_ok by lia. f_equal. lia.
Qed.
Lemma free_ok {E} cap k : (k < cap)%nat -> free_of (E := E) cap k = Ok (cap - k - 1)%nat.
Proof. intros H. unfold free_of. rewrite usub_ok by lia. cbn [mbind outcome_bind]. by rewrite usub_ok by lia. Qed.

Lemma copy_to_spec {E} d pos bytes : (pos + length bytes <= length d)%nat -> exists d', copy_to (E := E) d pos bytes = Ok d' /\
  length d' = length d /\ (forall j, (j < length bytes)%nat -> d' !! (pos + j)%nat = bytes !! j) /\
  (forall p, (p < pos)%nat \/ (pos + length bytes <= p)%nat -> d' !! p = d !! p).
Proof.
  intros H. unfold copy_to. destruct (Nat.leb_spec (pos + length bytes) (length d)); [|lia]. eexists. split; [done|].
  assert (length (take pos d) = pos) as Hl by (rewrite length_take; lia). split_and!.
  - rewrite !length_app, length_drop, Hl. lia.
  - intros j Hj. rewrite lookup_app_r, Hl by lia. replace (pos + j - pos)%nat with j by lia. by rewrite lookup_app_l.
  - intros p [Hp|Hp].
    + rewrite lookup_app_l by lia. by rewrite lookup_take_lt.
    + rewrite lookup_app_r, Hl by lia. rewrite lookup_app_r by lia. rewrite lookup_drop. f_equal. lia.
Qed.

Lemma slice_ok {E} (d : list Z) i n : (i + n <= length d)%nat -> slice (E := E) d i (i + n) = Ok (take n (drop i d)).
Proof.
  intros H. unfold slice. destruct (Nat.leb_spec i (i + n)), (Nat.leb_spec (i + n) (length d)); try lia. cbn [andb].
  by replace (i + n - i)%nat with n by lia.
Qed.

Lemma slice_start {E} (d : list Z) n : (n <= length d)%nat -> slice (E := E) d 0 n = Ok (take n d).
Proof. intros H. rewrite <- (Nat.add_0_l n) at 1. by rewrite slice_ok, drop_0. Qed.

(** [q] is stored from position [r] on, around the end. *)
Definition holds (d : list Z) (cap r : nat) (q : list Z) : Prop :=
  length d = cap /\ (r < cap)%nat /\ (length q < cap)%nat /\ Z.of_nat cap < 2 ^ 63 /\
  forall i, (i < length q)%nat -> d !! ((r + i) mod cap)%nat = q !! i.

Lemma holds_first d cap r q n : holds d cap r q -> (n <= length q)%nat -> (n <= cap - r)%nat -> take n (drop r d) = take n q.
Proof.
  intros (Hl & Hr & Hq & _ & Hd) Hn Hc. apply list_eq. intros i. destruct (decide (i < n)%nat) as [Hi|Hi].
  - rewrite !lookup_take_lt, lookup_drop by lia. rewrite <- Hd by lia. wrapped; [done|lia].
  - rewrite !lookup_take_ge by lia. done.
Qed.

Lemma holds_second d cap r q n : holds d cap r q -> (n <= length q)%nat -> (cap - r <= n)%nat ->
  take (n - (cap - r)) d = take (n - (cap - r)) (drop (cap - r) q).
Proof.
  intros (Hl & Hr & Hq & _ & Hd) Hn Hc. apply list_eq. intros i. destruct (decide (i < n - (cap - r))%nat) as [Hi|Hi].
  - rewrite !lookup_take_lt, lookup_drop by lia. rewrite <- Hd by lia. wrapped; [lia|]. f_equal. lia.
  - rewrite !lookup_take_ge by lia. done.
Qed.

(** What [copy_out] copies are the first bytes of the queue. *)
Lemma copy_out_ok {E} b q n : holds (data b) (capacity b) (read_pos b) q -> (n <= length q)%nat ->
  copy_out (E := E) b (read_pos b) n = Ok (take n q).
Proof.
  intros H Hn. pose proof H as (Hl & Hr & Hq & _ & _). unfold copy_out. rewrite usub_ok by lia. cbn [mbind outcome_bind].
  rewrite usub_ok by lia. cbn [mbind outcome_bind]. rewrite slice_ok by lia. cbn [mbind outcome_bind].
  destruct (Nat.ltb_spec 0 (n - (capacity b - read_pos b) `min` n)) as [Hs|Hs].
  - rewrite slice_start by lia. cbn [mbind outcome_bind]. rewrite Nat.min_l by lia. f_equal.
    rewrite (holds_first _ _ _ q), (holds_second _ _ _ q n) by (done || lia).
    replace n with ((capacity b - read_pos b) + (n - (capacity b - read_pos b)))%nat at 2 by lia. apply take_take_drop.
  - cbn [mbind outcome_bind]. rewrite app_nil_r. f_equal. rewrite (holds_first _ _ _ q) by (done || lia). f_equal. lia.
Qed.

Lemma holds_frame d d' cap r q : holds d cap r q -> length d' = length d ->
  (forall i, (i < length q)%nat -> d' !! ((r + i) mod cap)%nat = d !! ((r + i) mod cap)%nat) -> holds d' cap r q.
Proof. intros (Hl & Hr & Hq & Hc & Hd) Hl' Hf. split_and!; try done; [congruence|]. intros i Hi. by rewrite Hf, Hd. Qed.

(** Writing behind the queue, up to the end of the storage and then from its start. *)
Lemma holds_copy1 d d' cap r q pos k : holds d cap r q -> pos = ((r + length q) mod cap)%nat -> (length q + k < cap)%nat ->
  (pos + k <= cap)%nat -> length d' = length d -> (forall p, (p < pos)%nat \/ (pos + k <= p)%nat -> d' !! p = d !! p) -> holds d' cap r q.
Proof.
  intros H Hp Hk Hc Hl Hf. apply (holds_frame d); [done..|]. pose proof H as (_ & Hr & Hq & _). intros i Hi. apply Hf. wrapped; lia.
Qed.
Lemma holds_copy2 d d' cap r q pos k : holds d cap r q -> pos = ((r + length q) mod cap)%nat ->
  (length q + (cap - pos) + k < cap)%nat -> length d' = length d -> (forall p, (p < 0)%nat \/ (0 + k <= p)%nat -> d' !! p = d !! p) -> holds d' cap r q.
Proof.
  intros H Hp Hk Hl Hf. apply (holds_frame d); [done..|]. pose proof H as (_ & Hr & Hq & _). intros i Hi. apply Hf. wrapped; lia.
Qed.

Lemma holds_extend d cap r q x : holds d cap r q -> (length q + length x < cap)%nat ->
  (forall j, (j < length x)%nat -> d !! (((r + length q) mod cap + j) mod cap)%nat = x !! j) -> holds d cap r (q ++ x).
Proof.
  intros (Hl & Hr & Hq & Hc & Hd) Hx Hj. split_and!; try done; [rewrite length_app; lia|]. intros i Hi. rewrite length_app in Hi.
  destruct (decide (i < length q)%nat).
  - rewrite lookup_app_l by done. by apply Hd.
  - rewrite lookup_app_r by lia. rewrite <- Hj by lia. rewrite Nat.Div0.add_mod_idemp_l. do 2 f_equal. lia.
Qed.

Lemma holds_consume d cap r q n : holds d cap r q -> (n <= length q)%nat -> holds d cap ((r + n) mod cap) (drop n q).
Proof.
  intros (Hl & Hr & Hq & Hc & Hd) Hn. split_and!; try done; [apply Nat.mod_upper_bound; lia|rewrite length_drop; lia|].
  intros i Hi. rewrite length_drop in Hi. rewrite Nat.Div0.add_mod_idemp_l, lookup_drop, <- Hd by lia. do 2 f_equal. lia.
Qed.

(** ** Invariant *)
Definition prod_ok (b : AudioRingBuffer) (used : nat) (p : Producer) : Prop :=
  let fits d n := (n <= length d)%nat /\ (0 < n)%nat /\ (used + n < capacity b)%nat in
  match p with
  | PIdle | PLoadWrite _ | PDone _ _ => True
  | PLoadRead _ w => w = write_pos b
  | PLoadPos d n => fits d n
  | PCopy1 d n pos => pos = write_pos b /\ fits d n
  | PCopy2 d n pos first => pos = write_pos b /\ fits d n /\ first = (capacity b - pos)%nat /\ (first < n)%nat /\
      forall j, (j < first)%nat -> data b !! (pos + j)%nat = d !! j
  | PStore d n pos => pos = write_pos b /\ fits d n /\ forall j, (j < n)%nat -> data b !! ((pos + j) mod capacity b)%nat = d !! j
  end.

Definition cons_ok (b : AudioRingBuffer) (q : list Z) (c : Consumer) : Prop :=
  match c with
  | CIdle | CLoadWrite _ | CDone _ _ _ => True
  | CLoadRead _ w => exists k, (k <= length q)%nat /\ w = ((read_pos b + k) mod capacity b)%nat
  | CLoadPos _ n => (n <= length q)%nat
  | CCopy1 _ n pos => pos = read_pos b /\ (n <= length q)%nat
  | CCopy2 _ n pos part => pos = read_pos b /\ (n <= length q)%nat /\ (capacity b - pos < n)%nat /\ part = take (capacity b - pos) q
  | CStore o n pos out => pos = read_pos b /\ (n <= length q)%nat /\ match o with Skip _ => True | _ => out = take n q end
  end.

(** A stretch of the stream. *)
Definition piece (s : list Z) (e : nat * list Z) : Prop :=
  (e.1 + length e.2 <= length s)%nat /\ e.2 = take (length e.2) (drop e.1 s).

Record Inv (s : Sys) : Prop := {
  inv_taken : (taken s <= length (sent s))%nat;
  inv_holds : holds (data (ring s)) (capacity (ring s)) (read_pos (ring s)) (drop (taken s) (sent s));
  inv_write : write_pos (ring s) = ((read_pos (ring s) + (length (sent s) - taken s)) mod capacity (ring s))%nat;
  inv_prod : prod_ok (ring s) (length (sent s) - taken s) (prod s);
  inv_cons : cons_ok (ring s) (drop (taken s) (sent s)) (cons s);
  inv_log : Forall (piece (sent s)) (log s)
}.

(** One step of a thread does not panic and keeps its part of the invariant. *)
Lemma pstep_ok {E} b q p : holds (data b) (capacity b) (read_pos b) q -> write_pos b = ((read_pos b + length q) mod capacity b)%nat ->
  prod_ok b (length q) p -> exists b' p', pstep (E := E) b p = Ok (b', p') /\ capacity b' = capacity b /\ read_pos b' = read_pos b /\
  let q' := sent_after p q in holds (data b') (capacity b) (read_pos b) q' /\
  write_pos b' = ((read_pos b + length q') mod capacity b)%nat /\ prod_ok b' (length q') p'.
Proof.
  intros Hh Hw Hp. pose proof Hh as (Hl & Hr & Hq & Hc & Hd).
  assert (write_pos b < capacity b)%nat as Hwc by (rewrite Hw; apply Nat.mod_upper_bound; lia).
  destruct p as [|d|d w|d n|d n pos|d n pos first|d n pos|d n]; cbn [pstep sent_after].
  - by eexists _, _.
  - by eexists _, _.
  - cbn [prod_ok] in Hp. subst w. rewrite Hw, available_ok by done. cbn [mbind outcome_bind]. rewrite free_ok by done. cbn [mbind outcome_bind].
    eexists _, _. split; [done|]. split_and!; try done. destruct (Nat.eqb_spec (length d `min` (capacity b - length q - 1)) 0); [done|].
    cbn [prod_ok]. lia.
  - by eexists _, _.
  - destruct Hp as (-> & Hn & Hn0 & Hfit). rewrite usub_ok by lia. cbn [mbind outcome_bind]. rewrite usub_ok by lia. cbn [mbind outcome_bind].
    set (first := ((capacity b - write_pos b) `min` n)%nat). assert (length (take first d) = first) as Hf by (rewrite length_take; lia).
    destruct (copy_to_spec (E := E) (data b) (write_pos b) (take first d)) as (d' & -> & Hl' & Hin & Hout); [rewrite Hf; lia|].
    rewrite Hf in Hin, Hout. cbn [mbind outcome_bind]. eexists _, _. split; [done|].
    cbn [with_data data capacity read_pos write_pos]. split_and!; [done..| |done|].
    { eapply holds_copy1; [exact Hh|exact Hw| |..|exact Hl'|exact Hout]; lia. }
    assert (forall j, (j < first)%nat -> d' !! (write_pos b + j)%nat = d !! j) as Hj by (intros j ?; by rewrite Hin, lookup_take_lt by lia).
    destruct (Nat.ltb_spec 0 (n - first)); cbn [prod_ok with_data write_pos capacity data]; split_and!; try done; try lia.
    intros j Hjn. rewrite mod_wrap by lia. destruct (Nat.ltb_spec (write_pos b + j) (capacity b)); [apply Hj|]; lia.
  - destruct Hp as (-> & (Hn & Hn0 & Hfit) & -> & Hlt & Hj). set (first := (capacity b - write_pos b)%nat) in *.
    set (x := take (n - first) (drop first d)). assert (length x = n - first)%nat as Hx by (unfold x; rewrite length_take, length_drop; lia).
    destruct (copy_to_spec (E := E) (data b) 0 x) as (d' & -> & Hl' & Hin & Hout); [lia|].
    rewrite Hx in Hin, Hout. cbn [mbind outcome_bind]. eexists _, _. split; [done|].
    cbn [with_data data capacity read_pos write_pos]. split_and!; [done..| |done|].
    { eapply holds_copy2; [exact Hh|exact Hw| |exact Hl'|exact Hout]; lia. }
    cbn [prod_ok with_data write_pos capacity data]. split_and!; try done. intros j Hjn. rewrite mod_wrap by lia.
    destruct (Nat.ltb_spec (write_pos b + j) (capacity b)).
    + rewrite Hout by lia. apply Hj. lia.
    + replace (write_pos b + j - capacity b)%nat with (0 + (j - first))%nat by lia. rewrite Hin by lia. unfold x.
      rewrite lookup_take_lt, lookup_drop by lia. f_equal. lia.
  - destruct Hp as (-> & (Hn & Hn0 & Hfit) & Hj). rewrite uadd_ok by lia. cbn [mbind outcome_bind]. rewrite urem_ok by lia. cbn [mbind outcome_bind].
    eexists _, _. split; [done|]. cbn [with_write data capacity read_pos write_pos]. assert (length (take n d) = n) as Ht by (rewrite length_take; lia).
    split_and!; [done..| | |done].
    + apply holds_extend; [done|lia|]. rewrite Ht. intros j Hjn. rewrite <- Hw, Hj, lookup_take_lt by done. done.
    + rewrite length_app, Ht, Hw, Nat.Div0.add_mod_idemp_l. f_equal. lia.
  - by eexists _, _.
Qed.

Lemma cstep_ok {E} b q c t l s : holds (data b) (capacity b) (read_pos b) q -> write_pos b = ((read_pos b + length q) mod capacity b)%nat ->
  cons_ok b q c -> (t + length q = length s)%nat -> q = drop t s -> Forall (piece s) l ->
  exists b' c', cstep (E := E) b c = Ok (b', c') /\ capacity b' = capacity b /\ write_pos b' = write_pos b /\ data b' = data b /\
  let n := taken_after c 0 in (n <= length q)%nat /\ read_pos b' = ((read_pos b + n) mod capacity b)%nat /\
  cons_ok b' (drop n q) c' /\ Forall (piece s) (log_after c c' t l).
Proof.
  intros Hh Hw Hc Ht Hq Hlog. pose proof Hh as (Hl & Hr & Hlen & Hmax & Hd).
  assert (((read_pos b + 0) mod capacity b)%nat = read_pos b) as H0 by (rewrite Nat.add_0_r; by apply Nat.mod_small).
  assert (forall n, (n <= length q)%nat -> piece s (t, take n q)) as Hpiece.
  { intros n Hn. unfold piece. cbn [fst snd]. rewrite length_take, Nat.min_l by done. split; [lia|]. by rewrite Hq. }
  destruct c as [|o|o w|o n|o n pos|o n pos part|o n pos out|o n out]; cbn [cstep taken_after].
  - eexists _, _. split; [done|]. by rewrite H0, drop_0; split_and!; try done; lia.
  - eexists _, _. split; [done|]. rewrite H0, drop_0. split_and!; try done; [lia|]. cbn [cons_ok]. by exists (length q).
  - destruct Hc as (k & Hk & ->). rewrite available_ok by (done || lia). cbn [mbind outcome_bind]. eexists _, _. split; [done|]. rewrite H0, drop_0.
    split_and!; try done; [lia|]. destruct o; [destruct (_ =? 0)%nat|destruct (_ =? 0)%nat|]; cbn [cons_ok wanted]; try done; lia.
  - eexists _, _. split; [done|]. rewrite H0, drop_0. split_and!; try done; [lia|]. by destruct o; cbn [cons_ok].
  - destruct Hc as [-> Hn]. rewrite usub_ok by lia. cbn [mbind outcome_bind]. rewrite usub_ok by lia. cbn [mbind outcome_bind].
    rewrite slice_ok by lia. cbn [mbind outcome_bind]. rewrite (holds_first _ _ _ q) by (done || lia). eexists _, _. split; [done|].
    rewrite H0, drop_0. destruct (Nat.ltb_spec 0 (n - (capacity b - read_pos b) `min` n)) as [Hs|Hs].
    + split_and!; try done; [lia|]. rewrite Nat.min_l by lia. cbn [cons_ok]. split_and!; try done. lia.
    + rewrite Nat.min_r by lia. split_and!; try done; [lia|destruct o; cbn [copied cons_ok]; done|].
      destruct o; cbn [copied log_after]; try done. apply Forall_app. split; [done|]. apply Forall_singleton. by apply Hpiece.
  - destruct Hc as (-> & Hn & Hlt & ->). rewrite length_take, Nat.min_l by lia. rewrite slice_start by lia. cbn [mbind outcome_bind].
    rewrite (holds_second _ _ _ q n) by (done || lia). rewrite take_take_drop.
    replace (capacity b - read_pos b + (n - (capacity b - read_pos b)))%nat with n by lia. eexists _, _. split; [done|].
    rewrite H0, drop_0. split_and!; try done; [lia|destruct o; cbn [copied cons_ok]; done|].
    destruct o; cbn [copied log_after]; try done. apply Forall_app. split; [done|]. apply Forall_singleton. by apply Hpiece.
  - destruct Hc as (-> & Hn & Ho). rewrite uadd_ok by lia. cbn [mbind outcome_bind]. rewrite urem_ok by lia. cbn [mbind outcome_bind].
    eexists _, _. split; [done|]. split_and!; try done. destruct o; cbn [log_after]; try done.
    apply Forall_app. split; [done|]. apply Forall_singleton. rewrite Ho. by apply Hpiece.
  - eexists _, _. split; [done|]. by rewrite H0, drop_0; split_and!; try done; lia.
Qed.

Lemma cons_ok_grow b b' q x c : capacity b' = capacity b -> read_pos b' = read_pos b -> cons_ok b q c -> cons_ok b' (q ++ x) c.
Proof.
  intros Hc Hr. assert (forall n, (n <= length q)%nat -> (n <= length (q ++ x))%nat) as Hle by (intros; rewrite length_app; lia).
  destruct c; cbn [cons_ok]; rewrite ?Hc, ?Hr; try done.
  - intros (k & ? & ?). exists k. auto.
  - auto.
  - intros []. auto.
  - intros (-> & Hn & Hlt & ->). split_and!; auto. by rewrite take_app_le by lia.
  - intros (-> & Hn & Ho). split_and!; auto. rewrite take_app_le by lia. done.
Qed.

Lemma prod_ok_shrink b b' u u' p : capacity b' = capacity b -> write_pos b' = write_pos b -> data b' = data b -> (u' <= u)%nat ->
  prod_ok b u p -> prod_ok b' u' p.
Proof. intros Hc Hw Hd Hu. destruct p; cbn [prod_ok]; rewrite ?Hc, ?Hw, ?Hd; intuition lia. Qed.

Lemma sent_after_app p s : exists x, sent_after p s = s ++ x.
Proof. destruct p; cbn; try (exists []; by rewrite app_nil_r). by eexists. Qed.

Lemma ring_step_inv s s' : step s s' -> Inv s -> Inv s'.
Proof.
  intros Hs [Ht Hh Hw Hp Hc Hl]. destruct Hs as [b p c s t l d _|b p c s t l b' p' Hs|b p c s t l o _|b p c s t l b' c' Hs]; cbn [ring prod cons sent taken log] in *.
  - by split.
  - assert (length (drop t s) = length s - t)%nat as Hlen by apply length_drop. rewrite <- Hlen in Hw, Hp.
    destruct (pstep_ok (E := Empty_set) b (drop t s) p Hh Hw Hp) as (b1 & p1 & Hs1 & H1 & H2 & H3 & H4 & H5). rewrite Hs1 in Hs. simplify_eq.
    assert (sent_after p (drop t s) = drop t (sent_after p s)) as Hsa by (destruct p; cbn; try done; by rewrite drop_app_le).
    rewrite Hsa in H3, H4, H5. rewrite length_drop in H4, H5. destruct (sent_after_app p s) as (x & Ex). rewrite Ex in *.
    split; cbn [ring prod cons sent taken log]; rewrite ?H1, ?H2; try done.
    + rewrite length_app. lia.
    + rewrite drop_app_le by done. by eapply cons_ok_grow.
    + eapply Forall_impl; [exact Hl|]. intros [k out] [Hk Ho]. cbn [fst snd] in *. split; cbn [fst snd]; [rewrite length_app; lia|].
      rewrite drop_app_le, take_app_le; [done| |lia]. rewrite length_drop. lia.
  - by split.
  - assert (length (drop t s) = length s - t)%nat as Hlen by apply length_drop. rewrite <- Hlen in Hw.
    destruct (cstep_ok (E := Empty_set) b (drop t s) c t l s Hh Hw Hc) as (b1 & c1 & Hs1 & H1 & H2 & H3 & Hn & H4 & H5 & H6); [lia|done|done|].
    rewrite Hs1 in Hs. simplify_eq. assert (taken_after c t = t + taken_after c 0)%nat as Et by (destruct c; cbn; lia).
    rewrite drop_drop in H5. set (n := taken_after c 0) in *. rewrite Et.
    split; cbn [ring prod cons sent taken log]; rewrite ?H1, ?H2, ?H3, ?H4; try done.
    + lia.
    + rewrite <- drop_drop. by apply holds_consume.
    + rewrite Hw, Nat.Div0.add_mod_idemp_l. f_equal. lia.
    + eapply prod_ok_shrink; [..|exact Hp]; [done..|lia].
Qed.

Lemma ring_reachable_inv cap s : (0 < cap)%nat -> reachable cap s -> Inv s.
Proof.
  intros H0 (b & Hn & Hr). unfold new, zeroed in Hn. destruct (Z.ltb_spec (Z.of_nat cap) (2 ^ 63)) as [Hmax|]; [|done]. cbn [mbind outcome_bind] in Hn.
  apply bind_ok in Hn as (_ & _ & Hn). injection Hn as <-.
  remember (start _) as s0 eqn:E. assert (Inv s0) as Hi; [|clear E; induction Hr; [done|eauto using ring_step_inv]]. subst s0.
  split; cbn; try done; [|by rewrite Nat.Div0.mod_0_l]. split_and!; cbn; try done; [by rewrite length_replicate|lia].
Qed.

(** ** A method alone is the sequence of its accesses *)
Fixpoint iter {E A} (f : AudioRingBuffer -> A -> outcome E (AudioRingBuffer * A)) (k : nat) (b : AudioRingBuffer) (a : A)
  : outcome E (AudioRingBuffer * A) :=
  match k with
  | 0%nat => Ok (b, a)
  | S k => '(b, a) ← f b a; iter f k b a
  end.

Lemma write_is_its_steps {E} b d : write (E := E) b d =
  '(b', p) ← iter pstep 6 b (PLoadWrite d);
  match p with PDone _ n => Ok (n, b') | _ => Panic end.
Proof.
  unfold write, free, available. cbn [iter pstep mbind outcome_bind].
  destruct (available_of _ _ _) as [a| |]; cbn [mbind outcome_bind]; [|done..].
  destruct (free_of _ _) as [f| |]; cbn [mbind outcome_bind]; [|done..].
  destruct (_ =? 0)%nat; [done|]. cbn [pstep mbind outcome_bind]. destruct (usub (capacity b) (write_pos b)) as [room| |]; cbn [mbind outcome_bind]; [|done..].
  destruct (usub _ (room `min` _)) as [second| |] eqn:Hs; cbn [mbind outcome_bind]; [|done..]. unfold usub in Hs. destruct (_ <=? _)%nat in Hs; [|done].
  injection Hs as <-. destruct (copy_to (data b) _ _) as [d1| |]; cbn [mbind outcome_bind]; [|done..].
  destruct (0 <? _)%nat; cbn [pstep mbind outcome_bind with_data data capacity].
  - destruct (copy_to d1 0 _) as [d2| |]; cbn [mbind outcome_bind pstep with_data capacity]; [|done..].
    destruct (uadd _ _) as [x| |]; cbn [mbind outcome_bind]; [|done..]. by destruct (urem _ _).
  - destruct (uadd _ _) as [x| |]; cbn [mbind outcome_bind]; [|done..]. by destruct (urem _ _).
Qed.

(** ** The queue the buffer implements *)
Definition represents (b : AudioRingBuffer) (q : list Z) : Prop :=
  holds (data b) (capacity b) (read_pos b) q /\ write_pos b = ((read_pos b + length q) mod capacity b)%nat.

Lemma represents_available {E} b q : represents b q -> available (E := E) b = Ok (length q).
Proof. intros [(? & ? & ? & ? & ?) Hw]. unfold available. rewrite Hw. by apply available_ok. Qed.

Lemma represents_free {E} b q : represents b q -> free (E := E) b = Ok (capacity b - length q - 1)%nat.
Proof.
  intros Hr. unfold free. rewrite (represents_available _ q) by done. destruct Hr as [(_ & _ & Hq & _) _]. cbn [mbind outcome_bind]. by apply free_ok.
Qed.

Lemma represents_advance {E} b q n : represents b q -> (n <= length q)%nat ->
  exists b', (s ← uadd (read_pos b) n; r ← urem s (capacity b); Ok (with_read b r)) = @Ok E _ b' /\ represents b' (drop n q).
Proof.
  intros [Hh Hw] Hn. pose proof Hh as (? & ? & ? & ? & _). rewrite uadd_ok by lia. cbn [mbind outcome_bind]. rewrite urem_ok by lia. cbn [mbind outcome_bind].
  eexists. split; [done|]. split; cbn [with_read data capacity read_pos write_pos]; [by apply holds_consume|].
  rewrite Hw, Nat.Div0.add_mod_idemp_l, length_drop. f_equal. lia.
Qed.

Lemma represents_write {E} b q d : represents b q -> let n := (length d `min` (capacity b - length q - 1))%nat in
  exists b', write (E := E) b d = Ok (n, b') /\ capacity b' = capacity b /\ represents b' (q ++ take n d).
Proof.
  intros Hr. unfold write. rewrite (represents_free b q) by done. cbn [mbind outcome_bind]. set (n := (_ `min` _)%nat). destruct Hr as [Hh Hw].
  destruct (Nat.eqb_spec n 0) as [E0|E0]; [rewrite E0, take_0, app_nil_r; by exists b|]. pose proof Hh as (Hl & Hrd & Hq & Hmax & _).
  assert (write_pos b < capacity b)%nat as Hwc by (rewrite Hw; apply Nat.mod_upper_bound; lia).
  destruct (pstep_ok (E := E) b q (PCopy1 d n (write_pos b)) Hh Hw) as (b1 & p1 & Hs1 & Hc1 & Hr1 & Hh1 & Hw1 & Hp1); [cbn; lia|].
  cbn [sent_after pstep] in Hs1, Hh1, Hw1, Hp1. rewrite usub_ok in Hs1 by lia. cbn [mbind outcome_bind] in Hs1. rewrite usub_ok in Hs1 by lia.
  cbn [mbind outcome_bind] in Hs1. rewrite usub_ok by lia. cbn [mbind outcome_bind]. rewrite usub_ok by lia. cbn [mbind outcome_bind].
  set (first := ((capacity b - write_pos b) `min` n)%nat) in *. destruct (copy_to _ _ _) as [d1| |]; [|done..]. cbn [mbind outcome_bind] in *.
  injection Hs1 as <- Hp. rewrite uadd_ok by lia. cbn [with_data data capacity read_pos write_pos] in *.
  assert (exists d2, (if (0 <? n - first)%nat then copy_to d1 0 (take (n - first) (drop first d)) else Ok d1) = @Ok E _ d2 /\
    holds d2 (capacity b) (read_pos b) q /\ prod_ok (with_data b d2) (length q) (PStore d n (write_pos b))) as (d2 & -> & Hh2 & Hp2).
  { destruct (0 <? n - first)%nat; subst p1; [|by exists d1].
    destruct (pstep_ok (E := E) (with_data b d1) q _ Hh1 Hw Hp1) as (b2 & p2 & Hs2 & _ & _ & Hh2 & _ & Hp2).
    cbn [pstep with_data data sent_after capacity read_pos] in *. destruct (copy_to _ _ _) as [d2| |]; [|done..]. injection Hs2 as <- <-. by exists d2. }
  cbn [mbind outcome_bind]. rewrite urem_ok by lia. cbn [mbind outcome_bind]. eexists. split; [done|]. split; [done|].
  destruct (pstep_ok (E := E) (with_data b d2) q _ Hh2 Hw Hp2) as (b3 & p3 & Hs3 & Hc3 & Hr3 & Hh3 & Hw3 & _).
  cbn [pstep sent_after with_data capacity] in *. rewrite uadd_ok in Hs3 by lia. cbn [mbind outcome_bind] in Hs3. rewrite urem_ok in Hs3 by lia.
  injection Hs3 as <- <-. by split.
Qed.

(** Reading and writing keep the sizes. *)
Lemma write_keeps {E} b d n b' : write (E := E) b d = Ok (n, b') ->
  capacity b' = capacity b /\ high_watermark b' = high_watermark b /\ low_watermark b' = low_watermark b.
Proof.
  unfold write. intros H. apply bind_ok in H as (sp & _ & H). destruct (_ =? 0)%nat; [by simplify_eq|].
  repeat (apply bind_ok in H as (? & _ & H)). by simplify_eq.
Qed.

Lemma read_keeps {E} b out r b' : read (E := E) b out = Ok (r, b') ->
  capacity b' = capacity b /\ high_watermark b' = high_watermark b /\ low_watermark b' = low_watermark b.
Proof.
  unfold read. intros H. apply bind_ok in H as (sp & _ & H). destruct (_ =? 0)%nat; [by simplify_eq|].
  repeat (apply bind_ok in H as (? & _ & H)). by simplify_eq.
Qed.

(** ** Properties *)

(** C4: the ring is a queue between two threads. Under every interleaving of the
    accesses of one producer calling [write] and one consumer calling [read],
    [peek] and [skip], each read and peek returned exactly the bytes of the written
    stream at the place the consumer had reached: nothing is lost, repeated,
    reordered or torn. What was accepted and not yet consumed is at most the
    capacity less one, and is what [available] computes; and no access panics,
    overflows or leaves the storage, whatever the other thread is in the middle of. *)
Theorem ring_fifo (cap : nat) (s : Sys) (H0 : (0 < cap)%nat) (Hr : reachable cap s) :
  Forall (fun e => (e.1 + length e.2 <= length (sent s))%nat /\ e.2 = take (length e.2) (drop e.1 (sent s))) (log s) /\
  (taken s <= length (sent s) < taken s + capacity (ring s))%nat /\
  available (E := Empty_set) (ring s) = Ok (length (sent s) - taken s)%nat /\
  safe (pstep (E := Empty_set) (ring s) (prod s)) /\ safe (cstep (E := Empty_set) (ring s) (cons s)).
Proof.
  destruct (ring_reachable_inv cap s H0 Hr) as [Ht Hh Hw Hp Hc Hl]. rewrite <- length_drop in Hw, Hp.
  assert (represents (ring s) (drop (taken s) (sent s))) as Hrep by done. pose proof Hh as (_ & _ & Hlt & _). rewrite length_drop in Hlt.
  split_and!; [done|lia|lia| | |].
  - by rewrite (represents_available _ _ Hrep), length_drop.
  - by destruct (pstep_ok (E := Empty_set) _ _ _ Hh Hw Hp) as (? & ? & -> & _).
  - destruct (cstep_ok (E := Empty_set) _ _ _ (taken s) (log s) (sent s) Hh Hw Hc) as (? & ? & -> & _); try done. rewrite length_drop. lia.
Qed.

(** The methods implement a bounded queue. On a buffer holding the bytes [q],
    [write] accepts the longest prefix that fits in the capacity less one and
    appends it; [read] moves the next bytes of [q] to the output, as many as fit,
    and leaves the rest of the output alone; [peek] does the same and keeps them;
    [skip] drops them; none of them panics. A [write] is the sequence of accesses
    whose interleavings the previous property is about. *)
Theorem ring_queue_ops {E} (b : AudioRingBuffer) (q d out : list Z) (count : nat) (Hr : represents b q) :
  (let n := (length d `min` (capacity b - length q - 1))%nat in
   exists b', write (E := E) b d = Ok (n, b') /\ represents b' (q ++ take n d)) /\
  (let n := (length out `min` length q)%nat in
   exists b', read (E := E) b out = Ok (n, take n q ++ drop n out, b') /\ represents b' (drop n q)) /\
  (let n := (length out `min` length q)%nat in peek (E := E) b out = Ok (n, take n q ++ drop n out)) /\
  (let n := (count `min` length q)%nat in exists b', skip (E := E) b count = Ok (n, b') /\ represents b' (drop n q)) /\
  write (E := E) b d =
    '(b', p) ← iter pstep 6 b (PLoadWrite d); match p with PDone _ n => Ok (n, b') | _ => Panic end.
Proof.
  pose proof (represents_available (E := E) b q Hr) as Ha. split_and!.
  - destruct (represents_write (E := E) b q d Hr) as (b' & ? & _ & ?). by exists b'.
  - intros n. unfold read. rewrite Ha. cbn [mbind outcome_bind]. fold n. destruct (Nat.eqb_spec n 0) as [E0|_]; [rewrite E0, !drop_0; by exists b|].
    rewrite (copy_out_ok b q) by (destruct Hr; done || lia). cbn [mbind outcome_bind].
    destruct (represents_advance (E := E) b q n Hr) as (b' & Hb & Hr'); [lia|]. exists b'. split; [|done].
    apply bind_ok in Hb as (x & -> & Hb). cbn [mbind outcome_bind]. apply bind_ok in Hb as (y & -> & Hb). cbn [mbind outcome_bind]. by injection Hb as ->.
  - intros n. unfold peek. rewrite Ha. cbn [mbind outcome_bind]. fold n. destruct (Nat.eqb_spec n 0) as [E0|_]; [by rewrite E0, drop_0|].
    by rewrite (copy_out_ok b q) by (destruct Hr; done || lia).
  - intros n. unfold skip. rewrite Ha. cbn [mbind outcome_bind]. fold n. destruct (represents_advance (E := E) b q n Hr) as (b' & Hb & Hr'); [lia|].
    exists b'. split; [|done]. apply bind_ok in Hb as (x & -> & Hb). cbn [mbind outcome_bind]. apply bind_ok in Hb as (y & -> & Hb).
    cbn [mbind outcome_bind]. by injection Hb as ->.
  - apply write_is_its_steps.
Qed.

(** A buffer of capacity zero panics on its first use. *)
Example zero_capacity : exists b, new (E := Empty_set) 0 = Ok b /\ write b [1] = @Panic Empty_set _ /\ skip b 0 = @Panic Empty_set _.
Proof. eexists. by split_and!. Qed.

(** ** Witnesses *)

(** Three bytes, stored around the end. *)
Definition demo_ring : AudioRingBuffer := mkRing [3; 0; 1; 2] 4 2 1 3 1.

Lemma ring_queue_ops_witness : exists b', write (E := Empty_set) demo_ring [9] = Ok (0%nat, b') /\
  peek (E := Empty_set) demo_ring [0; 0; 0; 0; 7] = Ok (3%nat, [1; 2; 3; 0; 7]).
Proof.
  assert (represents demo_ring [1; 2; 3]) as H.
  { split; [|done]. split_and!; cbn; try lia. intros [|[|[|i]]] Hi; [done..|lia]. }
  destruct (ring_queue_ops (E := Empty_set) demo_ring [1; 2; 3] [9] [0; 0; 0; 0; 7] 0 H) as ((b' & Hw & _) & _ & Hp & _).
  exists b'. by split.
Defined.

Lemma ring_fifo_witness : exists s, reachable 4 s /\ log s = [(0%nat, [5; 6])] /\ sent s = [5; 6] /\ taken s = 2%nat /\
  take 2 (drop 0 (sent s)) = [5; 6].
Proof.
  assert (exists s, reachable 4 s /\ log s = [(0%nat, [5; 6])] /\ sent s = [5; 6] /\ taken s = 2%nat) as (s & Hr & Hl & Hs & Ht).
  { exists (mkSys (mkRing [5; 6; 0; 0] 4 2 2 3 1) (PDone [5; 6] 2) (CDone (Read 2) 2 [5; 6]) [5; 6] 2 [(0%nat, [5; 6])]). split; [|done].
    exists (mkRing [0; 0; 0; 0] 4 0 0 3 1). split; [done|].
    eapply rtc_l; [apply (step_call _ _ _ _ _ _ [5; 6]); by left|].
    do 5 (eapply rtc_l; [apply step_prod; reflexivity|]; cbn).
    eapply rtc_l; [apply (step_ask _ _ _ _ _ _ (Read 2)); by left|].
    do 5 (eapply rtc_l; [apply step_cons; reflexivity|]; cbn).
    apply rtc_refl. }
  exists s. destruct (ring_fifo 4 s) as (Hf & _); [lia|done|]. split_and!; try done. rewrite Hl in Hf.
  apply Forall_singleton in Hf as [_ Hf]. cbn in Hf. done.
Defined.

End RingBuffer.
