(* ===== verification/AudioFormat.v ===== *)
(** * Audio formats

    Models [src/audio/format.rs]: sample formats, rates and channels, the sizes they
    determine, and the conversions between frames, bytes and durations, whose floating-point
    arithmetic is that of [Float].  A [Duration] is its seconds and nanoseconds. *)

From S2P Require Import Prelude Bytes Float.

Module AudioFormat.

Inductive SampleFormat := I16 | I24 | I32 | SF32.
Inductive SampleRate := Hz44100 | Hz48000 | Hz88200 | Hz96000.
Inductive ChannelConfig := Mono | Stereo | Surround51 | Surround71.
#[export] Instance SampleFormat_eq_dec : EqDecision SampleFormat.
Proof. solve_decision. Defined.
#[export] Instance SampleRate_eq_dec : EqDecision SampleRate.
Proof. solve_decision. Defined.
#[export] Instance ChannelConfig_eq_dec : EqDecision ChannelConfig.
Proof. solve_decision. Defined.

Definition bytes_per_sample (f : SampleFormat) : nat := match f with I16 => 2 | I24 => 3 | I32 | SF32 => 4 end.
Definition bits_per_sample (f : SampleFormat) : Z := match f with I16 => 16 | I24 => 24 | I32 | SF32 => 32 end.
Definition as_u32 (r : SampleRate) : Z :=
  match r with Hz44100 => 44100 | Hz48000 => 48000 | Hz88200 => 88200 | Hz96000 => 96000 end.
Definition from_hz (hz : Z) : option SampleRate :=
  if hz =? 44100 then Some Hz44100 else if hz =? 48000 then Some Hz48000
  else if hz =? 88200 then Some Hz88200 else if hz =? 96000 then Some Hz96000 else None.
Definition channel_count (c : ChannelConfig) : nat := match c with Mono => 1 | Stereo => 2 | Surround51 => 6 | Surround71 => 8 end.

Record AudioFormat := mkFormat { sample_format : SampleFormat; sample_rate : SampleRate; channels : ChannelConfig }.
#[export] Instance AudioFormat_eq_dec : EqDecision AudioFormat.
Proof. solve_decision. Defined.

Definition CD_QUALITY : AudioFormat := mkFormat I16 Hz44100 Stereo.

Definition bytes_per_frame (f : AudioFormat) : nat := bytes_per_sample (sample_format f) * channel_count (channels f).
Definition bytes_per_second (f : AudioFormat) : Z := Z.of_nat (bytes_per_frame f) * as_u32 (sample_rate f).

Record Duration := mkDuration { d_secs : Z; d_nanos : Z }.
Definition duration_of_nanos (n : Z) : Duration := mkDuration (n / 1000000000) (n mod 1000000000).

Section Conversions.
Context {E : Type}.

(** [frames as f64 / f64::from(rate)] seconds. *)
Definition frames_to_duration (f : AudioFormat) (frames : Z) : outcome E Duration :=
  n ← Float.from_secs_f64 (Float.div F64 (Float.of_int F64 frames) (Float.of_int F64 (as_u32 (sample_rate f))));
  Ok (duration_of_nanos n).

Definition duration_to_frames (f : AudioFormat) (d : Duration) : Z :=
  Float.trunc_to_uint F64 64 (Float.mul F64 (Float.as_secs_f64 (d_secs d) (d_nanos d)) (Float.of_int F64 (as_u32 (sample_rate f)))).

Definition duration_to_bytes (f : AudioFormat) (d : Duration) : outcome E Z :=
  chk_u 64 (duration_to_frames f d * Z.of_nat (bytes_per_frame f)).
End Conversions.

(** The codecs and their parameters. *)
Inductive AudioCodec := Pcm | Alac | Aac | AacEld | Opus.
Inductive AacProfile := Lc | He | HeV2.
Inductive CodecParams :=
| PcmParams (format : AudioFormat) (big_endian : bool)
| AlacParams (format : AudioFormat) (magic_cookie : list Z)
| AacParams (profile : AacProfile) (asc : list Z).

(** ** Lemmas *)
Lemma bytes_per_frame_bounds f : (0 < bytes_per_frame f <= 32)%nat.
Proof. destruct f as [[] [] []]; cbn; lia. Qed.

Lemma from_hz_as_u32 r : from_hz (as_u32 r) = Some r.
Proof. by destruct r. Qed.

(** A frame is lost on the way through a duration: two frames last 45351 ns, of which
    only one whole frame is recovered. *)
Example duration_loses_a_frame :
  frames_to_duration (E := Empty_set) CD_QUALITY 2 = Ok (mkDuration 0 45351) /\ duration_to_frames CD_QUALITY (mkDuration 0 45351) = 1.
Proof. vm_compute. done. Qed.

End AudioFormat.
