(* ===== verification/PcmStream.v ===== *)
(** * PCM streaming

    Models [src/streaming/source.rs], [src/audio/aac_encoder.rs] and
    [src/streaming/pcm.rs]: audio sources, and the client's streamer, which moves audio
    from a source through the ring buffer into encrypted RTP packets, one per tick of a
    timer, and answers commands in between.

    The loop of [streaming_loop] selects among a tick of the audio timer, a tick of the
    announce timer and a command in the channel; here it consumes the sequence of what was
    selected, in which a call of another task (which fills the channel) may also appear.
    The connection is the list of what it was handed, and a tick of the audio timer says
    whether its send succeeds.  A source returns the bytes it read, an interface with two of the
    crate's implementations; the ALAC and AAC encoders are external. *)

From S2P Require Import Prelude Bytes RtpPacket AesCtr Aead RtpCodec PacketBuffer RingBuffer AudioFormat.
Import AudioFormat.

Module PcmStream.

(** ** Sources *)
Inductive IoError := IoFailed | Unsupported | InvalidInput.

Class AudioSource (S : Type) := {
  src_format : S -> AudioFormat;
  src_read : S -> nat -> outcome IoError (list Z) * S;
  src_seek : S -> Duration -> outcome IoError unit * S;
  src_is_seekable : S -> bool
}.

Record SliceSource := mkSlice { s_data : list Z; position : nat; s_format : AudioFormat }.

Definition Slice_new (data : list Z) (f : AudioFormat) : SliceSource := mkSlice data 0 f.
(** [flat_map(to_le_bytes)]. *)
Definition from_i16 (samples : list Z) (f : AudioFormat) : SliceSource :=
  Slice_new (mjoin (map (fun x => to_le 2 (wrap 16 x)) samples)) f.

Definition slice_read (s : SliceSource) (n : nat) : outcome IoError (list Z) * SliceSource :=
  if (length (s_data s) <? position s)%nat then (Panic, s)
  else
    let to_read := (n `min` (length (s_data s) - position s))%nat in
    if (to_read =? 0)%nat then (Ok [], s)
    else (Ok (take to_read (drop (position s) (s_data s))), mkSlice (s_data s) (position s + to_read) (s_format s)).

Definition slice_seek (s : SliceSource) (at_ : Duration) : outcome IoError unit * SliceSource :=
  match duration_to_bytes (E := IoError) (s_format s) at_ with
  | Ok byte_pos =>
      if Z.of_nat (length (s_data s)) <? byte_pos then (Err InvalidInput, s)
      else (Ok tt, mkSlice (s_data s) (Z.to_nat byte_pos) (s_format s))
  | Err e => (Err e, s)
  | Panic => (Panic, s)
  end.

#[export] Instance slice_source : AudioSource SliceSource :=
  {| src_format := s_format; src_read := slice_read; src_seek := slice_seek; src_is_seekable _ := true |}.

(** [CallbackSource]: the closure is its captured state and its code. *)
Record CallbackSource (C : Type) := mkCallback { captured : C; callback : C -> nat -> outcome IoError (list Z) * C; cb_format : AudioFormat }.
Arguments captured {C}. Arguments callback {C}. Arguments cb_format {C}. Arguments mkCallback {C}.
Definition callback_read {C} (s : CallbackSource C) (n : nat) : outcome IoError (list Z) * CallbackSource C :=
  match callback s (captured s) n with (r, c) => (r, mkCallback c (callback s) (cb_format s)) end.
#[export] Instance callback_source {C} : AudioSource (CallbackSource C) :=
  {| src_format := cb_format; src_read := callback_read; src_seek s _ := (Err Unsupported, s); src_is_seekable _ := false |}.

(** [SilenceSource], with the trait's default [seek]. *)
Record SilenceSource := mkSilence { q_format : AudioFormat }.
#[export] Instance silence_source : AudioSource SilenceSource :=
  {| src_format := q_format; src_read s n := (Ok (replicate n 0), s); src_seek s _ := (Err Unsupported, s); src_is_seekable _ := false |}.

(** ** The encoders *)
Class Encoders := {
  AlacState : Type;
  alac_new : Z -> Z -> Z -> AlacState;
  (** From rate, channels, input and output buffer to the size and the buffer. *)
  alac_encode : AlacState -> Z -> Z -> list Z -> list Z -> nat * list Z * AlacState;
  FdkState : Type;
  fdk_new : Z -> nat -> Z -> bool -> option FdkState;
  fdk_encode : FdkState -> list Z -> list Z -> option (nat * list Z) * FdkState;
  fdk_frame_length : FdkState -> option Z
}.

Inductive AacEncoderError := Initialization | Encoding.

Section WithEncoders.
Context {EN : Encoders}.

Record AacEncoder := mkAac { aac_state : FdkState; output_buffer : list Z }.

(** [eld]: the object type, enhanced low delay or low complexity. *)
Definition Aac_new (rate : Z) (chans : nat) (bitrate : Z) (eld : bool) : outcome AacEncoderError AacEncoder :=
  if bool_decide (chans = 1%nat \/ chans = 2%nat) then
    e ← ok_or (fdk_new rate chans bitrate eld) Initialization;
    Ok (mkAac e (replicate (8192 * chans) 0))
  else Err Initialization.

Definition Aac_encode (a : AacEncoder) (pcm_samples : list Z) : outcome AacEncoderError (list Z) * AacEncoder :=
  match fdk_encode (aac_state a) pcm_samples (output_buffer a) with
  | (None, e) => (Err Encoding, mkAac e (output_buffer a))
  | (Some (size, out), e) =>
      (if (0 <? size)%nat then slice out 0 size else Ok [], mkAac e out)
  end.

Definition get_frame_length (a : AacEncoder) : option Z := fdk_frame_length (aac_state a).

(** ** The streamer *)
Inductive StreamerState := Idle | Buffering | Streaming | Paused | Finished | StreamerError.
Inductive StreamerCommand := Pause | Resume | Stop | Seek (at_ : Duration) | Retransmit (seq_start count : Z).

(** [commands]: the channel between the callers and the loop. *)
Record PcmStreamer := mkStreamer {
  format : AudioFormat; rtp_codec : RtpCodec.RtpCodec; buffer : RingBuffer.AudioRingBuffer; state : StreamerState;
  commands : list StreamerCommand; encoder : option AlacState; encoder_aac : option AacEncoder; codec_type : AudioCodec;
  packet_buffer : PacketBuffer.PacketBuffer
}.

Definition with_codec (s : PcmStreamer) (c : RtpCodec.RtpCodec) : PcmStreamer :=
  mkStreamer (format s) c (buffer s) (state s) (commands s) (encoder s) (encoder_aac s) (codec_type s) (packet_buffer s).
Definition with_buffer (s : PcmStreamer) (b : RingBuffer.AudioRingBuffer) : PcmStreamer :=
  mkStreamer (format s) (rtp_codec s) b (state s) (commands s) (encoder s) (encoder_aac s) (codec_type s) (packet_buffer s).
Definition with_state (s : PcmStreamer) (x : StreamerState) : PcmStreamer :=
  mkStreamer (format s) (rtp_codec s) (buffer s) x (commands s) (encoder s) (encoder_aac s) (codec_type s) (packet_buffer s).
Definition with_commands (s : PcmStreamer) (l : list StreamerCommand) : PcmStreamer :=
  mkStreamer (format s) (rtp_codec s) (buffer s) (state s) l (encoder s) (encoder_aac s) (codec_type s) (packet_buffer s).
Definition with_encoders (s : PcmStreamer) (a : option AlacState) (b : option AacEncoder) (t : AudioCodec) : PcmStreamer :=
  mkStreamer (format s) (rtp_codec s) (buffer s) (state s) (commands s) a b t (packet_buffer s).
Definition with_packets (s : PcmStreamer) (p : PacketBuffer.PacketBuffer) : PcmStreamer :=
  mkStreamer (format s) (rtp_codec s) (buffer s) (state s) (commands s) (encoder s) (encoder_aac s) (codec_type s) p.

Definition FRAMES_PER_PACKET : nat := 352.
Definition CHANNEL_SIZE : nat := 16.

Definition Streamer_new {E} (ssrc : Z) (f : AudioFormat) (buffer_frames : nat) : outcome E PcmStreamer :=
  _ ← chk_u 64 (Z.of_nat buffer_frames * Z.of_nat (bytes_per_frame f));
  b ← RingBuffer.new (buffer_frames * bytes_per_frame f);
  Ok (mkStreamer f (RtpCodec.RtpCodec_new ssrc) b Idle [] None None Pcm (PacketBuffer.PacketBuffer_new PacketBuffer.DEFAULT_SIZE)).

Definition set_encryption_key (s : PcmStreamer) (key : list Z) : PcmStreamer :=
  with_codec s (RtpCodec.set_chacha_encryption (rtp_codec s) key).

(** A command of a caller: it waits ([None]) while the channel is full.  The receiving
    end is held by the streamer itself, so that sending never fails. *)
Definition send_command (s : PcmStreamer) (c : StreamerCommand) : option PcmStreamer :=
  if (length (commands s) <? CHANNEL_SIZE)%nat then Some (with_commands s (commands s ++ [c])) else None.
Definition pause (s : PcmStreamer) : option PcmStreamer := send_command s Pause.
Definition resume (s : PcmStreamer) : option PcmStreamer := send_command s Resume.
Definition stop (s : PcmStreamer) : option PcmStreamer := send_command s Stop.
Definition seek (s : PcmStreamer) (at_ : Duration) : option PcmStreamer := send_command s (Seek at_).
Definition retransmit (s : PcmStreamer) (seq_start count : Z) : option PcmStreamer := send_command s (Retransmit seq_start count).

Definition use_alac (s : PcmStreamer) : PcmStreamer :=
  with_encoders s (Some (alac_new (as_u32 (sample_rate (format s))) (Z.of_nat FRAMES_PER_PACKET) (Z.of_nat (channel_count (channels (format s)))))) None Alac.
Definition use_aac_of {E} (eld : bool) (s : PcmStreamer) (bitrate : Z) : outcome E PcmStreamer :=
  match Aac_new (as_u32 (sample_rate (format s))) (channel_count (channels (format s))) bitrate eld with
  | Ok e => Ok (with_encoders s None (Some e) (if eld then AacEld else Aac))
  | _ => Panic
  end.
Definition use_aac {E} : PcmStreamer -> Z -> outcome E PcmStreamer := use_aac_of false.
Definition use_aac_eld {E} : PcmStreamer -> Z -> outcome E PcmStreamer := use_aac_of true.
Definition use_pcm (s : PcmStreamer) : PcmStreamer := with_encoders s None None Pcm.

Inductive StreamError :=
| ReadFailed (e : IoError)
| RtpFailed (e : RtpCodec.RtpCodecError)
| SendFailed
| SeekFailed (e : IoError)
| ResamplerFailed (e : IoError).

(** What the connection was handed: audio packets, announced timestamps with the rate,
    and control packets. *)
Record Wire := mkWire { audio : list (list Z); announced : list (Z * Z); control : list (list Z) }.
Definition Wire_empty : Wire := mkWire [] [] [].

Section WithCiphers.
Context {BC : BlockCipher} {AC : AeadCipher} {S : Type} {SRC : AudioSource S}.

(** The [while] loop of [fill_buffer]; every round that does not end it writes at least
    one byte, so that the fuel below is enough (see [fill_safe]). *)
Fixpoint fill_fuel (fuel len : nat) (b : RingBuffer.AudioRingBuffer) (src : S) : outcome StreamError unit * RingBuffer.AudioRingBuffer * S :=
  match RingBuffer.is_ready (E := StreamError) b with
  | Ok true => (Ok tt, b, src)
  | Ok false =>
      match fuel with
      | O => (Panic, b, src)
      | Datatypes.S fuel =>
          match src_read src len with
          | (Ok bytes, src) =>
              if (length bytes =? 0)%nat then (Ok tt, b, src)
              else
                match RingBuffer.write (E := StreamError) b bytes with
                | Ok (_, b) => fill_fuel fuel len b src
                | _ => (Panic, b, src)
                end
          | (Err e, src) => (Err (ReadFailed e), b, src)
          | (Panic, src) => (Panic, b, src)
          end
      end
  | _ => (Panic, b, src)
  end.
Definition fill_buffer (s : PcmStreamer) (src : S) : outcome StreamError unit * PcmStreamer * S :=
  match fill_fuel (RingBuffer.high_watermark (buffer s)) (FRAMES_PER_PACKET * bytes_per_frame (format s) * 4) (buffer s) src with
  | (r, b, src) => (r, with_buffer s b, src)
  end.

(** The variables of [streaming_loop]; [paused]: in the inner loop that waits for a
    command. *)
Record Loop := mkLoop {
  streamer : PcmStreamer; source : S; wire : Wire; paused : bool;
  bytes_per_packet : nat; packet_data : list Z; encoding_buffer : list Z
}.

Definition with_streamer (l : Loop) (s : PcmStreamer) : Loop :=
  mkLoop s (source l) (wire l) (paused l) (bytes_per_packet l) (packet_data l) (encoding_buffer l).
Definition with_source (l : Loop) (src : S) : Loop :=
  mkLoop (streamer l) src (wire l) (paused l) (bytes_per_packet l) (packet_data l) (encoding_buffer l).
Definition with_wire (l : Loop) (w : Wire) : Loop :=
  mkLoop (streamer l) (source l) w (paused l) (bytes_per_packet l) (packet_data l) (encoding_buffer l).
Definition with_paused (l : Loop) (p : bool) : Loop :=
  mkLoop (streamer l) (source l) (wire l) p (bytes_per_packet l) (packet_data l) (encoding_buffer l).
Definition with_data (l : Loop) (d : list Z) : Loop :=
  mkLoop (streamer l) (source l) (wire l) (paused l) (bytes_per_packet l) d (encoding_buffer l).

(** A round of the loop: it goes on, or the function returns. *)
Inductive Step := Next (l : Loop) | Done (r : outcome StreamError unit) (l : Loop).

Definition packet_frames (s : PcmStreamer) : nat :=
  match codec_type s with
  | Aac => 1024
  | AacEld => match encoder_aac s with Some e => Z.to_nat (default 512 (get_frame_length e)) | None => 512 end
  | _ => FRAMES_PER_PACKET
  end.

(** Up to the loop; [tokio::time::interval] panics when the period is zero. *)
Definition loop_start (s : PcmStreamer) (src : S) : outcome StreamError Loop :=
  let frames := packet_frames s in
  let s := with_codec s (RtpCodec.set_frames_per_packet (rtp_codec s) (wrap 32 (Z.of_nat frames))) in
  let bpp := (frames * bytes_per_frame (format s))%nat in
  d ← frames_to_duration (format s) (Z.of_nat frames);
  if (d_secs d =? 0) && (d_nanos d =? 0) then Panic
  else Ok (mkLoop s src Wire_empty false bpp (replicate bpp 0) (replicate 4096 0)).

(** The header section of RFC 3640 before an AAC frame. *)
Definition au_header (encoded : list Z) : list Z :=
  [0x00; 0x10] ++ to_be 2 (Z.land (wrap 16 (Z.shiftl (wrap 16 (Z.of_nat (length encoded))) 3)) 0xFFF8).

(** 16-bit little-endian samples. *)
Definition i16_samples (d : list Z) : list Z := map i16_from_le (chunks_exact 2 d).

(** The payload of a packet, with the encoders' new states. *)
Definition encode_payload (l : Loop) : outcome StreamError (list Z * Loop) :=
  let s := streamer l in
  match codec_type s with
  | Alac =>
      match encoder s with
      | Some e =>
          match alac_encode e (as_u32 (sample_rate (format s))) (Z.of_nat (channel_count (channels (format s)))) (packet_data l) (encoding_buffer l) with
          | (size, out, e) =>
              Ok (take (size `min` length out) out,
                  mkLoop (with_encoders s (Some e) (encoder_aac s) (codec_type s)) (source l) (wire l) (paused l) (bytes_per_packet l) (packet_data l) out)
          end
      | None => Ok (packet_data l, l)
      end
  | Aac | AacEld =>
      match encoder_aac s with
      | Some e =>
          match Aac_encode e (i16_samples (packet_data l)) with
          | (Ok encoded, e) => Ok (au_header encoded ++ encoded, with_streamer l (with_encoders s (encoder s) (Some e) (codec_type s)))
          | (Err _, e) => Ok (packet_data l, with_streamer l (with_encoders s (encoder s) (Some e) (codec_type s)))
          | (Panic, _) => Panic
          end
      | None => Ok (packet_data l, l)
      end
  | _ => Ok (packet_data l, l)
  end.

(** The packet kept for retransmissions. *)
Definition buffered_packet (pkt : list Z) : PacketBuffer.BufferedPacket :=
  {| PacketBuffer.bp_sequence := from_be (take 2 (drop 2 pkt)); PacketBuffer.bp_timestamp := from_be (take 4 (drop 4 pkt)); PacketBuffer.bp_data := pkt |}.
Definition remember (s : PcmStreamer) (pkt : list Z) : PcmStreamer :=
  if (12 <=? length pkt)%nat then with_packets s (PacketBuffer.push (packet_buffer s) (buffered_packet pkt)) else s.

(** Refilling when below the low watermark; a failed read is ignored. *)
Definition refill (l : Loop) : Step :=
  match RingBuffer.is_underrunning (E := StreamError) (buffer (streamer l)) with
  | Ok true =>
      match src_read (source l) (bytes_per_packet l * 4) with
      | (Ok bytes, src) =>
          if (0 <? length bytes)%nat then
            match RingBuffer.write (E := StreamError) (buffer (streamer l)) bytes with
            | Ok (_, b) => Next (with_source (with_streamer l (with_buffer (streamer l) b)) src)
            | _ => Done Panic l
            end
          else Next (with_source l src)
      | (Err _, src) => Next (with_source l src)
      | (Panic, src) => Done Panic (with_source l src)
      end
  | Ok false => Next l
  | _ => Done Panic l
  end.

(** The rest of an audio tick, once [bytes_read] bytes are in [packet_data]. *)
Definition send_audio (l : Loop) (bytes_read : nat) (sent : bool) : Step :=
  let l := if (bytes_read <? bytes_per_packet l)%nat
           then with_data l (take bytes_read (packet_data l) ++ replicate (length (packet_data l) - bytes_read) 0) else l in
  match encode_payload l with
  | Ok (payload, l) =>
      match RtpCodec.encode_arbitrary_payload (rtp_codec (streamer l)) payload [] with
      | (Ok _, c, pkt) =>
          let l := with_streamer l (with_codec (streamer l) c) in
          let w := wire l in
          let l := with_wire l (mkWire (audio w ++ [pkt]) (announced w) (control w)) in
          if sent then refill (with_streamer l (remember (streamer l) pkt)) else Done (Err SendFailed) l
      | (Err e, c, _) => Done (Err (RtpFailed e)) (with_streamer l (with_codec (streamer l) c))
      | (Panic, c, _) => Done Panic (with_streamer l (with_codec (streamer l) c))
      end
  | _ => Done Panic l
  end.

Definition read_packet (l : Loop) : outcome StreamError (nat * Loop) :=
  '(n, d, b) ← RingBuffer.read (buffer (streamer l)) (packet_data l);
  Ok (n, with_data (with_streamer l (with_buffer (streamer l) b)) d).

Definition audio_tick (l : Loop) (sent : bool) : Step :=
  match read_packet l with
  | Ok (O, l) =>
      match src_read (source l) (bytes_per_packet l * 4) with
      | (Ok bytes, src) =>
          let l := with_source l src in
          if (length bytes =? 0)%nat then Done (Ok tt) (with_streamer l (with_state (streamer l) Finished))
          else
            match RingBuffer.write (E := StreamError) (buffer (streamer l)) bytes with
            | Ok (_, b) =>
                match read_packet (with_streamer l (with_buffer (streamer l) b)) with
                | Ok (n, l) => send_audio l n sent
                | _ => Done Panic l
                end
            | _ => Done Panic l
            end
      | (Err e, src) => Done (Err (ReadFailed e)) (with_source l src)
      | (Panic, src) => Done Panic (with_source l src)
      end
  | Ok (n, l) => send_audio l n sent
  | _ => Done Panic l
  end.

Definition announce_tick (l : Loop) : Loop :=
  let w := wire l in
  with_wire l (mkWire (audio w) (announced w ++ [(RtpCodec.c_timestamp (rtp_codec (streamer l)), as_u32 (sample_rate (format (streamer l))))]) (control w)).

(** The response to a retransmit request: a control header and the packet. *)
Definition retransmit_response (p : PacketBuffer.BufferedPacket) : list Z :=
  [0x80; 0xD6] ++ to_be 2 (wrap 16 (Z.of_nat (length (PacketBuffer.bp_data p)) / 4)) ++ PacketBuffer.bp_data p.

Definition command (l : Loop) (c : StreamerCommand) : Step :=
  let s := streamer l in
  if paused l then
    match c with
    | Resume => Next (with_paused (with_streamer l (with_state s Streaming)) false)
    | Stop => Done (Ok tt) (with_streamer l (with_state s Idle))
    | _ => Next l
    end
  else
    match c with
    | Pause => Next (with_paused (with_streamer l (with_state s Paused)) true)
    | Stop => Done (Ok tt) (with_streamer l (with_state s Idle))
    | Seek at_ =>
        if src_is_seekable (source l) then
          match src_seek (source l) at_ with
          | (Ok _, src) =>
              match fill_buffer (with_buffer s (RingBuffer.clear (buffer s))) src with
              | (Ok _, s, src) => Next (with_source (with_streamer l s) src)
              | (r, s, src) => Done r (with_source (with_streamer l s) src)
              end
          | (Err e, src) => Done (Err (SeekFailed e)) (with_source l src)
          | (Panic, src) => Done Panic (with_source l src)
          end
        else Next l
    | Retransmit seq_start count =>
        let w := wire l in
        Next (with_wire l (mkWire (audio w) (announced w) (control w ++ map retransmit_response (PacketBuffer.get_range (packet_buffer s) seq_start count))))
    | Resume => Next l
    end.

(** What the loop selects: a timer, or the next command of the channel; and the calls of
    other tasks. While it waits for a command to resume, no timer is polled. *)
Inductive Event := AudioTick (sent : bool) | AnnounceTick | Receive | Call (c : StreamerCommand).

Definition round (l : Loop) (e : Event) : Step :=
  match e with
  | AudioTick sent => if paused l then Next l else audio_tick l sent
  | AnnounceTick => if paused l then Next l else Next (announce_tick l)
  | Receive =>
      match commands (streamer l) with
      | [] => Next l
      | c :: rest => command (with_streamer l (with_commands (streamer l) rest)) c
      end
  | Call c => match send_command (streamer l) c with Some s => Next (with_streamer l s) | None => Next l end
  end.

Fixpoint streaming_loop (l : Loop) (es : list Event) : Step :=
  match es with
  | [] => Next l
  | e :: es => match round l e with Next l => streaming_loop l es | d => d end
  end.

(** [stream], for a source in the streamer's format. *)
Definition stream_source (s : PcmStreamer) (src : S) (es : list Event) : Step :=
  let start s src := mkLoop s src Wire_empty false 0 [] [] in
  match fill_buffer (with_state s Buffering) src with
  | (Ok _, s, src) =>
      match loop_start (with_state s Streaming) src with
      | Ok l => streaming_loop l es
      | Err e => Done (Err e) (start (with_state s Streaming) src)
      | Panic => Done Panic (start (with_state s Streaming) src)
      end
  | (r, s, src) => Done r (start s src)
  end.
End WithCiphers.
Arguments Loop : clear implicits.
Arguments Step : clear implicits.

(** The whole of [stream]: a source in another format is resampled. *)
Definition stream {BC : BlockCipher} {AC : AeadCipher} {S R : Type} {SRC : AudioSource S} {SRR : AudioSource R}
  (resample : S -> AudioFormat -> outcome IoError R) (s : PcmStreamer) (src : S) (es : list Event) : Step S + (outcome StreamError unit + Step R) :=
  if decide (src_format src = format s) then inl (stream_source s src es)
  else inr (match resample src (format s) with
            | Ok r => inr (stream_source s r es)
            | Err e => inl (Err (ResamplerFailed e))
            | Panic => inl Panic
            end).
End WithEncoders.
Arguments Loop {EN} S.
Arguments Step {EN} S.

(** ** The ring as a queue *)
Record ring_ok (cap : nat) (b : RingBuffer.AudioRingBuffer) (q : list Z) : Prop := {
  ro_rep : RingBuffer.represents b q;
  ro_cap : RingBuffer.capacity b = cap;
  ro_high : RingBuffer.high_watermark b = (cap * 3 / 4)%nat;
  ro_low : RingBuffer.low_watermark b = (cap / 4)%nat
}.

Lemma ring_write {E} cap b q d : ring_ok cap b q -> (length q + length d < cap)%nat ->
  exists b', RingBuffer.write (E := E) b d = Ok (length d, b') /\ ring_ok cap b' (q ++ d).
Proof.
  intros [Hr Hc Hh Hl] Hd. destruct (RingBuffer.represents_write (E := E) b q d Hr) as (b' & Hw & _ & Hr').
  apply RingBuffer.write_keeps in Hw as Hk. rewrite Hc, Nat.min_l in Hw, Hr' by lia. rewrite take_ge in Hr' by done.
  exists b'. split; [done|]. destruct Hk as (? & ? & ?). split; congruence.
Qed.

Lemma ring_read {E} cap b q out : ring_ok cap b q -> let n := (length out `min` length q)%nat in
  exists b', RingBuffer.read (E := E) b out = Ok (n, take n q ++ drop n out, b') /\ ring_ok cap b' (drop n q).
Proof.
  intros [Hr Hc Hh Hl] n. destruct (RingBuffer.ring_queue_ops (E := E) b q [] out 0 Hr) as (_ & (b' & Hw & Hr') & _).
  apply RingBuffer.read_keeps in Hw as Hk. exists b'. split; [done|]. destruct Hk as (? & ? & ?). split; congruence || done.
Qed.

Lemma ring_ready {E} cap b q : ring_ok cap b q -> RingBuffer.is_ready (E := E) b = Ok (cap * 3 / 4 <=? length q)%nat.
Proof. intros [Hr _ Hh _]. unfold RingBuffer.is_ready. rewrite (RingBuffer.represents_available b q) by done. by rewrite <- Hh. Qed.

Lemma ring_underrunning {E} cap b q : ring_ok cap b q -> RingBuffer.is_underrunning (E := E) b = Ok (length q <? cap / 4)%nat.
Proof. intros [Hr _ _ Hl]. unfold RingBuffer.is_underrunning. rewrite (RingBuffer.represents_available b q) by done. by rewrite <- Hl. Qed.

(** ** Sources that hold data *)

(** What [read] documents: it returns some of the bytes that are left, at most as many as
    are asked for, and none only at their end. *)
Class HoldsData (S : Type) {SRC : AudioSource S} := {
  source_holds : S -> list Z -> Prop;
  read_some s d n : source_holds s d -> exists got rest s', src_read s n = (Ok got, s') /\ d = got ++ rest /\ source_holds s' rest /\
    (length got <= n)%nat /\ (got = [] -> n = 0%nat \/ rest = [])
}.

(** Sources that also read as much as is asked for, up to the end. *)
Definition fills (S : Type) {SRC : AudioSource S} {HD : HoldsData S} : Prop :=
  forall (s s' : S) d n got, source_holds s d -> src_read s n = (Ok got, s') -> length got = n \/ got = d.

Lemma read_spec {S : Type} {SRC : AudioSource S} {HD : HoldsData S} (s : S) d n : source_holds s d -> (0 < n)%nat ->
  exists got rest s', src_read s n = (Ok got, s') /\ d = got ++ rest /\ source_holds s' rest /\ (length got <= n)%nat /\
    (got = [] -> rest = []) /\ (fills S -> length got = n \/ rest = []).
Proof.
  intros Hs Hn. destruct (read_some s d n Hs) as (got & rest & s' & Hr & -> & Hs' & Hl & He). exists got, rest, s'. split_and!; try done.
  - intros E. destruct (He E); [lia|done].
  - intros Hf. destruct (Hf _ _ _ _ _ Hs Hr) as [|E]; [by left|right]. apply (f_equal length) in E. rewrite length_app in E. apply length_zero_iff_nil. lia.
Qed.

Lemma slice_reads (s : SliceSource) n : (position s <= length (s_data s))%nat ->
  exists s', slice_read s n = (Ok (take n (drop (position s) (s_data s))), s') /\ s_data s' = s_data s /\
    (position s' <= length (s_data s))%nat /\ drop (position s') (s_data s) = drop n (drop (position s) (s_data s)).
Proof.
  destruct s as [data pos f]. cbn [s_data position]. intros Hp. unfold slice_read. cbn [s_data position s_format]. rewrite (proj2 (Nat.ltb_ge _ _)) by lia.
  rewrite <- length_drop. destruct (Nat.eqb_spec (n `min` length (drop pos data))%nat 0) as [E|E].
  - eexists. split_and!; [f_equal; f_equal|done..|cbn].
    + symmetry. apply length_zero_iff_nil. by rewrite length_take.
    + destruct (decide (n = 0%nat)) as [->|Hn]; [done|]. assert (length (drop pos data) = 0%nat) as Hz by lia.
      apply length_zero_iff_nil in Hz. by rewrite Hz, drop_nil.
  - eexists. split_and!; [f_equal; f_equal|done|cbn..].
    + destruct (Nat.le_ge_cases n (length (drop pos data))); [by rewrite Nat.min_l|]. rewrite Nat.min_r by done. by rewrite !take_ge by lia.
    + rewrite length_drop in *. lia.
    + rewrite drop_drop. destruct (Nat.le_ge_cases n (length (drop pos data))); [by rewrite Nat.min_l|].
      rewrite Nat.min_r by done. rewrite !drop_ge; rewrite ?length_drop in *; lia || done.
Qed.

#[export, refine] Instance slice_holds : HoldsData SliceSource :=
  {| source_holds s d := (position s <= length (s_data s))%nat /\ d = drop (position s) (s_data s) |}.
Proof.
  intros s d n [Hp ->]. destruct (slice_reads s n Hp) as (s' & Hr & E1 & E2 & E3). cbn [src_read slice_source].
  eexists _, (drop n _), s'. split; [exact Hr|]. rewrite take_drop, E1, length_take. split_and!; [done..|lia|].
  intros Hz. apply (f_equal length) in Hz. rewrite length_take in Hz. cbn in Hz.
  destruct n as [|n]; [by left|right]. apply drop_ge. lia.
Defined.

Lemma slice_fills : fills SliceSource.
Proof.
  intros s s' d n got [Hp ->] Hr. destruct (slice_reads s n Hp) as (s2 & Hr2 & _). cbn [src_read slice_source] in Hr. rewrite Hr2 in Hr.
  injection Hr as <- <-. rewrite length_take. destruct (Nat.le_gt_cases n (length (drop (position s) (s_data s)))); [left; lia|right; apply take_ge; lia].
Qed.

(** ** Filling *)
Section Filling.
Context {EN : Encoders} {S : Type} {SRC : AudioSource S} {HD : HoldsData S} (cap : nat).

Lemma fill_buffer_spec len : (0 < len <= cap / 4)%nat -> forall fuel b src q r, ring_ok cap b q -> source_holds src r ->
  (cap * 3 / 4 <= fuel + length q)%nat ->
  exists b' src' q' r', fill_fuel fuel len b src = (Ok tt, b', src') /\ ring_ok cap b' q' /\ source_holds src' r' /\
    q' ++ r' = q ++ r /\ ((cap * 3 / 4 <= length q')%nat \/ r' = []).
Proof.
  intros Hlen. induction fuel as [|fuel IH]; intros b src q r Hb Hs Hf; cbn [fill_fuel]; rewrite (ring_ready cap b q) by done.
  { rewrite (proj2 (Nat.leb_le _ _)) by lia. naive_solver. }
  destruct (Nat.leb_spec (cap * 3 / 4) (length q)) as [Hq|Hq]; [naive_solver|].
  destruct (read_spec src r len Hs) as (got & rest & src' & -> & -> & Hs' & Hl & He & _); [lia|]. destruct (Nat.eqb_spec (length got) 0) as [Hz|Hz].
  - apply length_zero_iff_nil in Hz as ->. rewrite (He eq_refl) in *. exists b, src', q, []. naive_solver.
  - destruct (ring_write (E := StreamError) cap b q got Hb) as (b' & -> & Hb').
    { pose proof (Nat.Div0.div_mod cap 4). pose proof (Nat.Div0.div_mod (cap * 3) 4).
      pose proof (Nat.mod_upper_bound cap 4). pose proof (Nat.mod_upper_bound (cap * 3) 4). lia. }
    destruct (IH b' src' (q ++ got) rest Hb' Hs') as (b2 & s2 & q2 & r2 & -> & H1 & H2 & H3 & H4).
    { rewrite length_app. lia. }
    exists b2, s2, q2, r2. rewrite <- app_assoc in H3. done.
Qed.
End Filling.

(** ** The state of a stream *)
Lemma codec_at_next c k : RtpCodec.after_packet (RtpCodec.codec_at c k) = RtpCodec.codec_at c (Datatypes.S k).
Proof.
  unfold RtpCodec.after_packet, RtpCodec.codec_at, RtpCodec.is_chacha.
  destruct c as [? ? ? ? ? ? [] ? ? ?]; cbn -[wrapping_add Z.of_nat];
    unfold RtpCodec.next_packet, RtpCodec.bump_nonce; cbn -[wrapping_add Z.of_nat]; rewrite !wrapping_add_assoc; f_equal; f_equal; lia.
Qed.

Lemma codec_at_ok c k : RtpCodec.codec_ok c -> RtpCodec.codec_ok (RtpCodec.codec_at c k).
Proof.
  intros H. induction k as [|k IH]; [by rewrite RtpCodec.codec_at_0|]. rewrite <- codec_at_next. by apply RtpCodec.after_packet_ok.
Qed.

Lemma get_range_sub start count ps : forall i, PacketBuffer.get_range_from start count i ps ⊆ ps.
Proof.
  induction ps as [|p ps IH]; intros i; cbn [PacketBuffer.get_range_from]; [done|]. case_match.
  - apply list_subseteq_skip, IH.
  - apply list_subseteq_cons, IH.
Qed.

Section Streams.
Context {EN : Encoders} {BC : BlockCipher} {AC : AeadCipher} {BL : BlockCipherLaws BC} {AL : AeadLaws AC}
  {S : Type} {SRC : AudioSource S} {HD : HoldsData S}.

(** A piece of the data in a packet of [P] bytes. *)
Definition piece (P : nat) (ch : list Z) : Prop := ch <> [] /\ (length ch <= P)%nat.

(** The data [d] is in the pieces sent, the ring and the source, in this order; [c0]: the
    codec at the start, [P]: the bytes of a packet.  When the source fills its reads the
    pieces are the chunks of [d] and a packet never comes out short before the end. *)
Record delivered (cap P : nat) (c0 : RtpCodec.RtpCodec) (d : list Z) (sent : list (list Z)) (l : Loop S) : Prop := {
  dl_queue : exists q r, ring_ok cap (buffer (streamer l)) q /\ source_holds (source l) r /\
    d = mjoin sent ++ q ++ r /\ (fills S -> chunks P d = sent ++ chunks P (q ++ r) /\ ((P <= length q)%nat \/ r = []));
  dl_pieces : Forall (piece P) sent;
  dl_codec : rtp_codec (streamer l) = RtpCodec.codec_at c0 (length sent);
  dl_pcm : codec_type (streamer l) = Pcm;
  dl_bytes : bytes_per_packet l = P;
  dl_data : length (packet_data l) = P;
  dl_length : length (audio (wire l)) = length sent;
  dl_carried : forall i ch pkt, sent !! i = Some ch -> audio (wire l) !! i = Some pkt ->
    RtpCodec.carries (RtpCodec.codec_at c0 i) (RtpCodec.pad_to P ch) pkt;
  dl_kept : Forall (fun p => PacketBuffer.bp_data p ∈ audio (wire l)) (PacketBuffer.packets (packet_buffer (streamer l)));
  dl_resent : Forall (fun x => exists p, PacketBuffer.bp_data p ∈ audio (wire l) /\ x = retransmit_response p) (control (wire l))
}.

(** What is preserved does not depend on the state, the channel and the announcements. *)
Lemma delivered_frame cap P c0 d sent l l' : delivered cap P c0 d sent l ->
  buffer (streamer l') = buffer (streamer l) -> source l' = source l -> rtp_codec (streamer l') = rtp_codec (streamer l) ->
  codec_type (streamer l') = codec_type (streamer l) -> bytes_per_packet l' = bytes_per_packet l -> packet_data l' = packet_data l ->
  audio (wire l') = audio (wire l) -> packet_buffer (streamer l') = packet_buffer (streamer l) -> control (wire l') = control (wire l) ->
  delivered cap P c0 d sent l'.
Proof. intros [] E1 E2 E3 E4 E5 E6 E7 E8 E9. split; rewrite ?E1, ?E2, ?E3, ?E4, ?E5, ?E6, ?E7, ?E8, ?E9; done. Qed.

(** Remembering a packet keeps the buffer within what was sent. *)
Lemma kept_push (sent : list (list Z)) s pkt : Forall (fun p => PacketBuffer.bp_data p ∈ sent) (PacketBuffer.packets (packet_buffer s)) ->
  Forall (fun p => PacketBuffer.bp_data p ∈ sent ++ [pkt]) (PacketBuffer.packets (packet_buffer (remember s pkt))).
Proof.
  intros H. assert (Forall (fun p => PacketBuffer.bp_data p ∈ sent ++ [pkt]) (PacketBuffer.packets (packet_buffer s))) as H'.
  { eapply Forall_impl; [done|]. intros p ?. apply elem_of_app. by left. }
  unfold remember. case_match; [|done]. cbn [with_packets packet_buffer PacketBuffer.push PacketBuffer.packets].
  apply Forall_app. split; [case_match; [by apply Forall_drop|done]|]. constructor; [|done]. cbn. apply elem_of_app. right. by apply list_elem_of_singleton.
Qed.

Lemma refill_spec cap P l q r : (0 < P)%nat -> (16 * P <= cap)%nat -> bytes_per_packet l = P ->
  ring_ok cap (buffer (streamer l)) q -> source_holds (source l) r ->
  exists b src q' r', refill l = Next (with_source (with_streamer l (with_buffer (streamer l) b)) src) /\
    ring_ok cap b q' /\ source_holds src r' /\ q' ++ r' = q ++ r /\ (fills S -> (P <= length q')%nat \/ r' = []).
Proof.
  intros HP Hc Hb Hq Hr. unfold refill. rewrite (ring_underrunning cap _ q) by done.
  assert (4 * P <= cap / 4)%nat as H4 by (apply Nat.div_le_lower_bound; lia).
  assert (cap / 4 * 4 <= cap)%nat as H5 by (pose proof (Nat.Div0.mul_div_le cap 4); lia).
  destruct (Nat.ltb_spec (length q) (cap / 4)) as [Hu|Hu].
  - rewrite Hb. destruct (read_spec (source l) r (P * 4) Hr) as (got & rest & src' & -> & -> & Hs' & Hl & He & Hf); [lia|].
    destruct (Nat.ltb_spec 0 (length got)) as [Hz|Hz].
    + destruct (ring_write (E := StreamError) cap _ q got Hq) as (b' & -> & Hb'); [lia|].
      exists b', src', (q ++ got), rest. split_and!; try done; [by rewrite <- app_assoc|].
      intros F. rewrite length_app. destruct (Hf F); [left; lia|by right].
    + assert (got = []) as -> by (apply length_zero_iff_nil; lia). rewrite (He eq_refl) in *.
      exists (buffer (streamer l)), src', q, []. split_and!; try done; [|by right]. by destruct l as [[] ? ? ? ? ? ?].
  - exists (buffer (streamer l)), (source l), q, r. split_and!; try done; [by destruct l as [[] ? ? ? ? ? ?]|left; lia].
Qed.

(** The packet's bytes after the read and the padding. *)
Lemma packet_bytes (P : nat) (q old : list Z) : length old = P ->
  let n := (P `min` length q)%nat in
  let d := take n q ++ drop n old in
  (if (n <? P)%nat then take n d ++ replicate (length d - n) 0 else d) = RtpCodec.pad_to P (take P q) /\ drop n q = drop P q.
Proof.
  intros Ho n d. unfold RtpCodec.pad_to. destruct (Nat.ltb_spec n P) as [Hn|Hn].
  - assert (n = length q) as En by lia. subst d. rewrite En.
    rewrite (take_ge q (length q)), (take_ge q P), take_app_length, (drop_ge q (length q)), (drop_ge q P) by lia.
    rewrite length_app, length_drop. split; [|done]. f_equal. f_equal. lia.
  - assert (n = P) as En by lia. subst d. rewrite En, (drop_ge old), app_nil_r by lia.
    split; [|done]. rewrite length_take, Nat.min_l, Nat.sub_diag by lia. by rewrite app_nil_r.
Qed.

(** A packet read from a queue that is not short is a chunk of the data. *)
Lemma packet_chunk (P : nat) (q r : list Z) : (0 < P)%nat -> q <> [] -> (P <= length q)%nat \/ r = [] ->
  chunks P (q ++ r) = take P q :: chunks P (drop P q ++ r).
Proof.
  intros HP Hq Hor. rewrite chunks_cons by (done || by intros [? _]%app_eq_nil). f_equal; [|f_equal].
  - destruct Hor as [?| ->]; [by rewrite take_app_le|by rewrite app_nil_r].
  - destruct Hor as [?| ->]; [by rewrite drop_app_le|by rewrite !app_nil_r].
Qed.

Context (cap P : nat) (c0 : RtpCodec.RtpCodec) (d : list Z)
  (HP : (0 < P)%nat) (HP32 : Z.of_nat P < 2 ^ 32) (Hcap : (16 * P <= cap)%nat) (Hc0 : RtpCodec.codec_ok c0).

(** Sending the packet that was read. *)
Lemma send_spec (l : Loop S) (q r : list Z) (sent : list (list Z)) (b : RingBuffer.AudioRingBuffer) :
  delivered cap P c0 d sent l -> q <> [] -> source_holds (source l) r -> d = mjoin sent ++ q ++ r ->
  (fills S -> chunks P d = sent ++ chunks P (q ++ r) /\ ((P <= length q)%nat \/ r = [])) -> ring_ok cap b (drop (P `min` length q) q) ->
  let n := (P `min` length q)%nat in
  exists l', send_audio (with_data (with_streamer l (with_buffer (streamer l) b)) (take n q ++ drop n (packet_data l))) n true = Next l' /\
    delivered cap P c0 d (sent ++ [take P q]) l' /\ commands (streamer l') = commands (streamer l) /\ paused l' = paused l.
Proof.
  intros [_ Hpieces Hcodec Hpcm Hbytes Hdata Hlen Hcar Hkept Hres] Hq Hs Hjoin Hfill Hb n.
  destruct (packet_bytes P q (packet_data l) Hdata) as [Hbytes' Hrest].
  assert (length (take P q) <= P)%nat as Hle by (rewrite length_take; lia).
  set (ch := take P q) in *.
  assert (length (RtpCodec.pad_to P ch) = P) as Hpl by (unfold RtpCodec.pad_to; rewrite length_app, length_replicate; lia).
  destruct (RtpCodec.encode_one (rtp_codec (streamer l)) (RtpCodec.pad_to P ch) []) as (pkt & Henc & Hcarry).
  { rewrite Hcodec. by apply codec_at_ok. } { by rewrite Hpl. }
  unfold send_audio. cbn [with_data with_streamer bytes_per_packet packet_data]. rewrite Hbytes. fold n in Hbytes'.
  set (l1 := if (n <? P)%nat then _ else _).
  assert (l1 = mkLoop (with_buffer (streamer l) b) (source l) (wire l) (paused l) P (RtpCodec.pad_to P ch) (encoding_buffer l)) as ->.
  { subst l1. rewrite <- Hbytes'. destruct (n <? P)%nat; unfold with_data; cbn; by rewrite Hbytes. }
  unfold encode_payload. cbn [streamer with_buffer codec_type]. rewrite Hpcm. cbn [streamer with_buffer rtp_codec packet_data].
  rewrite Henc. cbn [app].
  match goal with |- context [refill ?x] =>
    destruct (refill_spec cap P x (drop n q) r) as (b2 & src2 & q2 & r2 & -> & Hb2 & Hs2 & Hqr2 & Hor2) end; [done..| |done|].
  { cbn [with_streamer with_wire streamer with_codec]. unfold remember. by destruct (12 <=? length pkt)%nat. }
  { eexists. split; [done|]. split; [|split].
    - split; cbn [with_source with_streamer with_wire streamer source wire audio control with_buffer buffer rtp_codec codec_type
        with_codec packet_data bytes_per_packet packet_buffer].
      + exists q2, r2. split; [done|]. split; [done|]. fold n in Hrest. rewrite Hqr2, Hrest. split.
        * rewrite Hjoin at 1. rewrite join_app, <- app_assoc. f_equal. cbn. rewrite app_nil_r, app_assoc. f_equal. symmetry. apply take_drop.
        * intros F. destruct (Hfill F) as [Hch Hor]. split; [|by apply Hor2]. rewrite Hch, <- app_assoc. cbn [app]. f_equal. by apply packet_chunk.
      + apply Forall_app. split; [done|]. constructor; [|done]. split; [|done]. intros E. apply (f_equal length) in E. subst ch.
        rewrite length_take in E. destruct q; [done|]. cbn in E. lia.
      + rewrite length_app. cbn [length]. rewrite Nat.add_1_r. unfold remember. rewrite <- codec_at_next, <- Hcodec. by destruct (12 <=? length pkt)%nat.
      + unfold remember. by destruct (12 <=? length pkt)%nat.
      + done.
      + done.
      + by rewrite !length_app, Hlen.
      + intros i ch' pkt' H1 H2. destruct (decide (i < length sent)%nat) as [Hi|Hi].
        * rewrite lookup_app_l in H1 by done. rewrite lookup_app_l in H2 by lia. by apply (Hcar i).
        * rewrite lookup_app_r in H1 by lia. rewrite lookup_app_r in H2 by lia. rewrite Hlen in H2.
          assert (i - length sent = 0)%nat as E0 by (apply lookup_lt_Some in H1; cbn in H1; lia).
          rewrite E0 in H1, H2. cbn in H1, H2. simplify_eq. replace i with (length sent) by lia. by rewrite <- Hcodec.
      + apply (kept_push _ _ pkt) in Hkept. revert Hkept. unfold remember. by destruct (12 <=? length pkt)%nat.
      + eapply Forall_impl; [done|]. intros x (p & ? & ->). exists p. split; [apply elem_of_app; by left|done].
    - cbn. unfold remember. by destruct (12 <=? length pkt)%nat.
    - done. }
Qed.

(** Data read when the ring has run empty. *)
Lemma delivered_read (l : Loop S) (sent : list (list Z)) b src got rest : delivered cap P c0 d sent l ->
  ring_ok cap b got -> source_holds src rest -> d = mjoin sent ++ got ++ rest ->
  (fills S -> chunks P d = sent ++ chunks P (got ++ rest) /\ ((P <= length got)%nat \/ rest = [])) ->
  delivered cap P c0 d sent (with_streamer (with_source l src) (with_buffer (streamer l) b)).
Proof. intros [] H1 H2 H3 H4. split; try done. by exists got, rest. Qed.

Lemma tick_spec (l : Loop S) (sent : list (list Z)) : delivered cap P c0 d sent l ->
  (d = mjoin sent /\ exists l', audio_tick l true = Done (Ok tt) l' /\ state (streamer l') = Finished /\ wire l' = wire l) \/
  (exists ch l', audio_tick l true = Next l' /\ delivered cap P c0 d (sent ++ [ch]) l' /\
     commands (streamer l') = commands (streamer l) /\ paused l' = paused l).
Proof.
  intros Hd. pose proof Hd as [(q & r & Hq & Hr & Hjoin & Hfill) _ _ _ Hbytes Hdata _ _ _ _]. unfold audio_tick, read_packet.
  destruct (ring_read (E := StreamError) cap _ q (packet_data l) Hq) as (b & -> & Hb). cbn [mbind outcome_bind]. rewrite Hdata in *.
  destruct (decide (q = [])) as [->|Hne].
  - cbn [length]. rewrite Nat.min_0_r. cbn [with_data with_streamer source bytes_per_packet take drop app] in *. rewrite Hbytes.
    destruct (read_spec (source l) r (P * 4) Hr) as (got & rest & src' & -> & -> & Hs' & Hl & He & Hf); [lia|].
    destruct (Nat.eqb_spec (length got) 0) as [Hz|Hz].
    { left. apply length_zero_iff_nil in Hz as ->. rewrite (He eq_refl), app_nil_r in Hjoin. split; [done|]. by eexists. }
    right. rewrite Nat.min_0_r in Hb. destruct (ring_write (E := StreamError) cap b [] got Hb) as (b1 & Hw & Hb1); [cbn; lia|].
    assert (fills S -> chunks P d = sent ++ chunks P (got ++ rest) /\ ((P <= length got)%nat \/ rest = [])) as Hfill'.
    { intros F. destruct (Hfill F) as [? _]. split; [done|]. destruct (Hf F); [left; lia|by right]. }
    pose proof (delivered_read l sent b1 src' got rest Hd Hb1 Hs' Hjoin Hfill') as Hd1.
    set (l1 := with_streamer (with_source l src') (with_buffer (streamer l) b1)) in *.
    destruct (ring_read (E := StreamError) cap b1 got (packet_data l) Hb1) as (b2 & Hr2 & Hb2). rewrite Hdata in *.
    destruct (send_spec l1 got rest sent b2 Hd1) as (l' & Hs & Hd' & ? & ?); [by intros ->|done..|]. exists (take P got), l'.
    cbn [with_source with_streamer with_data streamer with_buffer buffer packet_data]. rewrite Hw.
    cbn [with_source with_streamer with_data streamer with_buffer buffer packet_data]. rewrite !drop_0, Hr2. cbn [mbind outcome_bind]. by split_and!.
  - right. destruct (P `min` length q)%nat as [|n] eqn:En; [destruct q; cbn in En; lia || done|]. rewrite <- En in *.
    destruct (send_spec l q r sent b Hd Hne Hr Hjoin Hfill Hb) as (l' & Hs & Hd' & ? & ?). exists (take P q), l'. by split_and!.
Qed.

(** The commands and events that leave the stream to itself: everything but stopping,
    seeking and a failed send. *)
Definition calm_command (c : StreamerCommand) : Prop := match c with Stop | Seek _ => False | _ => True end.
Definition calm_event (e : Event) : Prop :=
  match e with AudioTick ok => ok = true | Call c => calm_command c | _ => True end.
Fixpoint ticks (es : list Event) : nat :=
  match es with [] => 0 | AudioTick _ :: es => Datatypes.S (ticks es) | _ :: es => ticks es end.
(** Running and not about to pause. *)
Definition steady (l : Loop S) : Prop := paused l = false /\ Pause ∉ commands (streamer l).

Lemma command_spec (l : Loop S) (c : StreamerCommand) (sent : list (list Z)) : delivered cap P c0 d sent l -> calm_command c ->
  exists l', command l c = Next l' /\ delivered cap P c0 d sent l' /\ commands (streamer l') = commands (streamer l) /\
    (c <> Pause -> paused l = false -> paused l' = false).
Proof.
  intros Hd Hc. unfold command. destruct (paused l) eqn:Hp; destruct c; try done; eexists; (split; [done|]);
    try (split; [by apply (delivered_frame _ _ _ _ _ l)|done]).
  split; [|done]. destruct Hd as [H1 H1' H2 H3 H4 H5 H6 H7 H8 H9]. split; try done. cbn. apply Forall_app. split; [done|].
  apply Forall_forall. intros x Hx. apply list_elem_of_fmap in Hx as (p & -> & Hp'). exists p. split; [|done].
  rewrite Forall_forall in H8. apply H8. by apply (get_range_sub seq_start count _ 0).
Qed.

Lemma round_spec (l : Loop S) (e : Event) (sent : list (list Z)) : delivered cap P c0 d sent l ->
  Forall calm_command (commands (streamer l)) -> calm_event e ->
  (exists sent' l', round l e = Next l' /\ delivered cap P c0 d sent' l' /\ Forall calm_command (commands (streamer l')) /\
     (steady l -> e <> Call Pause -> steady l' /\ length sent' = (length sent + ticks [e])%nat)) \/
  (exists l', round l e = Done (Ok tt) l' /\ delivered cap P c0 d sent l /\ d = mjoin sent /\ state (streamer l') = Finished /\ wire l' = wire l).
Proof.
  intros Hd Hq He. destruct e as [ok| | |c]; cbn [round calm_event] in *.
  - subst ok. destruct (paused l) eqn:Hp; [left; exists sent, l; split_and!; try done; intros [? _]; congruence|].
    destruct (tick_spec l sent Hd) as [(H1 & l' & -> & H2 & H3)|(ch & l' & -> & H2 & H3 & H4)]; [right; eauto 10|].
    left. exists (sent ++ [ch]), l'. unfold steady. rewrite H3, H4, length_app. done.
  - destruct (paused l) eqn:Hp; left; exists sent; eexists; (split; [done|]).
    + split_and!; try done; intros [? _]; congruence.
    + split; [by apply (delivered_frame _ _ _ _ _ l)|]. split; [done|]. intros ? _. cbn. by rewrite Nat.add_0_r.
  - left. destruct (commands (streamer l)) as [|c rest] eqn:Hc.
    { exists sent, l. rewrite Hc. split; [done|]. split; [done|]. split; [done|]. intros ? _. cbn. by rewrite Nat.add_0_r. }
    apply Forall_cons in Hq as [H1 H2].
    destruct (command_spec (with_streamer l (with_commands (streamer l) rest)) c sent) as (l' & -> & H4 & H5 & H6);
      [by apply (delivered_frame _ _ _ _ _ l)|done|].
    exists sent, l'. rewrite H5. split; [done|]. split; [done|]. split; [done|]. intros [H7 H8] _. rewrite Hc in H8. apply not_elem_of_cons in H8 as [H8 H9].
    unfold steady. rewrite H5. cbn. rewrite Nat.add_0_r. split_and!; try done. apply H6; [by intros ->|done].
  - left. unfold send_command. destruct (_ <? _)%nat; exists sent; eexists; (split; [done|]).
    + split; [by apply (delivered_frame _ _ _ _ _ l)|]. cbn. split; [apply Forall_app; by repeat constructor|].
      intros [H7 H8] H9. rewrite Nat.add_0_r. split; [|done]. split; [done|]. cbn. rewrite elem_of_app, list_elem_of_singleton. intros [?|<-]; done.
    + split; [done|]. split; [done|]. intros ? _. cbn. by rewrite Nat.add_0_r.
Qed.

(** A packet carries at least a byte, and a chunk when the source fills its reads. *)
Lemma delivered_bound (l : Loop S) (sent : list (list Z)) : delivered cap P c0 d sent l ->
  (length sent <= length d)%nat /\ (fills S -> (length sent <= length (chunks P d))%nat).
Proof.
  intros [(q & r & _ & _ & Hjoin & Hfill) Hp _ _ _ _ _ _ _ _]. split.
  - rewrite Hjoin, length_app. enough (length sent <= length (mjoin sent))%nat by lia. clear -Hp.
    induction Hp as [|ch sent [Hne _] _ IH]; [done|]. change (mjoin (ch :: sent)) with (ch ++ mjoin sent). rewrite length_app.
    destruct ch; [done|]. cbn [length]. lia.
  - intros F. destruct (Hfill F) as [-> _]. rewrite length_app. lia.
Qed.

Lemma loop_spec (es : list Event) : forall (l : Loop S) (sent : list (list Z)), delivered cap P c0 d sent l ->
  Forall calm_command (commands (streamer l)) -> Forall calm_event es ->
  exists l' sent', delivered cap P c0 d sent' l' /\
    (streaming_loop l es = Next l' \/
     d = mjoin sent' /\ exists l2, streaming_loop l es = Done (Ok tt) l2 /\ state (streamer l2) = Finished /\ wire l2 = wire l') /\
    (steady l -> Call Pause ∉ es -> (length d < length sent + ticks es)%nat \/ fills S /\ (length (chunks P d) < length sent + ticks es)%nat ->
     exists l2, streaming_loop l es = Done (Ok tt) l2).
Proof.
  induction es as [|e es IH]; intros l sent Hd Hq Hes.
  { exists l, sent. split; [done|]. split; [by left|]. intros _ _ Hlt. exfalso. destruct (delivered_bound l sent Hd) as [H1 H2]. cbn in Hlt.
    destruct Hlt as [|[F ?]]; [lia|]. specialize (H2 F). lia. }
  apply Forall_cons in Hes as [He Hes]. cbn [streaming_loop].
  destruct (round_spec l e sent Hd Hq He) as [(sent' & l' & -> & Hd' & Hq' & Hst)|(l' & -> & _ & Hch & Hf & Hw)].
  - destruct (IH l' sent' Hd' Hq' Hes) as (l2 & sent2 & H1 & H2 & H3). exists l2, sent2. split; [done|]. split; [done|].
    intros Hl [Hne Hnp]%not_elem_of_cons Hlt. destruct (Hst Hl) as [Hl' Hlen]; [done|]. apply H3; [done..|].
    assert (length sent' + ticks es = length sent + ticks (e :: es))%nat as -> by (rewrite Hlen; destruct e; cbn [ticks]; lia). done.
  - exists l, sent. split; [done|]. split; [right; eauto|]. intros _ _ _. eauto.
Qed.
End Streams.

(** ** Starting *)
(** A packet of 352 frames takes a while, at every rate. *)
Lemma packet_interval f : exists d, frames_to_duration (E := StreamError) f 352 = Ok d /\ (d_secs d =? 0) && (d_nanos d =? 0) = false.
Proof.
  unfold frames_to_duration. destruct (sample_rate f);
    [exists (mkDuration 0 7981859)|exists (mkDuration 0 7333333)|exists (mkDuration 0 3990930)|exists (mkDuration 0 3666667)];
    (split; [by vm_compute|done]).
Qed.

(** The streamer as the client sets it up: with the session's key, if there is one. *)
Definition keyed {EN : Encoders} (s : PcmStreamer) (key : option (list Z)) : PcmStreamer :=
  match key with Some k => set_encryption_key s k | None => s end.

Lemma new_ring {E} cap b : RingBuffer.new (E := E) cap = Ok b -> (0 < cap)%nat -> ring_ok cap b [].
Proof.
  intros H Hc. unfold RingBuffer.new, RingBuffer.zeroed in H. destruct (Z.ltb_spec (Z.of_nat cap) (2 ^ 63)); [|done]. cbn [mbind outcome_bind] in H.
  apply bind_ok in H as (_ & _ & H). injection H as <-. split; try done. split.
  - split_and!; cbn; try done; [by rewrite length_replicate|intros i ?; lia].
  - by rewrite Nat.Div0.mod_0_l.
Qed.

Section Delivery.
Context {EN : Encoders} {BC : BlockCipher} {AC : AeadCipher} {BL : BlockCipherLaws BC} {AL : AeadLaws AC}
  {S : Type} {SRC : AudioSource S} {HD : HoldsData S}.

Lemma stream_starts ssrc f frames key s0 src d : Streamer_new (E := StreamError) ssrc f frames = Ok s0 -> uint 32 ssrc ->
  RtpCodec.opt_len key 32 -> 5632 <= Z.of_nat frames -> source_holds src d ->
  let s := keyed s0 key in let P := (352 * bytes_per_frame f)%nat in
  exists l : Loop S, (forall es, stream_source s src es = streaming_loop l es) /\ commands (streamer l) = [] /\ paused l = false /\
    RtpCodec.codec_ok (rtp_codec s) /\ delivered (frames * bytes_per_frame f) P (rtp_codec s) d [] l /\ (16 * P <= frames * bytes_per_frame f)%nat.
Proof.
  intros Hn Hss Hk Hfr Hs s P. pose proof (bytes_per_frame_bounds f) as Hb. set (cap := (frames * bytes_per_frame f)%nat).
  unfold Streamer_new in Hn. apply bind_ok in Hn as (_ & _ & Hn). apply bind_ok in Hn as (b & Hnew & Hn). injection Hn as Hn.
  assert (16 * P <= cap)%nat as Hcap. { subst P cap. apply Nat2Z.inj_le. rewrite !Nat2Z.inj_mul. nia. }
  assert (0 < P)%nat as HP by (subst P; lia). apply new_ring in Hnew; [|lia]. fold cap in Hnew.
  assert (exists c, s = mkStreamer f c b Idle [] None None Pcm (PacketBuffer.PacketBuffer_new PacketBuffer.DEFAULT_SIZE) /\
    RtpCodec.codec_ok c /\ RtpCodec.set_frames_per_packet c 352 = c) as (c & -> & Hc & Hset).
  { subst s s0. destruct key as [k|]; eexists; (split; [reflexivity|]); (split; [|done]); split_and!; cbn; try done; unfold RtpCodec.opt_len; intros; simplify_eq; by apply Hk. }
  cbn [rtp_codec]. unfold stream_source, fill_buffer. cbn [with_state buffer format].
  destruct (fill_buffer_spec cap (FRAMES_PER_PACKET * bytes_per_frame f * 4)) with (fuel := RingBuffer.high_watermark b) (b := b) (src := src) (q := @nil Z) (r := d)
    as (b' & src' & q' & r' & -> & Hb' & Hs' & Hqr & Hor).
  { fold P. split; [unfold P in HP; unfold FRAMES_PER_PACKET; lia|]. apply Nat.div_le_lower_bound; [lia|]. unfold FRAMES_PER_PACKET. fold P. lia. }
  { done. } { done. } { rewrite (ro_high _ _ _ Hnew). lia. }
  destruct (packet_interval f) as (dd & Hdd & Hz). unfold loop_start, packet_frames. cbn [with_state with_buffer codec_type with_codec format rtp_codec].
  change (Z.of_nat FRAMES_PER_PACKET) with 352. rewrite Hdd. cbn [mbind outcome_bind]. rewrite Hz. change (wrap 32 352) with 352. rewrite Hset.
  eexists. split; [done|]. split; [done|]. split; [done|]. split; [done|]. split; [|done].
  split; cbn; try done.
  - exists q', r'. cbn in Hqr. rewrite Hqr. split_and!; try done. intros _. split; [done|]. destruct Hor as [Hor|]; [left|by right].
    assert (4 * P <= cap * 3 / 4)%nat by (apply Nat.div_le_lower_bound; lia). lia.
  - by rewrite RtpCodec.codec_at_0.
  - by rewrite length_replicate.
Qed.

(** C13: streaming PCM loses nothing. A new streamer (its codec is PCM) with a buffer of at
    least 5632 frames, fed by a source that holds the bytes [d] and reads them as
    [AudioSource::read] documents (any number of them at a time, none only at the end, no
    errors), hands the connection packet after packet, whatever announcements, pauses and
    retransmissions come in between: the data is cut into pieces of one byte to 352 frames
    that follow each other without a gap, and the [i]-th packet is decoded by every
    receiver with the same key to the [i]-th piece, padded with silence to 352 frames, with
    consecutive sequence numbers and timestamps.  The stream ends when all of [d] is sent,
    and unless it is paused it does so within [length d + 1] ticks.  When the source also
    fills its reads up to the end, the pieces are the chunks of 352 frames, so that silence
    follows the last one only, and the stream ends on the tick after it.  What is
    retransmitted are packets that were sent.  Stopping, seeking and failed sends are
    excluded; a smaller buffer does lose data ([small_buffer_loses]), and short reads
    insert silence ([short_reads_pad]). *)
Theorem stream_delivers (ssrc : Z) (f : AudioFormat) (frames : nat) (key : option (list Z)) (s0 : PcmStreamer) (src : S) (d : list Z) (es : list Event)
  (Hn : Streamer_new (E := StreamError) ssrc f frames = Ok s0) (Hss : uint 32 ssrc) (Hk : RtpCodec.opt_len key 32)
  (Hfr : 5632 <= Z.of_nat frames) (Hs : source_holds src d) (Hes : Forall calm_event es) :
  let s := keyed s0 key in
  let P := (352 * bytes_per_frame f)%nat in
  exists l sent rest, (stream_source s src es = Next l \/
      stream_source s src es = Done (Ok tt) l /\ state (streamer l) = Finished /\ rest = []) /\
    d = mjoin sent ++ rest /\ Forall (piece P) sent /\ length (audio (wire l)) = length sent /\
    (forall i ch pkt, sent !! i = Some ch -> audio (wire l) !! i = Some pkt -> forall r, RtpCodec.same_keys (rtp_codec s) r ->
       RtpCodec.decode_audio r pkt = Ok (RtpCodec.packet_of (RtpCodec.codec_at (rtp_codec s) i) (RtpCodec.pad_to P ch))) /\
    Forall (fun x => exists p, PacketBuffer.bp_data p ∈ audio (wire l) /\ x = retransmit_response p) (control (wire l)) /\
    (Call Pause ∉ es -> (length d < ticks es)%nat -> stream_source s src es = Done (Ok tt) l) /\
    (fills S -> chunks P d = sent ++ chunks P rest /\
       (Call Pause ∉ es -> (length (chunks P d) < ticks es)%nat -> stream_source s src es = Done (Ok tt) l)).
Proof.
  intros s P. destruct (stream_starts ssrc f frames key s0 src d Hn Hss Hk Hfr Hs) as (l0 & Heq & Hcmd & Hp & Hc & Hd & Hcap). fold s in Heq, Hc, Hd.
  rewrite Heq. pose proof (bytes_per_frame_bounds f) as Hb.
  destruct (loop_spec (frames * bytes_per_frame f) P (rtp_codec s) d) with (es := es) (l := l0) (sent := @nil (list Z))
    as (l' & sent & [Hq Hpieces _ _ _ _ Hlen Hcar _ Hres] & Hend & Hprog); [lia|lia|done|done|done|by rewrite Hcmd|done|].
  destruct Hq as (q & r & _ & _ & Hjoin & Hfill).
  assert (exists l, wire l = wire l' /\ (streaming_loop l0 es = Next l \/ streaming_loop l0 es = Done (Ok tt) l /\ state (streamer l) = Finished /\ q ++ r = []))
    as (l & Hw & Hl).
  { destruct Hend as [?|(E & l2 & ? & ? & ?)]; [eauto|]. exists l2. split; [done|]. right. split_and!; try done. rewrite E in Hjoin at 1.
    apply (f_equal length) in Hjoin. rewrite length_app in Hjoin. apply length_zero_iff_nil. lia. }
  assert (forall l2, streaming_loop l0 es = Done (Ok tt) l2 -> streaming_loop l0 es = Done (Ok tt) l) as Hsame.
  { intros l2 E. destruct Hl as [Hl|(Hl & _)]; [congruence|done]. }
  assert (steady l0) as Hst by (split; [done|rewrite Hcmd; apply not_elem_of_nil]).
  exists l, sent, (q ++ r). rewrite Hw. split_and!; try done.
  - intros i ch pkt H1 H2 rc Hrc. by eapply (Hcar i ch pkt).
  - intros Hnp Ht. destruct Hprog as (l2 & Hl2); [done..|by left|]. by eapply Hsame.
  - intros F. split; [by apply Hfill|]. intros Hnp Ht. destruct Hprog as (l2 & Hl2); [done..|by right|]. by eapply Hsame.
Qed.
End Delivery.

(** ** Stale commands and small buffers *)

(** [stop] and its like are documented to fail when nothing is streamed; they are queued
    instead, and the next stream takes the old command for its own. *)
Lemma stale_stop {EN : Encoders} {BC : BlockCipher} {AC : AeadCipher} {S : Type} {SRC : AudioSource S} (s s' : PcmStreamer) (l : Loop S) (es : list Event) :
  commands s = [] -> stop s = Some s' -> streamer l = s' -> paused l = false ->
  state s' = state s /\ exists l', streaming_loop l (Receive :: es) = Done (Ok tt) l' /\ wire l' = wire l.
Proof.
  intros Hc Hs Hl Hp. unfold stop, send_command in Hs. rewrite Hc in Hs. cbn in Hs. injection Hs as <-. split; [done|].
  cbn [streaming_loop round]. rewrite Hl. cbn [with_commands commands]. unfold command. cbn [with_streamer paused]. rewrite Hp. by eexists.
Qed.

(** The trivial encoders. *)
#[local] Instance no_encoders : Encoders :=
  {| AlacState := unit; alac_new _ _ _ := tt; alac_encode e _ _ _ out := (0%nat, out, e); FdkState := unit; fdk_new _ _ _ _ := None;
     fdk_encode e _ _ := (None, e); fdk_frame_length _ := None |}.
#[local] Existing Instance AesCtr.toy_block.
#[local] Existing Instance ToyAead.toy_aead.
#[local] Existing Instance ToyAead.toy_aead_laws.
#[local] Existing Instance AesCtr.toy_block_laws.

Definition demo_format : AudioFormat := mkFormat I16 Hz44100 Mono.
Definition demo_data : list Z := map (fun i => Z.of_nat i mod 251) (seq 0 1408).
Definition demo_stream (frames : nat) : option (list (list Z)) :=
  match Streamer_new (E := StreamError) 7 demo_format frames with
  | Ok s => match stream_source s (Slice_new demo_data demo_format) (replicate 3 (AudioTick true)) with
            | Done (Ok _) l => Some (audio (wire l))
            | _ => None
            end
  | _ => None
  end.

(** With a buffer of 400 frames a read does not fit, and what does not fit is lost: of
    the two packets the second has 95 bytes of the first 799 and silence. *)
Example small_buffer_loses : exists p q, demo_stream 400 = Some [p; q] /\
  map (drop 12) [p; q] = [take 704 demo_data; take 95 (drop 704 demo_data) ++ replicate 609 0].
Proof. do 2 eexists. split; [vm_compute; reflexivity|vm_compute; reflexivity]. Qed.

(** A source whose reads come in the given pieces. *)
Definition cut_read (c : list (list Z)) (n : nat) : outcome IoError (list Z) * list (list Z) :=
  match c with
  | [] => (Ok [], [])
  | p :: c => (Ok (take n p), if (length p <=? n)%nat then c else drop n p :: c)
  end.
Definition cut_source (c : list (list Z)) : CallbackSource (list (list Z)) := mkCallback c cut_read demo_format.

#[local, refine] Instance cut_holds : HoldsData (CallbackSource (list (list Z))) :=
  {| source_holds s d := callback s = cut_read /\ Forall (fun p => p <> []) (captured s) /\ d = mjoin (captured s) |}.
Proof.
  intros [c cb f] d n (E & Hc & ->). cbn [callback captured] in *. subst cb. cbn [src_read callback_source]. unfold callback_read. cbn [callback captured cb_format].
  destruct Hc as [|p c Hp Hc]; cbn [cut_read].
  { exists [], [], (mkCallback [] cut_read f). split_and!; try done; [cbn; lia|by right]. }
  exists (take n p), (drop n p ++ mjoin c). eexists. split; [done|]. cbn [callback captured].
  split; [change (mjoin (p :: c)) with (p ++ mjoin c); by rewrite app_assoc, take_drop|]. split.
  - split; [done|]. destruct (Nat.leb_spec (length p) n); [by rewrite drop_ge by lia|]. split; [|done]. constructor; [|done].
    intros E. apply (f_equal length) in E. rewrite length_drop in E. cbn in E. lia.
  - rewrite length_take. split; [lia|]. intros E. apply (f_equal length) in E. rewrite length_take in E. destruct p; [done|]. cbn in E. left. lia.
Defined.

(** Reads shorter than a packet insert silence: the buffer runs down to what one read
    brings, and every packet from the thirteenth on is padded although data follows. *)
Example short_reads_pad : exists s l, Streamer_new (E := StreamError) 7 demo_format 5632 = Ok s /\
  stream_source s (cut_source (replicate 3 (replicate 2816 1) ++ replicate 8 (replicate 100 1))) (replicate 18 (AudioTick true)) = Done (Ok tt) l /\
  map (fun p => Z.of_nat (length (filter (.= 0) (drop 12 p)))) (audio (wire l)) = replicate 12 0 ++ [304; 604; 604; 604; 604].
Proof. do 2 eexists. split; [vm_compute; reflexivity|]. split; vm_compute; reflexivity. Qed.

Lemma stream_delivers_witness :
  (exists s0 l, Streamer_new (E := StreamError) 7 demo_format 5632 = Ok s0 /\
    stream_source (keyed s0 (Some (replicate 32 9))) (Slice_new demo_data demo_format) [AudioTick true; Call Resume; AnnounceTick; AudioTick true; Receive; AudioTick true] = Done (Ok tt) l /\
    length (audio (wire l)) = 2%nat) /\
  (exists s0 l sent, Streamer_new (E := StreamError) 7 demo_format 5632 = Ok s0 /\
    stream_source s0 (cut_source [[1; 2; 3]; [4]]) (replicate 5 (AudioTick true)) = Done (Ok tt) l /\ mjoin sent = [1; 2; 3; 4] /\ length (audio (wire l)) = length sent).
Proof.
  assert (exists s0, Streamer_new (E := StreamError) 7 demo_format 5632 = Ok s0) as [s0 Hs0] by by eexists. split.
  - destruct (stream_delivers 7 demo_format 5632 (Some (replicate 32 9)) s0 (Slice_new demo_data demo_format) demo_data
      [AudioTick true; Call Resume; AnnounceTick; AudioTick true; Receive; AudioTick true]) as (l & sent & rest & Hend & _ & _ & Hlen & _ & _ & _ & Hfull).
    + done.
    + done.
    + intros k [= <-]. done.
    + by vm_compute.
    + split; [cbn; lia|done].
    + repeat constructor.
    + destruct (Hfull slice_fills) as [Hch Hdone]. assert (length (chunks (352 * bytes_per_frame demo_format) demo_data) = 2%nat) as Hl by by vm_compute.
      assert (Call Pause ∉ [AudioTick true; Call Resume; AnnounceTick; AudioTick true; Receive; AudioTick true]) as Hnp
        by (rewrite !not_elem_of_cons; split_and!; done || apply not_elem_of_nil).
      specialize (Hdone Hnp). rewrite Hl in Hdone. specialize (Hdone ltac:(cbn; lia)). exists s0, l. split; [done|]. split; [exact Hdone|].
      destruct Hend as [Hend|(_ & _ & ->)]; [rewrite Hdone in Hend; discriminate Hend|]. rewrite Hlen. rewrite Hch in Hl.
      rewrite length_app in Hl. change (chunks (352 * bytes_per_frame demo_format) []) with (@nil (list Z)) in Hl. cbn [length] in Hl. lia.
  - destruct (stream_delivers 7 demo_format 5632 None s0 (cut_source [[1; 2; 3]; [4]]) [1; 2; 3; 4] (replicate 5 (AudioTick true)))
      as (l & sent & rest & Hend & Hjoin & _ & Hlen & _ & _ & Hdone & _).
    + done.
    + done.
    + done.
    + by vm_compute.
    + split; [done|]. split; [by repeat constructor|done].
    + repeat constructor.
    + specialize (Hdone ltac:(cbn; rewrite !not_elem_of_cons; split_and!; done || apply not_elem_of_nil) ltac:(cbn; lia)).
      exists s0, l, sent. split; [done|]. split; [exact Hdone|].
      destruct Hend as [Hend|(_ & _ & ->)]; [cbn [keyed] in *; rewrite Hdone in Hend; discriminate Hend|]. rewrite app_nil_r in Hjoin. by split.
Defined.

End PcmStream.
