(* ===== verification/PasswordAuth.v ===== *)
(** * Password authentication of the AirPlay 2 receiver

    Models [src/receiver/ap2/password_auth.rs] (the manager around the pairing
    server and its failed-attempt tracker), [src/receiver/ap2/password_integration.rs]
    (the handler that tries the password and then the HomeKit pairing) and the
    password rules of [src/receiver/ap2/config.rs].  Instants are nanoseconds;
    [earliest] is the first instant the platform can represent, which
    [checked_sub] may fall below.  A function that reads the clock several times
    takes the readings as [now 0], [now 1], ... *)

From stdpp Require Import sorting relations pretty.
From S2P Require Import Prelude Bytes Text Tlv AesCtr Aead Srp KeyCrypto PairingServer Rtsp Ap2Session Ap2Request.

Module PasswordAuth.
Import KeyCrypto Rtsp Ap2Request.

(** ** Password rules *)
Inductive PasswordValidationError := Empty | TooShort (min : nat) | TooLong (max : nat) | InvalidCharacter (c : Z).

Definition validate_password (password : list Z) : outcome PasswordValidationError unit :=
  if (length password =? 0)%nat then Err Empty
  else if (length password <? 4)%nat then Err (TooShort 4)
  else if (64 <? length password)%nat then Err (TooLong 64)
  else if existsb (fun c => c =? 0) password then Err (InvalidCharacter 0)
  else Ok tt.

(** ** Failed attempts *)
Definition secs (n : Z) : Z := n * 1000000000.

Record FailedAttemptTracker := mkTracker {
  attempts : list Z; max_attempts : nat; window : Z; lockout_duration : Z; locked_until : option Z
}.

Definition Tracker_new : FailedAttemptTracker := mkTracker [] 5 (secs 60) (secs 300) None.

Definition is_locked (t : FailedAttemptTracker) (now : Z) : bool :=
  match locked_until t with Some until => now <? until | None => false end.

Definition lockout_remaining (t : FailedAttemptTracker) (now : Z) : option Z :=
  match locked_until t with Some until => if now <? until then Some (until - now) else None | None => None end.

(** [Instant::checked_sub]. *)
Definition checked_sub (earliest now d : Z) : option Z := if now - d <? earliest then None else Some (now - d).

Definition record_attempt (earliest : Z) (t : FailedAttemptTracker) (success : bool) (now : Z) : FailedAttemptTracker :=
  let t := match locked_until t with
           | Some until => if until <=? now then mkTracker [] (max_attempts t) (window t) (lockout_duration t) None else t
           | None => t
           end in
  if success then mkTracker [] (max_attempts t) (window t) (lockout_duration t) None
  else
    let window_start := default now (checked_sub earliest now (window t)) in
    let kept := List.filter (fun a => window_start <? a) (attempts t ++ [now]) in
    mkTracker kept (max_attempts t) (window t) (lockout_duration t)
      (if (max_attempts t <=? length kept)%nat then Some (now + lockout_duration t) else locked_until t).

(** ** The manager *)
Record PasswordAuthManager := mkAuth {
  pairing_server : PairingServer.PairingServer; password : option (list Z); enabled : bool;
  failed_attempts : FailedAttemptTracker
}.

Definition Manager_new (identity salt : list Z) : PasswordAuthManager :=
  mkAuth (PairingServer.PairingServer_new identity salt) None false Tracker_new.

Definition clear_password (m : PasswordAuthManager) : PasswordAuthManager :=
  mkAuth (PairingServer.reset (pairing_server m)) None false (failed_attempts m).
Definition is_enabled (m : PasswordAuthManager) : bool := enabled m.
Definition is_locked_out (m : PasswordAuthManager) (now : Z) : bool := is_locked (failed_attempts m) now.
Definition manager_lockout_remaining (m : PasswordAuthManager) (now : Z) : option Z := lockout_remaining (failed_attempts m) now.
Definition manager_keys (m : PasswordAuthManager) : option PairingServer.EncryptionKeys :=
  PairingServer.encryption_keys (pairing_server m).
Definition manager_reset (m : PasswordAuthManager) : PasswordAuthManager :=
  mkAuth (PairingServer.reset (pairing_server m)) (password m) (enabled m) (failed_attempts m).

Record PairingResponse := mkResponse { r_data : list Z; r_complete : bool; r_error : option string }.
Inductive PasswordAuthError := NotEnabled | LockedOut (remaining_seconds : Z) | AuthPairingError (s : string).

Definition PasswordAuthError_text (e : PasswordAuthError) : string :=
  match e with
  | NotEnabled => "Password authentication not enabled"
  | LockedOut n => "Too many failed attempts, locked out for " +:+ pretty n +:+ " seconds"
  | AuthPairingError s => "Pairing error: " +:+ s
  end.

(** [u32::try_from(d.as_secs()).unwrap_or(u32::MAX)]. *)
Definition whole_seconds (d : Z) : Z := let s := d / secs 1 in if s <? 2 ^ 32 then s else 2 ^ 32 - 1.

Definition to_response (r : PairingServer.PairingResult) : PairingResponse :=
  mkResponse (PairingServer.response r) (PairingServer.complete r)
    (PairingServer.PairingError_to_string <$> PairingServer.error r).

(** ** The combined handler *)
Inductive AuthMode := ANone | APassword | AHomeKitPin | ABoth.

Record AuthenticationHandler := mkHandler {
  password_auth : option PasswordAuthManager; homekit_handler : option PairingServer.PairingServer; mode : AuthMode
}.

Definition password_only (m : PasswordAuthManager) : AuthenticationHandler := mkHandler (Some m) None APassword.
Definition homekit_only (s : PairingServer.PairingServer) : AuthenticationHandler := mkHandler None (Some s) AHomeKitPin.
Definition both (m : PasswordAuthManager) (s : PairingServer.PairingServer) : AuthenticationHandler :=
  mkHandler (Some m) (Some s) ABoth.

Definition with_password (h : AuthenticationHandler) (m : PasswordAuthManager) : AuthenticationHandler :=
  mkHandler (Some m) (homekit_handler h) (mode h).

Section WithCrypto.
Context {O : HashOrder} {A : AeadCipher} {SH : Sha512} {P : PairCrypto}.

(** A password that breaks the rules changes nothing. *)
Definition set_password (m : PasswordAuthManager) (pw : list Z) : PasswordAuthManager :=
  match validate_password pw with
  | Ok _ => mkAuth (PairingServer.set_password (pairing_server m) pw) (Some pw) true (failed_attempts m)
  | _ => m
  end.

Definition from_config (config_password : option (list Z)) (identity salt : list Z) : PasswordAuthManager :=
  let m := Manager_new identity salt in
  match config_password with Some pw => set_password m pw | None => m end.

Definition process_pair_setup (earliest : Z) (m : PasswordAuthManager) (data : list Z) (rand : Z) (now : nat -> Z)
  : outcome Empty_set (outcome PasswordAuthError PairingResponse * PasswordAuthManager) :=
  if is_locked_out m (now 0%nat)
  then Ok (Err (LockedOut (whole_seconds (default 0 (manager_lockout_remaining m (now 1%nat))))), m)
  else if negb (is_enabled m) then Ok (Err NotEnabled, m)
  else
    '(result, server) ← PairingServer.process_pair_setup (pairing_server m) data rand;
    let success := match PairingServer.error result with None => true | Some _ => false end in
    let is_m4 := match PairingServer.new_state result with PairingServer.PairSetupComplete => true | _ => false end in
    let tracker := if is_m4 then record_attempt earliest (failed_attempts m) success (now 1%nat) else failed_attempts m in
    Ok (Ok (to_response result), mkAuth server (password m) (enabled m) tracker).

Definition process_pair_verify (m : PasswordAuthManager) (data secret : list Z) (now : nat -> Z)
  : outcome Empty_set (outcome PasswordAuthError PairingResponse * PasswordAuthManager) :=
  if is_locked_out m (now 0%nat)
  then Ok (Err (LockedOut (whole_seconds (default 0 (manager_lockout_remaining m (now 1%nat))))), m)
  else
    '(result, server) ← PairingServer.process_pair_verify (pairing_server m) data secret;
    Ok (Ok (to_response result), mkAuth server (password m) (enabled m) (failed_attempts m)).

Definition lockout_response (cseq : Z) (m : PasswordAuthManager) (now : Z) : Ap2HandleResult :=
  let remaining := match manager_lockout_remaining m now with Some d => whole_seconds d | None => 300 end in
  let response_tlv := Tlv.build (Tlv.add (Tlv.add_byte (Tlv.add_byte Tlv.new Tlv.State 0) Tlv.Error 3)
                                   Tlv.RetryDelay (to_le 4 remaining)) in
  {| response := Builder_encode (Ap2_binary_body
       (Builder_header (Builder_cseq (Builder_error 503) cseq) "Retry-After" (pretty remaining)) response_tlv);
     new_state := None; event := None; error := Some (ErrorText ("Locked out for " +:+ pretty remaining +:+ " seconds")) |}.

(** The [expect] on the keys of a completed pairing. *)
Definition pairing_response_to_handle_result (h : AuthenticationHandler) (r : PairingResponse) (cseq : Z)
  : outcome Empty_set Ap2HandleResult :=
  let st := match r_error r with
            | Some e => Some (Ap2Session.ErrorState 470 e)
            | None => if r_complete r then Some Ap2Session.Paired else None
            end in
  ev ← (if r_complete r then
          session_key ← unwrap (m ← password_auth h; k ← manager_keys m; Some (PairingServer.encrypt_key k));
          Ok (Some (PairingComplete session_key))
        else Ok None);
  Ok {| response := Builder_encode (Ap2_binary_body (Builder_cseq Builder_ok cseq) (r_data r));
        new_state := st; event := ev; error := ErrorText <$> r_error r |}.

Definition error_response (cseq : Z) (message : string) : Ap2HandleResult :=
  error_reply NOT_IMPLEMENTED cseq (Some (ErrorText message)).

Definition NO_METHOD : string := "No authentication method available".

(** The HomeKit handler, or none. *)
Definition homekit_setup (h : AuthenticationHandler) (r : RtspRequest) (cseq rand : Z)
  : outcome Empty_set (Ap2HandleResult * AuthenticationHandler) :=
  match homekit_handler h with
  | Some s => '(res, s') ← Ap2Request.handle_pair_setup s r cseq rand; Ok (res, mkHandler (password_auth h) (Some s') (mode h))
  | None => Ok (error_response cseq NO_METHOD, h)
  end.
Definition homekit_verify (h : AuthenticationHandler) (r : RtspRequest) (cseq : Z) (secret : list Z)
  : outcome Empty_set (Ap2HandleResult * AuthenticationHandler) :=
  match homekit_handler h with
  | Some s => '(res, s') ← Ap2Request.handle_pair_verify s r cseq secret; Ok (res, mkHandler (password_auth h) (Some s') (mode h))
  | None => Ok (error_response cseq NO_METHOD, h)
  end.

Definition handle_pair_setup (earliest : Z) (h : AuthenticationHandler) (r : RtspRequest) (cseq rand : Z) (now : nat -> Z)
  : outcome Empty_set (Ap2HandleResult * AuthenticationHandler) :=
  match password_auth h with
  | Some m =>
      if is_locked_out m (now 0%nat) then Ok (lockout_response cseq m (now 1%nat), h)
      else if is_enabled m then
        '(res, m') ← process_pair_setup earliest m (body r) rand (fun i => now (S i));
        let h := with_password h m' in
        match res with
        | Ok resp => hr ← pairing_response_to_handle_result h resp cseq; Ok (hr, h)
        | Err NotEnabled => homekit_setup h r cseq rand
        | Err e => Ok (error_response cseq (PasswordAuthError_text e), h)
        | Panic => Panic
        end
      else homekit_setup h r cseq rand
  | None => homekit_setup h r cseq rand
  end.

Definition handle_pair_verify (h : AuthenticationHandler) (r : RtspRequest) (cseq : Z) (secret : list Z) (now : nat -> Z)
  : outcome Empty_set (Ap2HandleResult * AuthenticationHandler) :=
  match password_auth h with
  | Some m =>
      if is_enabled m then
        '(res, m') ← process_pair_verify m (body r) secret now;
        let h := with_password h m' in
        match res with
        | Ok resp => hr ← pairing_response_to_handle_result h resp cseq; Ok (hr, h)
        | Err NotEnabled => homekit_verify h r cseq secret
        | Err e => Ok (error_response cseq (PasswordAuthError_text e), h)
        | Panic => Panic
        end
      else homekit_verify h r cseq secret
  | None => homekit_verify h r cseq secret
  end.

(** ** Steps of the shared manager *)
Inductive auth_step (earliest : Z) : PasswordAuthManager -> PasswordAuthManager -> Prop :=
| step_setup m data rand now res m' : process_pair_setup earliest m data rand now = Ok (res, m') -> auth_step earliest m m'
| step_verify m data secret now res m' : process_pair_verify m data secret now = Ok (res, m') -> auth_step earliest m m'
| step_set m pw : auth_step earliest m (set_password m pw)
| step_clear m : auth_step earliest m (clear_password m)
| step_reset m : auth_step earliest m (manager_reset m).

(** ** What the pairing server reports *)

(** An error comes with the error state and no completion; a completion has keys. *)
Definition sound (x : PairingServer.PairingResult * PairingServer.PairingServer) : Prop :=
  (PairingServer.error x.1 = None \/ PairingServer.new_state x.1 = PairingServer.Error /\ PairingServer.complete x.1 = false) /\
  (PairingServer.complete x.1 = true -> PairingServer.encryption_keys x.2 <> None).

Lemma error_sound s e x : Ok (E := Empty_set) (PairingServer.error_result s e) = Ok x -> sound x.
Proof. intros [= <-]. split; [by right|done]. Qed.
Lemma finish_sound s r x : (forall y, r = Ok y -> sound y) -> PairingServer.finish s r = Ok x -> sound x.
Proof. destruct r as [y|e|]; cbn; intros H; [intros [= <-]; by apply H|apply error_sound|done]. Qed.

Ltac to_result H :=
  repeat (apply bind_ok in H as (? & _ & H) || (match type of H with (let '(_, _) := ?x in _) = _ => destruct x end) ||
          (case_match; [try done|try done])); simplify_eq; (split; [by left|done]).

Lemma setup_sound s data rand x : PairingServer.process_pair_setup s data rand = Ok x -> sound x.
Proof.
  unfold PairingServer.process_pair_setup. destruct (Tlv.decode data) as [tlv|e|]; [|apply error_sound|done].
  destruct (PairingServer.state_or_0 tlv) as [|[[q|q|]|q|]|q]; try apply error_sound.
  - unfold PairingServer.handle_pair_setup_m3. destruct (negb _); [apply error_sound|]. apply finish_sound. intros y Hy. to_result Hy.
  - unfold PairingServer.handle_pair_setup_m1. apply finish_sound. intros y Hy. to_result Hy.
Qed.

Lemma verify_sound s data secret x : PairingServer.process_pair_verify s data secret = Ok x -> sound x.
Proof.
  unfold PairingServer.process_pair_verify. destruct (Tlv.decode data) as [tlv|e|]; [|apply error_sound|done].
  destruct (PairingServer.state_or_0 tlv) as [|[[q|q|]|q|]|q]; try apply error_sound.
  - unfold PairingServer.handle_pair_verify_m3. destruct (negb _); [apply error_sound|]. apply finish_sound. intros y Hy. to_result Hy.
  - unfold PairingServer.handle_pair_verify_m1. set (s1 := if _ && _ then _ else _). clearbody s1.
    destruct (Tlv.get tlv Tlv.PublicKey) as [arr|]; [|apply error_sound]. destruct (negb _); [apply error_sound|].
    destruct (X25519PublicKey_from_bytes arr); [|apply error_sound|done]. apply finish_sound. intros y Hy. to_result Hy.
Qed.

(** A manager that has recorded nothing. *)
Definition untouched (m : PasswordAuthManager) : Prop := failed_attempts m = Tracker_new.

Lemma untouched_step earliest m m' : auth_step earliest m m' -> untouched m -> untouched m'.
Proof.
  unfold untouched. intros H Hm. destruct H as [m data rand now res m' H|m data secret now res m' H|m pw|m|m]; try done.
  - unfold process_pair_setup in H. destruct (is_locked_out _ _); [by simplify_eq|]. destruct (negb _); [by simplify_eq|].
    apply bind_ok in H as ([r s'] & Hs & H). simplify_eq. cbn [failed_attempts]. apply setup_sound in Hs as [He _]. cbn in He.
    destruct (PairingServer.new_state r) eqn:En; try done. destruct He as [-> | [? _]]; [|done]. by rewrite Hm.
  - unfold process_pair_verify in H. destruct (is_locked_out _ _); [by simplify_eq|]. apply bind_ok in H as ([r s'] & Hs & H). by simplify_eq.
  - unfold set_password. by destruct (validate_password pw).
Qed.

Lemma untouched_reachable earliest m m' : rtc (auth_step earliest) m m' -> untouched m -> untouched m'.
Proof. induction 1; eauto using untouched_step. Qed.

Lemma config_untouched pw identity salt : untouched (from_config pw identity salt).
Proof. unfold from_config, set_password. destruct pw as [pw|]; [|done]. by destruct (validate_password pw). Qed.

(** The tracker's window. *)
Definition failures (earliest : Z) (ts : list Z) : FailedAttemptTracker :=
  foldl (fun t now => record_attempt earliest t false now) Tracker_new ts.
Definition in_window (ts : list Z) (now : Z) : list Z := List.filter (fun a => now - secs 60 <? a) ts.

Lemma filter_narrow a b ts : b <= a -> List.filter (fun x => a <? x) (List.filter (fun x => b <? x) ts) = List.filter (fun x => a <? x) ts.
Proof.
  intros H. induction ts as [|t ts IH]; [done|]. cbn [List.filter]. destruct (Z.ltb_spec b t), (Z.ltb_spec a t) as [Ha|Ha];
    cbn [List.filter]; try lia; rewrite ?IH; try done.
  - by destruct (Z.ltb_spec a t); [|lia].
  - by destruct (Z.ltb_spec a t); [lia|].
Qed.

(** As long as no lock was set, the tracker knows the attempts of every window to come. *)
Definition tracks (t : FailedAttemptTracker) (ts : list Z) : Prop :=
  t = mkTracker (attempts t) 5 (secs 60) (secs 300) None /\
  forall now, Forall (fun x => x <= now) ts -> List.filter (fun a => now - secs 60 <? a) (attempts t) = in_window ts now.

Lemma record_failure earliest t ts now : tracks t ts -> Forall (fun x => x <= now) ts -> earliest + secs 60 <= now ->
  record_attempt earliest t false now = mkTracker (in_window (ts ++ [now]) now) 5 (secs 60) (secs 300)
    (if (5 <=? length (in_window (ts ++ [now]) now))%nat then Some (now + secs 300) else None).
Proof.
  intros [Ht Hw] Hle He. unfold record_attempt. rewrite Ht. cbn [locked_until attempts window max_attempts lockout_duration].
  unfold checked_sub. destruct (Z.ltb_spec (now - secs 60) earliest); [lia|]. cbn [default from_option id].
  assert (List.filter (fun a => now - secs 60 <? a) (attempts t ++ [now]) = in_window (ts ++ [now]) now) as ->; [|done].
  unfold in_window. rewrite !List.filter_app. f_equal. by apply Hw.
Qed.

Lemma failures_track earliest ts : StronglySorted Z.le ts -> Forall (fun t => earliest + secs 60 <= t) ts ->
  (forall i t, ts !! i = Some t -> (length (in_window (take (S i) ts) t) < 5)%nat) -> tracks (failures earliest ts) ts.
Proof.
  induction ts as [|now ts IH] using rev_ind; intros Hs He Hu; [by split|].
  apply StronglySorted_app in Hs as (Hle & Hs & _). apply Forall_app in He as [He He1]. rewrite Forall_singleton in He1.
  assert (Forall (fun x => x <= now) ts) as Hn by (apply Forall_forall; intros x Hx; apply Hle; [done|by apply list_elem_of_singleton]).
  unfold failures in *. rewrite foldl_app. cbn [foldl]. rewrite (record_failure _ _ ts); [| |exact Hn|exact He1].
  2:{ apply IH; [done..|]. intros i t Hi. assert (i < length ts)%nat as Hlt by (by eapply lookup_lt_Some).
      specialize (Hu i t). rewrite lookup_app_l, take_app_le in Hu by lia. by apply Hu. }
  specialize (Hu (length ts) now). rewrite lookup_app_r, Nat.sub_diag, take_ge in Hu by (rewrite ?length_app; cbn; lia).
  specialize (Hu eq_refl). destruct (Nat.leb_spec 5 (length (in_window (ts ++ [now]) now))); [lia|]. split; [done|].
  cbn [attempts]. intros later Hl. unfold in_window. apply filter_narrow. apply Forall_app in Hl as [_ Hl]. rewrite Forall_singleton in Hl. lia.
Qed.

Context {AL : AeadLaws A} {SL : Sha512Laws SH} {PL : PairCryptoLaws P}.

(** The conversion of a sound result. *)
Lemma convert_sound h m res server cseq : sound (res, server) -> pairing_server m = server ->
  exists hr, pairing_response_to_handle_result (with_password h m) (to_response res) cseq = Ok hr /\
    (PairingServer.complete res = true -> new_state hr = Some Ap2Session.Paired /\
       exists k, PairingServer.encryption_keys server = Some k /\ event hr = Some (PairingComplete (PairingServer.encrypt_key k))).
Proof.
  intros [He Hk] Hm. unfold pairing_response_to_handle_result. cbn [to_response r_complete r_error r_data with_password password_auth] in *.
  cbn [fst snd] in *. destruct (PairingServer.complete res) eqn:Hc; cbn [mbind outcome_bind option_bind]; [|by eexists].
  unfold manager_keys. rewrite Hm. destruct (PairingServer.encryption_keys server) as [k|]; [|by destruct (Hk eq_refl)].
  cbn [mbind outcome_bind option_bind unwrap]. eexists. split; [done|]. intros _. cbn [new_state event].
  destruct He as [-> | [_ ?]]; [|done]. cbn [fmap option_fmap option_map]. split; [done|]. by exists k.
Qed.

(** ** Properties *)

(** The lockout never triggers. However many wrong passwords are tried, and in
    whatever order requests, resets and password changes come, the tracker of a
    manager made from a configuration stays as new: an attempt is recorded only
    when pair-setup reaches its completed state, which a failed proof never does.
    So no client is ever told it is locked out. *)
Theorem lockout_never_triggers (earliest : Z) (pw : option (list Z)) (identity salt : list Z) (m : PasswordAuthManager)
  (H : rtc (auth_step earliest) (from_config pw identity salt) m) (now : Z) :
  failed_attempts m = Tracker_new /\ is_locked_out m now = false /\
  (forall data rand clock res m' n, process_pair_setup earliest m data rand clock = Ok (res, m') -> res <> Err (LockedOut n)) /\
  (forall data secret clock res m' n, process_pair_verify m data secret clock = Ok (res, m') -> res <> Err (LockedOut n)).
Proof.
  apply untouched_reachable in H; [|apply config_untouched]. unfold untouched in H.
  assert (forall t, is_locked_out m t = false) as Hl by (intros t; unfold is_locked_out; by rewrite H). split_and!; [done|apply Hl|..].
  - intros data rand clock res m' n. unfold process_pair_setup. rewrite Hl. destruct (negb _); [by intros [= <- _]|].
    intros Hr. apply bind_ok in Hr as ([r s'] & _ & Hr). by simplify_eq.
  - intros data secret clock res m' n. unfold process_pair_verify. rewrite Hl.
    intros Hr. apply bind_ok in Hr as ([r s'] & _ & Hr). by simplify_eq.
Qed.

(** The tracker counts a sliding window. When failures are recorded at times
    that never go back, and none of the earlier ones filled a window, the last one
    locks exactly when it is at least the fifth within the 60 seconds up to it, and
    the lock lasts exactly the 300 seconds after it. *)
Theorem lockout_window (earliest : Z) (ts : list Z) (now later : Z) (Hs : StronglySorted Z.le (ts ++ [now]))
  (He : Forall (fun t => earliest + secs 60 <= t) (ts ++ [now]))
  (Hu : forall i t, ts !! i = Some t -> (length (in_window (take (S i) ts) t) < 5)%nat) :
  is_locked (failures earliest (ts ++ [now])) later =
    (5 <=? length (in_window (ts ++ [now]) now))%nat && (later <? now + secs 300).
Proof.
  apply StronglySorted_app in Hs as (Hle & Hs & _). apply Forall_app in He as [He He1]. rewrite Forall_singleton in He1.
  pose proof (failures_track earliest ts Hs He Hu) as Ht. unfold failures in *. rewrite foldl_app. cbn [foldl].
  rewrite (record_failure _ _ ts); [|done| |done]; [|apply Forall_forall; intros x Hx; apply Hle; [done|by apply list_elem_of_singleton]].
  unfold is_locked. cbn [locked_until]. by destruct (5 <=? _)%nat.
Qed.

(** The password is not needed. On a receiver protected by a password, a client
    that never ran pair-setup completes pair-verify with keys of its own making:
    the second request puts the session in the state [Paired] and hands out the
    session key, which the client can compute. *)
Theorem password_bypassed (m : PasswordAuthManager) (e sk secret ignored : list Z) (c1 c2 : Z) (now : nat -> Z)
  (He : is_enabled m = true) (Hl : forall t, is_locked_out m t = false) :
  let post b := {| method := Post; uri := "/pair-verify"; headers := []; body := b |} in
  exists enc r1 h1 r2 h2 keys,
    handle_pair_verify (password_only m) (post (Tlv.encode_all (PairingServer.verify_m1_items e))) c1 secret now = Ok (r1, h1) /\
    handle_pair_verify h1 (post (Tlv.encode_all (PairingServer.verify_m3_items enc))) c2 ignored now = Ok (r2, h2) /\
    new_state r2 = Some Ap2Session.Paired /\
    PairingServer.derive_session_keys (x_dh e (x_public secret)) = Ok keys /\
    event r2 = Some (PairingComplete (PairingServer.encrypt_key keys)).
Proof.
  intros post. destruct (PairingServer.verify_m1_ok (pairing_server m) e secret) as (q1 & s1 & H1 & _ & Hst & Hsh & Hkp & Hcc).
  destruct (expand_fixed32_ok (bs "Pair-Verify-Encrypt-Salt") (x_dh secret (x_public e)) (bs "Pair-Verify-Encrypt-Info")) as (k & Hk & _).
  destruct (aead_seal_total k (PairingServer.nonce_of_prefix (bs "PV-Msg03")) []
    (Tlv.encode_all (PairingServer.verify_sub_items e sk (x_public secret)))) as [enc Henc]; [apply PairingServer.length_sub_tlv|].
  destruct (PairingServer.verify_m3_ok s1 e sk secret k enc ignored Hst Hsh Hkp Hcc Hk Henc) as (q2 & s2 & keys & H2 & _ & Hcomp & Hke & _ & Hdk).
  set (m1 := mkAuth s1 (password m) (enabled m) (failed_attempts m)). set (m2 := mkAuth s2 (password m) (enabled m) (failed_attempts m)).
  destruct (convert_sound (password_only m) m1 q1 s1 c1 (verify_sound _ _ _ _ H1) eq_refl) as (r1 & Hr1 & _).
  destruct (convert_sound (password_only m1) m2 q2 s2 c2 (verify_sound _ _ _ _ H2) eq_refl) as (r2 & Hr2 & Hc2).
  destruct (Hc2 Hcomp) as (Hn & k' & Hk' & Hev). simplify_eq.
  exists enc, r1, (password_only m1), r2, (password_only m2), keys. rewrite (x_dh_comm e secret). split_and!; [| |done|done|by rewrite Hev].
  - unfold handle_pair_verify, process_pair_verify. cbn [password_only password_auth body post]. rewrite He, Hl, H1.
    cbn [mbind outcome_bind]. change (with_password _ _) with (with_password (password_only m) m1). by rewrite Hr1.
  - unfold handle_pair_verify, process_pair_verify. cbn [password_only password_auth body post]. change (is_enabled m1) with (is_enabled m).
    change (is_locked_out m1) with (is_locked_out m). rewrite He, Hl. cbn [m1 pairing_server]. rewrite H2.
    cbn [mbind outcome_bind]. change (with_password _ _) with (with_password (password_only m1) m2). by rewrite Hr2.
Qed.

(** Password pairing does not panic. Whatever a client sends, in whatever state
    the manager's pairing server is, the handlers of a receiver with a password
    return a response: in particular the keys they expect of a completed pairing
    are always there. *)
Theorem password_handler_total (earliest : Z) (m : PasswordAuthManager) (r : RtspRequest) (cseq rand : Z) (secret : list Z) (now : nat -> Z) :
  safe (handle_pair_setup earliest (password_only m) r cseq rand now) /\ safe (handle_pair_verify (password_only m) r cseq secret now).
Proof.
  split.
  - unfold handle_pair_setup, process_pair_setup. cbn [password_only password_auth]. destruct (is_locked_out m _); [done|].
    destruct (is_enabled m) eqn:En; [|done]. destruct (is_locked_out m _); cbn [negb mbind outcome_bind]; [done|].
    destruct (PairingServer.process_setup_spec (pairing_server m) (body r) rand) as [Hs _].
    destruct (PairingServer.process_pair_setup _ _ _) as [[q s]| |] eqn:Hq; cbn [mbind outcome_bind]; [|done..].
    edestruct convert_sound as (hr & -> & _); [by eapply setup_sound|reflexivity|]. done.
  - unfold handle_pair_verify, process_pair_verify. cbn [password_only password_auth].
    destruct (is_enabled m) eqn:En; [|done]. destruct (is_locked_out m _); cbn [negb mbind outcome_bind]; [done|].
    destruct (PairingServer.process_verify_spec (pairing_server m) (body r) secret) as [Hs _].
    destruct (PairingServer.process_pair_verify _ _ _) as [[q s]| |] eqn:Hq; cbn [mbind outcome_bind]; [|done..].
    edestruct convert_sound as (hr & -> & _); [by eapply verify_sound|reflexivity|]. done.
Qed.

End WithCrypto.

(** ** Witnesses *)
Import ToyAead.
#[local] Existing Instance KeyCrypto.toy_pair_crypto.
#[local] Existing Instance KeyCrypto.toy_pair_crypto_laws.
#[local] Existing Instance PairingServer.small_sha.
#[local] Existing Instance PairingServer.small_sha_laws.
#[local] Instance as_inserted : HashOrder := fun l => l.

Definition demo_manager : PasswordAuthManager := from_config (Some (bs "secret")) [3] [1; 2; 3].

Definition demo_after : PasswordAuthManager :=
  match process_pair_setup 0 demo_manager [6; 1; 9] 0 (fun _ => secs 100) with Ok (_, m) => m | _ => demo_manager end.

(** A message that fails. *)
Lemma lockout_never_triggers_witness :
  rtc (auth_step 0) demo_manager demo_after /\ PairingServer.state (pairing_server demo_after) = PairingServer.Error /\
    is_locked_out demo_after (secs 1000) = false.
Proof.
  assert (rtc (auth_step 0) demo_manager demo_after) as H
    by (apply rtc_once; eapply (step_setup 0 _ [6; 1; 9] 0 (fun _ => secs 100)); reflexivity).
  split; [exact H|]. split; [reflexivity|].
  destruct (lockout_never_triggers 0 (Some (bs "secret")) [3] [1; 2; 3] demo_after H (secs 1000)) as (_ & Hl & _). exact Hl.
Defined.

(** Five failures, one second apart. *)
Lemma lockout_window_witness :
  let t := failures 0 [secs 100; secs 101; secs 102; secs 103; secs 104] in
  is_locked t (secs 403) = true /\ is_locked t (secs 404) = false.
Proof.
  assert (forall later, is_locked (failures 0 ([secs 100; secs 101; secs 102; secs 103] ++ [secs 104])) later = (later <? secs 404)) as H.
  { intros later. refine (lockout_window 0 [secs 100; secs 101; secs 102; secs 103] (secs 104) later _ _ _).
    - repeat constructor; vm_compute; discriminate.
    - repeat constructor; vm_compute; discriminate.
    - intros [|[|[|[|i]]]] t; cbn [lookup list_lookup]; intros [= <-]; vm_compute; lia. }
  split; [exact (H (secs 403))|exact (H (secs 404))].
Defined.

Lemma password_bypassed_witness : exists r h, handle_pair_verify h r 2 [] (fun _ => 0) <> Panic /\
  is_enabled demo_manager = true.
Proof.
  destruct (password_bypassed demo_manager [5] [6] [8] [] 1 2 (fun _ => 0)) as (enc & r1 & h1 & r2 & h2 & keys & _ & H2 & _);
    [reflexivity|reflexivity|].
  eexists _, h1. split; [|reflexivity]. rewrite H2. discriminate.
Defined.

End PasswordAuth.
