(* ===== verification/RaopClient.v ===== *)
(** * The RAOP client session

    Models [src/protocol/raop/session.rs] (the client's RTSP session: requests,
    responses, states), [src/protocol/raop/auth.rs] (the Apple-Challenge exchange)
    and [src/protocol/raop/encryption.rs] (audio encryption).  Random identifiers
    are arguments; Apple's RSA key pair is the interface [AppleRsa], whose public
    half is built into the client. *)

From stdpp Require Import gmap pretty.
From S2P Require Import Text AesCtr Unicode Rtsp RtspParser Plist Sdp Dmap RaopSession RaopServer.

(** PKCS#1 v1.5 signatures with the key pair of [crypto/rsa.rs]; [rsa_load] is
    [AppleRsaPublicKey::load]. *)
Class AppleRsa := {
  rsa_load : outcome AesCtr.CryptoError unit;
  sign_pkcs1 : list Z -> outcome AesCtr.CryptoError (list Z);
  verify_pkcs1 : list Z -> list Z -> outcome AesCtr.CryptoError unit
}.
Class AppleRsaLaws (R : AppleRsa) := {
  rsa_loads : rsa_load = Ok tt;
  sign_bytes : forall m s, sign_pkcs1 m = Ok s -> bytes_ok s;
  sign_verify : forall m s, sign_pkcs1 m = Ok s -> verify_pkcs1 m s = Ok tt
}.

Module RaopClient.
Import AesCtr Unicode Rtsp RtspParser Sdp RaopSession.

(** ** Challenge and response ([auth.rs]) *)
Inductive IpAddr := V4 (octets : list Z) | V6 (octets : list Z).
Definition octets (ip : IpAddr) : list Z := match ip with V4 o | V6 o => o end.

Inductive AuthState := AInitial | ChallengeSent | Authenticated | AFailed.
Record RaopAuthenticator := mkAuthenticator { challenge : list Z; auth_state : AuthState }.
Definition Authenticator_new (random : list Z) : RaopAuthenticator := mkAuthenticator random AInitial.
Definition mark_sent (a : RaopAuthenticator) : RaopAuthenticator := mkAuthenticator (challenge a) ChallengeSent.
Definition is_authenticated (a : RaopAuthenticator) : bool := match auth_state a with Authenticated => true | _ => false end.

(** [while message.len() < 32 { push 0 }]. *)
Definition pad32 (m : list Z) : list Z := m ++ replicate (32 - length m) 0.
Definition build_response_message (challenge : list Z) (ip : IpAddr) (mac : list Z) : list Z :=
  pad32 (challenge ++ octets ip ++ mac).

Section Auth.
Context {B : Base64} {R : AppleRsa}.

Definition encode_challenge (c : list Z) : list Z := b64np_encode c.
Definition decode_challenge (header : list Z) : outcome CryptoError (list Z) :=
  ok_or (b64np_decode (trim header)) DecryptionFailed.
Definition challenge_header (a : RaopAuthenticator) : list Z := encode_challenge (challenge a).

Definition generate_response (challenge : list Z) (ip : IpAddr) (mac : list Z) : outcome CryptoError (list Z) :=
  signature ← sign_pkcs1 (build_response_message challenge ip mac); Ok (b64np_encode signature).

Definition verify_response (header challenge : list Z) (ip : IpAddr) (mac : list Z) : outcome CryptoError unit :=
  signature ← ok_or (b64np_decode (trim header)) VerificationFailed;
  verify_pkcs1 (build_response_message challenge ip mac) signature.

(** The state changes only once the key has loaded. *)
Definition verify (a : RaopAuthenticator) (header : list Z) (ip : IpAddr) (mac : list Z)
  : outcome CryptoError unit * RaopAuthenticator :=
  match auth_state a with
  | ChallengeSent =>
      match rsa_load with
      | Ok _ =>
          match verify_response header (challenge a) ip mac with
          | Ok _ => (Ok tt, mkAuthenticator (challenge a) Authenticated)
          | r => (r, mkAuthenticator (challenge a) AFailed)
          end
      | Err e => (Err e, a)
      | Panic => (Panic, a)
      end
  | _ => (Err VerificationFailed, a)
  end.
End Auth.

(** ** The session ([session.rs]) *)
Inductive RaopSessionState := Init | OptionsExchange | Announcing | SettingUp | Recording | CPaused | Terminated.

Record RaopTransport := mkRaopTransport {
  rt_server : Z; rt_control : Z; rt_timing : Z; rt_client_control : Z; rt_client_timing : Z
}.

Record RaopRtspSession := mkClient {
  c_state : RaopSessionState; cseq : Z; session_id : option string; client_instance : string; dacp_id : string;
  active_remote : string; server_addr : string; server_port : Z; authenticator : RaopAuthenticator;
  session_keys : option RaopSessionKeys; transport : option RaopTransport; audio_latency : Z
}.

(** [instance] and [dacp] are the random identifiers, already in hexadecimal. *)
Definition Client_new (addr : string) (port : Z) (instance dacp : string) (remote : Z) (random : list Z) : RaopRtspSession :=
  mkClient Init 0 None instance dacp (pretty remote) addr port (Authenticator_new random) None None 11025.

Definition with_cseq (s : RaopRtspSession) (n : Z) : RaopRtspSession :=
  mkClient (c_state s) n (session_id s) (client_instance s) (dacp_id s) (active_remote s) (server_addr s) (server_port s)
    (authenticator s) (session_keys s) (transport s) (audio_latency s).
Definition with_session_id (s : RaopRtspSession) (i : string) : RaopRtspSession :=
  mkClient (c_state s) (cseq s) (Some i) (client_instance s) (dacp_id s) (active_remote s) (server_addr s) (server_port s)
    (authenticator s) (session_keys s) (transport s) (audio_latency s).
Definition with_state (s : RaopRtspSession) (st : RaopSessionState) : RaopRtspSession :=
  mkClient st (cseq s) (session_id s) (client_instance s) (dacp_id s) (active_remote s) (server_addr s) (server_port s)
    (authenticator s) (session_keys s) (transport s) (audio_latency s).
Definition with_authenticator (s : RaopRtspSession) (a : RaopAuthenticator) : RaopRtspSession :=
  mkClient (c_state s) (cseq s) (session_id s) (client_instance s) (dacp_id s) (active_remote s) (server_addr s) (server_port s)
    a (session_keys s) (transport s) (audio_latency s).
Definition with_transport (s : RaopRtspSession) (t : RaopTransport) : RaopRtspSession :=
  mkClient (c_state s) (cseq s) (session_id s) (client_instance s) (dacp_id s) (active_remote s) (server_addr s) (server_port s)
    (authenticator s) (session_keys s) (Some t) (audio_latency s).
Definition with_latency (s : RaopRtspSession) (n : Z) : RaopRtspSession :=
  mkClient (c_state s) (cseq s) (session_id s) (client_instance s) (dacp_id s) (active_remote s) (server_addr s) (server_port s)
    (authenticator s) (session_keys s) (transport s) n.
Definition with_keys (s : RaopRtspSession) (k : RaopSessionKeys) : RaopRtspSession :=
  mkClient (c_state s) (cseq s) (session_id s) (client_instance s) (dacp_id s) (active_remote s) (server_addr s) (server_port s)
    (authenticator s) (Some k) (transport s) (audio_latency s).

Definition next_cseq {E} (s : RaopRtspSession) : outcome E (Z * RaopRtspSession) :=
  n ← chk_u 32 (cseq s + 1); Ok (n, with_cseq s n).

Definition raop_uri (s : RaopRtspSession) (path : string) : string :=
  "rtsp://" +:+ server_addr s +:+ ":" +:+ pretty (server_port s) +:+ "/" +:+
  (match path with EmptyString => client_instance s | _ => path end).

Definition add_common_headers (s : RaopRtspSession) (r : RtspRequest) (n : Z) : RtspRequest :=
  let r := request_header (request_header (request_header (request_header (request_cseq r n)
             "User-Agent" "iTunes/12.0 (Macintosh)") "Client-Instance" (client_instance s)) "DACP-ID" (dacp_id s))
             "Active-Remote" (active_remote s) in
  match session_id s with Some i => request_session r i | None => r end.

(** The beginning that all requests share. *)
Definition common {E} (s : RaopRtspSession) (m : Method) (path : string) : outcome E (RtspRequest * RaopRtspSession) :=
  '(n, s) ← next_cseq s; Ok (add_common_headers s (Request_new m (raop_uri s path)) n, s).

Definition options_request {B : Base64} {E} (s : RaopRtspSession) : outcome E (RtspRequest * RaopRtspSession) :=
  '(r, s) ← common s Options "*";
  Ok (request_header r "Apple-Challenge" (of_chars (challenge_header (authenticator s))), s).

Definition announce_request {E} (s : RaopRtspSession) (sdp : list Z) : outcome E (RtspRequest * RaopRtspSession) :=
  '(r, s) ← common s Announce "";
  Ok (request_body (request_header r "Content-Type" "application/sdp") (utf8_encode sdp), s).

Definition setup_transport (control timing : Z) : string :=
  "RTP/AVP/UDP;unicast;interleaved=0-1;mode=record;control_port=" +:+ pretty control +:+ ";timing_port=" +:+ pretty timing.
Definition setup_request {E} (s : RaopRtspSession) (control timing : Z) : outcome E (RtspRequest * RaopRtspSession) :=
  '(r, s) ← common s Rtsp.Setup "";
  Ok (request_header r "Transport" (setup_transport control timing), s).

Definition rtp_info (seq rtptime : Z) : string := "seq=" +:+ pretty seq +:+ ";rtptime=" +:+ pretty rtptime.
Definition record_request {E} (s : RaopRtspSession) (seq rtptime : Z) : outcome E (RtspRequest * RaopRtspSession) :=
  '(r, s) ← common s Record_ "";
  Ok (request_header (request_header r "Range" "npt=0-") "RTP-Info" (rtp_info seq rtptime), s).

Definition set_volume_request {F : Floats} {E} (s : RaopRtspSession) (volume_db : Z) : outcome E (RtspRequest * RaopRtspSession) :=
  '(r, s) ← common s SetParameter "";
  Ok (request_body (request_header r "Content-Type" "text/parameters")
        (utf8_encode (bs "volume: " ++ show_f32 volume_db ++ crlf)), s).

Definition set_metadata_request {E} (s : RaopRtspSession) (m : Dmap.TrackMetadata) (rtptime : Z) : outcome E (RtspRequest * RaopRtspSession) :=
  '(r, s) ← common s SetParameter "";
  data ← Dmap.encode_dmap m;
  Ok (request_body (request_header (request_header r "Content-Type" "application/x-dmap-tagged")
        "RTP-Info" ("rtptime=" +:+ pretty rtptime)) data, s).

Definition set_artwork_request {E} (s : RaopRtspSession) (a : Dmap.Artwork) (rtptime : Z) : outcome E (RtspRequest * RaopRtspSession) :=
  '(r, s) ← common s SetParameter "";
  Ok (request_body (request_header (request_header r "Content-Type" (of_chars (Dmap.mime_type (Dmap.format a))))
        "RTP-Info" ("rtptime=" +:+ pretty rtptime)) (Dmap.a_data a), s).

Definition set_progress_request {E} (s : RaopRtspSession) (p : Dmap.DmapProgress) : outcome E (RtspRequest * RaopRtspSession) :=
  '(r, s) ← common s SetParameter "";
  Ok (request_body (request_header r "Content-Type" "text/parameters") (utf8_encode (Dmap.Progress_encode p)), s).

Definition flush_request {E} (s : RaopRtspSession) (seq rtptime : Z) : outcome E (RtspRequest * RaopRtspSession) :=
  '(r, s) ← common s Flush ""; Ok (request_header r "RTP-Info" (rtp_info seq rtptime), s).

Definition teardown_request {E} (s : RaopRtspSession) : outcome E (RtspRequest * RaopRtspSession) := common s Rtsp.Teardown "".

(** *** Responses *)
Definition is_success (r : RtspResponse) : bool := (200 <=? status r) && (status r <? 300).

Definition response_failed (m : Method) (r : RtspResponse) : string :=
  Method_as_str m +:+ " failed: " +:+ pretty (status r) +:+ " " +:+ reason r.

(** [session.split(';').next().unwrap_or(session)]. *)
Definition session_part (session : string) : string :=
  match split_char 59 (chars_of session) with p :: _ => of_chars p | [] => session end.

(** [str::split_once('=')]. *)
Fixpoint split_eq (s : list Z) : option (list Z * list Z) :=
  match s with
  | [] => None
  | c :: s => if c =? 61 then Some ([], s) else '(k, v) ← split_eq s; Some (c :: k, v)
  end.

Definition transport_part (t : Z * Z * Z) (part : list Z) : Z * Z * Z :=
  let '(s, c, ti) := t in
  match split_eq (trim part) with
  | Some (k, v) =>
      let n := default 0 (parse_num 16 v) in
      if bool_decide (k = bs "server_port") then (n, c, ti)
      else if bool_decide (k = bs "control_port") then (s, n, ti)
      else if bool_decide (k = bs "timing_port") then (s, c, n)
      else t
  | None => t
  end.
Definition parse_transport (transport : list Z) : outcome string RaopTransport :=
  let '(s, c, ti) := foldl transport_part (0, 0, 0) (split_char 59 transport) in
  if s =? 0 then Err "missing server_port in transport" else Ok (mkRaopTransport s c ti 0 0).

(** What was stored before an error stays. *)
Definition process_response (s : RaopRtspSession) (m : Method) (r : RtspResponse) : outcome string unit * RaopRtspSession :=
  if negb (is_success r) then (Err (response_failed m r), s)
  else
    let s := match Headers_session (resp_headers r) with
             | Some session => with_session_id s (session_part session)
             | None => s
             end in
    match m with
    | Options => (Ok tt, with_state (with_authenticator s (mark_sent (authenticator s))) OptionsExchange)
    | Announce => (Ok tt, with_state s Announcing)
    | Rtsp.Setup =>
        let finish s :=
          let s := match Headers_get (resp_headers r) "Audio-Latency" with
                   | Some l => with_latency s (default 11025 (parse_uint 32 l))
                   | None => s
                   end in
          (Ok tt, with_state s SettingUp) in
        match Headers_get (resp_headers r) "Transport" with
        | Some t =>
            match parse_transport (chars_of t) with
            | Ok tr => finish (with_transport s tr)
            | Err e => (Err e, s)
            | Panic => (Panic, s)
            end
        | None => finish s
        end
    | Record_ => (Ok tt, with_state s Recording)
    | Flush => (Ok tt, with_state s CPaused)
    | Rtsp.Teardown => (Ok tt, with_state s Terminated)
    | _ => (Ok tt, s)
    end.

(** [encrypt_oaep] is the encryption with Apple's public key, for the random key
    and vector. *)
Definition prepare_announce {B : Base64} {AO : AttrOrder} (encrypt_oaep : list Z -> outcome string (list Z)) (key iv : list Z) (s : RaopRtspSession)
  : outcome string (list Z * RaopRtspSession) :=
  keys ← generate encrypt_oaep key iv;
  Ok (create_raop_announce_sdp (chars_of (client_instance s)) (bs "0.0.0.0") (chars_of (server_addr s)) (rsaaeskey keys) (aesiv keys),
      with_keys s keys).

(** ** Audio encryption ([encryption.rs]) *)
Definition FRAME_SIZE : Z := 352 * 4.
Record RaopEncryptor := mkEncryptor { e_key : list Z; e_iv : list Z; e_enabled : bool }.
Definition Encryptor_new (key iv : list Z) : RaopEncryptor := mkEncryptor key iv true.
Definition Encryptor_disabled : RaopEncryptor := mkEncryptor (replicate 16 0) (replicate 16 0) false.
Record RaopDecryptor := mkDecryptor { d_key : list Z; d_iv : list Z; d_enabled : bool }.
Definition Decryptor_new (key iv : list Z) : RaopDecryptor := mkDecryptor key iv true.

Section Audio.
Context {C : BlockCipher}.

(** Encryption and decryption share their body. *)
Definition crypt (key iv : list Z) (enabled : bool) (audio : list Z) (packet_index : Z) : outcome CryptoError (list Z) :=
  if negb enabled then Ok audio
  else
    cipher ← Aes128Ctr_new key iv;
    position ← chk_u 64 (packet_index * FRAME_SIZE);
    Ok (fst (apply_keystream (seek cipher position) audio)).
Definition encrypt (e : RaopEncryptor) (audio : list Z) (packet_index : Z) : outcome CryptoError (list Z) :=
  crypt (e_key e) (e_iv e) (e_enabled e) audio packet_index.
Definition encrypt_in_place (e : RaopEncryptor) (audio : list Z) (packet_index : Z) : outcome CryptoError (list Z) :=
  crypt (e_key e) (e_iv e) (e_enabled e) audio packet_index.
Definition decrypt (d : RaopDecryptor) (audio : list Z) (packet_index : Z) : outcome CryptoError (list Z) :=
  crypt (d_key d) (d_iv d) (d_enabled d) audio packet_index.
End Audio.

Inductive EncryptionMode := EncNone | EncRsa | EncFairPlay | EncMfiSap | EncFairPlaySap25.
Definition from_txt (v : Z) : option EncryptionMode :=
  match v with
  | 0 => Some EncNone | 1 => Some EncRsa | 3 => Some EncFairPlay | 4 => Some EncMfiSap | 5 => Some EncFairPlaySap25
  | _ => None
  end.
Definition is_supported (m : EncryptionMode) : bool := match m with EncNone | EncRsa => true | _ => false end.

Record EncryptionConfig := mkEncConfig { ec_mode : EncryptionMode; ec_encryptor : option RaopEncryptor; ec_keys : option RaopSessionKeys }.
Definition unencrypted : EncryptionConfig := mkEncConfig EncNone (Some Encryptor_disabled) None.
Definition rsa_config {E} (encrypt_oaep : list Z -> outcome E (list Z)) (key iv : list Z) : outcome E EncryptionConfig :=
  keys ← generate encrypt_oaep key iv;
  Ok (mkEncConfig EncRsa (Some (Encryptor_new (k_aes_key keys) (k_aes_iv keys))) (Some keys)).
Definition is_encrypted (c : EncryptionConfig) : bool := match ec_mode c with EncNone => false | _ => true end.

(** ** The Transport header *)
Lemma bs_append a b : bs (a +:+ b) = bs a ++ bs b.
Proof.
  induction a as [|c a IH]; [done|]. change (bs (String c a +:+ b)) with (Z.of_N (Ascii.N_of_ascii c) :: bs (a +:+ b)). by rewrite IH.
Qed.

(** Printable and without a separator: a part of the header. *)
Definition part_ok (w : list Z) : Prop := Forall (fun c => 33 <= c < 127 /\ c <> 59) w.

Lemma part_lit s : forallb (fun c => (33 <=? c) && (c <? 127) && negb (c =? 59)) s = true -> part_ok s.
Proof. rewrite forallb_forall. intros H. apply Forall_forall. intros c Hc%list_elem_of_In%H. lia. Qed.

Lemma part_num w z : uint w z -> 0 < w -> part_ok (num z).
Proof. intros Hz Hw. destruct (pretty_spec w z Hz Hw) as (Hd & _). eapply Forall_impl; [exact Hd|]. cbn. lia. Qed.

Lemma part_app a b : part_ok a -> part_ok b -> part_ok (a ++ b).
Proof. intros. by apply Forall_app. Qed.

Lemma part_no_ws w : part_ok w -> no_ws w.
Proof.
  intros H. eapply Forall_impl; [exact H|]. cbn. intros c Hc. unfold is_whitespace.
  repeat match goal with |- context [?a <=? ?b] => destruct (Z.leb_spec a b); try lia
    | |- context [?a =? ?b] => destruct (Z.eqb_spec a b); try lia end; done.
Qed.
Lemma part_trim w : part_ok w -> trim w = w.
Proof. intros. by apply trim_no_ws, part_no_ws. Qed.

Lemma split_join ws : ws <> [] -> Forall part_ok ws -> split_char 59 (join_with 59 ws) = ws.
Proof.
  intros Hne H. induction H as [|w ws Hw Hws IH]; [done|]. assert (Forall (fun c => (c =? 59) = false) w) as Hf
    by (eapply Forall_impl; [exact Hw|]; cbn; intros; lia).
  destruct ws as [|v ws]; cbn [join_with]; unfold split_char; [by apply split_on_word|].
  rewrite split_on_sep by done. f_equal. by apply IH.
Qed.

(** A header of printable characters is its own bytes. *)
Lemma chars_of_bs s l : bs s = l -> Forall (fun c => 33 <= c < 127) l -> chars_of s = l.
Proof.
  intros Hs Hl. unfold chars_of. rewrite Hs, ascii_utf8; [done|]. unfold is_ascii. rewrite forallb_forall.
  intros c Hc%list_elem_of_In. rewrite Forall_forall in Hl. specialize (Hl c Hc). lia.
Qed.

Lemma join_plain ws : Forall part_ok ws -> Forall (fun c => 33 <= c < 127) (join_with 59 ws).
Proof.
  induction 1 as [|w ws Hw Hws IH]; [done|]. assert (Forall (fun c => 33 <= c < 127) w) as Hp by (eapply Forall_impl; [exact Hw|]; cbn; lia).
  destruct ws as [|v ws]; cbn [join_with]; [done|]. apply Forall_app. split; [done|]. constructor; [lia|done].
Qed.

Definition request_parts (control timing : Z) : list (list Z) :=
  [bs "RTP/AVP/UDP"; bs "unicast"; bs "interleaved=0-1"; bs "mode=record"; bs "control_port=" ++ num control; bs "timing_port=" ++ num timing].
Definition reply_parts (a c t : Z) : list (list Z) :=
  [bs "RTP/AVP/UDP"; bs "unicast"; bs "mode=record"; bs "server_port=" ++ num a; bs "control_port=" ++ num c; bs "timing_port=" ++ num t].
Definition client_transport (control timing : Z) : TransportHeader :=
  mkTransport (bs "RTP/AVP") Udp Unicast (Some (bs "record")) (Some control) (Some timing) (Some (0, 1)).

Ltac parts := repeat (apply Forall_cons_2; [first [by apply part_lit | by apply part_app; [by apply part_lit|by eapply part_num]]|]); apply Forall_nil_2.

Lemma request_parts_ok c t : uint 16 c -> uint 16 t -> Forall part_ok (request_parts c t).
Proof. intros. parts. Qed.
Lemma reply_parts_ok a c t : uint 16 a -> uint 16 c -> uint 16 t -> Forall part_ok (reply_parts a c t).
Proof. intros. parts. Qed.

Lemma setup_transport_chars c t : uint 16 c -> uint 16 t -> chars_of (setup_transport c t) = join_with 59 (request_parts c t).
Proof.
  intros Hc Ht. apply chars_of_bs; [|by apply join_plain, request_parts_ok]. unfold setup_transport. rewrite !bs_append.
  unfold request_parts, num. cbn [join_with]. by rewrite <- !app_assoc.
Qed.

(** The receiver reads the client's ports. *)
Lemma setup_transport_parsed c t : uint 16 c -> uint 16 t -> Transport_parse (chars_of (setup_transport c t)) = Ok (client_transport c t).
Proof.
  intros Hc Ht. rewrite setup_transport_chars by done. unfold Transport_parse. rewrite split_join by (done || by apply request_parts_ok).
  unfold request_parts. change (parse_protocol (bs "RTP/AVP/UDP")) with (@Ok TransportParseError _ (bs "RTP/AVP", Udp)). cbn [mbind outcome_bind].
  set (pc := bs "control_port=" ++ num c). set (pt := bs "timing_port=" ++ num t).
  change (parse_parameters (mkTransport (bs "RTP/AVP") Udp Unicast (Some (bs "record")) None None (Some (0, 1))) [pc; pt] = Ok (client_transport c t)).
  assert (trim pc = pc /\ trim pt = pt) as [Ec Et]
    by (split; apply part_trim, part_app; first [by apply part_lit|by eapply part_num]).
  cbn [parse_parameters]. rewrite Ec.
  assert (forall h, parse_parameter h pc = (n ← ok_or (parse_num 16 (num c)) InvalidPort;
    Ok (mkTransport (t_protocol h) (lower_transport h) (cast h) (mode h) (Some n) (timing_port h) (interleaved h)))) as -> by (by intros []).
  rewrite parse_num_num by done. cbn [ok_or mbind outcome_bind t_protocol lower_transport cast mode timing_port interleaved]. rewrite Et.
  assert (forall h, parse_parameter h pt = (n ← ok_or (parse_num 16 (num t)) InvalidPort;
    Ok (mkTransport (t_protocol h) (lower_transport h) (cast h) (mode h) (control_port h) (Some n) (interleaved h)))) as -> by (by intros []).
  by rewrite parse_num_num.
Qed.

(** The client reads the receiver's ports. *)
Lemma reply_transport_parsed a c t : uint 16 a -> uint 16 c -> uint 16 t -> a <> 0 ->
  parse_transport (join_with 59 (reply_parts a c t)) = Ok (mkRaopTransport a c t 0 0).
Proof.
  intros Ha Hc Ht Hne. unfold parse_transport. rewrite split_join by (done || by apply reply_parts_ok).
  unfold reply_parts. change (foldl transport_part (0, 0, 0) (bs "RTP/AVP/UDP" :: bs "unicast" :: bs "mode=record" :: ?l))
    with (foldl transport_part (0, 0, 0) l). cbn [foldl].
  assert (forall k n x, part_ok (k ++ [61]) -> uint 16 n -> split_eq (k ++ [61] ++ num n) = Some (k, num n) ->
    transport_part x ((k ++ [61]) ++ num n) =
      if bool_decide (k = bs "server_port") then (n, x.1.2, x.2)
      else if bool_decide (k = bs "control_port") then (x.1.1, n, x.2)
      else if bool_decide (k = bs "timing_port") then (x.1.1, x.1.2, n) else x) as Hpart.
  { intros k n [[x y] z] Hk Hn Hs. unfold transport_part. rewrite part_trim by (apply part_app; [done|by eapply part_num]).
    rewrite <- app_assoc, Hs, parse_num_num by done. done. }
  change (bs "server_port=") with (bs "server_port" ++ [61]). change (bs "control_port=") with (bs "control_port" ++ [61]).
  change (bs "timing_port=") with (bs "timing_port" ++ [61]).
  rewrite !Hpart by (done || by apply part_lit).
  change ((if a =? 0 then Err "missing server_port in transport" else Ok (mkRaopTransport a c t 0 0)) = Ok (mkRaopTransport a c t 0 0)).
  by destruct (Z.eqb_spec a 0).
Qed.

(** What the receiver makes of a SETUP. *)
Lemma setup_handled {F : Floats} {B : Base64} {R : Rsa} {E} q sess sid cp tp : method q = Rtsp.Setup -> uint 16 cp -> uint 16 tp ->
  Headers_get (headers q) "Transport" = Some (setup_transport cp tp) -> exists cs h,
  handle_request (E := E) q sess None sid = Ok (mkResult
    (Builder_build (Builder_header (Builder_session (ok_cseq cs) sid) "Transport" h))
    (Some RaopSession.Setup) (Some (mkPorts 0 0 0 (Some cp) (Some tp))) None false false []).
Proof.
  intros Hm Hcp Htp Ht. unfold handle_request. rewrite Hm. unfold handle_setup. rewrite Ht, setup_transport_parsed by done. by eexists _, _.
Qed.

(** The sockets survive the change of state after the response. *)
Lemma after_sockets e res w : sockets <$> RaopServer.active_session (RaopServer.manager (RaopServer.after_response e res w)) =
  sockets <$> RaopServer.active_session (RaopServer.manager w).
Proof.
  unfold RaopServer.after_response. destruct (new_state res) as [st|]; [|done].
  assert (forall m, RaopServer.manager (RaopServer.playback_event st (RaopServer.with_manager w m)) = m) as -> by (by destruct st).
  unfold RaopServer.update_state, set_state. destruct (RaopServer.active_session (RaopServer.manager w)) as [s|] eqn:E; [|by cbn; rewrite E].
  destruct (can_transition_to _ _); cbn; [done|by rewrite E].
Qed.

Lemma reply_header a c t cp tp : uint 16 a -> uint 16 c -> uint 16 t ->
  chars_of (of_chars (to_response_header (client_transport cp tp) a c t)) = join_with 59 (reply_parts a c t).
Proof.
  intros Ha Hc Ht. change (to_response_header (client_transport cp tp) a c t) with (join_with 59 (reply_parts a c t)).
  pose proof (join_plain _ (reply_parts_ok a c t Ha Hc Ht)) as Hp. apply chars_of_bs; [|done]. unfold of_chars.
  rewrite ascii_encode, bs_sb; [done| |].
  - eapply Forall_impl; [exact Hp|]. cbn. unfold byte_ok. lia.
  - unfold is_ascii. rewrite forallb_forall. intros x Hx%list_elem_of_In. rewrite Forall_forall in Hp. specialize (Hp x Hx). lia.
Qed.

(** ** Properties *)

(** C25: SETUP makes both ends agree on six ports. Whatever the state of the
    receiver's session, the client's SETUP is answered; the session then holds the
    ports the receiver bound and the control and timing ports the client announced,
    and the client, reading the response, holds exactly the ports the receiver
    bound, moves on to its next state and takes over the receiver's session
    identifier. The request may reach the handlers with its headers in any order. *)
Theorem setup_ports_agree {O : HashOrder} {F : Floats} {B : Base64} {R : Rsa} (env : nat -> RaopServer.Env) (addr : string)
  (s : RaopRtspSession) (w : RaopServer.World) (q : RtspRequest) (cp tp a c t : Z) (m1 : RaopServer.SessionManager) (r : RtspRequest)
  (s1 : RaopRtspSession)
  (Hreq : setup_request (E := Empty_set) s cp tp = Ok (r, s1)) (Hcp : uint 16 cp) (Htp : uint 16 tp)
  (Hm : method q = method r) (Hh : forall n, Headers_get (headers q) n = Headers_get (headers r) n)
  (Hact : RaopServer.active_session (RaopServer.manager w) <> None) (Hw : RaopServer.e_write_ok (env (RaopServer.served w)) = true)
  (Hbind : RaopServer.allocate_sockets (E := RaopServer.ReceiverError) (RaopServer.e_bind (env (RaopServer.served w))) (RaopServer.manager w) =
     Ok (Some (a, c, t), m1)) (Ha : uint 16 a) (Hc : uint 16 c) (Ht : uint 16 t) (Hne : a <> 0) :
  exists resp w1, RaopServer.handle_one env addr q w = (Ok RaopServer.Next, w1) /\
    RaopServer.out w1 = RaopServer.out w ++ encode_response resp /\
    sockets <$> RaopServer.active_session (RaopServer.manager w1) =
      Some (Some (mkSockets a c t (Some cp) (Some tp) (Some addr))) /\
    let '(res, s2) := process_response s1 Rtsp.Setup resp in
    res = Ok tt /\ transport s2 = Some (mkRaopTransport a c t 0 0) /\ c_state s2 = SettingUp /\
    session_id s2 = Some (session_part (RaopServer.e_sid (env (RaopServer.served w)))).
Proof.
  unfold setup_request, common, next_cseq in Hreq. apply bind_ok in Hreq as ([r0 s0] & Hreq & Hr). apply bind_ok in Hreq as ([n s0'] & _ & Hreq).
  simplify_eq. cbn [method request_header Request_new] in Hm.
  assert (Headers_get (headers q) "Transport" = Some (setup_transport cp tp)) as Htr by (rewrite Hh; cbn [headers request_header]; by rewrite headers_get_insert).
  assert (method q = Rtsp.Setup) as Hmq by (rewrite Hm; unfold add_common_headers; by case_match).
  destruct (RaopServer.active_session (RaopServer.manager w)) as [sess|] eqn:Hs; [|done].
  apply RaopServer.sockets_keep in Hbind as Hk. destruct Hk as [_ Hk]. rewrite Hs in Hk.
  set (e := env (RaopServer.served w)) in *. destruct (setup_handled (E := RaopServer.ReceiverError) q sess (RaopServer.e_sid e) cp tp) as (cs & h & Hreq); [done..|].
  unfold RaopServer.handle_one. cbn [RaopServer.manager]. rewrite Hs. fold e. rewrite Hreq. cbn [parameter_updates RaopServer.process_parameter_updates foldl].
  unfold RaopServer.finish_response, RaopServer.handle_setup_ports. cbn [allocated_ports response RaopServer.manager RaopServer.with_manager]. rewrite Hbind.
  cbn [mbind outcome_bind]. rewrite Htr, setup_transport_parsed by done. rewrite Hw. eexists _, _. split; [done|]. cbn [stop_streaming].
  assert (forall e res w, RaopServer.out (RaopServer.after_response e res w) = RaopServer.out w) as ->
    by (intros e0 res w0; unfold RaopServer.after_response; destruct (new_state res) as [[]|]; done).
  split; [done|]. split.
  - rewrite after_sockets. cbn [RaopServer.manager RaopServer.with_manager]. unfold RaopServer.with_session. by rewrite Hk.
  - unfold process_response, RaopServer.set_response_header. cbn [status resp_headers Builder_build rb_status rb_headers rb_body Builder_header Builder_session ok_cseq Builder_cseq Builder_ok Builder_new is_success].
    unfold Headers_session. rewrite !headers_get_insert.
    repeat match goal with |- context [eq_ignore_case ?x ?y] => let v := eval vm_compute in (eq_ignore_case x y) in change (eq_ignore_case x y) with v end.
    cbv iota. rewrite reply_header, reply_transport_parsed by done. done.
Qed.

(** Audio encryption. A packet is XORed with the stretch of the session's
    keystream that starts at 1408 bytes per packet before it, the receiver's
    decryption of the same packet number restores it, and packets of at most 1408
    bytes never share a keystream byte; the packet number at which the position
    leaves 64 bits panics. *)
Theorem raop_encryption_roundtrip {C : BlockCipher} {CL : BlockCipherLaws C} (key iv audio : list Z) (i : Z)
  (Hk : length key = 16%nat) (Hiv : length iv = 16%nat) (Hi : 0 <= i) :
  (i * FRAME_SIZE < 2 ^ 64 -> exists c,
     encrypt (Encryptor_new key iv) audio i = Ok c /\ decrypt (Decryptor_new key iv) c i = Ok audio /\
     c = xor_bytes audio (keystream key iv (Z.to_nat (i * FRAME_SIZE)) (length audio)) /\
     forall j p q, 0 <= j -> j <> i -> Z.of_nat p < FRAME_SIZE -> Z.of_nat q < FRAME_SIZE ->
       (Z.to_nat (i * FRAME_SIZE) + p <> Z.to_nat (j * FRAME_SIZE) + q)%nat) /\
  (2 ^ 64 <= i * FRAME_SIZE -> encrypt (Encryptor_new key iv) audio i = Panic).
Proof.
  assert (Aes128Ctr_new key iv = Ok (Aes128Ctr_new_internal key iv)) as Hn by (unfold Aes128Ctr_new; by rewrite Hk, Hiv).
  unfold encrypt, decrypt, crypt. cbn [Encryptor_new Decryptor_new e_enabled d_enabled e_key e_iv d_key d_iv negb]. rewrite Hn. cbn [mbind outcome_bind].
  set (st := Aes128Ctr_new_internal key iv). assert (state_ok st) as Hok by done. split.
  - intros Hm. rewrite chk_u_ok by (unfold uint, FRAME_SIZE in *; lia). cbn [mbind outcome_bind]. eexists. split; [done|].
    rewrite seek_apply_involutive by (done || (unfold FRAME_SIZE; lia)). split; [done|]. split.
    + destruct (seek_spec st (Z.to_nat (i * FRAME_SIZE)) Hok) as (Hp & Hkk & Hb). rewrite Z2Nat.id in * by (unfold FRAME_SIZE; lia).
      assert (state_ok (seek st (i * FRAME_SIZE))) as Hok' by (unfold state_ok; by rewrite Hb).
      pose proof (apply_keystream_spec _ _ audio Hok' Hp) as H. destruct (apply_keystream _ audio) as [out ?]. destruct H as (-> & _).
      by rewrite Hkk, Hb.
    + unfold FRAME_SIZE. intros j p q Hj Hne Hp Hq. lia.
  - intros Hm. unfold chk_u. by destruct (Z.ltb_spec (i * FRAME_SIZE) (2 ^ 64)); [lia|]; rewrite andb_false_r.
Qed.

(** The answer to a challenge is accepted by the client that sent it. *)
Theorem challenge_roundtrip {B : Base64} {BL : Base64Laws B} {R : AppleRsa} {RL : AppleRsaLaws R} (random mac header : list Z) (ip : IpAddr)
  (Hc : bytes_ok random) (Hs : generate_response random ip mac = Ok header) :
  decode_challenge (challenge_header (Authenticator_new random)) = Ok random /\
  verify (mark_sent (Authenticator_new random)) header ip mac = (Ok tt, mkAuthenticator random Authenticated).
Proof.
  unfold generate_response in Hs. apply bind_ok in Hs as (sg & Hsg & [= <-]). apply sign_bytes in Hsg as Hb. split.
  - unfold decode_challenge, challenge_header, encode_challenge. rewrite trim_no_ws by (by apply printable_no_ws, b64np_alphabet).
    by rewrite b64np_inverse.
  - unfold verify, verify_response. cbn [mark_sent auth_state challenge Authenticator_new]. rewrite rsa_loads.
    rewrite trim_no_ws by (by apply printable_no_ws, b64np_alphabet). rewrite b64np_inverse by done. cbn [ok_or mbind outcome_bind].
    by rewrite (sign_verify _ _ Hsg).
Qed.

(** Yet the session never checks one: whatever the responses, it does not get
    beyond having sent its challenge. *)
Lemma never_authenticated (rs : list (Method * RtspResponse)) : forall s, is_authenticated (authenticator s) = false ->
  is_authenticated (authenticator (foldl (fun s mr => snd (process_response s mr.1 mr.2)) s rs)) = false.
Proof.
  induction rs as [|[m r] rs IH]; intros s Hs; [done|]. cbn [foldl]. apply IH. cbn [fst snd]. unfold process_response.
  destruct (negb _); [done|]. set (s1 := match Headers_session _ with Some _ => _ | None => _ end).
  assert (authenticator s1 = authenticator s) as Ha by (unfold s1; by case_match).
  destruct m; cbn [snd with_state authenticator with_authenticator mark_sent is_authenticated auth_state]; try (by rewrite Ha); try done.
  repeat case_match; cbn; by rewrite Ha.
Qed.

(** ** Witnesses *)
#[local] Existing Instance RaopServer.plain_order.
#[local] Existing Instance RaopServer.demo_floats.
#[local] Existing Instance Sdp.RealBase64.base64.
#[local] Existing Instance Sdp.short_rsa.

Definition demo_client : RaopRtspSession := Client_new "10.0.0.3" 5000 "00AA" "00BB" 7 (replicate 16 1).

Lemma setup_ports_agree_witness : exists r s1 resp w1, setup_request (E := Empty_set) demo_client 7001 7002 = Ok (r, s1) /\
  RaopServer.handle_one RaopServer.demo_env "10.0.0.2:5000" r RaopServer.demo_world = (Ok RaopServer.Next, w1) /\
  transport (snd (process_response s1 Rtsp.Setup resp)) = Some (mkRaopTransport 6000 6001 6002 0 0).
Proof.
  assert (exists r s1, setup_request (E := Empty_set) demo_client 7001 7002 = Ok (r, s1)) as (r & s1 & Hreq) by (eexists _, _; reflexivity).
  assert (exists m1, RaopServer.allocate_sockets (E := RaopServer.ReceiverError) (RaopServer.e_bind (RaopServer.demo_env (RaopServer.served RaopServer.demo_world)))
    (RaopServer.manager RaopServer.demo_world) = Ok (Some (6000, 6001, 6002), m1)) as (m1 & Hb) by (eexists; reflexivity).
  destruct (setup_ports_agree RaopServer.demo_env "10.0.0.2:5000" demo_client RaopServer.demo_world r 7001 7002 6000 6001 6002 m1 r s1 Hreq)
    as (resp & w1 & H1 & _ & _ & H2); [split; lia|split; lia|reflexivity|reflexivity|discriminate|reflexivity|exact Hb|split; lia|split; lia|split; lia|discriminate|].
  exists r, s1, resp, w1. split; [exact Hreq|]. split; [exact H1|].
  destruct (process_response _ _ resp) as [res s2]. destruct H2 as (_ & Ht & _). exact Ht.
Defined.

#[local] Instance copy_cipher : BlockCipher := fun _ b => b.
#[local] Instance copy_cipher_laws : BlockCipherLaws copy_cipher.
Proof. by intros key b. Qed.

Lemma raop_encryption_roundtrip_witness : exists c, encrypt (Encryptor_new (replicate 16 1) (replicate 16 2)) [1; 2; 3] 5 = Ok c /\
  decrypt (Decryptor_new (replicate 16 1) (replicate 16 2)) c 5 = Ok [1; 2; 3].
Proof.
  destruct (raop_encryption_roundtrip (replicate 16 1) (replicate 16 2) [1; 2; 3] 5) as [H _]; [reflexivity|reflexivity|lia|].
  destruct H as (c & H1 & H2 & _); [unfold FRAME_SIZE; lia|]. exists c. split; [exact H1|exact H2].
Defined.

End RaopClient.
