(* ===== verification/ClientSession.v ===== *)
(** * The AirPlay 2 client session

    Models [src/protocol/rtsp/session.rs]: the session that numbers and builds the
    client's requests and follows its responses.  The random identifiers are
    arguments, already in hexadecimal. *)

From stdpp Require Import gmap pretty.
From S2P Require Import Text Unicode Rtsp RtspParser Plist Sdp RaopSession RaopServer RaopClient.

Module ClientSession.
Import Unicode Rtsp RtspParser.

Inductive SessionState := Init | Ready | SetUp | Playing | PausedState | Terminated.

Record RtspSession := mkSession {
  state : SessionState; cseq : Z; session_id : option string; device_id : string; client_session_id : string;
  base_uri : string; user_agent : string
}.

Definition Session_new (address : string) (port : Z) (device session : string) : RtspSession :=
  mkSession Init 0 None device session ("rtsp://" +:+ address +:+ ":" +:+ pretty port) "AirPlay/540.31".

Definition with_cseq (s : RtspSession) (n : Z) : RtspSession :=
  mkSession (state s) n (session_id s) (device_id s) (client_session_id s) (base_uri s) (user_agent s).

Definition next_cseq {E} (s : RtspSession) : outcome E (Z * RtspSession) := n ← chk_u 32 (cseq s + 1); Ok (n, with_cseq s n).

Definition request_builder {E} (s : RtspSession) (m : Method) (path : string) : outcome E (RtspRequest * RtspSession) :=
  let uri := if bool_decide (path = "") then "/" else path in
  '(n, s) ← next_cseq s;
  let r := request_user_agent (request_cseq (Request_new m uri) n) (user_agent s) in
  let r := request_header r "X-Apple-Device-ID" (device_id s) in
  let r := request_header r "X-Apple-Session-ID" (client_session_id s) in
  let r := request_header r "Active-Remote" "4294967295" in
  let r := request_header r "DACP-ID" (device_id s) in
  let r := request_header r "Client-Instance" (device_id s) in
  Ok (match session_id s with Some i => request_session r i | None => r end, s).

Definition own_path (s : RtspSession) : string := "/" +:+ client_session_id s.

Section Requests.
Context {E : Type}.

Definition options_request (s : RtspSession) : outcome E (RtspRequest * RtspSession) := request_builder s Options "*".

Definition setup_session_request (s : RtspSession) (plist : Plist.PlistValue) (transport : option string) : outcome E (RtspRequest * RtspSession) :=
  '(r, s) ← request_builder s Setup (own_path s);
  r ← request_body_plist r plist;
  Ok (match transport with Some t => request_header r "Transport" t | None => r end, s).

Definition announce_request (s : RtspSession) (sdp : list Z) : outcome E (RtspRequest * RtspSession) :=
  '(r, s) ← request_builder s Announce "/"; Ok (request_body (request_content_type r "application/sdp") (utf8_encode sdp), s).
Definition setup_stream_request (s : RtspSession) (params : string) : outcome E (RtspRequest * RtspSession) :=
  '(r, s) ← request_builder s Setup "/rtp/audio"; Ok (request_header r "Transport" params, s).
Definition record_request (s : RtspSession) : outcome E (RtspRequest * RtspSession) := request_builder s Record_ (own_path s).

(** A request with a content type and a body. *)
Definition with_content (s : RtspSession) (m : Method) (path content_type : string) (b : list Z) : outcome E (RtspRequest * RtspSession) :=
  '(r, s) ← request_builder s m path; Ok (request_body (request_content_type r content_type) b, s).
Definition play_request (s : RtspSession) (content_type : string) (b : list Z) := with_content s Play "" content_type b.
Definition set_peers_request (s : RtspSession) (b : list Z) := with_content s SetPeers (own_path s) "/peer-list-changed" b.
Definition set_parameter_request (s : RtspSession) (content_type : string) (b : list Z) := with_content s SetParameter "" content_type b.
Definition set_rate_anchor_time_request (s : RtspSession) (content_type : string) (b : list Z) :=
  with_content s SetRateAnchorTime (own_path s) content_type b.
Definition post_request (s : RtspSession) (path content_type : string) (b : list Z) := with_content s Post path content_type b.

Definition get_parameter_request (s : RtspSession) (content_type : option string) (b : option (list Z)) : outcome E (RtspRequest * RtspSession) :=
  '(r, s) ← request_builder s GetParameter "";
  let r := match content_type with Some t => request_content_type r t | None => r end in
  Ok (match b with Some b => request_body r b | None => r end, s).
Definition flush_request (s : RtspSession) (seq timestamp : Z) : outcome E (RtspRequest * RtspSession) :=
  '(r, s) ← request_builder s Flush ""; Ok (request_header r "RTP-Info" (RaopClient.rtp_info seq timestamp), s).
Definition teardown_request (s : RtspSession) : outcome E (RtspRequest * RtspSession) := request_builder s Teardown "".
Definition pause_request (s : RtspSession) : outcome E (RtspRequest * RtspSession) := request_builder s Pause "".
Definition get_request (s : RtspSession) (path : string) : outcome E (RtspRequest * RtspSession) := request_builder s Get path.
End Requests.

(** ** Responses *)
Definition with_state (s : RtspSession) (st : SessionState) : RtspSession :=
  mkSession st (cseq s) (session_id s) (device_id s) (client_session_id s) (base_uri s) (user_agent s).
Definition with_session_id (s : RtspSession) (i : string) : RtspSession :=
  mkSession (state s) (cseq s) (Some i) (device_id s) (client_session_id s) (base_uri s) (user_agent s).

Definition process_response (s : RtspSession) (m : Method) (r : RtspResponse) : outcome string unit * RtspSession :=
  if negb (RaopClient.is_success r) then (Err (RaopClient.response_failed m r), s)
  else
    let s := match Headers_session (resp_headers r) with
             | Some session => with_session_id s (RaopClient.session_part session)
             | None => s
             end in
    (Ok tt, match m with
            | Options => with_state s Ready
            | Setup => with_state s SetUp
            | Record_ | Play => with_state s Playing
            | Pause => with_state s PausedState
            | Teardown => with_state s Terminated
            | _ => s
            end).

Definition can_send (s : RtspSession) (m : Method) : bool :=
  match state s, m with
  | Init, (Options | Post) => true
  | Ready, (Setup | Post) => true
  | SetUp, (Record_ | Play) => true
  | Playing, (Pause | Flush | SetParameter | GetParameter | Teardown) => true
  | PausedState, (Record_ | Play | Teardown | SetParameter | SetRateAnchorTime) => true
  | _, (Options | Teardown | Get | SetRateAnchorTime | SetPeers) => true
  | _, _ => false
  end.

(** ** The requests as commands *)
Inductive Command :=
| COptions | CSetupSession (plist : Plist.PlistValue) (transport : option string) | CAnnounce (sdp : list Z) | CSetupStream (params : string)
| CRecord | CPlay (content_type : string) (b : list Z) | CSetPeers (b : list Z) | CSetParameter (content_type : string) (b : list Z)
| CGetParameter (content_type : option string) (b : option (list Z)) | CFlush (seq timestamp : Z) | CTeardown | CPause
| CSetRateAnchorTime (content_type : string) (b : list Z) | CPost (path content_type : string) (b : list Z) | CGet (path : string).

Definition issue {E} (s : RtspSession) (c : Command) : outcome E (RtspRequest * RtspSession) :=
  match c with
  | COptions => options_request s
  | CSetupSession p t => setup_session_request s p t
  | CAnnounce sdp => announce_request s sdp
  | CSetupStream t => setup_stream_request s t
  | CRecord => record_request s
  | CPlay t b => play_request s t b
  | CSetPeers b => set_peers_request s b
  | CSetParameter t b => set_parameter_request s t b
  | CGetParameter t b => get_parameter_request s t b
  | CFlush a b => flush_request s a b
  | CTeardown => teardown_request s
  | CPause => pause_request s
  | CSetRateAnchorTime t b => set_rate_anchor_time_request s t b
  | CPost p t b => post_request s p t b
  | CGet p => get_request s p
  end.

Definition command_method (c : Command) : Method :=
  match c with
  | COptions => Options | CSetupSession _ _ | CSetupStream _ => Setup | CAnnounce _ => Announce | CRecord => Record_ | CPlay _ _ => Play
  | CSetPeers _ => SetPeers | CSetParameter _ _ => SetParameter | CGetParameter _ _ => GetParameter | CFlush _ _ => Flush
  | CTeardown => Teardown | CPause => Pause | CSetRateAnchorTime _ _ => SetRateAnchorTime | CPost _ _ _ => Post | CGet _ => Get
  end.

Fixpoint issue_all {E} (s : RtspSession) (cs : list Command) : outcome E (list RtspRequest * RtspSession) :=
  match cs with
  | [] => Ok ([], s)
  | c :: cs => '(r, s) ← issue s c; '(rs, s) ← issue_all s cs; Ok (r :: rs, s)
  end.

(** Texts that fit a header line or a request line, bodies the receiver accepts. *)
Definition body_fits (b : list Z) : Prop := Z.of_nat (length b) <= MAX_BODY_SIZE.
Definition command_ok (c : Command) : Prop :=
  match c with
  | CSetupSession p t => (exists d, Plist.encode p = Ok d /\ body_fits d) /\ (forall x, t = Some x -> plain_text x = true)
  | CAnnounce sdp => body_fits (utf8_encode sdp)
  | CSetupStream t => plain_text t = true
  | CSetPeers b => body_fits b
  | CPlay t b | CSetParameter t b | CSetRateAnchorTime t b => plain_text t = true /\ body_fits b
  | CGetParameter t b => (forall x, t = Some x -> plain_text x = true) /\ (forall x, b = Some x -> body_fits x)
  | CPost p t b => plain_uri p = true /\ plain_text t = true /\ body_fits b
  | CFlush a b => uint 16 a /\ uint 32 b
  | CGet p => plain_uri p = true
  | _ => True
  end.

Record clean (s : RtspSession) : Prop := {
  cl_device : plain_text (device_id s) = true; cl_session : plain_text (client_session_id s) = true;
  cl_path : plain_uri (own_path s) = true; cl_agent : plain_text (user_agent s) = true;
  cl_id : forall i, session_id s = Some i -> plain_text i = true
}.

(** A request of the session: well-formed, with its method, number and session. *)
Record made (s : RtspSession) (m : Method) (r : RtspRequest) : Prop := {
  mk_ok : request_ok r; mk_method : method r = m; mk_cseq : Headers_cseq (headers r) = Some (cseq s + 1);
  mk_session : Headers_session (headers r) = session_id s
}.

Lemma named_field n v : plain_field (n, "") = true -> plain_text v = true -> field_ok (n, v).
Proof.
  unfold plain_field. cbn [fst snd]. intros [[Hn _]%andb_true_iff Hc]%andb_true_iff Hv. apply plain_field_ok. unfold plain_field. cbn [fst snd]. by rewrite Hn, Hv, Hc.
Qed.

Lemma made_header s m r n v : made s m r -> field_ok (n, v) -> eq_ignore_case n "Content-Length" = false ->
  eq_ignore_case n "CSeq" = false -> eq_ignore_case n "Session" = false -> made s m (request_header r n v).
Proof.
  intros [H1 H2 H3 H4] Hf Hl Hc Hs. split; [by apply request_header_ok|done|..]; unfold Headers_cseq, Headers_session in *; cbn [headers request_header];
    by rewrite headers_get_insert, ?Hc, ?Hs.
Qed.

Lemma made_body s m r b : made s m r -> body_fits b -> made s m (request_body r b).
Proof.
  intros [H1 H2 H3 H4] Hb. split; [by apply request_body_ok|done|..]; unfold Headers_cseq, Headers_session in *; cbn [headers request_body];
    by rewrite headers_get_insert.
Qed.

Lemma made_type s m r t : made s m r -> plain_text t = true -> made s m (request_content_type r t).
Proof. intros H Ht. apply made_header; [done|by apply named_field|reflexivity..]. Qed.

#[local] Hint Resolve made_type made_body : made.

Lemma builder_made {E} s m path : clean s -> uint 32 (cseq s + 1) -> path = "" \/ plain_uri path = true ->
  exists r, request_builder (E := E) s m path = Ok (r, with_cseq s (cseq s + 1)) /\ made s m r.
Proof.
  intros [C1 C2 C3 C4 C5] Hu Hp. unfold request_builder, next_cseq. rewrite chk_u_ok by done. cbn [mbind outcome_bind with_cseq device_id client_session_id user_agent session_id].
  set (u := if bool_decide (path = "") then "/" else path). assert (plain_uri u = true) as Hur.
  { unfold u. destruct (bool_decide (path = "")) eqn:Eb; [done|]. apply bool_decide_eq_false in Eb. by destruct Hp. }
  eexists. split; [reflexivity|]. assert (uint 64 (cseq s + 1)) as Hu64 by (unfold uint in *; lia).
  pose proof (printable_field "CSeq" _ eq_refl (pretty_printable _ Hu64)) as Fc.
  destruct (pretty_spec 32 (cseq s + 1) Hu ltac:(lia)) as (_ & _ & Hparse).
  match goal with |- made _ _ (match _ with Some i => request_session ?x i | None => _ end) => set (r0 := x) end.
  assert (request_ok r0 /\ method r0 = m /\ Headers_cseq (headers r0) = Some (cseq s + 1) /\ Headers_session (headers r0) = None) as (K1 & K2 & K3 & K4).
  { unfold r0, request_user_agent, request_cseq. split_and!; [|done| |].
    - repeat (apply request_header_ok; [|by apply named_field|reflexivity]). apply request_header_ok; [by apply request_new_ok|exact Fc|reflexivity].
    - unfold Headers_cseq. cbn [headers request_header]. rewrite !headers_get_insert.
      change (eq_ignore_case "CSeq" "CSeq") with true. cbn. exact Hparse.
    - unfold Headers_session. cbn [headers request_header]. by rewrite !headers_get_insert. }
  destruct (session_id s) as [i|] eqn:Ei; [|by split; rewrite ?Ei]. split; [|done| |].
  - unfold request_session. apply request_header_ok; [done|apply named_field; [done|by apply C5]|reflexivity].
  - unfold Headers_cseq, request_session in *. cbn [headers request_header]. by rewrite headers_get_insert.
  - rewrite Ei. unfold Headers_session, request_session. cbn [headers request_header]. by rewrite headers_get_insert.
Qed.

Lemma rtp_info_printable a b : uint 16 a -> uint 32 b -> Forall printable (bs (RaopClient.rtp_info a b)).
Proof.
  intros Ha Hb. unfold RaopClient.rtp_info. rewrite !RaopClient.bs_append, !Forall_app.
  assert (forall l, forallb (fun c => (33 <=? c) && (c <? 127)) l = true -> Forall printable l) as Hl.
  { intros l. rewrite forallb_forall. intros H. apply Forall_forall. intros c Hc%list_elem_of_In%H. unfold printable. lia. }
  split_and!; try (by apply Hl); apply pretty_printable; unfold uint in *; lia.
Qed.

Lemma issue_made {E} s c : clean s -> uint 32 (cseq s + 1) -> command_ok c ->
  exists r, issue (E := E) s c = Ok (r, with_cseq s (cseq s + 1)) /\ made s (command_method c) r.
Proof.
  intros Hs Hu Hc. pose proof (fun m path => builder_made (E := E) s m path Hs Hu) as B.
  destruct c; cbn [issue command_method command_ok] in *;
    unfold options_request, setup_session_request, announce_request, setup_stream_request, record_request, play_request, set_peers_request,
      set_parameter_request, set_rate_anchor_time_request, post_request, get_parameter_request, flush_request, teardown_request, pause_request,
      get_request, with_content;
    match goal with |- context [request_builder s ?m ?p] =>
      destruct (B m p) as (r & -> & M); [first [by left|right; first [reflexivity|exact (cl_path s Hs)|exact Hc|by destruct Hc]]|] end;
    cbn [mbind outcome_bind].
  all: try (eexists; split; [reflexivity|]; exact M).
  - destruct Hc as [(d & Hd & Hf) Ht]. unfold request_body_plist. rewrite Hd. cbn [mbind outcome_bind]. eexists. split; [reflexivity|].
    assert (made s Setup (request_header (request_body r d) "Content-Type" "application/x-apple-binary-plist")) as M2
      by (apply made_header; [by apply made_body|by apply named_field|reflexivity..]).
    destruct transport as [t|]; [|exact M2]. apply made_header; [done|apply named_field; [done|by apply Ht]|reflexivity..].
  - eexists. split; [reflexivity|]. auto with made.
  - eexists. split; [reflexivity|]. apply made_header; [done|by apply named_field|reflexivity..].
  - destruct Hc. eexists. split; [reflexivity|]. auto with made.
  - eexists. split; [reflexivity|]. auto with made.
  - destruct Hc. eexists. split; [reflexivity|]. auto with made.
  - destruct Hc as [Ht Hb]. eexists. split; [reflexivity|]. destruct content_type as [t|], b as [b|]; auto with made.
  - destruct Hc. eexists. split; [reflexivity|]. apply made_header; [done|apply printable_field; [done|by apply rtp_info_printable]|reflexivity..].
  - destruct Hc. eexists. split; [reflexivity|]. auto with made.
  - destruct Hc as (_ & ? & ?). eexists. split; [reflexivity|]. auto with made.
Qed.

(** ** Properties *)
Section Wire.
Context {O : HashOrder} {OL : HashOrderLaws O}.

(** C18: the client's session and the receiver's parser agree. Whatever commands a session
    with well-formed identifiers is given, every one becomes a request; they carry the
    numbers after the session's last one without a gap, the session identifier of the
    server if there is one, and each of them, written to the stream, is decoded by the
    receiver, whatever follows, to the same method, number, session and body. *)
Theorem session_requests_understood {E} (s : RtspSession) (cs : list Command)
  (Hs : clean s) (Hn : 0 <= cseq s /\ cseq s + Z.of_nat (length cs) < 2 ^ 32) (Hc : Forall command_ok cs) :
  exists rs, issue_all (E := E) s cs = Ok (rs, with_cseq s (cseq s + Z.of_nat (length cs))) /\ length rs = length cs /\
  forall k c, cs !! k = Some c -> exists r, rs !! k = Some r /\
    forall rest, exists r', decode (request_encode r ++ rest) = (rest, Ok (Some r')) /\ method r' = command_method c /\ uri r' = uri r /\
      body r' = body r /\ Headers_cseq (headers r') = Some (cseq s + Z.of_nat (S k)) /\ Headers_session (headers r') = session_id s.
Proof.
  revert s Hs Hn. induction Hc as [|c cs Hok Hc IH]; intros s Hs Hn; cbn [issue_all length] in *.
  - exists []. split; [|by split]. rewrite Z.add_0_r. by destruct s.
  - destruct (issue_made (E := E) s c Hs) as (r & -> & [M1 M2 M3 M4]); [unfold uint; lia|done|]. cbn [mbind outcome_bind].
    destruct (IH (with_cseq s (cseq s + 1))) as (rs & -> & Hl & H); [by destruct Hs; split|cbn [with_cseq cseq]; lia|]. cbn [mbind outcome_bind].
    exists (r :: rs). cbn [with_cseq cseq session_id] in H |- *. split; [f_equal; f_equal; unfold with_cseq; f_equal; cbn; lia|]. split; [cbn; lia|].
    intros [|k] c' Hk; cbn [lookup list_lookup] in Hk |- *.
    + injection Hk as <-. exists r. split; [done|]. intros rest. exists (received r). split; [by apply decode_complete|]. split_and!; try done.
      * unfold Headers_cseq in *. rewrite received_get by done. by destruct (Headers_get (headers r) "CSeq").
      * unfold Headers_session in *. rewrite received_get, M4 by done. by destruct (session_id s).
    + destruct (H k c' Hk) as (r2 & Hr2 & Hd). exists r2. split; [done|]. intros rest. destruct (Hd rest) as (r' & ? & ? & ? & ? & Hq & ?).
      exists r'. split_and!; try done. rewrite Hq. f_equal. lia.
Qed.
End Wire.

(** An OPTIONS request, such as a keep-alive, sets a playing session back. *)
Lemma options_resets_playing s r : state s = Playing -> RaopClient.is_success r = true ->
  can_send s Pause = true /\ can_send (snd (process_response s Options r)) Pause = false.
Proof. intros Hs Hr. unfold process_response, can_send. rewrite Hs, Hr. cbn [negb]. by destruct (Headers_session (resp_headers r)). Qed.

(** ** Witnesses *)
#[local] Existing Instance RtspParser.reverse_order.
#[local] Existing Instance RtspParser.reverse_order_laws.

Definition demo_session : RtspSession := Session_new "10.0.0.3" 7000 "00112233AABBCCDD" "0123456789ABCDEF".
Definition demo_commands : list Command := [COptions; CPost "/pair-setup" "application/octet-stream" [1; 2; 3]; CFlush 7 352; CTeardown].

Lemma demo_session_clean : clean demo_session.
Proof. split; [vm_compute; reflexivity..|]. discriminate. Qed.

Lemma session_requests_understood_witness : exists rs, issue_all (E := Empty_set) demo_session demo_commands = Ok (rs, with_cseq demo_session 4) /\ length rs = 4%nat.
Proof.
  destruct (session_requests_understood (E := Empty_set) demo_session demo_commands) as (rs & H & Hl & _).
  - exact demo_session_clean.
  - cbn. lia.
  - apply Forall_cons_2; [exact I|]. apply Forall_cons_2; [split; [reflexivity|split; [reflexivity|vm_compute; discriminate]]|].
    apply Forall_cons_2; [split; split; cbn; lia|]. apply Forall_cons_2; [exact I|apply Forall_nil_2].
  - exists rs. split; [exact H|exact Hl].
Defined.

End ClientSession.
