(* ===== verification/UrlStream.v ===== *)
(** * Playing a URL

    Models [src/streaming/url.rs]: the device fetches the audio itself, and the streamer
    only tells it what to play and reads back how far it is.  A command is a property
    list over the shared connection of the class [CommandLink]. *)

From Stdlib Require Import SpecFloat.
From S2P Require Import Bytes Text Unicode Rtsp Plist Float Controls.

Module UrlStream.
Import Unicode Plist.

(** [PlistValue::as_f64] and the cast of an [f64] to an [f32]. *)
Definition as_f64 (v : PlistValue) : option Z :=
  match v with Real f => Some f | Integer i => Some (Float.of_int F64 i) | _ => None end.
Definition f64_as_f32 (b : Z) : Z :=
  Float.to_bits F32 (match Float.of_bits F64 b with
                     | S754_finite s m e => binary_round (Float.prec F32) (Float.emax F32) s m e
                     | x => x
                     end).
(** [x != 0.0]: also what is not a number is. *)
Definition f64_nonzero (b : Z) : bool := match Float.of_bits F64 b with S754_zero _ => false | _ => true end.

Record TimeRange := mkRange { start : Z; r_duration : Z }.
Record PlaybackInfo := mkInfo {
  i_position : Z; i_duration : Z; rate : Z; playing : bool; ready_to_play : bool; playback_buffer_empty : bool;
  loaded_time_ranges : list TimeRange; seekable_time_ranges : list TimeRange
}.

(** The fields of the device's dictionary. *)
Definition get_f64 (d : list (list Z * PlistValue)) (key : list Z) : Z := match dict_get key d with Some v => default 0 (as_f64 v) | None => 0 end.
Definition get_flag (d : list (list Z * PlistValue)) (key : list Z) : bool := match dict_get key d with Some v => default false (as_bool v) | None => false end.
Definition time_range (v : PlistValue) : option TimeRange :=
  match as_dict v with Some d => Some (mkRange (get_f64 d (bs "start")) (get_f64 d (bs "duration"))) | None => None end.
Definition get_time_ranges (d : list (list Z * PlistValue)) (key : list Z) : list TimeRange :=
  match dict_get key d with Some v => omap time_range (default [] (as_array v)) | None => [] end.
Definition info_of (d : list (list Z * PlistValue)) : PlaybackInfo :=
  mkInfo (get_f64 d (bs "position")) (get_f64 d (bs "duration")) (f64_as_f32 (get_f64 d (bs "rate"))) (f64_nonzero (get_f64 d (bs "rate")))
    (get_flag d (bs "readyToPlay")) (get_flag d (bs "playbackBufferEmpty"))
    (get_time_ranges d (bs "loadedTimeRanges")) (get_time_ranges d (bs "seekableTimeRanges")).

Section Streamer.
Context {C : CommandLink}.

Inductive UrlError := UrlLink (e : LinkError) | UrlEncode (e : PlistEncodeError) | UrlDecode (e : option PlistDecodeError) | NotDictionary.

Definition parse_playback_info (data : list Z) : outcome UrlError PlaybackInfo :=
  v ← map_err UrlDecode (decode data);
  match v with Dictionary d => Ok (info_of d) | _ => Err NotDictionary end.

Record UrlStreamer := mkUrl { url_link : Link; current_url : option (list Z); playback_info : option PlaybackInfo }.
Definition Url_new (l : Link) : UrlStreamer := mkUrl l None None.
Definition with_url_link (s : UrlStreamer) (l : Link) : UrlStreamer := mkUrl l (current_url s) (playback_info s).

Definition url_command (s : UrlStreamer) (m : Rtsp.Method) (body : option PlistValue) : outcome UrlError (list Z) * UrlStreamer :=
  let send b := match send_command (url_link s) m b None with (r, l) => (map_err UrlLink r, with_url_link s l) end in
  match body with
  | None => send None
  | Some v => match encode v with Ok b => send (Some b) | Err e => (Err (UrlEncode e), s) | Panic => (Panic, s) end
  end.
(** What follows a command that succeeded. *)
Definition on_reply {A} (r : outcome UrlError (list Z) * UrlStreamer) (k : list Z -> UrlStreamer -> outcome UrlError A * UrlStreamer)
  : outcome UrlError A * UrlStreamer :=
  match r with
  | (Ok b, s) => k b s
  | (Err e, s) => (Err e, s)
  | (Panic, s) => (Panic, s)
  end.

Definition play_dict (url : list Z) (position : Z) : PlistValue :=
  builder_build (builder_insert (builder_insert builder_new (bs "Content-Location") (PString url)) (bs "Start-Position") (Real position)).
Definition play_at (s : UrlStreamer) (url : list Z) (position : Z) : outcome UrlError unit * UrlStreamer :=
  on_reply (url_command s Rtsp.Play (Some (play_dict url position))) (fun _ s => (Ok tt, mkUrl (url_link s) (Some url) (playback_info s))).
Definition url_play (s : UrlStreamer) (url : list Z) : outcome UrlError unit * UrlStreamer := play_at s url 0.

Definition get_playback_info (s : UrlStreamer) : outcome UrlError PlaybackInfo * UrlStreamer :=
  on_reply (url_command s Rtsp.GetParameter None) (fun b s =>
    match parse_playback_info b with
    | Ok i => (Ok i, mkUrl (url_link s) (current_url s) (Some i))
    | Err e => (Err e, s)
    | Panic => (Panic, s)
    end).
Definition url_set (s : UrlStreamer) (key : string) (v : Z) : outcome UrlError unit * UrlStreamer :=
  on_reply (url_command s Rtsp.SetParameter (Some (builder_build (builder_insert builder_new (bs key) (Real v))))) (fun _ s => (Ok tt, s)).
Definition scrub (s : UrlStreamer) (position : Z) : outcome UrlError unit * UrlStreamer := url_set s "position" position.
Definition set_rate (s : UrlStreamer) (r : Z) : outcome UrlError unit * UrlStreamer := url_set s "rate" (f64_of_f32 r).
Definition url_pause (s : UrlStreamer) : outcome UrlError unit * UrlStreamer := set_rate s 0.
Definition url_resume (s : UrlStreamer) : outcome UrlError unit * UrlStreamer := set_rate s 0x3F800000.
Definition url_stop (s : UrlStreamer) : outcome UrlError unit * UrlStreamer :=
  on_reply (url_command s Rtsp.Teardown None) (fun _ s => (Ok tt, mkUrl (url_link s) None None)).

(** [position] and [duration]: [Duration::from_secs_f64] of what the device said. *)
Definition url_position (s : UrlStreamer) : outcome UrlError (option Z) :=
  match playback_info s with Some i => n ← Float.from_secs_f64 (i_position i); Ok (Some n) | None => Ok None end.
Definition url_duration (s : UrlStreamer) : outcome UrlError (option Z) :=
  match playback_info s with Some i => n ← Float.from_secs_f64 (i_duration i); Ok (Some n) | None => Ok None end.
Definition url_is_playing (s : UrlStreamer) : bool := match playback_info s with Some i => playing i | None => false end.

(** ** Properties *)

(** The PLAY command carries the URL as it is and the position: what is sent decodes to
    both, and the URL is remembered exactly when the device accepted it. *)
Lemma play_carries_url (s : UrlStreamer) (url : list Z) (position : Z) :
  string_ok url -> uint 64 position -> Z.of_nat (length url) < 2 ^ 32 ->
  exists body r l, decode body = Ok (Dictionary [(bs "Content-Location", PString url); (bs "Start-Position", Real position)]) /\
    send_command (url_link s) Rtsp.Play (Some body) None = (r, l) /\
    play_at s url position = match r with
      | Ok _ => (Ok tt, mkUrl l (Some url) (playback_info s))
      | Err e => (Err (UrlLink e), with_url_link s l)
      | Panic => (Panic, with_url_link s l)
      end.
Proof.
  intros Hu Hp Hl. destruct (encode_decodes (play_dict url position)) as (body & He & Hd).
  - change (play_dict url position) with (Dictionary [(bs "Content-Location", PString url); (bs "Start-Position", Real position)]).
    cbn -[bs]. split; [|repeat constructor]. split_and!; first [done|apply ascii_string_ok; [apply bs_ok|reflexivity]].
  - vm_compute. discriminate.
  - change (play_dict url position) with (Dictionary [(bs "Content-Location", PString url); (bs "Start-Position", Real position)]).
    cbn [weight fold_right leaf_weight fst snd]. change (length (bs "Content-Location")) with 16%nat. change (length (bs "Start-Position")) with 14%nat. lia.
  - exists body. destruct (send_command (url_link s) Rtsp.Play (Some body) None) as [r l] eqn:Hs. exists r, l. split; [exact Hd|]. split; [done|].
    unfold play_at, url_command. rewrite He, Hs. by destruct r.
Qed.

(** What the device answers is read field by field: for every dictionary of properties,
    [parse_playback_info] of its encoding succeeds with those fields. *)
Lemma info_read_back (d : list (list Z * PlistValue)) : value_ok (Dictionary d) -> Z.of_nat (nodes (Dictionary d)) <= 65535 ->
  Z.of_nat (weight (Dictionary d)) < 2 ^ 62 ->
  exists data, encode (Dictionary d) = Ok data /\ parse_playback_info data = Ok (info_of (map (fun kx => (fst kx, norm (snd kx))) d)).
Proof.
  intros H1 H2 H3. destruct (encode_decodes _ H1 H2 H3) as (data & He & Hd). exists data. split; [done|].
  unfold parse_playback_info. by rewrite Hd.
Qed.

(** A stopped streamer has forgotten the URL and the last answer, unless the device
    refused to stop. *)
Lemma stop_forgets (s s' : UrlStreamer) : url_stop s = (Ok tt, s') -> current_url s' = None /\ url_is_playing s' = false /\ url_position s' = Ok None.
Proof. unfold url_stop, url_command. destruct (send_command _ _ _ _) as [[] l]; [|done..]. by intros [= <-]. Qed.
End Streamer.

(** A device that accepts every command and answers that it is at -1 s. *)
Definition early : list Z :=
  match encode (Dictionary [(bs "position", Integer (-1)); (bs "rate", Real 0x3FF0000000000000)]) with Ok b => b | _ => [] end.
#[local] Instance early_device : CommandLink :=
  {| Link := unit; LinkError := unit; send_command _ _ _ _ := (Ok early, tt); send_post_command _ _ _ _ := (Ok [], tt); get_ptp_network_time _ := None |}.

(** A position below zero, which a device may report before the start, is accepted, and
    [position] panics. *)
Example early_position_panics :
  let s := snd (get_playback_info (Url_new tt)) in url_is_playing s = true /\ url_position s = Panic /\ url_duration s = Ok (Some 0).
Proof. by vm_compute. Qed.
Example narrowing : f64_as_f32 0x3FF0000000000000 = 0x3F800000 /\ f64_as_f32 0x3FB999999999999A = 0x3DCCCCCD /\ f64_as_f32 0x7FEFFFFFFFFFFFFF = 0x7F800000 /\
  f64_of_f32 0x3F800000 = 0x3FF0000000000000.
Proof. by vm_compute. Qed.
End UrlStream.
