(* ===== verification/Client.v ===== *)
(** * The client and the player

    Models [src/connection/state.rs], [src/state/container.rs], the events of
    [src/state/events.rs] and [src/client/mod.rs] with its background tasks, and
    [src/player/mod.rs] with its reconnection.  The client joins the modelled
    controllers, queue and discovery; the connection manager they share is the class
    below, and its one value is kept in the client.  The event bus is the list of what
    was emitted.  The session of an AirPlay 2 device ([src/client/session.rs]) is the client
    again. *)

From stdpp Require Import relations.
From S2P Require Import Bytes Text Unicode Rtsp Plist RtspParser Sdp RaopSession Dmap Float PlaybackQueue Features Discovery Advertise Controls AudioFormat PcmStream UrlStream.

Module Client.

(** ** connection/state.rs *)
Inductive ConnectionState := Disconnected | Connecting | Authenticating | SettingUp | Connected | Reconnecting | Failed.
#[export] Instance ConnectionState_eq_dec : EqDecision ConnectionState.
Proof. solve_decision. Defined.

Definition is_active (s : ConnectionState) : bool :=
  match s with Connecting | Authenticating | SettingUp | Connected | Reconnecting => true | _ => false end.
Definition state_is_connected (s : ConnectionState) : bool := match s with Connected => true | _ => false end.
Definition is_failed (s : ConnectionState) : bool := match s with Failed | Disconnected => true | _ => false end.

Inductive DisconnectReason :=
| UserRequested | NetworkError (m : list Z) | DeviceOffline | AuthenticationFailed | ProtocolError (m : list Z) | Timeout.

Inductive ConnectionEvent :=
| StateChanged (old new : ConnectionState)
| EvConnected (device : Discovery.AirPlayDevice)
| EvDisconnected (device : Discovery.AirPlayDevice) (reason : DisconnectReason)
| PairingRequired (device : Discovery.AirPlayDevice)
| EvError (message : list Z) (recoverable : bool)
| RetransmitRequest (seq_start count : Z).

Record ConnectionStats := mkStats {
  connected_at : option Z; bytes_sent : Z; bytes_received : Z; reconnect_attempts : Z; last_error : option (list Z); rtt_ms : option Z
}.
Definition record_sent {E} (s : ConnectionStats) (n : Z) : outcome E ConnectionStats :=
  b ← chk_u 64 (bytes_sent s + n); Ok (mkStats (connected_at s) b (bytes_received s) (reconnect_attempts s) (last_error s) (rtt_ms s)).
Definition record_received {E} (s : ConnectionStats) (n : Z) : outcome E ConnectionStats :=
  b ← chk_u 64 (bytes_received s + n); Ok (mkStats (connected_at s) (bytes_sent s) b (reconnect_attempts s) (last_error s) (rtt_ms s)).

(** ** state/container.rs *)
Record ClientState := mkClientState {
  device : option Discovery.AirPlayDevice; playback_st : Controls.PlaybackState; cs_track : option Controls.TrackInfo; cs_volume : Z; cs_muted : bool;
  cs_position : Z; cs_duration : Z; queue_length : nat; cs_shuffle : bool; cs_repeat : Controls.RepeatMode
}.
Definition ClientState_default : ClientState :=
  mkClientState None Controls.State_default None Controls.VDEFAULT false 0 0 0 false Controls.RepeatOff.

(** The state under its lock, and the value of the watch channel. *)
Record StateContainer := mkContainer { current : ClientState; watched : ClientState }.
Definition Container_new : StateContainer := mkContainer ClientState_default ClientState_default.
Definition update (c : StateContainer) (f : ClientState -> ClientState) : StateContainer := mkContainer (f (current c)) (f (current c)).

Definition put_device (d : option Discovery.AirPlayDevice) (s : ClientState) : ClientState :=
  mkClientState d (playback_st s) (cs_track s) (cs_volume s) (cs_muted s) (cs_position s) (cs_duration s) (queue_length s) (cs_shuffle s) (cs_repeat s).
Definition put_playback (p : Controls.PlaybackState) (s : ClientState) : ClientState :=
  mkClientState (device s) p (cs_track s) (cs_volume s) (cs_muted s) (cs_position s) (cs_duration s) (queue_length s) (cs_shuffle s) (cs_repeat s).
Definition put_track (t : option Controls.TrackInfo) (s : ClientState) : ClientState :=
  mkClientState (device s) (playback_st s) t (cs_volume s) (cs_muted s) (cs_position s) (cs_duration s) (queue_length s) (cs_shuffle s) (cs_repeat s).
Definition put_volume (v : Z) (s : ClientState) : ClientState :=
  let v := Controls.Volume_new v in
  mkClientState (device s) (playback_st s) (cs_track s) v (if RaopSession.f32_lt 0 v then false else cs_muted s)
    (cs_position s) (cs_duration s) (queue_length s) (cs_shuffle s) (cs_repeat s).
Definition put_muted (m : bool) (s : ClientState) : ClientState :=
  mkClientState (device s) (playback_st s) (cs_track s) (cs_volume s) m (cs_position s) (cs_duration s) (queue_length s) (cs_shuffle s) (cs_repeat s).
Definition put_position (p : Z) (s : ClientState) : ClientState :=
  mkClientState (device s) (playback_st s) (cs_track s) (cs_volume s) (cs_muted s) p (cs_duration s) (queue_length s) (cs_shuffle s) (cs_repeat s).
Definition put_duration (d : Z) (s : ClientState) : ClientState :=
  mkClientState (device s) (playback_st s) (cs_track s) (cs_volume s) (cs_muted s) (cs_position s) d (queue_length s) (cs_shuffle s) (cs_repeat s).
Definition set_position (c : StateContainer) (p : Z) : StateContainer := update c (put_position p).
Definition set_duration (c : StateContainer) (d : Z) : StateContainer := update c (put_duration d).
Definition set_device (c : StateContainer) (d : option Discovery.AirPlayDevice) : StateContainer := update c (put_device d).
Definition set_playback (c : StateContainer) (p : Controls.PlaybackState) : StateContainer := update c (put_playback p).
Definition set_track (c : StateContainer) (t : option Controls.TrackInfo) : StateContainer := update c (put_track t).
Definition container_set_volume (c : StateContainer) (v : Z) : StateContainer := update c (put_volume v).
Definition set_muted (c : StateContainer) (m : bool) : StateContainer := update c (put_muted m).
Definition reset (c : StateContainer) : StateContainer := update c (fun _ => ClientState_default).

(** The events the client emits. *)
Inductive ClientEvent :=
| ClConnected (device : Discovery.AirPlayDevice)
| ClDisconnected (device : Discovery.AirPlayDevice) (reason : list Z)
| VolumeChanged (volume : Z)
| QueueUpdated (length : nat).

(** ** client/mod.rs *)

(** What the client uses of the connection manager, beside the commands of the
    controllers. *)
Class Connection := {
  conn_link :: CommandLink;
  conn_state : Link -> ConnectionState;
  conn_device : Link -> option Discovery.AirPlayDevice;
  conn_connect : Link -> Discovery.AirPlayDevice -> outcome LinkError unit * Link;
  conn_disconnect : Link -> DisconnectReason -> outcome LinkError unit * Link;
  conn_get : Link -> string -> outcome LinkError (list Z) * Link;
  conn_scan : Link -> outcome LinkError (list Discovery.AirPlayDevice) * Link;
  link_error_text : LinkError -> list Z;
  conn_key : Link -> option (list Z);
  conn_ptp_active : Link -> bool;
  conn_rate_anchor : Link -> Z -> outcome LinkError unit * Link;
  conn_record : Link -> outcome LinkError unit * Link
}.

(** [{reason:?}]; the text of a message is quoted. *)
Definition reason_text (quote : list Z -> list Z) (r : DisconnectReason) : list Z :=
  match r with
  | UserRequested => bs "UserRequested"
  | NetworkError m => bs "NetworkError(" ++ quote m ++ bs ")"
  | DeviceOffline => bs "DeviceOffline"
  | AuthenticationFailed => bs "AuthenticationFailed"
  | ProtocolError m => bs "ProtocolError(" ++ quote m ++ bs ")"
  | Timeout => bs "Timeout"
  end.

Section WithConnection.
Context {F : Floats} {L10 : Log10} {CO : Connection} {EN : PcmStream.Encoders}.

Inductive ClientError := Ctl (e : Controls.ControlError) | Conn (e : LinkError) | Url (e : UrlStream.UrlError) | DisconnectedFrom (name : list Z) | DeviceNotFound (name : list Z)
| NotImplemented (feature : string).

Record AirPlayClient := mkClient {
  connection : Link; playback : Controls.PlaybackController; volume_ctl : Controls.VolumeController;
  queue : @PlaybackQueue.PlaybackQueue Controls.TrackInfo; state : StateContainer; events : list ClientEvent;
  url_streamer : option UrlStream.UrlStreamer
}.

Definition Client_new (l : Link) : AirPlayClient :=
  mkClient l (Controls.PlaybackController_new l) (Controls.VolumeController_new l) PlaybackQueue.PlaybackQueue_new Container_new [] None.
(** [with_pairing_storage]: a new connection, with new controllers; it is used before
    anything is played, so that no [url_streamer] holds the old connection. *)
Definition with_pairing_storage (c : AirPlayClient) (l : Link) : AirPlayClient :=
  mkClient l (Controls.PlaybackController_new l) (Controls.VolumeController_new l) (queue c) (state c) (events c) (url_streamer c).

Definition with_state (c : AirPlayClient) (s : StateContainer) : AirPlayClient :=
  mkClient (connection c) (playback c) (volume_ctl c) (queue c) s (events c) (url_streamer c).
Definition with_queue (c : AirPlayClient) (q : PlaybackQueue.PlaybackQueue) : AirPlayClient :=
  mkClient (connection c) (playback c) (volume_ctl c) q (state c) (events c) (url_streamer c).
Definition with_link (c : AirPlayClient) (l : Link) : AirPlayClient :=
  mkClient l (playback c) (volume_ctl c) (queue c) (state c) (events c) (url_streamer c).
Definition emit (c : AirPlayClient) (e : ClientEvent) : AirPlayClient :=
  mkClient (connection c) (playback c) (volume_ctl c) (queue c) (state c) (events c ++ [e]) (url_streamer c).

Definition is_connected (c : AirPlayClient) : bool := bool_decide (conn_state (connection c) = Connected).
Definition ensure_connected (c : AirPlayClient) : outcome ClientError unit :=
  if is_connected c then Ok tt
  else Err (DisconnectedFrom (match conn_device (connection c) with Some d => Discovery.d_name d | None => bs "none" end)).

(** A method of a controller, on the connection they share. *)
Definition on_playback {A} (c : AirPlayClient) (f : Controls.PlaybackController -> outcome Controls.ControlError A * Controls.PlaybackController)
  : outcome ClientError A * AirPlayClient :=
  match f (Controls.mkPC (connection c) (Controls.state (playback c)) (Controls.repeat_mode (playback c)) (Controls.shuffle_mode (playback c))) with
  | (r, p) => (map_err Ctl r, mkClient (Controls.pc_link p) p (volume_ctl c) (queue c) (state c) (events c) (url_streamer c))
  end.
Definition on_volume {A} (c : AirPlayClient) (f : Controls.VolumeController -> outcome Controls.ControlError A * Controls.VolumeController)
  : outcome ClientError A * AirPlayClient :=
  match f (Controls.mkVC (connection c) (Controls.volume (volume_ctl c)) (Controls.muted (volume_ctl c)) (Controls.pre_mute_volume (volume_ctl c))) with
  | (r, v) => (map_err Ctl r, mkClient (Controls.vc_link v) (playback c) v (queue c) (state c) (events c) (url_streamer c))
  end.

(** [self.ensure_connected().await?; body]. *)
Definition connected_only {A} (c : AirPlayClient) (body : AirPlayClient -> outcome ClientError A * AirPlayClient) : outcome ClientError A * AirPlayClient :=
  match ensure_connected c with
  | Ok _ => body c
  | Err e => (Err e, c)
  | Panic => (Panic, c)
  end.
(** [m?; then]. *)
Definition and_then {A B} (m : outcome ClientError A * AirPlayClient) (k : A -> AirPlayClient -> outcome ClientError B * AirPlayClient)
  : outcome ClientError B * AirPlayClient :=
  match m with
  | (Ok a, c) => k a c
  | (Err e, c) => (Err e, c)
  | (Panic, c) => (Panic, c)
  end.

Definition set_playing_flag (b : bool) (s : ClientState) : ClientState := put_playback (Controls.with_playing (playback_st s) b) s.

(** *** Connection *)
Definition connect (c : AirPlayClient) (d : Discovery.AirPlayDevice) : outcome ClientError unit * AirPlayClient :=
  match conn_connect (connection c) d with
  | (Ok _, l) => (Ok tt, emit (with_state (with_link c l) (set_device (state c) (Some d))) (ClConnected d))
  | (Err e, l) => (Err (Conn e), with_link c l)
  | (Panic, l) => (Panic, with_link c l)
  end.

(** One event of the connection in [start_monitor]; [false]: the task ends. *)
Definition monitor_event (quote : list Z -> list Z) (c : AirPlayClient) (e : ConnectionEvent) : bool * AirPlayClient :=
  match e with
  | EvDisconnected d reason => (false, emit (with_state c (set_device (state c) None)) (ClDisconnected d (reason_text quote reason)))
  | EvConnected d => (true, emit (with_state c (set_device (state c) (Some d))) (ClConnected d))
  | _ => (true, c)
  end.

(** One tick of [start_keep_alive]. *)
Definition keep_alive (c : AirPlayClient) : bool * AirPlayClient :=
  if bool_decide (conn_state (connection c) = Connected) then
    match conn_get (connection c) "/info" with
    | (Ok _, l) => (true, with_link c l)
    | (Err e, l) => match conn_disconnect l (NetworkError (link_error_text e)) with (_, l) => (false, with_link c l) end
    | (Panic, l) => (false, with_link c l)
    end
  else (negb (bool_decide (conn_state (connection c) = Disconnected)), c).

Definition disconnect (c : AirPlayClient) : outcome ClientError unit * AirPlayClient :=
  let d := device (current (state c)) in
  match conn_disconnect (connection c) UserRequested with
  | (Ok _, l) =>
      let c := with_state (with_link c l) (set_device (state c) None) in
      (Ok tt, match d with Some d => emit c (ClDisconnected d (bs "UserRequested")) | None => c end)
  | (Err e, l) => (Err (Conn e), with_link c l)
  | (Panic, l) => (Panic, with_link c l)
  end.

(** *** Playback *)
Definition play (c : AirPlayClient) : outcome ClientError unit * AirPlayClient :=
  connected_only c (fun c => and_then (on_playback c Controls.play) (fun _ c => (Ok tt, with_state c (update (state c) (set_playing_flag true))))).
Definition pause (c : AirPlayClient) : outcome ClientError unit * AirPlayClient :=
  connected_only c (fun c => and_then (on_playback c Controls.pause) (fun _ c => (Ok tt, with_state c (update (state c) (set_playing_flag false))))).
Definition toggle_playback (c : AirPlayClient) : outcome ClientError unit * AirPlayClient :=
  connected_only c (fun c => on_playback c Controls.toggle).
Definition stop (c : AirPlayClient) : outcome ClientError unit * AirPlayClient :=
  connected_only c (fun c => and_then (on_playback c Controls.stop) (fun _ c =>
    (Ok tt, with_state c (update (state c) (fun s => put_playback (Controls.with_position (Controls.with_playing (playback_st s) false) 0) s))))).

(** The queue's move, and the track it reports. *)
Definition queue_move (move : PlaybackQueue.PlaybackQueue -> outcome Empty_set (option PlaybackQueue.QueueItem * PlaybackQueue.PlaybackQueue))
  (c : AirPlayClient) : outcome ClientError unit * AirPlayClient :=
  match move (queue c) with
  | Ok (item, q) => (Ok tt, with_state (with_queue c q) (set_track (state c) (PlaybackQueue.track <$> item)))
  | _ => (Panic, c)
  end.
Definition next (c : AirPlayClient) : outcome ClientError unit * AirPlayClient :=
  connected_only c (fun c => and_then (on_playback c Controls.next) (fun _ c => queue_move PlaybackQueue.advance c)).
Definition previous (c : AirPlayClient) : outcome ClientError unit * AirPlayClient :=
  connected_only c (fun c => and_then (on_playback c Controls.previous) (fun _ c => queue_move PlaybackQueue.previous c)).
Definition seek (c : AirPlayClient) (secs nanos : Z) : outcome ClientError unit * AirPlayClient :=
  connected_only c (fun c => on_playback c (fun p => Controls.seek p secs nanos)).

(** *** Volume *)
Definition set_volume (c : AirPlayClient) (level : Z) : outcome ClientError unit * AirPlayClient :=
  connected_only c (fun c => and_then (on_volume c (fun v => Controls.set v (Controls.Volume_new level))) (fun _ c =>
    (Ok tt, emit (with_state c (container_set_volume (state c) level)) (VolumeChanged level)))).
Definition volume_step (step : Controls.VolumeController -> outcome Controls.ControlError Z * Controls.VolumeController) (c : AirPlayClient)
  : outcome ClientError unit * AirPlayClient :=
  connected_only c (fun c => and_then (on_volume c step) (fun v c => (Ok tt, with_state c (container_set_volume (state c) v)))).
Definition volume_up : AirPlayClient -> outcome ClientError unit * AirPlayClient := volume_step Controls.step_up.
Definition volume_down : AirPlayClient -> outcome ClientError unit * AirPlayClient := volume_step Controls.step_down.
Definition mute (c : AirPlayClient) : outcome ClientError unit * AirPlayClient :=
  connected_only c (fun c => and_then (on_volume c Controls.mute) (fun _ c => (Ok tt, with_state c (set_muted (state c) true)))).
Definition unmute (c : AirPlayClient) : outcome ClientError unit * AirPlayClient :=
  connected_only c (fun c => and_then (on_volume c Controls.unmute) (fun _ c => (Ok tt, with_state c (set_muted (state c) false)))).
Definition toggle_mute (c : AirPlayClient) : outcome ClientError bool * AirPlayClient :=
  connected_only c (fun c => and_then (on_volume c Controls.toggle_mute) (fun m c => (Ok m, with_state c (set_muted (state c) m)))).

(** These do not ask whether the client is connected. *)
Definition set_metadata (c : AirPlayClient) (m : Dmap.TrackMetadata) : outcome ClientError unit * AirPlayClient := on_playback c (fun p => Controls.set_metadata p m).
Definition set_progress (c : AirPlayClient) (p : Dmap.DmapProgress) : outcome ClientError unit * AirPlayClient := on_playback c (fun pc => Controls.set_progress pc p).
Definition set_artwork (c : AirPlayClient) (data : list Z) (mime : string) : outcome ClientError unit * AirPlayClient := on_playback c (fun p => Controls.set_artwork p data mime).

(** *** Queue *)
Definition queue_updated (c : AirPlayClient) : AirPlayClient := emit c (QueueUpdated (length (PlaybackQueue.items (queue c)))).
Definition add_to_queue (c : AirPlayClient) (t : Controls.TrackInfo) (new_id : Z) : AirPlayClient :=
  queue_updated (with_queue c (PlaybackQueue.add (queue c) t new_id)).
Definition play_next (c : AirPlayClient) (t : Controls.TrackInfo) (new_id : Z) : AirPlayClient :=
  queue_updated (with_queue c (PlaybackQueue.add_next (queue c) t new_id)).
Definition remove_from_queue (c : AirPlayClient) (i : Z) : AirPlayClient :=
  queue_updated (with_queue c (snd (PlaybackQueue.remove (queue c) i))).
Definition clear_queue (c : AirPlayClient) : AirPlayClient := emit (with_queue c (PlaybackQueue.clear (queue c))) (QueueUpdated 0).
Definition set_shuffle (c : AirPlayClient) (enabled : bool) (rng : list nat -> list nat) : outcome ClientError unit * AirPlayClient :=
  connected_only c (fun c =>
    if enabled then on_playback (with_queue c (PlaybackQueue.shuffle (queue c) rng)) (fun p => Controls.set_shuffle p Controls.ShuffleOn)
    else on_playback (with_queue c (PlaybackQueue.unshuffle (queue c))) (fun p => Controls.set_shuffle p Controls.ShuffleOff)).
Definition set_repeat (c : AirPlayClient) (m : Controls.RepeatMode) : outcome ClientError unit * AirPlayClient :=
  connected_only c (fun c => on_playback c (fun p => Controls.set_repeat p m)).

(** The streamer [stream_audio] sets up: format, codec and key. *)
Definition target_format (prefer_hires : bool) (d : option Discovery.AirPlayDevice) : AudioFormat.AudioFormat :=
  if prefer_hires && match d with Some d => Features.supports_hires_audio (Discovery.capabilities d) | None => false end
  then AudioFormat.mkFormat AudioFormat.I24 AudioFormat.Hz48000 AudioFormat.Stereo
  else AudioFormat.mkFormat AudioFormat.I16 AudioFormat.Hz44100 AudioFormat.Stereo.
Definition streamer_for {E} {EN : PcmStream.Encoders} (ssrc : Z) (prefer_hires : bool) (d : option Discovery.AirPlayDevice) (buffer_frames : nat)
  (codec : AudioFormat.AudioCodec) (bitrate : Z) (key : option (list Z)) : outcome E PcmStream.PcmStreamer :=
  s ← PcmStream.Streamer_new ssrc (target_format prefer_hires d) buffer_frames;
  s ← match codec with
      | AudioFormat.Alac => Ok (PcmStream.use_alac s)
      | AudioFormat.Aac => PcmStream.use_aac s bitrate
      | _ => Ok s
      end;
  Ok (PcmStream.keyed s key).

(** The settings of [AirPlayConfig] that streaming uses. *)
Record StreamConfig := mkStreamConfig { prefer_hires_audio : bool; audio_buffer_frames : nat; audio_codec : AudioFormat.AudioCodec; aac_bitrate : Z }.

(** The sequence for PTP devices; the results are only logged, and so is the end of the
    wait for the clock before it. *)
Definition ptp_start (l : Link) : Link := snd (conn_record (snd (conn_rate_anchor l 0x3FF0000000000000))).
(** [stream_audio] up to the call of [PcmStreamer::stream], of which the streamer is the
    argument. *)
Definition stream_audio (ssrc : Z) (cfg : StreamConfig) (c : AirPlayClient) : outcome ClientError PcmStream.PcmStreamer * AirPlayClient :=
  connected_only c (fun c =>
    match streamer_for (E := ClientError) ssrc (prefer_hires_audio cfg) (device (current (state c))) (audio_buffer_frames cfg) (audio_codec cfg) (aac_bitrate cfg)
            (conn_key (connection c)) with
    | Ok s =>
        let c := with_state c (update (state c) (set_playing_flag true)) in
        let c := mkClient (connection c) (Controls.set_playing (playback c) true) (volume_ctl c) (queue c) (state c) (events c) (url_streamer c) in
        (Ok s, if conn_ptp_active (connection c) then with_link c (ptp_start (connection c)) else c)
    | Err e => (Err e, c)
    | Panic => (Panic, c)
    end).
(** The task it leaves behind for the other devices. *)
Definition record_later (c : AirPlayClient) : AirPlayClient := with_link c (snd (conn_record (connection c))).

(** [play_url]: the streamer is made for the first one, on the client's connection. *)
Definition play_url (c : AirPlayClient) (url : list Z) : outcome ClientError unit * AirPlayClient :=
  connected_only c (fun c =>
    let u := match url_streamer c with Some u => UrlStream.with_url_link u (connection c) | None => UrlStream.Url_new (connection c) end in
    match UrlStream.url_play u url with
    | (r, u) =>
        let c := mkClient (UrlStream.url_link u) (playback c) (volume_ctl c) (queue c) (state c) (events c) (Some u) in
        and_then (map_err Url r, c) (fun _ c => (Ok tt, with_state c (update (state c) (set_playing_flag true))))
    end).
Definition client_playback_info (c : AirPlayClient) : outcome ClientError (list Z) * AirPlayClient :=
  connected_only c (fun c =>
    match send_command (connection c) Rtsp.GetParameter (Some (bs "playback-info" ++ [13; 10])) (Some "text/parameters") with
    | (r, l) => (map_err Conn r, with_link c l)
    end).

(** ** player/mod.rs *)
Record AirPlayPlayer := mkPlayer {
  client : AirPlayClient; auto_reconnect : bool; target_device_name : option (list Z); last_device : option Discovery.AirPlayDevice; is_reconnecting : bool
}.
Definition Player_new (l : Link) : AirPlayPlayer := mkPlayer (Client_new l) true None None false.
Definition set_auto_reconnect (p : AirPlayPlayer) (enabled : bool) : AirPlayPlayer :=
  mkPlayer (client p) enabled (target_device_name p) (last_device p) (is_reconnecting p).
Definition set_target_device_name (p : AirPlayPlayer) (name : option (list Z)) : AirPlayPlayer :=
  mkPlayer (client p) (auto_reconnect p) name (last_device p) (is_reconnecting p).
Definition with_client (p : AirPlayPlayer) (c : AirPlayClient) : AirPlayPlayer :=
  mkPlayer c (auto_reconnect p) (target_device_name p) (last_device p) (is_reconnecting p).
Definition with_last (p : AirPlayPlayer) (d : option Discovery.AirPlayDevice) : AirPlayPlayer :=
  mkPlayer (client p) (auto_reconnect p) (target_device_name p) d (is_reconnecting p).
Definition with_reconnecting (p : AirPlayPlayer) (b : bool) : AirPlayPlayer :=
  mkPlayer (client p) (auto_reconnect p) (target_device_name p) (last_device p) b.

(** [PlayerBuilder::build]. *)
Definition Builder_build (l : Link) (auto : bool) (name : option (list Z)) : AirPlayPlayer :=
  let p := set_auto_reconnect (Player_new l) auto in
  match name with Some n => set_target_device_name p (Some n) | None => p end.

Definition player_connect (p : AirPlayPlayer) (d : Discovery.AirPlayDevice) : outcome ClientError unit * AirPlayPlayer :=
  match connect (client p) d with
  | (Ok _, c) => (Ok tt, with_last (with_client p c) (Some d))
  | (r, c) => (r, with_client p c)
  end.

(** [client.scan]. *)
Definition scan (c : AirPlayClient) : outcome ClientError (list Discovery.AirPlayDevice) * AirPlayClient :=
  match conn_scan (connection c) with (r, l) => (map_err Conn r, with_link c l) end.

Section ByName.
Context {LC : Lowercase}.
Definition named (name : list Z) (d : Discovery.AirPlayDevice) : bool := RtspParser.contains (to_lowercase name) (to_lowercase (Discovery.d_name d)).
Definition connect_found (p : AirPlayPlayer) (found : option Discovery.AirPlayDevice) (name : list Z) : outcome ClientError Discovery.AirPlayDevice * AirPlayPlayer :=
  match found with
  | None => (Err (DeviceNotFound name), p)
  | Some d => match player_connect p d with (r, p) => (_ ← r; Ok d, p) end
  end.
Definition auto_connect (p : AirPlayPlayer) : outcome ClientError Discovery.AirPlayDevice * AirPlayPlayer :=
  match scan (client p) with
  | (Ok devices, c) =>
      let p := with_client p c in
      match target_device_name p with
      | Some name => connect_found p (find (named name) devices) name
      | None => connect_found p (head devices) (bs "any")
      end
  | (Err e, c) => (Err e, with_client p c)
  | (Panic, c) => (Panic, with_client p c)
  end.
Definition connect_by_name (p : AirPlayPlayer) (name : list Z) : outcome ClientError Discovery.AirPlayDevice * AirPlayPlayer :=
  match scan (client p) with
  | (Ok devices, c) => connect_found (with_client p c) (find (named name) devices) name
  | (Err e, c) => (Err e, with_client p c)
  | (Panic, c) => (Panic, with_client p c)
  end.
End ByName.

(** [Duration::from_secs_f64]. *)
Definition player_seek (p : AirPlayPlayer) (seconds : Z) : outcome ClientError unit * AirPlayPlayer :=
  match Float.from_secs_f64 (E := ClientError) seconds with
  | Ok n => match seek (client p) (n / 1000000000) (n mod 1000000000) with (r, c) => (r, with_client p c) end
  | Err e => (Err e, p)
  | Panic => (Panic, p)
  end.

(** [TrackInfo::new], and the tracks of a list put in the queue with fresh identifiers. *)
Definition Track_new (t : list Z * list Z * list Z) : Controls.TrackInfo :=
  let '(url, title, artist) := t in Controls.mkTrackInfo url title artist None None None None None None None.
Fixpoint enqueue (c : AirPlayClient) (tracks : list (list Z * list Z * list Z)) (fresh : Z) : AirPlayClient :=
  match tracks with
  | [] => c
  | t :: tracks => enqueue (add_to_queue c (Track_new t) fresh) tracks (fresh + 1)
  end.
Definition play_tracks (p : AirPlayPlayer) (tracks : list (list Z * list Z * list Z)) (fresh : Z) : outcome ClientError unit * AirPlayPlayer :=
  let c := enqueue (clear_queue (client p)) tracks fresh in
  match (match tracks with (url, _, _) :: _ => play_url c url | [] => play c end) with (r, c) => (r, with_client p c) end.
Definition play_track (p : AirPlayPlayer) (url title artist : list Z) (fresh : Z) : outcome ClientError unit * AirPlayPlayer :=
  play_tracks p [(url, title, artist)] fresh.

(** One round of the reconnection loop: the direct connection, then a scan for the
    device of the same identifier. *)
Inductive Attempt := Success | NoDevice | Again.
Definition attempt (p : AirPlayPlayer) : outcome Empty_set Attempt * AirPlayPlayer :=
  match last_device p with
  | None => (Ok NoDevice, p)
  | Some d =>
      match connect (client p) d with
      | (Ok _, c) => (Ok Success, with_client p c)
      | (Panic, c) => (Panic, with_client p c)
      | (Err _, c) =>
          match scan c with
          | (Ok devices, c) =>
              match find (fun x => bool_decide (Discovery.id x = Discovery.id d)) devices with
              | Some u =>
                  let p := with_last (with_client p c) (Some u) in
                  match connect c u with
                  | (Ok _, c) => (Ok Success, with_client p c)
                  | (Err _, c) => (Ok Again, with_client p c)
                  | (Panic, c) => (Panic, with_client p c)
                  end
              | None => (Ok Again, with_client p c)
              end
          | (Err _, c) => (Ok Again, with_client p c)
          | (Panic, c) => (Panic, with_client p c)
          end
      end
  end.

Definition MAX_ATTEMPTS : nat := 10.

(** The loop; [enabled]: the readings of [auto_reconnect], [n]: the attempts before, the
    result with the attempts made and the seconds slept. *)
Fixpoint reconnect_loop (enabled : list bool) (n : nat) (slept : Z) (p : AirPlayPlayer) : outcome Empty_set bool * nat * Z * AirPlayPlayer :=
  match enabled with
  | true :: enabled =>
      if (n <? MAX_ATTEMPTS)%nat then
        let n := S n in
        match attempt p with
        | (Ok Success, p) => (Ok true, n, slept, p)
        | (Ok NoDevice, p) => (Ok false, n, slept, p)
        | (Ok Again, p) => reconnect_loop enabled n (slept + 2 ^ Z.of_nat (n `min` 4)) p
        | (Err e, p) => (Err e, n, slept, p)
        | (Panic, p) => (Panic, n, slept, p)
        end
      else (Ok false, n, slept, p)
  | _ => (Ok false, n, slept, p)
  end.

(** The handling of an event in [start_reconnect_monitor]. *)
Definition reconnect_event (enabled : list bool) (p : AirPlayPlayer) (e : ClientEvent) : option (outcome Empty_set bool * nat * Z) * AirPlayPlayer :=
  match e with
  | ClDisconnected _ reason =>
      if negb (auto_reconnect p) || RtspParser.contains (bs "UserRequested") reason then (None, p)
      else if is_reconnecting p then (None, p)
      else
        match reconnect_loop enabled 0 2 (with_reconnecting p true) with
        | (Ok b, n, slept, p) => (Some (Ok b, n, slept), with_reconnecting p false)
        | (r, n, slept, p) => (Some (r, n, slept), p)
        end
  | _ => (None, p)
  end.

(** ** Sequences of calls *)
Inductive ClientOp :=
| OConnect (d : Discovery.AirPlayDevice) | ODisconnect | OMonitor (e : ConnectionEvent) | OKeepAlive
| OPlay | OPause | OToggle | OStop | ONext | OPrevious | OSeek (secs nanos : Z)
| OSetVolume (level : Z) | OVolumeUp | OVolumeDown | OMute | OUnmute | OToggleMute
| OMetadata (m : Dmap.TrackMetadata) | OProgress (p : Dmap.DmapProgress) | OArtwork (data : list Z) (mime : string)
| OAdd (t : Controls.TrackInfo) (new_id : Z) | OPlayNext (t : Controls.TrackInfo) (new_id : Z) | ORemove (i : Z) | OClear
| OShuffle (enabled : bool) (rng : list nat -> list nat) | ORepeat (m : Controls.RepeatMode)
| OStream (ssrc : Z) (cfg : StreamConfig) | ORecordLater | OPlayUrl (url : list Z) | OInfo.

Definition client_op (quote : list Z -> list Z) (c : AirPlayClient) (o : ClientOp) : AirPlayClient :=
  match o with
  | OConnect d => snd (connect c d) | ODisconnect => snd (disconnect c) | OMonitor e => snd (monitor_event quote c e) | OKeepAlive => snd (keep_alive c)
  | OPlay => snd (play c) | OPause => snd (pause c) | OToggle => snd (toggle_playback c) | OStop => snd (stop c)
  | ONext => snd (next c) | OPrevious => snd (previous c) | OSeek s n => snd (seek c s n)
  | OSetVolume v => snd (set_volume c v) | OVolumeUp => snd (volume_up c) | OVolumeDown => snd (volume_down c)
  | OMute => snd (mute c) | OUnmute => snd (unmute c) | OToggleMute => snd (toggle_mute c)
  | OMetadata m => snd (set_metadata c m) | OProgress p => snd (set_progress c p) | OArtwork d m => snd (set_artwork c d m)
  | OAdd t i => add_to_queue c t i | OPlayNext t i => play_next c t i | ORemove i => remove_from_queue c i | OClear => clear_queue c
  | OShuffle b rng => snd (set_shuffle c b rng) | ORepeat m => snd (set_repeat c m)
  | OStream ssrc cfg => snd (stream_audio ssrc cfg c) | ORecordLater => record_later c | OPlayUrl u => snd (play_url c u) | OInfo => snd (client_playback_info c)
  end.

(** ** What the controllers do to the playing flag *)
Definition playing_of (r : outcome Controls.ControlError unit) (after before : bool) : bool := match r with Ok _ => after | _ => before end.

Lemma send_state (p p' : Controls.PlaybackController) m b ct r : Controls.send p m b ct = (r, p') -> Controls.state p' = Controls.state p.
Proof. unfold Controls.send. destruct (send_command _ _ _ _). by intros [= _ <-]. Qed.

Lemma send_ctrl_state (p p' : Controls.PlaybackController) x r : Controls.send_ctrl p x = (r, p') -> Controls.state p' = Controls.state p.
Proof. unfold Controls.send_ctrl. destruct (send_post_command _ _ _ _). by intros [= _ <-]. Qed.

Lemma send_rate_state (p p' : Controls.PlaybackController) x t r : Controls.send_rate p x t = (r, p') -> Controls.state p' = Controls.state p.
Proof. unfold Controls.send_rate. destruct (Plist.encode _); [apply send_state|by intros [= _ <-]..]. Qed.

Lemma then_state_playing (m : outcome Controls.ControlError unit * Controls.PlaybackController) f b (p : Controls.PlaybackController) :
  (forall s, Controls.is_playing (f s) = b s) -> Controls.state (snd m) = Controls.state p ->
  let '(r, p') := Controls.then_state m f in Controls.is_playing (Controls.state p') = playing_of r (b (Controls.state p)) (Controls.is_playing (Controls.state p)).
Proof. intros Hf Hm. destruct m as [[] q]; cbn in *; by rewrite ?Hf, Hm. Qed.

(** A method of the controller, and the flag after it. *)
Definition flags (f : Controls.PlaybackController -> outcome Controls.ControlError unit * Controls.PlaybackController) (b : bool -> bool) : Prop :=
  forall p, let '(r, p') := f p in Controls.is_playing (Controls.state p') = playing_of r (b (Controls.is_playing (Controls.state p))) (Controls.is_playing (Controls.state p)).

Lemma play_flags : flags Controls.play (fun _ => true).
Proof.
  intros p. unfold Controls.play. destruct (Controls.is_playing (Controls.state p)) eqn:Hp; [done|]. rewrite <- Hp.
  apply (then_state_playing _ _ (fun _ => true)); [by intros []|]. destruct (Controls.send_rate _ _ _) eqn:E. by apply send_rate_state in E.
Qed.
Lemma pause_flags : flags Controls.pause (fun _ => false).
Proof.
  intros p. apply (then_state_playing _ _ (fun _ => false)); [by intros []|]. destruct (Controls.send_rate _ _ _) eqn:E. by apply send_rate_state in E.
Qed.
Lemma stop_flags : flags Controls.stop (fun _ => false).
Proof.
  intros p. apply (then_state_playing _ _ (fun _ => false)); [by intros []|]. destruct (Controls.send _ _ _ _) eqn:E. by apply send_state in E.
Qed.

Lemma ctrl_flags x : flags (fun p => Controls.send_ctrl p x) (fun b => b).
Proof. intros p. destruct (Controls.send_ctrl p x) as [r p'] eqn:E. apply send_ctrl_state in E. rewrite E. by destruct r. Qed.
Lemma send_flags m b ct : flags (fun p => Controls.send p m b ct) (fun b => b).
Proof. intros p. destruct (Controls.send p m b ct) as [r p'] eqn:E. apply send_state in E. rewrite E. by destruct r. Qed.
Lemma seek_flags s n : flags (fun p => Controls.seek p s n) (fun b => b).
Proof.
  intros p. apply (then_state_playing _ _ Controls.is_playing); [by intros []|]. unfold Controls.send_scrub, Controls.set_progress.
  destruct (Controls.send _ _ _ _) eqn:E. by apply send_state in E.
Qed.
Lemma metadata_flags m : flags (fun p => Controls.set_metadata p m) (fun b => b).
Proof.
  intros p. unfold Controls.set_metadata. destruct (Dmap.encode_dmap m); [|done..].
  apply (then_state_playing _ _ Controls.is_playing); [by intros []|]. destruct (Controls.send _ _ _ _) eqn:E. by apply send_state in E.
Qed.
Lemma shuffle_flags m : flags (fun p => Controls.set_shuffle p m) (fun b => b).
Proof.
  intros p. unfold Controls.set_shuffle. destruct (Controls.send_ctrl p _) as [[] p'] eqn:E;
    apply send_ctrl_state in E; cbn; rewrite ?E; [by destruct (Controls.state p)|done..].
Qed.
Lemma repeat_flags m : flags (fun p => Controls.set_repeat p m) (fun b => b).
Proof.
  intros p. unfold Controls.set_repeat. destruct (Controls.send_ctrl p _) as [[] p'] eqn:E;
    apply send_ctrl_state in E; cbn; rewrite ?E; [by destruct (Controls.state p)|done..].
Qed.

(** ** The reported state *)
Definition reported (c : AirPlayClient) : bool := Controls.is_playing (playback_st (current (state c))).
Definition actual (c : AirPlayClient) : bool := Controls.is_playing (Controls.state (playback c)).
Definition agrees (c : AirPlayClient) : Prop := reported c = actual c /\ watched (state c) = current (state c).

Lemma on_playback_agrees c f b k : flags f b -> agrees c ->
  (forall c', reported c' = reported c -> watched (state c') = current (state c') -> actual c' = b (actual c) -> agrees (snd (k c'))) ->
  agrees (snd (and_then (B := unit) (on_playback c f) (fun _ => k))).
Proof.
  intros Hf [H1 H2] Hk. unfold on_playback. match goal with |- context [f ?q] => specialize (Hf q); destruct (f q) as [r p] end.
  cbn [Controls.state] in Hf. destruct r; cbn [map_err and_then snd]; [|split; unfold reported, actual in *; cbn in *; congruence..].
  apply Hk; unfold reported, actual in *; cbn in *; congruence.
Qed.

Lemma on_playback_same c f : flags f (fun b => b) -> agrees c -> agrees (snd (on_playback c f)).
Proof.
  intros Hf [H1 H2]. unfold on_playback. match goal with |- context [f ?q] => specialize (Hf q); destruct (f q) as [r p] end.
  split; unfold reported, actual in *; cbn in *; [destruct r; cbn in *; congruence|done].
Qed.

Lemma on_volume_agrees {A B} c (f : Controls.VolumeController -> outcome Controls.ControlError A * Controls.VolumeController) (k : A -> AirPlayClient -> outcome ClientError B * AirPlayClient) :
  agrees c -> (forall a c', agrees c' -> agrees (snd (k a c'))) -> agrees (snd (and_then (on_volume c f) k)).
Proof.
  intros Hc Hk. unfold on_volume. destruct (f _) as [r v]. set (c' := mkClient _ _ _ _ _ _ _).
  assert (agrees c') as Hc' by done. destruct r; cbn; [by apply Hk|done..].
Qed.

Lemma connected_agrees {A} c (body : AirPlayClient -> outcome ClientError A * AirPlayClient) : agrees c -> agrees (snd (body c)) -> agrees (snd (connected_only c body)).
Proof. intros H Hb. unfold connected_only. by destruct (ensure_connected c). Qed.

Lemma move_agrees move c : agrees c -> agrees (snd (queue_move move c)).
Proof. intros [H1 H2]. unfold queue_move. destruct (move (queue c)) as [[item q]| |]; done. Qed.

(** The calls that leave the playing flags alone. *)
Ltac agree := match goal with H : agrees _ |- _ => destruct H; split; done end.

(** The calls that change the one flag and not the other. *)
Definition unreported (o : ClientOp) : bool := match o with OToggle | OPlayUrl _ => true | _ => false end.

(** C27: the client reports whether it plays. After any sequence of calls and background
    events, of which any may fail, except [toggle_playback] and [play_url], the playing
    flag of the client's state is the controller's own, which follows the commands the
    device accepted; and subscribers have been shown the current state. *)
Theorem client_reports_playing (quote : list Z -> list Z) (l : Link) (ops : list ClientOp) (Ho : Forall (fun o => unreported o = false) ops) :
  let c := foldl (client_op quote) (Client_new l) ops in
  Controls.is_playing (playback_st (current (state c))) = Controls.is_playing (Controls.state (playback c)) /\
  watched (state c) = current (state c).
Proof.
  change (agrees (foldl (client_op quote) (Client_new l) ops)). assert (agrees (Client_new l)) as Hc by done. revert Hc.
  generalize (Client_new l). induction ops as [|o ops IH]; intros c Hc; [done|]. apply Forall_cons in Ho as [Ho Hos]. cbn [foldl].
  apply (IH Hos). clear IH Hos. destruct o; cbn [client_op]; try done.
  - unfold connect. destruct (conn_connect _ _) as [[] ?]; agree.
  - unfold disconnect. destruct (conn_disconnect _ _) as [[] ?]; [|agree..]. destruct (device _); agree.
  - unfold monitor_event. destruct e; agree.
  - unfold keep_alive. case_bool_decide; [|done]. destruct (conn_get _ _) as [[] ?]; try done. by destruct (conn_disconnect _ _).
  - apply connected_agrees; [done|]. apply (on_playback_agrees _ _ _ _ play_flags Hc). intros c' H1 H2 H3. split; [|done].
    unfold actual in *. cbn. rewrite H3. unfold reported. cbn. by destruct (playback_st _).
  - apply connected_agrees; [done|]. apply (on_playback_agrees _ _ _ _ pause_flags Hc). intros c' H1 H2 H3. split; [|done].
    unfold actual in *. cbn. rewrite H3. unfold reported. cbn. by destruct (playback_st _).
  - apply connected_agrees; [done|]. apply (on_playback_agrees _ _ _ _ stop_flags Hc). intros c' H1 H2 H3. split; [|done].
    unfold actual in *. cbn. rewrite H3. unfold reported. cbn. by destruct (playback_st _).
  - apply connected_agrees; [done|]. apply (on_playback_agrees _ _ _ _ (ctrl_flags "nextitem") Hc). intros c' H1 H2 H3.
    apply move_agrees. split; [|done]. rewrite H1, H3. apply Hc.
  - apply connected_agrees; [done|]. apply (on_playback_agrees _ _ _ _ (ctrl_flags "previtem") Hc). intros c' H1 H2 H3.
    apply move_agrees. split; [|done]. rewrite H1, H3. apply Hc.
  - apply connected_agrees; [done|]. apply on_playback_same; [apply seek_flags|done].
  - apply connected_agrees; [done|]. apply on_volume_agrees; [done|intros; agree].
  - apply connected_agrees; [done|]. apply on_volume_agrees; [done|intros; agree].
  - apply connected_agrees; [done|]. apply on_volume_agrees; [done|intros; agree].
  - apply connected_agrees; [done|]. apply on_volume_agrees; [done|intros; agree].
  - apply connected_agrees; [done|]. apply on_volume_agrees; [done|intros; agree].
  - apply connected_agrees; [done|]. apply on_volume_agrees; [done|intros; agree].
  - apply on_playback_same; [apply metadata_flags|done].
  - apply on_playback_same; [apply send_flags|done].
  - apply on_playback_same; [apply send_flags|done].
  - apply connected_agrees; [done|]. destruct enabled; (apply on_playback_same; [apply shuffle_flags|done]).
  - apply connected_agrees; [done|]. apply on_playback_same; [apply repeat_flags|done].
  - apply connected_agrees; [done|]. destruct (streamer_for _ _ _ _ _ _ _) as [x| |]; [|done..].
    cbn zeta. case_match; (split; [unfold reported, actual; cbn; by destruct (playback_st _), (Controls.state _)|done]).
  - apply connected_agrees; [done|]. destruct (send_command _ _ _ _). agree.
Qed.

(** ** Offline *)

(** A client that is not connected refuses: the commands that ask first are answered
    with an error, and neither the connection nor anything else is touched. *)
Lemma offline_refused {A} (c : AirPlayClient) (body : AirPlayClient -> outcome ClientError A * AirPlayClient) : is_connected c = false ->
  exists name, connected_only c body = (Err (DisconnectedFrom name), c).
Proof. intros H. unfold connected_only, ensure_connected. rewrite H. by eexists. Qed.

(** ** The queue *)

(** The queue is where it started: no current item, no history, no shuffle. *)
Definition unstarted (q : @PlaybackQueue.PlaybackQueue Controls.TrackInfo) : Prop :=
  PlaybackQueue.current_index q = None /\ PlaybackQueue.history q = [] /\ PlaybackQueue.shuffle_order q = None.
Definition idle_queue (c : AirPlayClient) : Prop := unstarted (queue c) /\ cs_track (current (state c)) = None.

Lemma unstarted_moves q : unstarted q -> PlaybackQueue.advance q = Ok (None, q) /\ PlaybackQueue.previous q = Ok (None, q).
Proof.
  destruct q. intros (H1 & H2 & H3). cbn in H1, H2, H3. by subst.
Qed.

Lemma unstarted_edits q : unstarted q -> (forall t i, unstarted (PlaybackQueue.add q t i) /\ unstarted (PlaybackQueue.add_next q t i)) /\
  (forall i, unstarted (snd (PlaybackQueue.remove q i))) /\ unstarted (PlaybackQueue.clear q) /\ unstarted (PlaybackQueue.unshuffle q).
Proof.
  intros (H1 & H2 & H3). split_and!.
  - intros t i. unfold unstarted, PlaybackQueue.add, PlaybackQueue.add_next, PlaybackQueue.insert. cbn. by rewrite H1, H2, H3.
  - intros i. unfold unstarted, PlaybackQueue.remove. destruct (PlaybackQueue.position_of q i); cbn; by rewrite H1, H2, H3.
  - split; [done|]. split; done.
  - split; [done|]. split; done.
Qed.

Lemma on_playback_idle {A} c (f : Controls.PlaybackController -> outcome Controls.ControlError A * Controls.PlaybackController) : idle_queue c -> idle_queue (snd (on_playback c f)).
Proof. unfold on_playback. by destruct (f _). Qed.
Lemma on_volume_idle {A} c (f : Controls.VolumeController -> outcome Controls.ControlError A * Controls.VolumeController) : idle_queue c -> idle_queue (snd (on_volume c f)).
Proof. unfold on_volume. by destruct (f _). Qed.
Lemma and_then_idle {A B} (m : outcome ClientError A * AirPlayClient) (k : A -> AirPlayClient -> outcome ClientError B * AirPlayClient) : idle_queue (snd m) ->
  (forall a c, idle_queue c -> idle_queue (snd (k a c))) -> idle_queue (snd (and_then m k)).
Proof. intros Hm Hk. destruct m as [[] c]; cbn in *; [by apply Hk|done..]. Qed.
Lemma connected_idle {A} c (body : AirPlayClient -> outcome ClientError A * AirPlayClient) : idle_queue c -> idle_queue (snd (body c)) -> idle_queue (snd (connected_only c body)).
Proof. intros H Hb. unfold connected_only. by destruct (ensure_connected c). Qed.
Lemma move_idle c : idle_queue c -> idle_queue (snd (queue_move PlaybackQueue.advance c)) /\ idle_queue (snd (queue_move PlaybackQueue.previous c)).
Proof. intros [Hq Ht]. destruct (unstarted_moves _ Hq) as [H1 H2]. unfold queue_move. rewrite H1, H2. done. Qed.

(** The client never plays from its queue. No call of the client makes an item of the
    queue the current one, so that, unless the queue is shuffled, whatever is added and
    however often [next] and [previous] are called, the queue stays before its first item
    and the client reports no track. *)
Theorem queue_never_starts (quote : list Z -> list Z) (l : Link) (ops : list ClientOp) (Ho : forall rng, OShuffle true rng ∉ ops) :
  let c := foldl (client_op quote) (Client_new l) ops in
  PlaybackQueue.current_index (queue c) = None /\ cs_track (current (state c)) = None.
Proof.
  cut (idle_queue (foldl (client_op quote) (Client_new l) ops)); [intros [(? & _) ?]; done|].
  assert (idle_queue (Client_new l)) as Hc by done. revert Hc. generalize (Client_new l).
  induction ops as [|o ops IH]; intros c Hc; [done|]. cbn [foldl].
  apply IH; [intros rng H; apply (Ho rng); by right|]. assert (forall rng, o <> OShuffle true rng) as Hn by (intros rng ->; apply (Ho rng); by left).
  clear IH Ho. pose proof Hc as [Hq Ht]. destruct (unstarted_edits _ Hq) as (He1 & He2 & He3 & He4).
  destruct o; cbn [client_op]; try (split; [apply He1 || apply He2 || done|done]);
    try (apply on_playback_idle; done); try (apply connected_idle; [done|apply on_playback_idle; done]);
    try (apply connected_idle; [done|apply and_then_idle; [first [by apply on_playback_idle|by apply on_volume_idle]|intros; first [by apply move_idle|done]]]).
  - unfold connect. by destruct (conn_connect _ _) as [[] ?].
  - unfold disconnect. destruct (conn_disconnect _ _) as [[] ?]; [|done..]. by destruct (device _).
  - unfold monitor_event. by destruct e.
  - unfold keep_alive. case_bool_decide; [|done]. destruct (conn_get _ _) as [[] ?]; try done. by destruct (conn_disconnect _ _).
  - apply connected_idle; [done|]. destruct enabled; [by destruct (Hn rng)|]. by apply on_playback_idle.
  - apply connected_idle; [done|]. destruct (streamer_for _ _ _ _ _ _ _); [|done..]. cbn zeta. by case_match.
  - apply connected_idle; [done|]. cbv beta zeta. destruct (UrlStream.url_play _ _) as [r u]. by apply and_then_idle.
  - apply connected_idle; [done|]. by destruct (send_command _ _ _ _).
Qed.

(** [play_tracks] replaces the queue: it holds the given tracks in their order, whether or
    not the device then accepts the first. *)
Lemma enqueue_tracks tracks : forall c fresh,
  map PlaybackQueue.track (PlaybackQueue.items (queue (enqueue c tracks fresh))) =
  map PlaybackQueue.track (PlaybackQueue.items (queue c)) ++ map Track_new tracks.
Proof.
  induction tracks as [|t tracks IH]; intros c fresh; cbn [enqueue map]; [by rewrite app_nil_r|].
  rewrite IH. cbn. by rewrite map_app, <- app_assoc.
Qed.
Lemma play_queue c : queue (snd (play c)) = queue c.
Proof.
  unfold play, connected_only. destruct (ensure_connected c); [|done..]. unfold on_playback. by destruct (Controls.play _) as [[] ?].
Qed.
Lemma play_url_queue c u : queue (snd (play_url c u)) = queue c.
Proof.
  unfold play_url, connected_only. destruct (ensure_connected c); [|done..]. cbv beta zeta. by destruct (UrlStream.url_play _ _) as [[] ?].
Qed.
Lemma play_tracks_queue (p : AirPlayPlayer) (tracks : list (list Z * list Z * list Z)) (fresh : Z) :
  map PlaybackQueue.track (PlaybackQueue.items (queue (client (snd (play_tracks p tracks fresh))))) = map Track_new tracks.
Proof.
  assert (map PlaybackQueue.track (PlaybackQueue.items (queue (enqueue (clear_queue (client p)) tracks fresh))) = map Track_new tracks) as He
    by apply enqueue_tracks.
  unfold play_tracks. destruct tracks as [|[[url t] a] ts].
  - pose proof (play_queue (enqueue (clear_queue (client p)) [] fresh)) as Hq. destruct (play _) as [r c]. cbn in *. by rewrite Hq.
  - pose proof (play_url_queue (enqueue (clear_queue (client p)) ((url, t, a) :: ts) fresh) url) as Hq. destruct (play_url _ _) as [r c].
    cbn [snd client with_client] in *. by rewrite Hq.
Qed.

(** ** Reconnecting *)
Definition last_id (p : AirPlayPlayer) : option (list Z) := Discovery.id <$> last_device p.

Lemma connect_ok c d c' : connect c d = (Ok tt, c') -> device (current (state c')) = Some d /\ exists es, events c' = es ++ [ClConnected d].
Proof. unfold connect. destruct (conn_connect _ _) as [[] ?]; [|done..]. intros [= <-]. split; [done|by eexists]. Qed.

Lemma attempt_spec p : let '(r, p') := attempt p in last_id p' = last_id p /\ is_reconnecting p' = is_reconnecting p /\
  (r = Ok Success -> device (current (state (client p'))) = last_device p' /\ last_device p' <> None).
Proof.
  unfold attempt, last_id. destruct (last_device p) as [d|] eqn:Hd; [|by rewrite Hd].
  destruct (connect (client p) d) as [[[]| |] c] eqn:Hc; [apply connect_ok in Hc as [Hc _]; cbn; by rewrite Hd, Hc| |cbn; by rewrite Hd].
  destruct (scan c) as [[devices| |] c2]; [|cbn; by rewrite Hd..].
  destruct (find _ devices) as [u|] eqn:Hf; [|cbn; by rewrite Hd]. apply find_some in Hf as [_ Hf%bool_decide_eq_true].
  destruct (connect c2 u) as [[[]| |] c3] eqn:Hc3; [apply connect_ok in Hc3 as [Hc3 _]|..]; cbn; by rewrite Hf, ?Hc3.
Qed.

(** The time slept before the [n]-th attempt. *)
Definition backoff (n : nat) : Z := foldr Z.add 0 (map (fun k => 2 ^ Z.of_nat (k `min` 4)) (seq 1 n)).

Lemma backoff_next n : backoff (S n) = backoff n + 2 ^ Z.of_nat (S n `min` 4).
Proof.
  assert (forall l x, foldr Z.add 0 (l ++ [x]) = foldr Z.add 0 l + x) as Hl by (intros l x; induction l; cbn; lia).
  unfold backoff. rewrite seq_S, map_app. cbn [map]. by rewrite Hl.
Qed.
Lemma backoff_mono n m : (n <= m)%nat -> 0 <= backoff n <= backoff m.
Proof.
  induction 1 as [|m Hle IH].
  - split; [|done]. induction n as [|n IH]; [done|]. rewrite backoff_next. assert (0 < 2 ^ Z.of_nat (S n `min` 4)) by (apply Z.pow_pos_nonneg; lia). lia.
  - rewrite backoff_next. assert (0 < 2 ^ Z.of_nat (S m `min` 4)) by (apply Z.pow_pos_nonneg; lia). lia.
Qed.

Lemma reconnect_loop_spec enabled : forall n slept p, (n <= 10)%nat ->
  let '(r, n', slept', p') := reconnect_loop enabled n slept p in
  (n <= n' <= 10)%nat /\ slept <= slept' <= slept + backoff n' - backoff n /\ last_id p' = last_id p /\ is_reconnecting p' = is_reconnecting p /\
  (r = Ok true -> device (current (state (client p'))) = last_device p' /\ last_device p' <> None).
Proof.
  induction enabled as [|[] enabled IH]; intros n slept p Hn; cbn [reconnect_loop]; try (split_and!; done || lia).
  unfold MAX_ATTEMPTS. destruct (Nat.ltb_spec n 10); [|split_and!; done || lia].
  pose proof (attempt_spec p) as Ha. destruct (attempt p) as [[[]|[]|] p'] eqn:Hp; destruct Ha as (H1 & H2 & H3);
    pose proof (backoff_next n); assert (0 < 2 ^ Z.of_nat (S n `min` 4)) by (apply Z.pow_pos_nonneg; lia); try (split_and!; try done; try lia; naive_solver).
  specialize (IH (S n) (slept + 2 ^ Z.of_nat (S n `min` 4)) p'). destruct (reconnect_loop _ _ _ _) as [[[r n'] slept'] p2].
  destruct IH as ((? & ?) & (? & ?) & ? & ? & ?); [lia|]. split_and!; try done; try lia; congruence.
Qed.

(** Reconnecting is bounded and goes to the same device. On a lost connection the
    player makes at most ten attempts and sleeps at most 128 seconds in between, in
    growing steps; it ends ready for the next loss; every attempt is for the device it was
    last connected to, possibly at a newly discovered address; and when it succeeds the
    client's device is that one. *)
Theorem reconnect_bounded (enabled : list bool) (p : AirPlayPlayer) (d : Discovery.AirPlayDevice) (reason : list Z) :
  match reconnect_event enabled p (ClDisconnected d reason) with
  | (None, p') => p' = p
  | (Some (r, n, slept), p') =>
      (n <= 10)%nat /\ 2 <= slept <= 128 /\ Discovery.id <$> last_device p' = Discovery.id <$> last_device p /\
      (r <> Panic -> is_reconnecting p' = false) /\
      (r = Ok true -> exists u, last_device p' = Some u /\ device (current (state (client p'))) = Some u)
  end.
Proof.
  unfold reconnect_event. destruct (negb _ || _); [done|]. destruct (is_reconnecting p); [done|].
  pose proof (reconnect_loop_spec enabled 0 2 (with_reconnecting p true) (Nat.le_0_l 10)) as H.
  destruct (reconnect_loop _ _ _ _) as [[[r n] slept] p']. destruct H as ((_ & Hn) & Hs & Hl & Hr & Hd).
  pose proof (backoff_mono n 10 Hn) as [_ Hb]. change (backoff 10) with 126 in Hb. change (backoff 0) with 0 in Hs.
  destruct r as [[]|[]|]; split_and!; try done; try lia; try exact Hl; intros; try done.
  destruct (Hd eq_refl) as [H1 H2]. cbn. rewrite H1. destruct (last_device p') as [u|]; [by exists u|done].
Qed.

(** ** The AirPlay 2 session of client/session.rs *)
Record AirPlay2SessionImpl := mkAirPlay2 { a2_client : AirPlayClient; a2_device : Discovery.AirPlayDevice }.
Definition AirPlay2_new (d : Discovery.AirPlayDevice) (l : Link) : AirPlay2SessionImpl := mkAirPlay2 (Client_new l) d.
Definition on_client {A} (s : AirPlay2SessionImpl) (f : AirPlayClient -> outcome ClientError A * AirPlayClient) : outcome ClientError A * AirPlay2SessionImpl :=
  match f (a2_client s) with (r, c) => (r, mkAirPlay2 c (a2_device s)) end.
Definition a2_connect (s : AirPlay2SessionImpl) : outcome ClientError unit * AirPlay2SessionImpl := on_client s (fun c => connect c (a2_device s)).
Definition a2_disconnect (s : AirPlay2SessionImpl) : outcome ClientError unit * AirPlay2SessionImpl := on_client s disconnect.
Definition a2_is_connected (s : AirPlay2SessionImpl) : bool := true.
Definition a2_play (s : AirPlay2SessionImpl) : outcome ClientError unit * AirPlay2SessionImpl := on_client s play.
Definition a2_pause (s : AirPlay2SessionImpl) : outcome ClientError unit * AirPlay2SessionImpl := on_client s pause.
Definition a2_stop (s : AirPlay2SessionImpl) : outcome ClientError unit * AirPlay2SessionImpl := on_client s stop.
Definition a2_set_volume (s : AirPlay2SessionImpl) (v : Z) : outcome ClientError unit * AirPlay2SessionImpl := on_client s (fun c => set_volume c v).
Definition a2_get_volume (s : AirPlay2SessionImpl) : Z := Controls.volume (volume_ctl (a2_client s)).
Definition a2_stream_audio (s : AirPlay2SessionImpl) (data : list Z) : outcome ClientError unit := Err (NotImplemented "raw byte streaming for AirPlay 2").
(** The duration in milliseconds; the tests decide before the cast, which makes 0 of
    what is not a number. *)
Definition duration_millis (secs : Z) : Z :=
  let ms := Float.mul F64 secs 0x408F400000000000 in
  match SpecFloat.SFcompare (Float.of_bits F64 ms) (Float.of_bits F64 0x41EFFFFFFFE00000) with
  | Some Eq | Some Gt => 2 ^ 32 - 1
  | _ => Float.trunc_to_uint F64 32 ms
  end.
Definition track_metadata (t : Controls.TrackInfo) : Dmap.TrackMetadata :=
  Dmap.mkMetadata (Some (Controls.t_title t)) (Some (Controls.t_artist t)) (Controls.t_album t) (Controls.t_genre t)
    (Controls.t_track_number t) (Controls.t_disc_number t) None (duration_millis <$> Controls.t_duration_secs t).
Definition a2_set_metadata (s : AirPlay2SessionImpl) (t : Controls.TrackInfo) : outcome ClientError unit * AirPlay2SessionImpl :=
  on_client s (fun c => set_metadata c (track_metadata t)).
Definition a2_set_artwork (s : AirPlay2SessionImpl) (data : list Z) : outcome ClientError unit * AirPlay2SessionImpl :=
  on_client s (fun c => set_artwork c data (match default Dmap.Jpeg (Dmap.detect data) with Dmap.Jpeg => "image/jpeg" | Dmap.Png => "image/png" end)).

(** Whatever the number of seconds, the duration fits its 32 bits. *)
Lemma duration_millis_u32 secs : uint 32 (duration_millis secs).
Proof.
  unfold duration_millis. repeat case_match; unfold uint; try lia; unfold Float.trunc_to_uint, Float.to_uint_by, Float.saturate;
    repeat case_match; unfold uint; lia.
Qed.
End WithConnection.

(** ** The unified client *)

(** The trait [AirPlaySession] and the two ways to make one. *)
Class AirPlaySession := {
  Session : Type; SessionError : Type;
  session_airplay2 : Discovery.AirPlayDevice -> Session;
  session_raop : Discovery.IpAddr -> Z -> Session;
  session_connect : Session -> outcome SessionError unit * Session;
  session_disconnect : Session -> outcome SessionError unit * Session;
  session_is_connected : Session -> bool;
  session_play : Session -> outcome SessionError unit * Session;
  session_pause : Session -> outcome SessionError unit * Session;
  session_stop : Session -> outcome SessionError unit * Session;
  session_set_volume : Session -> Z -> outcome SessionError unit * Session;
  session_stream_audio : Session -> list Z -> outcome SessionError unit * Session
}.

Section Unified.
Context {AS : AirPlaySession}.

Inductive UnifiedError := ConnectionFailed (e : Discovery.ProtocolError) | SessionFailed (e : SessionError) | NotConnected.

Record UnifiedAirPlayClient := mkUnified {
  preferred_protocol : Discovery.PreferredProtocol; session : option Session; u_device : option Discovery.AirPlayDevice; protocol : option Discovery.SelectedProtocol
}.
Definition Unified_with_config (p : Discovery.PreferredProtocol) : UnifiedAirPlayClient := mkUnified p None None None.

Definition unified_connect (u : UnifiedAirPlayClient) (d : Discovery.AirPlayDevice) : outcome UnifiedError unit * UnifiedAirPlayClient :=
  match Discovery.select_protocol d (preferred_protocol u) with
  | Ok p =>
      let s := match p with
               | Discovery.AirPlay2 => session_airplay2 d
               | Discovery.Raop => session_raop (Discovery.device_address d) (default 5000 (Discovery.raop_port d))
               end in
      match session_connect s with
      | (Ok _, s) => (Ok tt, mkUnified (preferred_protocol u) (Some s) (Some d) (Some p))
      | (Err e, _) => (Err (SessionFailed e), u)
      | (Panic, _) => (Panic, u)
      end
  | Err e => (Err (ConnectionFailed e), u)
  | Panic => (Panic, u)
  end.

Definition with_session (u : UnifiedAirPlayClient) (s : option Session) : UnifiedAirPlayClient := mkUnified (preferred_protocol u) s (u_device u) (protocol u).

Definition unified_disconnect (u : UnifiedAirPlayClient) : outcome UnifiedError unit * UnifiedAirPlayClient :=
  let closed := mkUnified (preferred_protocol u) None None None in
  match session u with
  | None => (Ok tt, closed)
  | Some s =>
      match session_disconnect s with
      | (Ok _, _) => (Ok tt, closed)
      | (Err e, s) => (Err (SessionFailed e), with_session u (Some s))
      | (Panic, s) => (Panic, with_session u (Some s))
      end
  end.
Definition unified_is_connected (u : UnifiedAirPlayClient) : bool := match session u with Some s => session_is_connected s | None => false end.

(** The calls that go to the session. *)
Definition on_session (u : UnifiedAirPlayClient) (f : Session -> outcome SessionError unit * Session) : outcome UnifiedError unit * UnifiedAirPlayClient :=
  match session u with
  | Some s => match f s with (r, s) => (map_err SessionFailed r, with_session u (Some s)) end
  | None => (Err NotConnected, u)
  end.
Definition unified_play (u : UnifiedAirPlayClient) : outcome UnifiedError unit * UnifiedAirPlayClient := on_session u session_play.
Definition unified_pause (u : UnifiedAirPlayClient) : outcome UnifiedError unit * UnifiedAirPlayClient := on_session u session_pause.
Definition unified_stop (u : UnifiedAirPlayClient) : outcome UnifiedError unit * UnifiedAirPlayClient := on_session u session_stop.
Definition unified_set_volume (u : UnifiedAirPlayClient) (v : Z) : outcome UnifiedError unit * UnifiedAirPlayClient := on_session u (fun s => session_set_volume s v).
Definition unified_stream_audio (u : UnifiedAirPlayClient) (data : list Z) : outcome UnifiedError unit * UnifiedAirPlayClient :=
  on_session u (fun s => session_stream_audio s data).

(** A second [connect] forgets the first session without closing it: the client after it
    does not depend on the session it had. *)
Lemma reconnect_forgets (u : UnifiedAirPlayClient) (s : Session) (d : Discovery.AirPlayDevice) (u' : UnifiedAirPlayClient) :
  unified_connect u d = (Ok tt, u') -> unified_connect (with_session u (Some s)) d = (Ok tt, u').
Proof.
  unfold unified_connect. cbn [with_session preferred_protocol]. destruct (Discovery.select_protocol _ _); [|done..].
  by destruct (session_connect _) as [[] ?].
Qed.
End Unified.

(** ** Witnesses *)

(** A connection whose commands succeed, and which loses its device when asked to. *)
#[local] Instance demo_link : CommandLink :=
  {| Link := ConnectionState; LinkError := unit; send_command l _ _ _ := (Ok [], l); send_post_command l _ _ _ := (Ok [], l); get_ptp_network_time _ := None |}.
#[local] Instance demo_connection : Connection :=
  {| conn_link := demo_link; conn_state l := l; conn_device _ := None; conn_connect _ _ := (Ok tt, Connected); conn_disconnect _ _ := (Ok tt, Disconnected);
     conn_get l _ := (Ok [], l); conn_scan l := (Ok [], l); link_error_text _ := [];
     conn_key _ := None; conn_ptp_active _ := false; conn_rate_anchor l _ := (Ok tt, l); conn_record l := (Ok tt, l) |}.
#[local] Existing Instance PcmStream.no_encoders.
#[local] Instance demo_log : Log10 := fun z => z.
#[local] Instance demo_floats : Floats := {| parse_f32 _ := None; parse_f64 _ := None; db_power z := z; show_f32 _ := bs "-15.000000" |}.

Definition demo_device : Discovery.AirPlayDevice :=
  Discovery.mkDevice (bs "id") (bs "Kitchen") None [] 7000 Features.Caps_default None None ∅ None.
Definition demo_track : Controls.TrackInfo := Controls.mkTrackInfo (bs "u") (bs "t") (bs "a") None None None None None None None.

(** [toggle_playback] starts the playback and leaves the client's state as it was. *)
Example toggle_unreported :
  let c := foldl (client_op id) (Client_new Disconnected) [OConnect demo_device; OToggle] in
  Controls.is_playing (Controls.state (playback c)) = true /\ Controls.is_playing (playback_st (current (state c))) = false.
Proof. by vm_compute. Qed.

(** The state's queue length, shuffle and repeat never change. *)
Example queue_length_unreported :
  let c := foldl (client_op id) (Client_new Disconnected) [OConnect demo_device; OAdd demo_track 1; ORepeat Controls.RepeatAll; OShuffle true id] in
  length (PlaybackQueue.items (queue c)) = 1%nat /\ queue_length (current (state c)) = 0%nat /\ cs_shuffle (current (state c)) = false /\
  cs_repeat (current (state c)) = Controls.RepeatOff.
Proof. by vm_compute. Qed.

(** [play_url] sets the one playing flag and not the other: a [toggle_playback] after it
    asks the device to play and not to pause. *)
Example url_unreported :
  let c := foldl (client_op id) (Client_new Disconnected) [OConnect demo_device; OPlayUrl (bs "http://a/b.mp3")] in
  Controls.is_playing (playback_st (current (state c))) = true /\ Controls.is_playing (Controls.state (playback c)) = false /\
  Controls.is_playing (Controls.state (playback (snd (toggle_playback c)))) = true.
Proof. by vm_compute. Qed.

(** A negative position makes the player panic. *)
Example negative_seek_panics : fst (player_seek (Player_new (Disconnected : @Link demo_link)) 0xBFF0000000000000) = Panic.
Proof. by vm_compute. Qed.

Lemma client_reports_playing_witness :
  let c := foldl (client_op id) (Client_new Disconnected) [OConnect demo_device; OPlay] in
  Controls.is_playing (playback_st (current (state c))) = true /\ watched (state c) = current (state c).
Proof.
  intros c. destruct (client_reports_playing (CO := demo_connection) id Disconnected [OConnect demo_device; OPlay]) as [H1 H2].
  - by repeat constructor.
  - split; [subst c; rewrite H1; by vm_compute|exact H2].
Defined.

Lemma queue_never_starts_witness :
  let c := foldl (client_op id) (Client_new Disconnected) [OConnect demo_device; OAdd demo_track 1; OAdd demo_track 2; ONext] in
  PlaybackQueue.current_index (queue c) = None /\ length (PlaybackQueue.items (queue c)) = 2%nat.
Proof.
  intros c. destruct (queue_never_starts (CO := demo_connection) id Disconnected [OConnect demo_device; OAdd demo_track 1; OAdd demo_track 2; ONext]) as [H1 H2].
  - intros rng. rewrite !not_elem_of_cons. split_and!; [done|done|done|done|apply not_elem_of_nil].
  - split; [exact H1|by vm_compute].
Defined.

End Client.
