(* ===== verification/ConnLink.v ===== *)
(** * The connection manager: exchange, pairing, authentication

    Models the first half of [src/connection/manager.rs]: the manager's state, its RTSP
    and pairing exchanges over one TCP stream, the commands, and the ways to authenticate.
    It joins the modelled request loop ([RtspClient]), session ([ClientSession]), pairing
    ([PairSetup], [PairVerify]) and block encryption ([Hap]).

    The network, the clocks and the random numbers answer the manager's questions, in the
    order in which they are asked: class [Net].  A stream is what it will deliver and what
    was written; a read of a stream that delivers nothing more and is not closed does not
    return ([Blocked]), which only the time-out of [connect] ends.  Statistics and logging
    are left out. *)

From stdpp Require Import gmap pretty.
From S2P Require Import Bytes Text Unicode Rtsp RtspParser Plist Aead Srp KeyCrypto PairSetup Hap PairVerify RtspClient Ptp PtpClock Features RaopSession Sdp.
From S2P Require Import RaopServer RaopClient ClientSession Discovery AudioFormat Client.

(** An operation of a component with state [S] that can stop with an [E]: what it changed
    before it stopped stays changed. *)
Declare Scope op_scope.
Delimit Scope op_scope with op.

Module ConnLink.
Import Unicode Rtsp RtspParser.
#[local] Existing Instance Client.ConnectionState_eq_dec.

(** ** Data *)
Inductive TimingProtocol := Ntp | PtpTiming | Auto.
Record Config := mkConfig { audio_codec : AudioFormat.AudioCodec; prefer_hires_audio : bool; pin : option (list Z); timing_protocol : TimingProtocol }.

(** [silent]: after the reads nothing more comes, and the peer does not close either. *)
Record TcpStream := mkTcp { reads : list (list Z); silent : bool; write_error : option string; written : list (list Z) }.
(** The sockets by their local ports and what was sent. *)
Record UdpSockets := mkSockets {
  audio_port : Z; control_port : Z; timing_port : Z; server_audio_port : Z; server_control_port : Z; server_timing_port : Z;
  audio_sent : list (list Z); control_sent : list (list Z)
}.

Record Manager := mkManager {
  config : Config; m_state : Client.ConnectionState; m_device : option Discovery.AirPlayDevice; stream : option TcpStream; sockets : option UdpSockets; rtsp_session : option ClientSession.RtspSession; codec : RtspClient.RtspCodec; session_keys : option PairSetup.SessionKeys; secure_session : option Hap.HapSecureSession; m_events : list Client.ConnectionEvent; pairing_storage : option (gmap (list Z) PairVerify.PairingKeys); ptp_clock : option PtpClock.PtpClock; shutdown : bool; ptp_active : bool; device_clock_id : option Z; ntp_offset : Z; time_announce_count : Z; event_task : bool; audio_tcp : option TcpStream; drop_packets : list Z; asked : nat
}.
Definition set_state (m : Manager) (x : Client.ConnectionState) : Manager := mkManager (config m) x (m_device m) (stream m) (sockets m) (rtsp_session m) (codec m) (session_keys m) (secure_session m) (m_events m) (pairing_storage m) (ptp_clock m) (shutdown m) (ptp_active m) (device_clock_id m) (ntp_offset m) (time_announce_count m) (event_task m) (audio_tcp m) (drop_packets m) (asked m).
Definition set_device (m : Manager) (x : option Discovery.AirPlayDevice) : Manager := mkManager (config m) (m_state m) x (stream m) (sockets m) (rtsp_session m) (codec m) (session_keys m) (secure_session m) (m_events m) (pairing_storage m) (ptp_clock m) (shutdown m) (ptp_active m) (device_clock_id m) (ntp_offset m) (time_announce_count m) (event_task m) (audio_tcp m) (drop_packets m) (asked m).
Definition set_stream (m : Manager) (x : option TcpStream) : Manager := mkManager (config m) (m_state m) (m_device m) x (sockets m) (rtsp_session m) (codec m) (session_keys m) (secure_session m) (m_events m) (pairing_storage m) (ptp_clock m) (shutdown m) (ptp_active m) (device_clock_id m) (ntp_offset m) (time_announce_count m) (event_task m) (audio_tcp m) (drop_packets m) (asked m).
Definition set_sockets (m : Manager) (x : option UdpSockets) : Manager := mkManager (config m) (m_state m) (m_device m) (stream m) x (rtsp_session m) (codec m) (session_keys m) (secure_session m) (m_events m) (pairing_storage m) (ptp_clock m) (shutdown m) (ptp_active m) (device_clock_id m) (ntp_offset m) (time_announce_count m) (event_task m) (audio_tcp m) (drop_packets m) (asked m).
Definition set_rtsp_session (m : Manager) (x : option ClientSession.RtspSession) : Manager := mkManager (config m) (m_state m) (m_device m) (stream m) (sockets m) x (codec m) (session_keys m) (secure_session m) (m_events m) (pairing_storage m) (ptp_clock m) (shutdown m) (ptp_active m) (device_clock_id m) (ntp_offset m) (time_announce_count m) (event_task m) (audio_tcp m) (drop_packets m) (asked m).
Definition set_codec (m : Manager) (x : RtspClient.RtspCodec) : Manager := mkManager (config m) (m_state m) (m_device m) (stream m) (sockets m) (rtsp_session m) x (session_keys m) (secure_session m) (m_events m) (pairing_storage m) (ptp_clock m) (shutdown m) (ptp_active m) (device_clock_id m) (ntp_offset m) (time_announce_count m) (event_task m) (audio_tcp m) (drop_packets m) (asked m).
Definition set_session_keys (m : Manager) (x : option PairSetup.SessionKeys) : Manager := mkManager (config m) (m_state m) (m_device m) (stream m) (sockets m) (rtsp_session m) (codec m) x (secure_session m) (m_events m) (pairing_storage m) (ptp_clock m) (shutdown m) (ptp_active m) (device_clock_id m) (ntp_offset m) (time_announce_count m) (event_task m) (audio_tcp m) (drop_packets m) (asked m).
Definition set_secure_session (m : Manager) (x : option Hap.HapSecureSession) : Manager := mkManager (config m) (m_state m) (m_device m) (stream m) (sockets m) (rtsp_session m) (codec m) (session_keys m) x (m_events m) (pairing_storage m) (ptp_clock m) (shutdown m) (ptp_active m) (device_clock_id m) (ntp_offset m) (time_announce_count m) (event_task m) (audio_tcp m) (drop_packets m) (asked m).
Definition set_events (m : Manager) (x : list Client.ConnectionEvent) : Manager := mkManager (config m) (m_state m) (m_device m) (stream m) (sockets m) (rtsp_session m) (codec m) (session_keys m) (secure_session m) x (pairing_storage m) (ptp_clock m) (shutdown m) (ptp_active m) (device_clock_id m) (ntp_offset m) (time_announce_count m) (event_task m) (audio_tcp m) (drop_packets m) (asked m).
Definition set_pairing_storage (m : Manager) (x : option (gmap (list Z) PairVerify.PairingKeys)) : Manager := mkManager (config m) (m_state m) (m_device m) (stream m) (sockets m) (rtsp_session m) (codec m) (session_keys m) (secure_session m) (m_events m) x (ptp_clock m) (shutdown m) (ptp_active m) (device_clock_id m) (ntp_offset m) (time_announce_count m) (event_task m) (audio_tcp m) (drop_packets m) (asked m).
Definition set_ptp_clock (m : Manager) (x : option PtpClock.PtpClock) : Manager := mkManager (config m) (m_state m) (m_device m) (stream m) (sockets m) (rtsp_session m) (codec m) (session_keys m) (secure_session m) (m_events m) (pairing_storage m) x (shutdown m) (ptp_active m) (device_clock_id m) (ntp_offset m) (time_announce_count m) (event_task m) (audio_tcp m) (drop_packets m) (asked m).
Definition set_shutdown (m : Manager) (x : bool) : Manager := mkManager (config m) (m_state m) (m_device m) (stream m) (sockets m) (rtsp_session m) (codec m) (session_keys m) (secure_session m) (m_events m) (pairing_storage m) (ptp_clock m) x (ptp_active m) (device_clock_id m) (ntp_offset m) (time_announce_count m) (event_task m) (audio_tcp m) (drop_packets m) (asked m).
Definition set_ptp_active (m : Manager) (x : bool) : Manager := mkManager (config m) (m_state m) (m_device m) (stream m) (sockets m) (rtsp_session m) (codec m) (session_keys m) (secure_session m) (m_events m) (pairing_storage m) (ptp_clock m) (shutdown m) x (device_clock_id m) (ntp_offset m) (time_announce_count m) (event_task m) (audio_tcp m) (drop_packets m) (asked m).
Definition set_device_clock_id (m : Manager) (x : option Z) : Manager := mkManager (config m) (m_state m) (m_device m) (stream m) (sockets m) (rtsp_session m) (codec m) (session_keys m) (secure_session m) (m_events m) (pairing_storage m) (ptp_clock m) (shutdown m) (ptp_active m) x (ntp_offset m) (time_announce_count m) (event_task m) (audio_tcp m) (drop_packets m) (asked m).
Definition set_ntp_offset (m : Manager) (x : Z) : Manager := mkManager (config m) (m_state m) (m_device m) (stream m) (sockets m) (rtsp_session m) (codec m) (session_keys m) (secure_session m) (m_events m) (pairing_storage m) (ptp_clock m) (shutdown m) (ptp_active m) (device_clock_id m) x (time_announce_count m) (event_task m) (audio_tcp m) (drop_packets m) (asked m).
Definition set_time_announce_count (m : Manager) (x : Z) : Manager := mkManager (config m) (m_state m) (m_device m) (stream m) (sockets m) (rtsp_session m) (codec m) (session_keys m) (secure_session m) (m_events m) (pairing_storage m) (ptp_clock m) (shutdown m) (ptp_active m) (device_clock_id m) (ntp_offset m) x (event_task m) (audio_tcp m) (drop_packets m) (asked m).
Definition set_event_task (m : Manager) (x : bool) : Manager := mkManager (config m) (m_state m) (m_device m) (stream m) (sockets m) (rtsp_session m) (codec m) (session_keys m) (secure_session m) (m_events m) (pairing_storage m) (ptp_clock m) (shutdown m) (ptp_active m) (device_clock_id m) (ntp_offset m) (time_announce_count m) x (audio_tcp m) (drop_packets m) (asked m).
Definition set_audio_tcp (m : Manager) (x : option TcpStream) : Manager := mkManager (config m) (m_state m) (m_device m) (stream m) (sockets m) (rtsp_session m) (codec m) (session_keys m) (secure_session m) (m_events m) (pairing_storage m) (ptp_clock m) (shutdown m) (ptp_active m) (device_clock_id m) (ntp_offset m) (time_announce_count m) (event_task m) x (drop_packets m) (asked m).
Definition set_drop_packets (m : Manager) (x : list Z) : Manager := mkManager (config m) (m_state m) (m_device m) (stream m) (sockets m) (rtsp_session m) (codec m) (session_keys m) (secure_session m) (m_events m) (pairing_storage m) (ptp_clock m) (shutdown m) (ptp_active m) (device_clock_id m) (ntp_offset m) (time_announce_count m) (event_task m) (audio_tcp m) x (asked m).
Definition set_asked (m : Manager) (x : nat) : Manager := mkManager (config m) (m_state m) (m_device m) (stream m) (sockets m) (rtsp_session m) (codec m) (session_keys m) (secure_session m) (m_events m) (pairing_storage m) (ptp_clock m) (shutdown m) (ptp_active m) (device_clock_id m) (ntp_offset m) (time_announce_count m) (event_task m) (audio_tcp m) (drop_packets m) x.
Definition Manager_new (c : Config) : Manager :=
  mkManager c Client.Disconnected None None None None RtspClient.codec_new None None [] None None false false None 0 0 false None [] 0.
(** [with_pairing_storage]. *)
Definition storing (m : Manager) (s : gmap (list Z) PairVerify.PairingKeys) : Manager := set_pairing_storage m (Some s).
Definition encryption_key (m : Manager) : option (list Z) := PairSetup.raw_shared_secret <$> session_keys m.

(** ** Errors *)

(** The errors of the manager: [Air] are those the request exchange returns;
    [PairingFailed] is an [AuthenticationFailed] and [EncodeFailed] an [RtspError], each
    with the error its message shows; [NetworkError] is what an I/O error becomes under
    [?]. *)
Inductive ConnError :=
| Air (e : Hap.AirPlayError)
| InvalidState (message current_state : string)
| PairingFailed (e : PairSetup.PairingError)
| ConnectionFailed (device_name : list Z) (message : string)
| InvalidParameter (name message : string)
| InternalError (message : string)
| EncodeFailed (what : string) (e : Plist.PlistEncodeError)
| IoError (message : string)
| NetworkError (message : string)
| ConnectionTimeout.
Definition auth_failed (message : string) : ConnError := Air (Hap.AuthenticationFailed message false).
Definition rtsp_error (message : string) (status : option Z) : ConnError := Air (Hap.RtspError message status).

Definition is_recoverable (e : ConnError) : bool :=
  match e with
  | Air (Hap.AuthenticationFailed _ recoverable) => recoverable
  | ConnectionTimeout | NetworkError _ => true
  | _ => false
  end.

(** ** Operations *)
Inductive Stop := Failure (e : ConnError) | Blocked.
Definition op (A : Type) : Type := Manager -> outcome Stop A * Manager.
Definition ret {A} (a : A) : op A := fun m => (Ok a, m).
Definition bind {A B} (x : op A) (f : A -> op B) : op B := fun m =>
  match x m with
  | (Ok a, m) => f a m
  | (Err e, m) => (Err e, m)
  | (Panic, m) => (Panic, m)
  end.
Notation "x <- e ;; k" := (bind e (fun x => k)) (at level 100, e at next level, right associativity) : op_scope.
Definition fail {A} (e : ConnError) : op A := fun m => (Err (Failure e), m).
Definition lift {A} (r : outcome Stop A) : op A := fun m => (r, m).
Definition gets {A} (f : Manager -> A) : op A := fun m => (Ok (f m), m).
Definition modify (f : Manager -> Manager) : op unit := fun m => (Ok tt, f m).
(** A [Result] that is looked at: only what blocks or panics goes past. *)
Definition catch {A} (x : op A) : op (A + ConnError) := fun m =>
  match x m with
  | (Ok a, m) => (Ok (inl a), m)
  | (Err (Failure e), m) => (Ok (inr e), m)
  | (Err Blocked, m) => (Err Blocked, m)
  | (Panic, m) => (Panic, m)
  end.

Inductive TcpAnswer := Opened (s : TcpStream) | Refused (message : string) | NoAnswer.

(** The surroundings; the number says how many questions were asked before. *)
Class Net := {
  tcp_connect : nat -> Discovery.IpAddr -> Z -> TcpAnswer;
  local_addr : nat -> option string;
  udp_bind : nat -> string -> outcome string Z;
  udp_connect : nat -> Discovery.IpAddr -> Z -> option string;
  udp_send : nat -> option string;
  ntp_query : nat -> option Z;
  random_bytes : nat -> nat -> list Z;
  random_number : nat -> Z;
  session_ids : nat -> string * string;
  wall_clock : nat -> Ptp.PtpTimestamp;
  monotonic : nat -> Z;
  eld_encoder : option (option (list Z) * option Z);
  dict_order : list (list Z * Plist.PlistValue) -> list (list Z * Plist.PlistValue);
  show_ip : Discovery.IpAddr -> string;
  show_error : ConnError -> list Z
}.

Definition ask : op nat := fun m => (Ok (asked m), set_asked m (S (asked m))).

(** ** State and events *)
Definition send_event (e : Client.ConnectionEvent) : op unit := modify (fun m => set_events m (m_events m ++ [e])).
Definition set_conn_state (new : Client.ConnectionState) : op unit := fun m =>
  let old := m_state m in
  let m := set_state m new in
  if bool_decide (old = new) then (Ok tt, m) else send_event (Client.StateChanged old new) m.

(** ** What an operation may change *)
Definition keeps {X} (R : Manager -> Manager -> Prop) (x : op X) : Prop := forall m, R m (snd (x m)).

Section Keeps.
Context (R : Manager -> Manager -> Prop) {PO : PreOrder R}.

Lemma keeps_pure {X} (x : op X) : (forall m, snd (x m) = m) -> keeps R x.
Proof. intros H m. by rewrite H. Qed.
Lemma keeps_ret {X} (a : X) : keeps R (ret a).
Proof. by apply keeps_pure. Qed.
Lemma keeps_fail {X} e : keeps R (fail (A := X) e).
Proof. by apply keeps_pure. Qed.
Lemma keeps_lift {X} (r : outcome Stop X) : keeps R (lift r).
Proof. by apply keeps_pure. Qed.
Lemma keeps_gets {X} (f : Manager -> X) : keeps R (gets f).
Proof. by apply keeps_pure. Qed.
Lemma keeps_modify f : (forall m, R m (f m)) -> keeps R (modify f).
Proof. intros H m. apply H. Qed.
Lemma keeps_bind {X Y} (x : op X) (f : X -> op Y) : keeps R x -> (forall a, keeps R (f a)) -> keeps R (bind x f).
Proof.
  intros Hx Hf m. unfold bind. specialize (Hx m). destruct (x m) as [[a|e|] m']; cbn in *; [|done..]. transitivity m'; [done|apply Hf].
Qed.
Lemma keeps_catch {X} (x : op X) : keeps R x -> keeps R (catch x).
Proof. intros Hx m. unfold catch. specialize (Hx m). by destruct (x m) as [[a|[e|]|] m']. Qed.
End Keeps.

Create HintDb conn.
#[export] Hint Resolve keeps_ret keeps_fail keeps_lift keeps_gets keeps_catch : conn.

(** Goes through the parts of an operation. *)
Ltac keep_parts :=
  repeat lazymatch goal with
    | |- forall _, _ => intro
    | |- keeps _ (bind _ _) => apply keeps_bind; [typeclasses eauto| |]
    | |- keeps _ (catch _) => apply keeps_catch
    | |- keeps _ (modify _) => apply keeps_modify
    | |- keeps _ (match ?x with _ => _ end) => destruct x
    | |- keeps _ _ => solve [eauto with conn typeclass_instances]
    end.

(** What the exchange with the device leaves alone, and what it keeps open. *)
Definition rest (m : Manager) :=
  (config m, m_state m, m_device m, sockets m, session_keys m, m_events m, pairing_storage m, ptp_clock m,
   (shutdown m, ptp_active m, device_clock_id m, ntp_offset m, time_announce_count m, event_task m, audio_tcp m, drop_packets m)).
Definition opened (m m' : Manager) : Prop := (is_Some (stream m) -> is_Some (stream m')) /\ (is_Some (rtsp_session m) -> is_Some (rtsp_session m')).
Definition link_only (m m' : Manager) : Prop := rest m' = rest m /\ opened m m'.
Definition pair_only (m m' : Manager) : Prop :=
  (codec m', secure_session m', rtsp_session m') = (codec m, secure_session m, rtsp_session m) /\ link_only m m'.

#[export] Instance opened_preorder : PreOrder opened.
Proof. split; [done|]. intros a b c [] []. split; auto. Qed.
#[export] Instance link_only_preorder : PreOrder link_only.
Proof. split; [done|]. intros a b c [E1 ?] [E2 ?]. split; [congruence|]. by transitivity b. Qed.
#[export] Instance pair_only_preorder : PreOrder pair_only.
Proof. split; [done|]. intros a b c [E1 ?] [E2 ?]. split; [congruence|]. by transitivity b. Qed.

(** The state and the events stay, and nothing that is there is given up. *)
Definition live (m : Manager) := (config m, m_state m, m_device m, m_events m).
Definition grows (m m' : Manager) : Prop := live m' = live m /\ opened m m' /\ (is_Some (session_keys m) -> is_Some (session_keys m')).
#[export] Instance grows_preorder : PreOrder grows.
Proof. split; [done|]. intros a b c (E1 & ? & ?) (E2 & ? & ?). split; [congruence|]. split; [by transitivity b|auto]. Qed.
Lemma link_grows m m' : link_only m m' -> grows m m'.
Proof. intros [E Ho]. unfold rest in E. injection E as E. split; [unfold live; congruence|]. split; [done|]. congruence. Qed.
Lemma keeps_grows {X} (x : op X) : keeps link_only x -> keeps grows x.
Proof. intros H m. apply link_grows, H. Qed.
Lemma keeps_weaken {X} (x : op X) : keeps pair_only x -> keeps grows x.
Proof. intros H m. apply link_grows, H. Qed.

(** An operation that succeeded, in parts. *)
Lemma op_bind_ok {X Y} (x : op X) (f : X -> op Y) m b m' : bind x f m = (Ok b, m') -> exists a m1, x m = (Ok a, m1) /\ f a m1 = (Ok b, m').
Proof. unfold bind. destruct (x m) as [[a|e|] m1]; [by eauto|done..]. Qed.
Lemma catch_ok {X} (x : op X) m r m' : catch x m = (Ok r, m') -> match r with inl a => x m = (Ok a, m') | inr e => x m = (Err (Failure e), m') end.
Proof. unfold catch. destruct (x m) as [[a|[e|]|] m1]; by intros [= <- <-]. Qed.
Lemma keeps_run {X} (R : Manager -> Manager -> Prop) (x : op X) m r m' : keeps R x -> x m = (r, m') -> R m m'.
Proof. intros H E. specialize (H m). by rewrite E in H. Qed.

Section WithCrypto.
Context {A : AeadCipher} {SH : Sha512} {P : PairCrypto} {O : HashOrder} {N : Net}.
Open Scope op_scope.

(** ** RTSP requests *)

(** A request of the session. *)
Definition with_session {X} (f : ClientSession.RtspSession -> outcome Stop (X * ClientSession.RtspSession)) : op X := fun m =>
  match rtsp_session m with
  | None => (Err (Failure (InvalidState "No RTSP session" "None")), m)
  | Some s => match f s with Ok (x, s) => (Ok x, set_rtsp_session m (Some s)) | Err e => (Err e, m) | Panic => (Panic, m) end
  end.

(** Nothing was left to read, although the peer had not closed. *)
Definition ran_dry (t : TcpStream) (rest : list (list Z)) (e : Hap.AirPlayError) : bool :=
  silent t && forallb (fun r => negb (bool_decide (r = []))) (reads t) && bool_decide (rest = []) &&
  match e with Hap.Disconnected _ => true | _ => false end.

Definition send_rtsp_request (r : RtspRequest) : op RtspResponse := fun m =>
  match stream m with
  | None => (Err (Failure (Air (Hap.Disconnected "unknown"))), m)
  | Some t =>
      match write_error t with
      | Some e =>
          match secure_session m with
          | Some s =>
              match Hap.encrypt s (request_encode r) with
              | (Ok _, s) => (Err (Failure (NetworkError e)), set_secure_session m (Some s))
              | (Err x, s) => (Err (Failure (Air x)), set_secure_session m (Some s))
              | (Panic, s) => (Panic, set_secure_session m (Some s))
              end
          | None => (Err (Failure (NetworkError e)), m)
          end
      | None =>
          let '(bytes, res, conn, rest) := RtspClient.send_rtsp_request (RtspClient.mkConnection (secure_session m) (codec m)) r (reads t) in
          let t' := mkTcp rest (silent t) (write_error t) (written t ++ [bytes]) in
          (match res with
           | Ok x => Ok x
           | Err e => Err (if ran_dry t rest e then Blocked else Failure (Air e))
           | Panic => Panic
           end,
           set_stream (set_secure_session (set_codec m (RtspClient.rtsp_codec conn)) (RtspClient.secure_session conn)) (Some t'))
      end
  end.

(** [process_response], when there still is a session. *)
Definition processed (meth : Method) (r : RtspResponse) : op unit := fun m =>
  match rtsp_session m with
  | None => (Ok tt, m)
  | Some s =>
      match ClientSession.process_response s meth r with
      | (Ok _, s) => (Ok tt, set_rtsp_session m (Some s))
      | (Err e, s) => (Err (Failure (rtsp_error e (Some (status r)))), set_rtsp_session m (Some s))
      | (Panic, s) => (Panic, set_rtsp_session m (Some s))
      end
  end.

Definition send_options : op unit :=
  r <- with_session ClientSession.options_request;;
  x <- send_rtsp_request r;;
  s <- gets rtsp_session;;
  match s with
  | None => fail (InvalidState "RTSP session closed during OPTIONS request" "Disconnected")
  | Some _ => processed Options x
  end.

Definition plist_type : string := "application/x-apple-binary-plist".
Definition send_command (meth : Method) (body : option (list Z)) (content_type : option string) : op (list Z) :=
  let b := default [] body in
  let t := default plist_type content_type in
  r <- with_session (fun s =>
         match meth with
         | Play => ClientSession.play_request s t b
         | SetParameter => ClientSession.set_parameter_request s t b
         | GetParameter => ClientSession.get_parameter_request s content_type body
         | Flush => ClientSession.flush_request s 0 0
         | Teardown => ClientSession.teardown_request s
         | Pause => ClientSession.pause_request s
         | SetRateAnchorTime => ClientSession.set_rate_anchor_time_request s t b
         | _ => Err (Failure (InvalidParameter "method" ("Unsupported method for send_command: " +:+ Method_as_str meth)))
         end);;
  x <- send_rtsp_request r;;
  _ <- processed meth x;;
  ret (resp_body x).
Definition send_post_command (path : string) (body : option (list Z)) (content_type : option string) : op (list Z) :=
  r <- with_session (fun s => ClientSession.post_request s path (default plist_type content_type) (default [] body));;
  x <- send_rtsp_request r;;
  _ <- processed Post x;;
  ret (resp_body x).
Definition send_get_command (path : string) : op (list Z) :=
  r <- with_session (fun s => ClientSession.get_request s path);;
  x <- send_rtsp_request r;;
  ret (resp_body x).
Definition record : op unit :=
  r <- with_session ClientSession.record_request;;
  x <- send_rtsp_request r;;
  if RaopClient.is_success x then ret tt
  else fail (rtsp_error ("RECORD failed with status " +:+ pretty (status x) +:+ ": " +:+ reason x) (Some (status x))).
Definition send_flush (seq timestamp : Z) : op unit :=
  r <- with_session (fun s => ClientSession.flush_request s seq timestamp);;
  _ <- send_rtsp_request r;;
  ret tt.

(** ** Pairing messages *)

(** Reads of at most [n] bytes. *)
Definition chop (n : nat) (rs : list (list Z)) : list (list Z) :=
  concat (map (fun r => if bool_decide (r = []) then [[]] else chunks n r) rs).
(** What ends a read: the peer closes, or nothing comes. *)
Definition at_end (t : TcpStream) (closed : ConnError) : Stop := if silent t then Blocked else Failure closed.

(** Until the blank line: the bytes read, where the body starts, and the reads left. *)
Fixpoint read_head (t : TcpStream) (buf : list Z) (rs : list (list Z)) : outcome Stop (list Z * nat) * list (list Z) :=
  let closed := rtsp_error "Connection closed while reading headers" None in
  match rs with
  | [] => (Err (at_end t closed), [])
  | r :: rs =>
      if bool_decide (r = []) then (Err (Failure closed), rs)
      else
        let start_search := (length buf - 3)%nat in
        let buf := buf ++ r in
        match position blank_line (drop start_search buf) with
        | Some pos => (Ok (buf, (start_search + pos + 4)%nat), rs)
        | None =>
            if (Z.of_nat (length buf) <=? 4096) then read_head t buf rs
            else (Err (Failure (rtsp_error "Headers too large" None)), rs)
        end
  end.
(** [read_exact]. *)
Fixpoint read_exact (t : TcpStream) (n : nat) (rs : list (list Z)) : outcome Stop (list Z) * list (list Z) :=
  match n with
  | 0%nat => (Ok [], rs)
  | _ =>
      match rs with
      | [] => (Err (at_end t (NetworkError "early eof")), [])
      | r :: rs =>
          if bool_decide (r = []) then (Err (Failure (NetworkError "early eof")), rs)
          else if (n <? length r)%nat then (Ok (take n r), drop n r :: rs)
          else match read_exact t (n - length r) rs with (x, rs) => (d ← x; Ok (r ++ d), rs) end
      end
  end.
(** The last [Content-Length]; one that is not a number counts as 0. *)
Definition content_length_line (len : Z) (line : list Z) : Z :=
  let value (rest : list Z) := default 0 (parse_uint 64 (of_chars (trim rest))) in
  match RaopSession.strip_prefix (bs "Content-Length:") line with
  | Some rest => value rest
  | None => match RaopSession.strip_prefix (bs "content-length:") line with Some rest => value rest | None => len end
  end.
Definition content_length (head : list Z) : Z := foldl content_length_line 0 (lines head).

Definition pairing_request (m : Manager) (path : string) (len : nat) : string :=
  let nl := RtspParser.of_chars [13; 10] in
  let host := match m_device m with
              | Some d => show_ip (Discovery.device_address d) +:+ ":" +:+ pretty (Discovery.port d)
              | None => "127.0.0.1:7000"
              end in
  let '(device, session, agent) :=
    match rtsp_session m with
    | Some s => (ClientSession.device_id s, ClientSession.client_session_id s, ClientSession.user_agent s)
    | None => ("", "", "AirPlay/540.31")
    end in
  "POST " +:+ path +:+ " HTTP/1.1" +:+ nl +:+ "Host: " +:+ host +:+ nl +:+ "Content-Type: application/octet-stream" +:+ nl +:+
  "Content-Length: " +:+ pretty (Z.of_nat len) +:+ nl +:+ "User-Agent: " +:+ agent +:+ nl +:+ "Active-Remote: 4294967295" +:+ nl +:+
  "X-Apple-Client-Name: airplay2-rs" +:+ nl +:+
  (if bool_decide (device = "") then "" else "DACP-ID: " +:+ device +:+ nl +:+ "X-Apple-Device-ID: " +:+ device +:+ nl) +:+
  (if bool_decide (session = "") then "" else "X-Apple-Session-ID: " +:+ session +:+ nl) +:+
  (if String.prefix "/pair-setup" path || String.prefix "/pair-verify" path then "X-Apple-HKP: 4" +:+ nl else "") +:+ nl.

(** The reply on the stream; what came behind the body in the same read is dropped. *)
Definition read_reply (t : TcpStream) : outcome Stop (list Z) * list (list Z) :=
  match read_head t [] (chop 1024 (reads t)) with
  | (Ok (buf, body_start), rs) =>
      match from_utf8 (take body_start buf) with
      | None => (Err (Failure (rtsp_error "Invalid UTF-8 in headers" None)), rs)
      | Some head =>
          let len := content_length head in
          if 2 ^ 63 <=? len then (Panic, rs)
          else
            let body := take (Z.to_nat len) (drop body_start buf) in
            match read_exact t (Z.to_nat len - length body) rs with (x, rs) => (d ← x; Ok (body ++ d), rs) end
      end
  | (Err e, rs) => (Err e, rs)
  | (Panic, rs) => (Panic, rs)
  end.
Definition send_pairing_data (data : list Z) (path : string) : op (list Z) := fun m =>
  match stream m with
  | None => (Err (Failure (Air (Hap.Disconnected "unknown"))), m)
  | Some t =>
      match write_error t with
      | Some e => (Err (Failure (NetworkError e)), m)
      | None =>
          match read_reply t with
          | (x, rs) => (x, set_stream m (Some (mkTcp rs (silent t) None (written t ++ [bs (pairing_request m path (length data)); data]))))
          end
      end
  end.

(** ** Pair-setup, pair-verify, auth-setup *)
Definition pairing {X} (r : outcome PairSetup.PairingError X) : op X := lift (map_err (fun e => Failure (PairingFailed e)) r).

Definition auth_setup : op unit :=
  n <- ask;;
  x <- send_post_command "/auth-setup" (Some (PairVerify.auth_start (random_bytes n 32))) (Some "application/octet-stream");;
  pairing (PairVerify.process_response x).

(** M1 to M4, which both forms of pair-setup begin with. *)
Definition pair_setup_m4 (p : PairSetup.PairSetup) : op (PairSetup.PairingStepResult * PairSetup.PairSetup) :=
  let '(m1, p) := PairSetup.start p in
  m1 <- pairing m1;;
  m2 <- send_pairing_data m1 "/pair-setup";;
  n <- ask;;
  let '(r, p) := PairSetup.process_m2 p m2 (random_number n) in
  r <- pairing r;;
  match r with
  | PairSetup.SendData m3 =>
      m4 <- send_pairing_data m3 "/pair-setup";;
      let '(r, p) := PairSetup.process_m4 p m4 in
      r <- pairing r;;
      ret (r, p)
  | _ => fail (auth_failed "Unexpected pairing state after M2")
  end.

Definition pairing_keys (p : PairSetup.PairSetup) : option PairVerify.PairingKeys :=
  match PairSetup.device_ltpk p with
  | Some pk =>
      if (length pk =? 32)%nat
      then Some (PairVerify.mkKeys (bs "airplay2-rs") (PairSetup.signing_keypair p) (ed_public (PairSetup.signing_keypair p)) pk)
      else None
  | None => None
  end.

Definition pair_setup (username pin : list Z) : op (PairSetup.SessionKeys * option PairVerify.PairingKeys) :=
  n <- ask;;
  x <- pair_setup_m4 (PairSetup.set_pin (PairSetup.set_username (PairSetup.PairSetup_new (random_bytes n 32)) username) pin);;
  let '(r, p) := x in
  match r with
  | PairSetup.StepComplete keys => ret (keys, None)
  | PairSetup.SendData m5 =>
      m6 <- send_pairing_data m5 "/pair-setup";;
      let '(r, p) := PairSetup.process_m6 p m6 in
      r <- pairing r;;
      match r with
      | PairSetup.StepComplete keys => ret (keys, pairing_keys p)
      | _ => fail (auth_failed "Pairing did not complete")
      end
  | PairSetup.NeedData => fail (auth_failed "Unexpected pairing state after M4")
  end.

Definition transient_pair : op PairSetup.SessionKeys :=
  n <- ask;;
  x <- pair_setup_m4 (PairSetup.set_username (PairSetup.set_pin (PairSetup.set_transient (PairSetup.PairSetup_new (random_bytes n 32)) true) (bs "3939")) (bs "Pair-Setup"));;
  match fst x with
  | PairSetup.StepComplete keys => ret keys
  | PairSetup.SendData _ => fail (auth_failed "Unexpected continuation after M4 in transient mode")
  | PairSetup.NeedData => fail (auth_failed "Pairing did not complete")
  end.

Definition pair_verify (keys : PairVerify.PairingKeys) : op PairSetup.SessionKeys :=
  n <- ask;;
  v <- pairing (PairVerify.PairVerify_new keys (PairVerify.device_public_key keys) (random_bytes n 32));;
  let '(m1, v) := PairVerify.start v in
  m1 <- pairing m1;;
  m2 <- send_pairing_data m1 "/pair-verify";;
  let '(r, v) := PairVerify.process_m2 v m2 in
  r <- pairing r;;
  match r with
  | PairSetup.SendData m3 =>
      m4 <- send_pairing_data m3 "/pair-verify";;
      let '(r, v) := PairVerify.process_m4 v m4 in
      r <- pairing r;;
      match r with
      | PairSetup.StepComplete keys => ret keys
      | _ => fail (auth_failed "Verification did not complete")
      end
  | _ => fail (auth_failed "Unexpected pairing state")
  end.

(** ** Authentication *)
Definition secured (k : PairSetup.SessionKeys) (m : Manager) : Manager :=
  set_session_keys (set_secure_session m (Some (Hap.Session_new (PairSetup.encrypt_key k) (PairSetup.decrypt_key k)))) (Some k).

(** Pair-verify with stored keys; [session_keys] is all it sets. *)
Definition try_stored_keys (d : Discovery.AirPlayDevice) : op bool :=
  s <- gets pairing_storage;;
  match s with
  | Some s =>
      match s !! Discovery.id d with
      | Some keys =>
          r <- catch (pair_verify keys);;
          match r with
          | inl k => _ <- modify (fun m => set_session_keys m (Some k));; ret true
          | inr _ => ret false
          end
      | None => ret false
      end
  | None => ret false
  end.

Definition handle_pairing_success (d : Discovery.AirPlayDevice) (k : PairSetup.SessionKeys) (keys : option PairVerify.PairingKeys) : op unit :=
  modify (fun m =>
    let m := secured k m in
    match pairing_storage m, keys with
    | Some s, Some keys => set_pairing_storage m (Some (<[Discovery.id d := keys]> s))
    | _, _ => m
    end).

Fixpoint try_credentials (d : Discovery.AirPlayDevice) (credentials : list (list Z * list Z)) (message : string) : op unit :=
  match credentials with
  | [] => fail (auth_failed message)
  | (user, pin) :: credentials =>
      r <- catch (pair_setup user pin);;
      match r with
      | inl (k, keys) => handle_pairing_success d k keys
      | inr _ => try_credentials d credentials message
      end
  end.
Definition try_configured_pin (d : Discovery.AirPlayDevice) (pin : list Z) : op unit :=
  try_credentials d [(bs "Pair-Setup", pin); (bs "AirPlay", pin); (bs "admin", pin)] "Authentication failed with configured PIN".
Definition try_brute_force_pairing (d : Discovery.AirPlayDevice) : op unit :=
  try_credentials d
    [(bs "Pair-Setup", bs "3939"); (bs "Pair-Setup", bs "0000"); (bs "Pair-Setup", bs "1111"); (bs "Pair-Setup", bs "1234");
     (bs "3939", bs "3939"); (bs "admin", bs "3939"); (bs "AirPlay", bs "3939"); (bs "Pair-Setup", [])] "All pairing methods failed".

Definition try_transient_pairing : op bool :=
  r <- catch transient_pair;;
  match r with inl k => _ <- modify (secured k);; ret true | inr _ => ret false end.

Definition authenticate (d : Discovery.AirPlayDevice) : op unit :=
  stored <- try_stored_keys d;;
  if stored : bool then ret tt
  else
    c <- gets config;;
    match pin c with
    | Some pin => try_configured_pin d pin
    | None =>
        t <- try_transient_pairing;;
        if t : bool then ret tt else try_brute_force_pairing d
    end.

(** [remove_pairing]; the modelled storage does not fail. *)
Definition remove_pairing (device_id : list Z) : op unit :=
  modify (fun m => match pairing_storage m with Some s => set_pairing_storage m (Some (delete device_id s)) | None => m end).

(** ** The exchange only touches the link *)
Lemma with_session_link {X} (f : ClientSession.RtspSession -> outcome Stop (X * ClientSession.RtspSession)) : keeps link_only (with_session f).
Proof. intros m. unfold with_session. destruct (rtsp_session m) eqn:E; [|done]. destruct (f r) as [[]| |]; done. Qed.
Lemma request_link r : keeps link_only (send_rtsp_request r).
Proof.
  intros m. unfold send_rtsp_request. destruct (stream m) as [t|] eqn:E; [|done]. destruct (write_error t).
  - destruct (secure_session m) as [x|]; [|done]. destruct (Hap.encrypt x _) as [[] ?]; (split; [done|split; cbn; done]).
  - destruct (RtspClient.send_rtsp_request _ _ _) as [[[bytes res] conn] rs]. split; [done|]. split; cbn; [eauto|done].
Qed.
Lemma processed_link meth r : keeps link_only (processed meth r).
Proof.
  intros m. unfold processed. destruct (rtsp_session m) eqn:E; [|done].
  destruct (ClientSession.process_response _ _ _) as [[] ?]; (split; [done|split; cbn; [done|eauto]]).
Qed.
Lemma ask_pair : keeps pair_only ask.
Proof. by intros m. Qed.
Lemma pair_link {X} (x : op X) : keeps pair_only x -> keeps link_only x.
Proof. intros H m. apply H. Qed.
#[local] Hint Resolve with_session_link request_link processed_link ask_pair pair_link : conn.

Lemma command_link meth b t : keeps link_only (send_command meth b t).
Proof. unfold send_command. keep_parts. Qed.
Lemma post_link path b t : keeps link_only (send_post_command path b t).
Proof. unfold send_post_command. keep_parts. Qed.
Lemma get_link path : keeps link_only (send_get_command path).
Proof. unfold send_get_command. keep_parts. Qed.
Lemma options_link : keeps link_only send_options.
Proof. unfold send_options. keep_parts. Qed.
Lemma record_link : keeps link_only record.
Proof. unfold record. keep_parts. Qed.
Lemma flush_link a b : keeps link_only (send_flush a b).
Proof. unfold send_flush. keep_parts. Qed.
Lemma pairing_data_pair d path : keeps pair_only (send_pairing_data d path).
Proof.
  intros m. unfold send_pairing_data. destruct (stream m) as [t|] eqn:E; [|done]. destruct (write_error t); [done|].
  destruct (read_reply t). split; [done|]. split; [done|]. split; cbn; [eauto|done].
Qed.
#[local] Hint Resolve command_link post_link get_link pairing_data_pair : conn.
Lemma pairing_pair {X} (r : outcome PairSetup.PairingError X) : keeps pair_only (pairing r).
Proof. unfold pairing. keep_parts. Qed.
#[local] Hint Resolve pairing_pair : conn.
Lemma auth_setup_link : keeps link_only auth_setup.
Proof. unfold auth_setup. keep_parts. Qed.
Lemma m4_pair p : keeps pair_only (pair_setup_m4 p).
Proof. unfold pair_setup_m4. keep_parts. Qed.
#[local] Hint Resolve m4_pair : conn.
Lemma pair_setup_pair u p : keeps pair_only (pair_setup u p).
Proof. unfold pair_setup. keep_parts. Qed.
Lemma transient_pair_pair : keeps pair_only transient_pair.
Proof. unfold transient_pair. keep_parts. Qed.
Lemma pair_verify_pair k : keeps pair_only (pair_verify k).
Proof. unfold pair_verify. keep_parts. Qed.
#[local] Hint Resolve pair_setup_pair transient_pair_pair pair_verify_pair auth_setup_link options_link record_link flush_link keeps_grows keeps_weaken : conn.

(** ** Authentication *)
Lemma secured_grows k m : grows m (secured k m).
Proof. split; [done|]. split; [done|]. eauto. Qed.
Lemma success_grows d k keys : keeps grows (handle_pairing_success d k keys).
Proof. unfold handle_pairing_success. keep_parts. cbn zeta. cbn. destruct (pairing_storage m), keys; (split; [done|split; [done|eauto]]). Qed.
#[local] Hint Resolve success_grows : conn.
Lemma credentials_grows d cs message : keeps grows (try_credentials d cs message).
Proof. induction cs as [|[u p] cs IH]; cbn [try_credentials]; keep_parts. Qed.
#[local] Hint Resolve credentials_grows : conn.
Lemma stored_grows d : keeps grows (try_stored_keys d).
Proof. unfold try_stored_keys. keep_parts. split; [done|]. split; [done|eauto]. Qed.
Lemma transient_grows : keeps grows try_transient_pairing.
Proof. unfold try_transient_pairing. keep_parts. apply secured_grows. Qed.
#[local] Hint Resolve stored_grows transient_grows : conn.
Lemma authenticate_grows d : keeps grows (authenticate d).
Proof. unfold authenticate, try_configured_pin, try_brute_force_pairing. keep_parts. Qed.

(** The session is encrypted with the keys it keeps. *)
Definition encrypted (m : Manager) : Prop := exists k, session_keys m = Some k /\
  secure_session m = Some (Hap.Session_new (PairSetup.encrypt_key k) (PairSetup.decrypt_key k)).

Lemma success_encrypts d k keys m m' : handle_pairing_success d k keys m = (Ok tt, m') -> encrypted m'.
Proof. intros [= <-]. exists k. cbn. by destruct (pairing_storage m), keys. Qed.
Lemma credentials_encrypt d message m' : forall cs m, try_credentials d cs message m = (Ok tt, m') -> encrypted m'.
Proof.
  induction cs as [|[u p] cs IH]; intros m; cbn [try_credentials]; [done|].
  intros (r & m1 & _ & H)%op_bind_ok. destruct r as [[k keys]|]; [by eapply success_encrypts|by eapply IH].
Qed.
Lemma stored_keys_spec d m b m' : try_stored_keys d m = (Ok b, m') ->
  match b with
  | true => is_Some (session_keys m') /\ secure_session m' = secure_session m /\ exists s, pairing_storage m = Some s /\ is_Some (s !! Discovery.id d)
  | false => True
  end.
Proof.
  unfold try_stored_keys. intros (s & m1 & [= <- <-] & H)%op_bind_ok. destruct (pairing_storage m) as [s|]; [|by injection H as <-].
  destruct (s !! Discovery.id d) as [k|] eqn:Hk; [|by injection H as <-].
  apply op_bind_ok in H as (r & m2 & Hc & H). destruct r as [k'|]; [|by injection H as <- <-]. injection H as <- <-.
  apply catch_ok in Hc. apply (keeps_run pair_only) in Hc as [E _]; [|apply pair_verify_pair]. injection E as _ E _. split; [by eexists|]. split; [done|]. eauto.
Qed.
Lemma authenticate_spec d m m' : authenticate d m = (Ok tt, m') -> encrypted m' \/
  (is_Some (session_keys m') /\ secure_session m' = secure_session m /\ exists s, pairing_storage m = Some s /\ is_Some (s !! Discovery.id d)).
Proof.
  unfold authenticate. intros (b & m1 & Hs & H)%op_bind_ok. apply stored_keys_spec in Hs.
  destruct b; [injection H as <-; by right|]. left. apply op_bind_ok in H as (c & m2 & [= <- <-] & H). destruct (pin _); [by eapply credentials_encrypt|].
  apply op_bind_ok in H as (t & m3 & Ht & H). destruct t; [|by eapply credentials_encrypt]. injection H as <-.
  apply op_bind_ok in Ht as (r & m4 & _ & Ht). destruct r as [k|]; [|done]. injection Ht as <-. by exists k.
Qed.
End WithCrypto.

(** ** Reading a pairing reply *)
Lemma chop_concat n rs : (0 < n)%nat -> concat (chop n rs) = concat rs.
Proof.
  intros Hn. unfold chop. induction rs as [|r rs IH]; [done|]. cbn [map concat]. rewrite concat_app, IH. case_bool_decide as E; [by subst|].
  by rewrite chunks_concat.
Qed.
Lemma chop_full n rs : (0 < n)%nat -> Forall (fun r => r <> []) rs -> Forall (fun r => r <> []) (chop n rs).
Proof.
  intros Hn. unfold chop. induction 1 as [|r rs Hr _ IH]; [done|]. cbn [map concat]. rewrite bool_decide_false by done. apply Forall_app. split; [|done].
  eapply Forall_impl; [apply (chunks_bound n r Hn)|]. intros c [H _] ->. cbn in H. lia.
Qed.

Lemma read_head_any t head rest i : position blank_line head = Some i -> (i + 4 = length head)%nat -> Z.of_nat (length head) <= 4096 -> forall rs buf,
  Forall (fun r => r <> []) rs -> buf ++ concat rs = head ++ rest -> position blank_line buf = None ->
  exists part rs', read_head t buf rs = (Ok (head ++ part, length head), rs') /\ part ++ concat rs' = rest /\ Forall (fun r => r <> []) rs'.
Proof.
  intros Hp Hi Hl. induction rs as [|r rs IH]; intros buf Hf Hc Hn.
  - cbn in Hc. rewrite app_nil_r in Hc. subst buf. rewrite (position_app _ _ _ _ Hp) in Hn. done.
  - apply Forall_cons in Hf as [Hr Hf]. cbn [read_head concat] in *. rewrite bool_decide_false by done.
    assert (position blank_line (buf ++ r ++ concat rs) = Some i) as Hw by (rewrite Hc; by apply position_app).
    pose proof (position_prefix _ _ _ _ Hw) as Hb. rewrite Hn in Hb. destruct (Nat.ltb_spec (length buf) (i + length blank_line)) as [Hlt|]; [|done].
    rewrite app_assoc in Hw. pose proof (position_prefix _ _ _ _ Hw) as Hb2. cbn [blank_line length] in *.
    pose proof (position_drop blank_line (buf ++ r) (length buf - 3)%nat) as Hd. rewrite Hb2 in Hd.
    destruct (Nat.ltb_spec (length (buf ++ r)) (i + 4)) as [Hs|Hge].
    + rewrite Hd. rewrite (proj2 (Z.leb_le _ _)) by lia. apply IH; [done| |done]. by rewrite <- app_assoc.
    + rewrite Hd by lia. replace (length buf - 3 + (i - (length buf - 3)) + 4)%nat with (length head) by lia.
      assert (buf ++ r = head ++ drop (length head) (buf ++ r)) as Hx.
      { rewrite <- (take_drop (length head) (buf ++ r)) at 1. f_equal. apply (f_equal (take (length head))) in Hc.
        rewrite take_app_length, app_assoc, take_app_le in Hc by lia. done. }
      exists (drop (length head) (buf ++ r)), rs. split; [by rewrite <- Hx|]. split; [|done].
      apply (app_inv_head head). rewrite app_assoc, <- Hx, <- app_assoc. done.
Qed.

Lemma read_exact_all t : forall rs, Forall (fun r => r <> []) rs -> read_exact t (length (concat rs)) rs = (Ok (concat rs), []).
Proof.
  induction 1 as [|r rs Hr Hf IH]; [done|]. cbn [concat]. rewrite length_app. destruct r as [|x r]; [done|]. cbn [length Nat.add read_exact].
  rewrite bool_decide_false by done. rewrite (proj2 (Nat.ltb_ge _ _)) by (cbn; lia).
  replace (S (length r + length (concat rs)) - S (length r))%nat with (length (concat rs)) by lia. by rewrite IH.
Qed.

(** C22: a pairing reply is read whole, however it is cut. For every reply whose header
    ends at its first blank line, is UTF-8 text of at most 4096 bytes and gives the length
    of the body, and for every way the network cuts it into reads, the exchange returns
    exactly the body and consumes exactly the reply. *)
Theorem pairing_reply_read (t : TcpStream) (head body text : list Z) (i : nat)
  (Hr : Forall (fun r => r <> []) (reads t)) (Hc : concat (reads t) = head ++ body)
  (Hp : position blank_line head = Some i) (Hi : (i + 4 = length head)%nat) (Hl : Z.of_nat (length head) <= 4096)
  (Hu : from_utf8 head = Some text) (Hb : content_length text = Z.of_nat (length body)) (Hm : Z.of_nat (length body) < 2 ^ 63) :
  read_reply t = (Ok body, []).
Proof.
  assert (Forall (fun r => r <> []) (chop 1024 (reads t))) as Hf by (apply chop_full; [lia|done]).
  assert (concat (chop 1024 (reads t)) = head ++ body) as Hx by (rewrite chop_concat; [done|lia]).
  destruct (read_head_any t head body i Hp Hi Hl _ [] Hf Hx) as (part & rs & E & Hpart & Hfr); [done|].
  unfold read_reply. rewrite E, take_app_length, Hu, Hb, drop_app_length, Nat2Z.id. rewrite (proj2 (Z.leb_gt _ _)) by lia.
  assert (length body = length part + length (concat rs))%nat as Hlen by (rewrite <- Hpart, length_app; done).
  rewrite take_ge by lia. replace (length body - length part)%nat with (length (concat rs)) by lia.
  rewrite read_exact_all by done. cbn. by rewrite Hpart.
Qed.

(** A reply in two reads, cut inside the blank line. *)
Lemma pairing_reply_read_witness :
  let head := bs "HTTP/1.1 200 OK" ++ [13; 10] ++ bs "Content-Length: 3" ++ [13; 10; 13; 10] in
  read_reply (mkTcp [take 35 head; drop 35 head ++ [1; 2]; [3]] false None []) = (Ok [1; 2; 3], []).
Proof.
  intros head. apply (pairing_reply_read _ head [1; 2; 3] head 34); try reflexivity; [|vm_compute; discriminate].
  cbn [reads]. rewrite !Forall_cons. split_and!; [vm_compute; discriminate..|done].
Defined.

#[export] Hint Resolve with_session_link request_link processed_link ask_pair pair_link command_link post_link get_link pairing_data_pair pairing_pair
  auth_setup_link options_link record_link flush_link keeps_grows keeps_weaken authenticate_grows : conn.
End ConnLink.
