(* ===== verification/ConnManager.v ===== *)
(** * The connection manager: set-up, life cycle, timing and audio

    Models the second half of [src/connection/manager.rs]: the set-up of a session with
    its two SETUP requests, [connect] with its states and events, [disconnect], the PTP
    and NTP times it announces, and the sending of audio.  At the end the manager is an
    instance of the interface [Client.Connection] that the client is written against. *)

From stdpp Require Import gmap pretty.
From S2P Require Import Bytes Text Unicode Rtsp RtspParser Tlv Plist Aead Srp KeyCrypto PairSetup Hap PairVerify RtpTiming RtpControl RtspClient Ap2Body Ap2Setup.
From S2P Require Import Ptp PtpClock Features RaopSession Sdp RaopServer RaopClient ClientSession Discovery Controls AudioFormat Client ConnLink.

Module ConnManager.
Import Unicode Rtsp RtspParser Plist ConnLink.
#[local] Existing Instance Client.ConnectionState_eq_dec.

(** ** What is negotiated *)
Definition should_use_hires (m : Manager) : bool :=
  prefer_hires_audio (config m) && match m_device m with Some d => Features.supports_hires_audio (Discovery.capabilities d) | None => false end.
Definition should_use_ptp (m : Manager) : bool :=
  match timing_protocol (config m) with
  | PtpTiming => true
  | Ntp => false
  | Auto => match m_device m with Some d => Features.supports_ptp (Discovery.capabilities d) || Discovery.supports_airplay2 d | None => false end
  end.

Definition group_uuid : list Z := bs "D67B1696-8D3A-A6CF-9ACF-03C837DC68FD".
Definition mac_address : list Z := bs "AC:07:75:12:4A:1F".
Definition dict (kvs : list (string * PlistValue)) : PlistValue :=
  builder_build (foldl (fun b kv => builder_insert b (bs (fst kv)) (snd kv)) builder_new kvs).

(** The preliminary SETUP of NTP devices. *)
Definition ntp_setup_plist : PlistValue :=
  dict [("timingProtocol", PString (bs "NTP")); ("groupUUID", PString group_uuid); ("macAddress", PString mac_address); ("isAudioReceiver", Boolean false)].

(** The lines of the description for ANNOUNCE. *)
Definition sdp_text (ls : list (list Z)) : list Z := concat (map (fun l => l ++ [13; 10]) ls).
Definition sdp_head : list (list Z) :=
  [bs "v=0"; bs "o=- 0 0 IN IP4 0.0.0.0"; bs "s=airplay2-rs"; bs "c=IN IP4 0.0.0.0"; bs "t=0 0"; bs "m=audio 0 RTP/AVP 96"].
Definition number (z : Z) : list Z := bs (pretty z).
Definition hires_depth (hires : bool) : Z := if hires then 24 else 16.
Definition hires_rate (hires : bool) : Z := if hires then 48000 else 44100.
Definition aac_head : list Z := bs "a=fmtp:96 mode=AAC-hbr;sizelength=13;indexlength=3;indexdeltalength=3;".

Section WithCrypto.
Context {A : AeadCipher} {SH : Sha512} {P : PairCrypto} {O : HashOrder} {N : Net}.
Open Scope op_scope.

Definition announce_sdp (c : AudioFormat.AudioCodec) (hires : bool) : outcome Stop (list Z) :=
  let depth := number (hires_depth hires) in
  let rate := number (hires_rate hires) in
  let fmtp := bs "a=fmtp:96 352 0 " ++ depth ++ bs " 40 10 14 2 255 0 0 " ++ rate in
  match c with
  | AudioFormat.Alac => Ok (sdp_text (sdp_head ++ [bs "a=rtpmap:96 AppleLossless"; fmtp]))
  | AudioFormat.Pcm => Ok (sdp_text (sdp_head ++ [bs "a=rtpmap:96 L" ++ depth ++ bs "/" ++ rate ++ bs "/2"; fmtp]))
  | AudioFormat.Aac => Ok (sdp_text (sdp_head ++ [bs "a=rtpmap:96 mpeg4-generic/44100/2"; aac_head ++ bs "constantDuration=1024"]))
  | AudioFormat.Opus => Err (Failure (InvalidParameter "audio_codec" "Opus codec not yet supported for SDP generation"))
  | AudioFormat.AacEld =>
      match eld_encoder with
      | None => Err (Failure (InternalError "Failed to initialize AAC-ELD encoder for ASC"))
      | Some (None, _) => Err (Failure (InternalError "Failed to get ASC from AAC-ELD encoder"))
      | Some (Some asc, frame_len) =>
          Ok (sdp_text (sdp_head ++ [bs "a=rtpmap:96 mpeg4-generic/44100/2";
                aac_head ++ bs "config=" ++ concat (map (Features.show_hex2 false) asc) ++ bs ";constantDuration=" ++ number (default 512 frame_len)]))
      end
  end.

(** [{:016X}]. *)
Definition clock_id_text (id : Z) : list Z := concat (map (Features.show_hex2 true) (to_be 8 id)).
Definition timing_peer_info (local_ip : list Z) (session_id : list Z) (clock_id time_port : Z) : PlistValue :=
  dict [("Addresses", Array [PString local_ip]); ("ID", PString session_id); ("ClockID", UnsignedInteger clock_id);
        ("SupportsClockPortMatchingOverride", Boolean true);
        ("ClockPorts", builder_build (builder_insert builder_new (clock_id_text clock_id) (Integer time_port)))].
Definition step1_plist (use_ptp : bool) (peer : PlistValue) (ek eiv : list Z) : PlistValue :=
  if use_ptp
  then dict [("timingProtocol", PString (bs "PTP")); ("timingPeerInfo", peer); ("groupUUID", PString group_uuid); ("macAddress", PString mac_address);
             ("isAudioReceiver", Boolean false); ("ekey", Data ek); ("eiv", Data eiv); ("et", Integer 4)]
  else dict [("timingProtocol", PString (bs "NTP")); ("ekey", Data ek); ("eiv", Data eiv); ("et", Integer 4)].

(** A port of a dictionary: [as_i64] and the cast to 16 bits. *)
Definition port_of (d : list (list Z * PlistValue)) (key : string) : option Z :=
  match dict_get (bs key) d with Some v => wrap 16 <$> as_i64 v | None => None end.

(** What the first answer says: event port, timing port, clock port and clock
    identity.  Of several clock ports the last one counts. *)
Definition last_clock_port (ports : list (list Z * PlistValue)) : option Z :=
  foldl (fun acc kv => match as_i64 (snd kv) with Some p => Some (wrap 16 p) | None => acc end) None (dict_order ports).
Definition step1_answer (body : list Z) : option Z * option Z * option Z * option Z :=
  match decode body with
  | Ok (Dictionary d) =>
      let tpi := match dict_get (bs "timingPeerInfo") d with Some v => default [] (as_dict v) | None => [] end in
      (port_of d "eventPort", port_of d "timingPort",
       match dict_get (bs "ClockPorts") tpi with Some v => match as_dict v with Some ports => last_clock_port ports | None => None end | None => None end,
       match dict_get (bs "ClockID") tpi with Some v => as_u64 v | None => None end)
  | _ => (None, None, None, None)
  end.

Definition stream_params (c : AudioFormat.AudioCodec) (hires : bool) : Z * Z * Z :=
  match c with
  | AudioFormat.Pcm => (1, 352, if hires then Z.shiftl 1 16 else Z.shiftl 1 11)
  | AudioFormat.Alac => (2, 352, if hires then Z.shiftl 1 16 else 0x40000)
  | AudioFormat.Aac => (4, 1024, Z.shiftl 1 22)
  | AudioFormat.AacEld => (8, match eld_encoder with Some (_, Some n) => n | _ => 512 end, Z.shiftl 1 24)
  | AudioFormat.Opus => (0, 480, 0)
  end.
Definition stream_kind (use_ptp : bool) : Z := if use_ptp then 103 else 96.
Definition step2_plist (c : AudioFormat.AudioCodec) (use_ptp hires : bool) (ek eiv : list Z) (ctrl_port time_port : Z) : PlistValue :=
  let '(ct, spf, fmt) := stream_params c hires in
  dict [("streams", Array [dict ([("type", UnsignedInteger (stream_kind use_ptp)); ("ct", Integer ct); ("audioFormat", Integer fmt); ("spf", UnsignedInteger spf);
          ("audioType", PString (bs "default")); ("shk", Data ek); ("shiv", Data eiv); ("controlPort", UnsignedInteger ctrl_port);
          ("timingPort", UnsignedInteger time_port); ("latencyMin", Integer 11025); ("latencyMax", Integer 88200)] ++
          (if hires then [("sr", UnsignedInteger 48000); ("ss", UnsignedInteger 24); ("ch", UnsignedInteger 2)] else []))])].
Definition transport (audio ctrl time : Z) : string :=
  "RTP/AVP/UDP;unicast;mode=record;client_port=" +:+ pretty audio +:+ ";control_port=" +:+ pretty ctrl +:+ ";timing_port=" +:+ pretty time.

(** The data and control ports of the second answer: at the top, or in the first
    stream. *)
Definition step2_ports (body : list Z) : option (Z * Z) :=
  match decode body with
  | Ok (Dictionary d) =>
      let in_stream := match dict_get (bs "streams") d with
                       | Some v => match as_array v with
                                   | Some (s :: _) => match as_dict s with Some d => (port_of d "dataPort", port_of d "controlPort") | None => (None, None) end
                                   | _ => (None, None)
                                   end
                       | None => (None, None)
                       end in
      match (match port_of d "dataPort", port_of d "controlPort" with Some a, Some b => (Some a, Some b) | _, _ => in_stream end) with
      | (Some a, Some b) => Some (a, b)
      | _ => None
      end
  | _ => None
  end.

Definition transport_part (acc : Z * Z * Z) (part : list Z) : Z * Z * Z :=
  let '(a, c, t) := acc in
  match split_at 61 (trim part) with
  | Some (key, value) =>
      match parse_uint 16 (of_chars value) with
      | Some p =>
          if bool_decide (key = bs "server_port") then (p, c, t)
          else if bool_decide (key = bs "control_port") then (a, p, t)
          else if bool_decide (key = bs "timing_port") then (a, c, p) else acc
      | None => acc
      end
  | None => acc
  end.
Definition parse_transport_ports (header : list Z) : outcome Stop (Z * Z * Z) :=
  let '(a, c, t) := foldl transport_part (0, 0, 0) (RaopSession.split_char 59 header) in
  if a =? 0 then Err (Failure (rtsp_error "Could not determine server audio port" None)) else Ok (a, c, t).

(** ** Sockets *)
Definition io {X} (r : outcome string X) : op X := lift (map_err (fun e => Failure (NetworkError e)) r).
(** Three addresses in turn. *)
Definition bind_ephemeral_socket : op (outcome string Z) :=
  a <- ask;;
  match udp_bind a "0.0.0.0:0" with
  | Ok p => ret (Ok p)
  | _ =>
      b <- ask;;
      match udp_bind b "127.0.0.1:0" with
      | Ok p => ret (Ok p)
      | _ => c <- ask;; ret (udp_bind c "[::]:0")
      end
  end.
Definition bind_socket : op Z := r <- bind_ephemeral_socket;; io r.
Definition connect_socket (ip : Discovery.IpAddr) (port : Z) : op unit :=
  n <- ask;;
  match udp_connect n ip port with None => ret tt | Some e => fail (NetworkError e) end.

(** ** PTP *)
Definition PTP_EVENT_PORT : string := "0.0.0.0:319".
Definition PTP_GENERAL_PORT : string := "0.0.0.0:320".
(** The standard port, or any other. *)
Definition bind_ptp_socket (address : string) : op bool :=
  n <- ask;;
  match udp_bind n address with
  | Ok _ => ret true
  | _ => r <- bind_ephemeral_socket;; ret (match r with Ok _ => true | _ => false end)
  end.
(** The slave handler it starts is [PtpHandler]; the clock is shared with it. *)
Definition start_ptp_master (clock_id : Z) : op unit :=
  n <- ask;;
  let clock := PtpClock.new clock_id PtpClock.Slave (monotonic n) in
  event <- bind_ptp_socket PTP_EVENT_PORT;;
  if negb event then ret tt
  else
    general <- bind_ptp_socket PTP_GENERAL_PORT;;
    if negb general then ret tt
    else modify (fun m => set_ptp_active (set_shutdown (set_ptp_clock m (Some clock)) true) true).
Definition stop_ptp (m : Manager) : Manager := set_ptp_active (set_ptp_clock (set_shutdown m false) None) false.
Definition is_ptp_synchronized (m : Manager) : bool := match ptp_clock m with Some c => PtpClock.synchronized c | None => false end.

(** [nanos * 2^64 / 10^9]. *)
Definition fraction (nanos : Z) : Z := wrap 64 (Z.shiftl nanos 64 / 1000000000).
Definition get_ptp_network_time (m : Manager) : outcome Stop (option (Z * Z * Z)) :=
  match ptp_clock m with
  | None => Ok None
  | Some c =>
      if negb (PtpClock.synchronized c) then Ok None
      else
        t ← PtpClock.remote_to_local c (wall_clock (asked m));
        let frac := Z.shiftl (Ptp.nanoseconds t) 64 / 1000000000 in
        if 2 ^ 64 <=? frac then Panic
        else Ok (Some (Ptp.seconds t, frac, default (PtpClock.clock_id c) (PtpClock.remote_master_clock_id c)))
  end.

(** The master's time for SETRATEANCHORTIME, and the time itself without a clock. *)
Definition anchor_time (m : Manager) (now : Ptp.PtpTimestamp) : outcome Stop (Z * Z) :=
  match ptp_clock m with
  | Some c =>
      t ← PtpClock.clamp_from_nanos (Ptp.to_nanos now - PtpClock.offset_ns c);
      Ok (Ptp.seconds t, fraction (Ptp.nanoseconds t))
  | None => Ok (Ptp.seconds now, fraction (Ptp.nanoseconds now))
  end.
Definition anchor_plist (rate : Z) (timeline secs frac : Z) : PlistValue :=
  dict ([("rate", Real rate); ("rtpTime", Integer 0)] ++
        (if timeline =? 0 then []
         else [("networkTimeSecs", Integer (sext 64 secs)); ("networkTimeFrac", Integer (sext 64 frac)); ("networkTimeTimelineID", Integer (sext 64 timeline))])).
Definition send_set_rate_anchor_time (rate : Z) : op unit :=
  n <- ask;;
  m <- gets id;;
  t <- lift (anchor_time m (wall_clock n));;
  b <- lift (map_err (fun e => Failure (EncodeFailed "SETRATEANCHORTIME" e)) (encode (anchor_plist rate (default 0 (device_clock_id m)) (fst t) (snd t))));;
  _ <- send_command SetRateAnchorTime (Some b) (Some plist_type);;
  ret tt.

Definition send_set_peers (ip : Discovery.IpAddr) : op unit :=
  n <- ask;;
  m <- gets id;;
  let local := match stream m with Some _ => default "0.0.0.0" (local_addr n) | None => "0.0.0.0" end in
  b <- lift (map_err (fun e => Failure (EncodeFailed "SETPEERS" e)) (encode (Array [PString (bs local); PString (bs (show_ip ip))])));;
  r <- with_session (fun s => ClientSession.set_peers_request s b);;
  _ <- send_rtsp_request r;;
  ret tt.

(** ** Setting up a session *)
Definition is_aac_eld (c : AudioFormat.AudioCodec) : bool := match c with AudioFormat.AacEld => true | _ => false end.
Definition announce (use_ptp : bool) : op unit :=
  m <- gets id;;
  if use_ptp && negb (is_aac_eld (audio_codec (config m))) then ret tt
  else
    sdp <- lift (announce_sdp (audio_codec (config m)) (should_use_hires m));;
    r <- with_session (fun s => ClientSession.announce_request s sdp);;
    _ <- send_rtsp_request r;;
    ret tt.

Definition setup_request (v : PlistValue) (t : option string) : op RtspResponse :=
  r <- with_session (fun s => ClientSession.setup_session_request s v t);;
  send_rtsp_request r.

(** The first SETUP: its answer, and the identity of the device's clock kept. *)
Definition setup_step1 (use_ptp : bool) (clock_id time_port : Z) (ek eiv : list Z) : op (option Z * option Z) :=
  n <- ask;;
  m <- gets id;;
  let local := match stream m with Some _ => default "0.0.0.0" (local_addr n) | None => "0.0.0.0" end in
  let session := match rtsp_session m with Some s => ClientSession.client_session_id s | None => "" end in
  x <- setup_request (step1_plist use_ptp (timing_peer_info (bs local) (bs session) clock_id time_port) ek eiv) None;;
  let '(ep, tp, _, id) := step1_answer (resp_body x) in
  _ <- modify (fun m => match id with Some i => set_device_clock_id m (Some i) | None => m end);;
  ret (ep, tp).

(** The second SETUP: data, control and timing port of the device. *)
Definition setup_step2 (use_ptp : bool) (ek eiv : list Z) (audio ctrl time : Z) (tp : option Z) : op (option (Z * Z * Z)) :=
  m <- gets id;;
  x <- setup_request (step2_plist (audio_codec (config m)) use_ptp (should_use_hires m) ek eiv ctrl time) (Some (transport audio ctrl time));;
  ret (match step2_ports (resp_body x) with
       | Some (dp, cp) => Some (dp, cp, default 0 tp)
       | None =>
           match Headers_get (resp_headers x) "Transport" with
           | Some h => match parse_transport_ports (bs h) with Ok (a, c, t) => Some (a, c, t) | _ => None end
           | None => None
           end
       end).

(** The TCP connection for buffered audio, and the event channel; failing is not an
    error. *)
Definition open_audio_tcp (ip : Discovery.IpAddr) (port : Z) : op unit :=
  n <- ask;;
  match tcp_connect n ip port with
  | Opened s => modify (fun m => set_audio_tcp m (Some s))
  | Refused _ => ret tt
  | NoAnswer => lift (Err Blocked)
  end.
Definition open_event_channel (ip : Discovery.IpAddr) (port : Z) : op unit :=
  if 0 <? port then
    n <- ask;;
    match tcp_connect n ip port with
    | Opened _ => modify (fun m => set_event_task m true)
    | _ => ret tt
    end
  else ret tt.
Definition fetch_ntp_offset : op unit :=
  n <- ask;;
  modify (fun m => match ntp_query n with Some o => set_ntp_offset m o | None => m end).

Definition connect_ports (use_ptp : bool) (clock_id : Z) (audio ctrl time : Z) (ep : option Z) (ports : Z * Z * Z) : op unit :=
  let '(server_audio, server_ctrl, server_time) := ports in
  d <- gets m_device;;
  match d with
  | None => fail (InvalidState "Device information is missing." "SettingUp")
  | Some d =>
      let ip := Discovery.device_address d in
      _ <- connect_socket ip server_audio;;
      _ <- connect_socket ip server_ctrl;;
      _ <- (if stream_kind use_ptp =? 103 then open_audio_tcp ip server_audio else ret tt);;
      _ <- (if 0 <? server_time then connect_socket ip server_time else ret tt);;
      _ <- (if use_ptp then _ <- catch (send_set_peers ip);; start_ptp_master clock_id else fetch_ntp_offset);;
      _ <- open_event_channel ip (default 0 ep);;
      modify (fun m => set_shutdown (set_sockets m (Some (mkSockets audio ctrl time server_audio server_ctrl server_time [] []))) true)
  end.

Definition setup_session : op unit :=
  _ <- send_get_command "/info";;
  m <- gets id;;
  let use_ptp := should_use_ptp m in
  n <- ask;;
  let clock_id := if use_ptp then random_number n else 0 in
  early <- (if use_ptp then r <- bind_ephemeral_socket;; ret (match r with Ok p => Some p | _ => None end) else ret None);;
  _ <- (if use_ptp then ret tt else _ <- setup_request ntp_setup_plist None;; ret tt);;
  _ <- announce use_ptp;;
  m <- gets id;;
  let ek := default (replicate 32 0) (encryption_key m) in
  n <- ask;;
  let eiv := random_bytes n 16 in
  x <- setup_step1 use_ptp clock_id (default 0 early) ek eiv;;
  let '(ep, tp) := x in
  audio <- bind_socket;;
  ctrl <- bind_socket;;
  time <- match early with Some p => ret p | None => bind_socket end;;
  ports <- setup_step2 use_ptp ek eiv audio ctrl time tp;;
  match ports with
  | Some ports => connect_ports use_ptp clock_id audio ctrl time ep ports
  | None => ret tt
  end.

(** The task that listens on the control socket, on one datagram of at most 1024
    bytes. *)
Definition control_datagram (data : list Z) : option Client.ConnectionEvent :=
  let data := take 1024 data in
  if (8 <=? length data)%nat && bool_decide (take 2 data = [0x80; 0xD5])
  then Some (Client.RetransmitRequest (from_be (take 2 (drop 4 data))) (from_be (take 2 (drop 6 data))))
  else None.
Definition control_received (data : list Z) : op unit :=
  match control_datagram data with Some e => send_event e | None => ret tt end.

(** ** Connecting and disconnecting *)
Definition manufacturer_of (body : list Z) : list Z :=
  match decode body with
  | Ok v => default [] (d ← as_dict v; x ← dict_get (bs "manufacturer") d; as_str x)
  | _ => []
  end.
Definition open_stream (d : Discovery.AirPlayDevice) : op unit :=
  n <- ask;;
  match tcp_connect n (Discovery.device_address d) (Discovery.port d) with
  | Opened s =>
      i <- ask;;
      let '(device, session) := session_ids i in
      modify (fun m => set_rtsp_session (set_session_keys (set_secure_session (set_stream m (Some s)) None) None)
                         (Some (ClientSession.Session_new (show_ip (Discovery.device_address d)) (Discovery.port d) device session)))
  | Refused e => fail (ConnectionFailed (Discovery.d_name d) e)
  | NoAnswer => lift (Err Blocked)
  end.
Definition connect_internal (d : Discovery.AirPlayDevice) : op unit :=
  _ <- open_stream d;;
  _ <- set_conn_state Client.SettingUp;;
  _ <- send_options;;
  info <- catch (send_get_command "/info");;
  _ <- set_conn_state Client.Authenticating;;
  _ <- (if bool_decide (match info with inl b => manufacturer_of b | inr _ => [] end = bs "OpenAirplay") then ret tt
        else _ <- catch auth_setup;; ret tt);;
  _ <- authenticate d;;
  _ <- set_conn_state Client.SettingUp;;
  setup_session.

(** The time-out of the configuration ends what blocks. *)
Definition connect (d : Discovery.AirPlayDevice) : op unit := fun m =>
  if Client.is_active (m_state m) then (Err (Failure (InvalidState "Already connected or connecting" "")), m)
  else
    (_ <- set_conn_state Client.Connecting;;
     _ <- modify (fun m => set_device m (Some d));;
     fun m =>
       match connect_internal d m with
       | (Ok _, m) => (_ <- set_conn_state Client.Connected;; send_event (Client.EvConnected d)) m
       | (Err (Failure e), m) =>
           (_ <- set_conn_state Client.Failed;; _ <- send_event (Client.EvError (show_error e) (is_recoverable e));; fail e) m
       | (Err Blocked, m) => (_ <- set_conn_state Client.Failed;; fail ConnectionTimeout) m
       | (Panic, m) => (Panic, m)
       end) m.

Definition close (m : Manager) : Manager :=
  let m := set_event_task (stop_ptp m) false in
  set_session_keys (set_rtsp_session (set_audio_tcp (set_sockets (set_stream m None) None) None) None) None.
Definition disconnect_with_reason (reason : Client.DisconnectReason) : op unit :=
  m0 <- gets id;;
  _ <- (if bool_decide (m_state m0 = Client.Connected) then
          match rtsp_session m0 with
          | Some _ => r <- with_session ClientSession.teardown_request;; _ <- catch (send_rtsp_request r);; ret tt
          | None => ret tt
          end
        else ret tt);;
  _ <- modify close;;
  _ <- set_conn_state Client.Disconnected;;
  match m_device m0 with
  | Some d => send_event (Client.EvDisconnected d reason)
  | None => ret tt
  end.
Definition disconnect : op unit := disconnect_with_reason Client.UserRequested.

(** ** Audio and time announcements *)
Definition with_control_sent (s : UdpSockets) (p : list Z) : UdpSockets :=
  mkSockets (audio_port s) (control_port s) (timing_port s) (server_audio_port s) (server_control_port s) (server_timing_port s)
    (audio_sent s) (control_sent s ++ [p]).
Definition with_audio_sent (s : UdpSockets) (p : list Z) : UdpSockets :=
  mkSockets (audio_port s) (control_port s) (timing_port s) (server_audio_port s) (server_control_port s) (server_timing_port s)
    (audio_sent s ++ [p]) (control_sent s).

(** Two writes; the length with its own two bytes, cut to 16 bits. *)
Definition send_framed (t : TcpStream) (packet : list Z) : outcome Stop unit * TcpStream :=
  match write_error t with
  | Some e => (Err (Failure (rtsp_error ("Failed to send buffered audio length: " +:+ e) None)), t)
  | None => (Ok tt, mkTcp (reads t) (silent t) (write_error t) (written t ++ [to_be 2 (wrap 16 (Z.of_nat (length packet) + 2)) ++ packet]))
  end.
Definition dropped (m : Manager) (packet : list Z) : option nat :=
  if (4 <=? length packet)%nat then fst <$> list_find (fun x => x = from_be (take 2 (drop 2 packet))) (drop_packets m) else None.
Definition send_rtp_audio (packet : list Z) : op unit := fun m =>
  match dropped m packet with
  | Some i => (Ok tt, set_drop_packets m (delete i (drop_packets m)))
  | None =>
      match audio_tcp m with
      | Some t => match send_framed t packet with (r, t) => (r, set_audio_tcp m (Some t)) end
      | None =>
          match sockets m with
          | None => (Err (Failure (InvalidState "RTP sockets not connected" "Disconnected")), m)
          | Some s =>
              match udp_send (asked m) with
              | None => (Ok tt, set_sockets (set_asked m (S (asked m))) (Some (with_audio_sent s packet)))
              | Some e => (Err (Failure (rtsp_error ("Failed to send RTP audio: " +:+ e) None)), set_asked m (S (asked m)))
              end
          end
      end
  end.
(** A control packet when there are sockets. *)
Definition send_control (packet : list Z) (what : string) : op unit := fun m =>
  match sockets m with
  | None => (Ok tt, m)
  | Some s =>
      match udp_send (asked m) with
      | None => (Ok tt, set_sockets (set_asked m (S (asked m))) (Some (with_control_sent s packet)))
      | Some e => (Err (Failure (rtsp_error (what +:+ e) None)), set_asked m (S (asked m)))
      end
  end.
Definition send_rtcp_control (packet : list Z) : op unit := fun m =>
  match sockets m, m_device m with
  | Some s, Some d =>
      match udp_send (asked m) with
      | None => (Ok tt, set_sockets (set_asked m (S (asked m))) (Some (with_control_sent s packet)))
      | Some e => (Err (Failure (IoError ("Failed to send RTCP control packet: " +:+ e))), set_asked m (S (asked m)))
      end
  | _, _ => (Err (Failure (Air (Hap.Disconnected "none"))), m)
  end.

(** The NTP time moved by the measured offset. *)
Definition offset_ntp (offset : Z) (t : RtpTiming.NtpTimestamp) : outcome Stop RtpTiming.NtpTimestamp :=
  if offset =? 0 then Ok t
  else
    micros ← (if 0 <? offset then chk_u 64 (RtpTiming.to_micros t + offset) else Ok (Z.max 0 (RtpTiming.to_micros t + offset)));
    Ok {| RtpTiming.seconds := wrap 32 (micros / 1000000); RtpTiming.fraction := wrap 32 (Z.shiftl (micros mod 1000000) 32 / 1000000) |}.
Definition send_time_announce (rtp_timestamp sample_rate : Z) : op unit :=
  n <- ask;;
  m <- gets id;;
  match ptp_clock m with
  | Some c =>
      t <- lift (PtpClock.master_now c (monotonic n));;
      match t with
      | None => ret tt
      | Some t =>
          _ <- modify (fun m => set_time_announce_count m (wrap 64 (time_announce_count m + 1)));;
          let nanos := if (0 <=? Ptp.to_nanos t) && (Ptp.to_nanos t <? 2 ^ 64) then Ptp.to_nanos t else 0 in
          send_control (RtpControl.ControlPacket_encode (RtpControl.CpTimeAnnouncePtp rtp_timestamp nanos (wrap 32 (rtp_timestamp + sample_rate))
                          (default (PtpClock.clock_id c) (PtpClock.remote_master_clock_id c)))) "Failed to send TimeAnnounce: "
      end
  | None =>
      t <- lift (offset_ntp (ntp_offset m) (RtpTiming.NtpTimestamp_now (Ptp.seconds (wall_clock n)) (Ptp.nanoseconds (wall_clock n))));;
      _ <- modify (fun m => set_time_announce_count m (wrap 64 (time_announce_count m + 1)));;
      send_control (RtpControl.ControlPacket_encode (RtpControl.CpTimeAnnounceNtp rtp_timestamp
                      (Z.lor (Z.shiftl (RtpTiming.seconds t) 32) (RtpTiming.fraction t)) (wrap 32 (rtp_timestamp + sample_rate)))) "Failed to send NTP TimeAnnounce: "
  end.

(** ** What the parts leave alone *)
Lemma ephemeral_pair : keeps pair_only bind_ephemeral_socket.
Proof. unfold bind_ephemeral_socket. keep_parts. Qed.
#[local] Hint Resolve ephemeral_pair : conn.
Lemma bind_socket_pair : keeps pair_only bind_socket.
Proof. unfold bind_socket, io. keep_parts. Qed.
Lemma connect_socket_pair ip p : keeps pair_only (connect_socket ip p).
Proof. unfold connect_socket. keep_parts. Qed.
Lemma bind_ptp_pair a : keeps pair_only (bind_ptp_socket a).
Proof. unfold bind_ptp_socket. keep_parts. Qed.
#[local] Hint Resolve bind_socket_pair connect_socket_pair bind_ptp_pair : conn.
Lemma start_ptp_grows id : keeps grows (start_ptp_master id).
Proof. unfold start_ptp_master. keep_parts. done. Qed.
Lemma peers_link ip : keeps link_only (send_set_peers ip).
Proof. unfold send_set_peers. keep_parts. Qed.
Lemma anchor_link rate : keeps link_only (send_set_rate_anchor_time rate).
Proof. unfold send_set_rate_anchor_time. keep_parts. Qed.
Lemma announce_link b : keeps link_only (announce b).
Proof. unfold announce. keep_parts. Qed.
Lemma setup_request_link v t : keeps link_only (setup_request v t).
Proof. unfold setup_request. keep_parts. Qed.
#[local] Hint Resolve start_ptp_grows peers_link anchor_link announce_link setup_request_link : conn.
Lemma step1_grows a b c d e : keeps grows (setup_step1 a b c d e).
Proof. unfold setup_step1. keep_parts. by case_match. Qed.
Lemma step2_link a b c d e f g : keeps link_only (setup_step2 a b c d e f g).
Proof. unfold setup_step2. keep_parts. Qed.
Lemma audio_tcp_grows ip p : keeps grows (open_audio_tcp ip p).
Proof. unfold open_audio_tcp. keep_parts. done. Qed.
Lemma event_channel_grows ip p : keeps grows (open_event_channel ip p).
Proof. unfold open_event_channel. keep_parts. done. Qed.
Lemma ntp_grows : keeps grows fetch_ntp_offset.
Proof. unfold fetch_ntp_offset. keep_parts. by destruct (ntp_query _). Qed.
#[local] Hint Resolve step1_grows step2_link audio_tcp_grows event_channel_grows ntp_grows : conn.
Lemma ports_grows a b c d e f g : keeps grows (connect_ports a b c d e f g).
Proof. unfold connect_ports. keep_parts. done. Qed.
#[local] Hint Resolve ports_grows : conn.
Lemma setup_grows : keeps grows setup_session.
Proof. unfold setup_session. keep_parts. Qed.

(** ** The events tell the state *)
Fixpoint follows (s : Client.ConnectionState) (es : list Client.ConnectionEvent) : option Client.ConnectionState :=
  match es with
  | [] => Some s
  | Client.StateChanged old new :: es => if bool_decide (old = s) then follows new es else None
  | _ :: es => follows s es
  end.
Definition told (m : Manager) : Prop := follows Client.Disconnected (m_events m) = Some (m_state m).
Definition tells (m m' : Manager) : Prop := (told m -> told m') /\ m_device m' = m_device m.
#[local] Instance tells_preorder : PreOrder tells.
Proof. split; [done|]. intros a b c [] []. split; [auto|congruence]. Qed.

Lemma follows_app s es e : follows s (es ++ [e]) = match follows s es with Some x => follows x [e] | None => None end.
Proof. revert s. induction es as [|[] es IH]; intros s; cbn [follows app]; try done. by case_bool_decide. Qed.
Lemma grows_tells m m' : grows m m' -> tells m m'.
Proof. intros (E & _). injection E as _ E1 E2 E3. split; [|done]. unfold told. by rewrite E1, E3. Qed.
Lemma keeps_tells {X} (x : op X) : keeps grows x -> keeps tells x.
Proof. intros H m. apply grows_tells, H. Qed.
Lemma event_tells e : (forall a b, e <> Client.StateChanged a b) -> keeps tells (send_event e).
Proof. intros He. unfold send_event. keep_parts. split; [|done]. unfold told. cbn. intros H. rewrite follows_app, H. by destruct e; try done; edestruct He. Qed.
Lemma state_tells x : keeps tells (set_conn_state x).
Proof.
  intros m. unfold set_conn_state. cbn zeta. case_bool_decide as E; [split; [|done]; unfold told; cbn; by rewrite E|].
  split; [|done]. unfold told. cbn. intros H. rewrite follows_app, H. cbn. by rewrite bool_decide_true.
Qed.
Lemma state_opened x : keeps opened (set_conn_state x).
Proof. intros m. unfold set_conn_state. cbn zeta. by case_bool_decide. Qed.
Lemma state_set x m : exists m', set_conn_state x m = (Ok tt, m') /\ m_state m' = x /\ (told m -> told m') /\
  (stream m', rtsp_session m', session_keys m', m_device m', sockets m', audio_tcp m', ptp_clock m', ptp_active m', event_task m') =
  (stream m, rtsp_session m, session_keys m, m_device m, sockets m, audio_tcp m, ptp_clock m, ptp_active m, event_task m).
Proof.
  pose proof (state_tells x m) as [H _]. unfold set_conn_state in *. cbn zeta in *. case_bool_decide; (eexists; split; [done|]); (split; [done|]); (split; [exact H|done]).
Qed.

(** ** The invariant *)
Definition released (m : Manager) : Prop :=
  stream m = None /\ rtsp_session m = None /\ session_keys m = None /\ sockets m = None /\ audio_tcp m = None /\ ptp_clock m = None /\ ptp_active m = false /\ event_task m = false.
Definition established (m : Manager) : Prop :=
  is_Some (stream m) /\ is_Some (rtsp_session m) /\ is_Some (session_keys m) /\ is_Some (m_device m).
Definition settled (m : Manager) : Prop :=
  match m_state m with
  | Client.Disconnected => released m
  | Client.Connected => established m
  | Client.Failed => True
  | _ => False
  end.

(** Without a connection nothing happens. *)
Definition idles (m m' : Manager) : Prop := released m -> released m'.
#[local] Instance idles_preorder : PreOrder idles.
Proof. split; [intros a H; exact H|]. intros a b c H1 H2 H. apply H2, H1, H. Qed.
Lemma idle_bare {X} (x : op X) : (forall m, released m -> snd (x m) = m) -> keeps idles x.
Proof. intros H m Hm. by rewrite H. Qed.
Lemma session_idles {X} (f : ClientSession.RtspSession -> outcome Stop (X * ClientSession.RtspSession)) : keeps idles (with_session f).
Proof. apply idle_bare. intros m (_ & E & _). unfold with_session. by rewrite E. Qed.
Lemma request_idles r : keeps idles (send_rtsp_request r).
Proof. apply idle_bare. intros m (E & _). unfold send_rtsp_request. by rewrite E. Qed.
Lemma processed_idles meth r : keeps idles (processed meth r).
Proof. apply idle_bare. intros m (_ & E & _). unfold processed. by rewrite E. Qed.
Lemma ask_idles : keeps idles ask.
Proof. intros m H. exact H. Qed.
#[local] Hint Resolve session_idles request_idles processed_idles ask_idles : conn.
Lemma command_idles meth b t : keeps idles (send_command meth b t).
Proof. unfold send_command. keep_parts. Qed.
#[local] Hint Resolve command_idles : conn.
Lemma control_idles p w : keeps idles (send_control p w).
Proof. apply idle_bare. intros m (_ & _ & _ & E & _). unfold send_control. by rewrite E. Qed.
Lemma control_grows p w : keeps grows (send_control p w).
Proof. intros m. unfold send_control. destruct (sockets m); [|done]. by destruct (udp_send _). Qed.
#[local] Hint Resolve control_idles control_grows : conn.

(** An operation that neither changes the state nor opens or closes anything. *)
Definition steady {X} (x : op X) : Prop := keeps grows x /\ keeps idles x.
Lemma steady_settled {X} (x : op X) m : steady x -> told m -> settled m -> told (snd (x m)) /\ settled (snd (x m)).
Proof.
  intros [Hg Hi] Ht Hs. specialize (Hg m). specialize (Hi m). destruct (grows_tells _ _ Hg) as [H _]. split; [auto|].
  destruct Hg as (E & [Ho1 Ho2] & Hk). injection E as _ E1 E2 _. unfold settled in *. rewrite E1. destruct (m_state m); try done; [by apply Hi|].
  destruct Hs as (? & ? & ? & ?). split; [auto|]. split; [auto|]. split; [auto|]. by rewrite E2.
Qed.

Lemma audio_steady p : steady (send_rtp_audio p).
Proof.
  split; intros m; unfold send_rtp_audio.
  - destruct (dropped m p); [done|]. destruct (audio_tcp m); [destruct (send_framed _ _); done|]. destruct (sockets m); [|done]. by destruct (udp_send _).
  - intros Hr. destruct (dropped m p); [exact Hr|]. pose proof Hr as (_ & _ & _ & E1 & E2 & _). rewrite E1, E2. exact Hr.
Qed.
Lemma rtcp_steady p : steady (send_rtcp_control p).
Proof.
  split; intros m; unfold send_rtcp_control.
  - destruct (sockets m), (m_device m); try done. by destruct (udp_send _).
  - intros Hr. pose proof Hr as (_ & _ & _ & E1 & _). rewrite E1. exact Hr.
Qed.
Lemma time_announce_steady a b : steady (send_time_announce a b).
Proof. split; unfold send_time_announce; keep_parts; first [done|by intros Hr; exact Hr]. Qed.
Lemma command_steady meth b t : steady (send_command meth b t).
Proof. split; [eauto with conn|apply command_idles]. Qed.
Lemma post_steady path b t : steady (send_post_command path b t).
Proof. split; [eauto with conn|unfold send_post_command; keep_parts]. Qed.
Lemma get_steady path : steady (send_get_command path).
Proof. split; [eauto with conn|unfold send_get_command; keep_parts]. Qed.
Lemma record_steady : steady record.
Proof. split; [eauto with conn|unfold record; keep_parts]. Qed.
Lemma flush_steady a b : steady (send_flush a b).
Proof. split; [eauto with conn|unfold send_flush; keep_parts]. Qed.
Lemma anchor_steady rate : steady (send_set_rate_anchor_time rate).
Proof. split; [eauto with conn|unfold send_set_rate_anchor_time; keep_parts]. Qed.
Lemma remove_steady i : steady (remove_pairing i).
Proof. split; unfold remove_pairing; keep_parts; cbn; (destruct (pairing_storage m); first [done|by intros Hr; exact Hr]). Qed.

(** ** connect and disconnect *)
Lemma open_stream_spec d m r m' : open_stream d m = (r, m') -> tells m m' /\ (r = Ok tt -> is_Some (stream m') /\ is_Some (rtsp_session m')).
Proof.
  unfold open_stream, bind, ask. destruct (tcp_connect _ _ _) as [s|e|]; [|by intros [= <- <-]..].
  destruct (session_ids _). intros [= <- <-]. split; [done|]. intros _. by split; eexists.
Qed.
#[local] Hint Resolve keeps_tells state_tells : conn.
Lemma internal_tells d : keeps tells (connect_internal d).
Proof.
  unfold connect_internal. apply keeps_bind; [typeclasses eauto|intros m; destruct (open_stream d m) eqn:E; by apply open_stream_spec in E as [? _]|].
  keep_parts. apply keeps_tells, setup_grows.
Qed.
Lemma keeps_opened {X} (x : op X) : keeps grows x -> keeps opened x.
Proof. intros H m. apply H. Qed.
Lemma internal_ok d m m' : connect_internal d m = (Ok tt, m') -> is_Some (stream m') /\ is_Some (rtsp_session m') /\ is_Some (session_keys m').
Proof.
  unfold connect_internal. intros ([] & m1 & H1 & H)%op_bind_ok. apply open_stream_spec in H1 as [_ H1]. destruct (H1 eq_refl) as [Hs Hr]. clear H1.
  apply op_bind_ok in H as (a2 & m2 & H2 & H). apply (keeps_run opened) in H2 as [O1 O2]; [|apply state_opened].
  apply op_bind_ok in H as (a3 & m3 & H3 & H). apply (keeps_run opened) in H3 as [O3 O4]; [|apply keeps_opened; eauto with conn].
  apply op_bind_ok in H as (a4 & m4 & H4 & H). apply (keeps_run opened) in H4 as [O5 O6]; [|apply keeps_opened; eauto with conn typeclass_instances].
  apply op_bind_ok in H as (a5 & m5 & H5 & H). apply (keeps_run opened) in H5 as [O7 O8]; [|apply state_opened].
  apply op_bind_ok in H as (a6 & m6 & H6 & H).
  apply (keeps_run opened) in H6 as [O9 O10]; [|apply keeps_opened; keep_parts].
  apply op_bind_ok in H as ([] & m7 & H7 & H). pose proof (keeps_run grows _ _ _ _ (authenticate_grows d) H7) as (_ & [O11 O12] & _).
  assert (is_Some (session_keys m7)) as Hk by (apply authenticate_spec in H7 as [(k & -> & _)|(Hk & _)]; [by eexists|done]).
  apply op_bind_ok in H as (a8 & m8 & H8 & H). destruct (state_set Client.SettingUp m7) as (m8' & E8 & _ & _ & F). rewrite E8 in H8. injection H8 as _ <-.
  apply (keeps_run grows _ _ _ _ setup_grows) in H as (_ & [O13 O14] & O15). injection F as F1 F2 F3. rewrite F1, F2, F3 in *. auto 20.
Qed.

Lemma connect_settled d m r m' : told m -> settled m -> connect d m = (r, m') -> told m' /\ (r <> Panic -> settled m') /\
  (Client.is_active (m_state m) = true -> m' = m) /\ (r = Ok tt -> m_state m' = Client.Connected /\ m_device m' = Some d).
Proof.
  intros Ht Hs. unfold connect. destruct (Client.is_active (m_state m)) eqn:Ha; [intros [= <- <-]; done|].
  destruct (state_set Client.Connecting m) as (m1 & E1 & S1 & T1 & _). unfold bind at 1. rewrite E1. unfold bind at 1, modify.
  set (m2 := set_device m1 (Some d)). assert (told m2) as Ht2 by (by apply T1).
  pose proof (internal_tells d m2) as [Hi Hd]. destruct (connect_internal d m2) as [[[]|[e|]|] m3] eqn:Ec; cbn [snd] in Hi, Hd; specialize (Hi Ht2).
  - destruct (state_set Client.Connected m3) as (m4 & E4 & S4 & T4 & F). unfold bind. rewrite E4. intros [= <- <-].
    pose proof (event_tells (Client.EvConnected d) ltac:(done) m4) as [T5 _]. split; [by apply T5, T4|]. injection F as F1 F2 F3 F4.
    apply internal_ok in Ec as (? & ? & ?). split; [|split; [done|]].
    + intros _. unfold settled. cbn. rewrite S4. unfold established. cbn. by rewrite F1, F2, F3, F4, Hd.
    + intros _. cbn. by rewrite S4, F4, Hd.
  - destruct (state_set Client.Failed m3) as (m4 & E4 & S4 & T4 & F). unfold bind. rewrite E4. intros [= <- <-].
    pose proof (event_tells (Client.EvError (show_error e) (is_recoverable e)) ltac:(done) m4) as [T5 _]. split; [by apply T5, T4|].
    split; [|done]. intros _. unfold settled. cbn. by rewrite S4.
  - destruct (state_set Client.Failed m3) as (m4 & E4 & S4 & T4 & F). unfold bind. rewrite E4. intros [= <- <-].
    split; [by apply T4|]. split; [|done]. intros _. unfold settled. by rewrite S4.
  - intros [= <- <-]. done.
Qed.

Lemma close_tells m : tells m (close m).
Proof. done. Qed.
Lemma disconnect_settled reason m r m' : told m -> settled m -> disconnect_with_reason reason m = (r, m') -> told m' /\ settled m' /\
  (r = Ok tt -> m_state m' = Client.Disconnected).
Proof.
  intros Ht Hs. unfold disconnect_with_reason, bind at 1, gets at 1. cbn [id].
  set (x := if bool_decide (m_state m = Client.Connected) then _ else _). assert (keeps grows x) as Hx by (unfold x; keep_parts).
  assert (keeps idles x) as Hi by (unfold x; keep_parts).
  unfold bind at 1. destruct (steady_settled x m (conj Hx Hi) Ht Hs) as [Ht1 Hs1]. destruct (x m) as [[[]|e|] m1]; [|by intros [= <- <-]..].
  unfold bind, modify at 1. cbn [snd] in *. destruct (state_set Client.Disconnected (close m1)) as (m2 & E & S2 & T2 & F). rewrite E.
  specialize (T2 Ht1). injection F as F1 F2 F3 F4 F5 F6 F7 F8 F9.
  assert (settled m2) as Hs2 by (unfold settled; rewrite S2; unfold released; rewrite F1, F2, F3, F5, F6, F7, F8, F9; done).
  destruct (m_device m) as [d|]; [|by intros [= <- <-]]. intros [= <- <-].
  pose proof (event_tells (Client.EvDisconnected d reason) ltac:(done) m2) as [T3 _]. split; [by apply T3|]. done.
Qed.

(** ** Sequences of calls, datagrams and clock updates *)
Inductive ManagerOp :=
| OpConnect (d : Discovery.AirPlayDevice) | OpDisconnect (reason : Client.DisconnectReason) | OpRemovePairing (device_id : list Z)
| OpCommand (meth : Method) (b : option (list Z)) (t : option string) | OpPost (path : string) (b : option (list Z)) (t : option string) | OpGet (path : string)
| OpRecord | OpFlush (seq timestamp : Z) | OpAnchor (rate : Z) | OpAudio (packet : list Z) | OpRtcp (packet : list Z) | OpAnnounce (rtp rate : Z)
| OpControl (datagram : list Z) | OpClock (f : PtpClock.PtpClock -> PtpClock.PtpClock).

(** A call that its caller gives up leaves what it had done. *)
Definition after {X} (x : op X) (m : Manager) : outcome Empty_set Manager := match x m with (Panic, _) => Panic | (_, m) => Ok m end.
Definition manager_op (m : Manager) (o : ManagerOp) : outcome Empty_set Manager :=
  match o with
  | OpConnect d => after (connect d) m
  | OpDisconnect r => after (disconnect_with_reason r) m
  | OpRemovePairing i => after (remove_pairing i) m
  | OpCommand meth b t => after (send_command meth b t) m
  | OpPost p b t => after (send_post_command p b t) m
  | OpGet p => after (send_get_command p) m
  | OpRecord => after record m
  | OpFlush a b => after (send_flush a b) m
  | OpAnchor r => after (send_set_rate_anchor_time r) m
  | OpAudio p => after (send_rtp_audio p) m
  | OpRtcp p => after (send_rtcp_control p) m
  | OpAnnounce a b => after (send_time_announce a b) m
  | OpControl d => after (control_received d) m
  | OpClock f => after (modify (fun m => set_ptp_clock m (f <$> ptp_clock m))) m
  end.
Fixpoint run (m : Manager) (os : list ManagerOp) : outcome Empty_set Manager :=
  match os with [] => Ok m | o :: os => m ← manager_op m o; run m os end.

Lemma steady_after {X} (x : op X) m m' : steady x -> told m -> settled m -> after x m = Ok m' -> told m' /\ settled m'.
Proof.
  intros Hx Ht Hs E. destruct (steady_settled x m Hx Ht Hs) as [H1 H2]. unfold after in E. destruct (x m) as [[]  m1]; try discriminate E; injection E as <-; done.
Qed.
Lemma clock_steady f : steady (modify (fun m => set_ptp_clock m (f <$> ptp_clock m))).
Proof. split; keep_parts; [done|]. intros (E1 & E2 & E3 & E4 & E5 & E6 & E7). unfold released. cbn. by rewrite E1, E2, E3, E4, E5, E6. Qed.
Lemma control_settled data m m' : told m -> settled m -> after (control_received data) m = Ok m' -> told m' /\ settled m'.
Proof.
  intros Ht Hs. unfold after, control_received. destruct (control_datagram data) as [e|] eqn:E; [|by intros [= <-]]. intros [= <-].
  unfold control_datagram in E. destruct (_ && _); [|done]. injection E as <-.
  edestruct (event_tells (Client.RetransmitRequest (from_be (take 2 (drop 4 (take 1024 data)))) (from_be (take 2 (drop 6 (take 1024 data))))) ltac:(done) m) as [T _].
  split; [by apply T|done].
Qed.
Lemma op_settled m o m' : told m -> settled m -> manager_op m o = Ok m' -> told m' /\ settled m'.
Proof.
  intros Ht Hs. destruct o; cbn [manager_op].
  - unfold after. destruct (connect d m) as [r m1] eqn:E. apply connect_settled in E as (H1 & H2 & _); [|done..]. destruct r; intros [= <-]; auto.
  - unfold after. destruct (disconnect_with_reason _ m) as [r m1] eqn:E. apply disconnect_settled in E as (H1 & H2 & _); [|done..]. destruct r; by intros [= <-].
  - intros E. eapply steady_after; [|exact Ht|exact Hs|exact E]; apply remove_steady.
  - intros E. eapply steady_after; [|exact Ht|exact Hs|exact E]; apply command_steady.
  - intros E. eapply steady_after; [|exact Ht|exact Hs|exact E]; apply post_steady.
  - intros E. eapply steady_after; [|exact Ht|exact Hs|exact E]; apply get_steady.
  - intros E. eapply steady_after; [|exact Ht|exact Hs|exact E]; apply record_steady.
  - intros E. eapply steady_after; [|exact Ht|exact Hs|exact E]; apply flush_steady.
  - intros E. eapply steady_after; [|exact Ht|exact Hs|exact E]; apply anchor_steady.
  - intros E. eapply steady_after; [|exact Ht|exact Hs|exact E]; apply audio_steady.
  - intros E. eapply steady_after; [|exact Ht|exact Hs|exact E]; apply rtcp_steady.
  - intros E. eapply steady_after; [|exact Ht|exact Hs|exact E]; apply time_announce_steady.
  - by apply control_settled.
  - intros E. eapply steady_after; [|exact Ht|exact Hs|exact E]; apply clock_steady.
Qed.

Lemma run_settled os : forall m m', told m -> settled m -> run m os = Ok m' -> told m' /\ settled m'.
Proof.
  induction os as [|o os IH]; intros m m' Ht Hs; cbn [run]; [by intros [= <-]|].
  destruct (manager_op m o) as [m1| |] eqn:E; [|done..]. intros H. apply op_settled in E as [? ?]; [|done..]. by apply (IH m1).
Qed.

(** C12: the connection manager keeps its word. After any sequence of connections,
    disconnections, commands, packets, datagrams of the device and updates of its clock
    that does not panic, whatever the network does and whichever of them failed or was
    given up because the device is silent, the manager is connected, disconnected or
    failed, and replaying the state changes it announced gives that state. When it is
    connected the stream, the session, its keys and the device are there; when it is
    disconnected the stream, the session, its keys, the sockets, the clock and the event
    channel are gone; the code leaves the secure session and the device set. Giving up
    is modelled where a call waits for the network, not at its other awaits. *)
Theorem connection_settles (c : Config) (storage : gmap (list Z) PairVerify.PairingKeys) (os : list ManagerOp) (m : Manager)
  (Hr : run (storing (Manager_new c) storage) os = Ok m) :
  follows Client.Disconnected (m_events m) = Some (m_state m) /\
  match m_state m with
  | Client.Disconnected => released m
  | Client.Connected => established m
  | Client.Failed => True
  | _ => False
  end.
Proof. by apply (run_settled os (storing (Manager_new c) storage)). Qed.

(** ** The two ends of SETUP *)

Lemma port_found d key p : dict_get (bs key) d = Some (Integer p) -> uint 16 p -> port_of d key = Some p.
Proof. intros E Hp. unfold port_of. rewrite E. cbn. by rewrite wrap_small. Qed.
Lemma phase1_dict event timing : exists d, Ap2Setup.to_plist (Ap2Setup.phase1 event timing) = Dictionary d /\
  dict_get (bs "eventPort") d = Some (Integer event) /\ dict_get (bs "timingPort") d = Some (Integer timing) /\ dict_get (bs "timingPeerInfo") d = None.
Proof. eexists. split; [reflexivity|]. split; [by vm_compute|]. split; by vm_compute. Qed.
Lemma phase2_dict data control latency : exists d, Ap2Setup.to_plist (Ap2Setup.phase2 data control latency) = Dictionary d /\
  dict_get (bs "dataPort") d = Some (Integer data) /\ dict_get (bs "controlPort") d = Some (Integer control).
Proof.
  unfold Ap2Setup.to_plist. cbn [Ap2Setup.audio_latency Ap2Setup.phase2]. destruct (0 <? latency);
    (eexists; split; [reflexivity|]; split; by vm_compute).
Qed.

(** The client and the receiver of this crate agree on the ports. For every pair of
    ports the receiver hands out in the two phases of SETUP, its answers are encoded, and
    the client reads from them the event and timing port and the data and control port. *)
Theorem setup_answers_agree (event timing data control latency : Z)
  (He : uint 16 event) (Ht : uint 16 timing) (Hd : uint 16 data) (Hc : uint 16 control) (Hl : uint 32 latency) : exists b1 b2,
  Ap2Body.encode_bplist_body (Ap2Setup.to_plist (Ap2Setup.phase1 event timing)) = Ok b1 /\ step1_answer b1 = (Some event, Some timing, None, None) /\
  Ap2Body.encode_bplist_body (Ap2Setup.to_plist (Ap2Setup.phase2 data control latency)) = Ok b2 /\ step2_ports b2 = Some (data, control).
Proof.
  destruct (Ap2Setup.phase1_file event timing He Ht) as (b1 & E1 & D1). destruct (Ap2Setup.phase2_file data control latency Hd Hc Hl) as (b2 & E2 & D2).
  destruct (phase1_dict event timing) as (d1 & F1 & G1 & G2 & G3). destruct (phase2_dict data control latency) as (d2 & F2 & G4 & G5).
  exists b1, b2. split; [done|]. split; [|split; [done|]].
  - unfold step1_answer. rewrite D1, F1, G3. by rewrite (port_found d1 "eventPort" event), (port_found d1 "timingPort" timing).
  - unfold step2_ports. rewrite D2, F2. by rewrite (port_found d2 "dataPort" data), (port_found d2 "controlPort" control).
Qed.

(** The requests do not fit: the client's first SETUP names no streams, which the
    receiver of this crate requires of every SETUP, and the stream type 103 of the second
    one, for PTP, is to the receiver no audio stream.  With NTP the second one is. *)
Lemma own_setup_rejected {AS : Ap2Body.AddrSyntax} use_ptp peer ek eiv c hires ctrl time :
  Ap2Setup.from_plist (norm (step1_plist use_ptp peer ek eiv)) = Err (Ap2Setup.MissingField "streams") /\
  exists r, Ap2Setup.from_plist (norm (step2_plist c use_ptp hires ek eiv ctrl time)) = Ok r /\ Ap2Setup.is_phase1 r = false /\ Ap2Setup.is_phase2 r = negb use_ptp.
Proof.
  split; [by destruct use_ptp|]. destruct c, use_ptp, hires; (eexists; split; [reflexivity|]; done).
Qed.

(** ** What is wrong *)

Lemma from_nanos_inv {E} z t : Ptp.from_nanos (E := E) z = Ok t -> Ptp.to_nanos t = z.
Proof.
  unfold Ptp.from_nanos. destruct (_ <? _); [done|]. unfold chk_u. destruct (_ && _); [|done]. cbn. intros [= <-]. unfold Ptp.to_nanos, Ptp.NANOS_PER_SEC. cbn.
  pose proof (Z.div_mod z 1000000000). lia.
Qed.

(** The time of [get_ptp_network_time] is the local time plus the offset, the one of
    SETRATEANCHORTIME the local time minus it, which is the master's: they are twice the
    offset apart. *)
Lemma network_time_sign (m : Manager) (c : PtpClock.PtpClock) (s f i s' f' : Z) : ptp_clock m = Some c ->
  - Ptp.to_nanos (wall_clock (asked m)) <= PtpClock.offset_ns c <= Ptp.to_nanos (wall_clock (asked m)) ->
  get_ptp_network_time m = Ok (Some (s, f, i)) -> anchor_time m (wall_clock (asked m)) = Ok (s', f') ->
  exists t t', Ptp.to_nanos t - Ptp.to_nanos t' = 2 * PtpClock.offset_ns c /\ (Ptp.seconds t, Ptp.seconds t') = (s, s') /\
    f' = fraction (Ptp.nanoseconds t').
Proof.
  intros Hc Ho. unfold get_ptp_network_time, anchor_time. rewrite Hc. destruct (negb _); [done|].
  unfold PtpClock.remote_to_local, PtpClock.clamp_from_nanos. rewrite !(proj2 (Z.leb_le 0 _)) by lia.
  destruct (Ptp.from_nanos (_ + _)) as [t| |] eqn:E; [|done..]. destruct (Ptp.from_nanos (_ - _)) as [t'| |] eqn:E'; [|done..].
  cbn. destruct (_ <=? _); [done|]. intros [= <- <- <-] [= <- <-]. exists t, t'. split; [|done].
  apply from_nanos_inv in E, E'. lia.
Qed.

(** A clock identity and half a response outlive the connection they came from. *)
Lemma close_keeps (m : Manager) : device_clock_id (close m) = device_clock_id m /\ codec (close m) = codec m /\ ntp_offset (close m) = ntp_offset m.
Proof. done. Qed.

(** Requests have no time-out of their own: disconnecting from a device that has become
    silent does not return. *)
Lemma silent_disconnect_blocks (m : Manager) (t : TcpStream) (s : ClientSession.RtspSession) (reason : Client.DisconnectReason) :
  m_state m = Client.Connected -> stream m = Some t -> reads t = [] -> silent t = true -> write_error t = None ->
  rtsp_session m = Some s -> uint 32 (ClientSession.cseq s + 1) -> secure_session m = None -> codec m = RtspClient.codec_new ->
  fst (disconnect_with_reason reason m) = Err Blocked.
Proof.
  intros H1 H2 H3 H4 H5 H6 H7 H8 H9. unfold disconnect_with_reason, bind, gets. cbn [id]. rewrite bool_decide_true by done. rewrite H6.
  unfold with_session. rewrite H6. unfold ClientSession.teardown_request, ClientSession.request_builder, ClientSession.next_cseq.
  rewrite chk_u_ok by done. cbn [mbind outcome_bind]. unfold catch, send_rtsp_request. cbn [stream set_rtsp_session secure_session codec]. rewrite H2, H5, H8, H9, H3.
  unfold RtspClient.send_rtsp_request. cbn [RtspClient.secure_session RtspClient.rtsp_codec].
  destruct (RtspClient.await_response _ _ _) as [[res st] rs] eqn:E. cbn in E. injection E as <- <- <-.
  unfold ran_dry. by rewrite H4, H3.
Qed.

(** ** The manager under the client *)
Definition stop_text (s : Stop) : list Z := match s with Failure e => show_error e | Blocked => [] end.
#[local] Instance manager_link : CommandLink :=
  Build_CommandLink Manager Stop (fun m meth b t => ConnLink.send_command meth b t m) (fun m path b t => send_post_command path b t m)
    (fun m => match get_ptp_network_time m with Ok t => t | _ => None end).
(** The scan is the browser's ([Discovery]). *)
#[local] Instance manager_connection (scan : Manager -> outcome Stop (list Discovery.AirPlayDevice) * Manager) : Client.Connection :=
  Client.Build_Connection manager_link m_state m_device (fun m d => connect d m) (fun m r => disconnect_with_reason r m) (fun m path => send_get_command path m)
    scan stop_text encryption_key ptp_active (fun m rate => send_set_rate_anchor_time rate m) (fun m => record m).

(** A client that has connected says so, and is on the device it was asked for: the
    manager under it is connected, with its stream and keys. *)
Lemma client_connected scan {F : Floats} {L10 : Log10} (c c' : Client.AirPlayClient (CO := manager_connection scan)) (d : Discovery.AirPlayDevice) :
  told (Client.connection c) -> settled (Client.connection c) -> Client.connect c d = (Ok tt, c') ->
  Client.is_connected c' = true /\ Client.device (Client.current (Client.state c')) = Some d /\ m_device (Client.connection c') = Some d /\
  established (Client.connection c').
Proof.
  intros Ht Hs. unfold Client.connect. cbn [Client.conn_connect manager_connection].
  destruct (connect d (Client.connection c)) as [[[]|e|] m] eqn:E; [|done..]. intros [= <-].
  apply connect_settled in E as (_ & H1 & _ & H2); [|done..]. destruct (H2 eq_refl) as [H3 H4]. specialize (H1 ltac:(done)). unfold settled in H1. rewrite H3 in H1.
  unfold Client.is_connected. cbn. rewrite bool_decide_true by done. done.
Qed.

(** Offline, a command of the client fails and leaves the manager as it is. *)
Lemma client_offline scan {F : Floats} {L10 : Log10} (c : Client.AirPlayClient (CO := manager_connection scan)) (body : Client.AirPlayClient -> outcome Client.ClientError unit * Client.AirPlayClient) :
  m_state (Client.connection c) <> Client.Connected -> Client.connected_only c body = (Err (Client.DisconnectedFrom
    (match m_device (Client.connection c) with Some d => Discovery.d_name d | None => bs "none" end)), c).
Proof. intros H. unfold Client.connected_only, Client.ensure_connected, Client.is_connected. cbn. by rewrite bool_decide_false. Qed.
End WithCrypto.

(** ** Witnesses *)

(** A device that follows the protocol, with NTP, and knows the client's key. *)
#[local] Existing Instance ToyAead.toy_aead.
#[local] Existing Instance KeyCrypto.toy_pair_crypto.
#[local] Existing Instance reverse_order.
#[local] Instance demo_sha : Sha512 := fun m => replicate 64 0.

Definition demo_device : Discovery.AirPlayDevice :=
  Discovery.mkDevice (bs "id") (bs "Kitchen") None [Discovery.V4 0x0A000003] 7000 Features.Caps_default None None ∅ None.
Definition demo_keys : PairVerify.PairingKeys := PairVerify.mkKeys (bs "airplay2-rs") (replicate 32 7) [] (ed_public [5]).
Definition demo_reply (body : list Z) : list Z :=
  bs "HTTP/1.1 200 OK" ++ [13; 10] ++ bs "Content-Length: " ++ bs (pretty (Z.of_nat (length body))) ++ [13; 10; 13; 10] ++ body.
Definition demo_answer (n : Z) (body : list Z) : list Z :=
  encode_response (Rtsp.Builder_build (Builder_binary_body (Builder_cseq Builder_ok n) body "application/octet-stream")).
Definition demo_m2 : list Z :=
  let eph := replicate 32 9 in
  let k := default [] (hkdf_expand (Some (bs "Pair-Verify-Encrypt-Salt")) (x_dh eph (x_public [11])) (bs "Pair-Verify-Encrypt-Info") 32) in
  let enc := default [] (aead_seal k (PairSetup.label_nonce (bs "PV-Msg02")) [] (Tlv.encode_all (PairVerify.device_sub (bs "device") [5] [11] (x_public eph)))) in
  Tlv.encode_all (PairVerify.device_m2 [11] enc).
Definition plist_bytes (v : PlistValue) : list Z := match encode v with Ok b => b | _ => [] end.
Definition demo_reads : list (list Z) :=
  [demo_answer 1 []; demo_answer 2 []; demo_answer 3 []; demo_reply demo_m2; demo_reply (Tlv.encode_all PairVerify.device_m4); demo_answer 4 []; demo_answer 5 [];
   demo_answer 6 []; demo_answer 7 (plist_bytes (Ap2Setup.to_plist (Ap2Setup.phase1 7001 7002)));
   demo_answer 8 (plist_bytes (Ap2Setup.to_plist (Ap2Setup.phase2 7003 7004 11025))); demo_answer 9 []; demo_answer 10 []].
#[local] Instance demo_net : Net := {|
  tcp_connect _ _ p := if p =? 7000 then Opened (mkTcp demo_reads true None []) else Refused "refused"; local_addr _ := Some "10.0.0.2";
  udp_bind n _ := Ok (50000 + Z.of_nat n); udp_connect _ _ _ := None; udp_send _ := None; ntp_query _ := Some 250; random_bytes _ k := replicate k 9;
  random_number _ := 12345; session_ids _ := ("00112233AABBCCDD", "0123456789ABCDEF"); wall_clock _ := Ptp.mkTs 1700000000 0; monotonic n := Z.of_nat n;
  eld_encoder := None; dict_order l := l; show_ip _ := "10.0.0.3"; show_error _ := [] |}.
Definition demo_manager : Manager := storing (Manager_new (mkConfig AudioFormat.Pcm false None Auto)) {[bs "id" := demo_keys]}.
Definition demo_state (os : list ManagerOp) : option (Client.ConnectionState * bool * bool * nat) :=
  match run demo_manager os with
  | Ok m => Some (m_state m, bool_decide (is_Some (sockets m)), match secure_session m with Some _ => true | None => false end, length (m_events m))
  | _ => None
  end.

(** The device is connected with the stored keys, and the session is not encrypted: all
    that follows, the key of the audio in SETUP included, is sent in the clear. *)
Example stored_keys_in_clear :
  demo_state [OpConnect demo_device] = Some (Client.Connected, true, false, 6%nat) /\
  match run demo_manager [OpConnect demo_device] with
  | Ok m => match stream m, session_keys m with
            | Some t, Some k => contains (PairSetup.raw_shared_secret k) (concat (written t)) = true
            | _, _ => False
            end
  | _ => False
  end.
Proof. split; vm_compute; reflexivity. Qed.

Lemma connection_settles_witness : exists m,
  run demo_manager [OpConnect demo_device; OpCommand SetParameter None None; OpDisconnect Client.UserRequested] = Ok m /\
  follows Client.Disconnected (m_events m) = Some Client.Disconnected /\ released m.
Proof.
  destruct (run demo_manager [OpConnect demo_device; OpCommand SetParameter None None; OpDisconnect Client.UserRequested]) as [m|e|] eqn:E.
  - exists m. split; [done|].
    destruct (connection_settles _ _ _ _ E) as [H1 H2].
    assert (m_state m = Client.Disconnected) as Hm.
    { assert (match run demo_manager [OpConnect demo_device; OpCommand SetParameter None None; OpDisconnect Client.UserRequested] with
              | Ok m => m_state m = Client.Disconnected | _ => False end) as H by (vm_compute; reflexivity). by rewrite E in H. }
    rewrite Hm in H1, H2. split; [exact H1|exact H2].
  - exfalso. assert (match run demo_manager [OpConnect demo_device; OpCommand SetParameter None None; OpDisconnect Client.UserRequested] with Ok _ => True | _ => False end) as H
      by (vm_compute; exact I). by rewrite E in H.
  - exfalso. assert (match run demo_manager [OpConnect demo_device; OpCommand SetParameter None None; OpDisconnect Client.UserRequested] with Ok _ => True | _ => False end) as H
      by (vm_compute; exact I). by rewrite E in H.
Defined.

Lemma setup_answers_agree_witness : exists b1 b2, step1_answer b1 = (Some 7001, Some 7002, None, None) /\ step2_ports b2 = Some (7003, 7004).
Proof.
  destruct (setup_answers_agree 7001 7002 7003 7004 11025) as (b1 & b2 & _ & H1 & _ & H2); [unfold uint; lia..|].
  exists b1, b2. split; [exact H1|exact H2].
Defined.
End ConnManager.
