(* ===== verification/RaopStream.v ===== *)
(** * RAOP audio: the client's streamer and the receiver's decryption

    Models [src/streaming/raop_streamer.rs] (packets, encryption, retransmission,
    sync and timing packets) and [src/receiver/rtp_receiver.rs] (decoding and
    decryption of the packets that arrive).  Instants and the wall clock are
    arguments.  The pool of encode buffers is its size and the next index: a buffer
    is emptied before it is used and after. *)

From stdpp Require Import gmap pretty.
From S2P Require Import Text AesCtr RtpPacket RtpTiming RtpControl PacketBuffer JitterBuffer Sdp.

(** The decryption direction of the block cipher. *)
Class BlockDecipher := aes_unblock : list Z -> list Z -> list Z.
Class BlockDecipherLaws (C : BlockCipher) (D : BlockDecipher) :=
  aes_unblock_block : forall key b, length b = 16%nat -> aes_unblock key (aes_block key b) = b.

Module RaopStream.
Import AesCtr RtpControl PacketBuffer Sdp.

(** ** The streamer *)
Record RaopStreamConfig := mkStreamConfig { sample_rate : Z; samples_per_packet : Z; ssrc : Z; enable_retransmit : bool }.
Definition StreamConfig_default (random : Z) : RaopStreamConfig := mkStreamConfig 44100 352 random true.

Record RaopStreamer := mkStreamer {
  config : RaopStreamConfig; sequence : Z; timestamp : Z; cipher : Aes128Ctr; buffer : PacketBuffer;
  encode_buffers : nat; encode_buffer_index : nat; timing : RtpTiming.TimingSync; is_first_packet : bool;
  last_sync : Z; last_timing : Z
}.

Definition TIMING_INTERVAL : Z := 3000000000.
Definition SYNC_INTERVAL : Z := 1000000000.

Section WithCipher.
Context {C : BlockCipher}.

Definition Streamer_new {E} (keys : RaopSessionKeys) (cfg : RaopStreamConfig) (now : Z) : outcome E RaopStreamer :=
  match Aes128Ctr_new (k_aes_key keys) (k_aes_iv keys) with
  | Ok c =>
      let pool_size := if enable_retransmit cfg then (DEFAULT_SIZE + 16)%nat else 2%nat in
      Ok (mkStreamer cfg 0 0 c (PacketBuffer_new DEFAULT_SIZE) pool_size 0 RtpTiming.TimingSync_new true now now)
  | _ => Panic
  end.

Definition encode_frame {E} (s : RaopStreamer) (audio_data : list Z) : outcome E (list Z * RaopStreamer) :=
  if negb (encode_buffer_index s <? encode_buffers s)%nat then Panic
  else
    let header := RaopAudioPacket_write_header [] (is_first_packet s) (sequence s) (timestamp s) (ssrc (config s)) in
    let offset := timestamp s * 4 in
    let '(data, cipher') := apply_keystream (seek (cipher s) offset) audio_data in
    let encoded_bytes := header ++ data in
    let index := ((encode_buffer_index s + 1) mod encode_buffers s)%nat in
    let buffer' := if enable_retransmit (config s)
                   then push (buffer s) {| bp_sequence := sequence s; bp_timestamp := timestamp s; bp_data := encoded_bytes |}
                   else buffer s in
    Ok (encoded_bytes,
        mkStreamer (config s) (sequence s +%u16 1) (timestamp s +%u32 samples_per_packet (config s)) cipher' buffer'
          (encode_buffers s) index (timing s) false (last_sync s) (last_timing s)).

(** [p.data[4..]] panics on a shorter packet. *)
Definition wrap_retransmit {E} (p : BufferedPacket) : outcome E (list Z) :=
  rest ← slice (bp_data p) 4 (length (bp_data p));
  Ok ([0x80; 0xD6] ++ to_be 2 (bp_sequence p) ++ rest).
Fixpoint wrap_all {E} (ps : list BufferedPacket) : outcome E (list (list Z)) :=
  match ps with
  | [] => Ok []
  | p :: ps => r ← wrap_retransmit p; rs ← wrap_all ps; Ok (r :: rs)
  end.
Definition handle_retransmit {E} (s : RaopStreamer) (seq_start count : Z) : outcome E (list (list Z)) :=
  wrap_all (get_range (buffer s) seq_start count).

Definition should_send_sync (s : RaopStreamer) (now : Z) : bool := SYNC_INTERVAL <=? Z.max 0 (now - last_sync s).
Definition should_send_timing (s : RaopStreamer) (now : Z) : bool := TIMING_INTERVAL <=? Z.max 0 (now - last_timing s).

Definition create_sync_packet (s : RaopStreamer) (ntp : RtpTiming.NtpTimestamp) (now : Z) : list Z * RaopStreamer :=
  let packet := SyncPacket_new (timestamp s) ntp (timestamp s +%u32 samples_per_packet (config s)) false in
  (SyncPacket_encode packet,
   mkStreamer (config s) (sequence s) (timestamp s) (cipher s) (buffer s) (encode_buffers s) (encode_buffer_index s)
     (timing s) (is_first_packet s) now (last_timing s)).

Definition create_timing_request (s : RaopStreamer) (ntp : RtpTiming.NtpTimestamp) (now : Z) : list Z * RaopStreamer :=
  let '(req, t) := RtpTiming.TimingSync_create_request (timing s) ntp in
  (req, mkStreamer (config s) (sequence s) (timestamp s) (cipher s) (buffer s) (encode_buffers s) (encode_buffer_index s)
          t (is_first_packet s) (last_sync s) now).

Definition process_timing_response (s : RaopStreamer) (data : list Z) (ntp : RtpTiming.NtpTimestamp)
  : outcome RtpPacket.RtpDecodeError RaopStreamer :=
  t ← RtpTiming.TimingSync_process_response (timing s) data ntp;
  Ok (mkStreamer (config s) (sequence s) (timestamp s) (cipher s) (buffer s) (encode_buffers s) (encode_buffer_index s)
        t (is_first_packet s) (last_sync s) (last_timing s)).

Definition flush (s : RaopStreamer) : RaopStreamer :=
  mkStreamer (config s) (sequence s) (timestamp s) (cipher s) (clear (buffer s)) (encode_buffers s) (encode_buffer_index s)
    (timing s) true (last_sync s) (last_timing s).
Definition reset (s : RaopStreamer) : RaopStreamer :=
  mkStreamer (config s) 0 0 (cipher s) (clear (buffer s)) (encode_buffers s) (encode_buffer_index s)
    RtpTiming.TimingSync_new true (last_sync s) (last_timing s).

(** The frames one after the other. *)
Fixpoint encode_frames {E} (s : RaopStreamer) (fs : list (list Z)) : outcome E (list (list Z) * RaopStreamer) :=
  match fs with
  | [] => Ok ([], s)
  | f :: fs => '(p, s) ← encode_frame s f; '(ps, s) ← encode_frames s fs; Ok (p :: ps, s)
  end.

(** ** The receiver *)
Record AudioDecryptor := mkAudioDecryptor { dec_key : list Z; dec_iv : list Z }.

Inductive RtpReceiveError :=
| Io | InvalidPacket (e : RtpPacket.RtpDecodeError) | WrongPayloadType (b : Z) | DecryptionFailed (s : string) | ChannelClosed.

Context {D : BlockDecipher}.

(** The loop over the whole blocks; [chunks(16)] of a multiple of 16. *)
Fixpoint cbc_blocks (key prev : list Z) (blocks : list (list Z)) : list Z :=
  match blocks with
  | [] => []
  | chunk :: blocks => xor_bytes (aes_unblock key chunk) prev ++ cbc_blocks key chunk blocks
  end.
Definition audio_decrypt (d : AudioDecryptor) (encrypted : list Z) : list Z :=
  if (length encrypted =? 0)%nat then []
  else
    let encrypted_len := (length encrypted / 16 * 16)%nat in
    if (encrypted_len =? 0)%nat then encrypted
    else cbc_blocks (dec_key d) (dec_iv d) (chunks 16 (take encrypted_len encrypted)) ++ drop encrypted_len encrypted.

Definition RtpReceiver_decryptor (p : StreamParameters) : option AudioDecryptor :=
  match aes_key p, aes_iv p with Some k, Some iv => Some (mkAudioDecryptor k iv) | _, _ => None end.

(** [open] is whether the channel still has its receiver. *)
Definition process_packet (dec : option AudioDecryptor) (data : list Z) (now : Z) (open : bool)
  : outcome RtpReceiveError JitterBuffer.AudioPacket :=
  header ← map_err InvalidPacket (RtpPacket.RtpHeader_decode data);
  match RtpPacket.payload_type header with
  | RtpPacket.AudioRealtime | RtpPacket.AudioBuffered =>
    payload ← slice data RtpPacket.HEADER_SIZE (length data);
    let audio := match dec with Some d => audio_decrypt d payload | None => payload end in
    if open then Ok (JitterBuffer.mkPacket (RtpPacket.sequence header) (RtpPacket.timestamp header) (RtpPacket.ssrc header) audio now)
    else Err ChannelClosed
  | t => Err (WrongPayloadType (RtpPacket.PayloadType_as_u8 t))
  end.

(** The receive loop over the datagrams that arrive, each cut to the 2048 bytes of
    the buffer: short ones and errors are skipped. *)
Definition MAX_PACKET_SIZE : nat := 2048.
Fixpoint receive (dec : option AudioDecryptor) (datagrams : list (list Z * Z * bool))
  : outcome RtpReceiveError (list JitterBuffer.AudioPacket) :=
  match datagrams with
  | [] => Ok []
  | (d, now, open) :: rest =>
      let d := take MAX_PACKET_SIZE d in
      if (length d <? RtpPacket.HEADER_SIZE)%nat then receive dec rest
      else
        match process_packet dec d now open with
        | Ok p => ps ← receive dec rest; Ok (p :: ps)
        | Err ChannelClosed => Ok []
        | Err _ => receive dec rest
        | Panic => Panic
        end
  end.

(** ** What the streamer sends *)
Context {CL : BlockCipherLaws C}.

Definition ts_of (cfg : RaopStreamConfig) (k : Z) : Z := wrap 32 (k * samples_per_packet cfg).

(** The packet of frame number [k]. *)
Definition packet_of (cfg : RaopStreamConfig) (keys : RaopSessionKeys) (k : nat) (f : list Z) : RaopAudioPacket :=
  {| audio_marker := (k =? 0)%nat; audio_sequence := wrap 16 (Z.of_nat k); audio_timestamp := ts_of cfg (Z.of_nat k);
     audio_ssrc := ssrc cfg;
     audio_payload := xor_bytes f (keystream (k_aes_key keys) (k_aes_iv keys) (Z.to_nat (ts_of cfg (Z.of_nat k) * 4)) (length f)) |}.
Definition buffered (cfg : RaopStreamConfig) (keys : RaopSessionKeys) (k : nat) (f : list Z) : BufferedPacket :=
  {| bp_sequence := wrap 16 (Z.of_nat k); bp_timestamp := ts_of cfg (Z.of_nat k);
     bp_data := RaopAudioPacket_encode (packet_of cfg keys k f) |}.

(** The streamer after the frames [hist]. *)
Record ready (cfg : RaopStreamConfig) (keys : RaopSessionKeys) (hist : list (list Z)) (s : RaopStreamer) : Prop := {
  rd_config : config s = cfg;
  rd_seq : sequence s = wrap 16 (Z.of_nat (length hist));
  rd_ts : timestamp s = ts_of cfg (Z.of_nat (length hist));
  rd_ok : state_ok (cipher s);
  rd_key : key (cipher s) = k_aes_key keys;
  rd_iv : base_counter_block (cipher s) = k_aes_iv keys;
  rd_index : (encode_buffer_index s < encode_buffers s)%nat;
  rd_first : is_first_packet s = (length hist =? 0)%nat;
  rd_buffer : buffer s = foldl push (PacketBuffer_new DEFAULT_SIZE) (imap (buffered cfg keys) hist)
}.

Lemma wrap_add w a b : 0 < w -> wrap w (wrap w a + b) = wrap w (a + b).
Proof. intros. unfold wrap. apply Z.add_mod_idemp_l. lia. Qed.

Lemma new_ready {E} keys cfg now : length (k_aes_key keys) = 16%nat -> length (k_aes_iv keys) = 16%nat ->
  exists s, Streamer_new (E := E) keys cfg now = Ok s /\ ready cfg keys [] s.
Proof.
  intros Hk Hiv. unfold Streamer_new, Aes128Ctr_new. rewrite Hk, Hiv. cbn [Nat.eqb negb]. eexists. split; [done|].
  split; cbn [config sequence timestamp cipher encode_buffer_index encode_buffers is_first_packet buffer]; try done.
  destruct (enable_retransmit cfg); unfold DEFAULT_SIZE; lia.
Qed.

Lemma encode_ready {E} cfg keys hist s f : enable_retransmit cfg = true -> ready cfg keys hist s ->
  exists s', encode_frame (E := E) s f = Ok (RaopAudioPacket_encode (packet_of cfg keys (length hist) f), s') /\ ready cfg keys (hist ++ [f]) s'.
Proof.
  intros He [Hc Hs Ht Hok Hk Hiv Hi Hf Hb]. unfold encode_frame. destruct (Nat.ltb_spec (encode_buffer_index s) (encode_buffers s)); [|lia]. cbn [negb].
  assert (0 <= timestamp s * 4) as Hts by (rewrite Ht; unfold ts_of; pose proof (wrap_range 32 (Z.of_nat (length hist) * samples_per_packet cfg) ltac:(lia)) as Hw; destruct Hw; lia).
  destruct (seek_spec (cipher s) (Z.to_nat (timestamp s * 4)) Hok) as (Hp & Hk1 & Hb1). rewrite Z2Nat.id in * by done.
  assert (state_ok (seek (cipher s) (timestamp s * 4))) as Hok1 by (unfold state_ok; by rewrite Hb1).
  pose proof (apply_keystream_spec _ _ f Hok1 Hp) as Ha. destruct (apply_keystream (seek (cipher s) _) f) as [data c'].
  destruct Ha as (-> & Hk2 & Hb2 & _). rewrite Hk1, Hb1, Hk, Hiv in *. eexists. split.
  - do 3 f_equal. unfold RaopAudioPacket_encode, packet_of. cbn [audio_marker audio_sequence audio_timestamp audio_ssrc audio_payload].
    by rewrite Hc, Hf, Hs, Ht.
  - assert (length (hist ++ [f]) = S (length hist)) as Hlen by (rewrite length_app; cbn; lia).
    split; cbn [config sequence timestamp cipher encode_buffer_index encode_buffers is_first_packet buffer]; rewrite ?Hlen; try done.
    + rewrite Hs. unfold wrapping_add. rewrite wrap_add by lia. f_equal. lia.
    + rewrite Ht, Hc. unfold wrapping_add, ts_of. rewrite wrap_add by lia. f_equal. lia.
    + unfold state_ok. rewrite Hb2. unfold state_ok in Hok. congruence.
    + apply Nat.mod_upper_bound. lia.
    + rewrite Hc, He, Hb, imap_app, foldl_app. cbn [imap foldl]. f_equal. unfold buffered. rewrite Nat.add_0_r.
      f_equal; [done|done|]. unfold RaopAudioPacket_encode, packet_of. cbn [audio_marker audio_sequence audio_timestamp audio_ssrc audio_payload].
      by rewrite Hf, Hs, Ht.
Qed.

Lemma frames_ready {E} cfg keys fs : enable_retransmit cfg = true -> forall hist s, ready cfg keys hist s ->
  exists s', encode_frames (E := E) s fs = Ok (imap (fun i f => RaopAudioPacket_encode (packet_of cfg keys (length hist + i) f)) fs, s') /\
    ready cfg keys (hist ++ fs) s'.
Proof.
  intros He. induction fs as [|f fs IH]; intros hist s Hr; cbn [encode_frames].
  - exists s. rewrite app_nil_r. done.
  - destruct (encode_ready (E := E) cfg keys hist s f He Hr) as (s1 & -> & Hr1). cbn [mbind outcome_bind].
    destruct (IH _ _ Hr1) as (s2 & -> & Hr2). cbn [mbind outcome_bind]. exists s2. rewrite <- app_assoc in Hr2. split; [|done].
    cbn [imap]. rewrite Nat.add_0_r. do 3 f_equal. apply imap_ext. intros i x _. unfold compose. rewrite length_app. cbn [length].
    by replace (length hist + 1 + i)%nat with (length hist + S i)%nat by lia.
Qed.

(** ** Retransmission *)
Lemma increasing_offsets k n : forall b, increasing (map (fun i => Z.of_nat i - k) (seq b n)).
Proof.
  induction n as [|n IH]; intros b; cbn [seq map]; constructor; [|apply IH].
  apply Forall_forall. intros y (i & -> & Hi)%list_elem_of_fmap. apply elem_of_seq in Hi. lia.
Qed.

Lemma filter_nothing (P : BufferedPacket -> Prop) `{!forall x, Decision (P x)} l : Forall (fun x => ~ P x) l -> filter P l = [].
Proof. induction 1 as [|x l Hx _ IH]; [done|]. by rewrite filter_cons_False. Qed.

(** In a run of consecutive packets, asking for one finds exactly that one. *)
Lemma single_range ps b j p : (forall i x, ps !! i = Some x -> bp_sequence x = seq_of (Z.of_nat (b + i))) -> (length ps <= 128)%nat ->
  ps !! j = Some p -> get_range_from (seq_of (Z.of_nat (b + j))) 1 0 ps = [p].
Proof.
  intros Hseq Hlen Hj. assert (j < length ps)%nat as Hlt by (by eapply lookup_lt_Some).
  set (ds := map (fun i => Z.of_nat i - Z.of_nat (b + j)) (seq b (length ps))).
  assert (offsets_of (Z.of_nat (b + j)) ds ps) as Hoff.
  { apply Forall2_same_length_lookup. split; [unfold ds; by rewrite length_map, length_seq|]. intros i d x Hd Hx. unfold ds in Hd.
    rewrite list_lookup_fmap in Hd. apply fmap_Some in Hd as (i' & Hi' & ->). apply lookup_seq in Hi' as [-> _]. rewrite (Hseq _ _ Hx). f_equal. lia. }
  assert (Forall (fun d => -127 <= d < 128) ds) as Hr.
  { apply Forall_forall. intros d (i & -> & Hi)%list_elem_of_fmap. apply elem_of_seq in Hi. lia. }
  rewrite (get_range_from_spec _ _ ds); [|done|apply increasing_offsets| |lia|lia|]; [|eapply Forall_impl; [exact Hr|]; cbn; lia..].
  assert (forall i x, ps !! i = Some x -> in_request (seq_of (Z.of_nat (b + j))) 1 x <-> i = j) as Hreq.
  { intros i x Hx. assert (i < length ps)%nat by (by eapply lookup_lt_Some).
    rewrite (in_request_offset _ _ (Z.of_nat (b + i) - Z.of_nat (b + j)));
      [lia|rewrite (Hseq _ _ Hx); f_equal; lia|lia|lia]. }
  rewrite <- (take_drop_middle ps j p Hj), filter_app, filter_cons_True by (by apply (Hreq j)).
  rewrite !filter_nothing; [done| |].
  - apply Forall_lookup. intros i x Hx Hin. rewrite lookup_drop in Hx. apply Hreq in Hx. specialize (proj1 Hx Hin). lia.
  - apply Forall_lookup. intros i x Hx Hin. assert (i < j)%nat by (apply lookup_lt_Some in Hx; rewrite length_take in Hx; lia).
    rewrite lookup_take_lt in Hx by done. apply Hreq in Hx. specialize (proj1 Hx Hin). lia.
Qed.

Lemma retransmit_ready {E} cfg keys hist s k f : ready cfg keys hist s -> hist !! k = Some f -> (length hist <= k + 128)%nat ->
  handle_retransmit (E := E) s (wrap 16 (Z.of_nat k)) 1 =
    Ok [[0x80; 0xD6] ++ to_be 2 (wrap 16 (Z.of_nat k)) ++ drop 4 (RaopAudioPacket_encode (packet_of cfg keys k f))].
Proof.
  intros Hr Hk Hn. assert (k < length hist)%nat as Hlt by (by eapply lookup_lt_Some). unfold handle_retransmit, get_range.
  rewrite (rd_buffer _ _ _ _ Hr), push_window by (unfold DEFAULT_SIZE; lia). cbn [packets]. rewrite length_imap. unfold DEFAULT_SIZE.
  set (o := (length hist - 128)%nat). set (ps := drop o (imap (buffered cfg keys) hist)).
  change (wrap 16 (Z.of_nat k)) with (seq_of (Z.of_nat k)). replace k with (o + (k - o))%nat at 1 by lia.
  rewrite (single_range ps o (k - o) (buffered cfg keys k f)).
  - cbn [wrap_all]. unfold wrap_retransmit. cbn [buffered bp_data bp_sequence].
    rewrite slice_in by (unfold RaopAudioPacket_encode, RaopAudioPacket_write_header; cbn; lia). cbn [mbind outcome_bind].
    by rewrite take_ge by (rewrite length_drop; done).
  - intros i x Hx. unfold ps in Hx. rewrite lookup_drop, list_lookup_imap in Hx. apply fmap_Some in Hx as (g & _ & ->). done.
  - unfold ps. rewrite length_drop, length_imap. lia.
  - unfold ps. rewrite lookup_drop, list_lookup_imap. replace (o + (k - o))%nat with k by lia. by rewrite Hk.
Qed.

(** ** The receiver's cipher mode *)
Context {DL : BlockDecipherLaws C D}.

(** AES-CBC encryption, as senders of the protocol do it. *)
Fixpoint cbc_encrypt (key prev : list Z) (blocks : list (list Z)) : list (list Z) :=
  match blocks with
  | [] => []
  | b :: blocks => let c := aes_block key (xor_bytes b prev) in c :: cbc_encrypt key c blocks
  end.

Lemma cbc_blocks_encrypt k bs : Forall (fun b => length b = 16%nat) bs -> forall prev, length prev = 16%nat ->
  Forall (fun c => length c = 16%nat) (cbc_encrypt k prev bs) /\ cbc_blocks k prev (cbc_encrypt k prev bs) = concat bs.
Proof.
  induction 1 as [|b bs Hb _ IH]; intros prev Hp; [done|]. cbn [cbc_encrypt cbc_blocks concat].
  assert (length (xor_bytes b prev) = 16%nat) as Hx by (rewrite length_xor; lia).
  assert (length (aes_block k (xor_bytes b prev)) = 16%nat) as Hc by (by apply aes_block_length).
  destruct (IH _ Hc) as [Hl He]. split; [by constructor|]. rewrite aes_unblock_block by done. rewrite xor_involutive, He by lia. done.
Qed.

(** Whole blocks and a remainder. *)
Lemma audio_decrypt_blocks d cs r : Forall (fun c => length c = 16%nat) cs -> (length r < 16)%nat ->
  audio_decrypt d (concat cs ++ r) = cbc_blocks (dec_key d) (dec_iv d) cs ++ r.
Proof.
  intros Hc Hr. assert (length (concat cs) = 16 * length cs)%nat as Hl by (clear -Hc; induction Hc as [|c cs E _ IH]; [done|]; cbn; rewrite length_app, E, IH; lia).
  assert (length (concat cs ++ r) / 16 * 16 = length (concat cs))%nat as Hq.
  { rewrite length_app, Hl. rewrite (Nat.mul_comm 16), Nat.div_add_l by lia. rewrite (Nat.div_small (length r)) by done. lia. }
  unfold audio_decrypt. rewrite Hq, take_app_length, drop_app_length.
  destruct (Nat.eqb_spec (length (concat cs ++ r)) 0) as [E|_].
  { rewrite length_app in E. destruct cs; [|rewrite Hl in E; cbn in E; lia]. destruct r; [done|cbn in E; lia]. }
  destruct (Nat.eqb_spec (length (concat cs)) 0) as [E|_]; [destruct cs; [done|rewrite Hl in E; cbn in E; lia]|].
  unfold chunks. by rewrite chunks_fuel_exact by (done || lia).
Qed.

Lemma xor_zeros l : xor_bytes (replicate (length l) 0) l = l.
Proof. induction l as [|x l IH]; [done|]. unfold xor_bytes in *. cbn [length replicate zip_with]. by rewrite Z.lxor_0_l, IH. Qed.
Lemma xor_self l : xor_bytes l l = replicate (length l) 0.
Proof. induction l as [|x l IH]; [done|]. unfold xor_bytes in *. cbn [length replicate zip_with]. by rewrite Z.lxor_nilpotent, IH. Qed.

Lemma lookup_xor a b i : xor_bytes a b !! i = (x ← a !! i; y ← b !! i; Some (Z.lxor x y)).
Proof. apply lookup_zip_with. Qed.

Lemma lookup_xor_keystream k iv p a i : xor_bytes a (keystream k iv p (length a)) !! i = (fun x => Z.lxor x (ks_byte k iv (p + i))) <$> a !! i.
Proof.
  unfold xor_bytes, keystream. rewrite lookup_zip_with. destruct (a !! i) as [x|] eqn:E; [|done]. cbn [mbind option_bind fmap option_fmap option_map].
  rewrite list_lookup_fmap, lookup_seq_lt by (by eapply lookup_lt_Some). done.
Qed.

Lemma process_encoded dec p now : audio_ok p -> process_packet dec (RaopAudioPacket_encode p) now true =
  Ok (JitterBuffer.mkPacket (audio_sequence p) (audio_timestamp p) (audio_ssrc p)
        (match dec with Some d => audio_decrypt d (audio_payload p) | None => audio_payload p end) now).
Proof.
  intros Hp. destruct (raop_audio_roundtrip p Hp) as [_ (h & Hd & Ht & _ & Hs & Hts & Hss)]. unfold RtpPacket.RtpPacket_decode in Hd.
  apply bind_ok in Hd as (h' & Hh & Hd). apply bind_ok in Hd as (pl & Hpl & Hd). injection Hd as -> ->.
  unfold process_packet. rewrite Hh. cbn [map_err mbind outcome_bind]. rewrite Ht.
  assert (forall E, slice (E := E) (RaopAudioPacket_encode p) RtpPacket.HEADER_SIZE (length (RaopAudioPacket_encode p)) = Ok (audio_payload p)) as ->
    by (intros E; unfold slice in *; destruct ((_ <=? _)%nat && (_ <=? _)%nat); [f_equal; congruence|done]).
  cbn [mbind outcome_bind]. by rewrite Hs, Hts, Hss.
Qed.

(** ** Properties *)

(** What the streamer sends. Frame number [k] becomes the RTP packet with
    sequence number and timestamp [k] and [352 k] modulo their widths (or the
    configured step), the marker on the first only, and the frame XORed with the
    keystream from four bytes per sample on; and as long as fewer than 128 later
    frames were sent, a retransmission request for it is answered with exactly that
    packet behind the retransmission header. *)
Theorem streamed_frames {E} (cfg : RaopStreamConfig) (keys : RaopSessionKeys) (fs : list (list Z)) (now : Z)
  (Hk : length (k_aes_key keys) = 16%nat) (Hiv : length (k_aes_iv keys) = 16%nat) (He : enable_retransmit cfg = true) :
  exists s0 ps s, Streamer_new (E := E) keys cfg now = Ok s0 /\ encode_frames (E := E) s0 fs = Ok (ps, s) /\ length ps = length fs /\
  forall k f, fs !! k = Some f -> exists p, ps !! k = Some p /\
    p = RaopAudioPacket_encode
      {| audio_marker := (k =? 0)%nat; audio_sequence := wrap 16 (Z.of_nat k);
         audio_timestamp := wrap 32 (Z.of_nat k * samples_per_packet cfg); audio_ssrc := ssrc cfg;
         audio_payload := xor_bytes f (keystream (k_aes_key keys) (k_aes_iv keys)
           (Z.to_nat (wrap 32 (Z.of_nat k * samples_per_packet cfg) * 4)) (length f)) |} /\
    ((length fs <= k + 128)%nat -> handle_retransmit (E := E) s (wrap 16 (Z.of_nat k)) 1 =
       Ok [[0x80; 0xD6] ++ to_be 2 (wrap 16 (Z.of_nat k)) ++ drop 4 p]).
Proof.
  destruct (new_ready (E := E) keys cfg now Hk Hiv) as (s0 & Hs0 & Hr0). destruct (frames_ready (E := E) cfg keys fs He [] s0 Hr0) as (s & Hs & Hr).
  eexists s0, _, s. split; [done|]. split; [exact Hs|]. split; [apply length_imap|]. intros k f Hf. eexists. rewrite list_lookup_imap, Hf.
  split; [done|]. split; [done|]. intros Hlen. by apply (retransmit_ready cfg keys fs).
Qed.

(** The keystream is used twice. The timestamp that selects the keystream wraps
    at 32 bits: with 352 samples to a packet, packet 12201612, about 27 hours into
    the stream, is encrypted with keystream bytes of packet 0, and the XOR of the
    two ciphertexts is the XOR of the two plaintexts. *)
Theorem keystream_reused {E} (cfg : RaopStreamConfig) (keys : RaopSessionKeys) (fs ps : list (list Z)) (s0 s : RaopStreamer) (now : Z) (k : nat)
  (f0 f1 p0 p1 : list Z) (Hs0 : Streamer_new (E := E) keys cfg now = Ok s0) (Hs : encode_frames (E := E) s0 fs = Ok (ps, s))
  (He : enable_retransmit cfg = true) (H352 : samples_per_packet cfg = 352) (Hkey : length (k_aes_key keys) = 16%nat)
  (Hiv : length (k_aes_iv keys) = 16%nat) (Hk : Z.of_nat k = 12201612)
  (H0 : fs !! 0%nat = Some f0) (H1 : fs !! k = Some f1) (P0 : ps !! 0%nat = Some p0) (P1 : ps !! k = Some p1) :
  xor_bytes (drop 512 (drop 12 p0)) (drop 12 p1) = xor_bytes (drop 512 f0) f1.
Proof.
  destruct (new_ready (E := E) keys cfg now Hkey Hiv) as (s0' & Hs0' & Hr0). rewrite Hs0' in Hs0. injection Hs0 as ->.
  destruct (frames_ready (E := E) cfg keys fs He [] s0 Hr0) as (s' & Hs' & _). rewrite Hs' in Hs. injection Hs as <- _.
  rewrite list_lookup_imap, H0 in P0. rewrite list_lookup_imap, H1 in P1. cbn [fmap option_fmap option_map length Nat.add] in P0, P1. injection P0 as <-. injection P1 as <-.
  assert (forall p, drop 12 (RaopAudioPacket_encode p) = audio_payload p) as Hd by done. rewrite !Hd. cbn [audio_payload packet_of].
  replace (ts_of cfg (Z.of_nat 0)) with 0 by done. replace (ts_of cfg (Z.of_nat k)) with 128 by (unfold ts_of; by rewrite Hk, H352).
  apply list_eq. intros i. rewrite (lookup_xor (drop 512 (xor_bytes f0 _))), (lookup_xor (drop 512 f0)), !lookup_drop, !lookup_xor_keystream.
  destruct (f0 !! (512 + i)%nat) as [x|]; [|done]. cbn [fmap option_fmap option_map mbind option_bind]. destruct (f1 !! i) as [y|]; [|done].
  cbn [fmap option_fmap option_map mbind option_bind]. change (Z.to_nat (0 * 4)) with 0%nat. change (Z.to_nat (128 * 4)) with 512%nat. f_equal.
  change (0 + (512 + i))%nat with (512 + i)%nat. set (z := ks_byte _ _ _).
  by rewrite (Z.lxor_comm y z), Z.lxor_assoc, <- (Z.lxor_assoc z z), Z.lxor_nilpotent, Z.lxor_0_l.
Qed.

(** The receiver decrypts AES-CBC. Packets encrypted block by block in CBC mode
    from the announced vector, the last partial block in clear, are restored, and
    the packet header gives the sequence number, timestamp and source. *)
Theorem cbc_audio_received (k iv r : list Z) (bs : list (list Z)) (p : RaopAudioPacket) (now : Z) (Hiv : length iv = 16%nat)
  (Hbs : Forall (fun b => length b = 16%nat) bs) (Hr : (length r < 16)%nat) (Hp : audio_ok p)
  (Hpl : audio_payload p = concat (cbc_encrypt k iv bs) ++ r) :
  process_packet (Some (mkAudioDecryptor k iv)) (RaopAudioPacket_encode p) now true =
    Ok (JitterBuffer.mkPacket (audio_sequence p) (audio_timestamp p) (audio_ssrc p) (concat bs ++ r) now).
Proof.
  rewrite (process_encoded (Some (mkAudioDecryptor k iv)) p now Hp), Hpl. destruct (cbc_blocks_encrypt k bs Hbs iv Hiv) as [Hl He].
  rewrite audio_decrypt_blocks by done. cbn [dec_key dec_iv]. by rewrite He.
Qed.

(** The crate's receiver does not decrypt the crate's sender. The streamer
    encrypts in counter mode, the receiver decrypts in CBC mode with the same key
    and vector: of the first packet of a stream of silence, the receiver recovers
    sixteen bytes of silence, and then the XOR of the next counter block with the
    first keystream block, which is noise unless the cipher maps the vector to its
    successor. *)
Theorem own_stream_garbled {E} (cfg : RaopStreamConfig) (keys : RaopSessionKeys) (s : RaopStreamer) (t now : Z)
  (Hk : length (k_aes_key keys) = 16%nat) (Hiv : length (k_aes_iv keys) = 16%nat) (Hb : bytes_ok (k_aes_iv keys))
  (Hssrc : uint 32 (ssrc cfg)) (He : enable_retransmit cfg = true) (Hs : Streamer_new (E := E) keys cfg t = Ok s)
  (Hne : aes_block (k_aes_key keys) (k_aes_iv keys) <> ctr_block (k_aes_iv keys) 1) :
  exists p s' noise, encode_frame (E := E) s (replicate 32 0) = Ok (p, s') /\
    process_packet (Some (mkAudioDecryptor (k_aes_key keys) (k_aes_iv keys))) p now true =
      Ok (JitterBuffer.mkPacket 0 0 (ssrc cfg) (replicate 16 0 ++ noise) now) /\
    noise = xor_bytes (ctr_block (k_aes_iv keys) 1) (aes_block (k_aes_key keys) (k_aes_iv keys)) /\ noise <> replicate 16 0.
Proof.
  destruct (new_ready (E := E) keys cfg t Hk Hiv) as (s0 & Hs0 & Hr0). rewrite Hs0 in Hs. injection Hs as ->.
  destruct (encode_ready (E := E) cfg keys [] s (replicate 32 0) He Hr0) as (s' & Hs' & _).
  set (key := k_aes_key keys) in *. set (iv := k_aes_iv keys) in *. assert (ctr_block iv 0 = iv) as Hc0.
  { destruct (new_at_pos key iv Hiv Hb) as [_ (q & _)]. unfold ctr_block. rewrite Z.add_0_r. rewrite <- (take_drop 8 iv) at 3. f_equal.
    pose proof (to_be_from_be (drop 8 iv)) as H. rewrite length_drop, Hiv in H. apply H. by apply Forall_drop. }
  eexists _, s', _. split; [exact Hs'|]. assert (length (ctr_block iv 1) = 16%nat) as Hc1 by (by apply length_ctr_block).
  assert (length (aes_block key iv) = 16%nat /\ length (aes_block key (ctr_block iv 1)) = 16%nat) as [Hl0 Hl1] by (split; by apply aes_block_length).
  split; [|split; [reflexivity|]].
  - rewrite process_encoded by (split_and!; [by apply wrap_range|by apply wrap_range|done]). cbn [audio_payload packet_of audio_sequence audio_timestamp audio_ssrc length].
    change (Z.to_nat (ts_of cfg (Z.of_nat 0) * 4)) with 0%nat. rewrite length_replicate. fold key iv.
    assert (xor_bytes (replicate 32 0) (keystream key iv 0 32) = concat [aes_block key iv; aes_block key (ctr_block iv 1)] ++ []) as ->.
    { rewrite <- (length_keystream key iv 0 32) at 1. rewrite xor_zeros, (keystream_app key iv 0 16 16). cbn [concat]. rewrite !app_nil_r.
      pose proof (block_keystream key iv 0 Hiv) as B0. pose proof (block_keystream key iv 1 Hiv) as B1. change (Z.of_nat 0) with 0 in B0.
      change (Z.of_nat 1) with 1 in B1. rewrite Hc0 in B0. by rewrite B0, B1. }
    rewrite audio_decrypt_blocks by (cbn; repeat constructor; done || lia). cbn [cbc_blocks dec_key dec_iv]. rewrite !aes_unblock_block by done.
    rewrite xor_self, Hiv, !app_nil_r. done.
  - intros Hn. apply Hne. rewrite <- (xor_involutive (ctr_block iv 1) (aes_block key iv)) by lia. rewrite Hn. rewrite <- Hl0. by rewrite xor_zeros.
Qed.

End WithCipher.

(** ** Witnesses *)
(** A cipher that XORs the key. *)
#[local] Instance flip_cipher : BlockCipher := fun k b => xor_bytes b (k ++ replicate 16 0).
#[local] Instance flip_cipher_laws : BlockCipherLaws flip_cipher.
Proof. intros k b Hb. unfold aes_block, flip_cipher. rewrite length_xor; [done|]. rewrite length_app, length_replicate. lia. Qed.
#[local] Instance flip_decipher : BlockDecipher := fun k b => xor_bytes b (k ++ replicate 16 0).
#[local] Instance flip_decipher_laws : BlockDecipherLaws flip_cipher flip_decipher.
Proof.
  intros k b Hb. unfold aes_unblock, flip_decipher, aes_block, flip_cipher. apply xor_involutive. rewrite length_app, length_replicate. lia.
Qed.

Definition demo_keys : RaopSessionKeys := mkKeys (replicate 16 5) (replicate 16 2) [].
Definition demo_config : RaopStreamConfig := StreamConfig_default 77.

Lemma streamed_frames_witness : exists s0 ps s, Streamer_new (E := Empty_set) demo_keys demo_config 0 = Ok s0 /\
  encode_frames (E := Empty_set) s0 [[1; 2]; [3]] = Ok (ps, s) /\
  exists p, ps !! 1%nat = Some p /\ handle_retransmit (E := Empty_set) s 1 1 = Ok [[0x80; 0xD6; 0; 1] ++ drop 4 p].
Proof.
  destruct (streamed_frames (E := Empty_set) demo_config demo_keys [[1; 2]; [3]] 0) as (s0 & ps & s & H0 & H1 & _ & H); [reflexivity..|].
  exists s0, ps, s. split; [exact H0|]. split; [exact H1|]. destruct (H 1%nat [3] eq_refl) as (p & Hp & _ & Hr). exists p. split; [exact Hp|].
  apply Hr. cbn. lia.
Defined.

Lemma keystream_reused_witness : exists k (ps : list (list Z)) p0 p1, Z.of_nat k = 12201612 /\ ps !! 0%nat = Some p0 /\ ps !! k = Some p1 /\
  xor_bytes (drop 512 (drop 12 p0)) (drop 12 p1) = xor_bytes (drop 512 (replicate 1408 1)) (replicate 1408 1).
Proof.
  set (k := Z.to_nat 12201612). set (fs := replicate (S k) (replicate 1408 1)).
  assert (length (k_aes_key demo_keys) = 16%nat) as Hk by reflexivity. assert (length (k_aes_iv demo_keys) = 16%nat) as Hiv by reflexivity.
  destruct (new_ready (E := Empty_set) demo_keys demo_config 0 Hk Hiv) as (s0 & Hs0 & Hr).
  destruct (frames_ready (E := Empty_set) demo_config demo_keys fs eq_refl [] s0 Hr) as (s & Hs & _).
  assert (fs !! 0%nat = Some (replicate 1408 1)) as F0 by reflexivity.
  assert (fs !! k = Some (replicate 1408 1)) as F1 by (apply lookup_replicate_2; lia).
  set (ps := imap _ fs) in Hs.
  assert (exists p0, ps !! 0%nat = Some p0) as (p0 & P0) by (unfold ps; rewrite list_lookup_imap, F0; eexists; reflexivity).
  assert (exists p1, ps !! k = Some p1) as (p1 & P1) by (unfold ps; rewrite list_lookup_imap, F1; eexists; reflexivity).
  assert (Z.of_nat k = 12201612) as Hk' by (unfold k; apply Z2Nat.id; lia).
  exists k, ps, p0, p1. split; [exact Hk'|]. split; [exact P0|]. split; [exact P1|].
  exact (keystream_reused (E := Empty_set) demo_config demo_keys fs ps s0 s 0 k _ _ _ _ Hs0 Hs eq_refl eq_refl Hk Hiv Hk' F0 F1 P0 P1).
Defined.

Lemma cbc_audio_received_witness :
  process_packet (Some (mkAudioDecryptor (replicate 16 5) (replicate 16 2)))
    (RaopAudioPacket_encode (RaopAudioPacket_new 7 8 9 (concat (cbc_encrypt (replicate 16 5) (replicate 16 2) [replicate 16 1; replicate 16 3]) ++ [4])))
    0 true = Ok (JitterBuffer.mkPacket 7 8 9 (concat [replicate 16 1; replicate 16 3] ++ [4]) 0).
Proof.
  apply (cbc_audio_received (replicate 16 5) (replicate 16 2) [4] [replicate 16 1; replicate 16 3] (RaopAudioPacket_new 7 8 9
    (concat (cbc_encrypt (replicate 16 5) (replicate 16 2) [replicate 16 1; replicate 16 3]) ++ [4])) 0);
    [reflexivity|by repeat constructor|cbn; lia|split_and!; split; cbn; lia|reflexivity].
Defined.

Lemma own_stream_garbled_witness : exists s p s' noise, Streamer_new (E := Empty_set) demo_keys demo_config 0 = Ok s /\
  encode_frame (E := Empty_set) s (replicate 32 0) = Ok (p, s') /\ noise <> replicate 16 0 /\
  process_packet (Some (mkAudioDecryptor (replicate 16 5) (replicate 16 2))) p 0 true =
    Ok (JitterBuffer.mkPacket 0 0 77 (replicate 16 0 ++ noise) 0).
Proof.
  assert (exists s, Streamer_new (E := Empty_set) demo_keys demo_config 0 = Ok s) as (s & Hs) by (eexists; reflexivity).
  destruct (own_stream_garbled (E := Empty_set) demo_config demo_keys s 0 0) as (p & s' & noise & H1 & H2 & _ & H3);
    [reflexivity|reflexivity|apply Forall_replicate; unfold byte_ok; lia|split; cbn; lia|reflexivity|exact Hs|vm_compute; discriminate|].
  exists s, p, s', noise. split; [exact Hs|]. split; [exact H1|]. split; [exact H3|exact H2].
Defined.

End RaopStream.
