(* ===== verification/RaopConnect.v ===== *)
(** * The RAOP client: connecting and controlling

    Models [RaopSessionImpl] of [src/client/session.rs]: the request exchange on
    the TCP stream, the connection sequence OPTIONS, ANNOUNCE, SETUP, RECORD, and
    the session's commands.  What the network answers is data: a stream is the list
    of its reads (an empty one is the end of file; when none is left, the read times
    out) and the error its writes meet, if any; error texts of the system are
    arguments.  The conversions of volume and duration, which are float
    computations, are the parameters [to_db] and [to_millis]. *)

From stdpp Require Import gmap pretty.
From S2P Require Import Text AesCtr Unicode Rtsp RtspParser RtspClient Sdp Dmap RaopSession RaopServer RaopClient RaopStream.

Module RaopConnect.
Import Rtsp RtspParser Sdp RaopSession RaopClient.

(** ** State *)
Inductive AirPlayError :=
| Disconnected (device_name : string)
| ConnectionFailed (message : string) (device_name : string)
| CodecError (message : string)
| Timeout
| RtspError (message : string) (status_code : option Z).

Inductive Read := Data (d : list Z) | ReadFailed (e : string).
Record TcpStream := mkStream { reads : list Read; write_error : option string; written : list Z }.

(** The fields of [PlaybackState] the session changes. *)
Record PlaybackState := mkPlayState { is_playing : bool; position_secs : Z }.
Definition PlaybackState_default : PlaybackState := mkPlayState false 0.

Record RaopSessionImpl := mkImpl {
  rtsp_session : RaopRtspSession; stream : option TcpStream; codec : RtspClient.RtspCodec;
  streamer : option RaopStream.RaopStreamer; connected : bool; i_volume : Z; i_state : PlaybackState;
  i_server_addr : string; i_server_port : Z; audio_socket : option Z; control_socket : option Z
}.

Definition Impl_new (addr : string) (port : Z) (instance dacp : string) (remote : Z) (random : list Z) : RaopSessionImpl :=
  mkImpl (Client_new addr port instance dacp remote random) None RtspClient.codec_new None false F32_ONE PlaybackState_default addr port None None.

Definition device_name (s : RaopSessionImpl) : string := i_server_addr s +:+ ":" +:+ pretty (i_server_port s).

Definition with_rtsp (s : RaopSessionImpl) (x : RaopRtspSession) : RaopSessionImpl :=
  mkImpl x (stream s) (codec s) (streamer s) (connected s) (i_volume s) (i_state s) (i_server_addr s) (i_server_port s) (audio_socket s) (control_socket s).
Definition with_stream (s : RaopSessionImpl) (x : option TcpStream) : RaopSessionImpl :=
  mkImpl (rtsp_session s) x (codec s) (streamer s) (connected s) (i_volume s) (i_state s) (i_server_addr s) (i_server_port s) (audio_socket s) (control_socket s).
Definition with_link (s : RaopSessionImpl) (x : TcpStream) (c : RtspClient.RtspCodec) : RaopSessionImpl :=
  mkImpl (rtsp_session s) (Some x) c (streamer s) (connected s) (i_volume s) (i_state s) (i_server_addr s) (i_server_port s) (audio_socket s) (control_socket s).
Definition with_playing (s : RaopSessionImpl) (x : PlaybackState) : RaopSessionImpl :=
  mkImpl (rtsp_session s) (stream s) (codec s) (streamer s) (connected s) (i_volume s) x (i_server_addr s) (i_server_port s) (audio_socket s) (control_socket s).
Definition with_volume (s : RaopSessionImpl) (v : Z) : RaopSessionImpl :=
  mkImpl (rtsp_session s) (stream s) (codec s) (streamer s) (connected s) v (i_state s) (i_server_addr s) (i_server_port s) (audio_socket s) (control_socket s).
Definition with_connected (s : RaopSessionImpl) (b : bool) : RaopSessionImpl :=
  mkImpl (rtsp_session s) (stream s) (codec s) (streamer s) b (i_volume s) (i_state s) (i_server_addr s) (i_server_port s) (audio_socket s) (control_socket s).
Definition with_audio (s : RaopSessionImpl) (x : option RaopStream.RaopStreamer) (a c : option Z) : RaopSessionImpl :=
  mkImpl (rtsp_session s) (stream s) (codec s) x (connected s) (i_volume s) (i_state s) (i_server_addr s) (i_server_port s) a c.

(** An operation of the session: a result next to the new session, as [self] keeps
    what was changed before an error. *)
Definition act (A : Type) : Type := RaopSessionImpl -> outcome AirPlayError A * RaopSessionImpl.
Definition aret {A} (a : A) : act A := fun s => (Ok a, s).
Definition abind {A B} (m : act A) (f : A -> act B) : act B := fun s =>
  match m s with
  | (Ok a, s) => f a s
  | (Err e, s) => (Err e, s)
  | (Panic, s) => (Panic, s)
  end.
Declare Scope act_scope.
Delimit Scope act_scope with act.
Notation "x <-- m ;; k" := (abind m (fun x => k)) (at level 100, m at next level, right associativity) : act_scope.

(** ** Exchanging a request *)

(** The read loop: every turn takes a read. *)
Fixpoint read_loop (dev : string) (rs : list Read) (c : RtspClient.RtspCodec) : outcome AirPlayError RtspResponse * list Read * RtspClient.RtspCodec :=
  match RtspClient.decode c with
  | (Ok (Some r), c) => (Ok r, rs, c)
  | (Ok None, c) =>
      match rs with
      | [] => (Err Timeout, [], c)
      | ReadFailed e :: rs => (Err (ConnectionFailed ("Read failed: " +:+ e) dev), rs, c)
      | Data [] :: rs => (Err (ConnectionFailed "Connection closed" dev), rs, c)
      | Data d :: rs =>
          match RtspClient.feed c d with
          | Ok c => read_loop dev rs c
          | Err e => (Err (CodecError (RtspClient.codec_error_to_string e)), rs, c)
          | Panic => (Panic, rs, c)
          end
      end
  | (Err e, c) => (Err (CodecError (RtspClient.codec_error_to_string e)), rs, c)
  | (Panic, c) => (Panic, rs, c)
  end.

Section WithOrder.
Context {O : HashOrder}.

Definition send_request (r : RtspRequest) : act RtspResponse := fun s =>
  match stream s with
  | None => (Err (Disconnected (device_name s)), s)
  | Some t =>
      match write_error t with
      | Some e => (Err (ConnectionFailed ("Write failed: " +:+ e) (device_name s)), s)
      | None =>
          let '(res, rs, c) := read_loop (device_name s) (reads t) (codec s) in
          (res, with_link s (mkStream rs None (written t ++ request_encode r)) c)
      end
  end.

(** A request built from the RTSP session, which numbers it. *)
Definition build (f : RaopRtspSession -> outcome AirPlayError (RtspRequest * RaopRtspSession)) : act RtspRequest := fun s =>
  match f (rtsp_session s) with
  | Ok (r, x) => (Ok r, with_rtsp s x)
  | Err e => (Err e, s)
  | Panic => (Panic, s)
  end.
(** [process_response] with its error as an RTSP error. *)
Definition processed (m : Method) (r : RtspResponse) : act unit := fun s =>
  let '(res, x) := process_response (rtsp_session s) m r in (map_err (fun e => RtspError e None) res, with_rtsp s x).

(** ** Connecting *)
Inductive UdpResult := UdpOk | BindFailed (e : string) | UdpConnectFailed (e : string).

(** What connecting meets: the TCP connection, the UDP sockets by name, the random
    key, vector and source number, the RSA encryption and the time. *)
Record ConnectEnv := mkConnectEnv {
  tcp : outcome string TcpStream; udp : string -> UdpResult; rnd_key : list Z; rnd_iv : list Z; rnd_ssrc : Z;
  encrypt_oaep : list Z -> outcome string (list Z); clock : Z
}.

(** The socket is the port it is connected to. *)
Definition setup_udp_socket (e : ConnectEnv) (port : Z) (name : string) : act Z := fun s =>
  match udp e name with
  | UdpOk => (Ok port, s)
  | BindFailed x => (Err (ConnectionFailed ("Failed to bind " +:+ name +:+ " socket: " +:+ x) (i_server_addr s)), s)
  | UdpConnectFailed x => (Err (ConnectionFailed ("Failed to connect " +:+ name +:+ " socket: " +:+ x) (i_server_addr s)), s)
  end.

Context {C : BlockCipher}.
Definition setup_audio_streaming (e : ConnectEnv) : act unit := fun s =>
  match transport (rtsp_session s) with
  | None => (Err (ConnectionFailed "RTSP session initialized without transport configuration" (i_server_addr s)), s)
  | Some t =>
      match session_keys (rtsp_session s) with
      | None => (Err (ConnectionFailed "RTSP session initialized without session keys" (i_server_addr s)), s)
      | Some keys =>
          (a <-- setup_udp_socket e (rt_server t) "audio" ;;
           c <-- setup_udp_socket e (rt_control t) "control" ;;
           fun s =>
             match RaopStream.Streamer_new keys (RaopStream.StreamConfig_default (rnd_ssrc e)) (clock e) with
             | Ok st => (Ok tt, with_audio s (Some st) (Some a) (Some c))
             | Err x => (Err x, s)
             | Panic => (Panic, s)
             end)%act s
      end
  end.

Context {B : Base64} {AO : AttrOrder}.
Definition connect (e : ConnectEnv) : act unit := (
  _ <-- (fun s => match tcp e with
                  | Ok t => (Ok tt, with_stream s (Some t))
                  | Err x => (Err (ConnectionFailed ("Connect failed: " +:+ x) (device_name s)), s)
                  | Panic => (Panic, s)
                  end) ;;
  (* 1 *)
  req <-- build options_request ;;
  resp <-- send_request req ;;
  _ <-- processed Options resp ;;
  (* 2 *)
  sdp <-- (fun s => match prepare_announce (encrypt_oaep e) (rnd_key e) (rnd_iv e) (rtsp_session s) with
                    | Ok (sdp, x) => (Ok sdp, with_rtsp s x)
                    | Err x => (Err (RtspError x None), s)
                    | Panic => (Panic, s)
                    end) ;;
  req <-- build (fun x => announce_request x sdp) ;;
  resp <-- send_request req ;;
  _ <-- processed Announce resp ;;
  (* 3 *)
  req <-- build (fun x => setup_request x 0 0) ;;
  resp <-- send_request req ;;
  _ <-- processed Rtsp.Setup resp ;;
  (* 4 *)
  req <-- build (fun x => record_request x 0 0) ;;
  resp <-- send_request req ;;
  _ <-- processed Record_ resp ;;
  _ <-- setup_audio_streaming e ;;
  (fun s => (Ok tt, with_connected s true)))%act.

(** ** Commands *)
Definition disconnect : act unit := fun s =>
  let close s := (Ok tt, with_playing (with_connected (with_stream s None) false) PlaybackState_default) in
  if connected s then
    match build teardown_request s with
    | (Ok r, s) =>
        match send_request r s with
        | (Ok resp, s) => close (snd (processed Rtsp.Teardown resp s))
        | (Err _, s) => close s
        | (Panic, s) => (Panic, s)
        end
    | (r, s) => (_ ← r; Ok tt, s)
    end
  else close s.

Definition play : act unit := fun s => (Ok tt, with_playing s (mkPlayState true (position_secs (i_state s)))).
Definition pause : act unit := (
  req <-- build (fun x => flush_request x 0 0) ;;
  resp <-- send_request req ;;
  _ <-- processed Flush resp ;;
  (fun s => (Ok tt, with_playing s (mkPlayState false (position_secs (i_state s))))))%act.
Definition stop : act unit := (
  _ <-- pause ;; (fun s => (Ok tt, with_playing s (mkPlayState (is_playing (i_state s)) 0))))%act.

Section WithFloats.
Context {F : Floats}.
Variable to_db : Z -> Z.
(** The response to a volume change is not looked at. *)
Definition set_volume (volume : Z) : act unit := (
  let volume_db := if f32_le volume 0 then VOLUME_MIN_DB else to_db volume in
  req <-- build (fun x => set_volume_request x volume_db) ;;
  _ <-- send_request req ;;
  (fun s => (Ok tt, with_volume s volume)))%act.
End WithFloats.

(** [sent] is whether the datagram could be sent. *)
Definition stream_audio (data : list Z) (sent : option string) : act (option (list Z)) := fun s =>
  match streamer s, audio_socket s with
  | Some st, Some _ =>
      match RaopStream.encode_frame st data with
      | Ok (packet, st) =>
          let s := with_audio s (Some st) (audio_socket s) (control_socket s) in
          match sent with
          | None => (Ok (Some packet), s)
          | Some e => (Err (ConnectionFailed ("Failed to send audio packet: " +:+ e) (i_server_addr s)), s)
          end
      | Err e => (Err e, s)
      | Panic => (Panic, s)
      end
  | _, _ => (Ok None, s)
  end.
Definition session_flush : act unit := fun s =>
  (Ok tt, with_audio s (RaopStream.flush <$> streamer s) (audio_socket s) (control_socket s)).

(** [to_millis] is the clamped conversion of the duration. *)
Definition set_metadata (to_millis : Z -> Z) (title artist : list Z) (album genre : option (list Z)) (track disc duration : option Z) : act unit := (
  let meta := Dmap.mkMetadata (Some title) (Some artist) album genre track disc None (to_millis <$> duration) in
  req <-- build (fun x => set_metadata_request x meta 0) ;;
  _ <-- send_request req ;; aret tt)%act.
Definition set_artwork (data : list Z) : act unit := (
  let format := default Dmap.Jpeg (Dmap.detect data) in
  req <-- build (fun x => set_artwork_request x (Dmap.mkArtwork data format) 0) ;;
  _ <-- send_request req ;; aret tt)%act.

(** ** The exchange *)
Context {OL : HashOrderLaws O}.

(** The codec and the reads to come hold exactly the responses [rs]. *)
Definition feeds (c : RtspClient.RtspCodec) (ds : list (list Z)) (rs : list RtspResponse) : Prop :=
  RtspClient.pending c rs (concat ds) /\ Forall (fun d => d <> []) ds /\
  Z.of_nat (length (RtspClient.buffer c) + length (concat ds)) <= RtspClient.max_size c.

Lemma read_loop_next dev r rs ds : forall c, feeds c ds (r :: rs) ->
  exists ds' c', read_loop dev (map Data ds) c = (Ok (RtspClient.received r), map Data ds', c') /\ feeds c' ds' rs.
Proof.
  induction ds as [|d ds IH]; intros c (Hp & Hne & Hsz); destruct (RtspClient.decode_progress _ _ _ _ Hp) as (c' & Hm & [(Hd & Hp' & Hw & Hl)|(Hd & Hp' & Hl)]);
    cbn [read_loop map]; rewrite Hd.
  - done.
  - exists [], c'. split; [done|]. split_and!; [done..|lia].
  - apply Forall_cons in Hne as [Hd0 Hne]. destruct d as [|x d]; [done|]. set (xd := x :: d) in *. cbn [concat] in Hsz, Hp'. rewrite length_app in Hsz.
    pose proof (RtspClient.feed_fits c' xd ltac:(lia)) as Hfeed. unfold RtspClient.codec_feed, map_err in Hfeed.
    destruct (RtspClient.feed c' xd) as [c2| |]; [|done..]. injection Hfeed as ->. apply IH. split_and!; [by apply RtspClient.pending_feed|done|].
    cbn [RtspClient.buffer RtspClient.max_size]. rewrite length_app. lia.
  - exists (d :: ds), c'. split; [done|]. split_and!; [done..|lia].
Qed.

(** A session whose stream will deliver the responses [rs]. *)
Definition hears (s : RaopSessionImpl) (ds : list (list Z)) (rs : list RtspResponse) : Prop :=
  exists w, stream s = Some (mkStream (map Data ds) None w) /\ feeds (codec s) ds rs.

Lemma send_next q s ds r rs : hears s ds (r :: rs) -> exists s' ds' w, send_request q s = (Ok (RtspClient.received r), s') /\ hears s' ds' rs /\
  stream s = Some (mkStream (map Data ds) None w) /\ stream s' = Some (mkStream (map Data ds') None (w ++ request_encode q)) /\
  rtsp_session s' = rtsp_session s /\ s' = with_link s (mkStream (map Data ds') None (w ++ request_encode q)) (codec s').
Proof.
  intros (w & Hs & Hf). destruct (read_loop_next (device_name s) r rs ds (codec s) Hf) as (ds' & c' & Hl & Hf').
  unfold send_request. rewrite Hs. cbn [write_error reads written]. rewrite Hl.
  exists (with_link s (mkStream (map Data ds') None (w ++ request_encode q)) c'), ds', w. split; [done|]. split; [by eexists|done].
Qed.

(** One numbered request, its response and what the session makes of it. *)
Definition written_of (s : RaopSessionImpl) : list Z := match stream s with Some t => written t | None => [] end.

Lemma exchange f q m x' s ds r rs : hears s ds (r :: rs) -> f (rtsp_session s) = Ok (q, x') ->
  fst (process_response x' m (RtspClient.received r)) = Ok tt ->
  exists s2 ds2, (forall A (k : act A), (req <-- build f ;; resp <-- send_request req ;; _ <-- processed m resp ;; k)%act s = k s2) /\ hears s2 ds2 rs /\
    rtsp_session s2 = snd (process_response x' m (RtspClient.received r)) /\ written_of s2 = written_of s ++ request_encode q.
Proof.
  intros Hh Hf Hp. unfold abind, build. rewrite Hf. destruct (send_next q (with_rtsp s x') ds r rs) as (s1 & ds1 & w & Hs1 & Hh1 & Hw & Hw1 & Hx & _); [exact Hh|].
  rewrite Hs1. unfold processed. rewrite Hx. cbn [rtsp_session with_rtsp].
  destruct (process_response x' m _) as [res x2]. cbn [fst snd] in *. subst res. cbn [map_err].
  exists (with_rtsp s1 x2), ds1. split; [done|]. split; [exact Hh1|]. split; [done|]. unfold written_of. cbn [with_rtsp stream] in Hw |- *. by rewrite Hw1, Hw.
Qed.

(** The request stops the sequence when its response is a failure. *)
Lemma exchange_fails {A} f q m x' s ds r rs e (k : act A) : hears s ds (r :: rs) -> f (rtsp_session s) = Ok (q, x') ->
  fst (process_response x' m (RtspClient.received r)) = Err e ->
  fst ((req <-- build f ;; resp <-- send_request req ;; _ <-- processed m resp ;; k)%act s) = Err (RtspError e None).
Proof.
  intros Hh Hf Hp. unfold abind, build. rewrite Hf. destruct (send_next q (with_rtsp s x') ds r rs) as (s1 & ds1 & w & Hs1 & _ & _ & _ & Hx & _); [exact Hh|].
  rewrite Hs1. unfold processed. rewrite Hx. cbn [rtsp_session with_rtsp]. destruct (process_response x' m _) as [res x2]. cbn [fst] in *. by subst res.
Qed.

(** ** Numbering *)
Definition numbered (q : RtspRequest) (m : Method) (n : Z) : Prop := method q = m /\ Headers_cseq (headers q) = Some n.

Lemma numbered_header q m n name v : numbered q m n -> eq_ignore_case name "CSeq" = false -> numbered (request_header q name v) m n.
Proof. intros [Hm Hn] He. split; [done|]. unfold Headers_cseq. cbn [headers request_header]. by rewrite headers_get_insert, He. Qed.
Lemma numbered_body q m n b : numbered q m n -> numbered (request_body q b) m n.
Proof. intros [Hm Hn]. split; [done|]. unfold Headers_cseq. cbn [headers request_body]. by rewrite headers_get_insert. Qed.

Lemma common_numbered {E} x m path : uint 32 (cseq x + 1) -> exists q, common (E := E) x m path = Ok (q, with_cseq x (cseq x + 1)) /\ numbered q m (cseq x + 1).
Proof.
  intros Hu. unfold common, next_cseq. rewrite chk_u_ok by done. cbn [mbind outcome_bind]. eexists. split; [done|]. unfold add_common_headers.
  assert (numbered (request_cseq (Request_new m (raop_uri (with_cseq x (cseq x + 1)) path)) (cseq x + 1)) m (cseq x + 1)) as Hn.
  { split; [done|]. unfold Headers_cseq, request_cseq. cbn [headers request_header Request_new]. rewrite headers_get_insert.
    change (eq_ignore_case "CSeq" "CSeq") with true. destruct (pretty_spec 32 (cseq x + 1) Hu ltac:(lia)) as (_ & _ & Hp). exact Hp. }
  cbn [session_id with_cseq]. destruct (session_id x); unfold request_session; repeat (apply numbered_header; [|reflexivity]); done.
Qed.


(** ** The connection sequence *)

(** What a successful response does to the session, in its own state for the
    request's method; a setup response with ports also sets the transport. *)
Definition reached (m : Method) (st : RaopSessionState) : Prop :=
  match m with
  | Options => st = OptionsExchange | Announce => st = Announcing | Rtsp.Setup => st = SettingUp | Record_ => st = Recording
  | _ => False
  end.

Lemma process_success x m r : m = Options \/ m = Announce \/ m = Record_ -> is_success r = true ->
  exists x', process_response x m r = (Ok tt, x') /\ reached m (c_state x') /\
    cseq x' = cseq x /\ session_keys x' = session_keys x /\ transport x' = transport x.
Proof.
  intros Hm Hr. unfold process_response. rewrite Hr. cbn [negb].
  destruct Hm as [->|[->| ->]]; eexists; (split; [reflexivity|]); destruct (Headers_session (resp_headers r)); done.
Qed.

Lemma process_setup x r t tr : is_success r = true -> Headers_get (resp_headers r) "Transport" = Some t ->
  parse_transport (chars_of t) = Ok tr -> exists x', process_response x Rtsp.Setup r = (Ok tt, x') /\ reached Rtsp.Setup (c_state x') /\
    cseq x' = cseq x /\ session_keys x' = session_keys x /\ transport x' = Some tr.
Proof.
  intros Hr Ht Hp. unfold process_response. rewrite Hr, Ht, Hp. cbn [negb]. eexists; (split; [reflexivity|]).
  destruct (Headers_session (resp_headers r)), (Headers_get (resp_headers r) "Audio-Latency"); done.
Qed.

Lemma received_transport r n : RtspClient.response_ok r -> Headers_get (resp_headers (RtspClient.received r)) n = Headers_get (resp_headers r) n.
Proof. intros H. cbn [RtspClient.received resp_headers]. apply headers_get_perm; [apply H|]. by rewrite hash_order_perm. Qed.

(** The request builders number what they build. *)
Definition numbers {E} (f : RaopRtspSession -> outcome E (RtspRequest * RaopRtspSession)) (m : Method) : Prop :=
  forall x, uint 32 (cseq x + 1) -> exists q, f x = Ok (q, with_cseq x (cseq x + 1)) /\ numbered q m (cseq x + 1).

Ltac number_builder := intros x Hx;
  unfold options_request, announce_request, setup_request, record_request, flush_request, teardown_request;
  match goal with |- context [common x ?m ?p] => destruct (common_numbered (E := AirPlayError) x m p Hx) as (? & -> & ?) end;
  cbn [mbind outcome_bind]; eexists; (split; [reflexivity|]);
  repeat first [apply numbered_body | apply numbered_header; [|reflexivity]]; assumption.

Lemma options_numbers : numbers (E := AirPlayError) options_request Options.
Proof. number_builder. Qed.
Lemma announce_numbers sdp : numbers (E := AirPlayError) (fun x => announce_request x sdp) Announce.
Proof. number_builder. Qed.
Lemma setup_numbers a b : numbers (E := AirPlayError) (fun x => setup_request x a b) Rtsp.Setup.
Proof. number_builder. Qed.
Lemma record_numbers a b : numbers (E := AirPlayError) (fun x => record_request x a b) Record_.
Proof. number_builder. Qed.
Lemma flush_numbers a b : numbers (E := AirPlayError) (fun x => flush_request x a b) Flush.
Proof. number_builder. Qed.

(** One step of the sequence: the request is written with the next number, and the
    session that its response leaves satisfies [P]. *)
Definition steps_to (f : RaopRtspSession -> outcome AirPlayError (RtspRequest * RaopRtspSession)) (m : Method) (s : RaopSessionImpl) (rs : list RtspResponse)
  (tr : option RaopTransport) : Prop :=
  exists s2 ds2 q, (forall A (k : act A), (req <-- build f ;; resp <-- send_request req ;; _ <-- processed m resp ;; k)%act s = k s2) /\ hears s2 ds2 rs /\
    written_of s2 = written_of s ++ request_encode q /\ numbered q m (cseq (rtsp_session s) + 1) /\
    reached m (c_state (rtsp_session s2)) /\ cseq (rtsp_session s2) = cseq (rtsp_session s) + 1 /\
    session_keys (rtsp_session s2) = session_keys (rtsp_session s) /\ transport (rtsp_session s2) = tr.

Lemma turn f m s ds r rs tr : numbers f m -> 0 <= cseq (rtsp_session s) < 2 ^ 32 - 1 -> hears s ds (r :: rs) ->
  (forall x, transport x = transport (rtsp_session s) -> exists x', process_response x m (RtspClient.received r) = (Ok tt, x') /\ reached m (c_state x') /\
     cseq x' = cseq x /\ session_keys x' = session_keys x /\ transport x' = tr) -> steps_to f m s rs tr.
Proof.
  intros Hf Hu Hh Hp. destruct (Hf (rtsp_session s)) as (q & Hq & Hn); [unfold uint; lia|].
  destruct (Hp (with_cseq (rtsp_session s) (cseq (rtsp_session s) + 1)) eq_refl) as (x' & Hx' & Hr & Hc & Hk & Ht).
  destruct (exchange f q m _ s ds r rs Hh Hq) as (s2 & ds2 & H & Hh2 & Hx & Hw); [by rewrite Hx'|].
  rewrite Hx' in Hx. cbn [snd] in Hx. exists s2, ds2, q. rewrite Hx. done.
Qed.

Lemma turn_success f m s ds r rs : numbers f m -> m = Options \/ m = Announce \/ m = Record_ -> 0 <= cseq (rtsp_session s) < 2 ^ 32 - 1 ->
  hears s ds (r :: rs) -> is_success r = true -> steps_to f m s rs (transport (rtsp_session s)).
Proof.
  intros Hf Hm Hu Hh Hr. eapply turn; [done..|]. intros x Hx. rewrite <- Hx. by apply process_success.
Qed.

Lemma turn_setup s ds r rs a b t tr : 0 <= cseq (rtsp_session s) < 2 ^ 32 - 1 -> hears s ds (r :: rs) -> is_success r = true ->
  Headers_get (resp_headers r) "Transport" = Some t -> parse_transport (chars_of t) = Ok tr ->
  steps_to (fun x => setup_request x a b) Rtsp.Setup s rs (Some tr).
Proof.
  intros Hu Hh Hr Ht Htr. eapply turn; [apply setup_numbers|done|exact Hh|]. intros x _. eapply process_setup; [done| |exact Htr].
  rewrite received_transport; [done|]. destruct Hh as (w & _ & (H & _) & _). by apply Forall_inv in H.
Qed.

Lemma audio_ready e s tr keys : transport (rtsp_session s) = Some tr -> session_keys (rtsp_session s) = Some keys ->
  length (k_aes_key keys) = 16%nat -> length (k_aes_iv keys) = 16%nat -> (forall name, udp e name = UdpOk) ->
  exists st, setup_audio_streaming e s = (Ok tt, with_audio s (Some st) (Some (rt_server tr)) (Some (rt_control tr))).
Proof.
  intros Ht Hk H1 H2 Hu. unfold setup_audio_streaming. rewrite Ht, Hk. unfold abind, setup_udp_socket. rewrite !Hu.
  destruct (RaopStream.new_ready (E := AirPlayError) keys (RaopStream.StreamConfig_default (rnd_ssrc e)) (clock e) H1 H2) as (st & -> & _). by exists st.
Qed.

(** C11: against a peer that answers with four successes and names its ports, connecting
    ends with the session connected: the bytes written are the encodings of OPTIONS,
    ANNOUNCE, SETUP and RECORD, in this order and numbered consecutively from the
    session's last number, however the responses are cut into reads; the session records,
    the streamer exists and the two datagram sockets are connected to the peer's audio
    and control ports. *)
Theorem connect_handshake (e : ConnectEnv) (s : RaopSessionImpl) (ds : list (list Z)) (r1 r2 r3 r4 : RtspResponse) (t : string) (tr : RaopTransport) (enc : list Z)
  (Htcp : tcp e = Ok (mkStream (map Data ds) None []))
  (Hfeeds : feeds (codec s) ds [r1; r2; r3; r4])
  (Hok : Forall (fun r => is_success r = true) [r1; r2; r3; r4])
  (Hseq : 0 <= cseq (rtsp_session s) < 2 ^ 32 - 4)
  (Henc : encrypt_oaep e (rnd_key e) = Ok enc)
  (Hkey : length (rnd_key e) = 16%nat) (Hiv : length (rnd_iv e) = 16%nat)
  (Ht : Headers_get (resp_headers r3) "Transport" = Some t) (Htr : parse_transport (chars_of t) = Ok tr)
  (Hudp : forall name, udp e name = UdpOk) :
  let n := cseq (rtsp_session s) in
  exists s' q1 q2 q3 q4, connect e s = (Ok tt, s') /\ connected s' = true /\
    c_state (rtsp_session s') = Recording /\ cseq (rtsp_session s') = n + 4 /\
    transport (rtsp_session s') = Some tr /\ is_Some (streamer s') /\
    audio_socket s' = Some (rt_server tr) /\ control_socket s' = Some (rt_control tr) /\
    written_of s' = request_encode q1 ++ request_encode q2 ++ request_encode q3 ++ request_encode q4 /\
    numbered q1 Options (n + 1) /\ numbered q2 Announce (n + 2) /\ numbered q3 Rtsp.Setup (n + 3) /\ numbered q4 Record_ (n + 4).
Proof.
  intros n. set (s0 := with_stream s (Some (mkStream (map Data ds) None []))).
  assert (hears s0 ds [r1; r2; r3; r4]) as Hh by (by eexists).
  assert (RtspClient.response_ok r3) as Hr3 by (destruct Hfeeds as ((H & _) & _); rewrite Forall_forall in H; apply H; set_solver).
  rewrite !Forall_cons in Hok. destruct Hok as (S1 & S2 & S3 & S4 & _).
  unfold connect, abind at 1. rewrite Htcp. change (with_stream s _) with s0.
  destruct (turn_success options_request Options s0 ds r1 [r2; r3; r4]) as (s1 & ds1 & q1 & -> & H1 & W1 & N1 & _ & C1 & K1 & T1);
    [apply options_numbers|by left|cbn; lia|done|done|].
  unfold abind at 1, prepare_announce, generate. rewrite Henc. cbn [mbind outcome_bind].
  match goal with |- context [with_rtsp s1 ?x] => set (s1' := with_rtsp s1 x) end.
  match goal with |- context [announce_request _ ?x] => set (sdp := x) end.
  destruct (turn_success (fun x => announce_request x sdp) Announce s1' ds1 r2 [r3; r4]) as (s2 & ds2 & q2 & -> & H2 & W2 & N2 & _ & C2 & K2 & T2);
    [apply announce_numbers|by right; left|cbn; rewrite C1; cbn; lia|exact H1|done|].
  destruct (turn_setup s2 ds2 r3 [r4] 0 0 t tr) as (s3 & ds3 & q3 & -> & H3 & W3 & N3 & _ & C3 & K3 & T3);
    [rewrite C2; cbn; rewrite C1; cbn; lia|done..|].
  destruct (turn_success (fun x => record_request x 0 0) Record_ s3 ds3 r4 []) as (s4 & ds4 & q4 & -> & H4 & W4 & N4 & R4 & C4 & K4 & T4);
    [apply record_numbers|by right; right|rewrite C3, C2; cbn; rewrite C1; cbn; lia|done|done|].
  unfold abind at 1. destruct (audio_ready e s4 tr (mkKeys (rnd_key e) (rnd_iv e) enc)) as (st & ->); [by rewrite T4|by rewrite K4, K3, K2|done..|].
  change (cseq (rtsp_session s1')) with (cseq (rtsp_session s1)) in *. change (cseq (rtsp_session s0)) with n in *.
  rewrite C1 in *. rewrite C2 in *. rewrite C3 in *.
  rewrite W3, W2 in W4. change (written_of s1') with (written_of s1) in W4. rewrite W1 in W4. change (written_of s0) with (@nil Z) in W4.
  rewrite <- !Z.add_assoc in *.
  eexists _, q1, q2, q3, q4. split; [reflexivity|]. cbn. split_and!; try done; [by rewrite T4|].
  unfold written_of in *. cbn [with_connected with_audio stream]. rewrite W4. by rewrite <- !app_assoc.
Qed.

(** ** A response that comes late *)

(** More bytes arrive on the session's stream. *)
Definition arrive (s : RaopSessionImpl) (ds : list (list Z)) : RaopSessionImpl :=
  match stream s with
  | Some t => with_stream s (Some (mkStream (reads t ++ map Data ds) (write_error t) (written t)))
  | None => s
  end.

Lemma send_times_out q s : hears s [] [] -> send_request q s = (Err Timeout, with_link s (mkStream [] None (written_of s ++ request_encode q)) (codec s)).
Proof.
  intros (w & Hs & (_ & Hst & Hb) & _). rewrite app_nil_r in Hb. unfold send_request, written_of. rewrite Hs. cbn [write_error reads written map read_loop].
  destruct (codec s) as [buf max st]. cbn in Hst, Hb. subst buf st. reflexivity.
Qed.

(** A request that timed out leaves its response to the next one. The exchange takes
    whatever response comes first: when the answer to [q1] arrives after its time, the
    following request [q2] is given that answer, whose number is not its own, and its
    own answer stays for the request after it. *)
Theorem late_response_shifts (s : RaopSessionImpl) (q1 q2 : RtspRequest) (ds : list (list Z)) (r1 r2 : RtspResponse)
  (Hs : hears s [] []) (Hf : feeds (codec s) ds [r1; r2])
  (Hr1 : Headers_cseq (resp_headers r1) = Headers_cseq (headers q1))
  (Hq : Headers_cseq (headers q1) <> Headers_cseq (headers q2)) :
  exists s1 s2 ds2 r, send_request q1 s = (Err Timeout, s1) /\ send_request q2 (arrive s1 ds) = (Ok r, s2) /\
    r = RtspClient.received r1 /\ Headers_cseq (resp_headers r) <> Headers_cseq (headers q2) /\ hears s2 ds2 [r2].
Proof.
  rewrite (send_times_out q1 s Hs). match goal with |- context [(Err Timeout, ?x)] => set (s1 := x) end.
  destruct (send_next q2 (arrive s1 ds) ds r1 [r2]) as (s2 & ds2 & w & H2 & Hh & _); [by eexists; split; [reflexivity|]|].
  exists s1, s2, ds2, (RtspClient.received r1). split_and!; [done..| |done].
  unfold Headers_cseq in *. rewrite received_transport; [congruence|]. destruct Hf as ((H & _) & _). by apply Forall_inv in H.
Qed.

End WithOrder.

(** ** Witnesses *)
#[local] Existing Instance RtspParser.reverse_order.
#[local] Existing Instance RtspParser.reverse_order_laws.
#[local] Existing Instance Sdp.RealBase64.base64.
#[local] Existing Instance Sdp.table_order.
#[local] Existing Instance RaopStream.flip_cipher.
#[local] Existing Instance RaopStream.flip_cipher_laws.

Definition demo_impl : RaopSessionImpl := Impl_new "10.0.0.3" 5000 "0011223344556677" "8899AABBCCDDEEFF" 42 (replicate 16 7).
Definition demo_answer (n : Z) : RtspResponse := Builder_build (Builder_session (Builder_cseq Builder_ok n) "1").
Definition demo_ports : RtspResponse :=
  Builder_build (Builder_header (Builder_session (Builder_cseq Builder_ok 3) "1") "Transport"
    "RTP/AVP/UDP;unicast;server_port=6000;control_port=6001;timing_port=6002").
Definition demo_answers : list RtspResponse := [demo_answer 1; demo_answer 2; demo_ports; demo_answer 4].
Definition demo_bytes : list Z := concat (map encode_response demo_answers).
Definition demo_reads : list (list Z) := [take 30 demo_bytes; drop 30 demo_bytes].
Definition demo_env : ConnectEnv :=
  mkConnectEnv (Ok (mkStream (map Data demo_reads) None [])) (fun _ => UdpOk) (replicate 16 1) (replicate 16 2) 77 (fun k => Ok k) 0.

Lemma demo_answers_ok : Forall RtspClient.response_ok demo_answers.
Proof.
  repeat (apply Forall_cons_2; [|]); [..|apply Forall_nil_2]; (apply RtspClient.builder_response_ok; try (unfold uint; cbn; lia); try done);
    first [repeat apply headers_insert_ok; by apply NoDup_nil_2
          |repeat (apply RtspParser.insert_fields; [|by apply RtspParser.plain_field_ok]); apply Forall_nil_2].
Qed.

Lemma demo_feeds : feeds (codec demo_impl) demo_reads demo_answers.
Proof.
  split_and!.
  - apply RtspClient.pending_start; [exact demo_answers_ok|]. unfold demo_reads. cbn [concat app]. by rewrite app_nil_r, take_drop.
  - repeat constructor; vm_compute; discriminate.
  - vm_compute. discriminate.
Qed.

Lemma connect_handshake_witness : exists s', connect demo_env demo_impl = (Ok tt, s') /\ connected s' = true /\
  audio_socket s' = Some 6000 /\ control_socket s' = Some 6001.
Proof.
  destruct (connect_handshake demo_env demo_impl demo_reads (demo_answer 1) (demo_answer 2) demo_ports (demo_answer 4)
    "RTP/AVP/UDP;unicast;server_port=6000;control_port=6001;timing_port=6002" (mkRaopTransport 6000 6001 6002 0 0) (replicate 16 1))
    as (s' & q1 & q2 & q3 & q4 & H & H1 & _ & _ & _ & _ & H2 & H3 & _);
    [reflexivity|exact demo_feeds|repeat constructor|cbn; lia|reflexivity|reflexivity|reflexivity|vm_compute; reflexivity|vm_compute; reflexivity|reflexivity|].
  exists s'. split; [exact H|]. split; [exact H1|]. split; [exact H2|exact H3].
Defined.

Lemma late_response_shifts_witness :
  let s := with_stream demo_impl (Some (mkStream [] None [])) in
  let q n := request_cseq (Request_new Options "*") n in
  exists s1 s2, send_request (q 1) s = (Err Timeout, s1) /\ send_request (q 2) (arrive s1 [encode_response (demo_answer 1); encode_response (demo_answer 2)]) =
    (Ok (RtspClient.received (demo_answer 1)), s2).
Proof.
  intros s q.
  destruct (late_response_shifts s (q 1) (q 2) [encode_response (demo_answer 1); encode_response (demo_answer 2)] (demo_answer 1) (demo_answer 2))
    as (s1 & s2 & ds2 & r & H1 & H2 & -> & _ & _).
  - exists []. split; [reflexivity|]. split_and!; [by apply RtspClient.pending_start|apply Forall_nil_2|vm_compute; discriminate].
  - split_and!; [|repeat constructor; vm_compute; discriminate|vm_compute; discriminate].
    apply RtspClient.pending_start; [|reflexivity]. pose proof demo_answers_ok as H. unfold demo_answers in H. rewrite !Forall_cons in H.
    destruct H as (A1 & A2 & _). apply Forall_cons_2; [exact A1|apply Forall_cons_2; [exact A2|apply Forall_nil_2]].
  - vm_compute. reflexivity.
  - vm_compute. discriminate.
  - exists s1, s2. split; [exact H1|exact H2].
Defined.

End RaopConnect.
